(* ===== verification/_CoqProject ===== *)
-Q . S2P
Prelude.v
Sys.v
Fmt.v
Mbuf.v
MbufOps.v
Mem.v
LibList.v
Tmr.v
EventLoop.v
TcpConn.v
TcpSock.v
Udp.v
Crc32.v
StunCodec.v
StunProofs.v
Regex.v
Rtp.v
H264.v
G711.v
AudioIn.v
AudioOut.v
Base64.v
Camera.v
AnnexB.v
RtspAuth.v
RtspParse.v
RtspState.v
RtspServer.v
RtspReply.v
RtspAccess.v
RtspInv.v
RtspSteps.v
RtspRecv.v
RtspMedia.v
FrameWire.v
Viewer.v
RelayClient.v
RelayServer.v
RelayFds.v
RelayBridge.v
Session.v
StunClient.v
StunTrans.v
StunDiscovery.v
HttpServer.v
Pl.v
HttpProofs.v
Sa.v
HttpMsg.v
HttpConn.v
HttpWire.v
Srtp.v
SrtpReplay.v
SrtpDeliver.v
SrtcpDeliver.v
SrtpAuth.v
Main.v
