(* ===== verification/Prelude.v ===== *)
(** * Smart-lock intercom: a verification development

    The program is a video intercom: a device that captures audio and video,
    serves them over RTSP, plays what a visitor or owner says, can be reached
    through a relay when it is behind a NAT, and offers a small HTTP interface.
    Its C code is [src/intercom_test]; it runs on the library libre
    ([src/re-4.6.0]), of which the functions used here are modelled as well.

    ** The parts and how they interact

    [main.c] starts the HTTP server, the RTSP server and, if asked to, digest
    authentication, STUN and the relay client, and runs libre's event loop.  The
    loop calls the handlers: TCP data for RTSP clients, timers for audio (20 ms)
    and video (66 ms), HTTP requests, the relay connection.  All handlers of the
    device run on one thread, except the audio callbacks of the system.  RTSP
    clients and HTTP calls share the camera and the speaker.  A relay connection
    that is told BRIDGE is handed to the RTSP server as a client.  The relay
    server is a separate, multi-threaded process.

    ** Files

    - [Prelude]: octets, machine widths, C string functions, list and arithmetic
      lemmas, tactics ([len_lia], [bool_hyps]) and the hint database.
    - [Sys]: the environment (class [Env]): what the operating system, the
      allocator, the random generators, the devices, the encoder and MD5 answer,
      as a function of the question and of the number of questions asked before,
      hence arbitrary and changing; the trace of outside effects; the monads [IO]
      and [M] and their weakest preconditions [iwp] and [wp].
    - [Fmt], [Mbuf], [Rtp], [Base64]: libre's [fmt/print.c], the part of
      [mbuf/mbuf.c] that the intercom calls, [rtp/rtp.c], [base64/b64.c].
      [MbufOps]: the rest of [mbuf/mbuf.c].  [Regex], [Pl]: [fmt/regex.c],
      [fmt/pl.c] and [fmt/str.c].  [Sa]: [sa/sa.c].
    - [Mem]: the reference counts of [mem/mem.c], with destructors.
    - [LibList], [Tmr]: [list/list.c] on a memory of elements and pointers, and
      [tmr/tmr.c] on it.  [EventLoop]: [main/main.c] with [select] as the method.
    - [TcpConn], [TcpSock]: the connections of [tcp/tcp.c], without helpers,
      and the opening and closing of sockets.  [Udp]: the sockets of [udp/udp.c]
      and their stacks of helpers.
    - [Crc32], [StunCodec]: [crc32/crc32.c] and the messages of [stun/]
      ([hdr.c], [addr.c], [attr.c], [msg.c]), with their theorems in
      [StunProofs].  [StunTrans]: the transactions ([ctrans.c], [req.c],
      [rep.c], [ind.c], [stun.c]).
    - [H264]: the packetiser of [rtsp_server.c] and [session.c], libre's
      [h264_nal_send], a reference receiver.  [AnnexB]: the rest of libre's
      [h264/nal.c], on byte streams.  [G711]: libre's tables and encoder,
      the decoder of [audio_out_win.c].
    - [AudioIn], [AudioOut], [Camera]: [audio_in_win.c], [audio_out_win.c],
      [camera_win.c].
    - [RtspAuth]: [rtsp_auth.c].  [RtspParse]: the parsers of [rtsp_server.c].
      [RtspState]: [struct rtsp_client], [g_rtsp] and the world around them.
      [RtspServer]: all handlers, timers and public functions of
      [rtsp_server.c].  The theorems follow in [RtspReply] (what is put on the
      wire), [RtspAccess] (access control), [RtspInv] and [RtspSteps] (the
      invariant and the event loop), [RtspRecv] (framing: what is handled does
      not depend on TCP segmentation), [RtspMedia] (timers), [FrameWire] (the
      frames of the camera on the wire, against libre's packetiser).
      [Viewer]: camera, timers, packetiser and connection together, up to a
      viewer that puts the NAL units together again.
    - [RelayClient]: [relay_client.c].  [RelayServer]: [relay_server.c], with
      [RelayFds] for its descriptors and [main].  [RelayBridge]: relay client and
      server together with the RTSP server.
    - [Session]: [session.c].  [StunClient]: [stun_client.c].
      [StunDiscovery]: the STUN client on the transactions and on the reception
      of datagrams in [udp/udp.c].  [HttpServer]: [http_server.c], with its
      theorems in [HttpProofs].  [HttpMsg], [HttpConn]: how libre's
      [http/msg.c] and [http/server.c] decode requests and keep connections;
      [HttpWire]: what clients print and these decode.
    - [Srtp]: libre's secure RTP ([srtp/], on [aes/openssl/aes.c] and
      [hmac/openssl/hmac.c]).  The theorems are in [SrtpReplay] (the window of
      indices), [SrtpDeliver] and [SrtcpDeliver] (what is sent arrives) and
      [SrtpAuth] (what is accepted is authentic, and where it is not).
    - [Main]: [main.c].

    Definitions carry the names of the C functions; a part of a long function
    that is a definition of its own is named after what it does and mapped to
    its lines.  A static variable is a record ([g_rtsp] is [rtsp], [g_ain] is
    [audio_in], ...), a function that changes it is a computation in [M].  A
    timer is the delay it was last started with or [None].  A list of clients is
    a list of records named by their connection, so that a client that has been
    freed is simply absent.

    ** What the theorems show

    - Invariants over everything that can happen: the RTSP server
      ([rtsp_invariant], by rule induction on the steps of the event loop), the
      relay client ([relay_client_invariant]), the relay server's bridges under
      any interleaving of its threads as long as no descriptor is reused under a
      thread ([bridge_authorised], in [RelayFds]), camera, authentication and
      speaker state.  The relay client's invariant is about starts while it is
      stopped, as [main] does; [start_while_running] says what the other starts
      do.
    - Security: requests without a valid digest are powerless, what the check
      decides, replays are refused once the generator gives a new nonce, the file
      that each HTTP request opens is inside the web directory, bridges are authorised, and the relay forwards, sends and closes
      nothing between strangers as long as no descriptor is reused under a thread
      ([relay_isolates]; [bridge_hijacked] is the run in which one is).
    - Functional behaviour of the handlers and timers, error answers included:
      replies whole or not at all, what every client gets on a tick and how its
      counters move, when media stops, what a relay line does, what a call
      connects to, what shutdown releases and which devices are still open
      after it ([shutdown_complete]).
    - Round trips: the whole video path from the camera to a viewer of the
      connection that takes what it is given ([viewer_sees]), packetiser and receiver, RTP header, interleaved frames,
      digest challenge and response, request and Transport parsing, registration
      line, base-64, mu-law; STUN messages with their integrity checks
      ([stun_roundtrip]); HTTP requests ([http_requests_roundtrip]), numbers ([number_roundtrip]), addresses
      ([sa_text_roundtrip]), aggregation packets ([stap_roundtrip]).
    - The library underneath: linked lists and timers refine sequences and an
      ordered queue ([list_ops_refine], [timers_refine_queue]); sorting and
      polling end ([list_sort_terminates_sorted], [tmr_poll_terminates]); a TCP
      connection is a byte stream that is written out ([tcp_stream],
      [tcp_drains]), and sockets neither leak nor close a descriptor of another
      ([tcp_descriptors]); objects are freed exactly when nothing refers to them, and
      no access is to freed memory ([mem_safe], [mem_collects]); the event loop
      calls each ready descriptor's handler, survives any opening and closing in
      handlers, and comes back to the timers ([event_loop_safe],
      [fd_poll_dispatches]); a buffer is a tape without memory ([mbuf_is_tape]); a
      STUN request is ended by a response with its transaction identifier only,
      checked with its key but for the codes 401 and 438 that the code exempts,
      and ends when there is none ([stun_recv_matches], [stun_gives_up]); the
      STUN client's own request always ends that way, as its socket has no
      handler ([discovery_never_succeeds]); decoding stays inside the message
      ([stun_decode_within]); HTTP requests are served in order, however TCP cuts
      the stream, up to the limit of 1 MB at which the connection is closed
      ([http_recv_serves]).
    - UDP: the helpers of a socket are a stack ([udp_stack]), two stacks of the
      same layers understand each other ([udp_peers]), sockets give back their
      descriptors ([udp_listen_descriptors]).
    - Secure RTP: packets come out as they went in for every suite, whatever is
      lost without a gap of more than 2^15, when the first that arrives has an
      index below 2^16 ([srtp_delivers]), and control packets without these
      conditions ([srtcp_delivers]); nothing is accepted twice
      ([srtp_no_replay], [replay_window_refines]) or without a tag of the
      session's key ([srtp_authentic]); [srtcp_unchecked] is the exception.
    - Equivalence and refinement: the ring buffer is a bounded queue, the
      doorbell implements its specification, framing ([recv_handles_stream]) and
      line protocol do not depend on TCP segmentation, the hand-written RTP parser agrees with
      libre's, the packetiser agrees with libre's but for one length, on whole
      frames of at most 32 units, as they are sent ([frame_packets_libre]), the search for
      start codes by words finds what a search by octets does
      ([startcode_search]).
    - Lemmas that document behaviour the code should not have, among them
      [overflow_leaves_timers], [speaker_closed_under_other],
      [registration_lost], [double_close], [long_id_not_found],
      [session_steals_camera], [httpsock_released_twice],
      [close_cuts_message], [early_queue_stalls],
      [bridge_hijacked], [realloc_copies_ownership], [stale_event],
      [empty_unit_overruns], [casecmp_confuses],
      [srtcp_unchecked], [srtcp_replayed], [forged_packet_desyncs],
      [forged_streams_exhaust].

    ** Hypotheses

    [AllocOk] (memory can be allocated) is a hypothesis only where a theorem
    says that something is sent completely; where it is absent the statement
    covers allocation failures.  [Md5Spec] says that MD5 returns 16 octets,
    [EncoderBytes] that the encoder returns octets.  Both have instances
    ([good_env], [demo_env]).  HMAC-SHA1 is a function with a 20-octet result.
    [CryptoSpec] says that AES decrypts what it encrypted and how long tags are,
    [CryptoOk] that its calls succeed (only where packets must arrive); an
    instance of both is [demo_crypto].
    The theorems on lists and timers ask for valid pointers, those on polling for
    handlers that restart timers with a positive delay; those on memory for
    destructors that release what their object owns; those on the event loop for
    handlers that act on registrations they hold.  [InetText] says that
    [inet_ntop] and [inet_pton] agree.

    ** Fuel

    Loops that do not follow the structure of their data take fuel, always an
    upper bound of their rounds: the length of the data where each round
    consumes at least one octet ([recv_loop], [relay_lines], [fua_loop],
    [send_all], the parsers), the number of samples to skip ([drain_loop]), 64
    digits for a 64-bit number ([itoa_loop]), the elements of a list and the
    inversions of its order for the loops over pointers, the timers that are due
    for a poll, the octets left for attributes, the references held for the
    release of an object, the octets of a byte stream.  That the bound is enough is part
    of the theorems: [recv_drains], [recv_handles_stream], [relay_recv_correct],
    [send_h264_nalu_correct], [drain_excess_latency], [list_ops_refine],
    [list_sort_terminates_sorted], [tmr_poll_terminates], [http_recv_serves],
    [stun_roundtrip].

    ** What is not modelled

    Log messages; the rest of libre (the event loop with epoll or kqueue and its
    use from several threads, TCP helpers, RTCP, TLS, DNS, SIP, ICE,
    the HTTP client, buffers that share memory); OpenH264 and the Windows
    multimedia drivers; [session_old.c], which no build uses; the stubs for other
    systems; the Android and web clients. *)

From stdpp Require Export base list numbers strings option.
From Stdlib Require Export ZArith Lia Ascii.

Global Open Scope list_scope.
Global Open Scope Z_scope.

(** ** Bytes, machine words *)

(** A [char], [uint8_t] or octet is a [Z] in [0, 256); a buffer is a list. *)
Abbreviation bytes := (list Z).

Definition is_byte (b : Z) : Prop := 0 <= b < 256.
Definition is_byteb (b : Z) : bool := (0 <=? b) && (b <? 256).

(** Conversion to the unsigned C types, as the language defines it. *)
Definition u8 (z : Z) : Z := z mod 256.
Definition u16 (z : Z) : Z := z mod 65536.
Definition u32 (z : Z) : Z := z mod 4294967296.
Definition u64 (z : Z) : Z := z mod 18446744073709551616.

(** Two's complement [int16_t] and [int32_t]. *)
Definition i16 (z : Z) : Z := (z + 32768) mod 65536 - 32768.
Definition i32 (z : Z) : Z := (z + 2147483648) mod 4294967296 - 2147483648.

(** [size_t] lengths live in [nat]; [zlen] is the same number as a [Z]. *)
Abbreviation zlen l := (Z.of_nat (length l)).

(** ** Literals

    [cstr "..."] is the content of a C string literal.  The two-character
    sequences [\r], [\n], [\t], [\\] and [\0] mean what they mean in C and [\q]
    stands for the double quote. *)
Fixpoint cstr (s : string) : bytes :=
  match s with
  | EmptyString => []
  | String "\" (String c t) =>
      (if Ascii.eqb c "r" then 13
       else if Ascii.eqb c "n" then 10
       else if Ascii.eqb c "t" then 9
       else if Ascii.eqb c "q" then 34
       else if Ascii.eqb c "0" then 0
       else Z.of_N (N_of_ascii c)) :: cstr t
  | String c t => Z.of_N (N_of_ascii c) :: cstr t
  end.

(** A one-character literal. *)
Definition chr (c : ascii) : Z := Z.of_N (N_of_ascii c).

Definition CRLF : bytes := [13; 10].

(** ** The C string functions the code calls

    Each works on the content of the array from the pointer on.  A NUL ends a
    C string, so [cstring] cuts the content there; the [mem*] functions do
    not. *)
Fixpoint cstring (l : bytes) : bytes :=
  match l with
  | [] => []
  | c :: t => if c =? 0 then [] else c :: cstring t
  end.

Fixpoint prefixb (p l : bytes) : bool :=
  match p, l with
  | [], _ => true
  | _ :: _, [] => false
  | a :: p', b :: l' => (a =? b) && prefixb p' l'
  end.

(** [strstr]: offset of the first occurrence (of a non-NUL needle in the
    content of a C string). *)
Fixpoint find_sub (needle l : bytes) : option nat :=
  if prefixb needle l then Some 0%nat
  else match l with
       | [] => None
       | _ :: t => S <$> find_sub needle t
       end.

Definition strstr (hay needle : bytes) : option nat :=
  find_sub needle (cstring hay).

(** [memchr] *)
Fixpoint memchr (l : bytes) (c : Z) : option nat :=
  match l with
  | [] => None
  | x :: t => if x =? c then Some 0%nat else S <$> memchr t c
  end.

(** [strchr] of a character other than NUL. *)
Definition strchr (l : bytes) (c : Z) : option nat := memchr (cstring l) c.

(** [strrchr] of a character other than NUL. *)
Fixpoint memrchr (l : bytes) (c : Z) : option nat :=
  match l with
  | [] => None
  | x :: t =>
      match memrchr t c with
      | Some n => Some (S n)
      | None => if x =? c then Some 0%nat else None
      end
  end.
Definition strrchr (l : bytes) (c : Z) : option nat := memrchr (cstring l) c.

(** [strcmp(a, b) == 0] *)
Definition bytes_eqb (a b : bytes) : bool := bool_decide (a = b).
Definition streq (a b : bytes) : bool := bytes_eqb (cstring a) (cstring b).

Definition tolower (c : Z) : Z := if (65 <=? c) && (c <=? 90) then c + 32 else c.

(** [strncasecmp(a, lit, n) == 0] and [strncmp(a, lit, n) == 0], for a literal
    [lit] of exactly [n] characters: a NUL or the end of [a] before [n]
    characters is a mismatch. *)
Fixpoint starts_nocase (lit l : bytes) : bool :=
  match lit, l with
  | [], _ => true
  | _ :: _, [] => false
  | a :: lit', b :: l' => (tolower a =? tolower b) && starts_nocase lit' l'
  end.
Definition starts_with (lit l : bytes) : bool := prefixb lit l.

(** [strcasecmp(a, b) == 0] *)
Definition strcaseeq (a b : bytes) : bool :=
  bytes_eqb (map tolower (cstring a)) (map tolower (cstring b)).

Definition isspace (c : Z) : bool := (c =? 32) || ((9 <=? c) && (c <=? 13)).
Definition isdigit (c : Z) : bool := (48 <=? c) && (c <=? 57).

Fixpoint skip_while (p : Z -> bool) (l : bytes) : bytes :=
  match l with
  | [] => []
  | c :: t => if p c then skip_while p t else l
  end.

Fixpoint digits_val (acc : Z) (l : bytes) : Z :=
  match l with
  | [] => acc
  | c :: t => if isdigit c then digits_val (acc * 10 + (c - 48)) t else acc
  end.

(** The number [atoi] denotes: optional white space, a sign, digits. *)
Definition atoi_val (l : bytes) : Z :=
  match skip_while isspace l with
  | [] => 0
  | c :: t =>
      if c =? 45 then - digits_val 0 t
      else if c =? 43 then digits_val 0 t
      else digits_val 0 (c :: t)
  end.

(** ** Tactics *)

(** Split every boolean connective of the hypotheses and read the comparisons
    on [Z] and [nat] as propositions. *)
Ltac bool_hyps :=
  repeat match goal with
    | H : _ && _ = true |- _ => apply andb_true_iff in H; destruct H
    | H : _ || _ = false |- _ => apply orb_false_iff in H; destruct H
    | H : negb _ = true |- _ => apply negb_true_iff in H
    | H : negb _ = false |- _ => apply negb_false_iff in H
    | H : (_ =? _) = true |- _ => apply Z.eqb_eq in H
    | H : (_ =? _) = false |- _ => apply Z.eqb_neq in H
    | H : (_ <? _) = true |- _ => apply Z.ltb_lt in H
    | H : (_ <? _) = false |- _ => apply Z.ltb_ge in H
    | H : (_ <=? _) = true |- _ => apply Z.leb_le in H
    | H : (_ <=? _) = false |- _ => apply Z.leb_gt in H
    | H : (_ =? _)%nat = true |- _ => apply Nat.eqb_eq in H
    | H : (_ =? _)%nat = false |- _ => apply Nat.eqb_neq in H
    | H : (_ <? _)%nat = true |- _ => apply Nat.ltb_lt in H
    | H : (_ <? _)%nat = false |- _ => apply Nat.ltb_ge in H
    | H : (_ <=? _)%nat = true |- _ => apply Nat.leb_le in H
    | H : (_ <=? _)%nat = false |- _ => apply Nat.leb_gt in H
    | H : bool_decide _ = true |- _ => apply bool_decide_eq_true in H
    | H : bool_decide _ = false |- _ => apply bool_decide_eq_false in H
    end.

(** Case analysis on the innermost [if] or [match] of the goal. *)
Ltac case_if :=
  match goal with
  | |- context [if ?b then _ else _] =>
      lazymatch b with
      | context [if _ then _ else _] => fail
      | _ => let E := fresh "E" in destruct b eqn:E
      end
  end.

(** Arithmetic with [/] and [mod] by constants. *)
Ltac mod_lia :=
  unfold u8, u16, u32, u64, i16, i32, is_byte in *; Z.div_mod_to_equations; lia.

(** Arithmetic on the lengths of lists built with the usual operations. *)
Lemma len_nil {A} : length (@nil A) = 0%nat.
Proof. done. Qed.
Lemma len_cons {A} (x : A) l : length (x :: l) = S (length l).
Proof. done. Qed.
Ltac len_simpl :=
  rewrite ?length_app, ?length_take, ?length_drop, ?length_map, ?length_replicate,
    ?length_seq, ?len_cons, ?len_nil in *.
Ltac len_lia := repeat (progress len_simpl); cbn [length] in *; lia.

Create HintDb intercom discriminated.
Create HintDb bytes discriminated.

(** ** Lemmas on machine words *)
Lemma u8_range z : 0 <= u8 z < 256.
Proof. mod_lia. Qed.
Lemma u16_range z : 0 <= u16 z < 65536.
Proof. mod_lia. Qed.
Lemma u32_range z : 0 <= u32 z < 4294967296.
Proof. mod_lia. Qed.
Lemma u16_small z : 0 <= z < 65536 -> u16 z = z.
Proof. apply Z.mod_small. Qed.
Lemma u8_small z : 0 <= z < 256 -> u8 z = z.
Proof. apply Z.mod_small. Qed.
Lemma u32_small z : 0 <= z < 4294967296 -> u32 z = z.
Proof. apply Z.mod_small. Qed.
Lemma u64_small z : 0 <= z < 2 ^ 64 -> u64 z = z.
Proof. apply Z.mod_small. Qed.
Lemma u8_byte z : is_byte (u8 z).
Proof. apply u8_range. Qed.
#[export] Hint Resolve u8_byte : bytes.

Lemma u16_add_u16 a b : u16 (u16 a + b) = u16 (a + b).
Proof. unfold u16. apply Zplus_mod_idemp_l. Qed.

Lemma is_byteb_spec b : is_byteb b = true <-> is_byte b.
Proof. unfold is_byteb, is_byte. rewrite andb_true_iff, Z.leb_le, Z.ltb_lt. lia. Qed.

(** ** Lemmas on the string functions *)
Lemma bytes_eqb_eq a b : bytes_eqb a b = true <-> a = b.
Proof. unfold bytes_eqb. apply bool_decide_eq_true. Qed.
Lemma bytes_eqb_refl a : bytes_eqb a a = true.
Proof. by apply bytes_eqb_eq. Qed.

Lemma prefixb_spec p l : prefixb p l = true <-> exists k, l = p ++ k.
Proof.
  revert l. induction p as [|a p IH]; intros l; simpl.
  - split; [by eexists|done].
  - destruct l as [|b l]; simpl.
    + split; [done|intros [k Hk]; discriminate].
    + rewrite andb_true_iff, Z.eqb_eq, IH. split.
      * intros [-> [k ->]]. by exists k.
      * intros [k Hk]. injection Hk as -> ->. eauto.
Qed.

Lemma prefixb_app p l k : prefixb p l = true -> prefixb p (l ++ k) = true.
Proof.
  rewrite !prefixb_spec. intros [x ->]. exists (x ++ k). by rewrite <- app_assoc.
Qed.

(** The first occurrence of a substring: what precedes it, and that nothing
    starts earlier. *)
Lemma find_sub_Some n l i :
  find_sub n l = Some i ->
  exists k, l = take i l ++ n ++ k /\ (i + length n <= length l)%nat
            /\ forall j, (j < i)%nat -> prefixb n (drop j l) = false.
Proof.
  revert i. induction l as [|c l IH]; intros i H; simpl in H.
  - destruct (prefixb n []) eqn:E; [|done]. injection H as <-.
    apply prefixb_spec in E as [k E]. destruct n; [|done].
    exists []. repeat split; simpl; lia.
  - destruct (prefixb n (c :: l)) eqn:E.
    + injection H as <-. apply prefixb_spec in E as [k E]. exists k.
      rewrite E. rewrite length_app. simpl. repeat split; [lia|].
      intros j Hj. lia.
    + destruct (find_sub n l) as [m|] eqn:F; [|done]. simpl in H.
      injection H as <-. destruct (IH m eq_refl) as (k & Hl & Hlen & Hmin).
      exists k. repeat split.
      * simpl. by rewrite Hl at 1.
      * simpl. lia.
      * intros [|j] Hj; simpl; [done|]. apply Hmin. lia.
Qed.

(** Appending bytes does not change where the first occurrence is. *)
Lemma find_sub_app n l k i :
  find_sub n l = Some i -> find_sub n (l ++ k) = Some i.
Proof.
  revert i. induction l as [|c l IH]; intros i H; simpl in H.
  - destruct (prefixb n []) eqn:E; [|done]. injection H as <-.
    destruct n; [|done]. simpl. by destruct k.
  - destruct (prefixb n (c :: l)) eqn:E.
    + simpl. apply (prefixb_app _ _ k) in E. simpl in E. by rewrite E.
    + destruct (find_sub n l) as [m|] eqn:F; [|done]. simpl in H. injection H as <-.
      specialize (IH m eq_refl).
      assert (prefixb n (c :: l ++ k) = false) as E'.
      { destruct (prefixb n (c :: l ++ k)) eqn:P; [|done]. exfalso.
        destruct (find_sub_Some _ _ _ F) as (x & Hl & Hlen & _).
        apply prefixb_spec in P as [y P].
        assert (prefixb n (c :: l) = true); [|congruence].
        assert (take (length n) ((c :: l) ++ k) = n) as T.
        { simpl app. rewrite P. apply take_app_length. }
        rewrite take_app_le in T by (simpl; lia).
        apply prefixb_spec. exists (drop (length n) (c :: l)).
        rewrite <- (take_drop (length n) (c :: l)) at 1. by rewrite T. }
      simpl. rewrite E'. by rewrite IH.
Qed.

Lemma cstring_no_nul l : Forall (fun c => c <> 0) l -> cstring l = l.
Proof.
  induction 1 as [|c l Hc Hl IH]; simpl; [done|].
  destruct (Z.eqb_spec c 0); [done|]. by rewrite IH.
Qed.

Lemma cstring_Forall l : Forall (fun c => c <> 0) (cstring l).
Proof.
  induction l as [|c l IH]; simpl; [constructor|].
  destruct (Z.eqb_spec c 0); by constructor.
Qed.

Lemma cstring_idemp l : cstring (cstring l) = cstring l.
Proof. apply cstring_no_nul, cstring_Forall. Qed.

Lemma cstring_prefix l : exists k, l = cstring l ++ k.
Proof.
  induction l as [|c l [k IH]]; simpl; [by exists []|].
  destruct (c =? 0); [by eexists|]. exists k. simpl. by f_equal.
Qed.

Lemma cstring_app_nul l k : cstring l = l -> cstring (l ++ k) = l ++ cstring k.
Proof.
  induction l as [|c l IH]; simpl; intros H; [done|].
  destruct (c =? 0) eqn:E; [discriminate|]. injection H as H. by rewrite IH.
Qed.

Lemma memchr_Some l c i :
  memchr l c = Some i ->
  l = take i l ++ c :: drop (S i) l /\ (i < length l)%nat
  /\ Forall (fun x => x <> c) (take i l).
Proof.
  revert i. induction l as [|x l IH]; intros i H; simpl in H; [done|].
  destruct (Z.eqb_spec x c) as [->|Hne].
  - injection H as <-. simpl. rewrite drop_0. repeat split; [lia|constructor].
  - destruct (memchr l c) as [m|] eqn:F; [|done]. simpl in H. injection H as <-.
    destruct (IH m eq_refl) as (Hl & Hlen & Hall). simpl. repeat split.
    + by f_equal.
    + lia.
    + by constructor.
Qed.

Lemma memchr_None l c : memchr l c = None <-> Forall (fun x => x <> c) l.
Proof.
  induction l as [|x l IH]; simpl; [split; [constructor|done]|].
  destruct (Z.eqb_spec x c) as [->|Hne].
  - split; [done|]. intros H. inversion H; done.
  - destruct (memchr l c); simpl.
    + split; [done|]. intros H. inversion H; subst. by apply IH in H3.
    + split; [|done]. intros _. constructor; [done|]. by apply IH.
Qed.

Lemma memchr_app l k c i : memchr l c = Some i -> memchr (l ++ k) c = Some i.
Proof.
  revert i. induction l as [|x l IH]; intros i H; simpl in *; [done|].
  destruct (x =? c); [done|]. destruct (memchr l c) as [m|]; [|done].
  by rewrite (IH m).
Qed.

Lemma memchr_app_None l k c :
  memchr l c = None -> memchr (l ++ k) c = (Nat.add (length l)) <$> memchr k c.
Proof.
  induction l as [|x l IH]; simpl; intros H.
  - by destruct (memchr k c).
  - destruct (x =? c); [done|]. destruct (memchr l c); [done|].
    rewrite IH by done. by destruct (memchr k c).
Qed.

(** ** Exhaustive checks

    A decidable property of a byte (or of any range) holds when it evaluates to
    [true] on every value. *)
Definition range (n : nat) : list Z := map Z.of_nat (seq 0 n).

Lemma range_check (n : nat) (P : Z -> bool) :
  forallb P (range n) = true -> forall b, 0 <= b < Z.of_nat n -> P b = true.
Proof.
  intros H b Hb. rewrite forallb_forall in H. apply H.
  unfold range. rewrite in_map_iff. exists (Z.to_nat b). rewrite in_seq. lia.
Qed.

Lemma byte_check (P : Z -> bool) :
  forallb P (range 256) = true -> forall b, is_byte b -> P b = true.
Proof. intros H b Hb. by apply (range_check 256). Qed.

(** The same over [2 ^ k] consecutive values, by bisection. *)
Fixpoint all_from (k : nat) (base : Z) (P : Z -> bool) : bool :=
  match k with
  | O => P base
  | S k' => all_from k' base P && all_from k' (base + 2 ^ Z.of_nat k') P
  end.

Lemma all_from_spec k base P :
  all_from k base P = true -> forall x, base <= x < base + 2 ^ Z.of_nat k -> P x = true.
Proof.
  revert base. induction k as [|k IH]; intros base H x Hx; simpl in H.
  - assert (x = base) as -> by (simpl in Hx; lia). done.
  - bool_hyps. rewrite Nat2Z.inj_succ, Z.pow_succ_r in Hx by lia.
    destruct (Z.lt_ge_cases x (base + 2 ^ Z.of_nat k)).
    + apply (IH base); [done|lia].
    + apply (IH (base + 2 ^ Z.of_nat k)); [done|lia].
Qed.
