(* ===== verification/Sys.v ===== *)
(** * The system interface

    What the program calls outside its own code, as a parameter of the model:
    the operating system's sockets, the allocator, the random generators, the
    multimedia devices, the OpenH264 encoder, the MD5 of the crypto library.
    Every such call is answered by an environment [Env], which may answer
    differently each time it is asked (the answer depends on the number of
    calls made before), and every call with an effect outside the process is
    recorded in a trace.  The file also holds the two monads in which the
    effectful code is written and the weakest-precondition calculus with which
    it is proved. *)
From S2P Require Import Prelude.

(** ** Socket addresses ([struct sa] of libre) *)
Inductive sa_addr :=
  | AF_UNSPEC
  | AF_INET (a : Z)         (* host byte order *)
  | AF_INET6 (a : bytes).
Record sa := SA { sa_ip : sa_addr; sa_port : Z }.

#[export] Instance sa_addr_eq_dec : EqDecision sa_addr.
Proof. solve_decision. Defined.
#[export] Instance sa_eq_dec : EqDecision sa.
Proof. solve_decision. Defined.

(** The all-zero [struct sa] of a zeroed structure. *)
Definition sa_zero : sa := SA AF_UNSPEC 0.

Definition is_loopback6 (a : bytes) : bool :=
  bytes_eqb a (replicate 15 0 ++ [1]).

Definition sa_is_loopback (a : sa) : bool :=
  match sa_ip a with
  | AF_INET v => Z.land v 0xff000000 =? 0x7f000000
  | AF_INET6 v => is_loopback6 v
  | AF_UNSPEC => false
  end.

(** [sa_isset(sa, SA_ALL)] *)
Definition sa_isset_all (a : sa) : bool :=
  match sa_ip a with
  | AF_INET v => negb (v =? 0) && negb (sa_port a =? 0)
  | AF_INET6 v => negb (bytes_eqb v (replicate 16 0)) && negb (sa_port a =? 0)
  | AF_UNSPEC => false
  end.

Definition sa_set_port (a : sa) (port : Z) : sa :=
  match sa_ip a with
  | AF_UNSPEC => a
  | ip => SA ip (u16 port)
  end.

(** ** Error numbers *)
Definition ENOENT : Z := 2.
Definition EIO : Z := 5.
Definition EAGAIN : Z := 11.
Definition ENOMEM : Z := 12.
Definition EACCES : Z := 13.
Definition EPERM : Z := 1.
Definition ENODEV : Z := 19.
Definition EINVAL : Z := 22.
Definition ERANGE : Z := 34.
Definition EBADMSG : Z := 74.
Definition EOVERFLOW : Z := 75.
Definition EALREADY : Z := 114.
Definition EPROTO : Z := 71.
Definition EPROTONOSUPPORT : Z := 93.
Definition EAFNOSUPPORT : Z := 97.
Definition ECONNABORTED : Z := 103.
Definition ETIMEDOUT : Z := 110.

(** ** Calls that leave the process *)
Inductive event :=
  | TcpSend (conn : nat) (data : bytes)
  | TcpClose (conn : nat)
  | TcpReject
  | TcpConnect (dst : sa)
  | UdpSend (sock : nat) (dst : sa) (data : bytes)
  | UdpClose (sock : nat)
  | WaveOutWrite (pcm : list Z)
  | WaveOutReset
  | WaveInAddBuffer | WaveInStop
  | ForceIntraFrame
  | EncodeFrame (yuv : bytes)
  | EncoderDestroy
  | StunRequest (dst : sa)
  | StunFree
  | HttpReply (code : Z) (body : bytes)
  | HttpConnClose
  | HttpSockFree
  | FileOpen (path : bytes).

(** ** What the environment is asked *)
Inductive query :=
  | QAlloc               (* memory allocation: 0 is NULL *)
  | QTcpSend | QUdpSend  (* error number of a send *)
  | QListen | QAccept | QConnect
  | QPort                (* the port a socket was bound to *)
  | QRand                (* rand(), rand_u32() *)
  | QWaveOpen | QWaveStart
  | QEncCreate | QEncInit
  | QResolve
  | QStun
  | QClock
  | QInit                (* libre_init *).

(** What [EncodeFrame] returns: a result code, the frame type, and per layer
    the bitstream buffer with the lengths of its NAL units. *)
Inductive frame_type := videoFrameTypeIDR | videoFrameTypeSkip | videoFrameTypeOther.
Record layer := Layer { pBsBuf : bytes; pNalLengthInByte : list Z }.
Record enc_out := EncOut {
  enc_rv : Z;
  eFrameType : frame_type;
  sLayerInfo : list layer
}.

Class Env := {
  (** the answer to the [n]-th question *)
  env : query -> nat -> Z;
  (** the result of the encoder for a picture *)
  env_encode : bytes -> nat -> enc_out;
  (** MD5 of the crypto library that libre is built with *)
  env_md5 : bytes -> bytes;
  (** [atoi] of a number that does not fit an [int] (undefined in C) *)
  env_atoi_overflow : Z -> Z;
  (** [inet_ntop] *)
  env_ntop : sa_addr -> option bytes;
  (** the content of an uninitialised automatic array *)
  env_uninit : nat -> Z
}.

(** The documented result of MD5: 16 octets. *)
Class Md5Spec (E : Env) := {
  md5_length : forall d, length (env_md5 d) = 16%nat;
  md5_bytes : forall d, Forall is_byte (env_md5 d)
}.

(** An environment in which no allocation fails. *)
Class AllocOk (E : Env) := alloc_ok : forall n, env QAlloc n <> 0.

(** An environment in which every call succeeds. *)
Definition good_env : Env := {|
  env q n := match q with QAlloc => 1 | _ => 0 end;
  env_encode _ _ := EncOut 0 videoFrameTypeSkip [];
  env_md5 _ := replicate 16 0;
  env_atoi_overflow v := i32 v;
  env_ntop _ := Some (cstr "127.0.0.1");
  env_uninit _ := 170
|}.

#[export] Instance good_env_alloc : AllocOk good_env.
Proof. intros n. done. Qed.
#[export] Instance good_env_md5 : Md5Spec good_env.
Proof.
  split; intros d; [done|]. apply Forall_replicate. unfold is_byte. lia.
Qed.

Definition atoi `{Env} (l : bytes) : Z :=
  let v := atoi_val (cstring l) in
  if (-2147483648 <=? v) && (v <=? 2147483647) then v else env_atoi_overflow v.

(** ** Monads

    [IO] threads the environment's call counter and the trace; [M W] adds the
    program's own state [W]. *)
Record sys := Sys { tick : nat; out : list event }.

Definition IO (A : Type) : Type := sys -> A * sys.
Definition M (W A : Type) : Type := W -> sys -> A * W * sys.

#[export] Instance IO_ret : MRet IO := fun A a s => (a, s).
#[export] Instance IO_bind : MBind IO :=
  fun A B f m s => let '(a, s') := m s in f a s'.
#[export] Instance M_ret W : MRet (M W) := fun A a w s => (a, w, s).
#[export] Instance M_bind W : MBind (M W) :=
  fun A B f m w s => let '(a, w', s') := m w s in f a w' s'.

Definition ask `{Env} (q : query) : IO Z :=
  fun s => (env q (tick s), Sys (S (tick s)) (out s)).
Definition emit (e : event) : IO unit :=
  fun s => (tt, Sys (tick s) (out s ++ [e])).
(** A value no earlier call returned, for the identity of a new object. *)
Definition fresh : IO nat := fun s => (tick s, Sys (S (tick s)) (out s)).

Definition lift {W A} (m : IO A) : M W A :=
  fun w s => let '(a, s') := m s in (a, w, s').
Definition get {W} : M W W := fun w s => (w, w, s).
Definition modify {W} (f : W -> W) : M W unit := fun w s => (tt, f w, s).
(** Run a computation on a part of the state. *)
Definition zoom {W V A} (gt : W -> V) (st : V -> W -> W) (m : M V A) : M W A :=
  fun w s => let '(a, v, s') := m (gt w) s in (a, st v w, s').

Fixpoint forM {W A} (l : list A) (f : A -> M W unit) : M W unit :=
  match l with
  | [] => mret tt
  | x :: t => f x ;; forM t f
  end.

(** ** Weakest preconditions *)
Definition iwp {A} (m : IO A) (Q : A -> sys -> Prop) (s : sys) : Prop :=
  let '(a, s') := m s in Q a s'.
Definition wp {W A} (m : M W A) (Q : A -> W -> sys -> Prop) (w : W) (s : sys) : Prop :=
  let '(a, w', s') := m w s in Q a w' s'.

Section wp_rules.
Context {W : Type}.

Lemma iwp_ret {A} (a : A) Q s : Q a s -> iwp (mret a) Q s.
Proof. done. Qed.
Lemma iwp_bind {A B} (m : IO A) (f : A -> IO B) Q s :
  iwp m (fun a s' => iwp (f a) Q s') s -> iwp (m ≫= f) Q s.
Proof. unfold iwp, mbind, IO_bind. by destruct (m s). Qed.
Lemma iwp_mono {A} (m : IO A) (P Q : A -> sys -> Prop) s :
  iwp m P s -> (forall a s', P a s' -> Q a s') -> iwp m Q s.
Proof. unfold iwp. destruct (m s). auto. Qed.
Lemma iwp_ask `{Env} q Q s :
  Q (env q (tick s)) (Sys (S (tick s)) (out s)) -> iwp (ask q) Q s.
Proof. done. Qed.
Lemma iwp_emit e Q s : Q tt (Sys (tick s) (out s ++ [e])) -> iwp (emit e) Q s.
Proof. done. Qed.
Lemma iwp_fresh Q s : Q (tick s) (Sys (S (tick s)) (out s)) -> iwp fresh Q s.
Proof. done. Qed.

Lemma wp_ret {A} (a : A) (Q : A -> W -> sys -> Prop) w s : Q a w s -> wp (mret a) Q w s.
Proof. done. Qed.
Lemma wp_bind {A B} (m : M W A) (f : A -> M W B) Q w s :
  wp m (fun a w' s' => wp (f a) Q w' s') w s -> wp (m ≫= f) Q w s.
Proof. unfold wp, mbind, M_bind. by destruct (m w s) as [[??]?]. Qed.
Lemma wp_mono {A} (m : M W A) (P Q : A -> W -> sys -> Prop) w s :
  wp m P w s -> (forall a w' s', P a w' s' -> Q a w' s') -> wp m Q w s.
Proof. unfold wp. destruct (m w s) as [[??]?]. auto. Qed.
Lemma wp_get (Q : W -> W -> sys -> Prop) w s : Q w w s -> wp get Q w s.
Proof. done. Qed.
Lemma wp_modify f (Q : unit -> W -> sys -> Prop) w s : Q tt (f w) s -> wp (modify f) Q w s.
Proof. done. Qed.
Lemma wp_lift {A} (m : IO A) (Q : A -> W -> sys -> Prop) w s :
  iwp m (fun a s' => Q a w s') s -> wp (lift m) Q w s.
Proof. unfold wp, lift, iwp. by destruct (m s). Qed.
Lemma wp_zoom {V A} (gt : W -> V) st (m : M V A) (Q : A -> W -> sys -> Prop) w s :
  wp m (fun a v s' => Q a (st v w) s') (gt w) s -> wp (zoom gt st m) Q w s.
Proof. unfold wp, zoom. by destruct (m (gt w) s) as [[??]?]. Qed.

End wp_rules.

(** One step of symbolic execution of a monadic program. *)
Ltac wp_step :=
  lazymatch goal with
  | |- iwp (mret _) _ _ => apply iwp_ret
  | |- iwp (mbind _ _) _ _ => apply iwp_bind
  | |- iwp (ask _) _ _ => apply iwp_ask
  | |- iwp (emit _) _ _ => apply iwp_emit
  | |- iwp fresh _ _ => apply iwp_fresh
  | |- iwp (if ?b then _ else _) _ _ => let E := fresh "E" in destruct b eqn:E
  | |- iwp (let '(_, _) := (_, _) in _) _ _ => cbn beta iota
  | |- iwp (let '(_, _) := (if ?b then _ else _) in _) _ _ =>
      let E := fresh "E" in destruct b eqn:E
  | |- iwp (let '(_, _) := ?p in _) _ _ => let E := fresh "E" in destruct p eqn:E
  | |- wp (mret _) _ _ _ => apply wp_ret
  | |- wp (mbind _ _) _ _ _ => apply wp_bind
  | |- wp get _ _ _ => apply wp_get
  | |- wp (modify _) _ _ _ => apply wp_modify
  | |- wp (lift _) _ _ _ => apply wp_lift
  | |- wp (zoom _ _ _) _ _ _ => apply wp_zoom
  | |- wp (if ?b then _ else _) _ _ _ => let E := fresh "E" in destruct b eqn:E
  | |- wp (let '(_, _) := (_, _) in _) _ _ _ => cbn beta iota
  | |- wp (let '(_, _) := (if ?b then _ else _) in _) _ _ _ =>
      let E := fresh "E" in destruct b eqn:E
  | |- wp (let '(_, _) := ?p in _) _ _ _ => let E := fresh "E" in destruct p eqn:E
  end.
Ltac wp_steps := repeat (wp_step; cbn beta).
