(* ===== verification/Fmt.v ===== *)
(** * Formatted printing (libre [src/fmt/print.c], [src/fmt/str.c])

    [vhprintf] interprets a format string and hands the output to a print
    handler piece by piece; the handler may refuse a piece, which ends the
    printing.  [re_snprintf] is the handler that fills a bounded buffer: a
    piece is written whole or not at all.

    The conversions [%f %H %m %p %v %w], which the code uses only for its log
    messages, are not modelled. *)
From S2P Require Import Prelude Sys.

(** An argument of a variadic call. *)
Inductive farg :=
  | AStr (s : bytes)         (* char *, its content *)
  | ANum (z : Z)             (* an integer of any width *)
  | ABuf (b : bytes)         (* %b, %r, %w: pointer and length *)
  | ASa (a : sa).            (* %j, %J *)

Definition digit_char (uc : bool) (c : Z) : Z :=
  if c <? 10 then 48 + c else (if uc then 65 else 97) + (c - 10).

(** The digit loop; [fuel] digits at most. *)
Fixpoint itoa_loop (fuel : nat) (n base : Z) (uc : bool) (acc : bytes) : bytes :=
  match fuel with
  | O => acc
  | S f =>
      let dv := n / base in
      let acc' := digit_char uc (n - dv * base) :: acc in
      if dv =? 0 then acc' else itoa_loop f dv base uc acc'
  end.

(** A [uint64_t] has at most 64 digits in any base from 2 on. *)
Definition local_itoa (n base : Z) (uc : bool) : bytes := itoa_loop 64 n base uc [].

Definition write_padded (p : bytes) (pad : nat) (pch : Z) (plr : bool)
    (prfx : option bytes) : list bytes :=
  let prfx_len := length (default [] prfx) in
  let pad := (pad - Nat.min pad prfx_len)%nat in
  let prfx_piece := match prfx with Some x => [x] | None => [] end in
  let fill := replicate (pad - length p) [pch] in
  (if pch =? 48 then prfx_piece else [])
  ++ (if plr then [] else fill)
  ++ (if pch =? 48 then [] else prfx_piece)
  ++ (match p with [] => [] | _ => [p] end)
  ++ (if plr then fill else []).

(** The output of the conversions that take an argument: the pieces, or [None]
    when the argument has the wrong type. *)
Definition conv_num (base : Z) (uc : bool) (z : Z) (pad : nat) (pch : Z) (plr : bool) :=
  write_padded (local_itoa z base uc) pad (if plr then 32 else pch) plr None.

Definition conv_sa `{Env} (with_port : bool) (a : sa) (pad : nat) (pch : Z) (plr : bool)
    : list bytes :=
  match env_ntop (sa_ip a) with
  | None => write_padded [63] pad 32 plr None
  | Some addr =>
      let is6 := match sa_ip a with AF_INET6 _ => true | _ => false end in
      (if with_port && is6 then [[91]] else [])
      ++ write_padded addr pad 32 plr None
      ++ (if with_port && is6 then [[93]] else [])
      ++ (if with_port then [58] :: conv_num 10 false (sa_port a) pad pch plr else [])
  end.

Definition conv `{Env} (c : Z) (a : farg) (pad : nat) (pch : Z) (plr : bool)
    : option (list bytes) :=
  match a with
  | AStr s => if c =? chr "s" then Some (write_padded s pad 32 plr None) else None
  | ANum z =>
      if (c =? chr "d") || (c =? chr "i") then
        Some (write_padded (local_itoa (Z.abs z) 10 false) pad (if plr then 32 else pch) plr
                (if z <? 0 then Some [45] else None))
      else if c =? chr "u" then Some (conv_num 10 false z pad pch plr)
      else if c =? chr "x" then Some (conv_num 16 false z pad pch plr)
      else if c =? chr "X" then Some (conv_num 16 true z pad pch plr)
      else if c =? chr "c" then Some (write_padded [u8 z] pad 32 plr None)
      else None
  | ABuf b =>
      if (c =? chr "b") || (c =? chr "r") then Some (write_padded b pad 32 plr None)
      else None
  | ASa a =>
      if c =? chr "j" then Some (conv_sa false a pad pch plr)
      else if c =? chr "J" then Some (conv_sa true a pad pch plr)
      else None
  end.

Definition flush_lit (lit : bytes) : list bytes :=
  match lit with [] => [] | _ => [lit] end.

Definition takes_arg (c : Z) : bool :=
  existsb (Z.eqb c) (cstr "bcdijJrsuxX").

(** The main loop.  [fm] is true inside a conversion specification; [lit] is
    the literal text since the last conversion ([p0] to [p]).  The result is
    the sequence of pieces handed to the print handler, and whether the
    arguments matched the format. *)
Fixpoint vhprintf `{Env} (fmt : bytes) (args : list farg) (fm : bool) (lit : bytes)
    (pch : Z) (plr : bool) (pad : nat) : list bytes * bool :=
  match fmt with
  | [] => ((if fm then [] else flush_lit lit), true)
  | c :: rest =>
      if negb fm then
        if c =? 37 then
          let '(ps, ok) := vhprintf rest args true [] 32 false 0 in
          (flush_lit lit ++ ps, ok)
        else vhprintf rest args false (lit ++ [c]) pch plr pad
      else if c =? chr "-" then vhprintf rest args true [] pch true pad
      else if c =? chr "." then vhprintf rest args true [] pch plr 0
      else if c =? chr "%" then
        let '(ps, ok) := vhprintf rest args false [] pch plr pad in ([37] :: ps, ok)
      else if (c =? chr "l") || (c =? chr "z") || (c =? chr "L") then
        vhprintf rest args true [] pch plr pad
      else if isdigit c then
        if (pad =? 0)%nat && (c =? 48) then vhprintf rest args true [] 48 plr pad
        else vhprintf rest args true [] pch plr (pad * 10 + Z.to_nat (c - 48))
      else if takes_arg c then
        match args with
        | [] => ([], false)
        | a :: args' =>
            match conv c a pad pch plr with
            | None => ([], false)
            | Some out =>
                let '(ps, ok) := vhprintf rest args' false [] pch plr pad in (out ++ ps, ok)
            end
        end
      else
        let '(ps, ok) := vhprintf rest args false [] pch plr pad in ([63] :: ps, ok)
  end.

Definition pieces `{Env} (fmt : string) (args : list farg) : list bytes * bool :=
  vhprintf (cstr fmt) args false [] 0 false 0.

(** [print_handler]: a piece longer than the room left is refused, and the
    printing stops.  (libre looks at the error after each conversion, so within
    one conversion the pieces behind a refused one are still tried: the padding
    behind a string, the colon and port behind an address.  None of the formats
    of the program pads behind, and an address is never refused by its buffer of
    64 characters; the difference would only show in the text that a failed print
    leaves behind.) *)
Fixpoint print_bounded (room : nat) (ps : list bytes) : bytes * bool :=
  match ps with
  | [] => ([], true)
  | p :: ps' =>
      if (room <? length p)%nat then ([], false)
      else let '(o, ok) := print_bounded (room - length p) ps' in (p ++ o, ok)
  end.

(** [re_snprintf(str, size, fmt, ...)]: the C string left in [str] and the
    return value. *)
Definition re_snprintf `{Env} (size : nat) (fmt : string) (args : list farg) : bytes * Z :=
  let '(ps, okargs) := pieces fmt args in
  let '(o, ok) := print_bounded (size - 1) ps in
  (o, if ok && okargs then zlen o else -1).

(** The content of the buffer only. *)
Definition snprintf_str `{Env} (size : nat) (fmt : string) (args : list farg) : bytes :=
  fst (re_snprintf size fmt args).

(** [str_ncpy(dst, src, n)]: at most [n - 1] characters are copied. *)
Definition str_ncpy (src : bytes) (n : nat) : bytes := take (n - 1) (cstring src).

(** ** Lemmas *)

(** A format whose output fits the buffer is printed in full. *)
Lemma print_bounded_fits room ps :
  (length (concat ps) <= room)%nat -> print_bounded room ps = (concat ps, true).
Proof.
  revert room. induction ps as [|p ps IH]; intros room H; simpl in *; [done|].
  rewrite length_app in H.
  destruct (room <? length p)%nat eqn:E; bool_hyps; [lia|].
  by rewrite IH by lia.
Qed.

Lemma print_bounded_length room ps : (length (fst (print_bounded room ps)) <= room)%nat.
Proof.
  revert room. induction ps as [|p ps IH]; intros room; simpl; [lia|].
  destruct (room <? length p)%nat eqn:E; bool_hyps; simpl; [lia|].
  specialize (IH (room - length p)%nat).
  destruct (print_bounded _ _). simpl in *. rewrite length_app. lia.
Qed.

(** The buffer always ends up with a terminated string. *)
Lemma re_snprintf_bound `{Env} size fmt args :
  (length (fst (re_snprintf size fmt args)) <= size - 1)%nat.
Proof.
  unfold re_snprintf. destruct (pieces fmt args) as [ps ok].
  pose proof (print_bounded_length (size - 1) ps).
  by destruct (print_bounded _ _).
Qed.

(** What the pieces of a format are, once the format is evaluated. *)
Lemma re_snprintf_fits `{Env} size fmt args ps :
  pieces fmt args = (ps, true) ->
  (length (concat ps) <= size - 1)%nat ->
  re_snprintf size fmt args = (concat ps, zlen (concat ps)).
Proof.
  intros Hp Hl. unfold re_snprintf. rewrite Hp.
  by rewrite print_bounded_fits.
Qed.

Lemma snprintf_str_fits `{Env} size fmt args ps :
  pieces fmt args = (ps, true) ->
  (length (concat ps) <= size - 1)%nat ->
  snprintf_str size fmt args = concat ps.
Proof. intros Hp Hl. unfold snprintf_str. by rewrite (re_snprintf_fits _ _ _ ps). Qed.

(** Decimal printing read back by the digit scanner of [atoi]. *)
Lemma digit_char_10 uc c : 0 <= c < 10 -> digit_char uc c = 48 + c.
Proof. intros H. unfold digit_char. destruct (c <? 10) eqn:E; bool_hyps; lia. Qed.

Lemma digits_val_snoc_digits acc l k :
  Forall (fun c => isdigit c = true) l ->
  digits_val acc (l ++ k) = digits_val (digits_val acc l) k.
Proof.
  revert acc. induction l as [|c l IH]; intros acc H; simpl; [done|].
  inversion H as [|x y Hc Hl]; subst. rewrite Hc. by apply IH.
Qed.

Lemma itoa_loop_spec fuel n acc :
  0 <= n < 10 ^ Z.of_nat fuel -> (0 < fuel)%nat ->
  exists ds, itoa_loop fuel n 10 false acc = ds ++ acc /\ ds <> []
    /\ Forall (fun c => isdigit c = true) ds
    /\ (forall a, digits_val a ds = a * 10 ^ zlen ds + n)
    /\ (length ds <= fuel)%nat.
Proof.
  revert n acc. induction fuel as [|f IH]; intros n acc Hn Hf; [lia|].
  simpl. set (d := n - n / 10 * 10).
  assert (0 <= d < 10) by (unfold d; Z.div_mod_to_equations; lia).
  assert (isdigit (digit_char false d) = true) as Hd.
  { rewrite digit_char_10 by lia. unfold isdigit.
    apply andb_true_iff. rewrite !Z.leb_le. lia. }
  destruct (n / 10 =? 0) eqn:E; bool_hyps.
  - exists [digit_char false d]. repeat split; simpl; [done|by repeat constructor| |lia].
    intros a. rewrite Hd, digit_char_10 by lia. unfold d. rewrite E. lia.
  - assert (0 < n / 10) by (Z.div_mod_to_equations; lia).
    assert (n / 10 < 10 ^ Z.of_nat f).
    { rewrite Nat2Z.inj_succ, Z.pow_succ_r in Hn by lia.
      apply Z.div_lt_upper_bound; lia. }
    destruct f as [|f]; [simpl in *; lia|].
    destruct (IH (n / 10) (digit_char false d :: acc)) as (ds & Heq & Hne & Hall & Hv & Hlen);
      [lia|lia|].
    exists (ds ++ [digit_char false d]). repeat split.
    + rewrite Heq. by rewrite <- app_assoc.
    + by destruct ds.
    + apply Forall_app. split; [done|by repeat constructor].
    + intros a. rewrite digits_val_snoc_digits by done. rewrite Hv. simpl.
      rewrite Hd, digit_char_10 by lia. rewrite length_app. simpl.
      rewrite Nat2Z.inj_add, Z.pow_add_r by lia. unfold d. simpl Z.of_nat. lia.
    + rewrite length_app. simpl in *. lia.
Qed.

Lemma local_itoa_spec n :
  0 <= n < 2 ^ 64 ->
  local_itoa n 10 false <> [] /\ Forall (fun c => isdigit c = true) (local_itoa n 10 false)
  /\ digits_val 0 (local_itoa n 10 false) = n.
Proof.
  intros Hn. unfold local_itoa.
  destruct (itoa_loop_spec 64 n []) as (ds & -> & Hne & Hall & Hv & _); [lia..|].
  rewrite app_nil_r. repeat split; [done..|]. rewrite Hv. lia.
Qed.

(** ** Formats of plain strings *)
Lemma concat_write_padded p pch : concat (write_padded p 0 pch false None) = p.
Proof. unfold write_padded. destruct p; simpl; destruct (pch =? 48); simpl; by rewrite ?app_nil_r. Qed.

Lemma write_padded_pieces p : write_padded p 0 32 false None = flush_lit p.
Proof. unfold write_padded. by destruct p. Qed.

Lemma concat_flush_lit p : concat (flush_lit p) = p.
Proof. destruct p; simpl; by rewrite ?app_nil_r. Qed.

Lemma snprintf_colon2 `{Env} size a b :
  (length a + 1 + length b <= size - 1)%nat ->
  snprintf_str size "%s:%s" [AStr a; AStr b] = a ++ [58] ++ b.
Proof.
  intros Hl. erewrite (snprintf_str_fits _ _ _ (flush_lit a ++ [58] :: flush_lit b ++ [])).
  - rewrite app_nil_r, concat_app. cbn [concat]. by rewrite !concat_flush_lit.
  - destruct a, b; vm_compute; reflexivity.
  - rewrite app_nil_r, concat_app. cbn [concat]. rewrite !concat_flush_lit. len_lia.
Qed.

Lemma snprintf_colon3 `{Env} size a b c :
  (length a + 1 + length b + 1 + length c <= size - 1)%nat ->
  snprintf_str size "%s:%s:%s" [AStr a; AStr b; AStr c] = a ++ [58] ++ b ++ [58] ++ c.
Proof.
  intros Hl.
  erewrite (snprintf_str_fits _ _ _ (flush_lit a ++ [58] :: flush_lit b ++ [58] :: flush_lit c ++ [])).
  - rewrite app_nil_r, !concat_app. cbn [concat]. rewrite concat_app. cbn [concat].
    by rewrite !concat_flush_lit.
  - destruct a, b, c; vm_compute; reflexivity.
  - rewrite app_nil_r, !concat_app. cbn [concat]. rewrite concat_app. cbn [concat].
    rewrite !concat_flush_lit. len_lia.
Qed.
