(* ===== verification/Mbuf.v ===== *)
(** * Memory buffers (libre [src/mbuf/mbuf.c], [include/re_mbuf.h])

    An [mbuf] is an allocated array with a position and an end.  Writing at the
    position grows the array when it is too small, which may fail. *)
From S2P Require Import Prelude Sys Fmt.

Record mbuf := Mbuf {
  mb_buf : bytes;   (* the allocated bytes; [size] is its length *)
  mb_pos : nat;
  mb_end : nat
}.

Definition mb_size (mb : mbuf) : nat := length (mb_buf mb).
#[global] Arguments mb_size : simpl never.
Definition DEFAULT_SIZE : nat := 512.

(** Freshly allocated memory has any content. *)
Definition uninit `{Env} (n : nat) : bytes := map env_uninit (seq 0 n).

(** ** Allocation *)
Definition mbuf_resize `{Env} (mb : mbuf) (size : nat) : IO (Z * mbuf) :=
  ok ← ask QAlloc;
  mret (if ok =? 0 then (ENOMEM, mb)
        else (0, Mbuf (take size (mb_buf mb ++ uninit (size - mb_size mb)))
                   (mb_pos mb) (mb_end mb))).

Definition mbuf_alloc `{Env} (size : nat) : IO (option mbuf) :=
  ok ← ask QAlloc;
  if ok =? 0 then mret None
  else
    '(err, mb) ← mbuf_resize (Mbuf [] 0 0) (if (size =? 0)%nat then DEFAULT_SIZE else size);
    mret (if err =? 0 then Some mb else None).

(** ** Position *)
Definition mbuf_get_left (mb : mbuf) : nat := mb_end mb - mb_pos mb.
Definition mbuf_set_pos (mb : mbuf) (pos : nat) : mbuf := Mbuf (mb_buf mb) pos (mb_end mb).
Definition mbuf_advance (mb : mbuf) (n : nat) : mbuf :=
  Mbuf (mb_buf mb) (mb_pos mb + n) (mb_end mb).

(** The bytes from the position to the end: what a send transmits. *)
Definition mbuf_buf (mb : mbuf) : bytes :=
  take (mbuf_get_left mb) (drop (mb_pos mb) (mb_buf mb)).

(** ** Writing *)
Definition mbuf_put (mb : mbuf) (data : bytes) : mbuf :=
  let pos := (mb_pos mb + length data)%nat in
  Mbuf (take (mb_pos mb) (mb_buf mb) ++ data ++ drop pos (mb_buf mb))
       pos (Nat.max (mb_end mb) pos).

Definition mbuf_write_mem `{Env} (mb : mbuf) (data : bytes) : IO (Z * mbuf) :=
  let rsize := (mb_pos mb + length data)%nat in
  if (mb_size mb <? rsize)%nat then
    let dsize := if (mb_size mb =? 0)%nat then DEFAULT_SIZE else (mb_size mb * 2)%nat in
    '(err, mb') ← mbuf_resize mb (Nat.max rsize dsize);
    mret (if err =? 0 then (0, mbuf_put mb' data) else (err, mb))
  else mret (0, mbuf_put mb data).

Definition mbuf_write_u8 `{Env} (mb : mbuf) (v : Z) : IO (Z * mbuf) :=
  mbuf_write_mem mb [u8 v].
(** [mbuf_write_u16(mb, htons(v))] and [mbuf_write_u32(mb, htonl(v))] *)
Definition be16 (v : Z) : bytes := [u8 (v / 256); u8 v].
Definition be32 (v : Z) : bytes := [u8 (v / 16777216); u8 (v / 65536); u8 (v / 256); u8 v].
Definition mbuf_write_u16 `{Env} (mb : mbuf) (v : Z) : IO (Z * mbuf) :=
  mbuf_write_mem mb (be16 v).
Definition mbuf_write_u32 `{Env} (mb : mbuf) (v : Z) : IO (Z * mbuf) :=
  mbuf_write_mem mb (be32 v).

(** [mbuf_printf]: the pieces of the format, until one write fails. *)
Fixpoint mbuf_write_pieces `{Env} (mb : mbuf) (ps : list bytes) : IO (Z * mbuf) :=
  match ps with
  | [] => mret (0, mb)
  | p :: ps' =>
      '(err, mb') ← mbuf_write_mem mb p;
      if err =? 0 then mbuf_write_pieces mb' ps' else mret (err, mb')
  end.

Definition mbuf_printf `{Env} (mb : mbuf) (fmt : string) (args : list farg) : IO (Z * mbuf) :=
  let '(ps, ok) := pieces fmt args in
  '(err, mb') ← mbuf_write_pieces mb ps;
  mret (if (err =? 0) && negb ok then EINVAL else err, mb').

(** ** Reading *)
Definition mbuf_read_mem (mb : mbuf) (size : nat) : option (bytes * mbuf) :=
  if (mbuf_get_left mb <? size)%nat then None   (* EOVERFLOW *)
  else Some (take size (drop (mb_pos mb) (mb_buf mb)), mbuf_advance mb size).

(** [ntohs(mbuf_read_u16(mb))] and [ntohl(mbuf_read_u32(mb))]: 0 when the
    buffer is too short. *)
Definition from_be (l : bytes) : Z := fold_left (fun acc b => acc * 256 + b) l 0.
Definition mbuf_read_be (mb : mbuf) (size : nat) : Z * mbuf :=
  match mbuf_read_mem mb size with
  | Some (d, mb') => (from_be d, mb')
  | None => (0, mb)
  end.
Definition mbuf_read_u8 (mb : mbuf) : Z * mbuf := mbuf_read_be mb 1.
Definition mbuf_read_u64 (mb : mbuf) : Z * mbuf := mbuf_read_be mb 8.
Definition mbuf_read_u16 (mb : mbuf) : Z * mbuf := mbuf_read_be mb 2.
Definition mbuf_read_u32 (mb : mbuf) : Z * mbuf := mbuf_read_be mb 4.

(** ** Invariant and lemmas *)
Definition mbuf_wf (mb : mbuf) : Prop :=
  (mb_pos mb <= mb_end mb)%nat /\ (mb_end mb <= mb_size mb)%nat.

(** An append-only buffer with content [c] (as every message is built). *)
Definition mbuf_holds (mb : mbuf) (c : bytes) : Prop :=
  take (mb_end mb) (mb_buf mb) = c /\ mb_pos mb = mb_end mb /\ (mb_end mb <= mb_size mb)%nat.

Lemma be16_length v : length (be16 v) = 2%nat.
Proof. done. Qed.
Lemma be32_length v : length (be32 v) = 4%nat.
Proof. done. Qed.
Lemma from_be16 v : from_be (be16 v) = u16 v.
Proof. unfold from_be, be16. cbn. mod_lia. Qed.
Lemma from_be32 v : from_be (be32 v) = u32 v.
Proof. unfold from_be, be32. cbn. mod_lia. Qed.

Lemma mbuf_holds_length mb c : mbuf_holds mb c -> length c = mb_end mb.
Proof. intros (<- & _ & H). rewrite length_take. unfold mb_size in H. lia. Qed.

Lemma mbuf_put_holds mb c d :
  mbuf_holds mb c -> (mb_end mb + length d <= mb_size mb)%nat ->
  mbuf_holds (mbuf_put mb d) (c ++ d).
Proof.
  intros (Hc & Hp & He) Hs. unfold mbuf_holds, mbuf_put, mb_size in *. simpl.
  rewrite Hp, Nat.max_r by lia. subst c. repeat split.
  - rewrite app_assoc, take_app_le, take_ge; [done|..];
      rewrite !length_app, length_take; lia.
  - rewrite !length_app, length_take, length_drop. lia.
Qed.

Lemma mbuf_holds_grow mb c size extra :
  mbuf_holds mb c -> (mb_size mb <= size)%nat ->
  mbuf_holds (Mbuf (take size (mb_buf mb ++ extra)) (mb_pos mb) (mb_end mb)) c.
Proof.
  intros (Hc & Hp & He) Hs. unfold mbuf_holds, mb_size in *. simpl.
  rewrite take_take, Nat.min_l by lia. rewrite take_app_le by lia.
  repeat split; [done|done|]. rewrite length_take, length_app. lia.
Qed.

Lemma uninit_length `{Env} n : length (uninit n) = n.
Proof. unfold uninit. by rewrite length_map, length_seq. Qed.

Lemma alloc_null `{V : Env} n : (env QAlloc n =? 0) = true -> ~ AllocOk V.
Proof. intros Hn Ha. apply (Ha n). by bool_hyps. Qed.

(** A write into an append-only buffer appends, or changes nothing when memory
    is short. *)
Lemma mbuf_write_mem_spec `{V : Env} mb c d s :
  mbuf_holds mb c ->
  iwp (mbuf_write_mem mb d) (fun '(err, mb') s' =>
    out s' = out s /\
    ((err = 0 /\ mbuf_holds mb' (c ++ d) /\ (mb_size mb <= mb_size mb')%nat)
     \/ (err = ENOMEM /\ mb' = mb /\ ~ AllocOk V))) s.
Proof.
  intros Hh. unfold mbuf_write_mem, mbuf_resize.
  destruct (mb_size mb <? mb_pos mb + length d)%nat eqn:E; bool_hyps.
  - set (n := Nat.max _ _). assert (mb_size mb <= n)%nat as Hn by lia. assert (mb_pos mb + length d <= n)%nat by lia.
    clearbody n.
    do 3 wp_step. destruct (env QAlloc (tick s) =? 0) eqn:A; wp_steps; simpl.
    + split; [done|right]. split; [done|]. split; [done|by eapply alloc_null].
    + split; [done|left]. split; [done|].
      pose proof (mbuf_holds_grow mb c n (uninit (n - mb_size mb)) Hh Hn) as Hg.
      destruct Hh as (_ & Hp & _). split.
      * apply mbuf_put_holds; [done|]. unfold mb_size in *. simpl.
        rewrite length_take, length_app, uninit_length. lia.
      * unfold mb_size in *. simpl. rewrite !length_app, !length_take, length_drop,
          length_take, length_app, uninit_length. lia.
  - wp_steps. split; [done|left]. split; [done|]. destruct Hh as (Hc & Hp & He). split.
    + apply mbuf_put_holds; [done|lia].
    + unfold mb_size, mbuf_put in *. simpl.
      rewrite !length_app, length_take, length_drop. lia.
Qed.

(** With room the write cannot fail, and no memory is asked for. *)
Lemma mbuf_write_mem_room `{Env} mb d s :
  (mb_pos mb + length d <= mb_size mb)%nat ->
  mbuf_write_mem mb d s = ((0, mbuf_put mb d), s).
Proof.
  intros Hr. unfold mbuf_write_mem.
  destruct (mb_size mb <? mb_pos mb + length d)%nat eqn:E; bool_hyps; [lia|done].
Qed.

Lemma mbuf_write_pieces_spec `{V : Env} mb c ps s :
  mbuf_holds mb c ->
  iwp (mbuf_write_pieces mb ps) (fun '(err, mb') s' =>
    out s' = out s /\
    ((err = 0 /\ mbuf_holds mb' (c ++ concat ps))
     \/ (err = ENOMEM /\ (exists c', mbuf_holds mb' c') /\ ~ AllocOk V))) s.
Proof.
  revert mb c s. induction ps as [|p ps IH]; intros mb c s Hh; simpl.
  - apply iwp_ret. rewrite app_nil_r. split; [done|by left].
  - apply iwp_bind. eapply iwp_mono; [by apply mbuf_write_mem_spec|].
    intros [err mb'] s1 (Ho & [(-> & Hh' & _)|(-> & -> & Ha)]); simpl.
    + eapply iwp_mono; [by apply IH|]. intros [e m] s2 (Ho2 & Hc).
      split; [congruence|]. by rewrite app_assoc.
    + apply iwp_ret. split; [done|right]. eauto.
Qed.

(** [mbuf_alloc] yields an empty buffer of the wanted size, or NULL. *)
Lemma mbuf_alloc_spec `{V : Env} n s :
  iwp (mbuf_alloc n) (fun r s' =>
    out s' = out s /\
    match r with
    | Some mb => mbuf_holds mb [] /\ mb_size mb = (if (n =? 0)%nat then DEFAULT_SIZE else n)
    | None => ~ AllocOk V
    end) s.
Proof.
  unfold mbuf_alloc, mbuf_resize.
  wp_steps; simpl; try (split; [done|by eapply alloc_null]); try discriminate.
  split; [done|]. unfold mbuf_holds, mb_size. simpl.
  rewrite !length_take, uninit_length. repeat split; lia.
Qed.

Lemma mbuf_buf_holds mb c :
  mbuf_holds mb c -> mbuf_buf (mbuf_set_pos mb 0) = c.
Proof.
  intros (Hc & Hp & He). unfold mbuf_buf, mbuf_get_left, mbuf_set_pos. simpl.
  by rewrite drop_0, Nat.sub_0_r.
Qed.

(** Appending where the allocated size suffices. *)
Lemma mbuf_write_room `{Env} mb c d s :
  mbuf_holds mb c -> (length c + length d <= mb_size mb)%nat ->
  exists mb', mbuf_write_mem mb d s = ((0, mb'), s)
    /\ mbuf_holds mb' (c ++ d) /\ mb_size mb' = mb_size mb.
Proof.
  intros Hh Hr. pose proof (mbuf_holds_length _ _ Hh) as Hl.
  exists (mbuf_put mb d). destruct Hh as (Hc & Hp & He). rewrite mbuf_write_mem_room by lia.
  split; [done|]. split; [apply mbuf_put_holds; [done|lia]|].
  unfold mb_size, mbuf_put in *. simpl. rewrite !length_app, length_take, length_drop. lia.
Qed.

(** Reading: the bytes left are consumed from the front. *)
Lemma mbuf_buf_length mb : mbuf_wf mb -> length (mbuf_buf mb) = mbuf_get_left mb.
Proof.
  intros [Hp He]. unfold mbuf_buf, mbuf_get_left, mb_size in *.
  rewrite length_take, length_drop. lia.
Qed.

Lemma mbuf_read_mem_app mb n a r :
  mbuf_wf mb -> mbuf_buf mb = a ++ r -> length a = n ->
  exists mb', mbuf_read_mem mb n = Some (a, mb') /\ mbuf_wf mb' /\ mbuf_buf mb' = r
    /\ mb_pos mb' = (mb_pos mb + n)%nat.
Proof.
  intros Hwf Hb Hn. pose proof (mbuf_buf_length _ Hwf) as Hl.
  rewrite Hb, length_app in Hl. exists (mbuf_advance mb n).
  unfold mbuf_read_mem. destruct (mbuf_get_left mb <? n)%nat eqn:E; bool_hyps; [lia|].
  destruct Hwf as [Hp He]. unfold mbuf_wf, mbuf_advance, mbuf_buf, mbuf_get_left, mb_size in *.
  simpl in *.
  repeat split; [|lia..|].
  - do 2 f_equal. rewrite <- (take_app_length' a r n) by done. rewrite <- Hb.
    rewrite take_take. f_equal. lia.
  - rewrite <- (drop_app_length' a r n) by done. rewrite <- Hb.
    rewrite skipn_firstn_comm, drop_drop. f_equal. lia.
Qed.

Lemma mbuf_read_be_app mb n a r :
  mbuf_wf mb -> mbuf_buf mb = a ++ r -> length a = n ->
  exists mb', mbuf_read_be mb n = (from_be a, mb') /\ mbuf_wf mb' /\ mbuf_buf mb' = r
    /\ mb_pos mb' = (mb_pos mb + n)%nat.
Proof.
  intros Hwf Hb Hn. destruct (mbuf_read_mem_app mb n a r Hwf Hb Hn) as (mb' & Hr & ?).
  exists mb'. unfold mbuf_read_be. by rewrite Hr.
Qed.
