(* ===== verification/MbufOps.v ===== *)
(** * The other buffer operations (libre [src/mbuf/mbuf.c], [include/re_mbuf.h])

    [Mbuf] has what the intercom's own code calls; here are the rest of the
    operations and the theorem that together they are a tape: a content and a
    position, whatever the size of the memory behind it.  [mbuf_alloc_ref], which
    shares the memory of two buffers, is left out.

    Sums with a number that the caller chooses ([mbuf_fill], [mbuf_shift]) are
    made in [size_t] and [ssize_t], and wrap; sums with the length of data that
    is in memory do not. *)
From S2P Require Import Prelude Sys Fmt Mbuf.
Local Open Scope Z_scope.

(** ** Positions *)
Definition mbuf_init : mbuf := Mbuf [] 0 0.
Definition mbuf_reset (mb : mbuf) : mbuf := mbuf_init.
Definition mbuf_get_space (mb : mbuf) : nat := mb_size mb - mb_pos mb.
Definition mbuf_set_end (mb : mbuf) (e : nat) : mbuf := Mbuf (mb_buf mb) (mb_pos mb) e.
Definition mbuf_rewind (mb : mbuf) : mbuf := Mbuf (mb_buf mb) 0 0.
Definition mbuf_skip_to_end (mb : mbuf) : mbuf := Mbuf (mb_buf mb) (mb_end mb) (mb_end mb).
Definition mbuf_set_posend (mb : mbuf) (p e : nat) : mbuf :=
  if (e <? p)%nat then mb else if (mb_size mb <? e)%nat then mb else Mbuf (mb_buf mb) p e.

Section ops.
Context `{V : Env}.

(** ** Memory *)
Definition mbuf_dup (mbd : mbuf) : IO (option mbuf) :=
  r ← mbuf_alloc (mb_size mbd);
  mret (match r with
        | None => None
        | Some mb => Some (Mbuf (mb_buf mbd) (mb_pos mbd) (mb_end mbd))
        end).
Definition mbuf_trim (mb : mbuf) : IO mbuf :=
  if (mb_end mb =? 0)%nat || (mb_end mb =? mb_size mb)%nat then mret mb
  else '(_, mb) ← mbuf_resize mb (mb_end mb); mret mb.

(** [memmove(p + shift, p, left)] *)
Definition memmove_left (buf : bytes) (pos left to : nat) : bytes :=
  take to buf ++ take left (drop pos buf) ++ drop (to + left) buf.
Definition i64 (z : Z) : Z := (z + 2 ^ 63) mod 2 ^ 64 - 2 ^ 63.
Definition mbuf_shift (mb : mbuf) (shift : Z) : IO (Z * mbuf) :=
  if (i64 (Z.of_nat (mb_pos mb) + shift) <? 0) || (i64 (Z.of_nat (mb_end mb) + shift) <? 0) then mret (ERANGE, mb)
  else
    let rsize := Z.to_nat (u64 (Z.of_nat (mb_end mb) + shift)) in
    let move mb :=
      let pos := Z.to_nat (u64 (Z.of_nat (mb_pos mb) + shift)) in
      Mbuf (memmove_left (mb_buf mb) (mb_pos mb) (mbuf_get_left mb) pos) pos rsize in
    if (mb_size mb <? rsize)%nat then
      '(err, mb') ← mbuf_resize mb rsize;
      mret (if err =? 0 then (0, move mb') else (err, mb))
    else mret (0, move mb).

(** ** Writing *)
Definition mbuf_write_str (mb : mbuf) (str : bytes) : IO (Z * mbuf) := mbuf_write_mem mb (cstring str).
Definition mbuf_write_pl (mb : mbuf) (pl : bytes) : IO (Z * mbuf) := mbuf_write_mem mb pl.
(** [off] and [len]: where [skip] lies relative to [pl]. *)
Definition mbuf_write_pl_skip (mb : mbuf) (pl : bytes) (off : Z) (len : nat) : IO (Z * mbuf) :=
  if (off <? 0) || (off + Z.of_nat len >? zlen pl) then mret (ERANGE, mb)
  else
    '(err, mb) ← mbuf_write_mem mb (take (Z.to_nat off) pl);
    if negb (err =? 0) then mret (err, mb) else mbuf_write_mem mb (drop (Z.to_nat off + len) pl).
(** [mbuf_write_u64(mb, sys_htonll(v))] *)
Definition be64 (v : Z) : bytes := be32 (v / 4294967296) ++ be32 v.
Definition mbuf_write_u64 (mb : mbuf) (v : Z) : IO (Z * mbuf) := mbuf_write_mem mb (be64 v).

(** When [pos + n] wraps, the memory is not extended and [memset] writes behind
    it: the content then is longer than the memory was, see [fill_wraps]. *)
Definition mbuf_fill (mb : mbuf) (c : Z) (n : nat) : IO (Z * mbuf) :=
  if (n =? 0)%nat then mret (EINVAL, mb)
  else
    let rsize := Z.to_nat (u64 (Z.of_nat (mb_pos mb) + Z.of_nat n)) in
    let fill mb :=
      Mbuf (take (mb_pos mb) (mb_buf mb) ++ replicate n (u8 c) ++ drop (mb_pos mb + n) (mb_buf mb))
           rsize (Nat.max (mb_end mb) rsize) in
    if (mb_size mb <? rsize)%nat then
      let dsize := if (mb_size mb =? 0)%nat then DEFAULT_SIZE else (mb_size mb * 2)%nat in
      '(err, mb') ← mbuf_resize mb (Nat.max rsize dsize);
      mret (if err =? 0 then (0, fill mb') else (err, mb))
    else mret (0, fill mb).

(** ** Reading *)

(** [mbuf_read_str]: the octets stored; it stops behind a NUL, and there is one
    to be read beyond the end. *)
Fixpoint mbuf_read_str (mb : mbuf) (size : nat) : bytes * mbuf :=
  match size with
  | O => ([], mb)
  | S size =>
      let '(c, mb) := mbuf_read_u8 mb in
      if c =? 0 then ([c], mb) else let '(str, mb) := mbuf_read_str mb size in (c :: str, mb)
  end.
Definition mbuf_strdup (mb : mbuf) (len : nat) : IO (Z + bytes * mbuf) :=
  ok ← ask QAlloc;
  mret (if ok =? 0 then inl ENOMEM
        else match mbuf_read_mem mb len with
             | None => inl EOVERFLOW
             | Some (str, mb) => inr (str ++ [0], mb)
             end).

(** ** The tape *)

(** The operations and what they return. *)
Inductive bop :=
| BWrite (d : bytes) | BWriteSkip (pl : bytes) (off : Z) (len : nat) | BFill (c : Z) (n : nat)
| BRead (n : nat) | BReadStr (n : nat) | BStrdup (n : nat)
| BShift (k : Z) | BSetPos (p : nat) | BSetEnd (e : nat) | BPosEnd (p e : nat)
| BSkipToEnd | BRewind | BReset | BTrim | BDup.
Inductive bres := RErr (e : Z) | RData (d : bytes) | RNone.

Definition bstep (op : bop) (mb : mbuf) : IO (bres * mbuf) :=
  match op with
  | BWrite d => '(e, mb) ← mbuf_write_mem mb d; mret (RErr e, mb)
  | BWriteSkip pl off len => '(e, mb) ← mbuf_write_pl_skip mb pl off len; mret (RErr e, mb)
  | BFill c n => '(e, mb) ← mbuf_fill mb c n; mret (RErr e, mb)
  | BRead n => mret (match mbuf_read_mem mb n with Some (d, mb) => (RData d, mb) | None => (RErr EOVERFLOW, mb) end)
  | BReadStr n => mret (let '(d, mb) := mbuf_read_str mb n in (RData d, mb))
  | BStrdup n => r ← mbuf_strdup mb n; mret (match r with inl e => (RErr e, mb) | inr (d, mb) => (RData d, mb) end)
  | BShift k => '(e, mb) ← mbuf_shift mb k; mret (RErr e, mb)
  | BSetPos p => mret (RNone, mbuf_set_pos mb p)
  | BSetEnd e => mret (RNone, mbuf_set_end mb e)
  | BPosEnd p e => mret (RNone, mbuf_set_posend mb p e)
  | BSkipToEnd => mret (RNone, mbuf_skip_to_end mb)
  | BRewind => mret (RNone, mbuf_rewind mb)
  | BReset => mret (RNone, mbuf_reset mb)
  | BTrim => mb ← mbuf_trim mb; mret (RNone, mb)
  | BDup => r ← mbuf_dup mb; mret (match r with Some mb => (RNone, mb) | None => (RErr ENOMEM, mb) end)
  end.

(** A tape is a content and a position in it. *)
Record tape := Tape { tp_data : bytes; tp_pos : nat }.
Definition tape_of (mb : mbuf) : tape := Tape (take (mb_end mb) (mb_buf mb)) (mb_pos mb).
Definition overwrite (t : tape) (d : bytes) : tape :=
  Tape (take (tp_pos t) (tp_data t) ++ d ++ drop (tp_pos t + length d) (tp_data t)) (tp_pos t + length d).
Fixpoint read_cstr (d : bytes) (n : nat) {struct n} : bytes * nat :=
  match n, d with
  | O, _ => ([], 0%nat)
  | S _, [] => ([0], 0%nat)
  | S n, c :: d => if c =? 0 then ([0], 1%nat) else let '(s, k) := read_cstr d n in (c :: s, S k)
  end.

(** What an operation may do to a tape; the last case of most is that memory is
    short.  The octets that [mbuf_shift] makes room for can be anything. *)
Definition tape_step (op : bop) (t : tape) (r : bres) (t' : tape) : Prop :=
  let rest := drop (tp_pos t) (tp_data t) in
  match op with
  | BWrite d => (r = RErr 0 /\ t' = overwrite t d) \/ (r = RErr ENOMEM /\ t' = t)
  | BWriteSkip pl off len =>
      if (off <? 0) || (off + Z.of_nat len >? zlen pl) then r = RErr ERANGE /\ t' = t
      else
        let a := take (Z.to_nat off) pl in
        (r = RErr 0 /\ t' = overwrite t (a ++ drop (Z.to_nat off + len) pl))
        \/ (r = RErr ENOMEM /\ (t' = t \/ t' = overwrite t a))
  | BFill c n =>
      if (n =? 0)%nat then r = RErr EINVAL /\ t' = t
      else (r = RErr 0 /\ t' = overwrite t (replicate n (u8 c))) \/ (r = RErr ENOMEM /\ t' = t)
  | BRead n =>
      if (length rest <? n)%nat then r = RErr EOVERFLOW /\ t' = t
      else r = RData (take n rest) /\ t' = Tape (tp_data t) (tp_pos t + n)
  | BReadStr n => let '(s, k) := read_cstr rest n in r = RData s /\ t' = Tape (tp_data t) (tp_pos t + k)
  | BStrdup n =>
      (r = RErr ENOMEM /\ t' = t)
      \/ if (length rest <? n)%nat then r = RErr EOVERFLOW /\ t' = t
         else r = RData (take n rest ++ [0]) /\ t' = Tape (tp_data t) (tp_pos t + n)
  | BShift k =>
      if Z.of_nat (tp_pos t) + k <? 0 then r = RErr ERANGE /\ t' = t
      else
        let p := Z.to_nat (Z.of_nat (tp_pos t) + k) in
        (r = RErr ENOMEM /\ t' = t)
        \/ exists gap, length gap = (p - tp_pos t)%nat /\ r = RErr 0
             /\ t' = Tape (take p (take (tp_pos t) (tp_data t) ++ gap) ++ rest) p
  | BSetPos p => r = RNone /\ t' = Tape (tp_data t) p
  | BSetEnd e => r = RNone /\ t' = Tape (take e (tp_data t)) (tp_pos t)
  | BPosEnd p e => r = RNone /\ (if (e <? p)%nat then t' = t else t' = Tape (take e (tp_data t)) p)
  | BSkipToEnd => r = RNone /\ t' = Tape (tp_data t) (length (tp_data t))
  | BRewind | BReset => r = RNone /\ t' = Tape [] 0
  | BTrim => r = RNone /\ t' = t
  | BDup => (r = RNone \/ r = RErr ENOMEM) /\ t' = t
  end.
(** The setters do not check what they are given: a position inside the content,
    an end that only shortens it and stays behind the position.  [mbuf_fill] and
    [mbuf_shift] do not check for overflow: the new position and end fit
    [size_t], and for [mbuf_shift] [ssize_t]. *)
Definition bop_ok (op : bop) (t : tape) : Prop :=
  match op with
  | BSetPos p => (p <= length (tp_data t))%nat
  | BSetEnd e => (tp_pos t <= e <= length (tp_data t))%nat
  | BPosEnd p e => (e <= length (tp_data t))%nat
  | BFill c n => Z.of_nat (tp_pos t) + Z.of_nat n < 2 ^ 64
  | BShift k => - 2 ^ 63 <= k /\ zlen (tp_data t) + k < 2 ^ 63
  | _ => True
  end.
End ops.

(** ** Every operation is one of a tape *)
Section proofs.
Context `{V : Env}.

Lemma resize_spec mb size s : (mb_end mb <= size)%nat -> (mb_end mb <= mb_size mb)%nat ->
  iwp (mbuf_resize mb size) (fun '(err, mb') s' => out s' = out s /\
    ((err = 0 /\ mb_size mb' = size /\ mb_pos mb' = mb_pos mb /\ mb_end mb' = mb_end mb
      /\ take (mb_end mb) (mb_buf mb') = take (mb_end mb) (mb_buf mb))
     \/ (err = ENOMEM /\ mb' = mb))) s.
Proof.
  intros H1 H2. unfold mbuf_resize. do 3 wp_step. destruct (env QAlloc (tick s) =? 0); wp_steps; [split; [done|by right]|]. split; [done|]. left.
  unfold mb_size in *. cbn [mb_buf mb_pos mb_end]. split; [done|]. split; [rewrite length_take, length_app, uninit_length; lia|].
  split; [done|]. split; [done|]. rewrite take_take, Nat.min_l by lia. by rewrite take_app_le by lia.
Qed.

Lemma put_tape mb d : mbuf_wf mb -> (mb_pos mb + length d <= mb_size mb)%nat ->
  mbuf_wf (mbuf_put mb d) /\ tape_of (mbuf_put mb d) = overwrite (tape_of mb) d.
Proof.
  intros [H1 H2] Hs. unfold mbuf_wf, mbuf_put, tape_of, overwrite, mb_size in *. cbn [mb_buf mb_pos mb_end tp_data tp_pos]. split.
  - rewrite !length_app, length_take, length_drop. lia.
  - f_equal. rewrite take_take, Nat.min_l by lia. rewrite take_app, (take_ge (take _ _)) by (rewrite length_take; lia).
    f_equal. rewrite length_take_le by lia. rewrite take_app, (take_ge d) by lia. f_equal. rewrite skipn_firstn_comm. f_equal. lia.
Qed.

Lemma grown_tape mb mb' : mbuf_wf mb -> mb_pos mb' = mb_pos mb -> mb_end mb' = mb_end mb -> (mb_end mb <= mb_size mb')%nat ->
  take (mb_end mb) (mb_buf mb') = take (mb_end mb) (mb_buf mb) -> mbuf_wf mb' /\ tape_of mb' = tape_of mb.
Proof. intros [H1 H2] E1 E2 Hs Et. unfold mbuf_wf, tape_of. rewrite E1, E2. split; [lia|]. by rewrite Et. Qed.

Lemma write_tape mb d s : mbuf_wf mb ->
  iwp (mbuf_write_mem mb d) (fun '(err, mb') s' => out s' = out s /\ mbuf_wf mb' /\
    ((err = 0 /\ tape_of mb' = overwrite (tape_of mb) d) \/ (err = ENOMEM /\ tape_of mb' = tape_of mb))) s.
Proof.
  intros W. pose proof W as [H1 H2]. unfold mbuf_write_mem. destruct (Nat.ltb_spec (mb_size mb) (mb_pos mb + length d)) as [Hs|Hs].
  - set (n := Nat.max _ _). assert (mb_size mb <= n /\ mb_pos mb + length d <= n)%nat as [Hn1 Hn2] by lia. clearbody n.
    apply iwp_bind. eapply iwp_mono; [apply (resize_spec mb n s); lia|]. intros [err mb'] s1 [Ho [(-> & Es & Ep & Ee & Et)|(-> & ->)]]; apply iwp_ret.
    + cbn [Z.eqb]. destruct (grown_tape mb mb' W Ep Ee ltac:(lia) Et) as [W' E']. destruct (put_tape mb' d W') as [W2 E2]; [lia|].
      split; [done|]. split; [done|]. left. split; [done|]. by rewrite E2, E'.
    + split; [done|]. split; [done|by right].
  - apply iwp_ret. destruct (put_tape mb d W Hs) as [W2 E2]. split; [done|]. split; [done|by left].
Qed.

Lemma fill_is_write mb c n s :
  (n =? 0)%nat = false -> Z.of_nat (mb_pos mb) + Z.of_nat n < 2 ^ 64 ->
  mbuf_fill mb c n s = mbuf_write_mem mb (replicate n (u8 c)) s.
Proof.
  intros E Hn. unfold mbuf_fill, mbuf_write_mem, mbuf_put. rewrite E, length_replicate, u64_small by lia.
  replace (Z.to_nat (Z.of_nat (mb_pos mb) + Z.of_nat n)) with (mb_pos mb + n)%nat by lia.
  destruct (_ <? _)%nat; [|done]. unfold mbuf_resize, mbind, IO_bind. destruct (ask QAlloc s) as [v s1].
  by destruct (v =? 0).
Qed.

Lemma tape_rest mb : mbuf_wf mb -> drop (tp_pos (tape_of mb)) (tp_data (tape_of mb)) = mbuf_buf mb /\ length (mbuf_buf mb) = mbuf_get_left mb.
Proof.
  intros W. split; [|by apply mbuf_buf_length]. unfold tape_of, mbuf_buf, mbuf_get_left. cbn [tp_pos tp_data].
  by rewrite skipn_firstn_comm.
Qed.
Lemma read_tape mb n : mbuf_wf mb ->
  match mbuf_read_mem mb n with
  | None => (length (mbuf_buf mb) < n)%nat
  | Some (d, mb') => (n <= length (mbuf_buf mb))%nat /\ d = take n (mbuf_buf mb) /\ mbuf_wf mb'
      /\ tape_of mb' = Tape (tp_data (tape_of mb)) (tp_pos (tape_of mb) + n) /\ mbuf_buf mb' = drop n (mbuf_buf mb)
  end.
Proof.
  intros W. destruct (tape_rest mb W) as [_ L]. unfold mbuf_read_mem. destruct (Nat.ltb_spec (mbuf_get_left mb) n) as [Hn|Hn]; [lia|].
  destruct W as [H1 H2]. unfold mbuf_get_left in *. split; [lia|]. split; [|split; [|split; [done|]]].
  - unfold mbuf_buf, mbuf_get_left. by rewrite take_take, Nat.min_l by lia.
  - unfold mbuf_wf, mbuf_advance, mb_size in *. cbn. lia.
  - unfold mbuf_buf, mbuf_get_left, mbuf_advance. cbn [mb_pos mb_end mb_buf]. rewrite skipn_firstn_comm, drop_drop. f_equal. lia.
Qed.

Lemma read_str_tape n : forall mb, mbuf_wf mb ->
  let '(d, mb') := mbuf_read_str mb n in
  let '(d0, k) := read_cstr (mbuf_buf mb) n in
  d = d0 /\ mbuf_wf mb' /\ tape_of mb' = Tape (tp_data (tape_of mb)) (tp_pos (tape_of mb) + k).
Proof.
  assert (forall mb, tape_of mb = Tape (tp_data (tape_of mb)) (tp_pos (tape_of mb) + 0)) as H0
    by (intros mb; unfold tape_of; cbn [tp_data tp_pos]; by rewrite Nat.add_0_r).
  induction n as [|n IH]; intros mb W; cbn [mbuf_read_str read_cstr]; [split; [done|]; split; [done|apply H0]|].
  unfold mbuf_read_u8, mbuf_read_be. pose proof (read_tape mb 1 W) as HR. destruct (mbuf_read_mem mb 1) as [[d mb']|].
  - destruct HR as (Hl & -> & W' & Et & Eb). destruct (mbuf_buf mb) as [|c r] eqn:Er; [cbn in Hl; lia|].
    change (take 1 (c :: r)) with [c] in *. change (drop 1 (c :: r)) with r in *. change (from_be [c]) with c.
    destruct (Z.eqb_spec c 0) as [->|Hc]; [split; [done|]; split; [done|exact Et]|]. specialize (IH mb' W').
    destruct (mbuf_read_str mb' n) as [d mb2]. rewrite Eb in IH. destruct (read_cstr r n) as [d0 k].
    destruct IH as (-> & W2 & E2). split; [done|]. split; [done|]. rewrite E2, Et. cbn [tp_data tp_pos]. f_equal. lia.
  - destruct (mbuf_buf mb) as [|c r]; [|cbn in HR; lia]. change (0 =? 0) with true. cbn iota. split; [done|]. split; [done|]. apply H0.
Qed.

Lemma move_tape mb k p :
  mbuf_wf mb -> p = Z.to_nat (Z.of_nat (mb_pos mb) + k) -> 0 <= Z.of_nat (mb_pos mb) + k -> (p + mbuf_get_left mb <= mb_size mb)%nat ->
  let mb' := Mbuf (memmove_left (mb_buf mb) (mb_pos mb) (mbuf_get_left mb) p) p (p + mbuf_get_left mb) in
  mbuf_wf mb' /\ exists gap, length gap = (p - mb_pos mb)%nat /\
    tape_of mb' = Tape (take p (take (tp_pos (tape_of mb)) (tp_data (tape_of mb)) ++ gap) ++ mbuf_buf mb) p.
Proof.
  intros W Ep Hp Hs mb'. pose proof (mbuf_buf_length mb W) as L. destruct W as [H1 H2]. unfold mb_size in *.
  assert (length (take p (mb_buf mb)) = p) as Lp by (rewrite length_take; lia).
  split. { unfold mbuf_wf, mb_size, mb', memmove_left. cbn [mb_buf mb_pos mb_end]. fold (mbuf_buf mb). rewrite !length_app, Lp, L, length_drop. lia. }
  exists (take (p - mb_pos mb) (drop (mb_pos mb) (mb_buf mb))). split; [rewrite length_take, length_drop; lia|].
  unfold tape_of, mb', memmove_left. cbn [mb_buf mb_pos mb_end tp_data tp_pos]. fold (mbuf_buf mb). f_equal.
  rewrite app_assoc, take_app_le by (rewrite length_app, Lp, L; lia). rewrite take_ge by (rewrite length_app, Lp, L; lia). f_equal.
  rewrite take_take, Nat.min_l by lia. destruct (Nat.le_gt_cases p (mb_pos mb)).
  - rewrite take_app_le by (rewrite length_take; lia). rewrite take_take. f_equal. lia.
  - rewrite take_take_drop. rewrite take_take. f_equal. lia.
Qed.

Lemma i64_small z : - 2 ^ 63 <= z < 2 ^ 63 -> i64 z = z.
Proof. intros H. unfold i64. rewrite Z.mod_small; lia. Qed.
Lemma shift_tape mb k s : mbuf_wf mb -> - 2 ^ 63 <= k -> Z.of_nat (mb_end mb) + k < 2 ^ 63 ->
  iwp (mbuf_shift mb k) (fun '(err, mb') s' => out s' = out s /\ mbuf_wf mb' /\ tape_step (BShift k) (tape_of mb) (RErr err) (tape_of mb')) s.
Proof.
  intros W K1 K2. pose proof W as [H1 H2]. pose proof (tape_rest mb W) as [Hrest L]. unfold mbuf_shift, tape_step. rewrite Hrest.
  rewrite !i64_small by lia.
  change (tp_pos (tape_of mb)) with (mb_pos mb) at 1 2 3. destruct (Z.ltb_spec (Z.of_nat (mb_pos mb) + k) 0) as [Hk|Hk]; cbn [orb]; [by apply iwp_ret|].
  destruct (Z.ltb_spec (Z.of_nat (mb_end mb) + k) 0) as [Hk2|Hk2]; [lia|].
  rewrite (u64_small (Z.of_nat (mb_end mb) + k)) by lia.
  set (p := Z.to_nat (Z.of_nat (mb_pos mb) + k)).
  assert (forall mb1, mb_pos mb1 = mb_pos mb -> Z.to_nat (u64 (Z.of_nat (mb_pos mb1) + k)) = p) as Hu
    by (intros mb1 E1; rewrite E1, u64_small by lia; done).
  assert (Z.to_nat (Z.of_nat (mb_end mb) + k) = p + mbuf_get_left mb)%nat as -> by (unfold mbuf_get_left; lia).
  destruct (Nat.ltb_spec (mb_size mb) (p + mbuf_get_left mb)) as [Hs|Hs].
  - apply iwp_bind. eapply iwp_mono; [apply (resize_spec mb _ s); unfold mbuf_get_left in *; lia|].
    intros [err mb'] s1 [Ho [(-> & Es & Epp & Ee & Et)|(-> & ->)]]; apply iwp_ret; cbn [Z.eqb].
    2: { split; [done|]. split; [done|]. by left. }
    assert (mbuf_get_left mb' = mbuf_get_left mb) as El by (unfold mbuf_get_left; by rewrite Epp, Ee).
    destruct (grown_tape mb mb' W Epp Ee ltac:(unfold mbuf_get_left in *; lia) Et) as [W' E'].
    destruct (move_tape mb' k p W') as [W2 (gap & Hg & E2)]; [by rewrite Epp|by rewrite Epp|rewrite El; lia|].
    rewrite Hu by done. rewrite El in *. rewrite Epp in *. split; [done|]. split; [done|]. right. exists gap. split; [done|]. split; [done|].
    rewrite E2. rewrite E'. do 2 f_equal. rewrite <- (proj1 (tape_rest mb' W')), E'. done.
  - apply iwp_ret. rewrite Hu by done. destruct (move_tape mb k p W eq_refl Hk Hs) as [W2 (gap & Hg & E2)]. split; [done|]. split; [done|]. right. by exists gap.
Qed.

Lemma overwrite_app t a b : (tp_pos t <= length (tp_data t))%nat -> overwrite (overwrite t a) b = overwrite t (a ++ b).
Proof.
  intros H. unfold overwrite. cbn [tp_pos tp_data]. f_equal; [|rewrite length_app; lia].
  assert (length (take (tp_pos t) (tp_data t)) = tp_pos t) as Lp by (rewrite length_take; lia).
  rewrite (app_assoc (take _ _) a). rewrite (take_app_length' (_ ++ a)) by (rewrite length_app; lia).
  rewrite drop_app. rewrite (drop_ge (_ ++ a)) by (rewrite length_app; lia). cbn [app].
  rewrite drop_drop, <- !app_assoc. do 3 f_equal. rewrite !length_app, Lp. f_equal. lia.
Qed.
Lemma wf_tape mb : mbuf_wf mb -> length (tp_data (tape_of mb)) = mb_end mb /\ (tp_pos (tape_of mb) <= length (tp_data (tape_of mb)))%nat.
Proof. intros [H1 H2]. unfold tape_of, mb_size in *. cbn. rewrite length_take. lia. Qed.

Lemma dup_tape mb s : mbuf_wf mb ->
  iwp (mbuf_dup mb) (fun r s' => out s' = out s /\ match r with Some mb' => mbuf_wf mb' /\ tape_of mb' = tape_of mb | None => True end) s.
Proof.
  intros [H1 H2]. unfold mbuf_dup. apply iwp_bind. eapply iwp_mono; [apply mbuf_alloc_spec|]. intros r s1 [Ho Hr]. apply iwp_ret.
  split; [done|]. destruct r as [mb1|]; [|done]. unfold mbuf_wf, tape_of, mb_size in *. cbn [mb_buf mb_pos mb_end].
  split; [lia|done].
Qed.
Lemma trim_tape mb s : mbuf_wf mb ->
  iwp (mbuf_trim mb) (fun mb' s' => out s' = out s /\ mbuf_wf mb' /\ tape_of mb' = tape_of mb) s.
Proof.
  intros W. pose proof W as [H1 H2]. unfold mbuf_trim. case_match; [by apply iwp_ret|]. apply iwp_bind.
  eapply iwp_mono; [apply (resize_spec mb (mb_end mb) s); lia|]. intros [err mb'] s1 [Ho [(-> & Es & Ep & Ee & Et)|(-> & ->)]]; apply iwp_ret; [|done].
  split; [done|]. apply (grown_tape mb mb' W Ep Ee); [lia|done].
Qed.

Lemma write_skip_tape mb pl off len s : mbuf_wf mb ->
  iwp (mbuf_write_pl_skip mb pl off len) (fun '(err, mb') s' =>
    out s' = out s /\ mbuf_wf mb' /\ tape_step (BWriteSkip pl off len) (tape_of mb) (RErr err) (tape_of mb')) s.
Proof.
  intros W. unfold mbuf_write_pl_skip, tape_step. destruct (_ || _); [by apply iwp_ret|]. apply iwp_bind.
  eapply iwp_mono; [apply (write_tape mb _ s W)|]. intros [err mb1] s1 (Ho & W1 & [(-> & E1)|(-> & E1)]); cbn [Z.eqb negb].
  2: { apply iwp_ret. split; [done|]. split; [done|]. right. split; [done|by left]. }
  eapply iwp_mono; [apply (write_tape mb1 _ s1 W1)|]. intros [err mb2] s2 (Ho2 & W2 & E2). split; [by rewrite Ho2|]. split; [done|].
  destruct E2 as [[-> E2]|[-> E2]]; [left|right; split; [done|right; by rewrite E2, E1]]. split; [done|].
  rewrite E2, E1, overwrite_app; [done|apply (wf_tape mb W)].
Qed.

(** ** One operation *)
Lemma posend_tape mb p e : mbuf_wf mb -> (e <= length (tp_data (tape_of mb)))%nat ->
  mbuf_wf (mbuf_set_posend mb p e)
  /\ (if (e <? p)%nat then tape_of (mbuf_set_posend mb p e) = tape_of mb
      else tape_of (mbuf_set_posend mb p e) = Tape (take e (tp_data (tape_of mb))) p).
Proof.
  intros W He. destruct (wf_tape mb W) as [L _]. rewrite L in He. pose proof W as [H1 H2]. unfold mbuf_set_posend.
  destruct (Nat.ltb_spec e p); [done|]. destruct (Nat.ltb_spec (mb_size mb) e); [lia|]. unfold mbuf_wf, tape_of, mb_size in *.
  cbn [mb_buf mb_pos mb_end tp_data tp_pos]. split; [lia|]. by rewrite take_take, Nat.min_l by lia.
Qed.
Lemma setters_tape mb op s : mbuf_wf mb -> bop_ok op (tape_of mb) ->
  match op with BSetPos _ | BSetEnd _ | BPosEnd _ _ | BSkipToEnd | BRewind | BReset => True | _ => False end ->
  iwp (bstep op mb) (fun '(r, mb') s' => out s' = out s /\ mbuf_wf mb' /\ tape_step op (tape_of mb) r (tape_of mb')) s.
Proof.
  intros W Hok Hop. destruct (wf_tape mb W) as [L _]. pose proof W as [H1 H2].
  destruct op; try done; unfold bop_ok in Hok; unfold bstep, tape_step; apply iwp_ret; (split; [done|]).
  3: { destruct (posend_tape mb p e W Hok) as [W' E']. split; [done|]. split; [done|]. by destruct (e <? p)%nat. }
  all: rewrite ?L in *; unfold mbuf_set_pos, mbuf_set_end, mbuf_skip_to_end, mbuf_rewind, mbuf_reset, mbuf_init, mbuf_wf, tape_of, mb_size in *;
    cbn [mb_buf mb_pos mb_end tp_data tp_pos length] in *; rewrite ?take_take, ?Nat.min_l by lia; split; auto with lia.
Qed.

Lemma bstep_tape op mb s : mbuf_wf mb -> bop_ok op (tape_of mb) ->
  iwp (bstep op mb) (fun '(r, mb') s' => out s' = out s /\ mbuf_wf mb' /\ tape_step op (tape_of mb) r (tape_of mb')) s.
Proof.
  intros W Hok. pose proof (tape_rest mb W) as [Hrest L].
  destruct op; try (by apply setters_tape); unfold bstep; try apply iwp_bind; unfold tape_step; rewrite ?Hrest.
  - eapply iwp_mono; [apply (write_tape mb d s W)|]. intros [e mb'] s' (Ho & W' & H). apply iwp_ret. split; [done|]. split; [done|].
    destruct H as [[-> ?]|[-> ?]]; auto.
  - eapply iwp_mono; [apply (write_skip_tape mb pl off len s W)|]. intros [e mb'] s' H. by apply iwp_ret.
  - destruct (n =? 0)%nat eqn:En; [unfold mbuf_fill; rewrite En; by do 2 apply iwp_ret|].
    unfold iwp. rewrite (fill_is_write mb c n s En) by exact Hok. eapply iwp_mono; [apply (write_tape mb (replicate n (u8 c)) s W)|]. intros [e mb'] s' (Ho & W' & H). apply iwp_ret. split; [done|].
    split; [done|]. destruct H as [[-> ?]|[-> ?]]; auto.
  - apply iwp_ret. pose proof (read_tape mb n W) as HR. destruct (mbuf_read_mem mb n) as [[d mb']|].
    + destruct HR as (Hl & -> & W' & Et & _). destruct (Nat.ltb_spec (length (mbuf_buf mb)) n); [lia|done].
    + by destruct (Nat.ltb_spec (length (mbuf_buf mb)) n); [|lia].
  - apply iwp_ret. pose proof (read_str_tape n mb W) as HR. destruct (mbuf_read_str mb n) as [d mb'], (read_cstr (mbuf_buf mb) n) as [d0 k].
    by destruct HR as (-> & W' & ->).
  - unfold mbuf_strdup. do 2 wp_step. do 2 apply iwp_ret. destruct (env QAlloc (tick s) =? 0); [split; [done|]; split; [done|by left]|].
    pose proof (read_tape mb n W) as HR. destruct (mbuf_read_mem mb n) as [[d mb']|].
    + destruct HR as (Hl & -> & W' & Et & _). destruct (Nat.ltb_spec (length (mbuf_buf mb)) n); [lia|]. split; [done|]. split; [done|by right].
    + destruct (Nat.ltb_spec (length (mbuf_buf mb)) n); [|lia]. split; [done|]. split; [done|by right].
  - unfold bop_ok in Hok. rewrite (proj1 (wf_tape mb W)) in Hok.
    eapply iwp_mono; [apply (shift_tape mb k s W); apply Hok|]. intros [e mb'] s' H. apply iwp_ret. unfold tape_step in H. by rewrite Hrest in H.
  - eapply iwp_mono; [apply (trim_tape mb s W)|]. intros mb' s' (Ho & W' & E). by apply iwp_ret.
  - eapply iwp_mono; [apply (dup_tape mb s W)|]. intros r s' [Ho H]. apply iwp_ret. destruct r; [destruct H|]; auto.
Qed.

(** ** Sequences of operations *)
Inductive tape_steps : list bop -> tape -> list bres -> tape -> Prop :=
| ts_nil t : tape_steps [] t [] t
| ts_cons op ops t r t1 rs t2 : tape_step op t r t1 -> tape_steps ops t1 rs t2 -> tape_steps (op :: ops) t (r :: rs) t2.
Fixpoint brun (ops : list bop) (mb : mbuf) : IO (list bres * mbuf) :=
  match ops with
  | [] => mret ([], mb)
  | op :: ops => '(r, mb) ← bstep op mb; '(rs, mb) ← brun ops mb; mret (r :: rs, mb)
  end.
(** The callers respect [bop_ok], whatever the operations before returned. *)
Fixpoint bops_ok (ops : list bop) (t : tape) : Prop :=
  match ops with
  | [] => True
  | op :: ops => bop_ok op t /\ forall r t', tape_step op t r t' -> bops_ok ops t'
  end.

(** C21. A buffer behaves as a tape.  Whatever sequence of writes, fills, reads,
    shifts and moves of the position is made on a well-formed buffer, and whether
    or not memory runs short in between, the buffer stays well-formed (position
    within the end, end within the memory: no access is outside it), and the
    results and the content are those of a tape without any memory: a failed
    operation leaves it as it was.  The caller's part: positions and ends set
    directly lie within the content, the position plus the length of a fill fits
    [size_t], and the end plus a shift fits [ssize_t]; the code checks none of
    these ([fill_wraps] is what happens otherwise). *)
Theorem mbuf_is_tape ops : forall mb s, mbuf_wf mb -> bops_ok ops (tape_of mb) ->
  iwp (brun ops mb) (fun '(rs, mb') s' => out s' = out s /\ mbuf_wf mb' /\ tape_steps ops (tape_of mb) rs (tape_of mb')) s.
Proof.
  induction ops as [|op ops IH]; intros mb s W Hok; cbn [brun]; [apply iwp_ret; split; [done|]; split; [done|constructor]|].
  destruct Hok as [H1 H2]. apply iwp_bind. eapply iwp_mono; [apply (bstep_tape op mb s W H1)|]. intros [r mb1] s1 (Ho & W1 & T).
  apply iwp_bind. eapply iwp_mono; [apply (IH mb1 s1 W1 (H2 _ _ T))|]. intros [rs mb2] s2 (Ho2 & W2 & T2). apply iwp_ret.
  split; [by rewrite Ho2|]. split; [done|]. by econstructor.
Qed.

(** A fill whose length makes the position wrap to 0 succeeds without extending
    the memory, and writes behind it. *)
Lemma fill_wraps mb c n s :
  mbuf_wf mb -> (0 < n)%nat -> Z.of_nat (mb_pos mb) + Z.of_nat n = 2 ^ 64 -> (mb_size mb < mb_pos mb + n)%nat ->
  exists mb', mbuf_fill mb c n s = ((0, mb'), s) /\ (mb_size mb < length (mb_buf mb'))%nat.
Proof.
  intros [H1 H2] Hn Hw Hs. unfold mbuf_fill. destruct (Nat.eqb_spec n 0); [lia|]. rewrite Hw.
  change (Z.to_nat (u64 (2 ^ 64))) with 0%nat. destruct (Nat.ltb_spec (mb_size mb) 0); [lia|].
  eexists. split; [reflexivity|]. unfold mb_size in *. cbn [mb_buf]. rewrite !length_app, length_replicate, length_take. lia.
Qed.
End proofs.

(** A memory in which every third allocation fails. *)
Definition scarce_env : Env := {|
  env q n := match q with QAlloc => if (n mod 3 =? 2)%nat then 0 else 1 | _ => 0 end;
  env_encode _ _ := EncOut 0 videoFrameTypeSkip [];
  env_md5 _ := replicate 16 0;
  env_atoi_overflow v := i32 v;
  env_ntop _ := None;
  env_uninit _ := 170
|}.
Definition demo_mbuf : mbuf := Mbuf [104; 105; 0; 33] 0 4.
Definition demo_bops : list bop := [BReadStr 8; BShift 2; BWrite [1; 2; 3]; BFill 7 8; BTrim; BRewind; BRead 1].
Lemma mbuf_is_tape_witness :
  mbuf_wf demo_mbuf
  /\ fst (fst (@brun scarce_env demo_bops demo_mbuf (Sys 0 [])))
     = [RData [104; 105; 0]; RErr 0; RErr 0; RErr ENOMEM; RNone; RNone; RErr EOVERFLOW]
  /\ let '(rs, mb, s) := @brun scarce_env demo_bops demo_mbuf (Sys 0 []) in
     out s = [] /\ mbuf_wf mb /\ tape_steps demo_bops (tape_of demo_mbuf) rs (tape_of mb).
Proof.
  assert (mbuf_wf demo_mbuf) as W by (vm_compute; lia).
  split; [exact W|]. split; [vm_compute; reflexivity|].
  pose proof (@mbuf_is_tape scarce_env demo_bops demo_mbuf (Sys 0 []) W) as H.
  unfold iwp in H. destruct (@brun scarce_env demo_bops demo_mbuf (Sys 0 [])) as [[rs mb] s].
  apply H. clear H. unfold demo_bops. split; [exact I|]. intros r1 t1 [_ ->].
  split; [vm_compute; split; [discriminate|reflexivity]|]. intros r2 t2 Ht2. split; [exact I|]. intros r3 t3 Ht3.
  assert (Z.of_nat (tp_pos t3) <= 100) as Hp.
  { cbn in Ht2. destruct Ht2 as [[_ ->]|(gap & _ & _ & ->)]; destruct Ht3 as [[_ ->]|[_ ->]]; vm_compute; discriminate. }
  split; [cbn; lia|]. intros r4 t4 _. repeat split.
Defined.
