(* ===== verification/Mem.v ===== *)
(** * Reference-counted memory ([src/re-4.6.0/src/mem/mem.c])

    Objects have a counter of references and a destructor.  [malloc], [realloc]
    and [free] are the environment: an answer is an argument, a block that was
    freed is no longer in [objs], and an access to it is [None].

    Besides its octets an object has the references it keeps to other objects
    ([m_owns]), the pointers in its fields; what a destructor does with them is
    a parameter.  The lock is left out (one thread), and so are back traces and
    the printing of leaks.  The debugging part is compiled in, as in a build
    without RELEASE. *)
From S2P Require Import Prelude Sys.
From stdpp Require Import gmap.
Local Open Scope Z_scope.

Definition MEM_SIZE_MAX : Z := 4294967295.

(** [struct mem] *)
Record mem := Mem {
  m_nrefs : Z;
  m_size : Z;
  m_dh : option nat;
  m_data : bytes;
  m_owns : list nat
}.
(** The heap, [meml], [threshold] and [memstat]. *)
Record memory := Memory {
  objs : gmap nat mem;
  meml : list nat;
  threshold : Z;
  bytes_cur : Z;
  blocks_cur : Z
}.
(** What [malloc] or [realloc] returns: an address and what is there. *)
Definition block : Type := option (nat * bytes).
(** What a destructor does. *)
Inductive dact := DRef (a : nat) | DDeref (a : nat).

Definition set_obj (a : nat) (m : mem) (h : memory) : memory :=
  Memory (<[a := m]> (objs h)) (meml h) (threshold h) (bytes_cur h) (blocks_cur h).
Definition set_nrefs (n : Z) (m : mem) : mem := Mem n (m_size m) (m_dh m) (m_data m) (m_owns m).

(** The simulation of memory shortage. *)
Definition over_threshold (h : memory) : bool :=
  negb (threshold h =? -1) && (u64 (threshold h) <=? blocks_cur h).

Definition mem_alloc (size : Z) (dh : option nat) (ans : block) (h : memory) : option nat * memory :=
  if size >? MEM_SIZE_MAX then (None, h)
  else if over_threshold h then (None, h)
  else
    match ans with
    | None => (None, h)
    | Some (a, d) =>
        (Some a, Memory (<[a := Mem 1 (u32 size) dh (take (Z.to_nat size) d) []]> (objs h)) (meml h ++ [a])
                   (threshold h) (u64 (bytes_cur h + size)) (u64 (blocks_cur h + 1)))
    end.

Definition mem_zalloc (size : Z) (dh : option nat) (ans : block) (h : memory) : option nat * memory :=
  match mem_alloc size dh ans h with
  | (None, h) => (None, h)
  | (Some a, h) =>
      (Some a, match objs h !! a with
               | Some m => set_obj a (Mem (m_nrefs m) (m_size m) (m_dh m) (replicate (Z.to_nat size) 0) (m_owns m)) h
               | None => h
               end)
  end.

Definition mem_ref (p : option nat) (h : memory) : option (option nat * memory) :=
  match p with
  | None => Some (None, h)
  | Some a =>
      match objs h !! a with
      | None => None
      | Some m => Some (Some a, set_obj a (set_nrefs (u32 (m_nrefs m + 1)) m) h)
      end
  end.

Definition mem_nrefs (p : option nat) (h : memory) : option Z :=
  match p with None => Some 0 | Some a => m_nrefs <$> objs h !! a end.

Definition mem_destructor (p : option nat) (dh : option nat) (h : memory) : option memory :=
  match p with
  | None => Some h
  | Some a =>
      match objs h !! a with
      | None => None
      | Some m => Some (set_obj a (Mem (m_nrefs m) (m_size m) dh (m_data m) (m_owns m)) h)
      end
  end.

Definition mem_threshold_set (n : Z) (h : memory) : memory :=
  Memory (objs h) (meml h) n (bytes_cur h) (blocks_cur h).
Definition mem_get_stat (h : memory) : Z * Z := (bytes_cur h, blocks_cur h).
Definition unlink (a : nat) (l : list nat) : list nat := filter (fun b => b <> a) l.

(** The end of [mem_deref]: unlink, statistics, [free]. *)
Definition mem_release (a : nat) (m : mem) (h : memory) : memory :=
  Memory (delete a (objs h)) (unlink a (meml h)) (threshold h)
    (u64 (bytes_cur h - m_size m)) (u64 (blocks_cur h - 1)).

Section destructors.
Variable destructor : nat -> nat -> mem -> list dact.

Fixpoint mem_deref (fuel : nat) (p : option nat) (h : memory) : option memory :=
  match p with
  | None => Some h
  | Some a =>
      match fuel, objs h !! a with
      | S f, Some m =>
          let h := set_obj a (set_nrefs (u32 (m_nrefs m - 1)) m) h in
          if m_nrefs m >? 1 then Some h
          else
            h ← match m_dh m with
                | None => Some h
                | Some d =>
                    fold_left (fun oh act =>
                      h ← oh;
                      match act with
                      | DRef b => snd <$> mem_ref (Some b) h
                      | DDeref b => mem_deref f (Some b) h
                      end) (destructor d a m) (Some h)
                end;
            m ← objs h !! a;
            if m_nrefs m >? 0 then Some h else Some (mem_release a m h)
      | _, _ => None
      end
  end.

Definition mem_realloc (fuel : nat) (p : option nat) (size : Z) (ans : block) (h : memory)
    : option (option nat * memory) :=
  match p with
  | None => Some (None, h)
  | Some a =>
      if size >? MEM_SIZE_MAX then Some (None, h)
      else
        m ← objs h !! a;
        if m_nrefs m >? 1 then
          match mem_alloc size (m_dh m) ans h with
          | (None, h) => Some (None, h)
          | (Some b, h) =>
              n ← objs h !! b;
              let len := Z.to_nat (if m_size m <? size then m_size m else size) in
              h ← mem_deref fuel (Some a)
                    (set_obj b (Mem (m_nrefs n) (m_size n) (m_dh n) (take len (m_data m) ++ drop len (m_data n))
                                  (m_owns m)) h);
              Some (Some b, h)
          end
        else if negb (threshold h =? -1) && (size >? m_size m) && (u64 (threshold h) <=? blocks_cur h)
        then Some (None, h)
        else
          let l := unlink a (meml h) in
          match ans with
          | None => Some (None, Memory (objs h) (l ++ [a]) (threshold h) (bytes_cur h) (blocks_cur h))
          | Some (b, d) =>
              let data := take (Z.to_nat size) (take (Z.to_nat (m_size m)) (m_data m) ++ drop (Z.to_nat (m_size m)) d) in
              Some (Some b, Memory (<[b := Mem (m_nrefs m) (u32 size) (m_dh m) data (m_owns m)]> (delete a (objs h)))
                             (l ++ [b]) (threshold h) (u64 (bytes_cur h + (size - m_size m))) (blocks_cur h))
          end
  end.

Definition mem_reallocarray (fuel : nat) (p : option nat) (nmemb membsize : Z) (dh : option nat) (ans : block)
    (h : memory) : option (option nat * memory) :=
  if negb (membsize =? 0) && (nmemb >? MEM_SIZE_MAX / membsize) then Some (None, h)
  else
    let tsize := u64 (nmemb * membsize) in
    match p with
    | Some _ => mem_realloc fuel p tsize ans h
    | None => Some (mem_alloc tsize dh ans h)
    end.
End destructors.

(** ** Who holds references

    [R] lists the references that the program holds, one entry for each.  [A]
    are the objects in use, [D] the ones whose destructor is running; those have
    given up their fields. *)
Definition owns (h : memory) (a : nat) : list nat :=
  match objs h !! a with Some m => m_owns m | None => [] end.
Definition refs (h : memory) (A R : list nat) : list nat := R ++ flat_map (owns h) A.
Abbreviation count := (count_occ Nat.eq_dec).

Record counted (h : memory) (A D R : list nat) : Prop := {
  ct_nodup : NoDup (A ++ D);
  ct_dom : forall a, is_Some (objs h !! a) <-> a ∈ A ++ D;
  ct_refs : forall a m, a ∈ A -> objs h !! a = Some m ->
    m_nrefs m = Z.of_nat (count (refs h A R) a) /\ 0 < m_nrefs m;
  ct_dying : forall a m, a ∈ D -> objs h !! a = Some m -> m_nrefs m = 0;
  ct_live : forall a, a ∈ refs h A R -> a ∈ A;
  ct_max : zlen (refs h A R) < 2 ^ 32;
  ct_dh : forall a m, objs h !! a = Some m -> m_owns m <> [] -> m_dh m <> None
}.
(** The statistics and the list of objects. *)
Definition total (h : memory) : Z :=
  foldr (fun a s => match objs h !! a with Some m => m_size m | None => 0 end + s) 0 (meml h).
Record stat_ok (h : memory) : Prop := {
  so_nodup : NoDup (meml h);
  so_dom : forall a, a ∈ meml h <-> is_Some (objs h !! a);
  so_blocks : blocks_cur h = zlen (meml h);
  so_bytes : bytes_cur h = total h;
  so_size : forall a m, objs h !! a = Some m -> 0 <= m_size m < 2 ^ 32;
  so_max : zlen (meml h) <= 2 ^ 32
}.
(** What stays the same of an object when it is referenced or released. *)
Definition same_obj (m n : mem) : Prop :=
  m_size m = m_size n /\ m_dh m = m_dh n /\ m_data m = m_data n /\ m_owns m = m_owns n.
Definition kept (h h' : memory) : Prop :=
  threshold h' = threshold h /\
  forall a m', objs h' !! a = Some m' -> exists m, objs h !! a = Some m /\ same_obj m m'.


Lemma kept_refl h : kept h h.
Proof. split; [done|]. intros a m' H. by exists m'. Qed.
Lemma kept_trans h1 h2 h3 : kept h1 h2 -> kept h2 h3 -> kept h1 h3.
Proof.
  intros [T1 K1] [T2 K2]. split; [congruence|]. intros a m3 H3. destruct (K2 _ _ H3) as (m2 & H2 & S2).
  destruct (K1 _ _ H2) as (m1 & H1 & S1). exists m1. split; [done|]. unfold same_obj in *. intuition congruence.
Qed.
Lemma kept_set h a m n : objs h !! a = Some m -> kept h (set_obj a (set_nrefs n m) h).
Proof.
  intros E. split; [done|]. intros b m'. cbn [set_obj objs]. destruct (decide (a = b)) as [<-|Hn].
  - rewrite lookup_insert_eq. intros [= <-]. by exists m.
  - rewrite lookup_insert_ne by done. intros Hb. by exists m'.
Qed.
Lemma kept_release h a m : kept h (mem_release a m h).
Proof. split; [done|]. intros b m'. cbn [mem_release objs]. rewrite lookup_delete_Some. intros [_ H]. by exists m'. Qed.

Lemma owns_set h a m n b : objs h !! a = Some m -> owns (set_obj a (set_nrefs n m) h) b = owns h b.
Proof.
  intros E. unfold owns. cbn [set_obj objs]. destruct (decide (a = b)) as [<-|Hn].
  - by rewrite lookup_insert_eq, E.
  - by rewrite lookup_insert_ne.
Qed.
Lemma refs_ext h h' A R : (forall b, b ∈ A -> owns h' b = owns h b) -> refs h' A R = refs h A R.
Proof.
  intros H. unfold refs. f_equal. induction A as [|a A IH]; [done|]. cbn [flat_map]. rewrite H by (by left).
  f_equal. apply IH. intros b Hb. apply H. by right.
Qed.

Lemma size_sum h l : (forall a m, objs h !! a = Some m -> 0 <= m_size m < 2 ^ 32) ->
  0 <= foldr (fun a s => match objs h !! a with Some m => m_size m | None => 0 end + s) 0 l <= zlen l * (2 ^ 32 - 1).
Proof.
  intros H. induction l as [|a l IH]; [done|]. cbn [foldr length].
  assert (0 <= match objs h !! a with Some m => m_size m | None => 0 end <= 2 ^ 32 - 1).
  { destruct (objs h !! a) as [m|] eqn:E; [|lia]. pose proof (H a m E). lia. }
  lia.
Qed.
Lemma total_ext h h' l : (forall a, a ∈ l -> m_size <$> objs h' !! a = m_size <$> objs h !! a) ->
  foldr (fun a s => match objs h' !! a with Some m => m_size m | None => 0 end + s) 0 l
  = foldr (fun a s => match objs h !! a with Some m => m_size m | None => 0 end + s) 0 l.
Proof.
  induction l as [|a l IH]; intros H; [done|]. cbn [foldr]. rewrite IH by (intros b Hb; apply H; by right).
  specialize (H a ltac:(by left)). destruct (objs h' !! a), (objs h !! a); cbn in H; congruence.
Qed.

Lemma stat_set h a m n : stat_ok h -> objs h !! a = Some m -> stat_ok (set_obj a (set_nrefs n m) h).
Proof.
  intros [N Dm B Y S X] E.
  assert (forall b, m_size <$> objs (set_obj a (set_nrefs n m) h) !! b = m_size <$> objs h !! b) as Hs.
  { intros b. cbn [set_obj objs]. destruct (decide (a = b)) as [<-|Hn]; [by rewrite lookup_insert_eq, E|by rewrite lookup_insert_ne]. }
  split; cbn [set_obj meml blocks_cur bytes_cur]; try done.
  - intros b. rewrite Dm. specialize (Hs b). cbn [set_obj objs] in *. destruct (objs h !! b), (_ !! b); cbn in Hs; try done;
      split; intros [? ?]; by eauto.
  - rewrite Y. unfold total. cbn [meml set_obj]. symmetry. apply total_ext. intros b _. apply Hs.
  - intros b m'. specialize (Hs b). intros Eb. rewrite Eb in Hs. cbn in Hs. destruct (objs h !! b) as [m0|] eqn:E0; [|done].
    injection Hs as ->. by eapply S.
Qed.

Lemma total_unlink h a m l : NoDup l -> a ∈ l -> objs h !! a = Some m ->
  foldr (fun a s => match objs h !! a with Some m => m_size m | None => 0 end + s) 0 (unlink a l)
  = foldr (fun a s => match objs h !! a with Some m => m_size m | None => 0 end + s) 0 l - m_size m
  /\ length l = S (length (unlink a l)).
Proof.
  unfold unlink. induction l as [|b l IH]; intros Hn Ha E; [by apply elem_of_nil in Ha|].
  apply NoDup_cons in Hn as [Hb Hn]. rewrite filter_cons. destruct (decide (b <> a)) as [Hne|Heq].
  - apply elem_of_cons in Ha as [->|Ha]; [done|]. destruct (IH Hn Ha E) as [I1 I2]. cbn [foldr length]. lia.
  - assert (b = a) as -> by (by apply dec_stable). cbn [foldr length]. rewrite E.
    assert (filter (fun b => b <> a) l = l) as ->.
    { clear -Hb. induction l as [|c l IH]; [done|]. rewrite filter_cons. destruct (decide (c <> a)) as [|Hc].
      - f_equal. apply IH. intros H. apply Hb. by right.
      - apply dec_stable in Hc as ->. destruct Hb. by left. }
    lia.
Qed.
Lemma stat_release h a m : stat_ok h -> objs h !! a = Some m -> stat_ok (mem_release a m h).
Proof.
  intros [N Dm B Y S X] E. assert (a ∈ meml h) as Ha by (apply Dm; by eexists).
  destruct (total_unlink h a m (meml h) N Ha E) as [T L].
  pose proof (S a m E) as Sa. pose proof (size_sum h (unlink a (meml h)) S) as Sz. fold (total h) in T.
  assert (forall b, b ∈ unlink a (meml h) <-> b ∈ meml h /\ b <> a) as Hu
    by (intros b; unfold unlink; rewrite list_elem_of_filter; tauto).
  split; cbn [mem_release meml blocks_cur bytes_cur objs].
  - by apply NoDup_filter.
  - intros b. rewrite Hu, Dm. destruct (decide (a = b)) as [<-|Hn].
    + rewrite lookup_delete_eq. split; [by intros [_ ?]|by intros [? ?]].
    + rewrite lookup_delete_ne by done. split; [by intros [? _]|]. intros H. split; [done|congruence].
  - rewrite B, u64_small by lia. lia.
  - unfold total at 1. change (meml (mem_release a m h)) with (unlink a (meml h)). rewrite Y.
    rewrite (total_ext h (mem_release a m h)) by (intros b [_ Hb]%Hu; cbn [mem_release objs]; by rewrite lookup_delete_ne).
    rewrite u64_small; [lia|]. rewrite T in Sz. pose proof (size_sum h (meml h) S) as Sz2. fold (total h) in Sz2. nia.
  - intros b m' Hb. apply lookup_delete_Some in Hb as [_ Hb]. by eapply S.
  - lia.
Qed.

(** ** Taking and giving back a reference *)
Lemma count_pos (l : list nat) a : (0 < count l a)%nat <-> a ∈ l.
Proof. rewrite list_elem_of_In, (count_occ_In Nat.eq_dec). lia. Qed.
Lemma count_perm (l k : list nat) a : l ≡ₚ k -> count l a = count k a.
Proof. intros P. apply (Permutation_count_occ Nat.eq_dec). exact P. Qed.

Lemma ref_counted h A D R a m :
  counted h A D R -> a ∈ A -> objs h !! a = Some m -> zlen (a :: refs h A R) < 2 ^ 32 ->
  counted (set_obj a (set_nrefs (u32 (m_nrefs m + 1)) m) h) A D (a :: R).
Proof.
  intros [N Dm C Y L X H] Ha E HX. set (h1 := set_obj _ _ _).
  assert (refs h1 A (a :: R) = a :: refs h A R) as Er.
  { unfold refs. cbn [List.app]. f_equal. apply (refs_ext h h1 A R). intros b _. by apply owns_set. }
  assert (a ∉ D) as HD by (apply NoDup_app in N; set_solver).
  split; rewrite ?Er; try done.
  - intros b. rewrite <- Dm. cbn [h1 set_obj objs]. rewrite lookup_insert_is_Some. destruct (decide (a = b)) as [<-|]; [|tauto].
    split; [by eexists|by left].
  - intros b mb Hb. cbn [h1 set_obj objs]. destruct (decide (a = b)) as [<-|Hne].
    + rewrite lookup_insert_eq. intros [= <-]. cbn [set_nrefs m_nrefs]. destruct (C a m Ha E) as [Ec Ep].
      rewrite count_occ_cons_eq by done. cbn [length] in HX. pose proof (count_occ_bound Nat.eq_dec a (refs h A R)).
      rewrite u32_small by lia. lia.
    + rewrite lookup_insert_ne by done. intros Eb. rewrite count_occ_cons_neq by done. by apply C.
  - intros b mb Hb. cbn [h1 set_obj objs]. rewrite lookup_insert_ne by (intros ->; done). by apply Y.
  - intros b [->|Hb]%elem_of_cons; [done|by apply L].
  - intros b mb. cbn [h1 set_obj objs]. destruct (decide (a = b)) as [<-|Hne].
    + rewrite lookup_insert_eq. intros [= <-]. cbn [set_nrefs m_owns m_dh]. by apply (H a).
    + rewrite lookup_insert_ne by done. apply H.
Qed.

Lemma unref_counted h A D R a m :
  counted h A D (a :: R) -> objs h !! a = Some m -> 1 < m_nrefs m ->
  counted (set_obj a (set_nrefs (u32 (m_nrefs m - 1)) m) h) A D R.
Proof.
  intros [N Dm C Y L X H] E Hm. set (h1 := set_obj _ _ _).
  assert (refs h A (a :: R) = a :: refs h A R) as Ea by done.
  assert (refs h1 A R = refs h A R) as Er by (apply refs_ext; intros b _; by apply owns_set).
  assert (a ∈ A) as Ha by (apply L; rewrite Ea; by left).
  assert (a ∉ D) as HD by (apply NoDup_app in N; set_solver).
  rewrite Ea in *. cbn [length] in X.
  split; rewrite ?Er; try done; try lia.
  - intros b. rewrite <- Dm. cbn [h1 set_obj objs]. rewrite lookup_insert_is_Some. destruct (decide (a = b)) as [<-|]; [|tauto].
    split; [by eexists|by left].
  - intros b mb Hb. cbn [h1 set_obj objs]. destruct (decide (a = b)) as [<-|Hne].
    + rewrite lookup_insert_eq. intros [= <-]. cbn [set_nrefs m_nrefs]. destruct (C a m Ha E) as [Ec Ep].
      rewrite count_occ_cons_eq in Ec by done. pose proof (count_occ_bound Nat.eq_dec a (refs h A R)).
      rewrite u32_small by lia. lia.
    + rewrite lookup_insert_ne by done. intros Eb. destruct (C b mb Hb Eb) as [Ec Ep].
      rewrite count_occ_cons_neq in Ec by done. done.
  - intros b mb Hb. cbn [h1 set_obj objs]. rewrite lookup_insert_ne by (intros ->; done). by apply Y.
  - intros b Hb. apply L. by right.
  - intros b mb. cbn [h1 set_obj objs]. destruct (decide (a = b)) as [<-|Hne].
    + rewrite lookup_insert_eq. intros [= <-]. cbn [set_nrefs m_owns m_dh]. by apply (H a).
    + rewrite lookup_insert_ne by done. apply H.
Qed.

Lemma unlink_perm a A : NoDup A -> a ∈ A -> A ≡ₚ a :: unlink a A.
Proof.
  unfold unlink. induction A as [|b A IH]; intros Hn Ha; [by apply elem_of_nil in Ha|].
  apply NoDup_cons in Hn as [Hb Hn]. rewrite filter_cons. destruct (decide (b <> a)) as [Hne|Heq].
  - apply elem_of_cons in Ha as [->|Ha]; [done|]. rewrite (IH Hn Ha) at 1. apply Permutation_swap.
  - apply dec_stable in Heq as ->. f_equiv. clear -Hb. induction A as [|c A IH]; [done|]. rewrite filter_cons.
    destruct (decide (c <> a)) as [|Hc]; [f_equiv; apply IH; set_solver|]. apply dec_stable in Hc as ->. set_solver.
Qed.

(** The last reference: the object's destructor takes over its fields. *)
Lemma dying_counted h A D R a m :
  counted h A D (a :: R) -> objs h !! a = Some m -> m_nrefs m = 1 ->
  counted (set_obj a (set_nrefs (u32 (m_nrefs m - 1)) m) h) (unlink a A) (a :: D) (m_owns m ++ R)
  /\ refs h A (a :: R) ≡ₚ a :: refs (set_obj a (set_nrefs (u32 (m_nrefs m - 1)) m) h) (unlink a A) (m_owns m ++ R).
Proof.
  intros [N Dm C Y L X H] E Hm. set (h1 := set_obj _ _ _).
  assert (a ∈ A) as Ha by (apply L; by left).
  assert (NoDup A) as NA by (by apply NoDup_app in N as [? _]).
  assert (a ∉ D) as HD by (apply NoDup_app in N; set_solver).
  pose proof (unlink_perm a A NA Ha) as P. set (A1 := unlink a A) in *.
  assert (refs h1 A1 (m_owns m ++ R) ≡ₚ refs h A R) as Er.
  { rewrite (refs_ext h h1 A1 _) by (intros b _; by apply owns_set). unfold refs. rewrite (Permutation_flat_map (owns h) P).
    cbn [flat_map]. unfold owns at 2. rewrite E. rewrite (Permutation_app_comm (m_owns m) R), <- app_assoc. done. }
  assert (refs h A (a :: R) = a :: refs h A R) as Ea by done.
  split; [|rewrite Ea; f_equiv; by symmetry]. rewrite Ea in *. cbn [length] in X.
  assert (count (refs h A R) a = 0)%nat as Z0.
  { destruct (C a m Ha E) as [Ec _]. rewrite count_occ_cons_eq in Ec by done. lia. }
  assert (forall b, b ∈ refs h A R -> b ∈ A1) as L1.
  { intros b Hb. assert (b <> a) as Hne by (intros ->; apply count_pos in Hb; lia).
    specialize (L b ltac:(by right)). rewrite P in L. apply elem_of_cons in L as [?|?]; done. }
  assert (A1 ++ a :: D ≡ₚ A ++ D) as PD.
  { etransitivity; [symmetry; apply Permutation_middle|]. rewrite P. done. }
  split.
  - by rewrite PD.
  - intros b. rewrite PD, <- Dm. cbn [h1 set_obj objs]. rewrite lookup_insert_is_Some. destruct (decide (a = b)) as [<-|]; [|tauto].
    split; [by eexists|by left].
  - intros b mb Hb. assert (b <> a) as Hne.
    { intros ->. assert (NoDup (A1 ++ a :: D)) as N1 by (by rewrite PD). apply NoDup_app in N1. set_solver. }
    cbn [h1 set_obj objs]. rewrite lookup_insert_ne by done. intros Eb.
    destruct (C b mb ltac:(rewrite P; by right) Eb) as [Ec Ep]. rewrite count_occ_cons_neq in Ec by done.
    by rewrite (count_perm _ _ b Er).
  - intros b mb [->|Hb]%elem_of_cons; cbn [h1 set_obj objs].
    + rewrite lookup_insert_eq. intros [= <-]. cbn [set_nrefs m_nrefs]. by rewrite Hm.
    + rewrite lookup_insert_ne by (intros ->; done). by apply Y.
  - intros b. rewrite Er. apply L1.
  - rewrite Er. lia.
  - intros b mb. cbn [h1 set_obj objs]. destruct (decide (a = b)) as [<-|Hne].
    + rewrite lookup_insert_eq. intros [= <-]. cbn [set_nrefs m_owns m_dh]. by apply (H a).
    + rewrite lookup_insert_ne by done. apply H.
Qed.

Lemma release_counted h A D R a m :
  counted h A (a :: D) R -> objs h !! a = Some m -> counted (mem_release a m h) A D R.
Proof.
  intros [N Dm C Y L X H] E.
  apply NoDup_app in N as (NA & NI & ND). apply NoDup_cons in ND as [ND0 ND].
  assert (a ∉ A) as Ha by (intros Ha; apply (NI a Ha); by left).
  assert (refs (mem_release a m h) A R = refs h A R) as Er.
  { apply refs_ext. intros b Hb. unfold owns. cbn [mem_release objs]. rewrite lookup_delete_ne; [done|]. by intros ->. }
  split; rewrite ?Er; try done.
  - apply NoDup_app. split; [done|]. split; [|done]. intros b Hb Hd. apply (NI b Hb). by right.
  - intros b. cbn [mem_release objs]. destruct (decide (a = b)) as [<-|Hne].
    + rewrite lookup_delete_eq. split; [by intros [? ?]|]. intros [?|?]%elem_of_app; done.
    + rewrite lookup_delete_ne, Dm by done. rewrite !elem_of_app, elem_of_cons. naive_solver.
  - intros b mb Hb. cbn [mem_release objs]. intros [_ Eb]%lookup_delete_Some. by apply C.
  - intros b mb Hb. cbn [mem_release objs]. intros [_ Eb]%lookup_delete_Some. apply (Y b); [by right|done].
  - intros b mb. cbn [mem_release objs]. intros [_ Eb]%lookup_delete_Some. by apply (H b).
Qed.

(** ** Releasing *)
Section release.
Variable destructor : nat -> nat -> mem -> list dact.
Hypothesis destructor_releases : forall d a m, destructor d a m = map DDeref (m_owns m).

Definition deref_spec (fuel : nat) : Prop := forall h A D R a,
  counted h A D (a :: R) -> stat_ok h -> (length (refs h A (a :: R)) <= fuel)%nat ->
  exists h' A', mem_deref destructor fuel (Some a) h = Some h' /\ counted h' A' D R /\ stat_ok h' /\ kept h h'
    /\ (length (refs h' A' R) < length (refs h A (a :: R)))%nat.

Lemma fields_released fuel : deref_spec fuel -> forall xs h A D R,
  counted h A D (xs ++ R) -> stat_ok h -> (length (refs h A (xs ++ R)) <= fuel)%nat ->
  exists h' A', fold_left (fun oh act =>
      h ← oh;
      match act with DRef b => snd <$> mem_ref (Some b) h | DDeref b => mem_deref destructor fuel (Some b) h end)
      (map DDeref xs) (Some h) = Some h' /\ counted h' A' D R /\ stat_ok h' /\ kept h h'
    /\ (length (refs h' A' R) <= length (refs h A (xs ++ R)))%nat.
Proof.
  intros IH xs. induction xs as [|x xs IHx]; intros h A D R C S F; cbn [map fold_left List.app] in *.
  - exists h, A. split_and!; [done..|apply kept_refl|lia].
  - destruct (IH h A D (xs ++ R) x C S F) as (h1 & A1 & E1 & C1 & S1 & K1 & L1). cbn [mbind option_bind]. rewrite E1.
    destruct (IHx h1 A1 D R C1 S1 ltac:(lia)) as (h2 & A2 & E2 & C2 & S2 & K2 & L2).
    exists h2, A2. split_and!; [done..|by eapply kept_trans|lia].
Qed.

Lemma deref_counted fuel : deref_spec fuel.
Proof.
  induction fuel as [|f IH]; intros h A D R a C S F; [unfold refs in F; cbn [List.app length] in F; lia|].
  assert (a ∈ A) as Ha by (eapply ct_live; [exact C|]; by left).
  assert (is_Some (objs h !! a)) as [m E] by (apply (ct_dom _ _ _ _ C); set_solver).
  pose proof (ct_refs _ _ _ _ C a m Ha E) as [_ Hp]. cbn [mem_deref]. rewrite E.
  pose proof (kept_set h a m (u32 (m_nrefs m - 1)) E) as K0.
  pose proof (stat_set h a m (u32 (m_nrefs m - 1)) S E) as S0.
  destruct (Z.gtb_spec (m_nrefs m) 1) as [Hm|Hm].
  { eexists _, A. split; [done|]. split_and!; [by apply unref_counted|done|done|].
    rewrite (refs_ext h _ A R) by (intros b _; by apply owns_set). unfold refs. cbn [List.app length]. lia. }
  destruct (dying_counted h A D R a m C E ltac:(lia)) as [C0 P0]. set (h0 := set_obj _ _ _) in *.
  apply Permutation_length in P0. cbn [length] in P0.
  assert (exists h2 A2,
    match m_dh m with
    | None => Some h0
    | Some d => fold_left (fun oh act => h ← oh;
        match act with DRef b => snd <$> mem_ref (Some b) h | DDeref b => mem_deref destructor f (Some b) h end)
        (destructor d a m) (Some h0)
    end = Some h2 /\ counted h2 A2 (a :: D) R /\ stat_ok h2 /\ kept h0 h2
    /\ (length (refs h2 A2 R) < length (refs h A (a :: R)))%nat) as (h2 & A2 & -> & C2 & S2 & K2 & L2).
  { destruct (m_dh m) as [d|] eqn:Ed.
    - rewrite destructor_releases. destruct (fields_released f IH (m_owns m) h0 _ _ R C0 S0 ltac:(lia)) as (h2 & A2 & ? & ? & ? & ? & ?).
      exists h2, A2. split_and!; [done..|lia].
    - assert (m_owns m = []) as Eo.
      { destruct (m_owns m) eqn:Eo; [done|]. exfalso. apply (ct_dh _ _ _ _ C a m E); [by rewrite Eo|done]. }
      exists h0, (unlink a A). rewrite Eo in *. cbn [List.app] in *. split_and!; [done..|apply kept_refl|lia]. }
  cbn [mbind option_bind].
  assert (is_Some (objs h2 !! a)) as [m2 E2] by (apply (ct_dom _ _ _ _ C2); set_solver). rewrite E2. cbn [mbind option_bind].
  rewrite (ct_dying _ _ _ _ C2 a m2 ltac:(by left) E2). change (0 >? 0) with false. cbn iota.
  exists (mem_release a m2 h2), A2. split; [done|]. split_and!; [by apply release_counted|by apply stat_release| |].
  - eapply kept_trans; [exact K0|]. eapply kept_trans; [exact K2|apply kept_release].
  - rewrite (refs_ext h2) ; [done|]. intros b Hb. unfold owns. cbn [mem_release objs]. rewrite lookup_delete_ne; [done|].
    intros ->. pose proof (ct_nodup _ _ _ _ C2) as N. apply NoDup_app in N. set_solver.
Qed.
End release.

(** ** Programs

    A program that keeps to the rules of ownership: it allocates, takes and
    gives back references to objects it can get at, stores a reference it holds
    in a field of another object, takes one out, resizes an object it holds and
    sets its destructor.  The second component of the state lists the references
    it holds. *)
Inductive mop :=
| OAlloc (zero : bool) (size : Z) (dh : option nat) (ans : block)
| ORef (a : nat)
| ODeref (a : nat)
| OStore (a b : nat)
| OTake (a b : nat)
| ORealloc (a : nat) (size : Z) (ans : block)
| OReallocArray (p : option nat) (nmemb membsize : Z) (dh : option nat) (ans : block)
| ODestructor (a : nat) (dh : option nat)
| OThreshold (n : Z).

Fixpoint drop_ref (a : nat) (R : list nat) : list nat :=
  match R with [] => [] | b :: R => if decide (b = a) then R else b :: drop_ref a R end.
Definition set_owns (xs : list nat) (m : mem) : mem := Mem (m_nrefs m) (m_size m) (m_dh m) (m_data m) xs.
Definition rename (a b : nat) (R : list nat) : list nat := b :: drop_ref a R.

Section programs.
Variable destructor : nat -> nat -> mem -> list dact.

Definition mem_step (op : mop) (x : memory * list nat) : option (memory * list nat) :=
  let '(h, R) := x in
  let fuel := length (refs h (meml h) R) in
  match op with
  | OAlloc zero size dh ans =>
      let '(p, h) := (if zero then mem_zalloc else mem_alloc) size dh ans h in
      Some (h, match p with Some a => a :: R | None => R end)
  | ORef a => '(_, h) ← mem_ref (Some a) h; Some (h, a :: R)
  | ODeref a => h ← mem_deref destructor fuel (Some a) h; Some (h, drop_ref a R)
  | OStore a b => m ← objs h !! a; Some (set_obj a (set_owns (b :: m_owns m) m) h, drop_ref b R)
  | OTake a b => m ← objs h !! a; Some (set_obj a (set_owns (drop_ref b (m_owns m)) m) h, b :: R)
  | ORealloc a size ans =>
      '(p, h) ← mem_realloc destructor (S fuel) (Some a) size ans h;
      Some (h, match p with Some b => rename a b R | None => R end)
  | OReallocArray p nmemb membsize dh ans =>
      '(q, h) ← mem_reallocarray destructor (S fuel) p nmemb membsize dh ans h;
      Some (h, match q, p with Some b, Some a => rename a b R | Some b, None => b :: R | None, _ => R end)
  | ODestructor a dh => h ← mem_destructor (Some a) dh h; Some (h, R)
  | OThreshold n => Some (mem_threshold_set n h, R)
  end.
(** [malloc] returns an address that is not in use; [realloc] may also leave the
    block where it is. *)
Definition fresh (h : memory) (ans : block) : Prop :=
  match ans with Some (a, _) => objs h !! a = None | None => True end.
(** An object held may be resized unless it has both fields that refer to others
    and other references: then [mem_realloc] copies the fields without taking
    references, see [realloc_copies_ownership].  (The fields that refer to others
    lie within the new size.) *)
Definition resize_ok (h : memory) (R : list nat) (a : nat) (size : Z) (ans : block) : Prop :=
  a ∈ R /\ (owns h a = [] \/ forall m, objs h !! a = Some m -> m_nrefs m = 1) /\ 0 <= size /\
  (fresh h ans \/ (exists d, ans = Some (a, d)) /\ forall m, objs h !! a = Some m -> m_nrefs m = 1).
Definition op_ok (op : mop) (x : memory * list nat) : Prop :=
  let '(h, R) := x in
  zlen (refs h (meml h) R) + 1 < 2 ^ 32 /\
  match op with
  | OAlloc _ size _ ans => 0 <= size /\ fresh h ans
  | ORef a => a ∈ refs h (meml h) R
  | ODeref a => a ∈ R
  | OStore a b => a ∈ R /\ b ∈ R /\ (forall m, objs h !! a = Some m -> m_dh m <> None)
  | OTake a b => a ∈ R /\ b ∈ owns h a
  | ORealloc a size ans => resize_ok h R a size ans
  | OReallocArray p nmemb membsize dh ans =>
      match p with Some a => resize_ok h R a (u64 (nmemb * membsize)) ans | None => fresh h ans end
  | ODestructor a dh => a ∈ R /\ (owns h a <> [] -> dh <> None)
  | OThreshold _ => True
  end.
Fixpoint mem_run (ops : list mop) (x : memory * list nat) : option (memory * list nat) :=
  match ops with [] => Some x | op :: ops => x ← mem_step op x; mem_run ops x end.
Fixpoint mem_ok (ops : list mop) (x : memory * list nat) : Prop :=
  match ops with
  | [] => True
  | op :: ops => op_ok op x /\ match mem_step op x with Some x => mem_ok ops x | None => True end
  end.
End programs.

Definition sound (x : memory * list nat) : Prop := counted (fst x) (meml (fst x)) [] (snd x) /\ stat_ok (fst x).

(** The objects in use are those of the list. *)
Lemma counted_equiv h A A' D R R' : A ≡ₚ A' -> R ≡ₚ R' -> counted h A D R -> counted h A' D R'.
Proof.
  intros PA PR [N Dm C Y L X H].
  assert (refs h A R ≡ₚ refs h A' R') as P by (unfold refs; by rewrite PR, (Permutation_flat_map (owns h) PA)).
  split; try done.
  - by rewrite <- PA.
  - intros a. by rewrite Dm, PA.
  - intros a m Ha E. rewrite <- PA in Ha. destruct (C a m Ha E). by rewrite <- (count_perm _ _ a P).
  - intros a. rewrite <- P, <- PA. apply L.
  - by rewrite <- P.
Qed.
Lemma counted_meml h A R : counted h A [] R -> stat_ok h -> counted h (meml h) [] R.
Proof.
  intros C S. eapply counted_equiv; [|done|exact C]. apply NoDup_Permutation.
  - pose proof (ct_nodup _ _ _ _ C) as N. by rewrite app_nil_r in N.
  - apply S.
  - intros a. rewrite (so_dom _ S), (ct_dom _ _ _ _ C), app_nil_r. done.
Qed.
Lemma drop_ref_perm a R : a ∈ R -> R ≡ₚ a :: drop_ref a R.
Proof.
  induction R as [|b R IH]; [by intros ?%elem_of_nil|]. intros Ha. cbn [drop_ref]. destruct (decide (b = a)) as [->|Hn]; [done|].
  apply elem_of_cons in Ha as [->|Ha]; [done|]. rewrite (IH Ha) at 1. apply Permutation_swap.
Qed.

(** A new object. *)
Lemma alloc_ok h R a dh sz d :
  sound (h, R) -> objs h !! a = None -> 0 <= sz < 2 ^ 32 -> zlen (refs h (meml h) R) + 1 < 2 ^ 32 ->
  sound (Memory (<[a := Mem 1 sz dh d []]> (objs h)) (meml h ++ [a]) (threshold h)
           (u64 (bytes_cur h + sz)) (u64 (blocks_cur h + 1)), a :: R).
Proof.
  intros [C S] E Hs Hx. cbn [fst snd] in *. destruct S as [N Dm B Y Sz X]. set (h1 := Memory _ _ _ _ _).
  assert (a ∉ meml h) as Ha by (rewrite Dm, E; by intros [? ?]).
  assert (zlen (meml h) <= zlen (refs h (meml h) R)) as Hl.
  { assert (length (meml h) <= length (refs h (meml h) R))%nat; [|lia]. apply NoDup_incl_length; [by apply NoDup_ListNoDup|].
    intros b Hb. apply list_elem_of_In in Hb. apply list_elem_of_In. pose proof Hb as Hb0. apply Dm in Hb0 as [mb Eb].
    apply count_pos. destruct (ct_refs _ _ _ _ C b mb Hb Eb). lia. }
  assert (forall b, b ∈ meml h -> objs h1 !! b = objs h !! b) as Ho.
  { intros b Hb. cbn [h1 objs]. apply lookup_insert_ne. by intros ->. }
  assert (stat_ok h1) as S1.
  { pose proof (size_sum h (meml h) Sz) as Ht. fold (total h) in Ht. split; cbn [h1 meml objs blocks_cur bytes_cur].
    - apply NoDup_app. split; [done|]. split; [|apply NoDup_singleton]. intros b Hb ->%list_elem_of_singleton. done.
    - intros b. rewrite elem_of_app, list_elem_of_singleton, Dm, lookup_insert_is_Some. destruct (decide (a = b)); naive_solver.
    - rewrite B, u64_small by (rewrite ?length_app; lia). rewrite length_app. cbn [length]. lia.
    - rewrite Y, u64_small by nia. unfold total at 2. change (meml h1) with (meml h ++ [a]). rewrite foldr_app.
      cbn [foldr]. cbn [h1 objs]. rewrite lookup_insert_eq. cbn [m_size]. rewrite Z.add_0_r.
      assert (forall l z, (forall b, b ∈ l -> b ∈ meml h) ->
        foldr (fun a0 s => match <[a := Mem 1 sz dh d []]> (objs h) !! a0 with Some m => m_size m | None => 0 end + s) z l
        = foldr (fun a0 s => match objs h !! a0 with Some m => m_size m | None => 0 end + s) 0 l + z) as Hf.
      { induction l as [|b l IHl]; intros z Hl'; cbn [foldr]; [lia|]. rewrite IHl by (intros c Hc; apply Hl'; by right).
        rewrite (Ho b (Hl' b ltac:(by left)) : <[a := Mem 1 sz dh d []]> (objs h) !! b = objs h !! b). lia. }
      rewrite Hf by done. fold (total h). lia.
    - intros b mb. destruct (decide (a = b)) as [<-|Hn].
      + rewrite lookup_insert_eq. intros [= <-]. done.
      + rewrite lookup_insert_ne by done. apply Sz.
    - rewrite length_app. cbn [length]. lia. }
  split; [|done]. cbn [fst snd]. apply (counted_equiv _ (a :: meml h) _ _ (a :: R)); [|done|].
  { cbn [h1 meml]. apply Permutation_cons_append. }
  assert (refs h1 (a :: meml h) (a :: R) = a :: refs h (meml h) R) as Er.
  { unfold refs. cbn [flat_map List.app]. unfold owns at 1. cbn [h1 objs]. rewrite lookup_insert_eq. cbn [m_owns List.app].
    f_equal. apply (refs_ext h h1 (meml h) R). intros b Hb. unfold owns. by rewrite Ho. }
  destruct C as [CN CD CC CY CL CX CH]. rewrite app_nil_r in *.
  assert (a ∉ refs h (meml h) R) as Hna by (intros H; by apply Ha, CL).
  split; rewrite ?Er, ?app_nil_r.
  - by apply NoDup_cons.
  - intros b. rewrite elem_of_cons, Dm. cbn [h1 objs]. rewrite lookup_insert_is_Some. destruct (decide (a = b)); naive_solver.
  - intros b mb Hb. cbn [h1 objs]. destruct (decide (a = b)) as [<-|Hn].
    + rewrite lookup_insert_eq. intros [= <-]. cbn [m_nrefs]. rewrite count_occ_cons_eq by done.
      assert (count (refs h (meml h) R) a = 0%nat) as -> by (apply count_occ_not_In; by rewrite <- list_elem_of_In). done.
    + rewrite lookup_insert_ne by done. intros Eb. rewrite count_occ_cons_neq by done. apply CC; [|done]. set_solver.
  - intros b mb Hb. by apply elem_of_nil in Hb.
  - intros b [->|Hb]%elem_of_cons; [by left|]. right. by apply CL.
  - cbn [length]. lia.
  - intros b mb. cbn [h1 objs]. destruct (decide (a = b)) as [<-|Hn].
    + rewrite lookup_insert_eq. by intros [= <-].
    + rewrite lookup_insert_ne by done. apply CH.
Qed.

(** Changes that leave the counters and sizes alone and only move references. *)
Lemma sound_equiv h h' R R' :
  (forall b, (fun m => (m_nrefs m, m_size m)) <$> objs h' !! b = (fun m => (m_nrefs m, m_size m)) <$> objs h !! b) ->
  meml h' ≡ₚ meml h -> bytes_cur h' = bytes_cur h -> blocks_cur h' = blocks_cur h ->
  refs h' (meml h') R' ≡ₚ refs h (meml h) R ->
  (forall a m, objs h' !! a = Some m -> m_owns m <> [] -> m_dh m <> None) ->
  sound (h, R) -> sound (h', R').
Proof.
  intros HS HL HY HB HR HD [[N Dm C Y L X H] [SN SD SB SY SS SX]]. cbn [fst snd] in *.
  assert (forall b m', objs h' !! b = Some m' -> exists m, objs h !! b = Some m /\ m_nrefs m' = m_nrefs m /\ m_size m' = m_size m) as Ho.
  { intros b m' E. specialize (HS b). rewrite E in HS. cbn in HS. destruct (objs h !! b) as [m|]; [|done]. injection HS as -> ->. by eauto. }
  assert (forall b, is_Some (objs h' !! b) <-> is_Some (objs h !! b)) as Hi.
  { intros b. specialize (HS b). destruct (objs h' !! b), (objs h !! b); cbn in HS; try done; by split; eauto. }
  rewrite app_nil_r in *. split; split; cbn [fst snd]; rewrite ?app_nil_r; try done.
  - by rewrite HL.
  - intros b. by rewrite HL, Hi, Dm.
  - intros b m' Hb E. rewrite HL in Hb. destruct (Ho b m' E) as (m & Em & -> & _).
    rewrite (count_perm _ _ b HR). by apply C.
  - intros b m' Hb. by apply elem_of_nil in Hb.
  - intros b. rewrite HR, HL. apply L.
  - by rewrite HR.
  - by rewrite HL.
  - intros b. by rewrite HL, Hi.
  - by rewrite HB, HL.
  - rewrite HY, SY. unfold total. symmetry. rewrite (foldr_permutation (=) _ 0 (meml h') (meml h)); [|intros; lia|done].
    apply total_ext. intros b _. specialize (HS b). destruct (objs h' !! b), (objs h !! b); cbn in HS |- *; congruence.
  - intros b m' E. destruct (Ho b m' E) as (m & Em & _ & ->). by eapply SS.
  - by rewrite HL.
Qed.

(** A field of an object held: references move between it and the program. *)
Lemma sound_fields h R a m xs d R' :
  sound (h, R) -> objs h !! a = Some m -> (xs <> [] -> m_dh m <> None) ->
  xs ++ R' ≡ₚ m_owns m ++ R ->
  sound (set_obj a (Mem (m_nrefs m) (m_size m) (m_dh m) d xs) h, R').
Proof.
  intros S E Hd P. pose proof S as S0. destruct S as [C St]. cbn [fst snd] in *.
  assert (a ∈ meml h) as Ha by (apply St; by eexists).
  pose proof (unlink_perm a _ (so_nodup _ St) Ha) as PA.
  apply (sound_equiv h _ R R'); cbn [set_obj meml bytes_cur blocks_cur]; try done.
  - intros b. cbn [set_obj objs]. destruct (decide (a = b)) as [<-|Hn]; [by rewrite lookup_insert_eq, E|by rewrite lookup_insert_ne].
  - set (h1 := set_obj _ _ _). unfold refs. rewrite !(Permutation_flat_map _ PA). cbn [flat_map].
    assert (owns h1 a = xs) as -> by (unfold owns; cbn [h1 set_obj objs]; by rewrite lookup_insert_eq).
    assert (owns h a = m_owns m) as -> by (unfold owns; by rewrite E).
    assert (flat_map (owns h1) (unlink a (meml h)) = flat_map (owns h) (unlink a (meml h))) as ->.
    { assert (forall b, b ∈ unlink a (meml h) -> owns h1 b = owns h b) as Ho.
      { intros b. unfold unlink. rewrite list_elem_of_filter. intros [Hb _]. unfold owns. cbn [h1 set_obj objs]. by rewrite lookup_insert_ne. }
      pose proof (refs_ext h h1 (unlink a (meml h)) [] Ho) as Hr. exact Hr. }
    rewrite !app_assoc. f_equiv. rewrite (Permutation_app_comm R' xs), P. apply Permutation_app_comm.
  - intros b mb. cbn [set_obj objs]. destruct (decide (a = b)) as [<-|Hn].
    + rewrite lookup_insert_eq. by intros [= <-].
    + rewrite lookup_insert_ne by done. apply (ct_dh _ _ _ _ C).
Qed.

(** ** Every operation keeps the books *)
Section steps.
Variable destructor : nat -> nat -> mem -> list dact.
Hypothesis destructor_releases : forall d a m, destructor d a m = map DDeref (m_owns m).

Lemma sound_held h R a : sound (h, R) -> a ∈ refs h (meml h) R -> exists m, objs h !! a = Some m /\ 0 < m_nrefs m.
Proof.
  intros [C S] Ha. apply (ct_live _ _ _ _ C) in Ha. pose proof Ha as Hm. apply S in Hm as [m E].
  exists m. split; [done|]. by eapply C.
Qed.
Lemma held_ref h R a : a ∈ R -> a ∈ refs h (meml h) R.
Proof. intros H. unfold refs. apply elem_of_app. by left. Qed.

Lemma mem_alloc_sound h R size dh ans p h' :
  sound (h, R) -> 0 <= size -> fresh h ans -> zlen (refs h (meml h) R) + 1 < 2 ^ 32 ->
  mem_alloc size dh ans h = (p, h') ->
  sound (h', match p with Some a => a :: R | None => R end) /\
  match p with
  | Some a => exists d, objs h' = <[a := Mem 1 size dh d []]> (objs h) /\ objs h !! a = None /\ size <= MEM_SIZE_MAX
  | None => h' = h
  end.
Proof.
  intros S Hs Hf Hx. unfold mem_alloc. destruct (Z.gtb_spec size MEM_SIZE_MAX) as [|Hm]; [by intros [= <- <-]|].
  destruct (over_threshold h); [by intros [= <- <-]|]. destruct ans as [[a d]|]; [|by intros [= <- <-]].
  intros [= <- <-]. cbn [fresh] in Hf. unfold MEM_SIZE_MAX in Hm. rewrite u32_small by lia. cbn [objs].
  split; [apply alloc_ok; (done || lia)|]. exists (take (Z.to_nat size) d). split; [done|]. split; [done|unfold MEM_SIZE_MAX; lia].
Qed.

Lemma mem_deref_sound fuel h R a :
  sound (h, R) -> a ∈ R -> (length (refs h (meml h) R) <= fuel)%nat ->
  exists h', mem_deref destructor fuel (Some a) h = Some h' /\ sound (h', drop_ref a R) /\ kept h h'.
Proof.
  intros [C S] Ha F. cbn [fst snd] in *. pose proof (drop_ref_perm a R Ha) as P.
  apply (counted_equiv _ _ (meml h) _ _ (a :: drop_ref a R)) in C; [|done..].
  destruct (deref_counted destructor destructor_releases fuel h (meml h) [] (drop_ref a R) a C S) as (h' & A' & E & C' & S' & K & _).
  { unfold refs in *. cbn [List.app]. rewrite P in F. exact F. }
  exists h'. split; [done|]. split; [|done]. split; [|done]. by eapply counted_meml.
Qed.

(** An object with one reference moves to another address, with its fields. *)
Lemma move_sound h R a b m size d :
  sound (h, R) -> a ∈ R -> objs h !! a = Some m -> m_nrefs m = 1 ->
  (objs h !! b = None \/ b = a) -> 0 <= size < 2 ^ 32 -> zlen (refs h (meml h) R) + 1 < 2 ^ 32 ->
  sound (Memory (<[b := Mem (m_nrefs m) size (m_dh m) d (m_owns m)]> (delete a (objs h))) (unlink a (meml h) ++ [b])
           (threshold h) (u64 (bytes_cur h + (size - m_size m))) (blocks_cur h), rename a b R).
Proof.
  intros S Ha E H1 Hb Hs Hx. pose proof S as [C St]. cbn [fst snd] in *. pose proof (drop_ref_perm a R Ha) as P.
  pose proof (ct_dh _ _ _ _ C a m E) as Hdh.
  apply (counted_equiv _ _ (meml h) _ _ (a :: drop_ref a R)) in C; [|done..].
  destruct (dying_counted h _ _ _ a m C E H1) as [C0 P0].
  pose proof (stat_set h a m (u32 (m_nrefs m - 1)) St E) as S0. set (h0 := set_obj _ _ _) in *.
  set (m0 := set_nrefs (u32 (m_nrefs m - 1)) m).
  assert (objs h0 !! a = Some m0) as E0 by (cbn [h0 set_obj objs]; apply lookup_insert_eq).
  pose proof (release_counted _ _ _ _ _ _ C0 E0) as C1. pose proof (stat_release _ _ _ S0 E0) as S1.
  set (h1 := mem_release a m0 h0) in *. pose proof (counted_meml _ _ _ C1 S1) as C2.
  assert (objs h1 = delete a (objs h)) as Eh by (cbn [h1 h0 mem_release set_obj objs]; apply delete_insert_eq).
  assert (objs h1 !! b = None) as Eb.
  { rewrite Eh. destruct Hb as [Hb| ->]; [|apply lookup_delete_eq]. apply lookup_delete_None. by right. }
  assert (length (refs h1 (meml h1) (m_owns m ++ drop_ref a R)) < length (refs h (meml h) R))%nat as Hlen.
  { apply Permutation_length in P0. cbn [length] in P0. unfold refs in P0 at 1. rewrite <- P in P0.
    assert (refs h1 (unlink a (meml h)) (m_owns m ++ drop_ref a R)
            = refs h0 (unlink a (meml h)) (m_owns m ++ drop_ref a R)) as Er.
    { apply refs_ext. intros c. unfold unlink. rewrite list_elem_of_filter. intros [Hc _]. unfold owns. cbn [h1 mem_release objs].
      by rewrite lookup_delete_ne. }
    change (meml h1) with (unlink a (meml h)). rewrite Er. unfold refs in *. lia. }
  pose proof (alloc_ok h1 (m_owns m ++ drop_ref a R) b (m_dh m) size d (conj C2 S1) Eb Hs ltac:(lia)) as Hf.
  pose proof (sound_fields _ _ b (Mem 1 size (m_dh m) d []) (m_owns m) d (b :: drop_ref a R) Hf
    (lookup_insert_eq _ _ _) Hdh ltac:(cbn [m_owns List.app]; symmetry; apply Permutation_middle)) as Hg.
  unfold set_obj in Hg. cbn [objs meml threshold bytes_cur blocks_cur m_nrefs m_size m_dh] in Hg.
  rewrite insert_insert_eq, Eh in Hg.
  rewrite H1. unfold rename. cbn [h1 h0 mem_release set_obj meml threshold bytes_cur blocks_cur m0 set_nrefs m_size] in Hg.
  destruct St as [SN SD SB SY SS SX]. pose proof (SS a m E) as Sa.
  assert (u64 (u64 (bytes_cur h - m_size m) + size) = u64 (bytes_cur h + (size - m_size m))) as Ey
    by (unfold u64; rewrite Zplus_mod_idemp_l; f_equal; lia).
  assert (u64 (u64 (blocks_cur h - 1) + 1) = blocks_cur h) as Ek.
  { unfold u64. rewrite Zplus_mod_idemp_l. rewrite Z.mod_small by (rewrite SB; lia). lia. }
  by rewrite Ey, Ek in Hg.
Qed.

Lemma mem_realloc_sound fuel h R a size ans :
  sound (h, R) -> zlen (refs h (meml h) R) + 1 < 2 ^ 32 -> resize_ok h R a size ans ->
  (length (refs h (meml h) R) < fuel)%nat ->
  exists p h', mem_realloc destructor fuel (Some a) size ans h = Some (p, h')
    /\ sound (h', match p with Some b => rename a b R | None => R end).
Proof.
  intros S Hx (Ha & Ho & Hs & Hf) F. destruct (sound_held h R a S (held_ref _ _ _ Ha)) as (m & E & Hp).
  unfold owns in Ho. rewrite E in Ho. unfold mem_realloc. destruct (Z.gtb_spec size MEM_SIZE_MAX) as [|Hm]; [by eexists _, _|].
  unfold MEM_SIZE_MAX in Hm. rewrite E. cbn [mbind option_bind].
  destruct (Z.gtb_spec (m_nrefs m) 1) as [Hn|Hn].
  - assert (m_owns m = []) as Ho' by (destruct Ho as [?|H1]; [done|specialize (H1 m eq_refl); lia]).
    clear Ho. rename Ho' into Ho.
    assert (fresh h ans) as Hf' by (destruct Hf as [?|[_ H1]]; [done|specialize (H1 m E); lia]).
    destruct (mem_alloc size (m_dh m) ans h) as [p h1] eqn:Ea.
    destruct (mem_alloc_sound h R size (m_dh m) ans p h1 S Hs Hf' Hx Ea) as [S1 H1]. destruct p as [b|]; [|by exists None, h1].
    destruct H1 as (d & Eo & Eb & _). rewrite Eo, lookup_insert_eq. cbn [mbind option_bind m_nrefs m_size m_dh m_data]. rewrite Ho.
    set (d' := take _ _ ++ _).
    pose proof (sound_fields h1 (b :: R) b (Mem 1 size (m_dh m) d []) [] d' (b :: R) S1 ltac:(by rewrite Eo, lookup_insert_eq) ltac:(done) ltac:(done)) as S2.
    cbn [m_nrefs m_size m_dh] in S2. set (h2 := set_obj _ _ _) in *.
    assert (length (refs h2 (meml h2) (b :: R)) <= fuel)%nat as F2.
    { assert (length (refs h2 (meml h2) (b :: R)) = Datatypes.S (length (refs h (meml h) R))) as ->; [|lia].
      assert (meml h2 = meml h ++ [b]) as Em.
      { cbn [h2 set_obj meml]. unfold mem_alloc in Ea. destruct (_ >? _); [done|]. destruct (over_threshold h); [done|].
        destruct ans as [[]|]; [|done]. by injection Ea as -> <-. }
      rewrite Em. unfold refs. cbn [List.app length]. f_equal. rewrite flat_map_app, !length_app. cbn [flat_map].
      assert (owns h2 b = []) as -> by (unfold owns; cbn [h2 set_obj objs]; by rewrite lookup_insert_eq).
      cbn [List.app length]. rewrite Nat.add_0_r. f_equal. f_equal.
      assert (forall c, c ∈ meml h -> owns h2 c = owns h c) as Hc.
      { intros c Hc. assert (b <> c) by (intros ->; destruct S as [_ S]; apply S in Hc as [? Hc]; cbn in Hc; congruence).
        unfold owns. cbn [h2 set_obj objs]. by rewrite lookup_insert_ne, Eo, lookup_insert_ne. }
      exact (refs_ext h h2 (meml h) [] Hc). }
    destruct (mem_deref_sound fuel h2 (b :: R) a S2 ltac:(by right) F2) as (h3 & E3 & S3 & _).
    rewrite E3. cbn [mbind option_bind]. exists (Some b), h3. split; [done|]. cbn [drop_ref] in S3.
    destruct (decide (b = a)) as [->|]; [congruence|]. exact S3.
  - destruct (_ && _ && _); [by eexists _, _|]. destruct ans as [[b d]|].
    + eexists _, _. split; [reflexivity|]. rewrite u32_small by lia. apply move_sound; try done; try lia.
      destruct Hf as [Hf|[[d' [= -> ->]] _]]; [by left|by right].
    + eexists _, _. split; [reflexivity|]. pose proof S as [C St]. cbn [fst snd] in *.
      assert (a ∈ meml h) as Hm' by (apply St; by eexists).
      assert (unlink a (meml h) ++ [a] ≡ₚ meml h) as P
        by (rewrite <- Permutation_cons_append; symmetry; by apply unlink_perm; [apply St|]).
      apply (sound_equiv h _ R R); cbn [objs meml bytes_cur blocks_cur]; try done.
      * unfold refs. f_equiv. rewrite (Permutation_flat_map _ P). done.
      * apply (ct_dh _ _ _ _ C).
Qed.

Lemma mem_step_sound op x :
  sound x -> op_ok op x -> exists x', mem_step destructor op x = Some x' /\ sound x'.
Proof.
  destruct x as [h R]. intros S [Hx Ho]. destruct op as [zero size dh ans|a|a|a b|a b|a size ans|p nmemb membsize dh ans|a dh|n]; cbn [mem_step].
  - destruct Ho as [Hs Hf]. destruct zero.
    + unfold mem_zalloc. destruct (mem_alloc size dh ans h) as [p h1] eqn:Ea.
      destruct (mem_alloc_sound h R size dh ans p h1 S Hs Hf Hx Ea) as [S1 H1]. destruct p as [b|]; [|by eexists].
      destruct H1 as (d & Eo & _). assert (objs h1 !! b = Some (Mem 1 size dh d [])) as Eb by (by rewrite Eo, lookup_insert_eq).
      rewrite Eb. eexists. split; [done|]. cbn [m_nrefs m_size m_dh m_owns].
      by apply (sound_fields h1 (b :: R) b (Mem 1 size dh d []) [] _ (b :: R)).
    + destruct (mem_alloc size dh ans h) as [p h1] eqn:Ea. eexists. split; [done|].
      by apply (mem_alloc_sound h R size dh ans p h1).
  - destruct (sound_held h R a S Ho) as (m & E & _). unfold mem_ref. rewrite E. cbn [mbind option_bind].
    eexists. split; [done|]. pose proof S as [C St]. cbn [fst snd] in *. split; cbn [fst snd]; [|by apply stat_set].
    apply ref_counted; try done; [by eapply ct_live|cbn [length set_obj meml]; lia].
  - destruct (mem_deref_sound (length (refs h (meml h) R)) h R a S Ho ltac:(lia)) as (h' & -> & S' & _). by eexists.
  - destruct Ho as (Ha & Hb & Hd). destruct (sound_held h R a S (held_ref _ _ _ Ha)) as (m & E & _). rewrite E. cbn [mbind option_bind].
    eexists. split; [done|]. apply (sound_fields h R a m (b :: m_owns m) (m_data m)); [done|done|by intros _; apply Hd|].
    rewrite (drop_ref_perm b R Hb) at 2. cbn [List.app]. apply Permutation_middle.
  - destruct Ho as (Ha & Hb). destruct (sound_held h R a S (held_ref _ _ _ Ha)) as (m & E & _). rewrite E. cbn [mbind option_bind].
    unfold owns in Hb. rewrite E in Hb. eexists. split; [done|].
    apply (sound_fields h R a m (drop_ref b (m_owns m)) (m_data m)); [done|done| |].
    + intros _. destruct S as [C _]. apply (ct_dh _ _ _ _ C a m E). intros Hn. rewrite Hn in Hb. by apply elem_of_nil in Hb.
    + rewrite (drop_ref_perm b (m_owns m) Hb) at 2. symmetry. apply Permutation_middle.
  - destruct (mem_realloc_sound (Datatypes.S (length (refs h (meml h) R))) h R a size ans S Hx Ho ltac:(lia)) as (p & h' & -> & S').
    by eexists.
  - assert (0 <= u64 (nmemb * membsize)) as Hs by (apply Z.mod_pos_bound; lia).
    unfold mem_reallocarray. destruct (_ && _); [by eexists; split; [|destruct p]|]. destruct p as [a|].
    + destruct (mem_realloc_sound (Datatypes.S (length (refs h (meml h) R))) h R a _ ans S Hx Ho ltac:(lia)) as (q & h' & -> & S').
      by eexists.
    + destruct (mem_alloc _ dh ans h) as [q h1] eqn:Ea. eexists. split; [done|].
      destruct (mem_alloc_sound h R _ dh ans q h1 S Hs Ho Hx Ea) as [S1 _]. by destruct q.
  - destruct Ho as [Ha Hd]. destruct (sound_held h R a S (held_ref _ _ _ Ha)) as (m & E & _). unfold mem_destructor. rewrite E.
    cbn [mbind option_bind]. eexists. split; [done|]. apply (sound_equiv h _ R R); cbn [set_obj meml bytes_cur blocks_cur]; try done.
    + intros b. cbn [set_obj objs]. destruct (decide (a = b)) as [<-|Hn]; [by rewrite lookup_insert_eq, E|by rewrite lookup_insert_ne].
    + unfold refs. f_equiv. apply Permutation_refl'. apply flat_map_ext. intros b. unfold owns. cbn [set_obj objs].
      destruct (decide (a = b)) as [<-|Hn]; [by rewrite lookup_insert_eq, E|by rewrite lookup_insert_ne].
    + intros b mb. cbn [set_obj objs]. destruct (decide (a = b)) as [<-|Hn].
      * rewrite lookup_insert_eq. intros [= <-]. cbn [m_owns m_dh]. unfold owns in Hd. by rewrite E in Hd.
      * rewrite lookup_insert_ne by done. apply (ct_dh _ _ _ _ (proj1 S)).
  - eexists. split; [done|]. by apply (sound_equiv h _ R R); [..|apply (proj1 S)|].
Qed.
End steps.

(** ** The theorems *)
Definition mem_init : memory := Memory ∅ [] (-1) 0 0.
Lemma init_sound : sound (mem_init, []).
Proof.
  split; split; cbn; try done; try (by apply NoDup_nil_2); try (intros a; split; [by intros [? ?]|by intros ?%elem_of_nil]).
  all: intros a; (by intros ? ?%elem_of_nil) || (by intros ?%elem_of_nil) || (split; [by intros ?%elem_of_nil|by intros [? ?]]).
Qed.

Lemma mem_run_sound destructor (HD : forall d a m, destructor d a m = map DDeref (m_owns m)) ops : forall x,
  sound x -> mem_ok destructor ops x -> exists x', mem_run destructor ops x = Some x' /\ sound x'.
Proof.
  induction ops as [|op ops IH]; intros x S Hok; [by eexists|]. destruct Hok as [Ho Hok].
  destruct (mem_step_sound destructor HD op x S Ho) as (x' & E & S'). cbn [mem_run]. rewrite E in *. cbn [mbind option_bind].
  by apply IH.
Qed.

(** C19. Reference counting is sound.  Whatever a program does that keeps to the
    rules of ownership ([op_ok]: it uses what it holds a reference to, and does
    not resize an object that both refers to others and is referred to by more
    than one: [mem_realloc] then duplicates its pointers, and
    [realloc_copies_ownership] shows the access to freed memory that follows),
    with destructors that release the fields of their object and whatever the
    allocator answers: no freed object is ever accessed and every call returns
    (recursion through destructors ends, on cyclic structures too); the counter
    of each object is exactly the number of references that the program and other
    objects hold to it, and is positive; nothing refers to a freed object; and the
    statistics are the number and total size of the objects in existence. *)
Theorem mem_safe (destructor : nat -> nat -> mem -> list dact) (ops : list mop) :
  (forall d a m, destructor d a m = map DDeref (m_owns m)) ->
  mem_ok destructor ops (mem_init, []) ->
  exists h R, mem_run destructor ops (mem_init, []) = Some (h, R) /\
    (forall a m, objs h !! a = Some m -> m_nrefs m = Z.of_nat (count (refs h (meml h) R) a) /\ 0 < m_nrefs m) /\
    (forall a, a ∈ refs h (meml h) R -> is_Some (objs h !! a)) /\
    mem_get_stat h = (total h, zlen (meml h)) /\ NoDup (meml h) /\
    (forall a, a ∈ meml h <-> is_Some (objs h !! a)).
Proof.
  intros HD Hok.
  destruct (mem_run_sound destructor HD ops (mem_init, []) init_sound Hok) as ([h R] & E & [C S]).
  cbn [fst snd] in *. exists h, R. split; [done|]. split_and!.
  - intros a m Em. apply (ct_refs _ _ _ _ C); [|done]. apply S. by eexists.
  - intros a Ha. apply S. by apply C.
  - unfold mem_get_stat. by rewrite (so_blocks _ S), (so_bytes _ S).
  - apply S.
  - apply S.
Qed.

Definition reachable (h : memory) (R : list nat) (b : nat) : Prop :=
  exists r, r ∈ R /\ rtc (fun x y => y ∈ owns h x) r b.

(** Giving back a reference frees exactly what cannot be reached any more: if
    the objects do not refer to each other in a cycle, then after [mem_deref] an
    object exists if and only if it can be reached from the references that the
    program still holds -- nothing leaks and nothing in use is freed -- and the
    objects that remain are unchanged but for their counters. *)
Theorem mem_collects (destructor : nat -> nat -> mem -> list dact) (h : memory) (R : list nat) (a : nat)
    (rank : nat -> nat) :
  (forall d b m, destructor d b m = map DDeref (m_owns m)) ->
  sound (h, R) -> (forall x y, y ∈ owns h x -> (rank y < rank x)%nat) -> a ∈ R ->
  exists h', mem_deref destructor (length (refs h (meml h) R)) (Some a) h = Some h' /\
    (forall b, is_Some (objs h' !! b) <-> reachable h (drop_ref a R) b) /\
    (forall b m', objs h' !! b = Some m' -> exists m, objs h !! b = Some m /\ same_obj m m').
Proof.
  intros HD S Hr Ha. destruct (mem_deref_sound destructor HD _ h R a S Ha (le_n _)) as (h' & E & [C S'] & [_ K]).
  exists h'. split; [done|]. split; [|exact K]. cbn [fst snd] in *. set (R' := drop_ref a R) in *.
  assert (forall b, b ∈ meml h' -> owns h' b = owns h b) as Ko.
  { intros b Hb. apply S' in Hb as [m' E']. destruct (K b m' E') as (m & Em & _ & _ & _ & Hm). unfold owns. by rewrite E', Em, Hm. }
  intros b. rewrite <- (so_dom _ S'). split.
  - (* a survivor is referred to by the program or by a survivor of higher rank *)
    set (top := foldr (fun x n => Nat.max (rank x) n) 0%nat (meml h')).
    assert (forall x, x ∈ meml h' -> (rank x <= top)%nat) as Ht.
    { unfold top. clear. induction (meml h') as [|y l IH]; intros x; [by intros ?%elem_of_nil|].
      intros [->|Hx]%elem_of_cons; cbn [foldr]; [lia|]. specialize (IH x Hx). lia. }
    remember (top - rank b)%nat as n eqn:En. revert b En. induction (lt_wf n) as [n _ IH]. intros b En Hb.
    pose proof Hb as Hb0. apply S' in Hb0 as [m' E']. destruct (ct_refs _ _ _ _ C b m' Hb E') as [Hc Hp].
    assert (b ∈ refs h' (meml h') R') as Hin by (apply count_pos; lia).
    apply elem_of_app in Hin as [Hin|Hin]; [exists b; split; [done|constructor]|].
    apply list_elem_of_In, in_flat_map in Hin as (c & Hc1%list_elem_of_In & Hc2%list_elem_of_In).
    rewrite Ko in Hc2 by done. pose proof (Hr c b Hc2) as Hlt. pose proof (Ht c Hc1).
    destruct (IH (top - rank c)%nat ltac:(lia) c eq_refl Hc1) as (r & Hr1 & Hr2). exists r. split; [done|].
    eapply rtc_r; [exact Hr2|exact Hc2].
  - intros (r & Hr1 & Hr2). assert (r ∈ meml h') as Hr' by (apply C; unfold refs; apply elem_of_app; by left).
    clear Hr1. induction Hr2 as [|x y z Hxy _ IH]; [done|]. apply IH. apply C. unfold refs. apply elem_of_app. right.
    apply list_elem_of_In, in_flat_map. exists x. rewrite Ko by done. by rewrite <- !list_elem_of_In.
Qed.

(** ** Examples *)
Definition release_fields (d a : nat) (m : mem) : list dact := map DDeref (m_owns m).

(** A connection (1) with a buffer (2) that is also used elsewhere, and a timer
    (3): the connection is released, the buffer stays. *)
Definition demo_mops : list mop :=
  [OAlloc true 64 (Some 7%nat) (Some (1%nat, [])); OAlloc true 16 None (Some (2%nat, [])); ORef 2;
   OAlloc false 8 None (Some (3%nat, [1; 2; 3; 4; 5; 6; 7; 8])); OStore 1 2; OStore 1 3].
Definition demo_mem : memory * list nat :=
  default (mem_init, []) (mem_run release_fields demo_mops (mem_init, [])).
Lemma demo_mem_ok : mem_ok release_fields demo_mops (mem_init, []).
Proof.
  vm_compute. repeat (split; try reflexivity; try discriminate); try (apply list_elem_of_In; cbn; tauto);
    intros m H; injection H as <-; discriminate.
Qed.
(** The connection also gets another destructor, is moved with its fields when
    it is resized, and an array is allocated, resized and released. *)
Definition demo_resized : list mop :=
  demo_mops ++ [ODestructor 1 (Some 8%nat); ORealloc 1 128 (Some (4%nat, []));
    OReallocArray None 4 8 None (Some (5%nat, [])); OReallocArray (Some 5%nat) 8 8 None (Some (5%nat, []));
    OReallocArray None (2 ^ 31) 4 None (Some (6%nat, [])); ODeref 5].
Lemma demo_resized_ok : mem_ok release_fields demo_resized (mem_init, []).
Proof.
  vm_compute. repeat (split; try reflexivity; try discriminate); try (apply list_elem_of_In; cbn; tauto);
    try (intros m H; injection H as <-; discriminate);
    first [right; intros m H; injection H as <-; reflexivity
          |left; reflexivity
          |right; split; [eexists; reflexivity|intros m H; injection H as <-; reflexivity]].
Qed.
Lemma mem_safe_witness :
  exists h R, mem_run release_fields demo_resized (mem_init, []) = Some (h, R) /\ mem_get_stat h = (152, 3)
    /\ R = [4; 2]%nat /\ owns h 4 = [3; 2]%nat.
Proof.
  destruct (mem_safe release_fields demo_resized (fun _ _ _ => eq_refl) demo_resized_ok) as (h & R & E & _ & _ & St & _).
  exists h, R. split; [exact E|]. rewrite St. vm_compute in E. injection E as <- <-. vm_compute. split; [|split]; reflexivity.
Defined.

Lemma demo_mem_sound : sound demo_mem.
Proof.
  unfold demo_mem.
  by destruct (mem_run_sound release_fields (fun _ _ _ => eq_refl) _ _ init_sound demo_mem_ok) as (x & -> & S).
Qed.
Definition demo_rank (x : nat) : nat := if decide (x = 1%nat) then 1%nat else 0%nat.
Lemma demo_mem_rank x y : y ∈ owns (fst demo_mem) x -> (demo_rank y < demo_rank x)%nat.
Proof.
  intros Hy. assert (x ∈ meml (fst demo_mem)) as Hx.
  { apply (so_dom _ (proj2 demo_mem_sound)). unfold owns in Hy. destruct (objs (fst demo_mem) !! x); [by eexists|by apply elem_of_nil in Hy]. }
  apply list_elem_of_In in Hx, Hy. vm_compute in Hx. destruct Hx as [<-|[<-|[<-|[]]]]; vm_compute in Hy; [|done..].
  destruct Hy as [<-|[<-|[]]]; vm_compute; constructor.
Qed.
Lemma mem_collects_witness :
  exists h', mem_deref release_fields 4 (Some 1%nat) (fst demo_mem) = Some h' /\
    (forall b, is_Some (objs h' !! b) <-> reachable (fst demo_mem) [2%nat] b).
Proof.
  destruct (mem_collects release_fields (fst demo_mem) (snd demo_mem) 1%nat demo_rank)
    as (h' & E & H & _).
  - reflexivity.
  - exact demo_mem_sound.
  - exact demo_mem_rank.
  - apply list_elem_of_In. vm_compute. tauto.
  - exists h'. split; [exact E|exact H].
Defined.

(** [mem_realloc] of an object that has other references copies it, and with it
    the pointers in its fields, without taking references: when both copies have
    been released, so has the field twice, and the second time it is gone. *)
Definition demo_copied : memory * list nat :=
  default (mem_init, []) (mem_run release_fields
    [OAlloc true 8 (Some 7%nat) (Some (1%nat, [])); ORef 1; OAlloc true 8 None (Some (2%nat, [])); OStore 1 2;
     ORealloc 1 16 (Some (3%nat, [])); ODeref 1] (mem_init, [])).
Lemma realloc_copies_ownership :
  snd demo_copied = [3%nat] /\ meml (fst demo_copied) = [3%nat] /\ owns (fst demo_copied) 3 = [2%nat]
  /\ mem_deref release_fields 10 (Some 3%nat) (fst demo_copied) = None.
Proof. vm_compute. repeat split. Qed.
