(* ===== verification/LibList.v ===== *)
(** * libre's linked lists ([src/re-4.6.0/src/list/list.c], [include/re_list.h])

    The doubly linked lists with which libre keeps its timers, transactions,
    connections and helpers, as the code has them: elements and list heads are
    cells of a memory, reached through pointers and changed one field at a time.
    An access through NULL or to a cell that does not exist makes the operation
    undefined ([None]).

    [rep h G] says that the memory [h] represents the lists [G], a finite map
    from the address of a list to the addresses of its elements.  The theorems
    show that every operation is defined under the contract its callers keep,
    that it computes the obvious function on [G], and that [list_sort] ends and
    sorts. *)
From S2P Require Import Prelude.
From stdpp Require Import gmap.
From Stdlib Require Import Sorted.
Local Open Scope Z_scope.

(** ** Memory *)

Abbreviation ptr := (option nat).

(** [struct le] *)
Record le := Le { le_prev : ptr; le_next : ptr; le_list : ptr; le_data : ptr }.

(** [struct list] *)
Record lst := Lst { l_head : ptr; l_tail : ptr; l_cnt : Z }.

Record heap := Heap { h_le : gmap nat le; h_list : gmap nat lst }.

(** Reads and writes through a pointer. *)
Definition rd_le (p : ptr) (h : heap) : option le := p ≫= fun a => h_le h !! a.
Definition rd_list (p : ptr) (h : heap) : option lst := p ≫= fun a => h_list h !! a.

Definition upd_le (p : ptr) (f : le -> le) (h : heap) : option heap :=
  a ← p; r ← h_le h !! a; Some (Heap (<[a := f r]> (h_le h)) (h_list h)).
Definition upd_list (p : ptr) (f : lst -> lst) (h : heap) : option heap :=
  a ← p; r ← h_list h !! a; Some (Heap (h_le h) (<[a := f r]> (h_list h))).

Definition set_prev v (r : le) := Le v (le_next r) (le_list r) (le_data r).
Definition set_next v (r : le) := Le (le_prev r) v (le_list r) (le_data r).
Definition set_list v (r : le) := Le (le_prev r) (le_next r) v (le_data r).
Definition set_data v (r : le) := Le (le_prev r) (le_next r) (le_list r) v.
Definition set_head v (r : lst) := Lst v (l_tail r) (l_cnt r).
Definition set_tail v (r : lst) := Lst (l_head r) v (l_cnt r).
Definition set_cnt f (r : lst) := Lst (l_head r) (l_tail r) (f (l_cnt r)).

Definition isnull (p : ptr) : bool := match p with None => true | Some _ => false end.
Definition ptr_eqb (p q : ptr) : bool := bool_decide (p = q).

(** ** Operations *)

Definition list_init (l : ptr) (h : heap) : option heap :=
  if isnull l then Some h
  else upd_list l (fun _ => Lst None None 0) h.

Definition list_append (l e data : ptr) (h : heap) : option heap :=
  if isnull l || isnull e then Some h
  else
    r ← rd_le e h;
    if negb (isnull (le_list r)) then Some h
    else
      t ← rd_list l h;
      h ← upd_le e (set_prev (l_tail t)) h;
      h ← upd_le e (set_next None) h;
      h ← upd_le e (set_list l) h;
      h ← upd_le e (set_data data) h;
      h ← (if isnull (l_head t) then upd_list l (set_head e) h else Some h);
      h ← (if isnull (l_tail t) then Some h else upd_le (l_tail t) (set_next e) h);
      h ← upd_list l (set_tail e) h;
      upd_list l (set_cnt (fun n => u64 (n + 1))) h.

Definition list_prepend (l e data : ptr) (h : heap) : option heap :=
  if isnull l || isnull e then Some h
  else
    r ← rd_le e h;
    if negb (isnull (le_list r)) then Some h
    else
      t ← rd_list l h;
      h ← upd_le e (set_prev None) h;
      h ← upd_le e (set_next (l_head t)) h;
      h ← upd_le e (set_list l) h;
      h ← upd_le e (set_data data) h;
      h ← (if isnull (l_head t) then Some h else upd_le (l_head t) (set_prev e) h);
      h ← (if isnull (l_tail t) then upd_list l (set_tail e) h else Some h);
      h ← upd_list l (set_head e) h;
      upd_list l (set_cnt (fun n => u64 (n + 1))) h.

Definition list_insert_before (l e ile data : ptr) (h : heap) : option heap :=
  if isnull l || isnull e || isnull ile then Some h
  else
    i ← rd_le ile h;
    if negb (isnull (le_list i)) then Some h
    else
      r ← rd_le e h;
      t ← rd_list l h;
      h ← (if negb (isnull (le_prev r)) then upd_le (le_prev r) (set_next ile) h
           else if ptr_eqb (l_head t) e then upd_list l (set_head ile) h
           else Some h);
      r ← rd_le e h;
      h ← upd_le ile (set_prev (le_prev r)) h;
      h ← upd_le ile (set_next e) h;
      h ← upd_le ile (set_list l) h;
      h ← upd_le ile (set_data data) h;
      h ← upd_le e (set_prev ile) h;
      upd_list l (set_cnt (fun n => u64 (n + 1))) h.

Definition list_insert_after (l e ile data : ptr) (h : heap) : option heap :=
  if isnull l || isnull e || isnull ile then Some h
  else
    i ← rd_le ile h;
    if negb (isnull (le_list i)) then Some h
    else
      r ← rd_le e h;
      t ← rd_list l h;
      h ← (if negb (isnull (le_next r)) then upd_le (le_next r) (set_prev ile) h
           else if ptr_eqb (l_tail t) e then upd_list l (set_tail ile) h
           else Some h);
      r ← rd_le e h;
      h ← upd_le ile (set_prev e) h;
      h ← upd_le ile (set_next (le_next r)) h;
      h ← upd_le ile (set_list l) h;
      h ← upd_le ile (set_data data) h;
      h ← upd_le e (set_next ile) h;
      upd_list l (set_cnt (fun n => u64 (n + 1))) h.

Definition list_unlink (e : ptr) (h : heap) : option heap :=
  if isnull e then Some h
  else
    r ← rd_le e h;
    if isnull (le_list r) then Some h
    else
      h ← (if negb (isnull (le_prev r)) then upd_le (le_prev r) (set_next (le_next r)) h
           else upd_list (le_list r) (set_head (le_next r)) h);
      h ← (if negb (isnull (le_next r)) then upd_le (le_next r) (set_prev (le_prev r)) h
           else upd_list (le_list r) (set_tail (le_prev r)) h);
      h ← upd_le e (set_next None) h;
      h ← upd_le e (set_prev None) h;
      h ← upd_le e (set_list None) h;
      upd_list (le_list r) (set_cnt (fun n => if n =? 0 then n else n - 1)) h.

(** Loops over a list take one round per element; the number of cells in the
    memory bounds the rounds.  Running out of it would be [None] as well, so the
    theorems that an operation is defined include that its loops end. *)
Definition fuel_of (h : heap) : nat := S (size (h_le h)).

(** A sort handler decides from the user data of the two elements. *)
Definition list_sort_h := ptr -> ptr -> bool.

Fixpoint insert_sorted_loop (fuel : nat) (l : ptr) (sh : list_sort_h) (e ile : ptr)
    (h : heap) : option heap :=
  match fuel with
  | O => None
  | S fuel =>
      i ← rd_le ile h;
      if isnull e then list_prepend l ile (le_data i) h
      else
        r ← rd_le e h;
        if sh (le_data r) (le_data i) then list_insert_after l e ile (le_data i) h
        else insert_sorted_loop fuel l sh (le_prev r) ile h
  end.

Definition list_insert_sorted (l : ptr) (sh : list_sort_h) (ile data : ptr) (h : heap)
    : option heap :=
  if isnull l then Some h
  else
    t ← rd_list l h;
    h ← upd_le ile (set_data data) h;
    insert_sorted_loop (fuel_of h) l sh (l_tail t) ile h.

Fixpoint clear_loop (fuel : nat) (e : ptr) (h : heap) : option heap :=
  match fuel with
  | O => None
  | S fuel =>
      if isnull e then Some h
      else
        r ← rd_le e h;
        h ← upd_le e (set_list None) h;
        h ← upd_le e (set_next None) h;
        h ← upd_le e (set_prev None) h;
        h ← upd_le e (set_data None) h;
        clear_loop fuel (le_next r) h
  end.

Definition list_clear (l : ptr) (h : heap) : option heap :=
  if isnull l then Some h
  else
    t ← rd_list l h;
    h ← clear_loop (fuel_of h) (l_head t) h;
    list_init l h.

(** [mem_deref(data)] runs the destructor of the object and frees it, which is
    an operation on the memory given by the caller. *)
Fixpoint flush_loop (fuel : nat) (deref : ptr -> heap -> option heap) (e : ptr)
    (h : heap) : option heap :=
  match fuel with
  | O => None
  | S fuel =>
      if isnull e then Some h
      else
        r ← rd_le e h;
        h ← list_unlink e h;
        h ← upd_le e (set_data None) h;
        h ← deref (le_data r) h;
        flush_loop fuel deref (le_next r) h
  end.

Definition list_flush (deref : ptr -> heap -> option heap) (l : ptr) (h : heap)
    : option heap :=
  if isnull l then Some h
  else
    t ← rd_list l h;
    h ← flush_loop (fuel_of h) deref (l_head t) h;
    list_init l h.

(** One traversal of [list_sort]: the flag says whether it moved an element. *)
Fixpoint sort_pass (fuel : nat) (l : ptr) (sh : list_sort_h) (e : ptr) (sort : bool)
    (h : heap) : option (bool * heap) :=
  match fuel with
  | O => None
  | S fuel =>
      if isnull e then Some (sort, h)
      else
        r ← rd_le e h;
        if isnull (le_next r) then Some (sort, h)
        else
          n ← rd_le (le_next r) h;
          if sh (le_data r) (le_data n) then sort_pass fuel l sh (le_next r) sort h
          else
            h ← list_unlink e h;
            h ← list_insert_after l (le_next r) e (le_data r) h;
            sort_pass fuel l sh e true h
  end.

Fixpoint sort_retry (fuel : nat) (l : ptr) (sh : list_sort_h) (h : heap) : option heap :=
  match fuel with
  | O => None
  | S fuel =>
      t ← rd_list l h;
      '(sort, h) ← sort_pass (fuel_of h) l sh (l_head t) false h;
      if (sort : bool) then sort_retry fuel l sh h else Some h
  end.

(** Every traversal but the last removes an inversion, of which there are
    fewer than the square of the length. *)
Definition list_sort (l : ptr) (sh : list_sort_h) (h : heap) : option heap :=
  if isnull l then Some h
  else sort_retry (S (size (h_le h) * size (h_le h))%nat) l sh h.

(** [list_apply] for a handler that changes nothing; the handler may itself
    fault. *)
Definition list_apply_h := ptr -> option bool.

Fixpoint apply_loop (fuel : nat) (fwd : bool) (ah : list_apply_h) (e : ptr) (h : heap)
    : option ptr :=
  match fuel with
  | O => None
  | S fuel =>
      if isnull e then Some None
      else
        r ← rd_le e h;
        b ← ah (le_data r);
        if (b : bool) then Some e
        else apply_loop fuel fwd ah (if fwd then le_next r else le_prev r) h
  end.

Definition list_apply (l : ptr) (fwd : bool) (ah : list_apply_h) (h : heap)
    : option ptr :=
  if isnull l then Some None
  else
    t ← rd_list l h;
    apply_loop (fuel_of h) fwd ah (if fwd then l_head t else l_tail t) h.

Definition list_head (l : ptr) (h : heap) : option ptr :=
  if isnull l then Some None else l_head <$> rd_list l h.
Definition list_tail (l : ptr) (h : heap) : option ptr :=
  if isnull l then Some None else l_tail <$> rd_list l h.
Definition list_count (l : ptr) (h : heap) : option Z :=
  if isnull l then Some 0 else (fun t => u32 (l_cnt t)) <$> rd_list l h.
Definition list_ledata (e : ptr) (h : heap) : option ptr :=
  if isnull e then Some None else le_data <$> rd_le e h.
Definition list_contains (l e : ptr) (h : heap) : option bool :=
  if isnull e then Some false else (fun r => ptr_eqb (le_list r) l) <$> rd_le e h.
Definition list_isempty (l : ptr) (h : heap) : option bool :=
  if isnull l then Some true else (fun t => isnull (l_head t)) <$> rd_list l h.
Definition list_move (e l : ptr) (h : heap) : option heap :=
  h ← list_unlink e h;
  d ← le_data <$> rd_le e h;
  list_append l e d h.

(** ** What a memory represents *)

(** [xs] are the elements of the list at [l], each linked to its neighbours. *)
Record is_list (h : heap) (l : nat) (xs : list nat) : Prop := {
  il_nodup : NoDup xs;
  il_list : h_list h !! l = Some (Lst (head xs) (last xs) (zlen xs));
  il_links a p b : xs = a ++ p :: b ->
    exists d, h_le h !! p = Some (Le (last a) (head b) (Some l) d) }.

(** All lists of the memory; an element that says it is in a list is in it.  The
    cells are in an address space of 64 bits. *)
Record rep (h : heap) (G : gmap nat (list nat)) : Prop := {
  rep_lists l xs : G !! l = Some xs -> is_list h l xs;
  rep_owner p r l : h_le h !! p = Some r -> le_list r = Some l ->
    exists xs, G !! l = Some xs /\ p ∈ xs;
  rep_size : Z.of_nat (size (h_le h)) < 18446744073709551616 }.

(** The user data of an element. *)
Definition data_of (h : heap) (p : nat) : ptr := h_le h !! p ≫= le_data.

(** An element that can be inserted: allocated and not linked. *)
Definition unlinked (h : heap) (e : nat) : Prop :=
  exists r, h_le h !! e = Some r /\ le_list r = None.

(** The effect of any of the four insertions of [e] between [a] and [b], and of
    removing it: the neighbours are relinked, every other cell is as before. *)
Definition relink (pa nx nxt prv : ptr) (q : nat) (r : le) : le :=
  Le (if decide (Some q = nx) then prv else le_prev r)
     (if decide (Some q = pa) then nxt else le_next r) (le_list r) (le_data r).

Record inserted (h : heap) (l : nat) (a : list nat) (e : nat) (b : list nat) (d : ptr)
    (h' : heap) : Prop := {
  ins_list : h_list h' =
    <[l := Lst (head (a ++ e :: b)) (last (a ++ e :: b)) (zlen (a ++ e :: b))]> (h_list h);
  ins_le q : h_le h' !! q =
    if decide (q = e) then Some (Le (last a) (head b) (Some l) d)
    else relink (last a) (head b) (Some e) (Some e) q <$> h_le h !! q }.

Record removed (h : heap) (l : nat) (a : list nat) (e : nat) (b : list nat) (h' : heap)
    : Prop := {
  rem_list : h_list h' =
    <[l := Lst (head (a ++ b)) (last (a ++ b)) (zlen (a ++ b))]> (h_list h);
  rem_le q : h_le h' !! q =
    if decide (q = e) then Le None None None <$> (le_data <$> h_le h !! e)
    else relink (last a) (head b) (head b) (last a) q <$> h_le h !! q }.

(** *** Lemmas on the ends of lists *)

Lemma last_elem (a : list nat) p : last a = Some p -> exists a', a = a' ++ [p].
Proof. apply last_Some. Qed.
Lemma head_elem (b : list nat) p : head b = Some p -> exists b', b = p :: b'.
Proof. destruct b; [done|]. intros [= ->]. eauto. Qed.

Lemma last_app_cons {A} (a : list A) x b : last (a ++ x :: b) = last (x :: b).
Proof. rewrite last_app, last_cons. by destruct (last b). Qed.

Lemma elem_mid {A} (a : list A) p b : p ∈ a ++ p :: b.
Proof. apply elem_of_app. right. left. Qed.
Lemma elem_insert {A} (a : list A) e b p : p ∈ a ++ b -> p ∈ a ++ e :: b.
Proof. rewrite !elem_of_app, elem_of_cons. tauto. Qed.
Lemma elem_remove {A} (a : list A) e b p : p <> e -> p ∈ a ++ e :: b -> p ∈ a ++ b.
Proof. rewrite !elem_of_app, elem_of_cons. tauto. Qed.

(** The neighbours of an element of [a ++ b] when [e] is put in between. *)
Lemma in_left_next (a1 b1 : list nat) p b e :
  NoDup ((a1 ++ p :: b1) ++ b) ->
  head (b1 ++ e :: b) =
  if decide (Some p = last (a1 ++ p :: b1)) then Some e else head (b1 ++ b).
Proof.
  intros N. rewrite last_app_cons, last_cons. destruct b1 as [|x b1].
  - simpl. by rewrite decide_True.
  - simpl. rewrite decide_False; [done|]. intros E.
    assert (p ∈ x :: b1) as Hp.
    { rewrite last_cons in E. destruct (last b1) eqn:L; injection E as ->; [|by left].
      apply last_Some_elem_of in L. by right. }
    rewrite <- app_assoc in N. apply NoDup_app in N as (_ & _ & N).
    simpl in N. inversion N; subst. set_solver.
Qed.

Lemma in_right_prev (a b1 b2 : list nat) p e :
  NoDup (a ++ b1 ++ p :: b2) ->
  last (a ++ e :: b1) =
  if decide (Some p = head (b1 ++ p :: b2)) then Some e else last (a ++ b1).
Proof.
  intros N. rewrite last_app_cons, last_cons, last_app. destruct b1 as [|x b1].
  - simpl. by rewrite decide_True.
  - simpl head. rewrite decide_False.
    + rewrite last_cons. by destruct (last b1).
    + intros [= ->]. apply NoDup_app in N as (_ & _ & N). simpl in N.
      inversion N; subst. set_solver.
Qed.

(** Where [p] is in [a ++ e :: b]. *)
Lemma split_cases (a b : list nat) e a' p b' :
  a ++ e :: b = a' ++ p :: b' ->
  (exists b1, a = a' ++ p :: b1 /\ b' = b1 ++ e :: b) \/
  (a' = a /\ p = e /\ b' = b) \/
  (exists a1, b = a1 ++ p :: b' /\ a' = a ++ e :: a1).
Proof.
  intros E. apply app_eq_inv in E as [(k & -> & E)|(k & -> & E)].
  - destruct k as [|x k]; injection E as -> ->; rewrite ?app_nil_r; eauto.
  - destruct k as [|x k]; injection E as -> ->; rewrite ?app_nil_r; eauto.
Qed.

Lemma not_head_of (a b : list nat) p : NoDup (a ++ b) -> p ∈ a -> Some p <> head b.
Proof.
  intros (_ & N & _)%NoDup_app Hp E. symmetry in E. apply head_elem in E as [? ->].
  apply (N p Hp). by left.
Qed.
Lemma not_last_of (a b : list nat) p : NoDup (a ++ b) -> p ∈ b -> Some p <> last a.
Proof.
  intros (_ & N & _)%NoDup_app Hp E. symmetry in E. apply last_Some_elem_of in E. by apply (N p).
Qed.

(** An element belongs to one list only. *)
Lemma rep_elem h G l xs p :
  rep h G -> G !! l = Some xs -> p ∈ xs ->
  exists r, h_le h !! p = Some r /\ le_list r = Some l.
Proof.
  intros R Hl Hp. apply list_elem_of_split in Hp as (a & b & ->).
  destruct (il_links _ _ _ (rep_lists _ _ R _ _ Hl) a p b eq_refl) as [d Hd]. eauto.
Qed.

Lemma rep_disjoint h G l l' xs ys p :
  rep h G -> G !! l = Some xs -> G !! l' = Some ys -> p ∈ xs -> p ∈ ys -> l = l'.
Proof.
  intros R H1 H2 P1 P2.
  destruct (rep_elem _ _ _ _ _ R H1 P1) as (r & E & L).
  destruct (rep_elem _ _ _ _ _ R H2 P2) as (r' & E' & L'). congruence.
Qed.

Lemma relink_other pa nx nxt prv q r :
  Some q <> pa -> Some q <> nx -> relink pa nx nxt prv q r = r.
Proof. intros. unfold relink. rewrite !decide_False by done. by destruct r. Qed.

(** A list none of whose elements is touched. *)
Lemma is_list_frame h h' l xs :
  h_list h' !! l = h_list h !! l -> (forall q, q ∈ xs -> h_le h' !! q = h_le h !! q) ->
  is_list h l xs -> is_list h' l xs.
Proof.
  intros E F [N L K]. split; [done|congruence|].
  intros a p b ->. rewrite F; [by apply K|set_solver].
Qed.

Lemma size_same (m m' : gmap nat le) :
  (forall q, is_Some (m' !! q) <-> is_Some (m !! q)) -> size m' = size m.
Proof.
  intros E. rewrite <- !size_dom. f_equal. apply set_eq. intros q.
  by rewrite !elem_of_dom.
Qed.

(** The lists that are not concerned by an insertion or a removal. *)
Lemma rep_others h G l xs e h' :
  rep h G -> G !! l = Some xs ->
  (forall q, q <> e -> q ∉ xs -> h_le h' !! q = h_le h !! q) ->
  (forall l', l' <> l -> h_list h' !! l' = h_list h !! l') ->
  (unlinked h e \/ e ∈ xs) ->
  forall l' ys, l' <> l -> G !! l' = Some ys -> is_list h' l' ys.
Proof.
  intros R Hl F FL He l' ys Hne Hys. apply (is_list_frame h); [by apply FL| |by apply R].
  intros q Hq. apply F.
  - intros ->. destruct (rep_elem _ _ _ _ _ R Hys Hq) as (r & E & L).
    destruct He as [(r' & E' & L')|He]; [congruence|].
    apply Hne. symmetry. by eapply rep_disjoint.
  - intros Hx. apply Hne. symmetry. by eapply rep_disjoint.
Qed.

Lemma relink_outside h (a b : list nat) x y q :
  q ∉ a ++ b -> relink (last a) (head b) x y q <$> h_le h !! q = h_le h !! q.
Proof.
  intros Hq. destruct (h_le h !! q) as [r|]; simpl; [|done]. f_equal. apply relink_other.
  - intros E. symmetry in E. apply last_Some_elem_of in E. set_solver.
  - intros E. symmetry in E. apply head_Some_elem_of in E. set_solver.
Qed.

Lemma is_list_inserted h l a e b d h' :
  is_list h l (a ++ b) -> e ∉ a ++ b -> inserted h l a e b d h' ->
  is_list h' l (a ++ e :: b).
Proof.
  intros [N _ K] Hn [EL EE]. split.
  - apply NoDup_app. apply NoDup_app in N as (N1 & N2 & N3).
    split_and!; [done| |constructor; [set_solver|done]]. set_solver.
  - by rewrite EL, lookup_insert_eq.
  - intros a' p b' E. rewrite EE.
    apply split_cases in E as [(b1 & -> & ->)|[(-> & -> & ->)|(a1 & -> & ->)]].
    + rewrite decide_False by set_solver.
      destruct (K a' p (b1 ++ b)) as [d' ->]; [by rewrite <- app_assoc|].
      exists d'. simpl. unfold relink. simpl.
      rewrite (decide_False (P := Some p = head b)) by (eapply not_head_of; [done|set_solver]).
      by rewrite (in_left_next a' b1 p b e).
    + rewrite decide_True by done. eauto.
    + rewrite decide_False by set_solver.
      destruct (K (a ++ a1) p b') as [d' ->]; [by rewrite <- app_assoc|].
      exists d'. simpl. unfold relink. simpl.
      rewrite (decide_False (P := Some p = last a)) by (eapply not_last_of; [done|set_solver]).
      by rewrite (in_right_prev a a1 b' p e).
Qed.

Lemma unlinked_not_in h G l xs e :
  rep h G -> G !! l = Some xs -> unlinked h e -> e ∉ xs.
Proof.
  intros R Hl (r' & E' & L') Hin.
  destruct (rep_elem _ _ _ _ _ R Hl Hin) as (r & E & L). congruence.
Qed.

(** Inserting [e] keeps the representation. *)
Lemma rep_inserted h G l a e b d h' :
  rep h G -> G !! l = Some (a ++ b) -> unlinked h e -> inserted h l a e b d h' ->
  rep h' (<[l := a ++ e :: b]> G).
Proof.
  intros R Hl He I. pose proof I as [EL EE].
  pose proof (unlinked_not_in _ _ _ _ _ R Hl He) as Hn. split.
  - intros l' ys. rewrite lookup_insert. destruct (decide (l = l')) as [<-|Hne].
    + intros [= <-]. eapply is_list_inserted; eauto. by apply R.
    + eapply rep_others; eauto.
      * intros q ? Hq. rewrite EE, decide_False by done. by apply relink_outside.
      * intros l'' ?. by rewrite EL, lookup_insert_ne.
  - intros p r l' Hp Hr. rewrite EE in Hp. destruct (decide (p = e)) as [->|Hne].
    + injection Hp as <-. injection Hr as <-. rewrite lookup_insert_eq.
      eexists. split; [done|]. set_solver.
    + apply fmap_Some in Hp as (r0 & Hp & ->).
      destruct (rep_owner _ _ R p r0 l' Hp Hr) as (xs & Hx & Hin).
      rewrite lookup_insert. destruct (decide (l = l')) as [<-|]; [|eauto].
      rewrite Hl in Hx. injection Hx as <-. eexists. split; [done|]. by apply elem_insert.
  - erewrite size_same; [by apply R|]. intros q. rewrite EE. case_decide.
    + subst. destruct He as (r & -> & _). split; eauto.
    + by rewrite fmap_is_Some.
Qed.

Lemma is_list_removed h l a e b h' :
  is_list h l (a ++ e :: b) -> removed h l a e b h' -> is_list h' l (a ++ b).
Proof.
  intros [N _ K] [EL EE]. pose proof N as N'.
  rewrite <- Permutation_middle in N'. apply NoDup_cons in N' as [Hn N']. split; [done| |].
  - by rewrite EL, lookup_insert_eq.
  - intros a' p b' E. rewrite EE.
    assert (p <> e) as Hpe by (intros ->; apply Hn; rewrite E; apply elem_mid).
    rewrite decide_False by done.
    apply app_eq_inv in E as [(k & -> & E)|(k & -> & E)].
    + destruct k as [|x k]; [simpl in E; subst b|injection E as <- ->].
      * rewrite app_nil_r in *. destruct (K (a' ++ [e]) p b') as [d' ->]; [by rewrite <- app_assoc|].
        exists d'. simpl. unfold relink. simpl. rewrite decide_True by done.
        rewrite (decide_False (P := Some p = last a')); [done|].
        eapply not_last_of; [done|set_solver].
      * destruct (K a' p (k ++ e :: b)) as [d' ->]; [by rewrite <- app_assoc|].
        exists d'. simpl. unfold relink. simpl.
        rewrite (decide_False (P := Some p = head b)) by (eapply not_head_of; [done|set_solver]).
        rewrite (in_left_next a' k p b e) by done.
        destruct (decide (Some p = _)) as [Hd|]; [|done].
        rewrite last_app_cons, last_cons in Hd. destruct (last k) eqn:Hk.
        -- exfalso. injection Hd as <-. apply last_Some_elem_of in Hk.
           apply NoDup_app in N' as (N' & _). apply NoDup_app in N' as (_ & _ & N').
           apply NoDup_cons in N' as [N' _]. done.
        -- apply last_None in Hk as ->. done.
    + destruct (K (a ++ e :: k) p b') as [d' ->]; [rewrite E, <- app_assoc; done|].
      exists d'. simpl. unfold relink. simpl.
      rewrite (decide_False (P := Some p = last a)) by (eapply not_last_of; [done|set_solver]).
      subst b. rewrite (in_right_prev a k b' p e) by done.
      destruct (decide (Some p = _)) as [Hd|]; [|done].
      destruct k as [|x k]; simpl in Hd; [by rewrite app_nil_r|].
      exfalso. injection Hd as ->. apply NoDup_app in N' as (_ & _ & N').
      apply NoDup_cons in N' as [N' _]. set_solver.
Qed.

(** Removing [e] keeps the representation, and [e] can be inserted again. *)
Lemma rep_removed h G l a e b h' :
  rep h G -> G !! l = Some (a ++ e :: b) -> removed h l a e b h' ->
  rep h' (<[l := a ++ b]> G) /\ unlinked h' e /\ data_of h' e = data_of h e.
Proof.
  intros R Hl I. pose proof I as [EL EE].
  destruct (rep_elem _ _ _ _ e R Hl) as (r & Hr & Lr); [set_solver|]. split; [split|].
  - intros l' ys. rewrite lookup_insert. destruct (decide (l = l')) as [<-|Hne].
    + intros [= <-]. eapply is_list_removed; eauto. by apply R.
    + eapply (rep_others _ _ _ _ e); eauto; [| |right; set_solver].
      * intros q ? Hq. rewrite EE, decide_False by done. apply relink_outside. set_solver.
      * intros l'' ?. by rewrite EL, lookup_insert_ne.
  - intros p r' l' Hp Hr'. rewrite EE in Hp. destruct (decide (p = e)) as [->|Hne].
    + rewrite Hr in Hp. injection Hp as <-. done.
    + apply fmap_Some in Hp as (r0 & Hp & ->).
      destruct (rep_owner _ _ R p r0 l' Hp Hr') as (xs & Hx & Hin).
      rewrite lookup_insert. destruct (decide (l = l')) as [<-|]; [|eauto].
      rewrite Hl in Hx. injection Hx as <-. eexists. split; [done|]. by eapply elem_remove.
  - erewrite size_same; [by apply R|]. intros q. rewrite EE. case_decide.
    + subst. rewrite Hr. split; eauto.
    + by rewrite fmap_is_Some.
  - unfold unlinked, data_of. rewrite EE, decide_True, Hr by done. split; [|done]. by eexists.
Qed.

(** ** Every operation computes what it should *)

Lemma rep_length h G l xs :
  rep h G -> G !! l = Some xs -> (length xs <= size (h_le h))%nat.
Proof.
  intros R Hl. rewrite <- size_dom, <- (size_list_to_set (C := gset nat) xs) by (by apply (rep_lists _ _ R l)).
  apply subseteq_size. intros q Hq. apply elem_of_list_to_set in Hq.
  apply elem_of_dom. destruct (rep_elem _ _ _ _ _ R Hl Hq) as (r & ? & _). by eexists.
Qed.

(** The counter has room for an element that is not linked yet. *)
Lemma rep_room h G l a b e :
  rep h G -> G !! l = Some (a ++ b) -> unlinked h e ->
  u64 (zlen (a ++ b) + 1) = zlen (a ++ e :: b).
Proof.
  intros R Hl He. pose proof (rep_size _ _ R).
  assert (S (length (a ++ b)) <= size (h_le h))%nat as Hle.
  { pose proof (unlinked_not_in _ _ _ _ _ R Hl He) as Hn.
    assert (NoDup (e :: a ++ b)) as N by (constructor; [done|by apply (rep_lists _ _ R l)]).
    rewrite <- size_dom. change (S (length (a ++ b))) with (length (e :: a ++ b)).
    rewrite <- (size_list_to_set (C := gset nat)) by done. apply subseteq_size.
    intros q Hq. apply elem_of_list_to_set, elem_of_cons in Hq as [->|Hq]; apply elem_of_dom.
    - destruct He as (r & ? & _). by eexists.
    - destruct (rep_elem _ _ _ _ _ R Hl Hq) as (r & ? & _). by eexists. }
  unfold u64. rewrite Z.mod_small by len_lia. len_lia.
Qed.

(** Evaluation of reads and writes in a memory that has been written to. *)
Ltac heap_simpl :=
  unfold set_prev, set_next, set_list, set_data, set_head, set_tail, set_cnt;
  repeat (first
    [ progress cbn [isnull negb orb andb upd_le upd_list rd_le rd_list mbind option_bind
        h_le h_list le_prev le_next le_list le_data l_head l_tail l_cnt]
    | rewrite lookup_insert_eq | rewrite insert_insert_eq
    | rewrite lookup_insert_ne by congruence
    | match goal with H : ?m !! ?k = Some _ |- context [?m !! ?k] => rewrite H end ]).

(** The cell at [q] after the writes, compared with [inserted] or [removed]. *)
Ltac heap_cells :=
  let q := fresh "q" in intros q; rewrite ?lookup_insert; unfold relink;
  repeat (case_decide; simplify_eq/=; try done);
  repeat match goal with H : ?m !! ?k = Some _ |- _ => rewrite H end; simpl;
  repeat (rewrite decide_True by done || rewrite decide_False by congruence); try done;
  try match goal with |- _ = _ <$> ?m !! ?q => by destruct (m !! q) as [[]|] end.

Lemma list_append_inserted h G l xs e d :
  rep h G -> G !! l = Some xs -> unlinked h e ->
  exists h', list_append (Some l) (Some e) d h = Some h' /\ inserted h l xs e [] d h'.
Proof.
  intros R Hl He. pose proof (unlinked_not_in _ _ _ _ _ R Hl He) as Hn.
  pose proof He as (r & Hr & Lr). pose proof (rep_lists _ _ R _ _ Hl) as [N L K].
  pose proof (rep_room _ _ l xs [] e R) as Hc. rewrite app_nil_r in Hc. specialize (Hc Hl He).
  unfold list_append. heap_simpl. rewrite Lr. 
  destruct (last xs) as [t|] eqn:Ht.
  - apply last_elem in Ht as [a' ->]. destruct (K a' t []) as [d' Ht]; [done|].
    assert (head (a' ++ [t]) = Some (hd t a')) as Hh by (by destruct a').
    assert (t <> e) by (intros ->; set_solver).
    rewrite Hh in *. heap_simpl. eexists; split; [done|]. split; cbn [h_le h_list app head].
    + rewrite Hc, last_snoc. by destruct a'.
    + rewrite last_snoc. heap_cells.
  - apply last_None in Ht as ->. cbn [head last] in *. heap_simpl. eexists; split; [done|]. split; simpl; [done|].
    heap_cells.
Qed.

Lemma list_prepend_inserted h G l xs e d :
  rep h G -> G !! l = Some xs -> unlinked h e ->
  exists h', list_prepend (Some l) (Some e) d h = Some h' /\ inserted h l [] e xs d h'.
Proof.
  intros R Hl He. pose proof (unlinked_not_in _ _ _ _ _ R Hl He) as Hn.
  pose proof He as (r & Hr & Lr). pose proof (rep_lists _ _ R _ _ Hl) as [N L K].
  pose proof (rep_room _ _ l [] xs e R Hl He) as Hc.
  unfold list_prepend. heap_simpl. rewrite Lr. destruct xs as [|t b].
  - cbn [head last] in *. heap_simpl. eexists; split; [done|]. split; simpl; [done|]. heap_cells.
  - destruct (K [] t b) as [d' Ht]; [done|].
    assert (t <> e) by (intros ->; set_solver).
    rewrite last_cons in *.
    assert (exists z, match last b with Some y => Some y | None => Some t end = Some z) as [z Hz]
      by (destruct (last b); eauto).
    rewrite Hz in *. cbn [head] in *. heap_simpl. eexists; split; [done|]. split; cbn [h_le h_list app head].
    + cbn [app] in Hc. rewrite Hc, last_cons, last_cons, Hz. done.
    + heap_cells.
Qed.

Lemma list_insert_after_inserted h G l a p b e d :
  rep h G -> G !! l = Some (a ++ p :: b) -> unlinked h e ->
  exists h', list_insert_after (Some l) (Some p) (Some e) d h = Some h'
             /\ inserted h l (a ++ [p]) e b d h'.
Proof.
  intros R Hl He. pose proof (unlinked_not_in _ _ _ _ _ R Hl He) as Hn.
  pose proof He as (r & Hr & Lr). pose proof (rep_lists _ _ R _ _ Hl) as [N L K].
  pose proof (rep_room _ _ l (a ++ [p]) b e R) as Hc. rewrite <- app_assoc in Hc.
  specialize (Hc Hl He). destruct (K a p b) as [d' Hp]; [done|].
  assert (p <> e) by (intros ->; apply Hn, elem_mid).
  unfold list_insert_after. heap_simpl. rewrite Lr. destruct b as [|t b].
  - cbn [head] in *. rewrite last_snoc in *. heap_simpl. unfold ptr_eqb.
    rewrite bool_decide_true by done. heap_simpl. eexists; split; [done|]. split; cbn [h_le h_list app head].
    + cbn [app] in Hc. rewrite Hc, last_snoc. by destruct a.
    + rewrite last_snoc. heap_cells.
  - destruct (K (a ++ [p]) t b) as [d2 Ht]; [by rewrite <- app_assoc|].
    assert (t <> e) by (intros ->; set_solver).
    assert (p <> t). { intros ->. rewrite NoDup_app, !NoDup_cons in N. set_solver. }
    cbn [head] in *. heap_simpl. eexists; split; [done|]. split; cbn [h_le h_list app head].
    + cbn [app] in Hc. rewrite Hc, !last_app_cons, !last_cons. f_equal. f_equal.
      * by destruct a. 
      * by destruct (last b).
    + rewrite last_snoc. heap_cells. 
Qed.

Lemma nodup_adjacent (a : list nat) p q b : NoDup (a ++ p :: q :: b) -> p <> q.
Proof. intros (_ & _ & N)%NoDup_app ->. apply NoDup_cons in N as [N _]. set_solver. Qed.

Lemma list_insert_before_inserted h G l a p b e d :
  rep h G -> G !! l = Some (a ++ p :: b) -> unlinked h e ->
  exists h', list_insert_before (Some l) (Some p) (Some e) d h = Some h'
             /\ inserted h l a e (p :: b) d h'.
Proof.
  intros R Hl He. pose proof (unlinked_not_in _ _ _ _ _ R Hl He) as Hn.
  pose proof He as (r & Hr & Lr). pose proof (rep_lists _ _ R _ _ Hl) as [N L K].
  pose proof (rep_room _ _ l a (p :: b) e R Hl He) as Hc.
  destruct (K a p b) as [d' Hp]; [done|].
  assert (p <> e) by (intros ->; apply Hn, elem_mid).
  unfold list_insert_before. heap_simpl. rewrite Lr. destruct (last a) as [t|] eqn:Ht.
  - apply last_elem in Ht as [a' ->]. rewrite <- app_assoc in *. cbn [app] in *.
    destruct (K a' t (p :: b)) as [d2 Ht]; [done|].
    assert (t <> e) by (intros ->; apply Hn, elem_mid).
    assert (t <> p) by (by eapply nodup_adjacent).
    heap_simpl. eexists; split; [done|]. split; cbn [h_le h_list].
    + rewrite Hc, <- app_assoc. cbn [app]. rewrite !last_app_cons, !last_cons.
      by destruct a', (last b).
    + rewrite last_snoc. heap_cells.
  - apply last_None in Ht as ->. cbn [app head last] in *. heap_simpl. unfold ptr_eqb.
    rewrite bool_decide_true by done. heap_simpl. eexists; split; [done|].
    split; cbn [h_le h_list app head].
    + rewrite Hc, !last_cons. by destruct (last b).
    + heap_cells.
Qed.

Lemma list_unlink_removed h G l a e b :
  rep h G -> G !! l = Some (a ++ e :: b) ->
  exists h', list_unlink (Some e) h = Some h' /\ removed h l a e b h'.
Proof.
  intros R Hl. pose proof (rep_lists _ _ R _ _ Hl) as [N L K].
  destruct (K a e b) as [d' He]; [done|].
  assert ((if zlen (a ++ e :: b) =? 0 then zlen (a ++ e :: b) else zlen (a ++ e :: b) - 1)
          = zlen (a ++ b)) as Hc.
  { destruct (Z.eqb_spec (zlen (a ++ e :: b)) 0); len_lia. }
  unfold list_unlink. heap_simpl. rewrite (last_app_cons a), last_cons in L.
  destruct (last a) as [t|] eqn:Ht.
  - apply last_elem in Ht as [a' ->]. rewrite <- app_assoc in *. cbn [app] in *.
    destruct (K a' t (e :: b)) as [d2 Ht]; [done|].
    assert (t <> e) by (by eapply nodup_adjacent). destruct b as [|n b]; cbn [head last] in *.
    + heap_simpl. eexists; split; [done|]. split; cbn [h_le h_list].
      * rewrite Hc, app_nil_r, last_snoc. by destruct a'.
      * rewrite last_snoc. heap_cells.
    + destruct (K (a' ++ [t; e]) n b) as [d3 Hn]; [by rewrite <- app_assoc|].
      assert (e <> n /\ t <> n) as [? ?].
      { rewrite NoDup_app, !NoDup_cons in N. set_solver. }
      heap_simpl. eexists; split; [done|]. split; cbn [h_le h_list].
      * rewrite Hc, last_app_cons, last_cons, <- app_assoc. by destruct a', (last b).
      * rewrite last_snoc. heap_cells.
  - apply last_None in Ht as ->. cbn [app head last] in *. destruct b as [|n b]; cbn [head last] in *.
    + heap_simpl. eexists; split; [done|]. split; cbn [h_le h_list]; [by rewrite Hc|].
      heap_cells.
    + destruct (K [e] n b) as [d3 Hn]; [done|].
      assert (e <> n) by (by eapply (nodup_adjacent [])).
      heap_simpl. eexists; split; [done|]. split; cbn [h_le h_list app head].
      * rewrite Hc, last_cons. by destruct (last b).
      * heap_cells.
Qed.

(** *** User data *)

Lemma inserted_data h l a e b d h' :
  inserted h l a e b d h' -> le_data <$> h_le h' = <[e := d]> (le_data <$> h_le h).
Proof.
  intros [_ EE]. apply map_eq. intros q. rewrite lookup_fmap, EE, lookup_insert.
  destruct (decide (q = e)) as [->|]; [by rewrite decide_True|].
  rewrite decide_False by done. rewrite lookup_fmap. by destruct (h_le h !! q).
Qed.

Lemma removed_data h l a e b h' :
  removed h l a e b h' -> le_data <$> h_le h' = le_data <$> h_le h.
Proof.
  intros [_ EE]. apply map_eq. intros q. rewrite !lookup_fmap, EE.
  case_decide; [subst; by destruct (h_le h !! e)|by destruct (h_le h !! q)].
Qed.

(** *** Traversals *)

(** [tr] links the elements of [ys] in the order in which a loop visits them. *)
Fixpoint chain (h : heap) (tr : le -> ptr) (e : ptr) (ys : list nat) : Prop :=
  match ys with
  | [] => e = None
  | p :: ys => e = Some p /\ exists r, h_le h !! p = Some r /\ chain h tr (tr r) ys
  end.

Lemma chain_fwd h l xs : is_list h l xs -> chain h le_next (head xs) xs.
Proof.
  intros [_ _ K]. assert (forall a b, xs = a ++ b -> chain h le_next (head b) b) as G;
    [|by apply (G [])].
  intros a b. revert a. induction b as [|p b IH]; intros a E; simpl; [done|]. split; [done|].
  destruct (K a p b E) as [d Hd]. eexists. split; [done|]. simpl. apply (IH (a ++ [p])).
  by rewrite E, <- app_assoc.
Qed.

Lemma chain_bwd h l xs : is_list h l xs -> chain h le_prev (last xs) (reverse xs).
Proof.
  intros [_ _ K]. assert (forall a b, xs = a ++ b -> chain h le_prev (last a) (reverse a)) as G;
    [|apply (G xs []); by rewrite app_nil_r].
  intros a. induction a as [|p a IH] using rev_ind; intros b E; simpl; [done|].
  rewrite reverse_snoc, last_snoc. split; [done|]. rewrite <- app_assoc in E.
  destruct (K a p b E) as [d Hd]. eexists. split; [done|]. simpl. by apply (IH (p :: b)).
Qed.

(** A loop over a chain visits the elements until the handler says stop. *)
Lemma apply_loop_find h ah f (fwd : bool) ys e fuel :
  chain h (if fwd then le_next else le_prev) e ys -> (length ys < fuel)%nat ->
  (forall q, q ∈ ys -> ah (data_of h q) = Some (f q)) ->
  apply_loop fuel fwd ah e h = Some (List.find f ys).
Proof.
  revert ys e. induction fuel as [|fuel IH]; intros ys e C F A; [lia|].
  destruct ys as [|p ys]; simpl in C; [by rewrite C|].
  destruct C as (-> & r & Hr & C). simpl. rewrite Hr. simpl.
  assert (ah (data_of h p) = Some (f p)) as Ap by (apply A; left). unfold data_of in Ap. rewrite Hr in Ap.
  simpl in Ap. rewrite Ap. simpl. destruct (f p); [done|].
  assert ((if fwd then le_next r else le_prev r) = (if fwd then le_next else le_prev) r) as ->
    by (by destruct fwd).
  apply IH; [done|simpl in F; lia|]. intros q Hq. apply A. by right.
Qed.

Lemma list_apply_find h G l xs ah f (fwd : bool) :
  rep h G -> G !! l = Some xs ->
  (forall q, q ∈ xs -> ah (data_of h q) = Some (f q)) ->
  list_apply (Some l) fwd ah h = Some (List.find f (if fwd then xs else reverse xs)).
Proof.
  intros R Hl A. pose proof (rep_lists _ _ R _ _ Hl) as I. unfold list_apply. cbn [isnull rd_list mbind option_bind].
  rewrite (il_list _ _ _ I). cbn [l_head l_tail]. pose proof (rep_length _ _ _ _ R Hl).
  apply apply_loop_find; [| |].
  - destruct fwd; [by apply chain_fwd with l|by apply chain_bwd with l].
  - unfold fuel_of. destruct fwd; [lia|]. rewrite length_reverse. lia.
  - intros q Hq. apply A. destruct fwd; [done|]. by apply elem_of_reverse.
Qed.

Lemma find_split {A} (f : A -> bool) xs :
  match List.find f xs with
  | Some p => exists a b, xs = a ++ p :: b /\ f p = true /\ Forall (fun q => f q = false) a
  | None => Forall (fun q => f q = false) xs
  end.
Proof.
  induction xs as [|x xs IH]; simpl; [constructor|]. destruct (f x) eqn:E.
  - exists [], xs. split_and!; [done|done|constructor].
  - destruct (List.find f xs) as [p|].
    + destruct IH as (a & b & -> & Hp & Ha). exists (x :: a), b.
      split_and!; [done|done|by constructor].
    + by constructor.
Qed.

Lemma find_reverse_split {A} (f : A -> bool) xs :
  match List.find f (reverse xs) with
  | Some p => exists a b, xs = a ++ p :: b /\ f p = true /\ Forall (fun q => f q = false) b
  | None => Forall (fun q => f q = false) xs
  end.
Proof.
  pose proof (find_split f (reverse xs)) as H. destruct (List.find f (reverse xs)) as [p|].
  - destruct H as (a & b & E & Hp & Ha). exists (reverse b), (reverse a).
    split_and!; [|done|by apply Forall_reverse].
    rewrite <- (reverse_involutive xs), E, reverse_app, reverse_cons.
    by rewrite <- app_assoc.
  - by rewrite <- (reverse_involutive xs), Forall_reverse.
Qed.

Lemma insert_sorted_loop_find h l sh i d ys e fuel :
  chain h le_prev e ys -> (length ys < fuel)%nat -> is_Some (h_le h !! i) ->
  data_of h i = d ->
  insert_sorted_loop fuel l sh e (Some i) h =
  match List.find (fun q => sh (data_of h q) d) ys with
  | Some p => list_insert_after l (Some p) (Some i) d h
  | None => list_prepend l (Some i) d h
  end.
Proof.
  intros C F [ri Hi] <-. revert ys e C F.
  induction fuel as [|fuel IH]; intros ys e C F; [lia|].
  unfold insert_sorted_loop; fold insert_sorted_loop. cbn [rd_le mbind option_bind].
  unfold data_of at 2 3 4. rewrite Hi. cbn [mbind option_bind].
  destruct ys as [|p ys]; simpl in C; [by rewrite C|].
  destruct C as (-> & r & Hr & C). cbn [isnull rd_le mbind option_bind List.find].
  unfold data_of at 1. rewrite Hr. cbn [mbind option_bind].
  destruct (sh (le_data r) (le_data ri)); [done|].
  rewrite (IH ys) by (done || simpl in F; lia). unfold data_of at 2 3 4. by rewrite Hi.
Qed.

(** Writing the data of an element changes no list. *)
Lemma set_data_rep h G e d :
  rep h G -> is_Some (h_le h !! e) ->
  exists h', upd_le (Some e) (set_data d) h = Some h' /\ rep h' G /\
    le_data <$> h_le h' = <[e := d]> (le_data <$> h_le h) /\
    (unlinked h e -> unlinked h' e).
Proof.
  intros R [r Hr]. cbn [upd_le mbind option_bind]. rewrite Hr. eexists. split; [done|].
  split_and!; cbn [h_le h_list].
  - split; cbn [h_le h_list].
    + intros l xs Hl. destruct (rep_lists _ _ R _ _ Hl) as [N L K]. split; [done|done|].
      intros a p b E. destruct (K a p b E) as [d' Hd]. cbn [h_le].
      rewrite lookup_insert. case_decide; [subst|by eauto].
      rewrite Hr in Hd. injection Hd as ->. by eexists.
    + intros p r' l Hp. apply lookup_insert_Some in Hp as [[<- <-]|[_ Hp]]; intros L.
      * by apply (rep_owner _ _ R e r).
      * by apply (rep_owner _ _ R p r').
    + rewrite (size_same (h_le h)); [apply R|]. intros q. rewrite lookup_insert.
      case_decide; [subst; rewrite Hr; split; eauto|done].
  - by rewrite fmap_insert.
  - intros (r' & E & L). exists (set_data d r). cbn [h_le]. rewrite lookup_insert_eq. split; [done|].
    rewrite E in Hr. by injection Hr as <-.
Qed.

(** *** [list_clear] *)

Lemma clear_loop_spec ys : forall h e fuel,
  chain h le_next e ys -> (length ys < fuel)%nat -> NoDup ys ->
  exists h', clear_loop fuel e h = Some h' /\ h_list h' = h_list h /\
    forall q, h_le h' !! q = if decide (q ∈ ys) then Some (Le None None None None)
                             else h_le h !! q.
Proof.
  induction ys as [|p ys IH]; intros h e [|fuel] C F N; cbn [length] in F; try lia.
  - simpl in C. subst e. exists h. split_and!; [done|done|].
    intros q. by rewrite decide_False by (by apply not_elem_of_nil).
  - destruct C as (-> & r & Hr & C). apply NoDup_cons in N as [Hp N].
    unfold clear_loop; fold clear_loop. heap_simpl.
    destruct (IH (Heap (<[p := Le None None None None]> (h_le h)) (h_list h)) (le_next r) fuel)
      as (h' & E & EL & EE); [|lia|done|].
    2: { exists h'. split_and!; [exact E|done|]. intros q. rewrite EE. cbn [h_le].
         rewrite lookup_insert. repeat case_decide; set_solver. }
    clear IH F. assert (forall e, chain h le_next e ys ->
      chain (Heap (<[p := Le None None None None]> (h_le h)) (h_list h)) le_next e ys) as X; [|by apply X].
    clear C N. induction ys as [|y ys IH]; intros e C; [done|].
    destruct C as (-> & r' & Hr' & C). split; [done|]. exists r'. cbn [h_le].
    apply not_elem_of_cons in Hp as [Hp Hp'].
    rewrite lookup_insert_ne by done. split; [done|]. by apply IH.
Qed.

Lemma list_clear_rep h G l xs :
  rep h G -> G !! l = Some xs ->
  exists h', list_clear (Some l) h = Some h' /\ rep h' (<[l := []]> G) /\
    forall q, le_data <$> h_le h' !! q =
              if decide (q ∈ xs) then Some None else le_data <$> h_le h !! q.
Proof.
  intros R Hl. pose proof (rep_lists _ _ R _ _ Hl) as I. pose proof I as [N L _].
  pose proof (rep_length _ _ _ _ R Hl) as Hlen.
  destruct (clear_loop_spec xs h (head xs) (fuel_of h)) as (h' & E & EL & EE);
    [by apply chain_fwd with l|unfold fuel_of; lia|done|].
  unfold list_clear. cbn [isnull rd_list mbind option_bind]. rewrite L. cbn [mbind option_bind l_head].
  rewrite E. cbn [mbind option_bind]. unfold list_init. cbn [isnull upd_list mbind option_bind].
  rewrite EL, L. eexists. split; [done|]. split; [split; cbn [h_le h_list]|].
  - intros l' ys. rewrite lookup_insert. destruct (decide (l = l')) as [<-|Hne].
    + intros [= <-]. split; [apply NoDup_nil_2|cbn [h_list]; by rewrite lookup_insert_eq|].
      intros a p b X. by destruct a.
    + intros Hys. apply (is_list_frame h); cbn [h_le h_list].
      * by rewrite lookup_insert_ne.
      * intros q Hq. rewrite EE, decide_False; [done|].
        intros Hx. apply Hne. by eapply rep_disjoint.
      * by apply R.
  - intros p r l' Hp Hr. rewrite EE in Hp. case_decide; [by injection Hp as <-|].
    destruct (rep_owner _ _ R p r l' Hp Hr) as (ys & Hy & Hin).
    rewrite lookup_insert. case_decide; [subst l'|by eauto]. congruence.
  - erewrite size_same; [by apply R|]. intros q. rewrite EE. case_decide as Hq; [|done].
    destruct (rep_elem _ _ _ _ _ R Hl Hq) as (r & -> & _). split; eauto.
  - intros q. cbn [h_le]. rewrite EE. by case_decide.
Qed.

(** ** The abstract lists and the refinement *)

(** The lists and the data of the elements, without pointers. *)
Record astate := AState { a_lists : gmap nat (list nat); a_data : gmap nat ptr }.

Definition arep (h : heap) (A : astate) : Prop :=
  rep h (a_lists A) /\ a_data A = le_data <$> h_le h.

Definition memb (e : nat) (xs : list nat) : bool := bool_decide (e ∈ xs).
Definition linked (A : astate) (e : nat) : bool :=
  existsb (memb e) (map_to_list (a_lists A)).*2.

Fixpoint before (p e : nat) (xs : list nat) : list nat :=
  match xs with
  | [] => []
  | x :: t => if (x =? p)%nat then e :: x :: t else x :: before p e t
  end.
Fixpoint after (p e : nat) (xs : list nat) : list nat :=
  match xs with
  | [] => []
  | x :: t => if (x =? p)%nat then x :: e :: t else x :: after p e t
  end.
(** [e] behind the last element that satisfies [f], in front if there is none. *)
Fixpoint insert_last (f : nat -> bool) (e : nat) (xs : list nat) : list nat :=
  match xs with
  | [] => [e]
  | x :: t => if existsb f (x :: t) then x :: insert_last f e t else e :: x :: t
  end.

(** An element that is linked already is left where it is. *)
Definition a_insert (f : list nat -> list nat) (l e : nat) (d : ptr) (A : astate) : astate :=
  if linked A e then A
  else AState (alter f l (a_lists A)) (<[e := d]> (a_data A)).

Definition a_get (A : astate) (e : nat) : ptr := a_data A !! e ≫= id.

(** The operations of the interface, applied to lists and elements that exist. *)
Inductive list_op :=
  | Append (l e : nat) (d : ptr)
  | Prepend (l e : nat) (d : ptr)
  | Before (l p e : nat) (d : ptr)
  | After (l p e : nat) (d : ptr)
  | InsertSorted (l : nat) (sh : list_sort_h) (e : nat) (d : ptr)
  | Unlink (e : nat)
  | Clear (l : nat)
  | Move (e l : nat).

Definition run_op (o : list_op) : heap -> option heap :=
  match o with
  | Append l e d => list_append (Some l) (Some e) d
  | Prepend l e d => list_prepend (Some l) (Some e) d
  | Before l p e d => list_insert_before (Some l) (Some p) (Some e) d
  | After l p e d => list_insert_after (Some l) (Some p) (Some e) d
  | InsertSorted l sh e d => list_insert_sorted (Some l) sh (Some e) d
  | Unlink e => list_unlink (Some e)
  | Clear l => list_clear (Some l)
  | Move e l => list_move (Some e) (Some l)
  end.

Definition a_unlink (e : nat) (A : astate) : astate :=
  AState (filter (fun x => x <> e) <$> a_lists A) (a_data A).

Definition spec_op (o : list_op) (A : astate) : astate :=
  match o with
  | Append l e d => a_insert (fun xs => xs ++ [e]) l e d A
  | Prepend l e d => a_insert (cons e) l e d A
  | Before l p e d => a_insert (before p e) l e d A
  | After l p e d => a_insert (after p e) l e d A
  | InsertSorted l sh e d =>
      let A' := AState (a_lists A) (<[e := d]> (a_data A)) in
      a_insert (insert_last (fun q => sh (a_get A' q) d) e) l e d A'
  | Unlink e => a_unlink e A
  | Clear l =>
      AState (<[l := []]> (a_lists A))
        (map_imap (fun q d => Some (if memb q (default [] (a_lists A !! l)) then None else d))
           (a_data A))
  | Move e l => a_insert (fun xs => xs ++ [e]) l e (a_get A e) (a_unlink e A)
  end.

(** What a caller must see to: its pointers are valid, and the element next to
    which it inserts is in the list it names. *)
Definition op_ok (A : astate) (o : list_op) : Prop :=
  match o with
  | Append l e _ | Prepend l e _ | InsertSorted l _ e _ | Move e l =>
      is_Some (a_lists A !! l) /\ is_Some (a_data A !! e)
  | Before l p e _ | After l p e _ =>
      (exists xs, a_lists A !! l = Some xs /\ p ∈ xs) /\ is_Some (a_data A !! e)
  | Unlink e => is_Some (a_data A !! e)
  | Clear l => is_Some (a_lists A !! l)
  end.

Fixpoint run_ops (os : list list_op) (h : heap) : option heap :=
  match os with
  | [] => Some h
  | o :: os => run_op o h ≫= run_ops os
  end.
Fixpoint ops_ok (os : list list_op) (A : astate) : Prop :=
  match os with
  | [] => True
  | o :: os => op_ok A o /\ ops_ok os (spec_op o A)
  end.

Lemma linked_spec A e :
  linked A e = true <-> exists l xs, a_lists A !! l = Some xs /\ e ∈ xs.
Proof.
  unfold linked. rewrite existsb_exists. split.
  - intros (xs & Hin & He). apply list_elem_of_In, list_elem_of_fmap in Hin as ([l xs'] & -> & Hin).
    apply elem_of_map_to_list in Hin. apply bool_decide_eq_true in He. by exists l, xs'.
  - intros (l & xs & Hl & He). exists xs. split; [|unfold memb; by case_bool_decide].
    apply list_elem_of_In, list_elem_of_fmap. exists (l, xs). split; [done|].
    by apply elem_of_map_to_list.
Qed.

Lemma arep_get h A e : arep h A -> a_get A e = data_of h e.
Proof.
  intros [_ D]. unfold a_get, data_of. rewrite D, lookup_fmap. by destruct (h_le h !! e).
Qed.

Lemma arep_alloc h A e : arep h A -> is_Some (a_data A !! e) <-> is_Some (h_le h !! e).
Proof. intros [_ D]. by rewrite D, lookup_fmap, fmap_is_Some. Qed.

Lemma arep_unlinked h A e :
  arep h A -> linked A e = false -> is_Some (a_data A !! e) -> unlinked h e.
Proof.
  intros HA L D. pose proof (proj1 (arep_alloc _ _ _ HA) D) as [r Hr]. exists r. split; [done|].
  destruct (le_list r) as [l|] eqn:El; [|done].
  destruct (rep_owner _ _ (proj1 HA) e r l Hr El) as (xs & Hx & He).
  assert (linked A e = true); [|congruence]. apply linked_spec. eauto.
Qed.

Lemma arep_linked h A e :
  arep h A -> linked A e = true -> exists r l, h_le h !! e = Some r /\ le_list r = Some l.
Proof.
  intros HA (l & xs & Hl & He)%linked_spec.
  destruct (rep_elem _ _ _ _ _ (proj1 HA) Hl He) as (r & ? & ?). eauto.
Qed.

(** An insertion that puts [e] between [a] and [b] implements [f] if [f] does. *)
Lemma a_insert_refines h A l e d f a b h' :
  arep h A -> a_lists A !! l = Some (a ++ b) -> unlinked h e -> linked A e = false ->
  inserted h l a e b d h' -> f (a ++ b) = a ++ e :: b -> arep h' (a_insert f l e d A).
Proof.
  intros [R D] Hl He Ln I F. unfold a_insert. rewrite Ln. split; cbn [a_lists a_data].
  - replace (alter f l (a_lists A)) with (<[l := a ++ e :: b]> (a_lists A)).
    + by eapply rep_inserted.
    + symmetry. rewrite (alter_alt_Some _ _ _ _ Hl). by rewrite F.
  - by rewrite (inserted_data _ _ _ _ _ _ _ I), D.
Qed.

(** All four insertions refuse an element that is linked already. *)
Lemma insert_linked h A e l p d f k :
  arep h A -> linked A e = true ->
  (list_append l (Some e) d h = Some h /\ list_prepend l (Some e) d h = Some h /\
   list_insert_before l p (Some e) d h = Some h /\ list_insert_after l p (Some e) d h = Some h)
  /\ arep h (a_insert f k e d A).
Proof.
  intros HA L. destruct (arep_linked _ _ _ HA L) as (r & l0 & Hr & Lr).
  split; [|unfold a_insert; by rewrite L].
  unfold list_append, list_prepend, list_insert_before, list_insert_after.
  destruct l, p; cbn [isnull orb rd_le mbind option_bind]; rewrite ?Hr;
    cbn [mbind option_bind]; rewrite ?Lr; done.
Qed.

Lemma before_split a p b e : p ∉ a -> before p e (a ++ p :: b) = a ++ e :: p :: b.
Proof.
  induction a as [|x a IH]; intros H; simpl; [by rewrite Nat.eqb_refl|].
  apply not_elem_of_cons in H as [H1 H2].
  destruct (Nat.eqb_spec x p); [congruence|]. by rewrite IH.
Qed.
Lemma after_split a p b e : p ∉ a -> after p e (a ++ p :: b) = a ++ p :: e :: b.
Proof.
  induction a as [|x a IH]; intros H; simpl; [by rewrite Nat.eqb_refl|].
  apply not_elem_of_cons in H as [H1 H2].
  destruct (Nat.eqb_spec x p); [congruence|]. by rewrite IH.
Qed.
Lemma existsb_none f (xs : list nat) : Forall (fun q => f q = false) xs -> existsb f xs = false.
Proof. induction 1 as [|x xs Hx _ IH]; simpl; [done|]. by rewrite Hx. Qed.
Lemma insert_last_split f e a p b :
  f p = true -> Forall (fun q => f q = false) b ->
  insert_last f e (a ++ p :: b) = a ++ p :: e :: b.
Proof.
  intros Hp Hb. induction a as [|x a IH]; cbn [insert_last app].
  - cbn [existsb]. rewrite Hp. cbn [orb]. f_equal. destruct b as [|y b]; [done|].
    unfold insert_last; fold insert_last. by rewrite existsb_none.
  - cbn [existsb]. rewrite existsb_app. cbn [existsb]. rewrite Hp, !orb_true_r. by rewrite IH.
Qed.
Lemma split_nodup (a : list nat) p b : NoDup (a ++ p :: b) -> p ∉ a.
Proof. intros (_ & N & _)%NoDup_app H. apply (N p H). left. Qed.
Lemma insert_last_none f e xs :
  Forall (fun q => f q = false) xs -> insert_last f e xs = e :: xs.
Proof. intros H. destruct xs; [done|]. unfold insert_last. by rewrite existsb_none. Qed.

Lemma filter_id_out (e : nat) (xs : list nat) : e ∉ xs -> filter (fun x => x <> e) xs = xs.
Proof.
  induction xs as [|x xs IH]; intros H; [done|]. apply not_elem_of_cons in H as [H1 H2].
  rewrite filter_cons_True by done. by rewrite IH.
Qed.

(** The four insertions at a fixed place. *)
Lemma append_refines h A l e d :
  arep h A -> op_ok A (Append l e d) ->
  exists h', list_append (Some l) (Some e) d h = Some h' /\
             arep h' (a_insert (fun xs => xs ++ [e]) l e d A).
Proof.
  intros HA [[xs Hl] He]. destruct (linked A e) eqn:L.
  - exists h. by destruct (insert_linked _ _ _ (Some l) None d (fun xs => xs ++ [e]) l HA L) as [(? & ? & ? & ?) ?].
  - pose proof (arep_unlinked _ _ _ HA L He) as U.
    destruct (list_append_inserted _ _ _ _ _ d (proj1 HA) Hl U) as (h' & E & I).
    exists h'. split; [done|]. eapply a_insert_refines; rewrite ?app_nil_r; eauto.
Qed.

Lemma prepend_refines h A l e d :
  arep h A -> op_ok A (Prepend l e d) ->
  exists h', list_prepend (Some l) (Some e) d h = Some h' /\
             arep h' (a_insert (cons e) l e d A).
Proof.
  intros HA [[xs Hl] He]. destruct (linked A e) eqn:L.
  - exists h. by destruct (insert_linked _ _ _ (Some l) None d (cons e) l HA L) as [(? & ? & ? & ?) ?].
  - pose proof (arep_unlinked _ _ _ HA L He) as U.
    destruct (list_prepend_inserted _ _ _ _ _ d (proj1 HA) Hl U) as (h' & E & I).
    exists h'. split; [done|]. by eapply (a_insert_refines _ _ _ _ _ _ [] xs).
Qed.

Lemma before_refines h A l p e d :
  arep h A -> op_ok A (Before l p e d) ->
  exists h', list_insert_before (Some l) (Some p) (Some e) d h = Some h' /\
             arep h' (a_insert (before p e) l e d A).
Proof.
  intros HA [(xs & Hl & Hp) He]. destruct (linked A e) eqn:L.
  - exists h. by destruct (insert_linked _ _ _ (Some l) (Some p) d (before p e) l HA L) as [(? & ? & ? & ?) ?].
  - pose proof (arep_unlinked _ _ _ HA L He) as U.
    apply list_elem_of_split in Hp as (a & b & ->).
    destruct (list_insert_before_inserted _ _ _ _ _ _ _ d (proj1 HA) Hl U) as (h' & E & I).
    exists h'. split; [done|]. eapply a_insert_refines; eauto.
    eapply before_split, split_nodup, il_nodup, rep_lists; [apply HA|done].
Qed.

Lemma after_refines h A l p e d :
  arep h A -> op_ok A (After l p e d) ->
  exists h', list_insert_after (Some l) (Some p) (Some e) d h = Some h' /\
             arep h' (a_insert (after p e) l e d A).
Proof.
  intros HA [(xs & Hl & Hp) He]. destruct (linked A e) eqn:L.
  - exists h. by destruct (insert_linked _ _ _ (Some l) (Some p) d (after p e) l HA L) as [(? & ? & ? & ?) ?].
  - pose proof (arep_unlinked _ _ _ HA L He) as U.
    apply list_elem_of_split in Hp as (a & b & ->).
    destruct (list_insert_after_inserted _ _ _ _ _ _ _ d (proj1 HA) Hl U) as (h' & E & I).
    exists h'. split; [done|].
    eapply (a_insert_refines _ _ _ _ _ _ (a ++ [p]) b); rewrite <- ?app_assoc; eauto.
    eapply after_split, split_nodup, il_nodup, rep_lists; [apply HA|done].
Qed.

Lemma arep_set_data h A e d :
  arep h A -> is_Some (a_data A !! e) ->
  exists h', upd_le (Some e) (set_data d) h = Some h' /\
    arep h' (AState (a_lists A) (<[e := d]> (a_data A))).
Proof.
  intros HA He. apply (arep_alloc _ _ _ HA) in He. destruct HA as [R D].
  destruct (set_data_rep _ _ _ d R He) as (h' & E & R' & D' & _). exists h'.
  split; [done|]. split; [done|]. cbn [a_data]. by rewrite D', D.
Qed.

Lemma sorted_refines h A l sh e d :
  arep h A -> op_ok A (InsertSorted l sh e d) ->
  exists h', list_insert_sorted (Some l) sh (Some e) d h = Some h' /\
             arep h' (spec_op (InsertSorted l sh e d) A).
Proof.
  intros HA [[xs Hl] He]. unfold list_insert_sorted. cbn [isnull rd_list mbind option_bind].
  rewrite (il_list _ _ _ (rep_lists _ _ (proj1 HA) _ _ Hl)). cbn [mbind option_bind l_tail].
  destruct (arep_set_data _ _ _ d HA He) as (h1 & E1 & HA1). rewrite E1. cbn [mbind option_bind].
  set (A1 := AState _ _) in HA1. assert (a_lists A1 !! l = Some xs) as Hl1 by done.
  assert (is_Some (a_data A1 !! e)) as He1 by (cbn; rewrite lookup_insert_eq; eauto).
  pose proof (rep_length _ _ _ _ (proj1 HA1) Hl1).
  rewrite (insert_sorted_loop_find _ _ _ _ d (reverse xs)).
  2: { eapply chain_bwd, rep_lists; [apply HA1|done]. }
  2: { rewrite length_reverse. unfold fuel_of. lia. }
  2: { by apply (arep_alloc _ _ _ HA1). }
  2: { rewrite <- (arep_get _ _ _ HA1). unfold a_get. cbn. by rewrite lookup_insert_eq. }
  cbn [spec_op]. fold A1. set (f := fun q => sh (a_get A1 q) d).
  replace (List.find _ (reverse xs)) with (List.find f (reverse xs)).
  2: { unfold f. clear -HA1. induction (reverse xs) as [|x t IH]; simpl; [done|].
       by rewrite IH, (arep_get _ _ _ HA1). }
  destruct (linked A1 e) eqn:L.
  { destruct (insert_linked _ _ _ (Some l) (List.find f (reverse xs)) d
      (insert_last f e) l HA1 L) as [(E2 & E3 & E4 & E5) ?].
    exists h1. destruct (List.find f (reverse xs)); done. }
  pose proof (arep_unlinked _ _ _ HA1 L He1) as U. pose proof (find_reverse_split f xs) as F.
  destruct (List.find f (reverse xs)) as [p|].
  - destruct F as (a & b & -> & Hp & Hb).
    destruct (list_insert_after_inserted _ _ _ _ _ _ _ d (proj1 HA1) Hl1 U) as (h' & E & I).
    exists h'. split; [done|].
    eapply (a_insert_refines _ _ _ _ _ _ (a ++ [p]) b); rewrite <- ?app_assoc; eauto.
    by apply insert_last_split.
  - destruct (list_prepend_inserted _ _ _ _ _ d (proj1 HA1) Hl1 U) as (h' & E & I).
    exists h'. split; [done|]. eapply (a_insert_refines _ _ _ _ _ _ [] xs); eauto.
    by apply insert_last_none.
Qed.

Lemma filter_map_out h A e :
  arep h A -> linked A e = false -> a_unlink e A = A.
Proof.
  intros HA L. unfold a_unlink. destruct A as [m dt]. cbn [a_lists a_data]. f_equal.
  apply map_eq. intros l. rewrite lookup_fmap. destruct (m !! l) as [xs|] eqn:E; [|done].
  simpl. f_equal. apply filter_id_out. intros He.
  assert (linked (AState m dt) e = true); [|congruence]. apply linked_spec. eauto.
Qed.

Lemma filter_map_in h A l a e b :
  arep h A -> a_lists A !! l = Some (a ++ e :: b) ->
  filter (fun x => x <> e) <$> a_lists A = <[l := a ++ b]> (a_lists A).
Proof.
  intros [R _] Hl. apply map_eq. intros k. rewrite lookup_fmap, lookup_insert.
  pose proof (il_nodup _ _ _ (rep_lists _ _ R _ _ Hl)) as N. case_decide as Hk.
  - subst k. rewrite Hl. simpl. f_equal. rewrite <- Permutation_middle in N.
    apply NoDup_cons in N as [N _]. apply not_elem_of_app in N as [N1 N2].
    rewrite filter_app, filter_cons_False by tauto. by rewrite !filter_id_out.
  - destruct (a_lists A !! k) as [ys|] eqn:Ek; [|done]. simpl. f_equal. apply filter_id_out.
    intros He. apply Hk. eapply (rep_disjoint _ _ l k); eauto. apply elem_mid.
Qed.

Lemma unlink_refines h A e :
  arep h A -> is_Some (a_data A !! e) ->
  exists h', list_unlink (Some e) h = Some h' /\ arep h' (a_unlink e A) /\
             linked (a_unlink e A) e = false.
Proof.
  intros HA He. assert (linked (a_unlink e A) e = false) as L'.
  { destruct (linked (a_unlink e A) e) eqn:L; [|done]. apply linked_spec in L as (l & xs & E & Hin).
    cbn in E. rewrite lookup_fmap in E. apply fmap_Some in E as (ys & _ & ->).
    apply list_elem_of_filter in Hin as [? _]. done. }
  destruct (linked A e) eqn:L.
  - apply linked_spec in L as (l & xs & Hl & Hin). apply list_elem_of_split in Hin as (a & b & ->).
    destruct (list_unlink_removed _ _ _ _ _ _ (proj1 HA) Hl) as (h' & E & I).
    exists h'. split_and!; [done| |done]. split; cbn [a_unlink a_lists a_data].
    + rewrite (filter_map_in _ _ _ _ _ _ HA Hl). eapply rep_removed; eauto. apply HA.
    + rewrite (removed_data _ _ _ _ _ _ I). apply HA.
  - rewrite (filter_map_out _ _ _ HA L) in *.
    destruct (arep_unlinked _ _ _ HA L He) as (r & Hr & Lr).
    exists h. split_and!; [|done|done]. unfold list_unlink.
    cbn [isnull rd_le mbind option_bind]. rewrite Hr. cbn [mbind option_bind]. by rewrite Lr.
Qed.

Lemma clear_refines h A l :
  arep h A -> is_Some (a_lists A !! l) ->
  exists h', list_clear (Some l) h = Some h' /\ arep h' (spec_op (Clear l) A).
Proof.
  intros HA [xs Hl]. destruct (list_clear_rep _ _ _ _ (proj1 HA) Hl) as (h' & E & R & D).
  exists h'. split; [done|]. split; [done|]. cbn [spec_op a_data]. rewrite Hl. cbn [default].
  apply map_eq. intros q. rewrite map_lookup_imap, lookup_fmap, D, (proj2 HA), lookup_fmap.
  unfold memb. case_bool_decide as Hq; [rewrite decide_True by done|rewrite decide_False by done].
  - by destruct (rep_elem _ _ _ _ _ (proj1 HA) Hl Hq) as (r & -> & _).
  - by destruct (h_le h !! q).
Qed.

Lemma move_refines h A e l :
  arep h A -> op_ok A (Move e l) ->
  exists h', list_move (Some e) (Some l) h = Some h' /\ arep h' (spec_op (Move e l) A).
Proof.
  intros HA [[xs Hl] He]. destruct (unlink_refines _ _ _ HA He) as (h1 & E1 & HA1 & _).
  unfold list_move. rewrite E1. cbn [mbind option_bind].
  pose proof (arep_get _ _ e HA1) as Hd. unfold data_of in Hd.
  destruct (proj1 (arep_alloc _ _ e HA1) He) as [r Hr]. rewrite Hr in Hd. cbn in Hd.
  cbn [rd_le mbind option_bind]. rewrite Hr. cbn [fmap option_fmap option_map mbind option_bind].
  rewrite <- Hd. apply append_refines; [done|]. split; [|done].
  cbn. rewrite lookup_fmap, Hl. by eexists.
Qed.

Lemma op_refines o h A :
  arep h A -> op_ok A o -> exists h', run_op o h = Some h' /\ arep h' (spec_op o A).
Proof.
  destruct o; intros HA Ho.
  - by apply append_refines.
  - by apply prepend_refines.
  - by apply before_refines.
  - by apply after_refines.
  - by apply sorted_refines.
  - destruct (unlink_refines _ _ _ HA Ho) as (h' & ? & ? & _). eauto.
  - by apply clear_refines.
  - by apply move_refines.
Qed.

(** C24. The pointer operations implement lists: any sequence of insertions (at
    either end, next to an element, at the sorted place), removals, moves and
    clearings whose pointers are valid runs without an invalid access and with
    every loop ending, and leaves a memory that represents what the same
    sequence computes on plain lists -- elements, order, counters, back links
    and user data, for all lists of the memory at once. *)
Theorem list_ops_refine os h A :
  arep h A -> ops_ok os A ->
  exists h', run_ops os h = Some h' /\ arep h' (foldl (fun A o => spec_op o A) A os).
Proof.
  revert h A. induction os as [|o os IH]; intros h A HA Ho; [by exists h|].
  destruct Ho as [Ho Hos]. destruct (op_refines o h A HA Ho) as (h1 & E1 & HA1).
  destruct (IH h1 _ HA1 Hos) as (h2 & E2 & HA2). exists h2. cbn [run_ops].
  rewrite E1. by split.
Qed.

(** Before anything is linked every list is empty. *)
Definition initial (h : heap) : astate :=
  AState ((fun _ => []) <$> h_list h) (le_data <$> h_le h).

Lemma initial_arep h :
  map_Forall (fun _ r => le_list r = None) (h_le h) ->
  map_Forall (fun _ t => t = Lst None None 0) (h_list h) ->
  Z.of_nat (size (h_le h)) < 18446744073709551616 -> arep h (initial h).
Proof.
  intros He Hl Hs. split; [split|done]; [| |done].
  - intros l xs. cbn. rewrite lookup_fmap. intros (t & Ht & ->)%fmap_Some.
    split; [apply NoDup_nil_2| |by intros [] ? ?].
    rewrite Ht. f_equal. by apply (Hl l).
  - intros p r l Hp Hr. pose proof (He p r Hp). congruence.
Qed.

(** Two empty lists and three elements. *)
Definition demo_heap : heap :=
  Heap (list_to_map ((fun i => (i, Le None None None None)) <$> [10; 11; 12]%nat))
       (list_to_map [(1%nat, Lst None None 0); (2%nat, Lst None None 0)]).

Lemma demo_arep : arep demo_heap (initial demo_heap).
Proof.
  apply initial_arep; [| |done];
    cbn; repeat (apply map_Forall_insert_2; [done|]); apply map_Forall_empty.
Qed.

Lemma list_ops_refine_witness :
  let sh := fun a b => (default 0 a <=? default 0 b)%nat in
  let os := [Append 1 10 (Some 5); InsertSorted 1 sh 11 (Some 3); After 1 11 12 (Some 4);
             Append 2 12 None; Unlink 11; Move 12 2; Clear 1]%nat in
  ops_ok os (initial demo_heap) /\
  exists h', run_ops os demo_heap = Some h' /\
             arep h' (foldl (fun A o => spec_op o A) (initial demo_heap) os).
Proof.
  intros sh os. assert (ops_ok os (initial demo_heap)) as Ho.
  { repeat split; try (by vm_compute; eauto).
    eexists. split; [by vm_compute|]. by left. }
  split; [exact Ho|]. exact (list_ops_refine os _ _ demo_arep Ho).
Defined.

(** ** Sorting *)

(** What one traversal does to the list: [x] is carried along until an element
    is found that it may precede. *)
Fixpoint bubble (cmp : nat -> nat -> bool) (x : nat) (b : list nat) : list nat :=
  match b with
  | [] => [x]
  | y :: t => if cmp x y then x :: bubble cmp y t else y :: bubble cmp x t
  end.
Fixpoint moves (cmp : nat -> nat -> bool) (x : nat) (b : list nat) : bool :=
  match b with
  | [] => false
  | y :: t => if cmp x y then moves cmp y t else true
  end.

(** The order that a sort handler gives to the elements. *)
Definition order_of (A : astate) (sh : list_sort_h) (x y : nat) : bool :=
  sh (a_get A x) (a_get A y).

Lemma swap_refines h A l a x y b :
  arep h A -> a_lists A !! l = Some (a ++ x :: y :: b) ->
  exists h1 h2, list_unlink (Some x) h = Some h1 /\
    list_insert_after (Some l) (Some y) (Some x) (a_get A x) h1 = Some h2 /\
    arep h2 (AState (<[l := a ++ y :: x :: b]> (a_lists A)) (a_data A)).
Proof.
  intros HA Hl. pose proof HA as [R D].
  destruct (list_unlink_removed _ _ _ _ _ _ R Hl) as (h1 & E1 & I1).
  destruct (rep_removed _ _ _ _ _ _ _ R Hl I1) as (R1 & U1 & _).
  destruct (list_insert_after_inserted _ _ l a y b x (a_get A x) R1) as (h2 & E2 & I2);
    [by rewrite lookup_insert_eq|done|].
  exists h1, h2. split_and!; [done|done|]. split; cbn [a_lists a_data].
  - rewrite <- (insert_insert_eq _ l _ (a ++ y :: b)).
    replace (a ++ y :: x :: b) with ((a ++ [y]) ++ x :: b) by (by rewrite <- app_assoc).
    eapply rep_inserted; [done| |done|done]. by rewrite <- app_assoc, lookup_insert_eq.
  - rewrite (inserted_data _ _ _ _ _ _ _ I2), (removed_data _ _ _ _ _ _ I1), <- D.
    symmetry. apply insert_id. unfold a_get.
    destruct (rep_elem _ _ _ _ x R Hl) as (r & Hr & _); [apply elem_mid|].
    by rewrite D, lookup_fmap, Hr.
Qed.

Lemma sort_pass_spec sh l b : forall h A a x s fuel,
  arep h A -> a_lists A !! l = Some (a ++ x :: b) -> (length b < fuel)%nat ->
  exists h', sort_pass fuel (Some l) sh (Some x) s h
             = Some (s || moves (order_of A sh) x b, h') /\
    arep h' (AState (<[l := a ++ bubble (order_of A sh) x b]> (a_lists A)) (a_data A)).
Proof.
  induction b as [|y b IH]; intros h A a x s [|fuel] HA Hl F; cbn [length] in F; try lia;
    destruct (il_links _ _ _ (rep_lists _ _ (proj1 HA) _ _ Hl) a x _ eq_refl) as [d Hd];
    unfold sort_pass; fold sort_pass; cbn [isnull rd_le mbind option_bind];
    rewrite Hd; cbn [mbind option_bind le_next head isnull le_data].
  - exists h. cbn [moves bubble]. rewrite orb_false_r, insert_id by done.
    split; [done|]. by destruct A.
  - destruct (il_links _ _ _ (rep_lists _ _ (proj1 HA) _ _ Hl) (a ++ [x]) y b) as [d' Hd'];
      [by rewrite <- app_assoc|].
    cbn [rd_le mbind option_bind]. rewrite Hd'. cbn [mbind option_bind le_data moves bubble].
    unfold order_of at 1 3. rewrite !(arep_get _ _ _ HA). unfold data_of at 1 2 3 4.
    rewrite Hd, Hd'. cbn [mbind option_bind le_data]. destruct (sh d d') eqn:S.
    + destruct (IH h A (a ++ [x]) y s fuel HA) as (h' & E & HA'); [by rewrite <- app_assoc|lia|].
      exists h'. rewrite <- app_assoc in HA'. by split.
    + destruct (swap_refines _ _ _ _ _ _ _ HA Hl) as (h1 & h2 & E1 & E2 & HA2).
      rewrite (arep_get _ _ _ HA) in E2. unfold data_of in E2. rewrite Hd in E2.
      cbn [mbind option_bind le_data] in E2. rewrite E1. cbn [mbind option_bind]. rewrite E2. cbn [mbind option_bind].
      destruct (IH h2 _ (a ++ [y]) x true fuel HA2) as (h' & E & HA'); [|lia|].
      { cbn. rewrite lookup_insert_eq. by rewrite <- app_assoc. }
      exists h'. rewrite <- app_assoc in HA'. cbn [a_lists a_data] in HA'.
      rewrite insert_insert_eq in HA'. rewrite orb_true_r. by split.
Qed.

(** Pairs in the wrong order: each move removes one. *)
Fixpoint inversions (cmp : nat -> nat -> bool) (xs : list nat) : nat :=
  match xs with
  | [] => 0
  | x :: t => length (List.filter (fun y => negb (cmp x y)) t) + inversions cmp t
  end%nat.

Lemma bubble_perm cmp x b : bubble cmp x b ≡ₚ x :: b.
Proof.
  revert x. induction b as [|y b IH]; intros x; simpl; [done|].
  destruct (cmp x y); [by rewrite IH|]. rewrite IH. apply Permutation_swap.
Qed.

Lemma filter_perm_length (f : nat -> bool) xs ys :
  xs ≡ₚ ys -> length (List.filter f xs) = length (List.filter f ys).
Proof.
  induction 1 as [|x xs ys _ IH|x y xs|]; simpl; [done| | |congruence].
  - destruct (f x); simpl; congruence.
  - by destruct (f x), (f y).
Qed.

Lemma bubble_inversions cmp x b :
  (forall y z, cmp y z || cmp z y = true) ->
  (inversions cmp (bubble cmp x b) + (if moves cmp x b then 1 else 0)
   <= inversions cmp (x :: b))%nat.
Proof.
  intros T. revert x. induction b as [|y b IH]; intros x; simpl; [lia|].
  destruct (cmp x y) eqn:C; simpl.
  - rewrite (filter_perm_length _ _ _ (bubble_perm cmp y b)). simpl. rewrite C. simpl.
    specialize (IH y). simpl in IH. lia.
  - rewrite (filter_perm_length _ _ _ (bubble_perm cmp x b)). simpl.
    specialize (T x y). rewrite C in T. simpl in T. rewrite T. simpl.
    specialize (IH x). simpl in IH. destruct (moves cmp x b); lia.
Qed.

(** Elements that may stay as they are keep their order. *)
Lemma bubble_stable cmp (f : nat -> bool) x b :
  (forall y z, f y = true -> f z = true -> cmp y z = true) -> List.filter f (bubble cmp x b) = List.filter f (x :: b).
Proof.
  intros Hf. revert x. induction b as [|y b IH]; intros x; [done|]. cbn [bubble].
  destruct (cmp x y) eqn:C; cbn [List.filter]; rewrite IH; cbn [List.filter]; [done|].
  destruct (f x) eqn:Fx, (f y) eqn:Fy; try done. rewrite (Hf x y Fx Fy) in C. done.
Qed.

Lemma inversions_bound cmp xs : (inversions cmp xs <= length xs * length xs)%nat.
Proof.
  induction xs as [|x xs IH]; simpl; [lia|].
  pose proof (List.filter_length_le (fun y => negb (cmp x y)) xs). lia.
Qed.

Lemma still_sorted cmp x b :
  moves cmp x b = false -> bubble cmp x b = x :: b /\ Sorted (fun y z => cmp y z = true) (x :: b).
Proof.
  revert x. induction b as [|y b IH]; intros x; simpl; [by repeat constructor|].
  destruct (cmp x y) eqn:C; [|done]. intros M. destruct (IH y M) as [E S].
  rewrite E. split; [done|]. constructor; [done|by constructor].
Qed.

Lemma sort_retry_spec sh l fuel : forall h A xs,
  (forall a b, sh a b || sh b a = true) ->
  arep h A -> a_lists A !! l = Some xs -> (inversions (order_of A sh) xs < fuel)%nat ->
  exists h' ys, sort_retry fuel (Some l) sh h = Some h' /\
    arep h' (AState (<[l := ys]> (a_lists A)) (a_data A)) /\ ys ≡ₚ xs /\
    Sorted (fun y z => order_of A sh y z = true) ys /\
    forall f, (forall y z, f y = true -> f z = true -> order_of A sh y z = true) -> List.filter f ys = List.filter f xs.
Proof.
  induction fuel as [|fuel IH]; intros h A xs T HA Hl F; [lia|].
  pose proof (rep_length _ _ _ _ (proj1 HA) Hl) as Hlen.
  unfold sort_retry; fold sort_retry. cbn [rd_list mbind option_bind].
  rewrite (il_list _ _ _ (rep_lists _ _ (proj1 HA) _ _ Hl)). cbn [mbind option_bind l_head].
  destruct xs as [|x b].
  - exists h, []. split_and!; [done| |done|constructor|done]. rewrite insert_id by done. by destruct A.
  - cbn [head]. destruct (sort_pass_spec sh l b h A [] x false (fuel_of h) HA Hl) as (h1 & E1 & HA1);
      [unfold fuel_of; simpl in Hlen; lia|].
    rewrite E1. cbn [mbind option_bind orb app] in *.
    pose proof (bubble_inversions (order_of A sh) x b (fun y z => T _ _)) as B.
    destruct (moves (order_of A sh) x b) eqn:M.
    + destruct (IH h1 _ (bubble (order_of A sh) x b) T HA1) as (h' & ys & E & HA' & P & S & St).
      { cbn. by rewrite lookup_insert_eq. }
      { unfold order_of in *. cbn [a_data a_get] in *. simpl inversions in F. unfold a_get in *. cbn [a_data]. simpl in B. lia. }
      exists h', ys. cbn [a_lists a_data] in HA'. rewrite insert_insert_eq in HA'.
      split_and!; [done|done|by rewrite P, bubble_perm|done|]. intros f Hf. rewrite St by done. by apply bubble_stable.
    + destruct (still_sorted _ _ _ M) as [Eq S]. rewrite Eq in HA1. eauto 10.
Qed.

(** More traversals allowed change nothing. *)
Lemma sort_retry_mono fuel fuel' l sh h h' :
  (fuel <= fuel')%nat -> sort_retry fuel l sh h = Some h' -> sort_retry fuel' l sh h = Some h'.
Proof.
  revert fuel' h. induction fuel as [|fuel IH]; intros fuel' h Hf; [done|].
  destruct fuel' as [|fuel']; [lia|]. cbn [sort_retry]. destruct (rd_list l h) as [t|]; [|done].
  cbn [mbind option_bind]. destruct (sort_pass _ _ _ _ _ _) as [[sort h1]|]; [|done]. cbn [mbind option_bind].
  destruct sort; [|done]. apply IH. lia.
Qed.

(** C25. [list_sort] ends, for every list and every handler that is total (of two
    elements at least one may precede the other) and transitive, after at most one
    traversal more than there are inversions.  It leaves a permutation of the
    elements, ordered by the handler, in which elements that may precede each
    other are in the order in which they were, and touches no other list and no
    user data. *)
Theorem list_sort_terminates_sorted h A l xs sh :
  (forall a b, sh a b || sh b a = true) ->
  (forall a b c, sh a b = true -> sh b c = true -> sh a c = true) ->
  arep h A -> a_lists A !! l = Some xs ->
  exists h' ys, list_sort (Some l) sh h = Some h' /\
    sort_retry (S (inversions (order_of A sh) xs)) (Some l) sh h = Some h' /\
    arep h' (AState (<[l := ys]> (a_lists A)) (a_data A)) /\ ys ≡ₚ xs /\
    StronglySorted (fun x y => order_of A sh x y = true) ys /\
    forall f, (forall y z, f y = true -> f z = true -> order_of A sh y z = true) -> List.filter f ys = List.filter f xs.
Proof.
  intros T Tr HA Hl. pose proof (inversions_bound (order_of A sh) xs) as B.
  pose proof (rep_length _ _ _ _ (proj1 HA) Hl) as L.
  destruct (sort_retry_spec sh l (S (inversions (order_of A sh) xs)) h A xs T HA Hl)
    as (h' & ys & E & HA' & P & S & St); [lia|].
  exists h', ys. split_and!; [|done|done|done| |done].
  - unfold list_sort. cbn [isnull]. eapply sort_retry_mono; [|exact E]. nia.
  - apply Sorted_StronglySorted; [|done]. intros x y z. unfold order_of. apply Tr.
Qed.

(** Three elements in a list, not in order of their data. *)
Definition demo_ops : list list_op :=
  [Append 1 10 (Some 5); Append 1 11 (Some 3); Append 1 12 (Some 4)]%nat.
Definition demo3 : heap := default demo_heap (run_ops demo_ops demo_heap).
Definition demo3_lists : astate :=
  foldl (fun A o => spec_op o A) (initial demo_heap) demo_ops.

Lemma demo3_arep : arep demo3 demo3_lists.
Proof.
  unfold demo3, demo_ops, demo3_lists. cbn [run_ops foldl].
  edestruct op_refines as (h1 & -> & A1); [exact demo_arep|by vm_compute; eauto|].
  cbn [mbind option_bind].
  edestruct op_refines as (h2 & -> & A2); [exact A1|by vm_compute; eauto|].
  cbn [mbind option_bind].
  edestruct op_refines as (h3 & -> & A3); [exact A2|by vm_compute; eauto|]. exact A3.
Qed.

Lemma list_sort_terminates_sorted_witness :
  let sh := fun a b : ptr => (default 0 a <=? default 0 b)%nat in
  exists h' ys, list_sort (Some 1%nat) sh demo3 = Some h' /\ ys ≡ₚ [10; 11; 12]%nat /\
    StronglySorted (fun x y => order_of demo3_lists sh x y = true) ys /\
    l_head <$> h_list h' !! 1%nat = Some (Some 11%nat).
Proof.
  intros sh. destruct (list_sort_terminates_sorted demo3 demo3_lists 1%nat [10; 11; 12]%nat sh)
    as (h' & ys & E & _ & _ & P & S & _).
  - intros a b. unfold sh. destruct (Nat.leb_spec (default 0 a) (default 0 b))%nat; [done|].
    apply Nat.leb_le. lia.
  - intros a b c. unfold sh. rewrite !Nat.leb_le. lia.
  - exact demo3_arep.
  - by vm_compute.
  - exists h', ys. split_and!; [exact E|exact P|exact S|].
    clear -E. vm_compute in E. injection E as <-. by vm_compute.
Defined.

(** ** [list_insert_sorted] keeps a sorted list sorted *)

Lemma insert_last_sorted (R : nat -> nat -> Prop) f e xs :
  (forall x, x ∈ xs -> f x = true -> R x e) -> (forall x, x ∈ xs -> f x = false -> R e x) ->
  (forall x y, R x y -> f y = true -> f x = true) ->
  StronglySorted R xs -> StronglySorted R (insert_last f e xs).
Proof.
  intros H1 H2 H3. induction 1 as [|x xs S IH Hx]; simpl; [by repeat constructor|].
  destruct (f x || existsb f xs) eqn:E.
  - assert (f x = true) as Fx.
    { apply orb_true_iff in E as [?|E]; [done|]. apply existsb_exists in E as (y & Hy & Fy).
      apply (H3 x y); [|done]. by eapply Forall_forall, list_elem_of_In; [exact Hx|]. }
    constructor.
    + apply IH; intros; [apply H1|apply H2]; by try right.
    + assert (forall zs, Forall (R x) zs -> Forall (R x) (insert_last f e zs)) as X; [|by apply X].
      intros zs. induction 1 as [|z zs Hz Hzs IHz]; simpl; [repeat constructor; apply H1; [left|done]|].
      destruct (f z || existsb f zs); repeat constructor; try done. apply H1; [left|done].
  - apply orb_false_iff in E as [Fx E]. repeat constructor; try done.
    + apply H2; [left|done].
    + apply Forall_forall. intros y Hy. apply H2; [by right|].
      destruct (f y) eqn:Fy; [|done]. exfalso.
      assert (existsb f xs = true); [|congruence]. apply existsb_exists.
      exists y. split; [by apply list_elem_of_In|done].
Qed.

(** ** [list_flush]

    The destructor that [mem_deref] runs may do anything that leaves the lists as
    they are, in particular free the element it was called for, which has been
    unlinked before. *)
Section flush.
Context (deref : ptr -> heap -> option heap).
Hypothesis deref_keeps : forall d h G, rep h G ->
  exists h', deref d h = Some h' /\ rep h' G.

Lemma flush_loop_rep l b : forall h G fuel,
  rep h G -> G !! l = Some b -> (length b < fuel)%nat ->
  exists h', flush_loop fuel deref (head b) h = Some h' /\ rep h' (<[l := []]> G).
Proof.
  induction b as [|e b IH]; intros h G [|fuel] R Hl F; cbn [length] in F; try lia.
  - exists h. rewrite insert_id by done. by split.
  - destruct (il_links _ _ _ (rep_lists _ _ R _ _ Hl) [] e b eq_refl) as [d Hd].
    unfold flush_loop; fold flush_loop. cbn [head isnull rd_le mbind option_bind].
    rewrite Hd. cbn [mbind option_bind le_data le_next].
    destruct (list_unlink_removed _ _ _ [] _ _ R Hl) as (h1 & E1 & I1).
    destruct (rep_removed _ _ _ [] _ _ _ R Hl I1) as (R1 & (r & Hr & _) & _).
    rewrite E1. cbn [mbind option_bind].
    destruct (set_data_rep h1 _ e None R1) as (h2 & E2 & R2 & _); [by eexists|].
    rewrite E2. cbn [mbind option_bind].
    destruct (deref_keeps d h2 _ R2) as (h3 & E3 & R3). rewrite E3. cbn [mbind option_bind].
    destruct (IH h3 _ fuel R3) as (h' & E & R'); [by rewrite lookup_insert_eq|lia|].
    exists h'. rewrite insert_insert_eq in R'. by split.
Qed.

Lemma list_flush_empties h G l xs :
  rep h G -> G !! l = Some xs ->
  exists h', list_flush deref (Some l) h = Some h' /\ rep h' (<[l := []]> G).
Proof.
  intros R Hl. pose proof (rep_length _ _ _ _ R Hl).
  unfold list_flush. cbn [isnull rd_list mbind option_bind].
  rewrite (il_list _ _ _ (rep_lists _ _ R _ _ Hl)). cbn [mbind option_bind l_head].
  destruct (flush_loop_rep l xs h G (fuel_of h) R Hl) as (h1 & E1 & R1); [unfold fuel_of; lia|].
  rewrite E1. cbn [mbind option_bind]. unfold list_init. cbn [isnull upd_list mbind option_bind].
  pose proof (rep_lists _ _ R1 l []) as I. rewrite lookup_insert_eq in I.
  rewrite (il_list _ _ _ (I eq_refl)). eexists. split; [done|].
  rewrite insert_id by (apply (il_list _ _ _ (I eq_refl))). by destruct h1.
Qed.
End flush.
