(* ===== verification/Tmr.v ===== *)
(** * libre's timers ([src/re-4.6.0/src/tmr/tmr.c], [include/re_tmr.h])

    All periodic work of the intercom runs on these timers: a list of the active
    timers, kept in the order in which they expire, that the event loop polls.

    A [struct tmr] begins with its list element, so a timer and its element have
    the same address.  The state is the memory of [LibList] together with the
    other fields of the timers.  The clock is an argument of the operations that
    read it.  A handler is a parameter: what it does to the timers, as a list of
    calls of this interface.

    [timers s tl xs] says that [xs] are the active timers in the order of the
    list.  The theorems show that starting, continuing and cancelling implement
    an ordered queue that is first-in-first-out for equal times, that a poll ends
    when handlers ask for a delay, and that it calls each due handler once, in
    order. *)
From S2P Require Import Prelude LibList.
From stdpp Require Import gmap.
From Stdlib Require Import Sorted.
Local Open Scope Z_scope.

(** [struct tmr] without its list element; a handler is named by a number. *)
Record tmr := Tmr { t_llock : ptr; t_th : ptr; t_arg : ptr; t_jfs : Z }.

Record tstore := TStore { ts_heap : heap; ts_tmr : gmap nat tmr }.

Definition rd_tmr (p : ptr) (s : tstore) : option tmr := p ≫= fun a => ts_tmr s !! a.
Definition upd_tmr (p : ptr) (f : tmr -> tmr) (s : tstore) : option tstore :=
  a ← p; t ← ts_tmr s !! a; Some (TStore (ts_heap s) (<[a := f t]> (ts_tmr s))).
(** Run a list operation. *)
Definition on_heap (f : heap -> option heap) (s : tstore) : option tstore :=
  h ← f (ts_heap s); Some (TStore h (ts_tmr s)).

Definition set_llock v (t : tmr) := Tmr v (t_th t) (t_arg t) (t_jfs t).
Definition set_th v (t : tmr) := Tmr (t_llock t) v (t_arg t) (t_jfs t).
Definition set_arg v (t : tmr) := Tmr (t_llock t) (t_th t) v (t_jfs t).
Definition set_jfs v (t : tmr) := Tmr (t_llock t) (t_th t) (t_arg t) v.

(** ** The clock *)

(** [clock_gettime]: seconds and nanoseconds, or nothing when it fails. *)
Record timespec := Timespec { tv_sec : Z; tv_nsec : Z }.

Definition tmr_jiffies_usec (now : option timespec) : Z :=
  match now with
  | None => 0
  | Some ts => u64 (u64 (tv_sec ts * 1000000) + tv_nsec ts / 1000)
  end.
Definition tmr_jiffies (now : option timespec) : Z := tmr_jiffies_usec now / 1000.

Fixpoint normalise (fuel : nat) (ts : timespec) : timespec :=
  match fuel with
  | O => ts
  | S fuel =>
      if tv_nsec ts >? 1000000000
      then normalise fuel (Timespec (tv_sec ts + 1) (tv_nsec ts - 1000000000))
      else ts
  end.

(** Both summands are below a second, so two rounds are more than enough. *)
Definition tmr_timespec_get (clock : option timespec) (errno offset : Z) : Z + timespec :=
  match clock with
  | None => inl errno
  | Some ts =>
      inr (if offset =? 0 then ts
           else normalise 2 (Timespec (tv_sec ts + offset / 1000)
                                      (tv_nsec ts + u64 (offset * 1000000) mod 1000000000)))
  end.

(** ** Operations *)

Definition tmr_init (p : ptr) (s : tstore) : option tstore :=
  if isnull p then Some s
  else
    s ← upd_tmr p (fun _ => Tmr None None None 0) s;
    on_heap (upd_le p (fun _ => Le None None None None)) s.

Definition inspos_handler (s : tstore) (now : Z) : list_apply_h :=
  fun d => t ← rd_tmr d s; Some (t_jfs t <=? now).
Definition inspos_handler_0 (s : tstore) (now : Z) : list_apply_h :=
  fun d => t ← rd_tmr d s; Some (t_jfs t >? now).

(** [tl] is the timer list of the thread ([re_tmrl_get()]), [now] what
    [tmr_jiffies()] returns. *)
Definition tmr_startcont (tl p : ptr) (delay : Z) (syncnow : bool) (th arg : ptr) (now : Z)
    (s : tstore) : option tstore :=
  if isnull p || isnull tl then Some s
  else
    t ← rd_tmr p s;
    s ← (if isnull (t_th t) then Some s else on_heap (list_unlink p) s);
    if isnull th then upd_tmr p (set_llock None) s
    else
      s ← upd_tmr p (set_llock tl) s;
      s ← upd_tmr p (set_th th) s;
      s ← upd_tmr p (set_arg arg) s;
      s ← (if syncnow then upd_tmr p (set_jfs now) s else Some s);
      s ← upd_tmr p (fun t => set_jfs (u64 (t_jfs t + delay)) t) s;
      jfs ← t_jfs <$> rd_tmr p s;
      if delay =? 0 then
        e ← list_apply tl true (inspos_handler_0 s jfs) (ts_heap s);
        if negb (isnull e) then on_heap (list_insert_before tl e p p) s
        else on_heap (list_append tl p p) s
      else
        e ← list_apply tl false (inspos_handler s jfs) (ts_heap s);
        if negb (isnull e) then on_heap (list_insert_after tl e p p) s
        else on_heap (list_prepend tl p p) s.

Definition tmr_start tl p delay th arg now := tmr_startcont tl p delay true th arg now.
Definition tmr_continue tl p delay th arg now := tmr_startcont tl p delay false th arg now.
Definition tmr_cancel tl p now := tmr_start tl p 0 None None now.

Definition tmr_get_expire (p : ptr) (now : Z) (s : tstore) : option Z :=
  if isnull p then Some 0
  else
    t ← rd_tmr p s;
    Some (if isnull (t_th t) then 0 else if t_jfs t >? now then t_jfs t - now else 0).
Definition tmr_isrunning (p : ptr) (s : tstore) : option bool :=
  if isnull p then Some false else t ← rd_tmr p s; Some (negb (isnull (t_th t))).

(** The timer at the head of the list, through its element's data. *)
Definition first_timer (tl : ptr) (s : tstore) : option ptr :=
  e ← list_head tl (ts_heap s); list_ledata e (ts_heap s).

Definition tmr_next_timeout (tl : ptr) (now : Z) (s : tstore) : option Z :=
  if isnull tl then Some 0
  else
    p ← first_timer tl s;
    if isnull p then Some 0
    else t ← rd_tmr p s; Some (if t_jfs t <=? now then 1 else u64 (t_jfs t - now)).

Definition tmrl_count (tl : ptr) (s : tstore) : option Z :=
  if isnull tl then Some 0 else list_count tl (ts_heap s).

(** What a handler can do to the timers, with the time at which it does it. *)
Inductive tmr_act :=
  | AStart (p : nat) (delay : Z) (th : nat) (arg : ptr) (now : Z)
  | AContinue (p : nat) (delay : Z) (th : nat) (arg : ptr)
  | ACancel (p : nat).

Definition run_act (tl : ptr) (a : tmr_act) : tstore -> option tstore :=
  match a with
  | AStart p delay th arg now => tmr_start tl (Some p) delay (Some th) arg now
  | AContinue p delay th arg => tmr_continue tl (Some p) delay (Some th) arg 0
  | ACancel p => tmr_cancel tl (Some p) 0
  end.

Fixpoint run_acts (tl : ptr) (acts : list tmr_act) (s : tstore) : option tstore :=
  match acts with
  | [] => Some s
  | a :: acts => run_act tl a s ≫= run_acts tl acts
  end.

(** A timer that expires is taken off the list before its handler runs. *)
Definition take_timer (p : ptr) (s : tstore) : option tstore :=
  s ← upd_tmr p (set_th None) s;
  s ← on_heap (list_unlink p) s;
  upd_tmr p (set_llock None) s.

(** [tmr_poll] at the time [jfs]: the handlers called, in order, and the state
    they leave.  [handler th arg] is what a handler does in the state in which it
    is called. *)
Section poll.
Context (handler : nat -> ptr -> tstore -> list tmr_act).

Fixpoint poll_loop (fuel : nat) (tl : ptr) (jfs : Z) (s : tstore)
    : option (list (nat * ptr) * tstore) :=
  match fuel with
  | O => None
  | S fuel =>
      p ← first_timer tl s;
      if isnull p then Some ([], s)
      else
        t ← rd_tmr p s;
        if t_jfs t >? jfs then Some ([], s)
        else
          s ← take_timer p s;
          match t_th t with
          | None => poll_loop fuel tl jfs s
          | Some th =>
              s ← run_acts tl (handler th (t_arg t) s) s;
              '(calls, s) ← poll_loop fuel tl jfs s;
              Some ((th, t_arg t) :: calls, s)
          end
  end.

Definition tmr_poll (fuel : nat) (tl : ptr) (jfs : Z) (s : tstore)
    : option (list (nat * ptr) * tstore) :=
  if isnull tl then Some ([], s) else poll_loop fuel tl jfs s.
End poll.

(** [tmrl_destructor]: every timer forgets the lock, the list is cleared. *)
Fixpoint rls_loop (fuel : nat) (e : ptr) (s : tstore) : option tstore :=
  match fuel with
  | O => None
  | S fuel =>
      if isnull e then Some s
      else
        r ← rd_le e (ts_heap s);
        s ← upd_tmr (le_data r) (set_llock None) s;
        rls_loop fuel (le_next r) s
  end.
Definition tmrl_destructor (tl : ptr) (s : tstore) : option tstore :=
  e ← list_head tl (ts_heap s);
  s ← rls_loop (fuel_of (ts_heap s)) e s;
  on_heap (list_clear tl) s.

(** ** The active timers *)

Definition jfs_of (s : tstore) (a : nat) : Z := from_option t_jfs 0 (ts_tmr s !! a).

(** The timers [xs] are in the list at [tl], in this order: by time; each has a
    handler and is reached through the data of its element.  No other timer is
    linked anywhere. *)
Record timers (s : tstore) (tl : nat) (xs : list nat) : Prop := {
  tm_rep : exists A, arep (ts_heap s) A /\ a_lists A !! tl = Some xs /\
    forall a t, ts_tmr s !! a = Some t ->
      is_Some (a_data A !! a) /\ (linked A a = true -> a ∈ xs);
  tm_data a : a ∈ xs -> data_of (ts_heap s) a = Some a;
  tm_tmr a : a ∈ xs -> exists t, ts_tmr s !! a = Some t /\ t_th t <> None;
  tm_sorted : StronglySorted (fun x y => jfs_of s x <= jfs_of s y) xs }.

(** Ordered, and first in first out for equal times. *)
Definition enqueue (jfs : nat -> Z) (j : Z) (a : nat) (xs : list nat) : list nat :=
  insert_last (fun q => jfs q <=? j) a xs.
Definition dequeue (a : nat) (xs : list nat) : list nat := filter (fun x => x <> a) xs.

Lemma not_in_dequeue a xs : a ∉ dequeue a xs.
Proof. unfold dequeue. rewrite list_elem_of_filter. tauto. Qed.
Lemma dequeue_id a xs : a ∉ xs -> dequeue a xs = xs.
Proof. apply filter_id_out. Qed.

Lemma sorted_mono (R R' : nat -> nat -> Prop) xs :
  (forall x y, x ∈ xs -> y ∈ xs -> R x y -> R' x y) -> StronglySorted R xs -> StronglySorted R' xs.
Proof.
  intros H. induction 1 as [|x xs S IH F]; constructor.
  - apply IH. intros y z Hy Hz. apply H; by right.
  - rewrite Forall_forall in F |- *. intros y Hy. apply H; [left|by right|by apply F].
Qed.

Lemma sorted_filter (R : nat -> nat -> Prop) a xs :
  StronglySorted R xs -> StronglySorted R (dequeue a xs).
Proof.
  induction 1 as [|x xs S IH F]; [constructor|]. unfold dequeue. rewrite filter_cons.
  case_decide; [|done]. constructor; [done|]. rewrite Forall_forall in F |- *.
  intros y [_ Hy]%list_elem_of_filter. by apply F.
Qed.

(** A timer that is not active can be written to. *)
Lemma timers_upd s tl xs a t' :
  timers s tl xs -> a ∉ xs -> is_Some (ts_tmr s !! a) ->
  timers (TStore (ts_heap s) (<[a := t']> (ts_tmr s))) tl xs.
Proof.
  intros [(A & HA & Hl & HT) D T S] Ha [t0 Ht0]. split; cbn [ts_heap ts_tmr].
  - exists A. split_and!; [done|done|]. intros b t. rewrite lookup_insert.
    case_decide; [subst; intros _; by eapply HT|apply HT].
  - done.
  - intros b Hb. rewrite lookup_insert_ne by (intros ->; done). by apply T.
  - eapply sorted_mono; [|exact S]. intros x y Hx Hy. unfold jfs_of. cbn [ts_tmr].
    rewrite !lookup_insert_ne by (intros ->; done). done.
Qed.

Lemma timers_unlink s tl xs a :
  timers s tl xs -> is_Some (ts_tmr s !! a) ->
  exists h, list_unlink (Some a) (ts_heap s) = Some h /\
            timers (TStore h (ts_tmr s)) tl (dequeue a xs).
Proof.
  intros [(A & HA & Hl & HT) D T S] [t0 Ht0].
  destruct (unlink_refines _ _ _ HA (proj1 (HT _ _ Ht0))) as (h & E & HA' & L').
  exists h. split; [done|]. split; cbn [ts_heap ts_tmr].
  - exists (a_unlink a A). split_and!; [done| |].
    + cbn. by rewrite lookup_fmap, Hl.
    + intros b t Hb. destruct (HT b t Hb) as [Hd HL]. split; [done|]. intros Hlk.
      assert (b <> a) as Hne by (intros ->; congruence).
      apply list_elem_of_filter. split; [done|]. apply HL.
      apply linked_spec in Hlk as (l & ys & Hys & Hin). cbn in Hys. rewrite lookup_fmap in Hys.
      apply fmap_Some in Hys as (zs & Hzs & ->). apply list_elem_of_filter in Hin as [_ Hin].
      apply linked_spec. eauto.
  - intros b [_ Hb]%list_elem_of_filter. rewrite <- (arep_get _ _ _ HA'), <- (D b Hb).
    by rewrite <- (arep_get _ _ _ HA).
  - intros b [_ Hb]%list_elem_of_filter. by apply T.
  - apply sorted_filter. eapply sorted_mono; [|exact S]. done.
Qed.

(** *** Both ways of looking for the place find the same one *)

Lemma insert_last_mid f a x y :
  Forall (fun q => f q = true) x -> Forall (fun q => f q = false) y ->
  insert_last f a (x ++ y) = x ++ a :: y.
Proof.
  intros Hx Hy. induction x as [|z x IH] using rev_ind; [by apply insert_last_none|].
  apply Forall_app in Hx as [Hx Hz]. inversion Hz; subst. rewrite <- !app_assoc.
  by apply insert_last_split.
Qed.

Lemma sorted_app_r (R : nat -> nat -> Prop) x y :
  StronglySorted R (x ++ y) -> StronglySorted R y.
Proof. induction x as [|z x IH]; [done|]. inversion 1; auto. Qed.

Lemma timers_unlinked s tl xs a :
  timers s tl xs -> is_Some (ts_tmr s !! a) -> a ∉ xs -> unlinked (ts_heap s) a.
Proof.
  intros [(A & HA & Hl & HT) _ _ _] [t0 Ht0] Ha. destruct (HT _ _ Ht0) as [? HL].
  eapply arep_unlinked; eauto. destruct (linked A a) eqn:L; [|done]. by destruct Ha; apply HL.
Qed.

(** What the handlers of [list_apply] see. *)
Lemma timers_rd s tl xs q :
  timers s tl xs -> q ∈ xs -> exists t, rd_tmr (data_of (ts_heap s) q) s = Some t /\ t_jfs t = jfs_of s q.
Proof.
  intros TM Hq. rewrite (tm_data _ _ _ TM q Hq). cbn.
  destruct (tm_tmr _ _ _ TM q Hq) as (t & Ht & _). unfold jfs_of. rewrite Ht. eauto.
Qed.

(** The place of [a] and the memory once it is there. *)
Definition placed (s : tstore) (tl : nat) (xs : list nat) (a : nat) (j : Z) (h : heap) : Prop :=
  exists x y, xs = x ++ y /\ enqueue (jfs_of s) j a xs = x ++ a :: y /\
    inserted (ts_heap s) tl x a y (Some a) h.

Lemma place_zero s tl xs a j :
  timers s tl xs -> is_Some (ts_tmr s !! a) -> a ∉ xs ->
  exists h, placed s tl xs a j h /\
    (e ← list_apply (Some tl) true (inspos_handler_0 s j) (ts_heap s);
     if negb (isnull e) then on_heap (list_insert_before (Some tl) e (Some a) (Some a)) s
     else on_heap (list_append (Some tl) (Some a) (Some a)) s) = Some (TStore h (ts_tmr s)).
Proof.
  intros TM Ht Ha. pose proof (timers_unlinked _ _ _ _ TM Ht Ha) as U.
  pose proof TM as [(A & HA & Hl & _) _ _ S]. set (f := fun q => jfs_of s q <=? j).
  rewrite (list_apply_find _ _ _ xs _ (fun q => negb (f q)) true (proj1 HA) Hl).
  2: { intros q Hq. unfold inspos_handler_0. destruct (timers_rd _ _ _ _ TM Hq) as (t & -> & E).
       cbn [mbind option_bind]. by rewrite E, Z.gtb_ltb, Z.ltb_antisym. }
  cbn [mbind option_bind]. pose proof (find_split (fun q => negb (f q)) xs) as F.
  assert (forall l, Forall (fun q => negb (f q) = false) l -> Forall (fun q => f q = true) l) as NF.
  { intros l H. eapply Forall_impl; [exact H|]. by intros ? ?%negb_false_iff. }
  destruct (List.find _ xs) as [p|]; cbn [isnull negb]; unfold on_heap.
  - destruct F as (x & y & -> & Hp & Hx).
    destruct (list_insert_before_inserted _ _ _ _ _ _ _ (Some a) (proj1 HA) Hl U) as (h & E & I).
    exists h. split; [|by rewrite E]. exists x, (p :: y). split_and!; [done| |done].
    apply insert_last_mid; [by apply NF|]. apply negb_true_iff in Hp. constructor; [done|].
    apply sorted_app_r in S. inversion S as [|? ? _ Sp]; subst.
    eapply Forall_impl; [exact Sp|]. unfold f in *. intros q Hq. cbn in Hq.
    apply Z.leb_gt in Hp. apply Z.leb_gt. lia.
  - destruct (list_append_inserted _ _ _ _ _ (Some a) (proj1 HA) Hl U) as (h & E & I).
    exists h. split; [|by rewrite E]. exists xs, []. rewrite app_nil_r. split_and!; [done| |done].
    unfold enqueue. rewrite <- (app_nil_r xs) at 1.
    apply insert_last_mid; [by apply NF|constructor].
Qed.

Lemma place_delay s tl xs a j :
  timers s tl xs -> is_Some (ts_tmr s !! a) -> a ∉ xs ->
  exists h, placed s tl xs a j h /\
    (e ← list_apply (Some tl) false (inspos_handler s j) (ts_heap s);
     if negb (isnull e) then on_heap (list_insert_after (Some tl) e (Some a) (Some a)) s
     else on_heap (list_prepend (Some tl) (Some a) (Some a)) s) = Some (TStore h (ts_tmr s)).
Proof.
  intros TM Ht Ha. pose proof (timers_unlinked _ _ _ _ TM Ht Ha) as U.
  pose proof TM as [(A & HA & Hl & _) _ _ S]. set (f := fun q => jfs_of s q <=? j).
  rewrite (list_apply_find _ _ _ xs _ f false (proj1 HA) Hl).
  2: { intros q Hq. unfold inspos_handler. destruct (timers_rd _ _ _ _ TM Hq) as (t & -> & E).
       cbn [mbind option_bind]. by rewrite E. }
  cbn [mbind option_bind]. pose proof (find_reverse_split f xs) as F.
  destruct (List.find _ (reverse xs)) as [p|]; cbn [isnull negb]; unfold on_heap.
  - destruct F as (x & y & -> & Hp & Hx).
    destruct (list_insert_after_inserted _ _ _ _ _ _ _ (Some a) (proj1 HA) Hl U) as (h & E & I).
    exists h. split; [|by rewrite E]. exists (x ++ [p]), y. rewrite <- !app_assoc.
    split_and!; [done| |done]. by apply insert_last_split.
  - destruct (list_prepend_inserted _ _ _ _ _ (Some a) (proj1 HA) Hl U) as (h & E & I).
    exists h. split; [|by rewrite E]. exists [], xs. split_and!; [done| |done].
    by apply insert_last_none.
Qed.

Lemma timers_placed s tl xs a j h t :
  timers s tl xs -> a ∉ xs -> ts_tmr s !! a = Some t -> t_jfs t = j -> t_th t <> None ->
  placed s tl xs a j h -> timers (TStore h (ts_tmr s)) tl (enqueue (jfs_of s) j a xs).
Proof.
  intros TM Ha Ht Hj Hth (x & y & -> & Hq & I).
  pose proof (timers_unlinked _ _ _ _ TM (mk_is_Some _ _ Ht) Ha) as U.
  pose proof TM as [(A & HA & Hl & HT) D T S].
  assert (linked A a = false) as L.
  { destruct (linked A a) eqn:L; [|done]. by destruct Ha; apply (HT _ _ Ht). }
  pose proof (a_insert_refines _ _ _ _ _ (enqueue (jfs_of s) j a) _ _ _ HA Hl U L I Hq) as HA'.
  assert (forall b, b ∈ enqueue (jfs_of s) j a (x ++ y) <-> b = a \/ b ∈ x ++ y) as EL.
  { intros b. rewrite Hq. rewrite !elem_of_app, elem_of_cons. tauto. }
  split; cbn [ts_heap ts_tmr].
  - eexists. split_and!; [exact HA'| |]; unfold a_insert; rewrite L; cbn [a_lists a_data].
    + by rewrite (lookup_alter_eq _ _ _), Hl.
    + intros b t' Hb. rewrite lookup_insert. split; [case_decide; [by eexists|by eapply HT]|].
      intros (l & zs & Hz & Hin)%linked_spec. apply EL. cbn in Hz.
      rewrite lookup_alter in Hz. case_decide as Hd.
      * subst l. rewrite Hl in Hz. injection Hz as <-. by apply EL.
      * right. apply (HT _ _ Hb). apply linked_spec. eauto.
  - intros b Hb. pose proof (ins_le _ _ _ _ _ _ _ I b) as EE. unfold data_of. rewrite EE.
    apply EL in Hb. case_decide as Hd; [by subst|]. destruct Hb as [|Hb]; [done|].
    rewrite <- (D b Hb). unfold data_of. by destruct (h_le (ts_heap s) !! b).
  - intros b [->|Hb]%EL; [by eauto|by apply T].
  - assert (jfs_of s a = j) as Ja by (unfold jfs_of; by rewrite Ht).
    apply insert_last_sorted.
    + intros z _ Hz. apply Z.leb_le in Hz. unfold jfs_of in *. cbn [ts_tmr] in *. lia.
    + intros z _ Hz. apply Z.leb_gt in Hz. unfold jfs_of in *. cbn [ts_tmr] in *. lia.
    + intros z w Hzw Hw. apply Z.leb_le in Hw. apply Z.leb_le. unfold jfs_of in *. cbn [ts_tmr] in *. lia.
    + done.
Qed.

(** *** Starting and cancelling *)

Lemma enqueue_ext jfs jfs' j a xs :
  (forall q, q ∈ xs -> jfs q = jfs' q) -> enqueue jfs j a xs = enqueue jfs' j a xs.
Proof.
  unfold enqueue. induction xs as [|x xs IH]; intros H; [done|]. simpl.
  assert (existsb (fun q => jfs q <=? j) xs = existsb (fun q => jfs' q <=? j) xs) as ->.
  { clear IH. assert (forall q, q ∈ xs -> jfs q = jfs' q) as H' by (intros; apply H; by right).
    clear H. induction xs as [|y xs IH]; [done|]. simpl. rewrite H' by left. f_equal.
    apply IH. intros. apply H'. by right. }
  rewrite (H x) by left. rewrite IH; [done|]. intros. apply H. by right.
Qed.

(** The first part of [tmr_startcont]: whatever the timer was doing is over. *)
Lemma stop_first s tl xs a t :
  timers s tl xs -> ts_tmr s !! a = Some t ->
  exists h, (if isnull (t_th t) then Some s else on_heap (list_unlink (Some a)) s)
            = Some (TStore h (ts_tmr s)) /\ timers (TStore h (ts_tmr s)) tl (dequeue a xs).
Proof.
  intros TM Ht. destruct (t_th t) eqn:Hth; cbn [isnull].
  - destruct (timers_unlink _ _ _ a TM) as (h & E & TM'); [by eexists|].
    exists h. unfold on_heap. rewrite E. by split.
  - exists (ts_heap s). rewrite dequeue_id; [by destruct s|].
    intros Ha. destruct (tm_tmr _ _ _ TM a Ha) as (t' & Ht' & ?). congruence.
Qed.

Lemma upd_tmr_first h m a f t :
  m !! a = Some t -> upd_tmr (Some a) f (TStore h m) = Some (TStore h (<[a := f t]> m)).
Proof. intros H. cbn [upd_tmr mbind option_bind ts_tmr]. by rewrite H. Qed.
Lemma upd_tmr_hit h m a f v :
  upd_tmr (Some a) f (TStore h (<[a := v]> m)) = Some (TStore h (<[a := f v]> m)).
Proof. rewrite (upd_tmr_first _ _ _ _ v) by apply lookup_insert_eq. by rewrite insert_insert_eq. Qed.

Lemma startcont_refines s tl xs a t delay sync th arg now :
  timers s tl xs -> ts_tmr s !! a = Some t ->
  let j := u64 ((if (sync : bool) then now else t_jfs t) + delay) in
  exists s', tmr_startcont (Some tl) (Some a) delay sync (Some th) arg now s = Some s' /\
    timers s' tl (enqueue (jfs_of s) j a (dequeue a xs)) /\
    ts_tmr s' = <[a := Tmr (Some tl) (Some th) arg j]> (ts_tmr s).
Proof.
  intros TM Ht j. unfold tmr_startcont. cbn [isnull orb rd_tmr mbind option_bind]. rewrite Ht.
  cbn [mbind option_bind]. destruct (stop_first _ _ _ _ _ TM Ht) as (h & -> & TM1).
  cbn [mbind option_bind]. rewrite (upd_tmr_first _ _ _ _ t) by done.
  do 2 (cbn [mbind option_bind]; rewrite upd_tmr_hit). cbn [mbind option_bind].
  match goal with |- context [TStore h (<[a := ?v]> _)] => set (v0 := v) end.
  replace (if sync then upd_tmr _ _ _ else Some _)
    with (Some (TStore h (<[a := if sync then set_jfs now v0 else v0]> (ts_tmr s))))
    by (destruct sync; [by rewrite upd_tmr_hit|done]).
  cbn [mbind option_bind]. rewrite upd_tmr_hit. cbn [mbind option_bind rd_tmr ts_tmr].
  rewrite lookup_insert_eq. cbn [fmap option_fmap option_map mbind option_bind].
  set (tn := set_jfs _ _). assert (tn = Tmr (Some tl) (Some th) arg j) as -> by (by destruct sync).
  cbn [t_jfs]. clear v0.
  pose proof (timers_upd _ _ _ a (Tmr (Some tl) (Some th) arg j) TM1 (not_in_dequeue a xs)) as TM2.
  cbn [ts_tmr ts_heap] in TM2. specialize (TM2 (mk_is_Some _ _ Ht)).
  set (s2 := TStore h (<[a := _]> _)) in *.
  assert (ts_tmr s2 !! a = Some (Tmr (Some tl) (Some th) arg j)) as Ht2 by (apply lookup_insert_eq).
  assert (exists h', placed s2 tl (dequeue a xs) a j h' /\
    (if delay =? 0 then
        e ← list_apply (Some tl) true (inspos_handler_0 s2 j) (ts_heap s2);
        if negb (isnull e) then on_heap (list_insert_before (Some tl) e (Some a) (Some a)) s2
        else on_heap (list_append (Some tl) (Some a) (Some a)) s2
      else
        e ← list_apply (Some tl) false (inspos_handler s2 j) (ts_heap s2);
        if negb (isnull e) then on_heap (list_insert_after (Some tl) e (Some a) (Some a)) s2
        else on_heap (list_prepend (Some tl) (Some a) (Some a)) s2) = Some (TStore h' (ts_tmr s2)))
    as (h' & P & E).
  { destruct (delay =? 0); [apply place_zero|apply place_delay]; eauto using not_in_dequeue. }
  exists (TStore h' (ts_tmr s2)). split_and!; [exact E| |done].
  rewrite (enqueue_ext (jfs_of s) (jfs_of s2)).
  - eapply timers_placed; eauto using not_in_dequeue.
  - intros q [Hq _]%list_elem_of_filter. unfold jfs_of, s2. cbn [ts_tmr].
    by rewrite lookup_insert_ne.
Qed.

Lemma cancel_refines s tl xs a t now :
  timers s tl xs -> ts_tmr s !! a = Some t ->
  exists s', tmr_cancel (Some tl) (Some a) now s = Some s' /\ timers s' tl (dequeue a xs) /\
    ts_tmr s' = <[a := set_llock None t]> (ts_tmr s).
Proof.
  intros TM Ht. unfold tmr_cancel, tmr_start, tmr_startcont.
  cbn [isnull orb rd_tmr mbind option_bind]. rewrite Ht.
  cbn [mbind option_bind]. destruct (stop_first _ _ _ _ _ TM Ht) as (h & -> & TM1).
  cbn [mbind option_bind]. rewrite (upd_tmr_first _ _ _ _ t) by done. eexists. split_and!; [done| |done].
  apply (timers_upd (TStore h (ts_tmr s))); [done|apply not_in_dequeue|by eexists].
Qed.

(** ** The ordered queue that the timers implement *)

Definition target (a : tmr_act) : nat :=
  match a with AStart p _ _ _ _ | AContinue p _ _ _ | ACancel p => p end.

(** The active timers in order, and the fields of all timers. *)
Definition queue : Type := list nat * gmap nat tmr.
Definition jfs_in (m : gmap nat tmr) (a : nat) : Z := from_option t_jfs 0 (m !! a).

Definition q_start (tl p : nat) (j : Z) (th : nat) (arg : ptr) (q : queue) : queue :=
  (enqueue (jfs_in q.2) j p (dequeue p q.1), <[p := Tmr (Some tl) (Some th) arg j]> q.2).

Definition spec_act (tl : nat) (a : tmr_act) (q : queue) : queue :=
  match a with
  | AStart p delay th arg now => q_start tl p (u64 (now + delay)) th arg q
  | AContinue p delay th arg => q_start tl p (u64 (jfs_in q.2 p + delay)) th arg q
  | ACancel p => (dequeue p q.1, alter (set_llock None) p q.2)
  end.

Lemma act_refines tl a s xs :
  timers s tl xs -> is_Some (ts_tmr s !! target a) ->
  exists s', run_act (Some tl) a s = Some s' /\
    timers s' tl (spec_act tl a (xs, ts_tmr s)).1 /\ ts_tmr s' = (spec_act tl a (xs, ts_tmr s)).2.
Proof.
  intros TM [t Ht]. destruct a as [p delay th arg now|p delay th arg|p]; cbn [target] in Ht.
  - apply (startcont_refines _ _ _ _ _ delay true th arg now TM Ht).
  - destruct (startcont_refines _ _ _ _ _ delay false th arg 0 TM Ht) as (s' & E & TM' & E').
    exists s'. cbn [run_act spec_act q_start fst snd].
    assert (jfs_in (ts_tmr s) p = t_jfs t) as -> by (unfold jfs_in; by rewrite Ht). by split.
  - destruct (cancel_refines _ _ _ _ _ 0 TM Ht) as (s' & E & TM' & E').
    exists s'. split_and!; [done|done|]. rewrite E'. symmetry. by apply alter_alt_Some.
Qed.

Lemma spec_act_dom tl a q p : is_Some (q.2 !! p) -> is_Some ((spec_act tl a q).2 !! p).
Proof.
  intros H. destruct a; cbn [spec_act q_start snd];
    rewrite ?lookup_insert, ?lookup_alter; case_decide; subst; eauto.
  by apply fmap_is_Some.
Qed.

(** C22. Timers implement an ordered queue: after any sequence of starts,
    continuations and cancellations of existing timers (also of active ones, with
    or without a delay) the list holds exactly the active timers in order of
    expiry, timers with the same time in the order in which they were started --
    although the code looks for the place from the front when the delay is zero
    and from the back otherwise. *)
Theorem timers_refine_queue tl acts s xs :
  timers s tl xs -> Forall (fun a => is_Some (ts_tmr s !! target a)) acts ->
  let q := foldl (fun q a => spec_act tl a q) (xs, ts_tmr s) acts in
  exists s', run_acts (Some tl) acts s = Some s' /\ timers s' tl q.1 /\ ts_tmr s' = q.2.
Proof.
  revert s xs. induction acts as [|a acts IH]; intros s xs TM F; [by exists s|].
  inversion F as [|? ? Ha Fa]; subst.
  destruct (act_refines tl a s xs TM Ha) as (s1 & E1 & TM1 & M1).
  destruct (IH s1 _ TM1) as (s' & E & TM' & M').
  { eapply Forall_impl; [exact Fa|]. intros b Hb. cbn in *. rewrite M1. by apply spec_act_dom. }
  exists s'. cbn [run_acts foldl]. rewrite E1. cbn [mbind option_bind].
  rewrite M1, <- surjective_pairing in *. by split.
Qed.

(** ** Polling *)

Definition due (t0 : Z) (s : tstore) (xs : list nat) : list nat :=
  List.filter (fun q => jfs_of s q <=? t0) xs.

(** A handler that asks for a delay from a clock that does not run backwards,
    or cancels a timer. *)
Definition act_later (t0 : Z) (s : tstore) (a : tmr_act) : Prop :=
  is_Some (ts_tmr s !! target a) /\
  match a with
  | AStart _ delay _ _ now => 1 <= delay /\ 0 <= now /\ t0 <= now /\ now + delay < 18446744073709551616
  | AContinue _ _ _ _ => False
  | ACancel _ => True
  end.

Lemma filter_ext_in (f g : nat -> bool) xs :
  (forall x, x ∈ xs -> f x = g x) -> List.filter f xs = List.filter g xs.
Proof.
  induction xs as [|x xs IH]; intros H; simpl; [done|].
  rewrite (H x) by left. rewrite IH; [done|]. intros. apply H. by right.
Qed.

Lemma filter_dequeue f a xs : List.filter f (dequeue a xs) = dequeue a (List.filter f xs).
Proof.
  unfold dequeue. induction xs as [|x xs IH]; [done|]. rewrite filter_cons.
  cbn [List.filter]. destruct (f x) eqn:Fx; rewrite ?filter_cons; case_decide;
    cbn [List.filter]; rewrite ?Fx, ?IH; done.
Qed.

Lemma filter_insert_last g f a xs :
  g a = false -> List.filter g (insert_last f a xs) = List.filter g xs.
Proof.
  intros G. induction xs as [|x xs IH]; simpl; [by rewrite G|].
  destruct (f x || existsb f xs); simpl; [by rewrite IH|by rewrite G].
Qed.

(** Such an action takes its timer from the due ones and adds none. *)
Lemma act_due tl t0 a s xs :
  timers s tl xs -> act_later t0 s a ->
  exists s' xs', run_act (Some tl) a s = Some s' /\ timers s' tl xs' /\
    due t0 s' xs' = dequeue (target a) (due t0 s xs) /\
    (forall q, q <> target a -> ts_tmr s' !! q = ts_tmr s !! q) /\
    (forall q, is_Some (ts_tmr s !! q) -> is_Some (ts_tmr s' !! q)).
Proof.
  intros TM [Ht L]. destruct (act_refines tl a s xs TM Ht) as (s' & E & TM' & M').
  exists s', (spec_act tl a (xs, ts_tmr s)).1.
  assert (forall q, q <> target a -> ts_tmr s' !! q = ts_tmr s !! q) as O.
  { intros q Hq. rewrite M'. destruct a; cbn in *; by rewrite ?lookup_insert_ne, ?lookup_alter_ne by done. }
  split_and!; [done|done| |done|].
  - unfold due. assert (forall ys, target a ∉ ys ->
      List.filter (fun q => jfs_of s' q <=? t0) ys = List.filter (fun q => jfs_of s q <=? t0) ys) as X.
    { intros ys Hys. apply filter_ext_in. intros x Hx. unfold jfs_of. rewrite O; [done|].
      by intros ->. }
    destruct a as [p delay th arg now| |p]; cbn [target spec_act q_start fst] in *; [| done|].
    + unfold enqueue. rewrite filter_insert_last, X, filter_dequeue; [done|apply not_in_dequeue|].
      unfold jfs_of. rewrite M'. cbn. rewrite lookup_insert_eq. cbn.
      apply Z.leb_gt. unfold u64. rewrite Z.mod_small; lia.
    + rewrite X, filter_dequeue; [done|apply not_in_dequeue].
  - intros q Hq. rewrite M'. by apply spec_act_dom.
Qed.

Lemma act_later_stable t0 s s' a :
  (forall q, is_Some (ts_tmr s !! q) -> is_Some (ts_tmr s' !! q)) ->
  act_later t0 s a -> act_later t0 s' a.
Proof. intros H [H1 H2]. split; auto. Qed.

Lemma acts_due tl t0 acts : forall s xs,
  timers s tl xs -> Forall (act_later t0 s) acts ->
  exists s' xs', run_acts (Some tl) acts s = Some s' /\ timers s' tl xs' /\
    due t0 s' xs' = foldl (fun d a => dequeue (target a) d) (due t0 s xs) acts /\
    (forall q, q ∈ due t0 s' xs' -> ts_tmr s' !! q = ts_tmr s !! q) /\
    (forall q, is_Some (ts_tmr s !! q) -> is_Some (ts_tmr s' !! q)).
Proof.
  induction acts as [|a acts IH]; intros s xs TM F; [by exists s, xs|].
  inversion F as [|? ? Ha Fa]; subst.
  destruct (act_due tl t0 a s xs TM Ha) as (s1 & xs1 & E1 & TM1 & D1 & O1 & S1).
  destruct (IH s1 xs1 TM1) as (s' & xs' & E & TM' & D & O & S').
  { eapply Forall_impl; [exact Fa|]. intros b. by apply act_later_stable. }
  exists s', xs'. cbn [run_acts foldl]. rewrite E1. split_and!; [done|done|by rewrite D, D1| |auto].
  intros q Hq. rewrite (O q Hq). apply O1. intros ->. rewrite D, D1 in Hq.
  assert (forall l, target a ∉ l -> target a ∉ foldl (fun d a => dequeue (target a) d) l acts) as X.
  { clear. induction acts as [|b acts IH]; intros l Hl; [done|]. cbn. apply IH.
    unfold dequeue. rewrite list_elem_of_filter. tauto. }
  by apply X in Hq; [|apply not_in_dequeue].
Qed.

Lemma first_timer_head s tl xs :
  timers s tl xs -> first_timer (Some tl) s = Some (head xs).
Proof.
  intros [(A & HA & Hl & _) D _ _]. unfold first_timer, list_head. cbn [isnull rd_list mbind option_bind].
  rewrite (il_list _ _ _ (rep_lists _ _ (proj1 HA) _ _ Hl)). cbn [fmap option_fmap option_map mbind option_bind l_head].
  destruct xs as [|a xs]; [done|]. cbn [head list_ledata isnull rd_le mbind option_bind].
  destruct (rep_elem _ _ _ _ a (proj1 HA) Hl) as (r & Hr & _); [left|].
  specialize (D a (list_elem_of_here _ _)). unfold data_of in D. rewrite Hr in D |- *. cbn in *.
  by rewrite D.
Qed.

(** The handler and argument of an active timer. *)
Definition call_of (s : tstore) (a : nat) : nat * ptr :=
  from_option (fun t => (default 0%nat (t_th t), t_arg t)) (0%nat, None) (ts_tmr s !! a).

Lemma due_cons t0 s tl a xs :
  timers s tl (a :: xs) ->
  due t0 s (a :: xs) = if jfs_of s a <=? t0 then a :: due t0 s xs else [].
Proof.
  intros TM. unfold due. simpl. destruct (Z.leb_spec (jfs_of s a) t0); [done|].
  pose proof (tm_sorted _ _ _ TM) as S. inversion S as [|? ? _ F]; subst.
  clear -F H. induction F as [|x xs Hx F IH]; simpl; [done|].
  destruct (Z.leb_spec (jfs_of s x) t0); [lia|done].
Qed.

Lemma timers_nodup s tl xs : timers s tl xs -> NoDup xs.
Proof.
  intros TM. destruct (tm_rep _ _ _ TM) as (A & HA & Hl & _).
  apply (il_nodup _ _ _ (rep_lists _ _ (proj1 HA) _ _ Hl)).
Qed.

(** Taking the first timer off the list before its handler runs. *)
Lemma pop_first s tl a xs t :
  timers s tl (a :: xs) -> ts_tmr s !! a = Some t ->
  exists s', take_timer (Some a) s = Some s' /\ timers s' tl xs /\
    (forall q, q <> a -> ts_tmr s' !! q = ts_tmr s !! q) /\
    (forall q, is_Some (ts_tmr s !! q) -> is_Some (ts_tmr s' !! q)).
Proof.
  intros TM Ht. destruct (timers_unlink _ _ _ a TM (mk_is_Some _ _ Ht)) as (h & E & TM1).
  destruct s as [h0 m]. cbn [ts_heap ts_tmr] in *.
  unfold take_timer. rewrite (upd_tmr_first _ _ _ _ t) by done.
  cbn [mbind option_bind]. unfold on_heap. cbn [ts_heap ts_tmr]. rewrite E. cbn [mbind option_bind].
  rewrite upd_tmr_hit. eexists. split; [done|].
  assert (a ∉ xs /\ dequeue a (a :: xs) = xs) as [Ha Hd].
  { pose proof (timers_nodup _ _ _ TM) as N.
    apply NoDup_cons in N as [N _]. split; [done|]. unfold dequeue.
    rewrite filter_cons_False by tauto. by apply filter_id_out. }
  rewrite Hd in TM1. split_and!; cbn [ts_tmr].
  - apply (timers_upd (TStore h m)); [done|done|by eexists].
  - intros q Hq. by rewrite lookup_insert_ne.
  - intros q Hq. rewrite lookup_insert. case_decide; [by eexists|done].
Qed.

Lemma due_rest t0 s s1 tl a xs :
  timers s tl (a :: xs) -> (forall q, q <> a -> ts_tmr s1 !! q = ts_tmr s !! q) ->
  due t0 s1 xs = due t0 s xs /\ a ∉ due t0 s xs.
Proof.
  intros TM O1. pose proof (timers_nodup _ _ _ TM) as N. apply NoDup_cons in N as [N _]. split.
  - apply filter_ext_in. intros x Hx. unfold jfs_of. rewrite O1; [done|]. by intros ->.
  - unfold due. rewrite list_elem_of_In, filter_In. intros [H _]. by apply list_elem_of_In in H.
Qed.

Section poll_proofs.
Context (handler : nat -> ptr -> tstore -> list tmr_act) (t0 : Z).

(** Every handler, in every state that has the timers of [s]. *)
Definition handlers_ask_delay (s : tstore) : Prop :=
  forall th arg s', (forall q, is_Some (ts_tmr s !! q) -> is_Some (ts_tmr s' !! q)) ->
    Forall (act_later t0 s') (handler th arg s').

(** The handlers of the timers [ds] act on their own timer only. *)
Definition own_timer_only (s : tstore) (ds : list nat) : Prop :=
  forall a s', a ∈ ds -> Forall (fun act => target act = a)
    (handler (call_of s a).1 (call_of s a).2 s').

Lemma dequeue_own a acts ds :
  a ∉ ds -> Forall (fun act => target act = a) acts ->
  foldl (fun d act => dequeue (target act) d) ds acts = ds.
Proof.
  intros Ha F. revert ds Ha. induction F as [|act acts <- F IH]; intros ds Ha; [done|].
  cbn. rewrite dequeue_id by done. by apply IH.
Qed.

Lemma dequeue_all_sublist acts ds :
  foldl (fun d act => dequeue (target act) d) ds acts `sublist_of` ds.
Proof.
  revert ds. induction acts as [|act acts IH]; intros ds; [done|]. cbn.
  etrans; [apply IH|]. unfold dequeue. clear. induction ds as [|x ds IH]; [done|].
  rewrite filter_cons. case_decide; [by apply sublist_skip|by apply sublist_cons].
Qed.

Lemma map_call_ext s s' (ds : list nat) :
  (forall q, q ∈ ds -> ts_tmr s' !! q = ts_tmr s !! q) -> call_of s' <$> ds = call_of s <$> ds.
Proof.
  intros H. apply list_fmap_ext. intros i q Hq. unfold call_of.
  rewrite H; [done|]. by eapply list_elem_of_lookup_2.
Qed.

Lemma poll_loop_fires tl fuel : forall s xs,
  timers s tl xs -> handlers_ask_delay s -> (length (due t0 s xs) < fuel)%nat ->
  exists fired s' xs', poll_loop handler fuel (Some tl) t0 s = Some (call_of s <$> fired, s') /\
    timers s' tl xs' /\ due t0 s' xs' = [] /\ fired `sublist_of` due t0 s xs /\
    (own_timer_only s (due t0 s xs) -> fired = due t0 s xs).
Proof.
  induction fuel as [|fuel IH]; intros s xs TM HD F; [lia|]. cbn [poll_loop].
  rewrite (first_timer_head _ _ _ TM). cbn [mbind option_bind]. destruct xs as [|a xs].
  { exists [], s, []. by split_and!. }
  cbn [head isnull]. rewrite (due_cons _ _ _ _ _ TM) in F |- *.
  destruct (tm_tmr _ _ _ TM a (list_elem_of_here _ _)) as (t & Ht & Hth).
  assert (jfs_of s a = t_jfs t) as Ej by (unfold jfs_of; by rewrite Ht). rewrite Ej in *.
  cbn [rd_tmr mbind option_bind]. rewrite Ht. cbn [mbind option_bind].
  rewrite Z.gtb_ltb, Z.ltb_antisym. destruct (t_jfs t <=? t0) eqn:Dd; cbn [negb].
  2: { exists [], s, (a :: xs). rewrite (due_cons _ _ _ _ _ TM), Ej, Dd. by split_and!. }
  destruct (pop_first _ _ _ _ _ TM Ht) as (s1 & E1 & TM1 & O1 & S1).
  rewrite E1. cbn [mbind option_bind]. destruct (t_th t) as [th|] eqn:Hth'; [|done].
  assert (call_of s a = (th, t_arg t)) as Ec by (unfold call_of; by rewrite Ht; cbn; rewrite Hth').
  assert (due t0 s1 xs = due t0 s xs /\ a ∉ due t0 s xs) as [Ed Ha].
  { eapply due_rest; eauto. }
  destruct (acts_due tl t0 (handler th (t_arg t) s1) s1 xs TM1 (HD th (t_arg t) s1 S1))
    as (s2 & xs2 & E2 & TM2 & D2 & O2 & S2).
  rewrite E2. cbn [mbind option_bind].
  destruct (IH s2 xs2 TM2) as (fired & s' & xs' & E & TM' & D' & Sub & Own).
  { intros th' arg' s3 H3. apply HD. auto. }
  { rewrite D2. pose proof (sublist_length _ _ (dequeue_all_sublist (handler th (t_arg t) s1) (due t0 s1 xs))).
    rewrite Ed in *. simpl in F. lia. }
  assert (call_of s2 <$> fired = call_of s <$> fired) as Ef.
  { apply map_call_ext. intros q Hq. apply (elem_of_sublist _ _ _ Hq) in Sub as Hq2.
    rewrite (O2 q Hq2). apply O1. intros ->. rewrite D2, Ed in Hq2.
    by eapply elem_of_sublist in Hq2; [|apply dequeue_all_sublist]. }
  rewrite E. cbn [mbind option_bind]. exists (a :: fired), s', xs'. cbn [fmap list_fmap].
  rewrite Ec, <- Ef. split_and!; [done|done|done| |].
  - apply sublist_skip. etrans; [exact Sub|]. rewrite D2, Ed. apply dequeue_all_sublist.
  - intros OT. assert (due t0 s2 xs2 = due t0 s xs) as Eq.
    { rewrite D2, Ed. apply (dequeue_own a); [done|].
      specialize (OT a s1 (list_elem_of_here _ _)). by rewrite Ec in OT. }
    f_equal. rewrite <- Eq. apply Own. rewrite Eq. intros b s3 Hb.
    assert (call_of s2 b = call_of s b) as ->; [|apply OT; by right].
    unfold call_of. rewrite O2 by (by rewrite Eq). rewrite O1; [done|]. by intros ->.
Qed.
End poll_proofs.

(** C23. A poll ends, as long as handlers that restart a timer ask for at least
    one millisecond from a clock that does not run backwards (they may start,
    restart and cancel any timers otherwise): one round per timer that was due is
    enough.  Afterwards nothing is due.  The handlers called are handlers of
    timers that were due when the poll began, in the order of expiry and none
    twice; when the handlers touch no timer but their own, as the media timers
    do, every due timer fires exactly once. *)
Theorem tmr_poll_terminates handler t0 tl fuel s xs :
  timers s tl xs -> handlers_ask_delay handler t0 s -> (length xs < fuel)%nat ->
  exists fired s' xs',
    tmr_poll handler fuel (Some tl) t0 s = Some (call_of s <$> fired, s') /\
    timers s' tl xs' /\ due t0 s' xs' = [] /\ fired `sublist_of` due t0 s xs /\
    (own_timer_only handler s (due t0 s xs) -> fired = due t0 s xs).
Proof.
  intros TM HD F. apply poll_loop_fires; [done|done|].
  pose proof (List.filter_length_le (fun q => jfs_of s q <=? t0) xs). unfold due. lia.
Qed.

(** Timers that have been initialised and not started. *)
Lemma initial_timers h m tl :
  arep h (initial h) -> is_Some (h_list h !! tl) ->
  (forall a, is_Some (m !! a) -> is_Some (h_le h !! a)) -> timers (TStore h m) tl [].
Proof.
  intros HA [t Ht] Hm. split; cbn [ts_heap ts_tmr]; try (by intros ? ?%not_elem_of_nil); [|constructor].
  exists (initial h). split_and!; [done|cbn; by rewrite lookup_fmap, Ht|].
  intros a t' Ha. split; [apply (arep_alloc _ _ _ HA), Hm; eauto|].
  intros (l & xs & Hl & Hin)%linked_spec. cbn in Hl. rewrite lookup_fmap in Hl.
  apply fmap_Some in Hl as (? & _ & ->). done.
Qed.

(** Two media timers, started at time 1000 with 20 and 66 milliseconds, and a
    handler that starts its timer again. *)
Definition demo_timers : tstore :=
  TStore demo_heap (list_to_map [(10, Tmr None None None 0); (11, Tmr None None None 0)]%nat).
Definition demo_starts : list tmr_act :=
  [AStart 11 66 2 (Some 11%nat) 1000; AStart 10 20 1 (Some 10%nat) 1000].
Definition demo_handler (th : nat) (arg : ptr) (s : tstore) : list tmr_act :=
  match arg with
  | Some a => match ts_tmr s !! a with Some _ => [AStart a 20 th arg 1100] | None => [] end
  | None => []
  end.

Lemma demo_timers_empty : timers demo_timers 1 [].
Proof.
  apply initial_timers; [exact demo_arep|by eexists|].
  intros a [t Ha]. cbn in Ha.
  repeat (apply lookup_insert_Some in Ha as [[<- _]|[_ Ha]]; [by eexists|]). done.
Qed.

Lemma timers_refine_queue_witness :
  exists s', run_acts (Some 1%nat) demo_starts demo_timers = Some s' /\
    timers s' 1 [10; 11]%nat /\ is_Some (ts_tmr s' !! 10%nat).
Proof.
  destruct (timers_refine_queue 1 demo_starts demo_timers [] demo_timers_empty) as (s' & E & T & M).
  - repeat constructor; by eexists.
  - exists s'. split_and!; [exact E|exact T|]. rewrite M. by eexists.
Defined.

Lemma tmr_poll_terminates_witness :
  exists s calls s', run_acts (Some 1%nat) demo_starts demo_timers = Some s /\
    tmr_poll demo_handler 3 (Some 1%nat) 1070 s = Some (calls, s') /\
    calls = [(1%nat, Some 10%nat); (2%nat, Some 11%nat)] /\
    exists xs', timers s' 1 xs' /\ due 1070 s' xs' = [].
Proof.
  destruct (act_refines 1 (AStart 11 66 2 (Some 11%nat) 1000) _ _ demo_timers_empty) as (s1 & E1 & T1 & M1);
    [by eexists|].
  destruct (act_refines 1 (AStart 10 20 1 (Some 10%nat) 1000) _ _ T1) as (s2 & E2 & T2 & M2);
    [rewrite M1; by eexists|].
  assert (run_acts (Some 1%nat) demo_starts demo_timers = Some s2) as ES.
  { unfold demo_starts. cbn [run_acts]. rewrite E1. cbn [mbind option_bind]. by rewrite E2. }
  rewrite M1 in M2, T2. 
  destruct (tmr_poll_terminates demo_handler 1070 1 3 s2 _ T2) as (fired & s' & xs' & E & T' & D & Sub & Own).
  - intros th arg s3 H3. unfold demo_handler. destruct arg as [a|]; [|constructor].
    destruct (ts_tmr s3 !! a) eqn:Ea; [|constructor]. repeat constructor; [by eexists|lia..].
  - vm_compute. lia.
  - exists s2, (call_of s2 <$> fired), s'. split; [exact ES|]. split; [exact E|].
    split; [|exists xs'; split; [exact T'|exact D]].
    assert (call_of s2 10%nat = (1%nat, Some 10%nat) /\ call_of s2 11%nat = (2%nat, Some 11%nat)) as [C1 C2].
    { unfold call_of. rewrite M2. split; vm_compute; reflexivity. }
    assert (forall ds, ds = [10; 11]%nat -> own_timer_only demo_handler s2 ds) as O.
    { intros ds -> a s3 Ha. unfold demo_handler.
      repeat (apply elem_of_cons in Ha as [->|Ha]); [| |destruct (not_elem_of_nil _ Ha)];
        rewrite ?C1, ?C2; cbn; destruct (ts_tmr s3 !! _); repeat constructor. }
    assert (fired = [10; 11]%nat) as ->.
    { rewrite Own; [|apply O]; unfold due, jfs_of; rewrite M2; vm_compute; reflexivity. }
    cbn [fmap list_fmap]. rewrite C1, C2. reflexivity.
Defined.

(** ** Further facts *)

(** The event loop never sleeps past a timer, and polls at once when one is due. *)
Lemma next_timeout_spec s tl xs now :
  timers s tl xs -> 0 <= now -> (forall a, a ∈ xs -> 0 <= jfs_of s a < 18446744073709551616) ->
  exists n, tmr_next_timeout (Some tl) now s = Some n /\
    (n = 0 <-> xs = []) /\ forall a, a ∈ xs -> now + n <= Z.max (jfs_of s a) (now + 1).
Proof.
  intros TM Hn HJ. unfold tmr_next_timeout. cbn [isnull].
  rewrite (first_timer_head _ _ _ TM). cbn [mbind option_bind]. destruct xs as [|a xs].
  { exists 0. split_and!; [done|done|]. by intros ? ?%not_elem_of_nil. }
  cbn [head isnull rd_tmr mbind option_bind].
  destruct (tm_tmr _ _ _ TM a (list_elem_of_here _ _)) as (t & Ht & _). rewrite Ht.
  cbn [mbind option_bind]. eexists. split; [done|].
  assert (jfs_of s a = t_jfs t) as Ej by (unfold jfs_of; by rewrite Ht).
  pose proof (HJ a (list_elem_of_here _ _)) as Hj. rewrite Ej in Hj.
  assert (forall b, b ∈ a :: xs -> t_jfs t <= jfs_of s b) as Min.
  { intros b [->|Hb]%elem_of_cons; [lia|]. pose proof (tm_sorted _ _ _ TM) as S.
    inversion S as [|? ? _ F]; subst. rewrite Forall_forall in F. specialize (F b Hb). cbn in F. lia. }
  destruct (Z.leb_spec (t_jfs t) now) as [Hle|Hgt]; (split; [split; [intros ?; exfalso|done]|]).
  - lia.
  - intros b _. lia.
  - unfold u64 in *. rewrite Z.mod_small in *; lia.
  - intros b Hb. specialize (Min b Hb). unfold u64. rewrite Z.mod_small; lia.
Qed.

(** [tmr_cancel] takes the timer off the list but leaves its handler set, so a
    cancelled timer still counts as running and has time left. *)
Lemma cancelled_timer_runs s tl xs a t now :
  timers s tl xs -> ts_tmr s !! a = Some t -> t_th t <> None -> t_jfs t > now ->
  exists s', tmr_cancel (Some tl) (Some a) now s = Some s' /\ timers s' tl (dequeue a xs) /\
    tmr_isrunning (Some a) s' = Some true /\ tmr_get_expire (Some a) now s' = Some (t_jfs t - now).
Proof.
  intros TM Ht Hth Hj. destruct (cancel_refines _ _ _ _ _ now TM Ht) as (s' & E & TM' & M).
  exists s'. split_and!; [done|done| |]; unfold tmr_isrunning, tmr_get_expire;
    cbn [isnull rd_tmr mbind option_bind]; rewrite M, lookup_insert_eq; cbn;
    destruct (t_th t); try done. cbn. destruct (Z.gtb_spec (t_jfs t) now); [done|lia].
Qed.

(** A time that falls on a full second is left with 1000000000 nanoseconds, one
    more than a [timespec] may have. *)
Lemma timespec_full_second sec :
  tmr_timespec_get (Some (Timespec sec 500000000)) 0 500 = inr (Timespec sec 1000000000).
Proof. unfold tmr_timespec_get. cbn. by rewrite Z.add_0_r. Qed.

Lemma timespec_otherwise ts errno offset sec nsec :
  0 <= tv_nsec ts < 1000000000 -> 0 <= offset < 18446744073709 ->
  tmr_timespec_get (Some ts) errno offset = inr (Timespec sec nsec) ->
  0 <= nsec <= 1000000000 /\
  sec * 1000000000 + nsec = tv_sec ts * 1000000000 + tv_nsec ts + offset * 1000000.
Proof.
  intros Hn Ho. unfold tmr_timespec_get. destruct (Z.eqb_spec offset 0) as [->|].
  { destruct ts. intros [= -> ->]. cbn in *. lia. }
  assert (u64 (offset * 1000000) = offset * 1000000) as -> by (unfold u64; apply Z.mod_small; lia).
  cbn [normalise tv_nsec tv_sec]. repeat case_if; intros [= <- <-]; bool_hyps;
    rewrite ?Z.gtb_ltb in *; bool_hyps; Z.div_mod_to_equations; lia.
Qed.
