(* ===== verification/EventLoop.v ===== *)
(** * The event loop ([src/re-4.6.0/src/main/main.c], [main/method.c])

    The loop that calls every handler of the program, with the polling method
    [select] that a Windows build has.  A registration ([struct re_fhs]) is an
    object in memory; the table [fhsl] holds pointers to the ones in use, and one
    that is closed is put on a list and freed when the poll is over, because the
    loop may still come across it.  An access to a freed object or beyond the end
    of the table is [None].

    The descriptors that are ready are what [select] answers.  What a handler
    does to the registrations is a parameter, a list of actions that may depend
    on everything.  Timers have a file of their own ([Tmr]); here [tmr_poll] is
    seen for the actions of the handlers it calls, and the result of
    [tmr_next_timeout] is an argument.  There is one thread. *)
From S2P Require Import Prelude Sys.
From stdpp Require Import gmap.
Local Open Scope Z_scope.

Definition EINTR : Z := 4.
Definition EBADF : Z := 9.
Definition EMFILE : Z := 24.
Definition ENOTSUP : Z := 95.
Definition WSAEINVAL : Z := 10022.
Definition FD_READ : Z := 1.
Definition FD_WRITE : Z := 2.
Definition FD_EXCEPT : Z := 4.
Definition ENOSYS : Z := 38.
Definition RE_BAD_SOCK : Z := -1.

(** ** State *)

(** [struct re_fhs]; the index -1 and null pointers are [None]. *)
Record re_fhs := Fhs {
  f_index : option nat;
  f_fd : Z;
  f_flags : Z;
  f_fh : option nat;
  f_arg : nat;
  f_next : option nat
}.
Inductive poll_method := METHOD_NULL | METHOD_SELECT.
(** [struct re], and the memory with the registrations. *)
Record re := Re {
  r_maxfds : Z;
  r_nfds : Z;
  r_method : poll_method;
  r_polling : bool;
  r_sig : Z;
  r_fhsld : option nat;
  r_fhsl : option (list (option nat));
  r_mem : gmap nat re_fhs
}.

Definition set_mem (m : gmap nat re_fhs) (s : re) : re :=
  Re (r_maxfds s) (r_nfds s) (r_method s) (r_polling s) (r_sig s) (r_fhsld s) (r_fhsl s) m.
Definition set_fhsl (l : option (list (option nat))) (s : re) : re :=
  Re (r_maxfds s) (r_nfds s) (r_method s) (r_polling s) (r_sig s) (r_fhsld s) l (r_mem s).
Definition set_nfds (n : Z) (s : re) : re :=
  Re (r_maxfds s) n (r_method s) (r_polling s) (r_sig s) (r_fhsld s) (r_fhsl s) (r_mem s).
Definition set_fhsld (p : option nat) (s : re) : re :=
  Re (r_maxfds s) (r_nfds s) (r_method s) (r_polling s) (r_sig s) p (r_fhsl s) (r_mem s).
Definition set_polling (b : bool) (s : re) : re :=
  Re (r_maxfds s) (r_nfds s) (r_method s) b (r_sig s) (r_fhsld s) (r_fhsl s) (r_mem s).
Definition set_sig (n : Z) (s : re) : re :=
  Re (r_maxfds s) (r_nfds s) (r_method s) (r_polling s) n (r_fhsld s) (r_fhsl s) (r_mem s).
Definition set_method (mt : poll_method) (s : re) : re :=
  Re (r_maxfds s) (r_nfds s) mt (r_polling s) (r_sig s) (r_fhsld s) (r_fhsl s) (r_mem s).
Definition set_maxfds (n : Z) (s : re) : re :=
  Re n (r_nfds s) (r_method s) (r_polling s) (r_sig s) (r_fhsld s) (r_fhsl s) (r_mem s).
Definition set_fhs (a : nat) (f : re_fhs) (s : re) : re := set_mem (<[a := f]> (r_mem s)) s.

(** What [re_alloc] leaves. *)
Definition re_alloc : re := Re 0 0 METHOD_NULL false 0 None None ∅.

(** ** Registrations *)
Section loop.
Variable FD_SETSIZE : Z.

Definition poll_method_best : poll_method := METHOD_SELECT.

(** [ok]: memory for the table can be allocated. *)
Definition poll_init (ok : bool) (s : re) : Z * re :=
  if r_maxfds s =? 0 then (EINVAL, s)
  else
    match r_method s with
    | METHOD_SELECT =>
        match r_fhsl s with
        | Some _ => (0, s)
        | None =>
            if ok then (0, set_fhsl (Some (replicate (Z.to_nat (r_maxfds s)) None)) s) else (ENOMEM, s)
        end
    | METHOD_NULL => (EINVAL, s)
    end.

Definition poll_close (s : re) : re :=
  Re 0 0 METHOD_NULL (r_polling s) (r_sig s) (r_fhsld s) None (r_mem s).

Definition fd_setsize (maxfds : Z) (s : re) : Z * re :=
  if maxfds =? 0 then (0, poll_close s)
  else if maxfds <? 0 then (ENOSYS, s)
  else (0, if r_maxfds s =? 0 then set_maxfds maxfds s else s).

Definition poll_method_set (mt : poll_method) (ok : bool) (s : re) : Z * re :=
  match r_method s with
  | METHOD_SELECT => (EINVAL, s)
  | METHOD_NULL =>
      let '(err, s) := fd_setsize FD_SETSIZE s in
      if negb (err =? 0) then (err, s)
      else
        match mt with
        | METHOD_SELECT =>
            if r_maxfds s >? FD_SETSIZE then (EMFILE, s) else poll_init ok (set_method METHOD_SELECT s)
        | METHOD_NULL => (EINVAL, s)
        end
  end.

Definition poll_setup (ok : bool) (s : re) : Z * re :=
  let '(err, s) := fd_setsize FD_SETSIZE s in
  let '(err, s) :=
    if negb (err =? 0) then (err, s)
    else
      let '(err, s) := match r_method s with
                       | METHOD_NULL => poll_method_set poll_method_best ok s
                       | METHOD_SELECT => (0, s)
                       end in
      if negb (err =? 0) then (err, s) else poll_init ok s in
  (err, if negb (err =? 0) then poll_close s else s).

(** The first free place of the table. *)
Fixpoint free_slot (l : list (option nat)) : option nat :=
  match l with
  | [] => None
  | None :: _ => Some 0%nat
  | Some _ :: l => S <$> free_slot l
  end.

Definition set_select_fds (a : nat) (s : re) : option (Z * re) :=
  f ← r_mem s !! a;
  l ← r_fhsl s;
  match (match f_index f with Some i => Some i | None => free_slot l end) with
  | None => Some (ERANGE, s)
  | Some i =>
      if (i <? length l)%nat then
        Some (0,
          if negb (f_flags f =? 0)
          then set_fhs a (Fhs (Some i) (f_fd f) (f_flags f) (f_fh f) (f_arg f) (f_next f))
                 (set_fhsl (Some (<[i := Some a]> l)) s)
          else set_fhs a (Fhs None (f_fd f) (f_flags f) (f_fh f) (f_arg f) (f_next f))
                 (set_fhsl (Some (<[i := None]> l)) s))
      else None
  end.

(** The call of the polling method's function. *)
Definition set_fds (a : nat) (s : re) : option (Z * re) :=
  match r_method s with METHOD_SELECT => set_select_fds a s | METHOD_NULL => Some (ENOTSUP, s) end.

(** [fd_listen]: [p] is what [fhsp] points to, [ans] the address of a new
    object; the result is the error, what [fhsp] points to afterwards, and the
    state. *)
Definition fd_listen (p : option nat) (fd flags : Z) (fh : option nat) (arg : nat) (ok : bool) (ans : option nat)
    (s : re) : option (Z * option nat * re) :=
  match fh with
  | None => Some (EINVAL, p, s)
  | Some fh =>
      if flags =? 0 then Some (EINVAL, p, s)
      else if fd =? RE_BAD_SOCK then Some (EBADF, p, s)
      else
        let '(err, s) := poll_setup ok s in
        if negb (err =? 0) then Some (err, p, s)
        else
          let finish a s :=
            f ← r_mem s !! a;
            '(err, s) ← set_fds a (set_fhs a (Fhs (f_index f) (f_fd f) flags (Some fh) arg (f_next f)) s);
            Some (if negb (err =? 0) then (err, p, set_mem (delete a (r_mem s)) s) else (0, Some a, s)) in
          match p with
          | Some a =>
              f ← r_mem s !! a;
              if negb (f_fd f =? fd) then Some (EBADF, p, s) else finish a s
          | None =>
              match ans with
              | None => Some (ENOMEM, p, s)
              | Some a =>
                  let s := set_fhs a (Fhs None fd 0 None 0 None) s in
                  if r_nfds s + 1 >? r_maxfds s then Some (EMFILE, p, set_mem (delete a (r_mem s)) s)
                  else finish a (set_nfds (r_nfds s + 1) s)
              end
          end
  end.

(** The assertion that the object is not on the list yet is part of it. *)
Definition fd_close (p : option nat) (s : re) : option re :=
  match p with
  | None => Some s
  | Some a =>
      f ← r_mem s !! a;
      '(_, s) ← set_fds a (set_fhs a (Fhs (f_index f) (f_fd f) 0 None 0 (f_next f)) s);
      f ← r_mem s !! a;
      match f_next f with
      | Some _ => None
      | None =>
          let s := set_fhs a (Fhs (f_index f) (f_fd f) (f_flags f) (f_fh f) (f_arg f) (r_fhsld s)) s in
          Some (set_nfds (r_nfds s - 1) (set_fhsld (Some a) s))
      end
  end.

Fixpoint fhsld_loop (fuel : nat) (p : option nat) (m : gmap nat re_fhs) : option (gmap nat re_fhs) :=
  match fuel, p with
  | _, None => Some m
  | O, Some _ => None
  | S fuel, Some a => f ← m !! a; fhsld_loop fuel (f_next f) (delete a m)
  end.
Definition fhsld_flush (s : re) : option re :=
  m ← fhsld_loop (S (size (r_mem s))) (r_fhsld s) (r_mem s);
  Some (set_mem m (set_fhsld None s)).

Definition re_nfds (s : re) : Z := r_nfds s.
Definition re_cancel (s : re) : re := set_polling false s.
Definition signal_handler (sig : Z) (s : re) : re := set_sig sig s.

(** ** Polling *)

(** The sets for [select]: descriptors to read, to write, with exceptions.  The
    loop goes on until it has found [nfds] registrations. *)
Fixpoint fd_sets (todo : Z) (l : list (option nat)) (m : gmap nat re_fhs) : option (list Z * list Z * list Z) :=
  if todo <=? 0 then Some ([], [], [])
  else
    match l with
    | [] => None
    | None :: l => fd_sets todo l m
    | Some a :: l =>
        f ← m !! a;
        match f_fh f with
        | None => fd_sets todo l m
        | Some _ =>
            '(r, w, e) ← fd_sets (todo - 1) l m;
            let add b x := if negb (Z.land (f_flags f) b =? 0) then f_fd f :: x else x in
            Some (add FD_READ r, add FD_WRITE w, add FD_EXCEPT e)
        end
    end.

(** [tv]: seconds and microseconds, or no limit. *)
Definition timeout_val (to : Z) : option (Z * Z) :=
  if to =? 0 then None else Some (Z.quot (i32 to) 1000, u32 (u32 (to mod 1000) * 1000)).

(** What [select] answers: an error, or a number and the sets that are ready. *)
Record ready := Ready { d_n : Z; d_r : list Z; d_w : list Z; d_e : list Z }.
Definition ready_flags (d : ready) (fd : Z) : Z :=
  Z.lor (if existsb (Z.eqb fd) (d_r d) then FD_READ else 0)
    (Z.lor (if existsb (Z.eqb fd) (d_w d) then FD_WRITE else 0)
           (if existsb (Z.eqb fd) (d_e d) then FD_EXCEPT else 0)).

(** What handlers do. *)
Inductive fd_act :=
| AListen (p : option nat) (fd flags : Z) (fh : option nat) (arg : nat) (ok : bool) (ans : option nat)
| AClose (p : option nat)
| ACancel.
Definition run_act (x : fd_act) (s : re) : option re :=
  match x with
  | AListen p fd flags fh arg ok ans => snd <$> fd_listen p fd flags fh arg ok ans s
  | AClose p => fd_close p s
  | ACancel => Some (re_cancel s)
  end.
Fixpoint run_acts (xs : list fd_act) (s : re) : option re :=
  match xs with [] => Some s | x :: xs => s ← run_act x s; run_acts xs s end.

(** What happens outside. *)
Inductive event :=
| Select (to : option (Z * Z)) (r w e : list Z)
| Call (fh arg : nat) (flags : Z)
| Signal (sig : Z)
| TmrPoll.

Variable handler : nat -> nat -> Z -> re -> list fd_act.

(** The loop over the table: [k] places are left from [i] on, [n] events. *)
Fixpoint events_loop (k : nat) (i : nat) (n : Z) (d : ready) (s : re) : option (list event * re) :=
  match k with
  | O => Some ([], s)
  | S k =>
      if n <=? 0 then Some ([], s)
      else
        l ← r_fhsl s;
        p ← l !! i;
        match p with
        | None => events_loop k (S i) n d s
        | Some a =>
            f ← r_mem s !! a;
            let flags := ready_flags d (f_fd f) in
            if flags =? 0 then events_loop k (S i) n d s
            else
              match f_fh f with
              | None => events_loop k (S i) (n - 1) d s
              | Some h =>
                  s ← run_acts (handler h (f_arg f) flags s) s;
                  '(ev, s) ← events_loop k (S i) (n - 1) d s;
                  Some (Call h (f_arg f) flags :: ev, s)
              end
        end
  end.

Definition fd_poll (to : Z) (sel : Z + ready) (s : re) : option (Z * list event * re) :=
  match r_method s with
  | METHOD_NULL => s ← fhsld_flush s; Some (EINVAL, [], s)
  | METHOD_SELECT =>
      '(r, w, e) ← (if r_nfds s <=? 0 then Some ([], [], []) else l ← r_fhsl s; fd_sets (r_nfds s) l (r_mem s));
      '(err, ev, s) ← match sel with
                      | inl err => Some (err, [], s)
                      | inr d => '(ev, s) ← events_loop (Z.to_nat (r_maxfds s)) 0 (d_n d) d s; Some (0, ev, s)
                      end;
      s ← fhsld_flush s;
      Some (err, Select (timeout_val to) r w e :: ev, s)
  end.

(** ** The main loop

    One round: the signal that has arrived, the next timeout, the answer of
    [select], what the handlers of timers do. *)
Record round := Round { rd_sig : Z; rd_to : Z; rd_sel : Z + ready; rd_timers : re -> list fd_act }.
Inductive outcome := Running | Returned (err : Z).
Variable signalh : option (Z -> re -> list fd_act).

Definition take_signal (s : re) : option (list event * re) :=
  if r_sig s =? 0 then Some ([], s)
  else
    s' ← match signalh with Some h => run_acts (h (r_sig s) s) s | None => Some s end;
    Some (match signalh with Some _ => [Signal (r_sig s)] | None => [] end, set_sig 0 s').

Fixpoint main_loop (rs : list round) (s : re) : option (list event * outcome * re) :=
  match rs with
  | [] => Some ([], Running, s)
  | x :: rs =>
      let s := if rd_sig x =? 0 then s else signal_handler (rd_sig x) s in
      '(e1, s) ← take_signal s;
      if negb (r_polling s) then Some (e1, Returned 0, s)
      else
        '(err, e2, s) ← fd_poll (rd_to x) (rd_sel x) s;
        if negb (err =? 0) && negb (err =? WSAEINVAL) then
          if err =? EINTR then '(ev, o, s) ← main_loop rs s; Some (e1 ++ e2 ++ ev, o, s)
          else Some (e1 ++ e2, Returned err, s)
        else
          s ← run_acts (rd_timers x s) s;
          '(ev, o, s) ← main_loop rs s;
          Some (e1 ++ e2 ++ TmrPoll :: ev, o, s)
  end.

Definition re_main (ok : bool) (rs : list round) (s : re) : option (list event * outcome * re) :=
  if r_polling s then Some ([], Returned EALREADY, s)
  else
    let '(err, s) := poll_setup ok s in
    if negb (err =? 0) then Some ([], Returned err, set_polling false s)
    else
      '(ev, o, s) ← main_loop rs (set_polling true s);
      Some (ev, o, match o with Returned _ => set_polling false s | Running => s end).
End loop.

(** ** Well-formed loops

    [ds] are the registrations that wait to be freed. *)
Fixpoint used (l : list (option nat)) : nat :=
  match l with [] => 0 | Some _ :: l => S (used l) | None :: l => used l end%nat.
Fixpoint chain (m : gmap nat re_fhs) (p : option nat) (ds : list nat) : Prop :=
  match ds with
  | [] => p = None
  | a :: ds =>
      p = Some a /\ exists f, m !! a = Some f /\ f_fh f = None /\ f_index f = None /\ chain m (f_next f) ds
  end.
Definition slot_ok (m : gmap nat re_fhs) (i a : nat) : Prop :=
  exists f, m !! a = Some f /\ f_index f = Some i /\ f_flags f <> 0 /\ f_fh f <> None /\ f_next f = None.

Record table (s : re) (l : list (option nat)) : Prop := {
  tb_len : zlen l = r_maxfds s;
  tb_pos : 0 < r_maxfds s;
  tb_method : r_method s = METHOD_SELECT;
  tb_nfds : r_nfds s = Z.of_nat (used l);
  tb_slots : forall i a, l !! i = Some (Some a) -> slot_ok (r_mem s) i a
}.
Record wf (s : re) (ds : list nat) : Prop := {
  wf_table : match r_fhsl s with
             | Some l => table s l
             | None => r_nfds s = 0 /\ r_method s = METHOD_NULL /\ 0 <= r_maxfds s
             end;
  wf_open : forall a f, r_mem s !! a = Some f -> f_fh f <> None ->
    exists l i, r_fhsl s = Some l /\ f_index f = Some i /\ l !! i = Some (Some a);
  wf_closed : forall a f, r_mem s !! a = Some f -> f_fh f = None -> a ∈ ds;
  wf_chain : chain (r_mem s) (r_fhsld s) ds;
  wf_nodup : NoDup ds
}.
Definition open (s : re) (a : nat) : Prop := exists f, r_mem s !! a = Some f /\ f_fh f <> None.

(** What a handler may do: register a new descriptor, change or close a
    registration that is open. *)
Definition act_ok (x : fd_act) (s : re) : Prop :=
  match x with
  | AListen None _ _ _ _ _ ans => match ans with Some a => r_mem s !! a = None | None => True end
  | AListen (Some a) _ _ _ _ _ _ | AClose (Some a) => open s a
  | AClose None | ACancel => True
  end.
Fixpoint acts_ok (FD_SETSIZE : Z) (xs : list fd_act) (s : re) : Prop :=
  match xs with
  | [] => True
  | x :: xs => act_ok x s /\ match run_act FD_SETSIZE x s with Some s => acts_ok FD_SETSIZE xs s | None => True end
  end.

Lemma used_le l : (used l <= length l)%nat.
Proof. induction l as [|[] l IH]; cbn; lia. Qed.
Lemma used_fill l i a : l !! i = Some None -> used (<[i := Some a]> l) = S (used l).
Proof. revert i. induction l as [|p l IH]; intros [|i] H; cbn in *; try done; [by injection H as ->|]. destruct p; rewrite IH; done. Qed.
Lemma used_clear l i a : l !! i = Some (Some a) -> used l = S (used (<[i := None]> l)).
Proof. revert i. induction l as [|p l IH]; intros [|i] H; cbn in *; try done; [by injection H as ->|]. destruct p; rewrite (IH i H); done. Qed.
Lemma used_free n : used (replicate n None) = 0%nat.
Proof. induction n; done. Qed.
Lemma free_slot_found l : (used l < length l)%nat -> exists i, free_slot l = Some i /\ l !! i = Some None.
Proof.
  induction l as [|[a|] l IH]; cbn; [lia| |intros _; by exists 0%nat].
  intros H. destruct (IH ltac:(lia)) as (i & -> & Hi). by exists (S i).
Qed.

Lemma chain_in m p ds a : chain m p ds -> a ∈ ds -> exists f, m !! a = Some f /\ f_fh f = None.
Proof.
  revert p. induction ds as [|b ds IH]; intros p; [by intros _ ?%elem_of_nil|].
  intros (_ & f & E & Hf & _ & Hc) [->|Ha]%elem_of_cons; [by exists f|by eapply IH].
Qed.
Lemma chain_other m m' p ds : (forall a, a ∈ ds -> m' !! a = m !! a) -> chain m p ds -> chain m' p ds.
Proof.
  revert p. induction ds as [|b ds IH]; intros p Hm; [done|]. intros (-> & f & E & Hf & Hi & Hc).
  split; [done|]. exists f. rewrite Hm by (by left). split_and!; [done..|]. apply IH; [|done]. intros a Ha. apply Hm. by right.
Qed.

(** ** Setting up *)
Section proofs.
Context (FD_SETSIZE : Z) (HF : 0 < FD_SETSIZE).

Lemma poll_setup_ready ok s l : r_fhsl s = Some l -> table s l -> poll_setup FD_SETSIZE ok s = (0, s).
Proof.
  intros E [H1 H2 H3 H4 H5]. unfold poll_setup, fd_setsize. destruct (Z.eqb_spec FD_SETSIZE 0); [lia|].
  destruct (Z.ltb_spec FD_SETSIZE 0); [lia|]. destruct (Z.eqb_spec (r_maxfds s) 0) as [|Hm]; [lia|]. cbn [Z.eqb negb].
  rewrite H3. cbn [Z.eqb negb]. unfold poll_init. apply Z.eqb_neq in Hm. by rewrite Hm, H3, E.
Qed.

Definition same_rest (s s' : re) : Prop :=
  r_mem s' = r_mem s /\ r_fhsld s' = r_fhsld s /\ r_polling s' = r_polling s /\ r_sig s' = r_sig s.

Lemma poll_setup_wf ok s ds :
  wf s ds -> let '(err, s') := poll_setup FD_SETSIZE ok s in
  wf s' ds /\ same_rest s s' /\ (err = 0 -> exists l, r_fhsl s' = Some l) /\ (forall l, r_fhsl s = Some l -> s' = s).
Proof.
  intros [WT WO WC WH WN]. destruct (r_fhsl s) as [l|] eqn:E.
  { rewrite (poll_setup_ready ok s l E WT). split_and!; [|done|by eexists|done]. split; [by rewrite E|..]; try done. by rewrite E. }
  destruct WT as (Hn & Hm & Hx).
  assert (forall a f, r_mem s !! a = Some f -> f_fh f = None) as HC.
  { intros a f Ha. destruct (f_fh f) eqn:Ef; [|done]. destruct (WO a f Ha) as (? & ? & ? & _); [by rewrite Ef|done]. }
  assert (forall s', same_rest s s' ->
    match r_fhsl s' with Some l => table s' l | None => r_nfds s' = 0 /\ r_method s' = METHOD_NULL /\ 0 <= r_maxfds s' end -> wf s' ds) as Hw.
  { intros s' (Em & Ed & _ & _) Ht. split; [done|..]; rewrite ?Em, ?Ed; try done. intros a f Ha Hf. by rewrite (HC a f Ha) in Hf. }
  unfold poll_setup, fd_setsize, poll_method_set, fd_setsize. destruct (Z.eqb_spec FD_SETSIZE 0); [lia|].
  destruct (Z.ltb_spec FD_SETSIZE 0); [lia|]. cbn [Z.eqb negb].
  set (s1 := if r_maxfds s =? 0 then _ else _).
  assert (same_rest s s1 /\ r_method s1 = METHOD_NULL /\ r_fhsl s1 = None /\ r_nfds s1 = 0 /\ 0 < r_maxfds s1) as (H1 & H2 & H3 & H4 & H5).
  { unfold s1. destruct (Z.eqb_spec (r_maxfds s) 0); cbn; split_and!; done || lia. }
  clearbody s1. rewrite H2. cbn [poll_method_best].
  assert ((if r_maxfds s1 =? 0 then set_maxfds FD_SETSIZE s1 else s1) = s1) as -> by (destruct (Z.eqb_spec (r_maxfds s1) 0); [lia|done]).
  cbn [Z.eqb negb].
  assert (forall e, e <> 0 -> wf (poll_close s1) ds /\ same_rest s (poll_close s1)) as HCl.
  { intros e _. assert (same_rest s (poll_close s1)) by done. split; [|done]. apply Hw; [done|]. by cbn. }
  destruct (Z.gtb_spec (r_maxfds s1) FD_SETSIZE) as [|_].
  { cbn. destruct (HCl 24 ltac:(done)). split_and!; done. }
  unfold poll_init. cbn [set_method r_maxfds r_method r_fhsl]. destruct (Z.eqb_spec (r_maxfds s1) 0); [lia|]. rewrite H3. cbn [negb].
  destruct ok; cbn [Z.eqb negb].
  2: { cbn. destruct (HCl 12 ltac:(done)). split_and!; done. }
  cbn [set_fhsl set_method r_maxfds r_method r_fhsl r_nfds]. destruct (Z.eqb_spec (r_maxfds s1) 0); [lia|]. cbn [Z.eqb negb].
  split_and!; [|done|by eexists|done]. apply Hw; [done|]. cbn [r_fhsl]. split; cbn [set_fhsl set_method r_maxfds r_method r_nfds r_mem].
  - rewrite length_replicate. lia.
  - done.
  - done.
  - by rewrite used_free, H4.
  - intros i a Hi. apply lookup_replicate in Hi as [? _]. done.
Qed.

(** ** What the operations do *)
Ltac fields :=
  unfold set_fhs, set_mem, set_fhsl, set_nfds, set_fhsld, set_polling, set_sig;
  cbn [r_maxfds r_nfds r_method r_polling r_sig r_fhsld r_fhsl r_mem].
Lemma open_slot s ds a : wf s ds -> open s a ->
  exists l i f, r_fhsl s = Some l /\ table s l /\ l !! i = Some (Some a) /\ r_mem s !! a = Some f
    /\ f_index f = Some i /\ f_flags f <> 0 /\ f_fh f <> None /\ f_next f = None /\ (i < length l)%nat.
Proof.
  intros W (f & E & Hf). destruct (wf_open _ _ W a f E Hf) as (l & i & El & Hi & Hl).
  pose proof (wf_table _ _ W) as T. rewrite El in T. destruct (tb_slots _ _ T i a Hl) as (f' & E' & _ & Hg & _ & Hn).
  rewrite E in E'. injection E' as <-. exists l, i, f. split_and!; try done. by eapply lookup_lt_Some.
Qed.
Lemma open_not_waiting s ds a : wf s ds -> open s a -> a ∉ ds.
Proof. intros W (f & E & Hf) Ha. destruct (chain_in _ _ _ a (wf_chain _ _ W) Ha) as (f' & E' & Hf'). congruence. Qed.

Lemma update_wf s ds a f f' :
  wf s ds -> r_mem s !! a = Some f -> f_fh f <> None ->
  f_index f' = f_index f -> f_flags f' <> 0 -> f_fh f' <> None -> f_next f' = None ->
  wf (set_fhs a f' s) ds.
Proof.
  intros W E Hf Hi Hg Hh Hn. assert (open s a) as Ho by (by exists f).
  pose proof (open_not_waiting _ _ _ W Ho) as Hd. destruct (open_slot _ _ _ W Ho) as (l & i & f0 & El & T & Hl & E0 & Hi0 & _).
  rewrite E in E0. injection E0 as <-. destruct W as [WT WO WC WH WN].
  split; cbn [set_fhs set_mem r_fhsl r_mem r_fhsld]; try done.
  - rewrite El. destruct T as [T1 T2 T3 T4 T5]. split; cbn [set_fhs set_mem r_maxfds r_method r_nfds r_mem]; try done.
    intros j b Hj. unfold slot_ok. destruct (decide (a = b)) as [<-|Hne].
    + rewrite lookup_insert_eq. exists f'. split_and!; try done. destruct (T5 j a Hj) as (f1 & E1 & Hj1 & _). congruence.
    + rewrite lookup_insert_ne by done. by apply T5.
  - intros b g. destruct (decide (a = b)) as [<-|Hne].
    + rewrite lookup_insert_eq. intros [= <-] _. exists l, i. by rewrite Hi.
    + rewrite lookup_insert_ne by done. apply WO.
  - intros b g. destruct (decide (a = b)) as [<-|Hne].
    + rewrite lookup_insert_eq. by intros [= <-].
    + rewrite lookup_insert_ne by done. apply WC.
  - eapply chain_other; [|exact WH]. intros b Hb. apply lookup_insert_ne. by intros ->.
Qed.

Lemma new_wf s ds l i a f :
  wf s ds -> r_fhsl s = Some l -> l !! i = Some None -> r_mem s !! a = None ->
  f_index f = Some i -> f_flags f <> 0 -> f_fh f <> None -> f_next f = None ->
  wf (set_fhs a f (set_fhsl (Some (<[i := Some a]> l)) (set_nfds (r_nfds s + 1) s))) ds.
Proof.
  intros [WT WO WC WH WN] El Hl Ha Hi Hg Hh Hn. rewrite El in WT. destruct WT as [T1 T2 T3 T4 T5].
  assert (i < length l)%nat as Hlt by (by eapply lookup_lt_Some).
  split; cbn [set_fhs set_mem set_fhsl set_nfds r_fhsl r_mem r_fhsld]; try done.
  - split; cbn [set_fhs set_mem set_fhsl set_nfds r_maxfds r_method r_nfds r_mem]; try done.
    + by rewrite length_insert.
    + rewrite used_fill by done. lia.
    + intros j b Hj. unfold slot_ok. destruct (decide (i = j)) as [<-|Hne].
      * rewrite list_lookup_insert_eq in Hj by done. injection Hj as <-. rewrite lookup_insert_eq. by exists f.
      * rewrite list_lookup_insert_ne in Hj by done. rewrite lookup_insert_ne; [by apply T5|].
        intros <-. destruct (T5 j a Hj) as (g & Eg & _). congruence.
  - intros b g. destruct (decide (a = b)) as [<-|Hne].
    + rewrite lookup_insert_eq. intros [= <-] _. exists (<[i := Some a]> l), i. split_and!; try done. by apply list_lookup_insert_eq.
    + rewrite lookup_insert_ne by done. intros Eg Hgh. destruct (WO b g Eg Hgh) as (l' & j & El' & Hj & Hlj).
      rewrite El in El'. injection El' as <-. exists (<[i := Some a]> l), j. split_and!; try done.
      rewrite list_lookup_insert_ne; [done|]. intros <-. congruence.
  - intros b g. destruct (decide (a = b)) as [<-|Hne].
    + rewrite lookup_insert_eq. by intros [= <-].
    + rewrite lookup_insert_ne by done. apply WC.
  - eapply chain_other; [|exact WH]. intros b Hb. apply lookup_insert_ne. intros <-.
    destruct (chain_in _ _ _ a WH Hb) as (g & Eg & _). congruence.
Qed.

Lemma close_wf s ds l i a f :
  wf s ds -> r_fhsl s = Some l -> l !! i = Some (Some a) -> f_fh f = None -> f_index f = None ->
  f_next f = r_fhsld s -> open s a ->
  wf (set_nfds (r_nfds s - 1) (set_fhsld (Some a) (set_fhs a f (set_fhsl (Some (<[i := None]> l)) s)))) (a :: ds).
Proof.
  intros W El Hl Hf Hi Hn Ho. pose proof (open_not_waiting _ _ _ W Ho) as Hd. destruct W as [WT WO WC WH WN].
  rewrite El in WT. destruct WT as [T1 T2 T3 T4 T5]. assert (i < length l)%nat as Hlt by (by eapply lookup_lt_Some).
  destruct (T5 i a Hl) as (f0 & E0 & Hi0 & _).
  split; cbn [set_fhs set_mem set_fhsl set_nfds set_fhsld r_fhsl r_mem r_fhsld].
  - split; cbn [set_fhs set_mem set_fhsl set_nfds set_fhsld r_maxfds r_method r_nfds r_mem]; try done.
    + by rewrite length_insert.
    + rewrite T4, (used_clear l i a Hl). lia.
    + intros j b Hj. destruct (decide (i = j)) as [<-|Hne].
      * by rewrite list_lookup_insert_eq in Hj by done.
      * rewrite list_lookup_insert_ne in Hj by done. unfold slot_ok. rewrite lookup_insert_ne; [by apply T5|].
        intros <-. destruct (T5 j a Hj) as (g & Eg & Hj' & _). congruence.
  - intros b g. destruct (decide (a = b)) as [<-|Hne].
    + rewrite lookup_insert_eq. by intros [= <-].
    + rewrite lookup_insert_ne by done. intros Eg Hg. destruct (WO b g Eg Hg) as (l' & j & El' & Hj & Hlj).
      rewrite El in El'. injection El' as <-. exists (<[i := None]> l), j. split_and!; try done.
      rewrite list_lookup_insert_ne; [done|]. intros <-. congruence.
  - intros b g. destruct (decide (a = b)) as [<-|Hne]; [by left|].
    rewrite lookup_insert_ne by done. intros Eg Hg. right. by eapply WC.
  - split; [done|]. exists f. rewrite lookup_insert_eq, Hn. split_and!; try done.
    eapply chain_other; [|exact WH]. intros b Hb. apply lookup_insert_ne. by intros ->.
  - by apply NoDup_cons.
Qed.

(** A new registration fails and changes nothing of the others, or takes a free
    place. *)
Lemma listen_new s ds fd flags fh arg ok ans :
  wf s ds -> (match ans with Some a => r_mem s !! a = None | None => True end) ->
  exists err p s', fd_listen FD_SETSIZE None fd flags fh arg ok ans s = Some (err, p, s') /\ wf s' ds /\
    r_polling s' = r_polling s /\ r_sig s' = r_sig s /\
    ((err <> 0 /\ r_mem s' = r_mem s /\ (forall l, r_fhsl s = Some l -> s' = s)) \/
     exists a h i l, err = 0 /\ p = Some a /\ ans = Some a /\ fh = Some h /\
       r_mem s' = <[a := Fhs (Some i) fd flags (Some h) arg None]> (r_mem s) /\
       r_fhsl s' = Some (<[i := Some a]> l) /\ l !! i = Some None /\ r_maxfds s' = zlen l /\ (forall l', r_fhsl s = Some l' -> l' = l)).
Proof.
  intros W Ha. unfold fd_listen.
  assert (forall e, e <> 0 -> exists err p s', Some (e, None, s) = Some (err, p, s') /\ wf s' ds /\ r_polling s' = r_polling s /\ r_sig s' = r_sig s /\
    ((err <> 0 /\ r_mem s' = r_mem s /\ (forall l, r_fhsl s = Some l -> s' = s)) \/
     exists a h i l, err = 0 /\ p = Some a /\ ans = Some a /\ fh = Some h /\
       r_mem s' = <[a := Fhs (Some i) fd flags (Some h) arg None]> (r_mem s) /\
       r_fhsl s' = Some (<[i := Some a]> l) /\ l !! i = Some None /\ r_maxfds s' = zlen l /\ (forall l', r_fhsl s = Some l' -> l' = l))) as Hfail.
  { intros e He. exists e, None, s. split_and!; try done. left. done. }
  destruct fh as [h|]; [|by apply Hfail]. destruct (Z.eqb_spec flags 0) as [|Hfl]; [by apply Hfail|].
  destruct (fd =? RE_BAD_SOCK); [by apply Hfail|]. clear Hfail.
  pose proof (poll_setup_wf ok s ds W) as HP. destruct (poll_setup FD_SETSIZE ok s) as [err s1].
  destruct HP as (W1 & (Em & Ed & Ep & Es) & Hl & Hk). destruct (Z.eqb_spec err 0) as [->|He]; cbn [negb].
  2: { exists err, None, s1. split_and!; try done. left. split_and!; done. }
  destruct (Hl eq_refl) as [l El]. pose proof (wf_table _ _ W1) as T. rewrite El in T. pose proof T as [T1 T2 T3 T4 T5].
  destruct ans as [a|].
  2: { exists ENOMEM, None, s1. split_and!; try done. left. split_and!; done. }
  cbn [set_fhs set_mem r_nfds r_maxfds].
  assert (r_mem s1 !! a = None) as Ha1 by (by rewrite Em).
  destruct (Z.gtb_spec (r_nfds s1 + 1) (r_maxfds s1)) as [Hn|Hn].
  { assert (set_mem (delete a (<[a := Fhs None fd 0 None 0 None]> (r_mem s1))) (set_fhs a (Fhs None fd 0 None 0 None) s1) = s1) as E1.
    { rewrite delete_insert_id by done. by destruct s1. }
    eexists EMFILE, None, s1. cbn [r_mem]. split; [do 2 f_equal; exact E1|]. split_and!; try done. left. split_and!; try done. }
  cbn [set_nfds r_mem set_fhs set_mem]. rewrite lookup_insert_eq. cbn [mbind option_bind f_index f_fd f_next]. unfold set_fds.
  cbn [set_fhs set_mem set_nfds r_method]. rewrite T3. unfold set_select_fds. cbn [set_fhs set_mem set_nfds r_mem r_fhsl].
  rewrite lookup_insert_eq. cbn [mbind option_bind f_index f_flags f_fd f_fh f_arg f_next]. rewrite El. cbn [mbind option_bind].
  destruct (free_slot_found l) as (i & Ef & Hi); [lia|]. rewrite Ef.
  assert (i < length l)%nat as Hlt by (by eapply lookup_lt_Some). apply Nat.ltb_lt in Hlt. rewrite Hlt.
  apply Z.eqb_neq in Hfl. rewrite Hfl. cbn [negb Z.eqb]. apply Z.eqb_neq in Hfl.
  eexists 0, (Some a), _. split; [reflexivity|].
  assert (forall x y, <[a := x]> (<[a := y]> (r_mem s1)) = <[a := x]> (r_mem s1)) as Hii by (intros; apply insert_insert_eq).
  fields. rewrite !Hii.
  split; [exact (new_wf s1 ds l i a (Fhs (Some i) fd flags (Some h) arg None) W1 El Hi Ha1 eq_refl Hfl ltac:(done) eq_refl)|].
  split; [done|]. split; [done|]. right. exists a, h, i, l. split_and!; try done; [by rewrite Em|].
  intros l' El'. rewrite <- (Hk l' El') in El'. congruence.
Qed.

Lemma listen_update s ds a fd flags fh arg ok ans :
  wf s ds -> open s a ->
  exists err p s', fd_listen FD_SETSIZE (Some a) fd flags fh arg ok ans s = Some (err, p, s') /\ wf s' ds /\
    (s' = s \/ exists f h, r_mem s !! a = Some f /\ s' = set_fhs a (Fhs (f_index f) (f_fd f) flags (Some h) arg (f_next f)) s /\ flags <> 0 /\ open s' a).
Proof.
  intros W Ho. destruct (open_slot _ _ _ W Ho) as (l & i & f & El & T & Hl & E & Hi & Hg & Hf & Hn & Hlt). unfold fd_listen.
  assert (forall e : Z, exists (err : Z) p s', Some (e, Some a, s) = Some (err, p, s') /\ wf s' ds /\
    (s' = s \/ exists f h, r_mem s !! a = Some f /\ s' = set_fhs a (Fhs (f_index f) (f_fd f) flags (Some h) arg (f_next f)) s /\ flags <> 0 /\ open s' a)) as Hfail.
  { intros e. exists e, (Some a), s. split_and!; try done. by left. }
  destruct fh as [h|]; [|by apply Hfail]. destruct (Z.eqb_spec flags 0) as [|Hfl]; [by apply Hfail|].
  destruct (fd =? RE_BAD_SOCK); [by apply Hfail|]. rewrite (poll_setup_ready ok s l El T). cbn [Z.eqb negb].
  rewrite E in Hfail |- *. cbn [mbind option_bind]. destruct (f_fd f =? fd); cbn [negb]; [|by apply Hfail]. clear Hfail. unfold set_fds.
  cbn [set_fhs set_mem r_method]. rewrite (tb_method _ _ T). unfold set_select_fds. cbn [set_fhs set_mem r_mem r_fhsl].
  rewrite lookup_insert_eq. cbn [mbind option_bind f_index f_flags f_fd f_fh f_arg f_next]. rewrite El, Hi. cbn [mbind option_bind].
  apply Nat.ltb_lt in Hlt. rewrite Hlt. apply Z.eqb_neq in Hfl. rewrite Hfl. cbn [negb Z.eqb]. apply Z.eqb_neq in Hfl.
  eexists 0, (Some a), _. split; [reflexivity|].
  fields. rewrite insert_insert_eq. rewrite (list_insert_id l i (Some a)) by done. rewrite <- El.
  set (s' := Re _ _ _ _ _ _ _ _). assert (s' = set_fhs a (Fhs (f_index f) (f_fd f) flags (Some h) arg (f_next f)) s) as Es.
  { unfold s'. rewrite Hi. by destruct s. }
  split; [|right; exists f, h; split_and!; try done].
  - rewrite Es. by apply (update_wf s ds a f).
  - rewrite Es. eexists. cbn [set_fhs set_mem r_mem]. by rewrite lookup_insert_eq.
Qed.

Lemma close_spec s ds a :
  wf s ds -> open s a ->
  exists s', fd_close (Some a) s = Some s' /\ wf s' (a :: ds) /\ r_polling s' = r_polling s /\ r_sig s' = r_sig s /\
    exists l i f, r_fhsl s = Some l /\ l !! i = Some (Some a) /\ r_fhsl s' = Some (<[i := None]> l) /\ f_fh f = None /\
      r_mem s' = <[a := f]> (r_mem s).
Proof.
  intros W Ho. destruct (open_slot _ _ _ W Ho) as (l & i & f & El & T & Hl & E & Hi & Hg & Hf & Hn & Hlt).
  unfold fd_close. rewrite E. cbn [mbind option_bind]. unfold set_fds.
  cbn [set_fhs set_mem r_method]. rewrite (tb_method _ _ T). unfold set_select_fds. cbn [set_fhs set_mem r_mem r_fhsl].
  rewrite lookup_insert_eq. cbn [mbind option_bind f_index f_flags f_fd f_fh f_arg f_next]. rewrite El, Hi. cbn [mbind option_bind].
  apply Nat.ltb_lt in Hlt. rewrite Hlt. cbn [Z.eqb negb mbind option_bind]. fields. rewrite lookup_insert_eq.
  cbn [mbind option_bind f_index f_flags f_fd f_fh f_arg f_next]. rewrite Hn.
  fields. rewrite !insert_insert_eq.
  eexists. split; [reflexivity|].
  split; [exact (close_wf s ds l i a (Fhs None (f_fd f) 0 None 0 (r_fhsld s)) W El Hl eq_refl eq_refl eq_refl Ho)|].
  split; [done|]. split; [done|]. exists l, i, (Fhs None (f_fd f) 0 None 0 (r_fhsld s)). split_and!; done.
Qed.

Definition keeps (s s' : re) : Prop :=
  forall l, r_fhsl s = Some l -> (exists l', r_fhsl s' = Some l') /\ r_maxfds s' = r_maxfds s.
Lemma keeps_refl s : keeps s s.
Proof. intros l E. split; [by eexists|done]. Qed.
Lemma keeps_trans s1 s2 s3 : keeps s1 s2 -> keeps s2 s3 -> keeps s1 s3.
Proof. intros H1 H2 l E. destruct (H1 l E) as [[l2 E2] M2]. destruct (H2 l2 E2) as [H3 M3]. split; [done|congruence]. Qed.
Lemma wf_table_of s ds l : wf s ds -> r_fhsl s = Some l -> table s l.
Proof. intros W E. pose proof (wf_table _ _ W) as T. by rewrite E in T. Qed.

Lemma act_spec x s ds : wf s ds -> act_ok x s ->
  exists s' ds', run_act FD_SETSIZE x s = Some s' /\ wf s' ds' /\ keeps s s' /\ (x <> ACancel -> r_polling s' = r_polling s).
Proof.
  intros W Ho. destruct x as [[a|] fd flags fh arg ok ans|[a|]|]; cbn [act_ok run_act] in *.
  - destruct (listen_update s ds a fd flags fh arg ok ans W Ho) as (err & p & s' & -> & W' & H).
    exists s', ds. split; [done|]. split; [done|]. destruct H as [->|(f & h & _ & -> & _)]; [split; [apply keeps_refl|done]|].
    split; [|done]. intros l E. split; [by exists l|done].
  - destruct (listen_new s ds fd flags fh arg ok ans W Ho) as (err & p & s' & -> & W' & Hp & _ & H).
    exists s', ds. split; [done|]. split; [done|]. split; [|done]. intros l E. destruct H as [(_ & _ & H)|(a & h & i & l1 & _ & _ & _ & _ & _ & E1 & _ & M1 & H)].
    + rewrite (H l E). split; [by exists l|done].
    + split; [by eexists|]. pose proof (H l E); subst l1. by rewrite M1, (tb_len _ _ (wf_table_of _ _ _ W E)).
  - destruct (close_spec s ds a W Ho) as (s' & -> & W' & Hp & _ & l & i & f & El & _ & El' & _). exists s', (a :: ds).
    split; [done|]. split; [done|]. split; [|done]. intros l0 E0. split; [by eexists|]. rewrite El in E0. injection E0 as <-.
    rewrite <- (tb_len _ _ (wf_table_of _ _ _ W El)), <- (tb_len _ _ (wf_table_of _ _ _ W' El')). by rewrite length_insert.
  - exists s, ds. split_and!; [done|done|apply keeps_refl|done].
  - exists (re_cancel s), ds. split; [done|]. split; [|split; [intros l E; split; [by exists l|done]|done]].
    destruct W as [WT WO WC WH WN]. split; try done. cbn [re_cancel set_polling r_fhsl]. destruct (r_fhsl s); [|done]. by destruct WT.
Qed.

Lemma acts_spec xs : forall s ds, wf s ds -> acts_ok FD_SETSIZE xs s ->
  exists s' ds', run_acts FD_SETSIZE xs s = Some s' /\ wf s' ds' /\ keeps s s' /\ (ACancel ∉ xs -> r_polling s' = r_polling s).
Proof.
  induction xs as [|x xs IH]; intros s ds W Ho; cbn [acts_ok run_acts] in *.
  { exists s, ds. split_and!; [done|done|apply keeps_refl|done]. }
  destruct Ho as [Hx Ho]. destruct (act_spec x s ds W Hx) as (s1 & ds1 & E1 & W1 & K1 & P1). rewrite E1 in *.
  destruct (IH s1 ds1 W1 Ho) as (s2 & ds2 & E2 & W2 & K2 & P2). exists s2, ds2. cbn [mbind option_bind].
  split_and!; [done|done|by eapply keeps_trans|]. intros Hn. rewrite not_elem_of_cons in Hn. destruct Hn as [H1 H2].
  rewrite P2, P1; [done|congruence|done].
Qed.

(** ** Freeing what was closed *)
Lemma fhsld_loop_spec ds : forall fuel m p, chain m p ds -> NoDup ds -> (length ds < fuel)%nat ->
  exists m', fhsld_loop fuel p m = Some m' /\ forall a, m' !! a = if decide (a ∈ ds) then None else m !! a.
Proof.
  induction ds as [|a ds IH]; intros [|fuel] m p Hc Hn Hl; cbn [length] in Hl; try lia; cbn [chain] in Hc.
  - subst p. exists m. split; [done|]. intros a. by case_decide as H; [apply elem_of_nil in H|].
  - destruct Hc as (-> & f & E & _ & _ & Hc). apply NoDup_cons in Hn as [Ha Hn]. cbn [fhsld_loop]. rewrite E. cbn [mbind option_bind].
    destruct (IH fuel (delete a m) (f_next f)) as (m' & E' & Hm); [|done|lia|].
    { eapply chain_other; [|exact Hc]. intros b Hb. apply lookup_delete_ne. by intros ->. }
    exists m'. split; [done|]. intros b. rewrite Hm. destruct (decide (b = a)) as [->|Hne].
    + rewrite decide_False, decide_True by (done || by left). apply lookup_delete_eq.
    + rewrite lookup_delete_ne by done. destruct (decide (b ∈ ds)); [rewrite decide_True by (by right); done|].
      rewrite decide_False; [done|]. intros [?|?]%elem_of_cons; done.
Qed.

Lemma flush_spec s ds : wf s ds ->
  exists s', fhsld_flush s = Some s' /\ wf s' [] /\ r_fhsl s' = r_fhsl s /\ r_nfds s' = r_nfds s /\ r_maxfds s' = r_maxfds s
    /\ r_method s' = r_method s /\ r_polling s' = r_polling s /\ r_sig s' = r_sig s
    /\ (forall a f, r_mem s' !! a = Some f <-> r_mem s !! a = Some f /\ f_fh f <> None).
Proof.
  intros [WT WO WC WH WN]. unfold fhsld_flush.
  destruct (fhsld_loop_spec ds (S (size (r_mem s))) (r_mem s) (r_fhsld s) WH WN) as (m' & -> & Hm).
  { apply Nat.lt_succ_r. rewrite <- size_dom. rewrite <- (size_list_to_set (C := gset nat) ds WN). apply subseteq_size.
    intros a Ha. apply elem_of_list_to_set in Ha. apply elem_of_dom. destruct (chain_in _ _ _ a WH Ha) as (f & E & _). by eexists. }
  cbn [mbind option_bind]. eexists. split; [done|].
  assert (forall a f, m' !! a = Some f <-> r_mem s !! a = Some f /\ f_fh f <> None) as Hk.
  { intros a f. rewrite Hm. case_decide as Hd.
    - split; [done|]. intros [E Hf]. destruct (chain_in _ _ _ a WH Hd) as (g & Eg & Hg). congruence.
    - split; [|by intros [? _]]. intros E. split; [done|]. intros Hf. by apply Hd, (WC a f). }
  split; [|fields; split_and!; done]. split; fields; try done.
  - destruct (r_fhsl s) as [l|]; [|done]. destruct WT as [T1 T2 T3 T4 T5]. split; fields; try done.
    intros i a Hi. destruct (T5 i a Hi) as (f & E & H1 & H2 & H3 & H4). exists f. split_and!; try done. by apply Hk.
  - intros a f E Hf. apply Hk in E as [E _]. by apply (WO a f).
  - intros a f E Hf. by apply Hk in E as [_ ?].
  - constructor.
Qed.

(** ** The sets *)
Definition watched (b : Z) (s : re) : list Z :=
  omap (fun p => a ← p; f ← r_mem s !! a; if negb (Z.land (f_flags f) b =? 0) then Some (f_fd f) else None)
    (default [] (r_fhsl s)).

Lemma fd_sets_spec l m : (forall i a, l !! i = Some (Some a) -> exists f, m !! a = Some f /\ f_fh f <> None) ->
  let w b := omap (fun p => a ← p; f ← m !! a; if negb (Z.land (f_flags f) b =? 0) then Some (f_fd f) else None) l in
  fd_sets (Z.of_nat (used l)) l m = Some (w FD_READ, w FD_WRITE, w FD_EXCEPT).
Proof.
  induction l as [|[a|] l IH]; intros Hl w.
  - done.
  - cbn [used fd_sets]. destruct (Z.leb_spec (Z.of_nat (S (used l))) 0); [lia|]. destruct (Hl 0%nat a eq_refl) as (f & E & Hf).
    rewrite E. cbn [mbind option_bind]. destruct (f_fh f); [|done].
    replace (Z.of_nat (S (used l)) - 1) with (Z.of_nat (used l)) by lia.
    rewrite IH by (intros i b Hi; by apply (Hl (S i) b)). cbn [mbind option_bind]. unfold w. cbn [omap list_omap mbind option_bind].
    rewrite E. cbn [mbind option_bind]. by destruct (_ =? 0), (_ =? 0), (_ =? 0).
  - cbn [used fd_sets]. rewrite IH by (intros i b Hi; by apply (Hl (S i) b)). unfold w. cbn [omap list_omap mbind option_bind].
    destruct (Z.leb_spec (Z.of_nat (used l)) 0) as [H0|]; [|done]. assert (used l = 0%nat) as Hu by lia.
    assert (forall b, omap (fun p => a ← p; f ← m !! a; if negb (Z.land (f_flags f) b =? 0) then Some (f_fd f) else None) l = []) as Hw.
    { intros b. clear -Hu. induction l as [|[a|] l IH]; [done..|]. cbn. by apply IH. }
    by rewrite !Hw.
Qed.

Lemma fd_sets_none todo l m : todo <= 0 -> fd_sets todo l m = Some ([], [], []).
Proof. intros H. apply Z.leb_le in H. destruct l; cbn [fd_sets]; by rewrite H. Qed.

Lemma poll_sets s ds l : wf s ds -> r_fhsl s = Some l ->
  (if r_nfds s <=? 0 then Some ([], [], []) else l ← r_fhsl s; fd_sets (r_nfds s) l (r_mem s))
  = Some (watched FD_READ s, watched FD_WRITE s, watched FD_EXCEPT s).
Proof.
  intros W E. pose proof (wf_table_of _ _ _ W E) as [T1 T2 T3 T4 T5].
  pose proof (fd_sets_spec l (r_mem s)) as H. cbn zeta in H. unfold watched. rewrite E. cbn [mbind option_bind default].
  rewrite T4. assert (fd_sets (Z.of_nat (used l)) l (r_mem s) = (if Z.of_nat (used l) <=? 0 then Some ([], [], []) else fd_sets (Z.of_nat (used l)) l (r_mem s))) as <-.
  { destruct (Z.leb_spec (Z.of_nat (used l)) 0); [by rewrite fd_sets_none|done]. }
  apply H. intros i a Hi. destruct (T5 i a Hi) as (f & Ef & _ & _ & Hf & _). by exists f.
Qed.

(** ** The loop is safe *)
Definition obeys (act : re -> list fd_act) : Prop := forall s ds, wf s ds -> acts_ok FD_SETSIZE (act s) s.
Context (handler : nat -> nat -> Z -> re -> list fd_act) (HH : forall h arg flags, obeys (handler h arg flags)).
Context (signalh : option (Z -> re -> list fd_act)) (HS : forall h, signalh = Some h -> forall sig, obeys (h sig)).

Definition is_select (e : event) : bool := match e with Select _ _ _ _ => true | _ => false end.
Definition is_tmr_poll (e : event) : bool := match e with TmrPoll => true | _ => false end.

(** Nobody cancels the loop. *)
Definition calm : Prop :=
  (forall h arg flags s, ACancel ∉ handler h arg flags s) /\
  (forall h sig s, signalh = Some h -> ACancel ∉ h sig s).

Lemma events_safe k : forall i n d s ds l,
  wf s ds -> r_fhsl s = Some l -> Z.of_nat (i + k) = r_maxfds s ->
  exists ev s' ds', events_loop FD_SETSIZE handler k i n d s = Some (ev, s') /\ wf s' ds' /\ keeps s s'
    /\ (calm -> r_polling s' = r_polling s) /\ List.filter is_select ev = [] /\ List.filter is_tmr_poll ev = [].
Proof.
  induction k as [|k IH]; intros i n d s ds l W E Hk; cbn [events_loop].
  { exists [], s, ds. split_and!; [done|done|apply keeps_refl|done..]. }
  destruct (n <=? 0); [exists [], s, ds; split_and!; [done|done|apply keeps_refl|done..]|].
  pose proof (wf_table_of _ _ _ W E) as T. rewrite E. cbn [mbind option_bind].
  destruct (lookup_lt_is_Some_2 l i) as [p Hp]; [pose proof (tb_len _ _ T); lia|]. rewrite Hp. cbn [mbind option_bind].
  destruct p as [a|]; [|by apply (IH (S i) n d s ds l W E ltac:(lia))].
  destruct (tb_slots _ _ T i a Hp) as (f & Ef & _ & _ & Hf & _). rewrite Ef. cbn [mbind option_bind].
  destruct (ready_flags d (f_fd f) =? 0); [by apply (IH (S i) n d s ds l W E ltac:(lia))|].
  destruct (f_fh f) as [h|]; [|done].
  destruct (acts_spec _ s ds W (HH h (f_arg f) (ready_flags d (f_fd f)) s ds W)) as (s1 & ds1 & E1 & W1 & K1 & P1). rewrite E1.
  cbn [mbind option_bind]. destruct (K1 l E) as [[l1 El1] M1].
  destruct (IH (S i) (n - 1) d s1 ds1 l1 W1 El1 ltac:(lia)) as (ev & s2 & ds2 & E2 & W2 & K2 & P2 & F2 & F2'). rewrite E2. cbn [mbind option_bind].
  eexists _, s2, ds2. split_and!; [done|done|by eapply keeps_trans| |done|done]. intros Hc. rewrite (P2 Hc). apply P1. apply (proj1 Hc).
Qed.

Lemma fd_poll_safe to sel s ds l :
  wf s ds -> r_fhsl s = Some l ->
  exists err ev s', fd_poll FD_SETSIZE handler to sel s
    = Some (err, Select (timeout_val to) (watched FD_READ s) (watched FD_WRITE s) (watched FD_EXCEPT s) :: ev, s') /\
    wf s' [] /\ keeps s s' /\ err = match sel with inl e => e | inr _ => 0 end /\ (calm -> r_polling s' = r_polling s)
    /\ List.filter is_select ev = [] /\ List.filter is_tmr_poll ev = [].
Proof.
  intros W E. pose proof (wf_table_of _ _ _ W E) as T. unfold fd_poll. rewrite (tb_method _ _ T), (poll_sets s ds l W E). cbn [mbind option_bind].
  assert (exists ev s1 ds1, match sel with inl err => Some (err, [], s)
     | inr d => '(ev, s) ← events_loop FD_SETSIZE handler (Z.to_nat (r_maxfds s)) 0 (d_n d) d s; Some (0, ev, s) end
     = Some (match sel with inl e => e | inr _ => 0 end, ev, s1) /\ wf s1 ds1 /\ keeps s s1 /\ (calm -> r_polling s1 = r_polling s)
     /\ List.filter is_select ev = [] /\ List.filter is_tmr_poll ev = []) as (ev & s1 & ds1 & -> & W1 & K1 & P1 & F).
  { destruct sel as [e|d]; [exists [], s, ds; split_and!; [done|done|apply keeps_refl|done..]|].
    destruct (events_safe (Z.to_nat (r_maxfds s)) 0 (d_n d) d s ds l W E) as (ev & s1 & ds1 & -> & W1 & K1 & P1 & F); [pose proof (tb_pos _ _ T); lia|].
    by exists ev, s1, ds1. }
  cbn [mbind option_bind]. destruct (flush_spec s1 ds1 W1) as (s2 & -> & W2 & F1 & F2 & F3 & _ & F5 & _). cbn [mbind option_bind].
  eexists _, ev, s2. split; [done|]. split_and!; [done| |done|intros Hc; rewrite F5; by apply P1|apply F|apply F].
  eapply keeps_trans; [exact K1|]. intros l1 E1. rewrite F1, F3. split; [by exists l1|done].
Qed.

Lemma set_sig_wf n s ds : wf s ds -> wf (set_sig n s) ds.
Proof. intros [WT WO WC WH WN]. split; try done. fields. destruct (r_fhsl s); [|done]. by destruct WT. Qed.
Lemma set_polling_wf b s ds : wf s ds -> wf (set_polling b s) ds.
Proof. intros [WT WO WC WH WN]. split; try done. fields. destruct (r_fhsl s); [|done]. by destruct WT. Qed.

Lemma take_signal_safe s ds l : wf s ds -> r_fhsl s = Some l ->
  exists ev s' ds', take_signal FD_SETSIZE signalh s = Some (ev, s') /\ wf s' ds' /\ keeps s s'
    /\ (calm -> r_polling s' = r_polling s) /\ List.filter is_select ev = [] /\ List.filter is_tmr_poll ev = [].
Proof.
  intros W E. unfold take_signal. destruct (r_sig s =? 0); [exists [], s, ds; split_and!; [done|done|apply keeps_refl|done|done|done]|].
  unfold calm. destruct signalh as [h|].
  - destruct (acts_spec _ s ds W (HS h eq_refl (r_sig s) s ds W)) as (s1 & ds1 & -> & W1 & K1 & P1). cbn [mbind option_bind].
    eexists _, _, ds1. split; [done|]. split; [by apply set_sig_wf|]. split; [intros l1 E1; exact (K1 l1 E1)|].
    split; [intros [_ Hc]; apply P1; by apply Hc|done].
  - cbn [mbind option_bind]. eexists _, _, ds. split; [done|]. split; [by apply set_sig_wf|].
    split; [intros l1 E1; split; [by exists l1|done]|]. split; done.
Qed.

(** Why the loop returns. *)
Definition returns_for (rs : list round) (o : outcome) (s : re) : Prop :=
  match o with
  | Running => True
  | Returned err =>
      (err = 0 /\ r_polling s = false)
      \/ (exists x, x ∈ rs /\ rd_sel x = inl err /\ err <> 0 /\ err <> EINTR /\ err <> WSAEINVAL)
  end.
(** Every round of a loop that is not cancelled asks [select] and, unless a
    signal interrupted it, polls the timers. *)
Definition tolerable (x : round) : Prop :=
  match rd_sel x with inl e => e = EINTR \/ e = WSAEINVAL \/ e = 0 | inr _ => True end.
Definition uninterrupted (x : round) : bool := match rd_sel x with inl e => negb (e =? EINTR) | inr _ => true end.

Lemma main_loop_safe rs : forall s ds l,
  wf s ds -> r_fhsl s = Some l -> Forall (fun x => obeys (rd_timers x)) rs ->
  exists ev o s' ds', main_loop FD_SETSIZE handler signalh rs s = Some (ev, o, s') /\ wf s' ds' /\ keeps s s' /\ returns_for rs o s'
    /\ (calm -> r_polling s = true -> Forall tolerable rs -> Forall (fun x => forall s, ACancel ∉ rd_timers x s) rs ->
        o = Running /\ length (List.filter is_select ev) = length rs
        /\ length (List.filter is_tmr_poll ev) = length (List.filter uninterrupted rs)).
Proof.
  induction rs as [|x rs IH]; intros s ds l W E HT; cbn [main_loop].
  { exists [], Running, s, ds. split_and!; [done|done|apply keeps_refl|done|done]. }
  apply Forall_cons in HT as [Hx HT].
  assert (forall s' o, returns_for rs o s' -> returns_for (x :: rs) o s') as Hret.
  { intros s' [|err] H; [done|]. destruct H as [H|(y & Hy & H)]; [by left|right; exists y; split; [by right|done]]. }
  assert (exists s0, s0 = (if rd_sig x =? 0 then s else signal_handler (rd_sig x) s) /\ wf s0 ds /\ r_fhsl s0 = Some l /\ keeps s s0
    /\ r_polling s0 = r_polling s) as (s0 & <- & W0 & E0 & K0 & P0).
  { eexists. split; [done|]. destruct (rd_sig x =? 0); [split_and!; [done|done|apply keeps_refl|done]|].
    split; [by apply set_sig_wf|]. split; [done|]. split; [|done]. intros l1 E1. split; [by exists l1|done]. }
  destruct (take_signal_safe s0 ds l W0 E0) as (e1 & s1 & ds1 & -> & W1 & K1 & P1 & F1 & F1'). cbn [mbind option_bind].
  destruct (r_polling s1) eqn:Ep; cbn [negb].
  2: { eexists _, _, s1, ds1. split; [done|]. split_and!; [done|by eapply keeps_trans|by left|intros Hc Hp _ _].
       exfalso. specialize (P1 Hc). congruence. }
  destruct (K1 l E0) as [[l1 E1] _].
  destruct (fd_poll_safe (rd_to x) (rd_sel x) s1 ds1 l1 W1 E1) as (err & e2 & s2 & -> & W2 & K2 & Herr & P2 & F2). cbn [mbind option_bind].
  destruct (K2 l1 E1) as [[l2 E2] _]. assert (keeps s s2) as K02 by (eapply keeps_trans; [exact K0|by eapply keeps_trans]).
  assert (forall ev, List.filter is_select (e1 ++ (Select (timeout_val (rd_to x)) (watched FD_READ s1) (watched FD_WRITE s1) (watched FD_EXCEPT s1) :: e2) ++ ev)
      = Select (timeout_val (rd_to x)) (watched FD_READ s1) (watched FD_WRITE s1) (watched FD_EXCEPT s1) :: List.filter is_select ev
    /\ List.filter is_tmr_poll (e1 ++ (Select (timeout_val (rd_to x)) (watched FD_READ s1) (watched FD_WRITE s1) (watched FD_EXCEPT s1) :: e2) ++ ev)
      = List.filter is_tmr_poll ev) as HE.
  { intros ev. rewrite !List.filter_app. cbn [List.filter is_select is_tmr_poll]. by rewrite F1, F1', (proj1 F2), (proj2 F2). }
  set (e2' := Select _ _ _ _ :: e2) in *.
  destruct (negb (err =? 0) && negb (err =? WSAEINVAL)) eqn:Ee.
  - bool_hyps. destruct (Z.eqb_spec err EINTR) as [Hi|Hi].
    + destruct (IH s2 [] l2 W2 E2 HT) as (ev & o & s3 & ds3 & -> & W3 & K3 & R3 & L3). cbn [mbind option_bind].
      eexists _, o, s3, ds3. split; [done|]. split_and!; [done|by eapply keeps_trans|by apply Hret|].
      intros Hc Hp [_ Ht]%Forall_cons [_ Hz]%Forall_cons. destruct (L3 Hc) as (-> & L4 & L5); [by rewrite P2|done|done|].
      rewrite (proj1 (HE ev)), (proj2 (HE ev)). cbn [length List.filter]. rewrite L4, L5. split_and!; [done|done|].
      unfold uninterrupted at 2. destruct (rd_sel x) as [e|]; [|by subst]. by rewrite <- Herr, Hi.
    + eexists _, _, s2, []. split; [done|]. split_and!; [done|done| |].
      * right. exists x. split; [by left|]. destruct (rd_sel x) as [e|]; [|done]. subst e. split_and!; done.
      * intros _ _ [Ht _]%Forall_cons. unfold tolerable in Ht. destruct (rd_sel x) as [e|]; [|done]. subst e. naive_solver.
  - destruct (acts_spec _ s2 [] W2 (Hx s2 [] W2)) as (s3 & ds3 & -> & W3 & K3 & P3). cbn [mbind option_bind]. destruct (K3 l2 E2) as [[l3 E3] _].
    destruct (IH s3 ds3 l3 W3 E3 HT) as (ev & o & s4 & ds4 & -> & W4 & K4 & R4 & L4). cbn [mbind option_bind].
    eexists _, o, s4, ds4. split; [done|]. split_and!; [done| |by apply Hret|].
    { eapply keeps_trans; [exact K02|]. by eapply keeps_trans. }
    intros Hc Hp [_ Ht]%Forall_cons [Hz0 Hz]%Forall_cons. destruct (L4 Hc) as (-> & L5 & L6); [by rewrite P3, P2|done|done|].
    rewrite (proj1 (HE (TmrPoll :: ev))), (proj2 (HE (TmrPoll :: ev))). cbn [length List.filter is_select is_tmr_poll]. rewrite L5, L6.
    split_and!; [done|done|]. assert (uninterrupted x = true) as ->; [|done]. unfold uninterrupted. destruct (rd_sel x) as [e|]; [|done]. subst e.
    destruct (Z.eqb_spec err EINTR) as [->|]; [done|done].
Qed.
End proofs.

(** ** Dispatch *)
Definition expected (d : ready) (l : list (option nat)) (m : gmap nat re_fhs) : list event :=
  omap (fun p =>
    a ← p; f ← m !! a; h ← f_fh f;
    if ready_flags d (f_fd f) =? 0 then None else Some (Call h (f_arg f) (ready_flags d (f_fd f)))) l.

(** A handler minds its own registration: it may change or close it, and
    register others for descriptors that have not been reported. *)
Definition own_act (d : ready) (a : nat) (x : fd_act) : Prop :=
  match x with
  | AListen (Some b) _ _ _ _ _ _ | AClose (Some b) => b = a
  | AListen None fd _ _ _ _ _ => ready_flags d fd = 0
  | AClose None | ACancel => True
  end.
Definition minds_own (FD_SETSIZE : Z) (handler : nat -> nat -> Z -> re -> list fd_act) (d : ready) : Prop :=
  forall s ds a f h, wf s ds -> r_mem s !! a = Some f -> f_fh f = Some h ->
    let xs := handler h (f_arg f) (ready_flags d (f_fd f)) s in acts_ok FD_SETSIZE xs s /\ Forall (own_act d a) xs.

Section dispatch.
Context (FD_SETSIZE : Z) (HF : 0 < FD_SETSIZE) (handler : nat -> nat -> Z -> re -> list fd_act) (d : ready).

(** The places from [i] on are as they were, or taken by registrations that
    nothing was reported for. *)
Definition rest_ok (i : nat) (l0 : list (option nat)) (m0 : gmap nat re_fhs) (s : re) : Prop :=
  exists l, r_fhsl s = Some l /\ length l = length l0 /\
  forall j, (i <= j)%nat ->
    match l0 !! j with
    | Some (Some a) => l !! j = Some (Some a) /\ r_mem s !! a = m0 !! a
    | Some None => l !! j = Some None \/
        exists b f, l !! j = Some (Some b) /\ r_mem s !! b = Some f /\ ready_flags d (f_fd f) = 0
    | None => True
    end.
Definition owned (a i : nat) (s : re) : Prop := exists f, r_mem s !! a = Some f /\ (f_fh f <> None -> f_index f = Some i).

Lemma rest_weaken i l0 m0 s : rest_ok i l0 m0 s -> rest_ok (S i) l0 m0 s.
Proof. intros (l & E & Hl & H). exists l. split_and!; [done|done|]. intros j Hj. apply H. lia. Qed.

(** Who is in a later place is not [a], whose place is [i]. *)
Lemma later_other s ds l i j a b :
  wf s ds -> r_fhsl s = Some l -> owned a i s -> (S i <= j)%nat -> l !! j = Some (Some b) -> b <> a.
Proof.
  intros W E (f & Ef & Hf) Hj Hl ->. destruct (tb_slots _ _ (wf_table_of _ _ _ W E) j a Hl) as (g & Eg & Hi & _ & Hh & _).
  rewrite Ef in Eg. injection Eg as <-. rewrite (Hf Hh) in Hi. injection Hi as <-. lia.
Qed.

(** A change of [a] and of its place leaves the later places as they are. *)
Lemma rest_change s s' ds l l' i a f l0 m0 :
  wf s ds -> r_fhsl s = Some l -> owned a i s -> rest_ok (S i) l0 m0 s ->
  r_fhsl s' = Some l' -> length l' = length l -> (forall j, (S i <= j)%nat -> l' !! j = l !! j) ->
  r_mem s' = <[a := f]> (r_mem s) -> rest_ok (S i) l0 m0 s'.
Proof.
  intros W E Ho (l1 & E1 & Hl1 & H) E' Hl' Hj' Em. rewrite E in E1. injection E1 as <-. exists l'. split_and!; [done|lia|].
  intros j Hj. specialize (H j Hj). rewrite Hj' by done. destruct (l0 !! j) as [[b|]|]; [| |done].
  - destruct H as [H1 H2]. split; [done|]. rewrite Em, lookup_insert_ne; [done|]. pose proof (later_other s ds l i j a b W E Ho Hj H1). congruence.
  - destruct H as [H|(b & g & H1 & H2 & H3)]; [by left|]. right. exists b, g. split_and!; [done| |done].
    rewrite Em, lookup_insert_ne; [done|]. pose proof (later_other s ds l i j a b W E Ho Hj H1). congruence.
Qed.

Lemma act_rest x s ds i a l0 m0 :
  wf s ds -> rest_ok (S i) l0 m0 s -> owned a i s -> act_ok x s -> own_act d a x ->
  exists s' ds', run_act FD_SETSIZE x s = Some s' /\ wf s' ds' /\ rest_ok (S i) l0 m0 s' /\ owned a i s'.
Proof.
  intros W HR Ho Hx Hd. pose proof HR as (l & E & Hl & HRl). pose proof Ho as (f & Ef & Hf).
  destruct x as [[b|] fd flags fh arg ok ans|[b|]|]; cbn [act_ok own_act run_act] in *.
  - subst b. destruct (listen_update FD_SETSIZE HF s ds a fd flags fh arg ok ans W Hx) as (err & p & s' & -> & W' & H).
    exists s', ds. split; [done|]. split; [done|]. destruct H as [->|(g & h & Eg & -> & _ & _)]; [done|].
    rewrite Ef in Eg. injection Eg as <-. split.
    + eapply rest_change; [exact W|exact E|exact Ho|exact HR|exact E|done|done|reflexivity].
    + eexists. cbn [set_fhs set_mem r_mem]. rewrite lookup_insert_eq. split; [done|]. cbn [f_fh f_index]. intros _. apply Hf.
      destruct Hx as (g & Eg & Hg). congruence.
  - destruct (listen_new FD_SETSIZE HF s ds fd flags fh arg ok ans W Hx) as (err & p & s' & -> & W' & _ & _ & H). exists s', ds.
    split; [done|]. split; [done|]. destruct H as [(_ & _ & H)|(b & h & i' & l1 & _ & _ & -> & _ & Em & E1 & Hi' & _ & H)].
    { by rewrite (H l E). }
    pose proof (H l E); subst l1. assert (i' < length l)%nat by (by eapply lookup_lt_Some).
    assert (forall c, is_Some (r_mem s !! c) -> r_mem s' !! c = r_mem s !! c) as Hc.
    { intros c Hc. rewrite Em. apply lookup_insert_ne. intros <-. rewrite Hx in Hc. by destruct Hc. }
    split.
    + exists (<[i' := Some b]> l). rewrite length_insert. split_and!; [done|done|]. intros j Hj. specialize (HRl j Hj).
      destruct (decide (i' = j)) as [<-|Hne].
      * rewrite list_lookup_insert_eq by done. destruct (l0 !! i') as [[c|]|]; [|right|done].
        -- destruct HRl as [H1 _]. congruence.
        -- exists b. eexists. split; [done|]. rewrite Em, lookup_insert_eq. split; [done|]. exact Hd.
      * rewrite list_lookup_insert_ne by done. destruct (l0 !! j) as [[c|]|]; [| |done].
        -- destruct HRl as [H1 H2]. split; [done|]. rewrite Hc; [done|].
           destruct (tb_slots _ _ (wf_table_of _ _ _ W E) j c H1) as (g & Eg & _). by eexists.
        -- destruct HRl as [H1|(c & g & H1 & H2 & H3)]; [by left|]. right. exists c, g. split_and!; [done| |done].
           rewrite Hc; [done|by eexists].
    + exists f. rewrite Hc by (by eexists). done.
  - subst b. destruct (close_spec s ds a W Hx) as (s' & -> & W' & _ & _ & l1 & i1 & g & E1 & Hi1 & E1' & Hg & Em).
    exists s', (a :: ds). split; [done|]. split; [done|]. rewrite E in E1. injection E1 as <-.
    assert (i1 = i) as ->.
    { destruct (tb_slots _ _ (wf_table_of _ _ _ W E) i1 a Hi1) as (g1 & Eg1 & Hi & _ & Hh & _). rewrite Ef in Eg1. injection Eg1 as <-.
      rewrite (Hf Hh) in Hi. by injection Hi as ->. }
    split.
    + eapply rest_change; [exact W|exact E|exact Ho|exact HR|exact E1'|by rewrite length_insert| |exact Em].
      intros j Hj. apply list_lookup_insert_ne. lia.
    + exists g. rewrite Em, lookup_insert_eq. split; [done|]. by rewrite Hg.
  - exists s, ds. done.
  - exists (re_cancel s), ds. split; [done|]. split; [by apply set_polling_wf|]. done.
Qed.

Lemma acts_rest xs : forall s ds i a l0 m0,
  wf s ds -> rest_ok (S i) l0 m0 s -> owned a i s -> acts_ok FD_SETSIZE xs s -> Forall (own_act d a) xs ->
  exists s' ds', run_acts FD_SETSIZE xs s = Some s' /\ wf s' ds' /\ rest_ok (S i) l0 m0 s'.
Proof.
  induction xs as [|x xs IH]; intros s ds i a l0 m0 W HR Ho Hok Hd; cbn [run_acts acts_ok] in *; [by exists s, ds|].
  destruct Hok as [Hx Hok]. apply Forall_cons in Hd as [Hd1 Hd].
  destruct (act_rest x s ds i a l0 m0 W HR Ho Hx Hd1) as (s1 & ds1 & E1 & W1 & R1 & O1). rewrite E1 in *. cbn [mbind option_bind].
  by apply (IH s1 ds1 i a).
Qed.

Lemma events_dispatch (HM : minds_own FD_SETSIZE handler d) l0 m0 :
  (forall j a, l0 !! j = Some (Some a) -> slot_ok m0 j a) -> forall k i n s ds,
  wf s ds -> rest_ok i l0 m0 s -> (i + k)%nat = length l0 -> zlen (expected d (drop i l0) m0) <= n ->
  exists s' ds', events_loop FD_SETSIZE handler k i n d s = Some (expected d (drop i l0) m0, s') /\ wf s' ds'.
Proof.
  intros H0 k. induction k as [|k IH]; intros i n s ds W HR Hk Hn; cbn [events_loop].
  { rewrite drop_ge by lia. by exists s, ds. }
  destruct (Z.leb_spec n 0) as [Hz|Hz].
  { destruct (expected d (drop i l0) m0) eqn:Ee; [by exists s, ds|]. cbn [length] in Hn. lia. }
  destruct (lookup_lt_is_Some_2 l0 i ltac:(lia)) as [p0 Hp0]. rewrite (drop_S _ _ _ Hp0) in *.
  pose proof HR as (l & E & Hl & HRl). specialize (HRl i (le_n _)). rewrite Hp0 in HRl. rewrite E. cbn [mbind option_bind].
  assert (forall m, expected d (p0 :: drop (S i) l0) m = match (a ← p0; f ← m !! a; h ← f_fh f;
     if ready_flags d (f_fd f) =? 0 then None else Some (Call h (f_arg f) (ready_flags d (f_fd f)))) with
     | Some e => e :: expected d (drop (S i) l0) m | None => expected d (drop (S i) l0) m end) as Hex by done.
  rewrite Hex in *. destruct p0 as [a|]; cbn [mbind option_bind] in *.
  - destruct HRl as [Hli Hm]. rewrite Hli. cbn [mbind option_bind]. rewrite Hm.
    destruct (H0 i a Hp0) as (f & Ef & Hi & _ & Hh & _). rewrite Ef in *. cbn [mbind option_bind] in *.
    destruct (f_fh f) as [h|] eqn:Eh; [|done]. cbn [mbind option_bind] in *.
    destruct (ready_flags d (f_fd f) =? 0) eqn:Er; [apply (IH (S i) n s ds W (rest_weaken _ _ _ _ HR) ltac:(lia) Hn)|].
    destruct (HM s ds a f h W Hm Eh) as [Hok Hown].
    destruct (acts_rest (handler h (f_arg f) (ready_flags d (f_fd f)) s) s ds i a l0 m0 W (rest_weaken _ _ _ _ HR)) as (s1 & ds1 & -> & W1 & R1); [|exact Hok|exact Hown|].
    { exists f. split; [congruence|]. by rewrite Hi. }
    cbn [mbind option_bind]. cbn [length] in Hn.
    destruct (IH (S i) (n - 1) s1 ds1 W1 R1 ltac:(lia) ltac:(lia)) as (s2 & ds2 & -> & W2). cbn [mbind option_bind]. by exists s2, ds2.
  - destruct HRl as [Hli|(b & f & Hli & Eb & Hr)]; rewrite Hli; cbn [mbind option_bind].
    + apply (IH (S i) n s ds W (rest_weaken _ _ _ _ HR) ltac:(lia) Hn).
    + rewrite Eb. cbn [mbind option_bind]. rewrite Hr. cbn [Z.eqb]. apply (IH (S i) n s ds W (rest_weaken _ _ _ _ HR) ltac:(lia) Hn).
Qed.
End dispatch.

(** ** The theorems *)
Lemma re_alloc_wf : wf re_alloc [].
Proof.
  split; cbn [re_alloc r_fhsl r_mem r_fhsld r_nfds r_method r_maxfds]; try done; try (intros a f; by rewrite lookup_empty). constructor.
Qed.

(** C20. The event loop is safe and goes on.  From an empty loop, after any
    registrations, with handlers of descriptors, signals and timers that do
    whatever they like to registrations that are open (themselves and others,
    while events for them are pending), and whatever [select] answers: the loop
    never touches a freed registration or anything beyond its table, and the
    bookkeeping stays right ([nfds] counts the places in use, each place and its
    registration know each other, what is closed waits once to be freed).  It
    returns an error only if the set-up failed or [select] reported it; and if
    nobody cancels it and [select] is at most interrupted, it is still running
    after any number of rounds, has waited in every round and polled the timers
    in every round that was not interrupted. *)
Theorem event_loop_safe (FD_SETSIZE : Z) (handler : nat -> nat -> Z -> re -> list fd_act)
    (signalh : option (Z -> re -> list fd_act)) (inits : list fd_act) (ok : bool) (rs : list round) :
  0 < FD_SETSIZE -> (forall h arg flags, obeys FD_SETSIZE (handler h arg flags)) ->
  (forall h, signalh = Some h -> forall sig, obeys FD_SETSIZE (h sig)) ->
  acts_ok FD_SETSIZE inits re_alloc -> Forall (fun x => obeys FD_SETSIZE (rd_timers x)) rs ->
  ACancel ∉ inits ->
  exists s ev o s' ds, run_acts FD_SETSIZE inits re_alloc = Some s /\
    re_main FD_SETSIZE handler signalh ok rs s = Some (ev, o, s') /\ wf s' ds /\
    match o with
    | Returned err =>
        err = 0 \/ (err <> 0 /\ err = fst (poll_setup FD_SETSIZE ok s))
        \/ (exists x, x ∈ rs /\ rd_sel x = inl err /\ err <> EINTR /\ err <> WSAEINVAL)
    | Running => True
    end /\
    (calm handler signalh -> fst (poll_setup FD_SETSIZE ok s) = 0 -> Forall tolerable rs ->
     Forall (fun x => forall s, ACancel ∉ rd_timers x s) rs ->
     o = Running /\ length (List.filter is_select ev) = length rs
     /\ length (List.filter is_tmr_poll ev) = length (List.filter uninterrupted rs)).
Proof.
  intros HF HH HS Hi HT Hc. destruct (acts_spec FD_SETSIZE HF inits re_alloc [] re_alloc_wf Hi) as (s & ds & E & W & _ & P).
  specialize (P Hc). unfold re_main. exists s. rewrite P. cbn [re_alloc r_polling].
  pose proof (poll_setup_wf FD_SETSIZE HF ok s ds W) as HP. destruct (poll_setup FD_SETSIZE ok s) as [err s1]. cbn [fst].
  destruct HP as (W1 & _ & Hl & _). destruct (Z.eqb_spec err 0) as [->|He]; cbn [negb].
  2: { eexists [], _, _, ds. split; [done|]. split; [done|]. split; [by apply set_polling_wf|]. split; [by right; left|done]. }
  destruct (Hl eq_refl) as [l El].
  destruct (main_loop_safe FD_SETSIZE HF handler HH signalh HS rs (set_polling true s1) ds l (set_polling_wf _ _ _ W1) El HT)
    as (ev & o & s' & ds' & -> & W' & _ & R' & L'). cbn [mbind option_bind].
  eexists ev, o, _, ds'. split; [done|]. split; [done|]. split; [destruct o; [done|by apply set_polling_wf]|].
  split; [|intros C _ T Z; by apply L'].
  destruct o as [|err]; [done|]. destruct R' as [[-> _]|(x & Hx & H1 & _ & H2)]; [by left|]. right. right. by exists x.
Qed.

(** Events reach their handlers: in a poll, [select] is asked about exactly
    the descriptors of the open registrations, for what each wants to know, and
    with the time until the next timer; then every registration whose descriptor
    is reported has its handler called exactly once, in the order of the table,
    with its argument and exactly the conditions reported, and no other is
    called.  The handlers may change or close their own registration and make
    new ones for descriptors that are not reported; the number that [select]
    returns is at least the number of registrations concerned. *)
Theorem fd_poll_dispatches (FD_SETSIZE : Z) (handler : nat -> nat -> Z -> re -> list fd_act) (to : Z) (d : ready)
    (s : re) (ds : list nat) (l : list (option nat)) :
  0 < FD_SETSIZE -> minds_own FD_SETSIZE handler d -> wf s ds -> r_fhsl s = Some l ->
  zlen (expected d l (r_mem s)) <= d_n d -> 0 < to < 2 ^ 31 ->
  exists tv s', fd_poll FD_SETSIZE handler to (inr d) s
    = Some (0, Select (Some tv) (watched FD_READ s) (watched FD_WRITE s) (watched FD_EXCEPT s) :: expected d l (r_mem s), s')
    /\ wf s' [] /\ fst tv * 1000000 + snd tv = to * 1000 /\ 0 <= snd tv < 1000000.
Proof.
  intros HF HM W E Hn Hto. pose proof (wf_table_of _ _ _ W E) as T. unfold fd_poll.
  rewrite (tb_method _ _ T), (poll_sets s ds l W E). cbn [mbind option_bind].
  destruct (events_dispatch FD_SETSIZE HF handler d HM l (r_mem s) (tb_slots _ _ T) (Z.to_nat (r_maxfds s)) 0 (d_n d) s ds W) as (s1 & ds1 & -> & W1).
  - exists l. split_and!; [done|done|]. intros j _. destruct (l !! j) as [[a|]|]; [done|by left|done].
  - pose proof (tb_len _ _ T). lia.
  - by rewrite drop_0.
  - cbn [mbind option_bind]. rewrite drop_0. destruct (flush_spec s1 ds1 W1) as (s2 & -> & W2 & _). cbn [mbind option_bind].
    unfold timeout_val. destruct (Z.eqb_spec to 0); [lia|]. eexists _, s2. split; [reflexivity|]. split; [done|]. cbn [fst snd].
    unfold i32. rewrite (Z.mod_small (to + 2147483648)) by lia. replace (to + 2147483648 - 2147483648) with to by lia.
    rewrite Z.quot_div_nonneg by lia. pose proof (Z.mod_pos_bound to 1000 ltac:(lia)). pose proof (Z.div_mod to 1000 ltac:(lia)).
    rewrite !u32_small by (rewrite ?u32_small; lia). lia.
Qed.

(** ** Examples *)
Definition next_address (m : gmap nat re_fhs) : nat := S (foldr Nat.max 0%nat (map fst (map_to_list m))).
Lemma next_address_free m : m !! next_address m = None.
Proof.
  destruct (m !! next_address m) as [f|] eqn:E; [|done]. exfalso. apply elem_of_map_to_list in E.
  assert (forall x l, x ∈ l -> (x <= foldr Nat.max 0 l)%nat) as H.
  { intros x l. induction l as [|y l IH]; [by intros ?%elem_of_nil|]. intros [->|Hx]%elem_of_cons; cbn [foldr]; [lia|]. specialize (IH Hx). lia. }
  specialize (H (next_address m) (map fst (map_to_list m))). unfold next_address in *.
  assert (S (foldr Nat.max 0 (map fst (map_to_list m))) <= foldr Nat.max 0 (map fst (map_to_list m)))%nat; [|lia].
  apply H. apply list_elem_of_In, in_map_iff. eexists (_, f). split; [done|]. by apply list_elem_of_In.
Qed.

(** A listening socket (descriptor 5) whose handler accepts connections on
    descriptor 7, and a connection (descriptor 6). *)
Definition demo_inits : list fd_act :=
  [AListen None 5 FD_READ (Some 1%nat) 10 true (Some 100%nat); AListen None 6 3 (Some 2%nat) 20 true (Some 101%nat)].
Definition demo_handler (h arg : nat) (flags : Z) (s : re) : list fd_act :=
  if decide (h = 1%nat) then [AListen None 7 FD_READ (Some 2%nat) 30 true (Some (next_address (r_mem s)))] else [].
Lemma demo_obeys h arg flags : obeys 4 (demo_handler h arg flags).
Proof.
  intros s ds W. unfold demo_handler. destruct (decide (h = 1%nat)); [|done]. cbn [acts_ok act_ok]. split; [apply next_address_free|].
  by destruct (run_act _ _ _).
Qed.
Definition demo_ready : ready := Ready 3 [5; 6] [6] [].
Definition demo_rounds : list round := [Round 0 50 (inr demo_ready) (fun _ => []); Round 0 0 (inl EINTR) (fun _ => [])].
Lemma demo_inits_ok : acts_ok 4 demo_inits re_alloc.
Proof. vm_compute. repeat split. Qed.

Lemma demo_inits_calm : ACancel ∉ demo_inits.
Proof. unfold demo_inits. rewrite !not_elem_of_cons. split_and!; [done|done|apply not_elem_of_nil]. Qed.

Lemma event_loop_safe_witness :
  exists s ev o s', run_acts 4 demo_inits re_alloc = Some s /\
    re_main 4 demo_handler None true demo_rounds s = Some (ev, o, s') /\ o = Running /\ length (List.filter is_select ev) = 2%nat.
Proof.
  destruct (event_loop_safe 4 demo_handler None demo_inits true demo_rounds ltac:(reflexivity) demo_obeys ltac:(discriminate)
    demo_inits_ok ltac:(repeat constructor) demo_inits_calm)
    as (s & ev & o & s' & ds & E1 & E2 & _ & _ & H).
  exists s, ev, o, s'. split; [exact E1|]. split; [exact E2|]. destruct H as (H1 & H2 & _).
  - split; [|discriminate]. intros h arg flags s0. unfold demo_handler. destruct (decide (h = 1%nat)); [|apply not_elem_of_nil].
    rewrite not_elem_of_cons. split; [discriminate|apply not_elem_of_nil].
  - clear -E1. vm_compute in E1. injection E1 as <-. vm_compute. reflexivity.
  - repeat constructor.
  - repeat constructor; intros s0; apply not_elem_of_nil.
  - split; [exact H1|exact H2].
Defined.

Definition demo_loop : re := default re_alloc (run_acts 4 demo_inits re_alloc).
Lemma demo_loop_wf : exists ds, wf demo_loop ds.
Proof.
  destruct (acts_spec 4 ltac:(done) demo_inits re_alloc [] re_alloc_wf demo_inits_ok) as (s & ds & E & W & _).
  unfold demo_loop. rewrite E. by exists ds.
Qed.
Lemma demo_minds d : ready_flags d 7 = 0 -> minds_own 4 demo_handler d.
Proof.
  intros H7 s ds a f h W E Hf xs. split; [by eapply demo_obeys|]. unfold xs, demo_handler.
  destruct (decide (h = 1%nat)); repeat constructor. exact H7.
Qed.
Lemma fd_poll_dispatches_witness :
  exists tv s', fd_poll 4 demo_handler 50 (inr demo_ready) demo_loop
    = Some (0, [Select (Some tv) [5; 6] [6] []; Call 1 10 1; Call 2 20 3], s') /\ fst tv * 1000000 + snd tv = 50000.
Proof.
  destruct demo_loop_wf as [ds W].
  destruct (fd_poll_dispatches 4 demo_handler 50 demo_ready demo_loop ds [Some 100%nat; Some 101%nat; None; None] ltac:(reflexivity)
    (demo_minds demo_ready eq_refl) W ltac:(vm_compute; reflexivity) ltac:(vm_compute; discriminate) ltac:(split; reflexivity))
    as (tv & s' & E & _ & Ht & _).
  exists tv, s'. split; [|exact Ht]. rewrite E. vm_compute. reflexivity.
Defined.

(** A handler that closes another connection whose event is pending and opens a
    new one that gets the same descriptor: the event of the old connection is
    delivered to the handler of the new one. *)
Definition stale_handler (h arg : nat) (flags : Z) (s : re) : list fd_act :=
  if decide (h = 1%nat) then [AClose (Some 101%nat); AListen None 6 FD_READ (Some 3%nat) 30 true (Some 102%nat)] else [].
Lemma stale_event :
  option_map (fun x => snd (fst x)) (fd_poll 4 stale_handler 50 (inr (Ready 2 [5; 6] [] [])) demo_loop)
  = Some [Select (Some (0, 50000)) [5; 6] [6] []; Call 1 10 1; Call 3 30 1].
Proof. vm_compute. reflexivity. Qed.
(** The time that [select] may wait is a 32-bit number of milliseconds: a timer
    that is due in 25 days gives a negative one. *)
Lemma timeout_wraps : timeout_val (25 * 24 * 3600 * 1000) = Some (-2134967, 0).
Proof. vm_compute. reflexivity. Qed.
