(* ===== verification/TcpConn.v ===== *)
(** * TCP connections ([src/re-4.6.0/src/tcp/tcp.c])

    The sending side of a connection -- a message is written at once, and what
    the system does not take is queued and written when the socket becomes
    writable -- and the event handler that calls the application back.

    What the operating system answers is an argument ([os]) of every operation;
    each asks for at most one [send], one [recv], one [getsockopt] and one
    [fd_listen].  Octets that the system has taken are appended to [tc_wire].  The
    program registers neither helpers (TLS) nor a send handler, and they are left
    out. *)
From S2P Require Import Prelude Sys.
Local Open Scope Z_scope.

Definition ENOSPC : Z := 28.
Definition ENOTCONN : Z := 107.
Definition FD_READ : Z := 1.
Definition FD_WRITE : Z := 2.
Definition FD_EXCEPT : Z := 4.
Definition TCP_TXQSZ_DEFAULT : Z := 524288.
Definition TCP_RXSZ_DEFAULT : Z := 8192.

(** [struct tcp_conn]; an entry of the queue is what is left of its buffer,
    [tc_watch] the events that are polled for. *)
Record tcp_conn := TcpConn {
  tc_fdc : bool;
  tc_sendq : list bytes;
  tc_txqsz : Z;
  tc_txqsz_max : Z;
  tc_active : bool;
  tc_connected : bool;
  tc_watch : Z;
  tc_wire : bytes
}.

(** The answers of the system to one operation. *)
Inductive send_result := Sent (n : Z) | SendErr (e : Z).
Inductive recv_result := Received (d : bytes) | RecvErr (e : Z).
Record os := Os {
  os_send : send_result;
  os_recv : recv_result;
  os_soerr : option Z;     (* SO_ERROR, or getsockopt fails *)
  os_listen : Z;           (* error of fd_listen *)
  os_qent : bool;          (* memory for a queue entry *)
  os_buf : bool            (* memory for a buffer *)
}.

(** What the application is told. *)
Inductive upcall := Estab | Recv (d : bytes) | Close (err : Z).

Definition set_queue (q : list bytes) (sz : Z) (w : bytes) (tc : tcp_conn) : tcp_conn :=
  TcpConn (tc_fdc tc) q sz (tc_txqsz_max tc) (tc_active tc) (tc_connected tc) (tc_watch tc) w.
Definition set_watch (fl : Z) (tc : tcp_conn) : tcp_conn :=
  TcpConn (tc_fdc tc) (tc_sendq tc) (tc_txqsz tc) (tc_txqsz_max tc) (tc_active tc) (tc_connected tc) fl (tc_wire tc).
Definition set_connected (tc : tcp_conn) : tcp_conn :=
  TcpConn (tc_fdc tc) (tc_sendq tc) (tc_txqsz tc) (tc_txqsz_max tc) (tc_active tc) true (tc_watch tc) (tc_wire tc).

(** The error of a socket that would block, by its POSIX and its Windows name. *)
Definition WSAEWOULDBLOCK : Z := 10035.
Definition WSAECONNABORTED : Z := 10053.
Definition WSAECONNRESET : Z := 10054.
Definition would_block (e : Z) : bool := (e =? EAGAIN) || (e =? WSAEWOULDBLOCK).

(** [fd_listen] *)
Definition listen (o : os) (fl : Z) (tc : tcp_conn) : Z * tcp_conn :=
  if os_listen o =? 0 then (0, set_watch fl tc) else (os_listen o, tc).

(** ** Sending *)
Definition enqueue (tc : tcp_conn) (d : bytes) (o : os) : Z * tcp_conn :=
  if tc_txqsz tc + zlen d >? tc_txqsz_max tc then (ENOSPC, tc)
  else
    let '(err, tc) := match tc_sendq tc with
                      | [] => listen o (FD_READ + FD_WRITE) tc
                      | _ => (0, tc)
                      end in
    if negb (err =? 0) then (err, tc)
    else if negb (os_qent o) then (ENOMEM, tc)
    else if negb (os_buf o) then (ENOMEM, tc)
    else (0, set_queue (tc_sendq tc ++ [d]) (u64 (tc_txqsz tc + zlen d)) (tc_wire tc) tc).

Definition dequeue (tc : tcp_conn) (o : os) : Z * tcp_conn :=
  match tc_sendq tc with
  | [] => (0, tc)
  | d :: q =>
      match os_send o with
      | SendErr e => (if would_block e then 0 else e, tc)
      | Sent n =>
          let sz := u64 (tc_txqsz tc - n) in
          let w := tc_wire tc ++ take (Z.to_nat n) d in
          let d := drop (Z.to_nat n) d in
          (0, set_queue (match d with [] => q | _ => d :: q end) sz w tc)
      end
  end.

Definition tcp_send_internal (tc : tcp_conn) (d : bytes) (o : os) : Z * tcp_conn :=
  if negb (tc_fdc tc) then (ENOTCONN, tc)
  else
    match d with
    | [] => (EINVAL, tc)
    | _ =>
        match tc_sendq tc with
        | _ :: _ => enqueue tc d o
        | [] =>
            match os_send o with
            | SendErr e => if would_block e then enqueue tc d o else (e, tc)
            | Sent n =>
                let tc := set_queue [] (tc_txqsz tc) (tc_wire tc ++ take (Z.to_nat n) d) tc in
                if n <? zlen d then enqueue tc (drop (Z.to_nat n) d) o else (0, tc)
            end
        end
    end.
Definition tcp_send := tcp_send_internal.

(** ** The event handler *)
Definition conn_close (tc : tcp_conn) (err : Z) : tcp_conn * list upcall :=
  (TcpConn false [] 0 (tc_txqsz_max tc) (tc_active tc) (tc_connected tc) 0 (tc_wire tc), [Close err]).

(** From the label [read] on. *)
Definition read_data (tc : tcp_conn) (o : os) : tcp_conn * list upcall :=
  if negb (os_buf o) then (tc, [])
  else
    match os_recv o with
    | Received [] => conn_close tc 0
    | RecvErr e => if (e =? WSAECONNRESET) || (e =? WSAECONNABORTED) then conn_close tc e else (tc, [])
    | Received d => (tc, [Recv d])
    end.

Definition tcp_recv_handler (tc : tcp_conn) (flags : Z) (o : os) : tcp_conn * list upcall :=
  let soerr := if tc_active tc && negb (tc_connected tc) then os_soerr o else Some 0 in
  match soerr with
  | None => (tc, [])
  | Some err =>
      if negb (err =? 0) then conn_close tc err
      else if Z.testbit flags 1 then
        if tc_connected tc then
          let '(err, tc) := dequeue tc o in
          if negb (err =? 0) then conn_close tc err
          else
            let '(err, tc) := match tc_sendq tc with
                              | [] => listen o FD_READ tc
                              | _ => (0, tc)
                              end in
            if negb (err =? 0) then conn_close tc err
            else if Z.testbit flags 0 then read_data tc o else (tc, [])
        else
          let '(err, tc) := listen o FD_READ (set_connected tc) in
          if negb (err =? 0) then conn_close tc err else (tc, [Estab])
      else read_data tc o
  end.

(** ** Set-up and release *)
Definition conn_alloc : tcp_conn := TcpConn false [] 0 TCP_TXQSZ_DEFAULT false false 0 [].

(** [tcp_accept]: the descriptor [fdc] of the listening socket is handed over. *)
Definition tcp_accept (fdc : bool) (o : os) : Z + tcp_conn :=
  if negb fdc then inl EINVAL
  else if negb (os_qent o) then inl ENOMEM
  else
    let tc := TcpConn true [] 0 TCP_TXQSZ_DEFAULT false false 0 [] in
    let '(err, tc) := listen o (FD_READ + FD_WRITE + FD_EXCEPT) tc in
    if negb (err =? 0) then inl err else inr tc.

Definition tcp_conn_txqsz_set (tc : tcp_conn) (sz : Z) : tcp_conn :=
  TcpConn (tc_fdc tc) (tc_sendq tc) (tc_txqsz tc) sz (tc_active tc) (tc_connected tc) (tc_watch tc) (tc_wire tc).
Definition tcp_conn_txqsz (tc : tcp_conn) : Z := tc_txqsz tc.

(** [conn_destructor]: the queue is dropped with the connection. *)
Definition conn_destructor (tc : tcp_conn) : tcp_conn :=
  TcpConn false [] (tc_txqsz tc) (tc_txqsz_max tc) (tc_active tc) (tc_connected tc) 0 (tc_wire tc).

(** ** The stream

    The contract of a connection: the octets of the messages it accepted, in
    order.  [A] is that stream. *)
Record conn_wf (tc : tcp_conn) : Prop := {
  wf_entries : Forall (fun d => d <> []) (tc_sendq tc);
  wf_size : tc_txqsz tc = zlen (concat (tc_sendq tc));
  wf_max : tc_txqsz tc <= tc_txqsz_max tc < 9223372036854775808;
  wf_closed : tc_fdc tc = false -> tc_sendq tc = [] }.

Definition stream (tc : tcp_conn) (A : bytes) : Prop :=
  if tc_fdc tc then tc_wire tc ++ concat (tc_sendq tc) = A else exists r, tc_wire tc ++ r = A.

(** An answer that the system can give to a write of [d]. *)
Definition send_ok (d : bytes) (o : os) : Prop :=
  match os_send o with Sent n => 0 <= n <= zlen d | SendErr e => e <> 0 end.

Inductive tcp_op := Send (d : bytes) (o : os) | Event (flags : Z) (o : os).
Definition op_conn (op : tcp_op) (tc : tcp_conn) : tcp_conn :=
  match op with
  | Send d o => (tcp_send tc d o).2
  | Event fl o => (tcp_recv_handler tc fl o).1
  end.
Definition op_ok (op : tcp_op) (tc : tcp_conn) : Prop :=
  match op with
  | Send d o => send_ok d o
  | Event _ o => match tc_sendq tc with d :: _ => send_ok d o | [] => True end
  end.

(** A message that is refused leaves behind what the system has taken of it. *)
Definition torn (tc : tcp_conn) (d : bytes) (o : os) : bytes :=
  match tc_fdc tc, tc_sendq tc, os_send o with
  | true, [], Sent n => take (Z.to_nat n) d
  | _, _, _ => []
  end.
Definition op_stream (op : tcp_op) (tc : tcp_conn) (A : bytes) : bytes :=
  match op with
  | Send d o => if (tcp_send tc d o).1 =? 0 then A ++ d else A ++ torn tc d o
  | Event _ _ => A
  end.

Lemma concat_snoc (q : list bytes) d : concat (q ++ [d]) = concat q ++ d.
Proof. rewrite concat_app. cbn. by rewrite app_nil_r. Qed.

Lemma enqueue_spec tc d o :
  conn_wf tc -> tc_fdc tc = true -> d <> [] ->
  let '(err, tc') := enqueue tc d o in
  conn_wf tc' /\ tc_fdc tc' = true /\ tc_wire tc' = tc_wire tc /\
  concat (tc_sendq tc') = concat (tc_sendq tc) ++ (if err =? 0 then d else []).
Proof.
  intros [We Ws Wm Wc] Hf Hd. unfold enqueue.
  destruct (Z.gtb_spec (tc_txqsz tc + zlen d) (tc_txqsz_max tc)).
  { rewrite app_nil_r. repeat split; (done || lia). }
  assert (forall tc1, conn_wf tc1 -> tc_fdc tc1 = true -> tc_wire tc1 = tc_wire tc -> tc_sendq tc1 = tc_sendq tc ->
    tc_txqsz tc1 = tc_txqsz tc -> tc_txqsz_max tc1 = tc_txqsz_max tc ->
    let '(err, tc') :=
      if negb (os_qent o) then (ENOMEM, tc1) else if negb (os_buf o) then (ENOMEM, tc1)
      else (0, set_queue (tc_sendq tc1 ++ [d]) (u64 (tc_txqsz tc1 + zlen d)) (tc_wire tc1) tc1) in
    conn_wf tc' /\ tc_fdc tc' = true /\ tc_wire tc' = tc_wire tc /\
    concat (tc_sendq tc') = concat (tc_sendq tc) ++ (if err =? 0 then d else [])) as Hrest.
  { intros tc1 W1 F1 Hw Hq Hs Hm. destruct (os_qent o), (os_buf o); cbn [negb];
      try (rewrite app_nil_r, Hq; by split_and!).
    cbn [Z.eqb set_queue tc_fdc tc_wire tc_sendq]. rewrite Hq, concat_snoc. split_and!; [|done|done|done].
    destruct W1. split; cbn [set_queue tc_sendq tc_txqsz tc_txqsz_max tc_fdc].
    - apply Forall_app_2; [done|by repeat constructor].
    - rewrite concat_snoc, length_app, Nat2Z.inj_add, Hs, <- Ws. unfold u64. apply Z.mod_small. lia.
    - unfold u64. rewrite Hs, Hm, Z.mod_small by lia. lia.
    - by rewrite F1. }
  destruct (tc_sendq tc) as [|x q] eqn:Eq.
  - unfold listen. destruct (os_listen o =? 0) eqn:El; cbn [negb Z.eqb].
    + apply Hrest; cbn [set_watch tc_fdc tc_wire tc_sendq tc_txqsz tc_txqsz_max]; try done. split; cbn; rewrite ?Eq; done.
    + rewrite El. cbn [negb]. rewrite El, Eq. split; [|by repeat split]. by split; rewrite ?Eq.
  - cbn [Z.eqb negb]. apply Hrest; try done. by split; rewrite ?Eq.
Qed.

Lemma dequeue_spec tc o :
  conn_wf tc -> (match tc_sendq tc with d :: _ => send_ok d o | [] => True end) ->
  let '(err, tc') := dequeue tc o in
  conn_wf tc' /\ tc_fdc tc' = tc_fdc tc /\ tc_connected tc' = tc_connected tc /\ tc_watch tc' = tc_watch tc /\
  tc_wire tc' ++ concat (tc_sendq tc') = tc_wire tc ++ concat (tc_sendq tc).
Proof.
  intros W Ho. pose proof W as [We Ws Wm Wc]. unfold dequeue, send_ok in *. destruct (tc_sendq tc) as [|d q] eqn:Eq.
  { rewrite Eq. by split_and!. }
  destruct (os_send o) as [n|e]; [|rewrite Eq; by split_and!].
  cbn [set_queue tc_fdc tc_connected tc_watch tc_wire tc_sendq].
  set (q' := match drop (Z.to_nat n) d with [] => q | _ :: _ => drop (Z.to_nat n) d :: q end).
  assert (concat q' = drop (Z.to_nat n) d ++ concat q) as Hc by (unfold q'; by destruct (drop (Z.to_nat n) d)).
  cbn [concat] in Ws. rewrite length_app, Nat2Z.inj_add in Ws.
  assert (zlen (concat q') = tc_txqsz tc - n) as Hz.
  { rewrite Hc, length_app, length_drop. lia. }
  split_and!; try done; cbn [concat].
  - inversion We as [|? ? Hd Hq]; subst. split; cbn [set_queue tc_sendq tc_txqsz tc_txqsz_max tc_fdc].
    + unfold q'. destruct (drop (Z.to_nat n) d) eqn:E; [done|by constructor].
    + rewrite Hz. unfold u64. apply Z.mod_small. lia.
    + unfold u64. rewrite Z.mod_small by lia. lia.
    + intros Hf. by specialize (Wc Hf).
  - by rewrite Hc, <- app_assoc, (app_assoc (take _ _)), take_drop.
Qed.

Lemma send_stream tc d o A :
  conn_wf tc -> stream tc A -> send_ok d o ->
  conn_wf (tcp_send tc d o).2 /\ stream (tcp_send tc d o).2 (op_stream (Send d o) tc A) /\
  tc_fdc (tcp_send tc d o).2 = tc_fdc tc.
Proof.
  intros W S Ho. unfold op_stream, torn, tcp_send, tcp_send_internal, send_ok in *.
  destruct (tc_fdc tc) eqn:Ef; cbn [negb fst snd];
    [|split_and!; [done| |done]; unfold stream in *; rewrite Ef in *; by rewrite app_nil_r].
  assert (stream tc A <-> tc_wire tc ++ concat (tc_sendq tc) = A) as HS by (unfold stream; by rewrite Ef).
  destruct d as [|c d'].
  { cbn [fst snd]. change (EINVAL =? 0) with false. split_and!; [done| |done].
    destruct (tc_sendq tc), (os_send o); by rewrite ?take_nil, app_nil_r. }
  set (d := c :: d') in *. assert (d <> []) as Hd by done. clearbody d. clear c d'.
  assert (forall tc1 x, conn_wf tc1 -> tc_fdc tc1 = true -> x <> [] -> let r := enqueue tc1 x o in
    conn_wf r.2 /\ tc_fdc r.2 = true /\
    stream r.2 (tc_wire tc1 ++ concat (tc_sendq tc1) ++ (if r.1 =? 0 then x else []))) as Hq.
  { intros tc1 x W1 F1 Hx r. pose proof (enqueue_spec tc1 x o W1 F1 Hx) as H. fold r in H.
    destruct r as [e tc']. destruct H as (W' & F' & Hw & Hc). cbn [fst snd].
    split_and!; [done|done|]. unfold stream. by rewrite F', Hw, Hc. }
  destruct (tc_sendq tc) as [|x q] eqn:Eq.
  2:{ destruct (Hq tc d W Ef Hd) as (W' & F' & S'). split_and!; [done| |done].
      rewrite Eq in S'. apply HS in S. subst A. destruct (_ =? 0); rewrite ?app_nil_r, <- ?app_assoc in *; done. }
  destruct (os_send o) as [n|e] eqn:Es.
  - set (tc1 := set_queue [] (tc_txqsz tc) (tc_wire tc ++ take (Z.to_nat n) d) tc).
    assert (conn_wf tc1) as W1 by (destruct W; split; cbn; rewrite ?Eq in *; done).
    apply HS in S. cbn [concat] in S. rewrite app_nil_r in S. subst A.
    destruct (Z.ltb_spec n (zlen d)) as [Hn|Hn].
    + assert (drop (Z.to_nat n) d <> []) as Hx.
      { intros Hx. apply (f_equal length) in Hx. rewrite length_drop in Hx. cbn in Hx. lia. }
      destruct (Hq tc1 _ W1 Ef Hx) as (W' & F' & S'). split_and!; [done| |done].
      cbn [tc1 set_queue tc_wire tc_sendq concat app] in S'. rewrite <- app_assoc in S'.
      destruct (_ =? 0); [by rewrite take_drop in S'|by rewrite app_nil_r in S'].
    + cbn [fst snd Z.eqb]. split_and!; [done| |done]. unfold stream. cbn [tc1 set_queue tc_fdc tc_wire tc_sendq concat].
      rewrite Ef, app_nil_r, take_ge by lia. done.
  - apply HS in S. cbn [concat] in S. rewrite app_nil_r in S. subst A. destruct (would_block e).
    + destruct (Hq tc d W Ef Hd) as (W' & F' & S'). split_and!; [done| |done].
      rewrite Eq in S'. cbn [concat app] in S'. destruct (_ =? 0); [done|]. by rewrite app_nil_r in *.
    + cbn [fst snd]. apply Z.eqb_neq in Ho. rewrite Ho, app_nil_r. split_and!; [done| |done].
      unfold stream. by rewrite Ef, Eq, app_nil_r.
Qed.

Lemma close_stream tc A e : conn_wf tc -> stream tc A -> conn_wf (conn_close tc e).1 /\ stream (conn_close tc e).1 A.
Proof.
  intros W S. split; [destruct W; split; cbn; try done; lia|]. unfold stream in *. cbn [conn_close fst tc_fdc tc_wire].
  destruct (tc_fdc tc); eauto.
Qed.

Lemma listen_stream tc A o fl :
  conn_wf tc -> stream tc A -> conn_wf (listen o fl tc).2 /\ stream (listen o fl tc).2 A.
Proof.
  intros W S. unfold listen. destruct (os_listen o =? 0); [|done]. split; [|exact S].
  destruct W. by split.
Qed.

Lemma read_stream tc A o : conn_wf tc -> stream tc A -> conn_wf (read_data tc o).1 /\ stream (read_data tc o).1 A.
Proof.
  intros W S. unfold read_data. destruct (negb (os_buf o)); [done|].
  destruct (os_recv o) as [[|c d]|e]; [by apply close_stream|done|].
  destruct (_ || _); [by apply close_stream|done].
Qed.

Lemma event_stream tc fl o A :
  conn_wf tc -> stream tc A -> op_ok (Event fl o) tc ->
  conn_wf (tcp_recv_handler tc fl o).1 /\ stream (tcp_recv_handler tc fl o).1 A.
Proof.
  intros W S Ho. unfold tcp_recv_handler, op_ok in *.
  destruct (if tc_active tc && negb (tc_connected tc) then os_soerr o else Some 0) as [err|]; [|done].
  destruct (negb (err =? 0)); [by apply close_stream|].
  destruct (Z.testbit fl 1); [|by apply read_stream]. destruct (tc_connected tc).
  - pose proof (dequeue_spec tc o W Ho) as H. destruct (dequeue tc o) as [e1 tc1].
    destruct H as (W1 & F1 & _ & _ & Hw).
    assert (stream tc1 A) as S1.
    { unfold stream in *. rewrite F1. destruct (tc_fdc tc) eqn:Ef; [congruence|].
      rewrite (wf_closed _ W Ef), (wf_closed _ W1 F1), !app_nil_r in Hw. by rewrite Hw. }
    destruct (negb (e1 =? 0)); [by apply close_stream|].
    assert (let r := match tc_sendq tc1 with [] => listen o FD_READ tc1 | _ :: _ => (0, tc1) end in
            conn_wf r.2 /\ stream r.2 A) as H2 by (destruct (tc_sendq tc1); [by apply listen_stream|done]).
    destruct (match tc_sendq tc1 with [] => listen o FD_READ tc1 | _ :: _ => (0, tc1) end) as [e2 tc2].
    destruct H2 as [W2 S2]. destruct (negb (e2 =? 0)); [by apply close_stream|].
    destruct (Z.testbit fl 0); [by apply read_stream|done].
  - assert (conn_wf (set_connected tc)) as W1 by (destruct W; by split).
    pose proof (listen_stream (set_connected tc) A o FD_READ W1 S) as [W2 S2].
    destruct (listen o FD_READ (set_connected tc)) as [e tc2].
    destruct (negb (e =? 0)); [by apply close_stream|done].
Qed.

(** A run of operations, and the stream of the messages. *)
Fixpoint run_tcp (ops : list tcp_op) (tc : tcp_conn) (A : bytes) : tcp_conn * bytes :=
  match ops with
  | [] => (tc, A)
  | op :: ops => run_tcp ops (op_conn op tc) (op_stream op tc A)
  end.
Fixpoint tcp_ok (ops : list tcp_op) (tc : tcp_conn) : Prop :=
  match ops with
  | [] => True
  | op :: ops => op_ok op tc /\ tcp_ok ops (op_conn op tc)
  end.

Lemma run_tcp_stream ops : forall tc A,
  conn_wf tc -> stream tc A -> tcp_ok ops tc ->
  let '(tc', A') := run_tcp ops tc A in conn_wf tc' /\ stream tc' A'.
Proof.
  induction ops as [|op ops IH]; intros tc A W S Ho; cbn [run_tcp tcp_ok] in *; [done|].
  destruct Ho as [H1 H2]. apply IH; [| |exact H2].
  - destruct op; cbn [op_conn]; [by apply (send_stream tc d o A)|by apply (event_stream tc flags o A)].
  - destruct op; cbn [op_conn]; [by apply (send_stream tc d o A)|by apply (event_stream tc flags o A)].
Qed.

Lemma accepted_ok o tc :
  tcp_accept true o = inr tc ->
  conn_wf tc /\ stream tc [] /\ tc_txqsz_max tc = TCP_TXQSZ_DEFAULT /\ tc_sendq tc = [].
Proof.
  unfold tcp_accept, listen. cbn [negb]. destruct (negb (os_qent o)); [done|].
  destruct (os_listen o =? 0) eqn:E; cbn [Z.eqb negb]; [|by rewrite E].
  intros [= <-]. split; [|done]. by split.
Qed.

(** C17. A connection is a byte stream: after any sequence of sends and socket
    events, whatever the system answers, the octets written so far followed by
    the queue are exactly the messages accepted, in order (and, of a message that
    was refused, the part already written); once closed they are a prefix of it.
    The counter of the queue is its length and stays within the limit. *)
Theorem tcp_stream (ops : list tcp_op) (o : os) (tc : tcp_conn) :
  tcp_accept true o = inr tc -> tcp_ok ops tc ->
  let '(tc', A) := run_tcp ops tc [] in
  tc_txqsz tc' = zlen (concat (tc_sendq tc')) /\ tc_txqsz tc' <= TCP_TXQSZ_DEFAULT /\
  if tc_fdc tc' then tc_wire tc' ++ concat (tc_sendq tc') = A else exists r, tc_wire tc' ++ r = A.
Proof.
  intros Ha Hok.
  destruct (accepted_ok o tc Ha) as (W & S & M & _).
  pose proof (run_tcp_stream ops tc [] W S Hok) as H.
  assert (forall ops tc A, tc_txqsz_max (run_tcp ops tc A).1 = tc_txqsz_max tc) as HM.
  { clear. induction ops as [|op ops IH]; intros tc A; [done|]. cbn [run_tcp]. rewrite IH.
    destruct op as [d o|fl o]; cbn [op_conn].
    - unfold tcp_send, tcp_send_internal, enqueue, listen. repeat case_match; simplify_eq; done.
    - unfold tcp_recv_handler, dequeue, read_data, listen, conn_close. repeat case_match; simplify_eq; done. }
  specialize (HM ops tc []). destruct (run_tcp ops tc []) as [tc' A']. destruct H as [W' S'].
  cbn [fst] in HM. rewrite M in HM. split; [apply W'|]. split; [rewrite <- HM; apply W'|exact S'].
Qed.

(** ** The queue is emptied *)

(** While something is queued, the socket is polled for writing. *)
Definition polls (tc : tcp_conn) : Prop :=
  tc_sendq tc <> [] -> tc_connected tc = true /\ Z.testbit (tc_watch tc) 1 = true.

(** Messages are sent only once the connection is established. *)
Fixpoint sends_established (ops : list tcp_op) (tc : tcp_conn) : Prop :=
  match ops with
  | [] => True
  | op :: ops =>
      match op with Send _ _ => tc_connected tc = true | Event _ _ => True end
      /\ sends_established ops (op_conn op tc)
  end.

Lemma listen_polls o fl tc :
  tc_sendq (listen o fl tc).2 = tc_sendq tc /\ tc_connected (listen o fl tc).2 = tc_connected tc /\
  ((listen o fl tc).1 = 0 -> tc_watch (listen o fl tc).2 = fl).
Proof.
  unfold listen. destruct (Z.eqb_spec (os_listen o) 0); cbn; [done|]. by split_and!.
Qed.

Lemma enqueue_polls tc d o : tc_connected tc = true -> polls tc -> polls (enqueue tc d o).2.
Proof.
  intros Hc Hp. unfold enqueue. destruct (_ >? _); [done|].
  assert (let r := match tc_sendq tc with [] => listen o (FD_READ + FD_WRITE) tc | _ :: _ => (0, tc) end in
    polls r.2 /\ tc_connected r.2 = true /\ (r.1 = 0 -> Z.testbit (tc_watch r.2) 1 = true)) as H.
  { destruct (tc_sendq tc) eqn:Eq.
    - destruct (listen_polls o (FD_READ + FD_WRITE) tc) as (H1 & H2 & H3). split_and!.
      + intros H. by rewrite H1, Eq in H.
      + by rewrite H2.
      + intros H. by rewrite (H3 H).
    - split_and!; [done|done|]. intros _. apply Hp. by rewrite Eq. }
  destruct (match tc_sendq tc with [] => listen o (FD_READ + FD_WRITE) tc | _ :: _ => (0, tc) end) as [e tc1].
  cbn [fst snd] in H. destruct H as (H1 & H2 & H3).
  destruct (Z.eqb_spec e 0); cbn [negb]; [|done]. destruct (os_qent o), (os_buf o); try done.
  intros _. cbn. auto.
Qed.
Lemma send_polls tc d o : tc_connected tc = true -> polls tc -> polls (tcp_send tc d o).2.
Proof.
  intros Hc Hp. unfold tcp_send, tcp_send_internal. destruct (negb (tc_fdc tc)); [done|].
  destruct d as [|c d]; [done|]. destruct (tc_sendq tc) eqn:Eq; [|by apply enqueue_polls].
  destruct (os_send o) as [n|e].
  - destruct (_ <? _); [by apply enqueue_polls|done].
  - destruct (would_block e); [by apply enqueue_polls|done].
Qed.

Lemma read_polls tc o : polls tc -> polls (read_data tc o).1.
Proof.
  intros Hp. unfold read_data. destruct (negb (os_buf o)); [done|].
  destruct (os_recv o) as [[|c d]|e]; [done|done|]. by destruct (_ || _).
Qed.
Lemma dequeue_polls tc o : polls tc -> polls (dequeue tc o).2.
Proof.
  intros Hp. unfold dequeue. destruct (tc_sendq tc) as [|d q] eqn:Eq; [done|].
  destruct (os_send o) as [n|e]; [|done]. intros _. apply Hp. by rewrite Eq.
Qed.
Lemma event_polls tc fl o : polls tc -> polls (tcp_recv_handler tc fl o).1.
Proof.
  intros Hp. unfold tcp_recv_handler.
  destruct (if tc_active tc && negb (tc_connected tc) then os_soerr o else Some 0) as [err|]; [|done].
  destruct (negb (err =? 0)); [done|]. destruct (Z.testbit fl 1); [|by apply read_polls].
  destruct (tc_connected tc) eqn:Ec.
  - pose proof (dequeue_polls tc o Hp) as H1. destruct (dequeue tc o) as [e1 tc1]. cbn [snd] in H1.
    destruct (negb (e1 =? 0)); [done|].
    assert (polls (match tc_sendq tc1 with [] => listen o FD_READ tc1 | _ :: _ => (0, tc1) end).2) as H2.
    { destruct (tc_sendq tc1) eqn:Eq; [|done]. destruct (listen_polls o FD_READ tc1) as (H & _).
      intros Hne. by rewrite H, Eq in Hne. }
    destruct (match tc_sendq tc1 with [] => listen o FD_READ tc1 | _ :: _ => (0, tc1) end) as [e2 tc2].
    cbn [snd] in H2. destruct (negb (e2 =? 0)); [done|]. destruct (Z.testbit fl 0); [by apply read_polls|done].
  - assert (tc_sendq tc = []) as Eq.
    { destruct (tc_sendq tc) eqn:Eq; [done|]. destruct Hp as [Hp _]; [by rewrite Eq|congruence]. }
    destruct (listen_polls o FD_READ (set_connected tc)) as (H & _). cbn [set_connected tc_sendq] in H.
    destruct (listen o FD_READ (set_connected tc)) as [e tc2]. cbn [snd] in H.
    destruct (negb (e =? 0)); [done|]. intros Hne. cbn [fst] in Hne. by rewrite H, Eq in Hne.
Qed.

Lemma run_polls ops : forall tc A,
  polls tc -> sends_established ops tc -> polls (run_tcp ops tc A).1.
Proof.
  induction ops as [|op ops IH]; intros tc A Hp Hs; cbn [run_tcp sends_established] in *; [done|].
  destruct Hs as [H1 H2]. apply IH; [|done].
  destruct op; cbn [op_conn]; [by apply send_polls|by apply event_polls].
Qed.

(** The socket becomes writable again and again. *)
Fixpoint writable (l : list os) (tc : tcp_conn) : tcp_conn :=
  match l with
  | [] => tc
  | o :: l => writable l (tcp_recv_handler tc FD_WRITE o).1
  end.
(** Each time the system takes at least one octet. *)
Fixpoint progress (l : list os) (tc : tcp_conn) : Prop :=
  match l with
  | [] => True
  | o :: l =>
      os_listen o = 0 /\
      match tc_sendq tc with d :: _ => exists n, os_send o = Sent n /\ 1 <= n <= zlen d | [] => True end /\
      progress l (tcp_recv_handler tc FD_WRITE o).1
  end.

Lemma writable_step tc o :
  conn_wf tc -> tc_connected tc = true -> os_listen o = 0 ->
  match tc_sendq tc with d :: _ => exists n, os_send o = Sent n /\ 1 <= n <= zlen d | [] => True end ->
  let tc' := (tcp_recv_handler tc FD_WRITE o).1 in
  conn_wf tc' /\ tc_connected tc' = true /\
  tc_wire tc' ++ concat (tc_sendq tc') = tc_wire tc ++ concat (tc_sendq tc) /\
  (length (concat (tc_sendq tc')) <= length (concat (tc_sendq tc)) - 1)%nat.
Proof.
  intros W Hc Hl Hp tc'. unfold tc', tcp_recv_handler. rewrite Hc, andb_false_r. cbn [Z.eqb negb].
  change (Z.testbit FD_WRITE 1) with true. change (Z.testbit FD_WRITE 0) with false. cbn iota.
  assert (match tc_sendq tc with d :: _ => send_ok d o | [] => True end) as Hs.
  { destruct (tc_sendq tc); [done|]. destruct Hp as (n & Hn & ?). unfold send_ok. rewrite Hn. lia. }
  pose proof (dequeue_spec tc o W Hs) as H.
  assert ((dequeue tc o).1 = 0 /\
    (length (concat (tc_sendq (dequeue tc o).2)) <= length (concat (tc_sendq tc)) - 1)%nat) as [He Hd].
  { unfold dequeue. destruct (tc_sendq tc) as [|d q] eqn:Eq; [cbn [snd]; by rewrite Eq|]. destruct Hp as (n & -> & Hn).
    cbn [fst snd set_queue tc_sendq concat]. split; [done|].
    assert (concat (match drop (Z.to_nat n) d with [] => q | _ :: _ => drop (Z.to_nat n) d :: q end)
            = drop (Z.to_nat n) d ++ concat q) as -> by (by destruct (drop (Z.to_nat n) d)).
    rewrite !length_app, length_drop. lia. }
  destruct (dequeue tc o) as [e1 tc1]. cbn [fst snd] in *. subst e1. cbn [Z.eqb negb].
  destruct H as (W1 & _ & C1 & _ & Hw). rewrite Hc in C1. unfold listen. rewrite Hl. cbn [Z.eqb].
  destruct (tc_sendq tc1) eqn:Eq; cbn [negb Z.eqb fst]; [|by rewrite Eq].
  cbn [set_watch tc_connected tc_wire tc_sendq]. rewrite Eq. split; [|done].
  destruct W1. by split.
Qed.

Lemma writable_drains l : forall tc,
  conn_wf tc -> tc_connected tc = true -> progress l tc -> (length (concat (tc_sendq tc)) <= length l)%nat ->
  tc_sendq (writable l tc) = [] /\ tc_wire (writable l tc) = tc_wire tc ++ concat (tc_sendq tc).
Proof.
  induction l as [|o l IH]; intros tc W Hc Hp Hl; cbn [writable progress length] in *.
  - assert (tc_sendq tc = []) as ->; [|by rewrite app_nil_r].
    destruct W as [We _ _ _]. destruct (tc_sendq tc) as [|d q]; [done|]. inversion We; subst.
    destruct d; [done|]. cbn in Hl. lia.
  - destruct Hp as (Ho & Hs & Hp). destruct (writable_step tc o W Hc Ho Hs) as (W1 & C1 & Hw & Hd).
    destruct (IH _ W1 C1 Hp ltac:(lia)) as [H1 H2]. split; [done|]. by rewrite H2, Hw.
Qed.

(** Everything accepted is written: if messages are sent only on an
    established connection, then in every reachable state with a non-empty queue
    the socket is polled for writing, and as many writable events as octets are
    queued, each taking at least one octet, empty the queue -- then the octets
    written are exactly the messages accepted. *)
Theorem tcp_drains (ops : list tcp_op) (o : os) (tc : tcp_conn) (l : list os) :
  tcp_accept true o = inr tc -> tcp_ok ops tc -> sends_established ops tc ->
  let '(tc', A) := run_tcp ops tc [] in
  tc_fdc tc' = true -> tc_connected tc' = true -> progress l tc' ->
  (length (concat (tc_sendq tc')) <= length l)%nat ->
  (tc_sendq tc' <> [] -> Z.testbit (tc_watch tc') 1 = true) /\
  tc_sendq (writable l tc') = [] /\ tc_wire (writable l tc') = A.
Proof.
  intros Ha Hok Hse. destruct (accepted_ok o tc Ha) as (W & S & _ & Hq).
  pose proof (run_tcp_stream ops tc [] W S Hok) as H.
  pose proof (run_polls ops tc [] ltac:(intros Hne; by rewrite Hq in Hne) Hse) as HP.
  destruct (run_tcp ops tc []) as [tc' A]. destruct H as [W' S']. intros Hf Hc Hp Hl. split.
  - intros Hne. by apply HP.
  - unfold stream in S'. rewrite Hf in S'. rewrite <- S'. by apply writable_drains.
Qed.

(** ** Witnesses, and what the queue does not protect from *)
Definition os_sent (n : Z) : os := Os (Sent n) (RecvErr EAGAIN) (Some 0) 0 true true.
Definition os_block : os := Os (SendErr EAGAIN) (RecvErr EAGAIN) (Some 0) 0 true true.
Definition demo_conn : tcp_conn := TcpConn true [] 0 TCP_TXQSZ_DEFAULT false false 7 [].
Definition demo_ops : list tcp_op :=
  [Event FD_WRITE os_block; Send (cstr "hello ") (os_sent 2); Send (cstr "world") os_block].

Lemma demo_ok : tcp_ok demo_ops demo_conn.
Proof. split; [exact I|]. split; [vm_compute; split; discriminate|]. split; [discriminate|exact I]. Qed.

Lemma tcp_stream_witness :
  let '(tc', A) := run_tcp demo_ops demo_conn [] in
  A = cstr "hello world" /\ tc_txqsz tc' = 9 /\ tc_wire tc' ++ concat (tc_sendq tc') = A.
Proof.
  pose proof (tcp_stream demo_ops os_block demo_conn eq_refl
    demo_ok) as H.
  destruct (run_tcp demo_ops demo_conn []) as [tc' A] eqn:E. vm_compute in E. injection E as <- <-.
  destruct H as (H1 & _ & H2). split; [reflexivity|]. split; [exact H1|exact H2].
Defined.

Lemma tcp_drains_witness :
  let '(tc', A) := run_tcp demo_ops demo_conn [] in
  tc_wire (writable [os_sent 4; os_sent 1; os_sent 1; os_sent 1; os_sent 1; os_sent 1; os_sent 1; os_sent 1; os_sent 1] tc')
  = cstr "hello world".
Proof.
  set (l := [os_sent 4; _; _; _; _; _; _; _; _]).
  pose proof (tcp_drains demo_ops os_block demo_conn l eq_refl
    demo_ok ltac:(cbn; repeat split; done)) as H.
  destruct (run_tcp demo_ops demo_conn []) as [tc' A] eqn:E. vm_compute in E. injection E as <- <-.
  destruct H as (_ & _ & H); [reflexivity|reflexivity| |cbn; lia|exact H].
  unfold l. vm_compute.
  repeat (split; [reflexivity|]; split; [first [exact I | eexists; split; [reflexivity|split; discriminate]]|]). exact I.
Defined.

(** Closing a connection drops its queue: a message that was accepted is cut off
    where the system stopped taking it. *)
Lemma close_cuts_message tc d n o :
  tc_fdc tc = true -> tc_sendq tc = [] -> os_send o = Sent n -> 0 <= n < zlen d ->
  (tcp_send tc d o).1 = 0 ->
  tc_wire (conn_destructor (tcp_send tc d o).2) = tc_wire tc ++ take (Z.to_nat n) d.
Proof.
  intros Hf Hq Hs Hn. unfold tcp_send, tcp_send_internal. rewrite Hf, Hq, Hs. cbn [negb].
  destruct d as [|c d]; [cbn in Hn; lia|]. set (x := c :: d) in *. clearbody x.
  destruct (Z.ltb_spec n (zlen x)); [|lia]. unfold enqueue, listen.
  cbn [set_queue tc_txqsz tc_txqsz_max tc_sendq].
  destruct (_ >? _); [done|]. destruct (os_listen o =? 0) eqn:El; cbn [Z.eqb negb]; [|by rewrite El].
  by destruct (os_qent o), (os_buf o).
Qed.

(** A message that the queue has no room for may already be on the wire in part,
    although the send fails; the next message follows in its middle. *)
Lemma message_torn :
  let tc := TcpConn true [] 0 4 false true 1 [] in
  let '(e, tc1) := tcp_send tc (cstr "$abcdefghij") (os_sent 3) in
  let '(e2, tc2) := tcp_send tc1 (cstr "$xy") (os_sent 3) in
  e = ENOSPC /\ e2 = 0 /\ tc_wire tc2 = cstr "$ab$xy".
Proof. done. Qed.

(** What is queued before the connection is established is not polled for: the
    first writable event only establishes the connection, and a queue that is
    not empty never asks for another. *)
Lemma early_queue_stalls :
  let tc1 := (tcp_send demo_conn (cstr "hello") (os_sent 2)).2 in
  let tc2 := (tcp_recv_handler tc1 FD_WRITE os_block).1 in
  let tc3 := (tcp_send tc2 (cstr "world") (os_sent 5)).2 in
  tc_sendq tc3 = [cstr "llo"; cstr "world"] /\ Z.testbit (tc_watch tc3) 1 = false.
Proof. done. Qed.
