(* ===== verification/TcpSock.v ===== *)
(** * Opening and closing of TCP sockets (libre [src/tcp/tcp.c])

    The part of [tcp.c] that [TcpConn] starts after: listening sockets, accepted
    connections on their way to a [struct tcp_conn], connections to a peer, and
    which structure owns which descriptor.  What the system answers is an input;
    closing a descriptor that is not open is [None].  The addresses that
    [getaddrinfo] returns are one answer each; the texts given to it, socket
    options and helpers are left out.  Changing the events of a registration that
    exists does not fail ([EventLoop]). *)
From S2P Require Import Prelude Sys.
From stdpp Require Import gmap.
Local Open Scope Z_scope.

Definition EBADF : Z := 9.
Definition EADDRNOTAVAIL : Z := 99.
Definition EINTR : Z := 4.
Definition EALREADY : Z := 114.
Definition EINPROGRESS : Z := 115.
Definition WSAEWOULDBLOCK : Z := 10035.

(** ** State *)
Record tcp_sock := TcpSock { ts_fhs : bool; ts_fd : option nat; ts_fdc : option nat }.
(** The fields of a [struct tcp_conn] that matter here. *)
Record conn_fd := ConnFd { cf_fhs : bool; cf_fdc : option nat; cf_active : bool }.
(** The structures by their address, the open descriptors of the process, and
    those the event loop watches. *)
Record net := Net {
  n_socks : gmap nat tcp_sock;
  n_conns : gmap nat conn_fd;
  n_open : gset nat;
  n_watch : gset nat
}.
Definition net_init : net := Net ∅ ∅ ∅ ∅.
Definition put_sock (s : nat) (ts : tcp_sock) (w : net) : net := Net (<[s := ts]> (n_socks w)) (n_conns w) (n_open w) (n_watch w).
Definition put_conn (c : nat) (tc : conn_fd) (w : net) : net := Net (n_socks w) (<[c := tc]> (n_conns w)) (n_open w) (n_watch w).
Definition del_sock (s : nat) (w : net) : net := Net (delete s (n_socks w)) (n_conns w) (n_open w) (n_watch w).
Definition del_conn (c : nat) (w : net) : net := Net (n_socks w) (delete c (n_conns w)) (n_open w) (n_watch w).
Definition set_open (o : gset nat) (w : net) : net := Net (n_socks w) (n_conns w) o (n_watch w).
Definition set_watch (x : gset nat) (w : net) : net := Net (n_socks w) (n_conns w) (n_open w) x.

(** [close]; [fd_close] of a registration, if there is one; [fd_listen]. *)
Definition close_fd (fd : nat) (w : net) : option net := if decide (fd ∈ n_open w) then Some (set_open (n_open w ∖ {[fd]}) w) else None.
Definition close_opt (o : option nat) (w : net) : option net := match o with Some fd => close_fd fd w | None => Some w end.
Definition unwatch (fhs : bool) (fd : nat) (w : net) : net := if fhs then set_watch (n_watch w ∖ {[fd]}) w else w.
Definition watch_fd (fd : nat) (w : net) : net := set_watch ({[fd]} ∪ n_watch w) w.

(** ** Listening sockets *)
Definition sock_destructor (s : nat) (ts : tcp_sock) (w : net) : option net :=
  w ← match ts_fd ts with Some fd => close_fd fd (unwatch (ts_fhs ts) fd w) | None => Some w end;
  w ← close_opt (ts_fdc ts) w;
  Some (del_sock s w).
(** The address of a new structure, if there is memory. *)
Definition sock_constructor (ans : option nat) (w : net) : option (nat * net) :=
  match ans with None => None | Some s => Some (s, put_sock s (TcpSock false None None) w) end.

(** What [socket] and [net_sockopt_blocking_set] answer for one address. *)
Record addr_ans := Addr { aa_sock : Z + nat; aa_nonblock : Z }.
(** The loop over the addresses: the last error, and the socket if there is one. *)
Fixpoint try_sockets (l : list addr_ans) (err : Z) (w : net) : option (Z * option nat * net) :=
  match l with
  | [] => Some (err, None, w)
  | a :: l =>
      match aa_sock a with
      | inl e => try_sockets l e w
      | inr fd =>
          let w := set_open ({[fd]} ∪ n_open w) w in
          if negb (aa_nonblock a =? 0) then w ← close_fd fd w; try_sockets l (aa_nonblock a) w
          else Some (0, Some fd, w)
      end
  end.

(** [inl]: the error; [inr]: the structure.  [res] is what [getaddrinfo] found. *)
Definition tcp_sock_alloc (ans : option nat) (res : option (list addr_ans)) (w : net) : option ((Z + nat) * net) :=
  match sock_constructor ans w with
  | None => Some (inl ENOMEM, w)
  | Some (s, w) =>
      let fail err w := match n_socks w !! s with Some ts => w ← sock_destructor s ts w; Some (inl err, w) | None => None end in
      match res with
      | None => fail EADDRNOTAVAIL w
      | Some l =>
          '(err, o, w) ← try_sockets l EINVAL w;
          match o with
          | None => if err =? 0 then Some (inr s, w) else fail err w
          | Some fd => Some (inr s, put_sock s (TcpSock false (Some fd) None) w)
          end
      end
  end.
(** The descriptor comes from the caller and is counted here from now on; an
    error of [fd_listen] leaves the structure to the caller. *)
Definition tcp_sock_alloc_fd (ans : option nat) (fd : nat) (listen_err : Z) (w : net) : option (Z * net) :=
  match sock_constructor ans w with
  | None => Some (ENOMEM, w)
  | Some (s, w) =>
      let w := set_open ({[fd]} ∪ n_open w) w in
      if listen_err =? 0 then Some (0, watch_fd fd (put_sock s (TcpSock true (Some fd) None) w))
      else Some (listen_err, put_sock s (TcpSock false (Some fd) None) w)
  end.
Definition tcp_sock_dup (s : nat) (ans : option nat) (w : net) : option net :=
  tso ← n_socks w !! s;
  match ans with
  | None => Some w
  | Some s2 => Some (put_sock s2 (TcpSock false None (ts_fdc tso)) (put_sock s (TcpSock (ts_fhs tso) (ts_fd tso) None) w))
  end.
(** [bind] to one address after the other. *)
Fixpoint bind_loop (l : list Z) (err : Z) : Z := match l with [] => err | e :: l => if e =? 0 then 0 else bind_loop l e end.
Definition tcp_sock_bind (s : nat) (res : option (list Z)) (w : net) : option Z :=
  ts ← n_socks w !! s;
  Some (match ts_fd ts, res with None, _ => EINVAL | Some _, None => EADDRNOTAVAIL | Some _, Some l => bind_loop l EINVAL end).
Definition tcp_sock_listen (s : nat) (listen_ret fd_listen_err : Z) (w : net) : option (Z * net) :=
  ts ← n_socks w !! s;
  match ts_fd ts with
  | None => Some (EBADF, w)
  | Some fd =>
      if negb (listen_ret =? 0) then Some (listen_ret, w)
      else if negb (fd_listen_err =? 0) then Some (fd_listen_err, w)
      else Some (0, watch_fd fd (put_sock s (TcpSock true (Some fd) (ts_fdc ts)) w))
  end.

(** A connection arrives: one that nobody took is closed first. *)
Definition tcp_conn_handler (s : nat) (acc : option nat) (nonblock : Z) (w : net) : option net :=
  ts ← n_socks w !! s;
  w ← close_opt (ts_fdc ts) w;
  match acc with
  | None => Some (put_sock s (TcpSock (ts_fhs ts) (ts_fd ts) None) w)
  | Some fd =>
      let w := set_open ({[fd]} ∪ n_open w) w in
      if negb (nonblock =? 0) then w ← close_fd fd w; Some (put_sock s (TcpSock (ts_fhs ts) (ts_fd ts) None) w)
      else Some (put_sock s (TcpSock (ts_fhs ts) (ts_fd ts) (Some fd)) w)
  end.
Definition tcp_reject (s : nat) (w : net) : option net :=
  ts ← n_socks w !! s;
  w ← close_opt (ts_fdc ts) w;
  Some (put_sock s (TcpSock (ts_fhs ts) (ts_fd ts) None) w).

(** ** Connections *)
Definition conn_destructor (c : nat) (tc : conn_fd) (w : net) : option net :=
  w ← match cf_fdc tc with Some fd => close_fd fd (unwatch (cf_fhs tc) fd w) | None => Some w end;
  Some (del_conn c w).
(** [conn_close], which leaves the structure to its owner. *)
Definition conn_close (c : nat) (w : net) : option net :=
  tc ← n_conns w !! c;
  w ← match cf_fdc tc with Some fd => close_fd fd (unwatch (cf_fhs tc) fd w) | None => Some w end;
  Some (put_conn c (ConnFd false None (cf_active tc)) w).

Definition tcp_accept (s : nat) (ans : option nat) (fd_listen_err : Z) (w : net) : option (Z * net) :=
  ts ← n_socks w !! s;
  match ts_fdc ts, ans with
  | None, _ => Some (EINVAL, w)
  | Some _, None => Some (ENOMEM, w)
  | Some fd, Some c =>
      let w := put_sock s (TcpSock (ts_fhs ts) (ts_fd ts) None) w in
      if fd_listen_err =? 0 then Some (0, watch_fd fd (put_conn c (ConnFd true (Some fd) false) w))
      else w ← conn_destructor c (ConnFd false (Some fd) false) (put_conn c (ConnFd false (Some fd) false) w); Some (fd_listen_err, w)
  end.
Definition tcp_conn_alloc (ans : option nat) (peer_set : bool) (res : option (list addr_ans)) (w : net) : option ((Z + nat) * net) :=
  if negb peer_set then Some (inl EINVAL, w)
  else
    match ans with
    | None => Some (inl ENOMEM, w)
    | Some c =>
        let w := put_conn c (ConnFd false None false) w in
        let fail err w := w ← conn_destructor c (ConnFd false None false) w; Some (inl err, w) in
        match res with
        | None => fail EADDRNOTAVAIL w
        | Some l =>
            '(err, o, w) ← try_sockets l EINVAL w;
            match o with
            | None => if err =? 0 then Some (inr c, w) else fail err w
            | Some fd => Some (inr c, put_conn c (ConnFd false (Some fd) false) w)
            end
        end
    end.
Definition tcp_conn_bind (res : option (list Z)) : Z := match res with None => EADDRNOTAVAIL | Some l => bind_loop l EINVAL end.

(** The answers of [connect] in order, for [k] more addresses; a call that is
    interrupted is made again.  [None]: [connect] was called more often. *)
Fixpoint connect_loop (k : nat) (calls : list Z) (err : Z) {struct calls} : option Z :=
  match k with
  | O => Some err
  | S k' =>
      match calls with
      | [] => None
      | e :: calls =>
          if (e =? 0) || (e =? WSAEWOULDBLOCK) then Some 0
          else if e =? EINTR then connect_loop k calls err
          else if (e =? EINPROGRESS) || (e =? EALREADY) then connect_loop k' calls err
          else connect_loop k' calls e
      end
  end.
Definition tcp_conn_connect (c : nat) (peer_set : bool) (res : option nat) (calls : list Z) (fd_listen_err : Z) (w : net) : option (Z * net) :=
  tc ← n_conns w !! c;
  if negb peer_set then Some (EINVAL, w)
  else
    let tc := ConnFd (cf_fhs tc) (cf_fdc tc) true in
    let w := put_conn c tc w in
    match cf_fdc tc, res with
    | None, _ => Some (EBADF, w)
    | Some _, None => Some (EADDRNOTAVAIL, w)
    | Some fd, Some k =>
        match connect_loop k calls 0 with
        | None => None
        | Some err =>
            if negb (err =? 0) then Some (err, w)
            else if negb (fd_listen_err =? 0) then Some (fd_listen_err, w)
            else Some (0, watch_fd fd (put_conn c (ConnFd true (Some fd) true) w))
        end
    end.

(** ** Who owns which descriptor *)
Inductive holder := HSock (s : nat) | HAccepted (s : nat) | HConn (c : nat).
#[export] Instance holder_eq_dec : EqDecision holder.
Proof. solve_decision. Defined.
Definition owner (w : net) (h : holder) : option nat :=
  match h with
  | HSock s => n_socks w !! s ≫= ts_fd
  | HAccepted s => n_socks w !! s ≫= ts_fdc
  | HConn c => n_conns w !! c ≫= cf_fdc
  end.
Definition watched (w : net) (h : holder) : bool :=
  match h with
  | HSock s => from_option ts_fhs false (n_socks w !! s)
  | HAccepted s => false
  | HConn c => from_option cf_fhs false (n_conns w !! c)
  end.
(** Every open descriptor has exactly one owner, and the event loop watches
    exactly those with a registration. *)
Record exact (o : holder -> option nat) (f : holder -> bool) (opn wat : gset nat) : Prop := {
  ex_one : forall h h' fd, o h = Some fd -> o h' = Some fd -> h = h';
  ex_open : forall fd, fd ∈ opn <-> exists h, o h = Some fd;
  ex_watch : forall fd, fd ∈ wat <-> exists h, o h = Some fd /\ f h = true;
  ex_reg : forall h, f h = true -> o h <> None
}.
Definition net_ok (w : net) : Prop := exact (owner w) (watched w) (n_open w) (n_watch w).

Section changes.
Context (o : holder -> option nat) (f : holder -> bool) (opn wat : gset nat) (H : exact o f opn wat).
Lemma exact_same o' f' : (forall h, o' h = o h) -> (forall h, f' h = f h) -> exact o' f' opn wat.
Proof.
  intros Ho Hf. destruct H as [H1 H2 H3 H4]. split.
  - intros h h' fd. rewrite !Ho. apply H1.
  - intros fd. rewrite H2. split; intros [h E]; exists h; congruence.
  - intros fd. rewrite H3. split; intros (h & E & F); exists h; split; congruence.
  - intros h. rewrite Hf, Ho. apply H4.
Qed.
(** A new descriptor for an owner that has none. *)
Lemma exact_acquire h fd o' f' : o h = None -> fd ∉ opn -> (forall x, o' x = if decide (x = h) then Some fd else o x) ->
  (forall x, f' x = f x) -> exact o' f' ({[fd]} ∪ opn) wat.
Proof.
  intros Hn Hfd Ho Hf. destruct H as [H1 H2 H3 H4]. assert (f h = false) as Hfh by (destruct (f h) eqn:E; [by destruct (H4 h E)|done]).
  assert (forall x, o x <> Some fd) as Hx by (intros x E; apply Hfd, H2; eauto). split.
  - intros a b c. rewrite !Ho. do 2 case_decide; subst; try done; [intros [= <-] E; by destruct (Hx b)|intros E [= <-]; by destruct (Hx a)|apply H1].
  - intros c. rewrite elem_of_union, elem_of_singleton, H2. split.
    + intros [-> |[a E]]; [exists h; rewrite Ho, decide_True by done; done|]. exists a. rewrite Ho, decide_False by (intros ->; congruence). done.
    + intros [a E]. rewrite Ho in E. case_decide; [left; congruence|right; eauto].
  - intros c. rewrite H3. split; intros (a & E & F).
    + exists a. rewrite Ho, Hf, decide_False by (intros ->; congruence). done.
    + rewrite Hf in F. rewrite Ho in E. case_decide; [subst; congruence|eauto].
  - intros a. rewrite Hf, Ho. case_decide; [done|apply H4].
Qed.
(** An owner gives its descriptor up. *)
Lemma exact_release h fd o' f' : o h = Some fd -> (forall x, o' x = if decide (x = h) then None else o x) ->
  (forall x, f' x = if decide (x = h) then false else f x) -> exact o' f' (opn ∖ {[fd]}) (wat ∖ {[fd]}).
Proof.
  intros Hh Ho Hf. destruct H as [H1 H2 H3 H4]. split.
  - intros a b c. rewrite !Ho. do 2 case_decide; try done. apply H1.
  - intros c. rewrite elem_of_difference, elem_of_singleton, H2. split.
    + intros [[a E] Hc]. exists a. rewrite Ho, decide_False by (intros ->; congruence). done.
    + intros [a E]. rewrite Ho in E. case_decide; [done|]. split; [eauto|]. intros ->. by destruct (H1 a h fd).
  - intros c. rewrite elem_of_difference, elem_of_singleton, H3. split.
    + intros [(a & E & F) Hc]. exists a. assert (a <> h) by (intros ->; congruence). rewrite Ho, Hf, !decide_False by done. done.
    + intros (a & E & F). rewrite Ho in E. rewrite Hf in F. case_decide; [done|]. split; [eauto|]. intros ->. by destruct (H1 a h fd).
  - intros a. rewrite Hf, Ho. case_decide; [done|apply H4].
Qed.
Lemma exact_move h h' fd o' f' : o h = Some fd -> o h' = None -> f h = false -> (forall x, o' x = if decide (x = h) then None else if decide (x = h') then Some fd else o x) ->
  (forall x, f' x = f x) -> exact o' f' opn wat.
Proof.
  intros Hh Hh' Hfh Ho Hf. destruct H as [H1 H2 H3 H4]. assert (h' <> h) as Hne by (intros ->; congruence).
  assert (f h' = false) as Hfh' by (destruct (f h') eqn:E; [by destruct (H4 h' E)|done]). split.
  - intros a b c. rewrite !Ho. repeat case_decide; subst; try done; [intros [= <-] E; by destruct (H1 b h fd)|intros E [= <-]; by destruct (H1 a h fd)|apply H1].
  - intros c. rewrite H2. split; intros [a E].
    + destruct (decide (a = h)) as [-> |Ha]; [exists h'; rewrite Ho, decide_False, decide_True by done; congruence|].
      exists a. rewrite Ho, !decide_False by (done || (intros ->; congruence)). done.
    + rewrite Ho in E. repeat case_decide; [done|exists h; congruence|eauto].
  - intros c. rewrite H3. split; intros (a & E & F).
    + exists a. rewrite Ho, Hf, !decide_False by (intros ->; congruence). done.
    + rewrite Hf in F. rewrite Ho in E. repeat case_decide; [done|subst; congruence|eauto].
  - intros a. rewrite Hf, Ho. intros Fa. repeat case_decide; subst; try congruence. by apply H4.
Qed.
Lemma exact_listen h fd o' f' : o h = Some fd -> (forall x, o' x = o x) -> (forall x, f' x = if decide (x = h) then true else f x) -> exact o' f' opn ({[fd]} ∪ wat).
Proof.
  intros Hh Ho Hf. destruct H as [H1 H2 H3 H4]. split.
  - intros a b c. rewrite !Ho. apply H1.
  - intros c. rewrite H2. split; intros [a E]; exists a; congruence.
  - intros c. rewrite elem_of_union, elem_of_singleton, H3. split.
    + intros [-> |(a & E & F)]; [exists h|exists a]; rewrite Ho, Hf; [by rewrite decide_True|]. split; [done|]. by case_decide.
    + intros (a & E & F). rewrite Ho in E. rewrite Hf in F. case_decide; [subst; left; congruence|right; eauto].
  - intros a. rewrite Hf, Ho. case_decide; [subst; congruence|apply H4].
Qed.
End changes.

(** ** Sequences of calls *)
Inductive sock_op :=
| SockAlloc (ans : option nat) (res : option (list addr_ans))
| SockAllocFd (ans : option nat) (fd : nat) (listen_err : Z)
| SockDup (s : nat) (ans : option nat)
| SockListen (s : nat) (listen_ret fd_listen_err : Z)
| SockFree (s : nat)
| Incoming (s : nat) (acc : option nat) (nonblock : Z)
| Reject (s : nat)
| Accept (s : nat) (ans : option nat) (fd_listen_err : Z)
| ConnAlloc (ans : option nat) (peer_set : bool) (res : option (list addr_ans))
| Connect (c : nat) (peer_set : bool) (res : option nat) (calls : list Z) (fd_listen_err : Z)
| ConnClose (c : nat)
| ConnFree (c : nat).
Definition sock_step (op : sock_op) (w : net) : option net :=
  match op with
  | SockAlloc ans res => snd <$> tcp_sock_alloc ans res w
  | SockAllocFd ans fd e => snd <$> tcp_sock_alloc_fd ans fd e w
  | SockDup s ans => tcp_sock_dup s ans w
  | SockListen s r e => snd <$> tcp_sock_listen s r e w
  | SockFree s => ts ← n_socks w !! s; sock_destructor s ts w
  | Incoming s acc nb => tcp_conn_handler s acc nb w
  | Reject s => tcp_reject s w
  | Accept s ans e => snd <$> tcp_accept s ans e w
  | ConnAlloc ans p res => snd <$> tcp_conn_alloc ans p res w
  | Connect c p res calls e => snd <$> tcp_conn_connect c p res calls e w
  | ConnClose c => conn_close c w
  | ConnFree c => tc ← n_conns w !! c; conn_destructor c tc w
  end.
Fixpoint run_sock (ops : list sock_op) (w : net) : option net :=
  match ops with [] => Some w | op :: ops => w ← sock_step op w; run_sock ops w end.

(** Memory and descriptors that the system hands out are not in use. *)
Definition new_sock (w : net) (ans : option nat) : Prop := forall s, ans = Some s -> n_socks w !! s = None.
Definition new_conn (w : net) (ans : option nat) : Prop := forall c, ans = Some c -> n_conns w !! c = None.
Definition new_fds (w : net) (l : list addr_ans) : Prop := Forall (fun a => forall fd, aa_sock a = inr fd -> fd ∉ n_open w) l.
Definition new_res (w : net) (res : option (list addr_ans)) : Prop := match res with Some l => new_fds w l | None => True end.
(** The structures that a call names exist, and [connect] always answers. *)
Definition sock_op_ok (op : sock_op) (w : net) : Prop :=
  match op with
  | SockAlloc ans res => new_sock w ans /\ new_res w res
  | SockAllocFd ans fd _ => new_sock w ans /\ fd ∉ n_open w
  | SockDup s ans => is_Some (n_socks w !! s) /\ new_sock w ans
  | SockListen s _ _ | SockFree s | Reject s => is_Some (n_socks w !! s)
  | Incoming s acc _ =>
      exists ts, n_socks w !! s = Some ts /\ forall fd, acc = Some fd -> fd ∉ n_open w \/ ts_fdc ts = Some fd
  | Accept s ans _ => is_Some (n_socks w !! s) /\ new_conn w ans
  | ConnAlloc ans _ res => new_conn w ans /\ new_res w res
  | Connect c _ res calls _ => is_Some (n_conns w !! c) /\ forall k, res = Some k -> connect_loop k calls 0 <> None
  | ConnClose c | ConnFree c => is_Some (n_conns w !! c)
  end.
Fixpoint run_sock_ok (ops : list sock_op) (w : net) : Prop :=
  match ops with [] => True | op :: ops => sock_op_ok op w /\ forall w', sock_step op w = Some w' -> run_sock_ok ops w' end.

(** ** The calls keep ownership exact *)
Lemma net_init_ok : net_ok net_init.
Proof.
  assert (forall h, owner net_init h = None) as E by (intros []; cbn; by rewrite lookup_empty).
  split; intros *; rewrite ?E; try done.
  - split; [set_solver|]. intros [h Hh]. by rewrite E in Hh.
  - split; [set_solver|]. intros (h & Hh & _). by rewrite E in Hh.
  - destruct h; cbn; by rewrite ?lookup_empty.
Qed.

(** Ownership after a change of one structure, holder by holder. *)
Ltac holders := let h := fresh "h" in intros h; destruct h; cbn -[decide]; rewrite ?lookup_insert, ?lookup_delete; repeat case_decide; simplify_eq; cbn; repeat (simplify_option_eq; try done).

Lemma put_conn_twice c t t' w : put_conn c t (put_conn c t' w) = put_conn c t w.
Proof. unfold put_conn. cbn. by rewrite insert_insert_eq. Qed.
Lemma del_put_sock s t w : n_socks w !! s = None -> del_sock s (put_sock s t w) = w.
Proof. intros E. destruct w. unfold del_sock, put_sock. cbn in *. f_equal. by apply delete_insert_id. Qed.
Lemma del_put_conn c t w : n_conns w !! c = None -> del_conn c (put_conn c t w) = w.
Proof. intros E. destruct w. unfold del_conn, put_conn. cbn in *. f_equal. by apply delete_insert_id. Qed.

Lemma open_close fd w : fd ∉ n_open w -> close_fd fd (set_open ({[fd]} ∪ n_open w) w) = Some w.
Proof.
  intros H. unfold close_fd. cbn. rewrite decide_True by set_solver. destruct w as [a b o x]. unfold set_open. cbn in *.
  do 2 f_equal. set_solver.
Qed.
Lemma try_sockets_spec l : forall err w, new_fds w l ->
  (exists e, try_sockets l err w = Some (e, None, w)) \/
  exists fd, (fd ∉ n_open w) /\ try_sockets l err w = Some (0, Some fd, set_open ({[fd]} ∪ n_open w) w).
Proof.
  induction l as [|a l IH]; intros err w H; cbn; [eauto|]. inversion_clear H as [|? ? Ha Hl].
  destruct (aa_sock a) as [e|fd]; [by apply IH|]. destruct (Z.eqb_spec (aa_nonblock a) 0); cbn; [right; eauto|].
  rewrite open_close by auto. cbn. by apply IH.
Qed.

Definition released (fd : nat) (w : net) : net := Net (n_socks w) (n_conns w) (n_open w ∖ {[fd]}) (n_watch w ∖ {[fd]}).
Lemma close_owned w h fd : net_ok w -> owner w h = Some fd -> close_fd fd (unwatch (watched w h) fd w) = Some (released fd w).
Proof.
  intros H Ho. assert (unwatch (watched w h) fd w = set_watch (n_watch w ∖ {[fd]}) w) as ->.
  { unfold unwatch. destruct (watched w h) eqn:E; [done|]. assert (fd ∉ n_watch w) as Hw.
    { intros (h' & E1 & E2)%(ex_watch _ _ _ _ H). rewrite (ex_one _ _ _ _ H _ _ _ Ho E1) in E. congruence. }
    destruct w as [a b o x]. unfold set_watch. cbn in *. f_equal. set_solver. }
  unfold close_fd. cbn. rewrite decide_True; [done|]. apply (ex_open _ _ _ _ H). eauto.
Qed.
(** The same for the owner's own view of its structure. *)
Lemma close_sock w s ts fd : net_ok w -> n_socks w !! s = Some ts -> ts_fd ts = Some fd -> close_fd fd (unwatch (ts_fhs ts) fd w) = Some (released fd w).
Proof. intros H E F. rewrite <-(close_owned w (HSock s) fd H) by (cbn; by rewrite E). cbn. by rewrite E. Qed.
Lemma close_accepted w s ts fd : net_ok w -> n_socks w !! s = Some ts -> ts_fdc ts = Some fd -> close_fd fd w = Some (released fd w).
Proof. intros H E F. rewrite <-(close_owned w (HAccepted s) fd H) by (cbn; by rewrite E). done. Qed.
Lemma close_conn w c tc fd : net_ok w -> n_conns w !! c = Some tc -> cf_fdc tc = Some fd -> close_fd fd (unwatch (cf_fhs tc) fd w) = Some (released fd w).
Proof. intros H E F. rewrite <-(close_owned w (HConn c) fd H) by (cbn; by rewrite E). cbn. by rewrite E. Qed.

(** A registration belongs to a descriptor. *)
Lemma sock_reg w s ts : net_ok w -> n_socks w !! s = Some ts -> ts_fd ts = None -> ts_fhs ts = false.
Proof. intros H E F. destruct (ts_fhs ts) eqn:G; [|done]. destruct (ex_reg _ _ _ _ H (HSock s)); cbn; by rewrite E. Qed.
Lemma conn_reg w c tc : net_ok w -> n_conns w !! c = Some tc -> cf_fdc tc = None -> cf_fhs tc = false.
Proof. intros H E F. destruct (cf_fhs tc) eqn:G; [|done]. destruct (ex_reg _ _ _ _ H (HConn c)); cbn; by rewrite E. Qed.

(** The accepted descriptor of a socket is closed, or there was none. *)
Lemma drop_accepted w s ts : net_ok w -> n_socks w !! s = Some ts ->
  exists w', close_opt (ts_fdc ts) w = Some w' /\ net_ok (put_sock s (TcpSock (ts_fhs ts) (ts_fd ts) None) w') /\
    n_open w' ⊆ n_open w /\ (forall fd, ts_fdc ts = Some fd -> fd ∉ n_open w').
Proof.
  intros H E. unfold close_opt. destruct (ts_fdc ts) as [fd|] eqn:F.
  - rewrite (close_accepted _ _ _ _ H E F). eexists. split_and!; [done| |set_solver|intros ? [= <-]; cbn; set_solver].
    apply (exact_release _ _ _ _ H (HAccepted s) fd); [cbn; by rewrite E|holders|holders].
  - eexists. split_and!; try done. apply (exact_same _ _ _ _ H); holders.
Qed.
Lemma sock_free_ok w s ts : net_ok w -> n_socks w !! s = Some ts -> exists w', sock_destructor s ts w = Some w' /\ net_ok w'.
Proof.
  intros H E. unfold sock_destructor.
  assert (exists w1, match ts_fd ts with Some fd => close_fd fd (unwatch (ts_fhs ts) fd w) | None => Some w end = Some w1 /\
    net_ok (put_sock s (TcpSock false None (ts_fdc ts)) w1)) as (w1 & -> & H1).
  { destruct (ts_fd ts) as [fd|] eqn:F.
    - rewrite (close_sock _ _ _ _ H E F). eexists. split; [done|].
      apply (exact_release _ _ _ _ H (HSock s) fd); [cbn; by rewrite E|holders|holders].
    - pose proof (sock_reg _ _ _ H E F). eexists. split; [done|]. apply (exact_same _ _ _ _ H); holders. }
  cbn. destruct (drop_accepted _ s (TcpSock false None (ts_fdc ts)) H1) as (w2 & E2 & H2 & _); [cbn; by rewrite lookup_insert_eq|]. cbn in E2, H2.
  assert (exists w3, close_opt (ts_fdc ts) w1 = Some w3 /\ w2 = put_sock s (TcpSock false None (ts_fdc ts)) w3) as (w3 & -> & ->).
  { revert E2. unfold close_opt. destruct (ts_fdc ts); [|by intros [= <-]; eauto]. unfold close_fd. cbn. case_decide; [|done]. intros [= <-]. eauto. }
  cbn. eexists. split; [done|]. apply (exact_same _ _ _ _ H2); holders.
Qed.

(** The change that makes [close] or [socket] visible to one structure. *)
Lemma conn_done_ok w c tc w' : net_ok w -> n_conns w !! c = Some tc ->
  match cf_fdc tc with Some fd => close_fd fd (unwatch (cf_fhs tc) fd w) | None => Some w end = Some w' ->
  (forall b, net_ok (put_conn c (ConnFd false None b) w')) /\ net_ok (del_conn c w').
Proof.
  intros H E. destruct (cf_fdc tc) as [fd|] eqn:F.
  - rewrite (close_conn _ _ _ _ H E F). intros [= <-]. split; [intros b|];
      (apply (exact_release _ _ _ _ H (HConn c) fd); [cbn; by rewrite E|holders|holders]).
  - intros [= <-]. pose proof (conn_reg _ _ _ H E F). split; [intros b|]; apply (exact_same _ _ _ _ H); holders.
Qed.
Lemma conn_done_some w c tc : net_ok w -> n_conns w !! c = Some tc ->
  exists w', match cf_fdc tc with Some fd => close_fd fd (unwatch (cf_fhs tc) fd w) | None => Some w end = Some w'.
Proof. intros H E. destruct (cf_fdc tc) as [fd|] eqn:F; [rewrite (close_conn _ _ _ _ H E F)|]; eauto. Qed.
Lemma conn_free_ok w c tc : net_ok w -> n_conns w !! c = Some tc -> exists w', conn_destructor c tc w = Some w' /\ net_ok w'.
Proof.
  intros H E. unfold conn_destructor. destruct (conn_done_some _ _ _ H E) as [w3 E3]. pose proof (conn_done_ok _ _ _ _ H E E3) as [_ K].
  rewrite E3. cbn. eauto.
Qed.
Lemma conn_close_ok w c tc : net_ok w -> n_conns w !! c = Some tc -> exists w', conn_close c w = Some w' /\ net_ok w'.
Proof.
  intros H E. unfold conn_close. rewrite E. destruct (conn_done_some _ _ _ H E) as [w3 E3]. pose proof (conn_done_ok _ _ _ _ H E E3) as [K _].
  cbn. rewrite E3. cbn. eauto.
Qed.

Lemma put_new_sock w s fhs : net_ok w -> n_socks w !! s = None -> fhs = false -> net_ok (put_sock s (TcpSock fhs None None) w).
Proof. intros H E ->. apply (exact_same _ _ _ _ H); holders. Qed.
Lemma sock_acquire w s fd : net_ok w -> n_socks w !! s = None -> fd ∉ n_open w ->
  net_ok (put_sock s (TcpSock false (Some fd) None) (set_open ({[fd]} ∪ n_open w) w)).
Proof. intros H E F. apply (exact_acquire _ _ _ _ H (HSock s) fd); [cbn; by rewrite E|done|holders|holders]. Qed.
Lemma conn_acquire w c fd : net_ok w -> n_conns w !! c = None -> fd ∉ n_open w ->
  net_ok (put_conn c (ConnFd false (Some fd) false) (set_open ({[fd]} ∪ n_open w) w)).
Proof. intros H E F. apply (exact_acquire _ _ _ _ H (HConn c) fd); [cbn; by rewrite E|done|holders|holders]. Qed.
Lemma sock_watch w s ts fd : net_ok w -> n_socks w !! s = Some ts -> ts_fd ts = Some fd ->
  net_ok (watch_fd fd (put_sock s (TcpSock true (Some fd) (ts_fdc ts)) w)).
Proof. intros H E F. apply (exact_listen _ _ _ _ H (HSock s) fd); [cbn; by rewrite E|holders|holders]. Qed.
Lemma conn_watch w c tc fd b : net_ok w -> n_conns w !! c = Some tc -> cf_fdc tc = Some fd ->
  net_ok (watch_fd fd (put_conn c (ConnFd true (Some fd) b) w)).
Proof. intros H E F. apply (exact_listen _ _ _ _ H (HConn c) fd); [cbn; by rewrite E|holders|holders]. Qed.

Lemma sock_alloc_ok w ans res : net_ok w -> new_sock w ans -> new_res w res ->
  exists r w', tcp_sock_alloc ans res w = Some (r, w') /\ net_ok w'.
Proof.
  intros H Ha Hr. unfold tcp_sock_alloc, sock_constructor. destruct ans as [s|]; [|eauto]. specialize (Ha s eq_refl).
  set (w1 := put_sock s _ w). assert (net_ok w1) as H1 by by apply put_new_sock.
  assert (forall err : Z, exists r w', match n_socks w1 !! s with Some ts => w2 ← sock_destructor s ts w1; Some (inl err : Z + nat, w2) | None => None end = Some (r, w') /\ net_ok w') as Hf.
  { intros err. assert (n_socks w1 !! s = Some (TcpSock false None None)) as -> by (cbn; by rewrite lookup_insert_eq). cbn -[w1]. assert (del_sock s w1 = w) as -> by by apply del_put_sock. eauto. }
  destruct res as [l|]; [|apply Hf]. destruct (try_sockets_spec l EINVAL w1 Hr) as [[e ->]|(fd & Hfd & ->)]; cbn -[w1].
  - destruct (e =? 0); [eauto|]. apply Hf.
  - eexists _, _. split; [done|]. pose proof (sock_acquire w s fd H Ha Hfd) as K. unfold put_sock, set_open in *. cbn in *. by rewrite insert_insert_eq.
Qed.
Lemma conn_alloc_ok w ans p res : net_ok w -> new_conn w ans -> new_res w res ->
  exists r w', tcp_conn_alloc ans p res w = Some (r, w') /\ net_ok w'.
Proof.
  intros H Ha Hr. unfold tcp_conn_alloc. destruct p; cbn; [|eauto]. destruct ans as [c|]; [|eauto]. specialize (Ha c eq_refl).
  set (w1 := put_conn c _ w). assert (net_ok w1) as H1 by (apply (exact_same _ _ _ _ H); holders).
  assert (del_conn c w1 = w) as Hd by by apply del_put_conn.
  destruct res as [l|]; [|rewrite Hd; eauto]. destruct (try_sockets_spec l EINVAL w1 Hr) as [[e ->]|(fd & Hfd & ->)]; cbn -[w1].
  - destruct (e =? 0); [eauto|]. rewrite Hd. eauto.
  - eexists _, _. split; [done|]. pose proof (conn_acquire w c fd H Ha Hfd) as K. unfold put_conn, set_open in *. cbn in *. by rewrite insert_insert_eq.
Qed.

Lemma incoming_ok w s ts acc nb : net_ok w -> n_socks w !! s = Some ts ->
  (forall fd, acc = Some fd -> fd ∉ n_open w \/ ts_fdc ts = Some fd) ->
  exists w', tcp_conn_handler s acc nb w = Some w' /\ net_ok w'.
Proof.
  intros H E Hf. unfold tcp_conn_handler. rewrite E. cbn. destruct (drop_accepted _ _ _ H E) as (w1 & -> & H1 & Hs & Hc). cbn.
  destruct acc as [fd|]; [|eauto]. assert (fd ∉ n_open w1) as Hn by (destruct (Hf fd eq_refl) as [Hn|Hn]; [set_solver|by apply Hc]).
  destruct (Z.eqb_spec nb 0); cbn; [|rewrite open_close by done; cbn; eauto].
  eexists. split; [done|]. apply (exact_acquire _ _ _ _ H1 (HAccepted s) fd); [|done|holders|holders]. cbn. by rewrite lookup_insert_eq.
Qed.
Lemma accept_ok w s ts ans e : net_ok w -> n_socks w !! s = Some ts -> new_conn w ans ->
  exists r w', tcp_accept s ans e w = Some (r, w') /\ net_ok w'.
Proof.
  intros H E Ha. unfold tcp_accept. rewrite E. cbn -[conn_destructor]. destruct (ts_fdc ts) as [fd|] eqn:F; [|eauto]. destruct ans as [c|]; [|eauto].
  specialize (Ha c eq_refl). set (w1 := put_sock s _ w).
  assert (net_ok (put_conn c (ConnFd false (Some fd) false) w1)) as H2.
  { apply (exact_move _ _ _ _ H (HAccepted s) (HConn c) fd); [cbn; by rewrite E|cbn; by rewrite Ha|done|holders|holders]. }
  assert (forall t, n_conns (put_conn c t w1) !! c = Some t) as L by (intros t; cbn; by rewrite lookup_insert_eq).
  destruct (e =? 0).
  - eexists _, _. split; [done|]. pose proof (conn_watch _ c _ fd false H2 (L _) eq_refl) as K. by rewrite put_conn_twice in K.
  - destruct (conn_free_ok _ _ _ H2 (L _)) as (w3 & -> & K). cbn. eauto.
Qed.
Lemma connect_ok w c tc p res calls e : net_ok w -> n_conns w !! c = Some tc -> (forall k, res = Some k -> connect_loop k calls 0 <> None) ->
  exists r w', tcp_conn_connect c p res calls e w = Some (r, w') /\ net_ok w'.
Proof.
  intros H E Hr. unfold tcp_conn_connect. rewrite E. cbn -[put_conn]. destruct p; cbn -[put_conn]; [|eauto]. set (w1 := put_conn c _ w).
  assert (net_ok w1) as H1 by (apply (exact_same _ _ _ _ H); holders).
  destruct (cf_fdc tc) as [fd|] eqn:F; [|eauto]. destruct res as [k|]; [|eauto]. specialize (Hr k eq_refl).
  destruct (connect_loop k calls 0) as [err|]; [|done]. destruct (err =? 0); cbn -[put_conn w1]; [|eauto]. destruct (e =? 0); cbn -[put_conn w1]; [|eauto].
  eexists _, _. split; [done|]. apply (conn_watch _ c (ConnFd (cf_fhs tc) (Some fd) true)); [done| |done]. cbn. by rewrite lookup_insert_eq.
Qed.
Lemma sock_dup_ok w s ts ans : net_ok w -> n_socks w !! s = Some ts -> new_sock w ans -> exists w', tcp_sock_dup s ans w = Some w' /\ net_ok w'.
Proof.
  intros H E Ha. unfold tcp_sock_dup. rewrite E. cbn. destruct ans as [s2|]; [|eauto]. specialize (Ha s2 eq_refl).
  assert (s2 <> s) by (intros ->; congruence). eexists. split; [done|]. destruct (ts_fdc ts) as [fd|] eqn:F.
  - apply (exact_move _ _ _ _ H (HAccepted s) (HAccepted s2) fd); [cbn; by rewrite E|cbn; by rewrite Ha|done|holders|holders].
  - apply (exact_same _ _ _ _ H); holders.
Qed.
Lemma sock_alloc_fd_ok w ans fd e : net_ok w -> new_sock w ans -> fd ∉ n_open w -> exists r w', tcp_sock_alloc_fd ans fd e w = Some (r, w') /\ net_ok w'.
Proof.
  intros H Ha Hfd. unfold tcp_sock_alloc_fd, sock_constructor. destruct ans as [s|]; [|eauto]. specialize (Ha s eq_refl).
  pose proof (sock_acquire w s fd H Ha Hfd) as K. set (w1 := put_sock s _ w).
  assert (forall t t', put_sock s t (set_open ({[fd]} ∪ n_open w1) w1) = put_sock s t (put_sock s t' (set_open ({[fd]} ∪ n_open w) w))) as P.
  { intros t t'. unfold w1, put_sock, set_open. cbn. by rewrite !insert_insert_eq. }
  destruct (e =? 0); (eexists _, _; split; [done|]); rewrite (P _ (TcpSock false (Some fd) None)).
  - apply (sock_watch _ _ (TcpSock false (Some fd) None)); [done| |done]. cbn. by rewrite lookup_insert_eq.
  - apply (exact_same _ _ _ _ K); holders.
Qed.

Lemma sock_step_ok op w : net_ok w -> sock_op_ok op w -> exists w', sock_step op w = Some w' /\ net_ok w'.
Proof.
  intros H K. destruct op; cbn in K |- *.
  - destruct K as [K1 K2]. destruct (sock_alloc_ok _ _ _ H K1 K2) as (? & ? & -> & ?). cbn. eauto.
  - destruct K as [K1 K2]. destruct (sock_alloc_fd_ok _ _ _ listen_err H K1 K2) as (? & ? & -> & ?). cbn. eauto.
  - destruct K as [[ts E] K2]. by eapply sock_dup_ok.
  - destruct K as [ts E]. unfold tcp_sock_listen. rewrite E. cbn. destruct (ts_fd ts) as [fd|] eqn:F; [|cbn; eauto].
    destruct (listen_ret =? 0); cbn; [|eauto]. destruct (fd_listen_err =? 0); cbn; [|eauto]. eexists. split; [done|by apply sock_watch].
  - destruct K as [ts E]. rewrite E. cbn. by apply sock_free_ok.
  - destruct K as (ts & E & K). by eapply incoming_ok.
  - destruct K as [ts E]. unfold tcp_reject. rewrite E. cbn. destruct (drop_accepted _ _ _ H E) as (? & -> & ? & _). cbn. eauto.
  - destruct K as [[ts E] K2]. destruct (accept_ok _ _ _ _ fd_listen_err H E K2) as (? & ? & -> & ?). cbn. eauto.
  - destruct K as [K1 K2]. destruct (conn_alloc_ok _ _ peer_set _ H K1 K2) as (? & ? & -> & ?). cbn. eauto.
  - destruct K as [[tc E] K2]. destruct (connect_ok _ _ _ peer_set _ _ fd_listen_err H E K2) as (? & ? & -> & ?). cbn. eauto.
  - destruct K as [tc E]. by eapply conn_close_ok.
  - destruct K as [tc E]. rewrite E. cbn. by apply conn_free_ok.
Qed.
Lemma run_sock_keeps ops : forall w, net_ok w -> run_sock_ok ops w -> exists w', run_sock ops w = Some w' /\ net_ok w'.
Proof.
  induction ops as [|op ops IH]; intros w H K; cbn; [eauto|]. destruct K as [K1 K2].
  destruct (sock_step_ok op w H K1) as (w1 & E & H1). rewrite E. cbn. by apply IH, K2.
Qed.

(** Binding succeeds when one of the addresses can be bound. *)
Lemma bind_loop_zero l : forall err, err <> 0 -> bind_loop l err = 0 <-> 0 ∈ l.
Proof.
  induction l as [|e l IH]; intros err H; cbn; [split; [done|by intros ?%not_elem_of_nil]|]. rewrite elem_of_cons.
  destruct (Z.eqb_spec e 0) as [-> |He]; [by split; [left|]|]. rewrite IH by done. split; [by right|by intros [<-|K]].
Qed.
(** With one address, as numeric hosts have, interrupted calls are repeated and
    a connection under way is no error. *)
Definition under_way (e : Z) : bool := (e =? 0) || (e =? WSAEWOULDBLOCK) || (e =? EINPROGRESS) || (e =? EALREADY).
Lemma connect_one n e l : e <> EINTR -> connect_loop 1 (repeat EINTR n ++ e :: l) 0 = Some (if under_way e then 0 else e).
Proof.
  intros He. induction n as [|n IH]; [|exact IH]. cbn -[EINTR WSAEWOULDBLOCK EINPROGRESS EALREADY]. unfold under_way.
  destruct (e =? 0), (e =? WSAEWOULDBLOCK); cbn [orb]; try (by destruct l). rewrite (proj2 (Z.eqb_neq e EINTR) He).
  destruct (e =? EINPROGRESS), (e =? EALREADY); by destruct l.
Qed.

(** ** The theorem *)

(** C18. Whatever sequence of calls a program makes on listening sockets and
    connections and whatever the system answers, errors included: no descriptor
    is closed twice, every open descriptor belongs to exactly one structure, the
    event loop watches exactly the open descriptors that have a registration,
    and once the structures are gone nothing is open or watched. *)
Theorem tcp_descriptors (ops : list sock_op) :
  run_sock_ok ops net_init ->
  exists w, run_sock ops net_init = Some w /\
    (forall fd, fd ∈ n_open w -> exists h, owner w h = Some fd /\ forall h', owner w h' = Some fd -> h' = h) /\
    (forall h fd, owner w h = Some fd -> fd ∈ n_open w) /\
    (forall fd, fd ∈ n_watch w <-> exists h, owner w h = Some fd /\ watched w h = true) /\
    (n_socks w = ∅ -> n_conns w = ∅ -> n_open w = ∅ /\ n_watch w = ∅).
Proof.
  intros K. destruct (run_sock_keeps ops net_init net_init_ok K) as (w & E & H). exists w. destruct H as [H1 H2 H3 H4].
  split_and!; [done| | |done|].
  - intros fd [h Hh]%H2. exists h. split; [done|]. intros h' Hh'. by eapply H1.
  - intros h fd Hh. apply H2. eauto.
  - intros Es Ec. assert (forall h, owner w h = None) as N by (intros []; cbn; by rewrite ?Es, ?Ec, lookup_empty).
    split; apply set_eq; intros fd; (split; [|set_solver]); [intros [h Hh]%H2|intros (h & Hh & _)%H3]; by rewrite N in Hh.
Qed.

(** A server: its socket gets a connection, which is accepted; a second one is
    not taken and is replaced by a third, whose descriptor has the same number;
    registering the third fails.  A client: setting up its first socket fails,
    and its [connect] is interrupted once. *)
Definition sock_demo : list sock_op :=
  [SockAlloc (Some 0%nat) (Some [Addr (inl 97) 0; Addr (inr 3%nat) 0]); SockListen 0 0 0;
   Incoming 0 (Some 4%nat) 0; Accept 0 (Some 0%nat) 0; Incoming 0 (Some 5%nat) 0; Incoming 0 (Some 5%nat) 0;
   Accept 0 (Some 1%nat) ENOMEM; ConnAlloc (Some 1%nat) true (Some [Addr (inr 5%nat) 22; Addr (inr 5%nat) 0]);
   Connect 1 true (Some 1%nat) [EINTR; EINPROGRESS] 0; ConnClose 1; ConnFree 1; SockFree 0; ConnFree 0].
#[local] Instance new_fds_dec w l : Decision (new_fds w l).
Proof.
  apply Forall_dec. intros [[e|fd] x]; cbn; [left; congruence|]. destruct (decide (fd ∈ n_open w)); [right|left]; [intros K; by apply (K fd)|].
  intros ? [= <-]. done.
Defined.
Lemma sock_demo_ok : run_sock_ok sock_demo net_init.
Proof.
  unfold sock_demo.
  repeat (split; [|let w := fresh "w" in let E := fresh "E" in intros w E; vm_compute in E; injection E as <-]); try done; cbn -[connect_loop];
    repeat split; try (by eexists); try (by intros ? [= <-]); try (by apply (bool_decide_unpack _); vm_compute).
  all: try (eexists; split; [reflexivity|]; intros ? [= <-]; (left; apply (bool_decide_unpack _); vm_compute; done) || (right; reflexivity)).
Qed.
Example tcp_descriptors_witness : exists w, run_sock sock_demo net_init = Some w /\ n_open w = ∅ /\ n_watch w = ∅.
Proof.
  destruct (tcp_descriptors sock_demo sock_demo_ok) as (w & E & _ & _ & _ & K). exists w. split; [exact E|].
  vm_compute in E. injection E as <-. apply K; reflexivity.
Defined.
