(* ===== verification/Udp.v ===== *)
(** * UDP sockets ([src/re-4.6.0/src/udp/udp.c])

    Opening and releasing of sockets, and the stack of helpers through which
    datagrams pass: outgoing ones from the highest layer to the lowest, incoming
    ones from the lowest to the highest, until a helper takes the datagram.  The
    helpers are elements of a linked list ([LibList]) that is sorted by layer; the
    theorems show that it is a stack whatever is registered and removed in
    whatever order, and that two stacks of the same helpers understand each other.

    Handlers are computations on the state of the application, they do not
    register or remove helpers while a datagram passes.  Reading a datagram from
    the system ([udp_read]) is in [StunDiscovery].  The lock of the helper list
    and socket options are left out: one thread works on a socket. *)
From S2P Require Import Prelude Sys Fmt Mbuf LibList.
From stdpp Require Import gmap sorting.
From Stdlib Require Import Sorted.
Local Open Scope Z_scope.

Definition UDP_RXSZ_DEFAULT : nat := Z.to_nat 8192.
Definition EADDRNOTAVAIL : Z := 99.
Definition EBADF : Z := 9.

Section udp.
Context `{V : Env} {W : Type}.

(** The handlers of a helper: whether it took the datagram, the error, and the
    address and the buffer, which it may change. *)
Definition udp_helper_send_h : Type := sa -> mbuf -> M W (bool * Z * sa * mbuf).
Definition udp_helper_recv_h : Type := sa -> mbuf -> M W (bool * sa * mbuf).
Record udp_helper := UdpHelper { uh_layer : Z; uh_sendh : udp_helper_send_h; uh_recvh : udp_helper_recv_h }.

(** [struct udp_sock]; [us_helpers] is the address of the list of helpers and
    [us_conn] the peer of a connected socket. *)
Record udp_sock := UdpSock {
  us_helpers : nat;
  us_sendh : option (sa -> mbuf -> M W Z);
  us_rh : option (sa -> mbuf -> M W unit);
  us_eh : option (Z -> M W unit);
  us_fhs : bool;
  us_fd : option nat;
  us_conn : option sa;
  us_rxsz : nat;
  us_presz : nat
}.
(** The lists, and the helpers by the address of their element. *)
Record ustate := UState { u_heap : heap; u_helpers : gmap nat udp_helper }.

Definition dummy_recv_handler (src : sa) (mb : mbuf) : M W unit := mret tt.
Definition helper_send_handler : udp_helper_send_h := fun dst mb => mret (false, 0, dst, mb).
Definition helper_recv_handler : udp_helper_recv_h := fun src mb => mret (false, src, mb).

(** ** Helpers *)
Definition helper_layer (st : ustate) (p : ptr) : Z :=
  match p ≫= fun a => u_helpers st !! a with Some uh => uh_layer uh | None => 0 end.
Definition sort_handler (st : ustate) : list_sort_h := fun d1 d2 => helper_layer st d1 <=? helper_layer st d2.

(** [uh] is the new object, if there is memory. *)
Definition udp_register_helper (us : udp_sock) (uh : option nat) (layer : Z)
    (sh : option udp_helper_send_h) (rh : option udp_helper_recv_h) (st : ustate) : option (Z * ustate) :=
  match uh with
  | None => Some (ENOMEM, st)
  | Some p =>
      h ← upd_le (Some p) (fun _ => Le None None None None) (u_heap st);
      h ← list_append (Some (us_helpers us)) (Some p) (Some p) h;
      let st := UState h (<[p := UdpHelper layer (default helper_send_handler sh) (default helper_recv_handler rh)]> (u_helpers st)) in
      h ← list_sort (Some (us_helpers us)) (sort_handler st) h;
      Some (0, UState h (u_helpers st))
  end.
Definition helper_destructor (p : nat) (st : ustate) : option ustate :=
  h ← list_unlink (Some p) (u_heap st);
  Some (UState h (delete p (u_helpers st))).

(** ** Sending *)
Definition udp_output (us : udp_sock) (dst : sa) (mb : mbuf) : M W (Z * mbuf) :=
  match us_sendh us with
  | Some sh => err ← sh dst mb; mret (err, mb)
  | None =>
      match us_fd us with
      | Some fd => lift (emit (UdpSend fd (default dst (us_conn us)) (mbuf_buf mb)));; err ← lift (ask QUdpSend); mret (err, mb)
      | None => mret (EBADF, mb)
      end
  end.
(** The loop over the helpers, from [le] backwards; [None] is an access that is
    not valid. *)
Fixpoint send_loop (fuel : nat) (us : udp_sock) (st : ustate) (dst : sa) (mb : mbuf) (le : ptr) : M W (option (Z * mbuf)) :=
  match le with
  | None => r ← udp_output us dst mb; mret (Some r)
  | Some _ =>
      match fuel, rd_le le (u_heap st) with
      | S fuel, Some r =>
          match le_data r ≫= fun p => u_helpers st !! p with
          | Some uh =>
              '(hdld, err, dst, mb) ← uh_sendh uh dst mb;
              if hdld || negb (err =? 0) then mret (Some (err, mb)) else send_loop fuel us st dst mb (le_prev r)
          | None => mret None
          end
      | _, _ => mret None
      end
  end.
Definition udp_send_internal (us : udp_sock) (st : ustate) := send_loop (fuel_of (u_heap st)) us st.
Definition udp_send (us : udp_sock) (st : ustate) (dst : sa) (mb : mbuf) : M W (option (Z * mbuf)) :=
  match rd_list (Some (us_helpers us)) (u_heap st) with
  | Some l => udp_send_internal us st dst mb (l_tail l)
  | None => mret None
  end.
Definition udp_send_helper (us : udp_sock) (st : ustate) (dst : sa) (mb : mbuf) (uh : nat) : M W (option (Z * mbuf)) :=
  match rd_le (Some uh) (u_heap st) with
  | Some r => udp_send_internal us st dst mb (le_prev r)
  | None => mret None
  end.

(** ** Receiving *)
Definition udp_input (us : udp_sock) (src : sa) (mb : mbuf) : M W (option unit) :=
  match us_rh us with Some rh => rh src mb;; mret (Some tt) | None => mret None end.
Fixpoint recv_helpers (fuel : nat) (us : udp_sock) (st : ustate) (src : sa) (mb : mbuf) (le : ptr) : M W (option unit) :=
  match le with
  | None => udp_input us src mb
  | Some _ =>
      match fuel, rd_le le (u_heap st) with
      | S fuel, Some r =>
          match le_data r ≫= fun p => u_helpers st !! p with
          | Some uh =>
              '(hdld, src, mb) ← uh_recvh uh src mb;
              if (hdld : bool) then mret (Some tt) else recv_helpers fuel us st src mb (le_next r)
          | None => mret None
          end
      | _, _ => mret None
      end
  end.
Definition udp_recv_helper (us : udp_sock) (st : ustate) (src : sa) (mb : mbuf) (uhx : option nat) : M W (option unit) :=
  match (match uhx with
         | Some p => le_next <$> rd_le (Some p) (u_heap st)
         | None => l_head <$> rd_list (Some (us_helpers us)) (u_heap st)
         end) with
  | Some le => recv_helpers (fuel_of (u_heap st)) us st src mb le
  | None => mret None
  end.
Definition udp_recv_packet (us : udp_sock) (st : ustate) (src : sa) (mb : mbuf) : M W (option unit) :=
  udp_recv_helper us st src mb None.

Fixpoint find_loop (fuel : nat) (st : ustate) (layer : Z) (le : ptr) : option ptr :=
  match le with
  | None => Some None
  | Some _ =>
      match fuel with
      | O => None
      | S fuel =>
          r ← rd_le le (u_heap st);
          p ← le_data r;
          uh ← u_helpers st !! p;
          if layer =? uh_layer uh then Some (Some p) else find_loop fuel st layer (le_next r)
      end
  end.
Definition udp_helper_find (us : udp_sock) (layer : Z) (st : ustate) : option ptr :=
  l ← rd_list (Some (us_helpers us)) (u_heap st);
  find_loop (fuel_of (u_heap st)) st layer (l_head l).

(** ** Opening and releasing sockets *)

(** The descriptors that are open, and those the event loop watches. *)
Record fds := Fds { f_open : gset nat; f_watch : gset nat }.
Definition open_fd (fd : nat) (f : fds) : fds := Fds ({[fd]} ∪ f_open f) (f_watch f).
Definition close_fd (fd : nat) (f : fds) : option fds := if decide (fd ∈ f_open f) then Some (Fds (f_open f ∖ {[fd]}) (f_watch f)) else None.

Definition udp_thread_detach (us : udp_sock) (f : fds) : udp_sock * fds :=
  match us_fd us with
  | Some fd => (UdpSock (us_helpers us) (us_sendh us) (us_rh us) (us_eh us) false (Some fd) (us_conn us) (us_rxsz us) (us_presz us),
                if us_fhs us then Fds (f_open f) (f_watch f ∖ {[fd]}) else f)
  | None => (us, f)
  end.
(** [listen_err] is the answer of [fd_listen]. *)
Definition udp_thread_attach (us : udp_sock) (listen_err : Z) (f : fds) : Z * udp_sock * fds :=
  match us_fd us with
  | Some fd =>
      if listen_err =? 0
      then (0, UdpSock (us_helpers us) (us_sendh us) (us_rh us) (us_eh us) true (Some fd) (us_conn us) (us_rxsz us) (us_presz us), Fds (f_open f) ({[fd]} ∪ f_watch f))
      else let '(us, f) := udp_thread_detach us f in (listen_err, us, f)
  | None => (0, us, f)
  end.
Definition udp_destructor (us : udp_sock) (st : ustate) (f : fds) : option (ustate * fds) :=
  h ← list_flush list_unlink (Some (us_helpers us)) (u_heap st);
  let '(us, f) := udp_thread_detach us f in
  f ← match us_fd us with Some fd => close_fd fd f | None => Some f end;
  Some (UState h (u_helpers st), f).

(** The new object with its list, if there is memory for it and for its lock. *)
Definition udp_alloc (mem : option nat) (lock_err : Z) (st : ustate) : option ((Z + udp_sock) * ustate) :=
  match mem with
  | None => Some (inl ENOMEM, st)
  | Some l =>
      h ← list_init (Some l) (u_heap st);
      let st := UState h (u_helpers st) in
      if negb (lock_err =? 0) then Some (inl lock_err, st)
      else Some (inr (UdpSock l None None None false None None 0 0), st)
  end.

(** What the system answers for one address. *)
Record bind_ans := BindAns { ba_sock : Z + nat; ba_nonblock : Z; ba_bind : Z }.
Fixpoint listen_loop (l : list bind_ans) (err : Z) (f : fds) : option (Z * option nat * fds) :=
  match l with
  | [] => Some (err, None, f)
  | a :: l =>
      match ba_sock a with
      | inl e => listen_loop l e f
      | inr fd =>
          let f := open_fd fd f in
          if negb (ba_nonblock a =? 0) then f ← close_fd fd f; listen_loop l (ba_nonblock a) f
          else if negb (ba_bind a =? 0) then f ← close_fd fd f; listen_loop l (ba_bind a) f
          else Some (0, Some fd, f)
      end
  end.
Definition with_fd (fd : option nat) (us : udp_sock) : udp_sock :=
  UdpSock (us_helpers us) (us_sendh us) (us_rh us) (us_eh us) (us_fhs us) fd (us_conn us) (us_rxsz us) (us_presz us).
Definition with_rh (rh : option (sa -> mbuf -> M W unit)) (us : udp_sock) : udp_sock :=
  UdpSock (us_helpers us) (us_sendh us) (Some (default dummy_recv_handler rh)) (us_eh us) (us_fhs us) (us_fd us) (us_conn us) UDP_RXSZ_DEFAULT (us_presz us).

(** [res] is what [getaddrinfo] found, if it succeeded. *)
Definition udp_listen (mem : option nat) (lock_err : Z) (res : option (list bind_ans)) (listen_err : Z)
    (rh : option (sa -> mbuf -> M W unit)) (st : ustate) (f : fds) : option ((Z + udp_sock) * ustate * fds) :=
  '(r, st) ← udp_alloc mem lock_err st;
  match r with
  | inl err => Some (inl err, st, f)
  | inr us =>
      let fail err us st f := '(st, f) ← udp_destructor us st f; Some (inl err, st, f) in
      match res with
      | None => fail EADDRNOTAVAIL us st f
      | Some l =>
          '(err, fd, f) ← listen_loop l 0 f;
          match fd with
          | None => fail (if err =? 0 then EADDRNOTAVAIL else err) us st f
          | Some _ =>
              let '(err, us, f) := udp_thread_attach (with_fd fd us) listen_err f in
              if negb (err =? 0) then fail err us st f else Some (inr (with_rh rh us), st, f)
          end
      end
  end.
Definition udp_alloc_sockless (mem : option nat) (lock_err : Z) (sendh : sa -> mbuf -> M W Z)
    (rh : option (sa -> mbuf -> M W unit)) (st : ustate) : option ((Z + udp_sock) * ustate) :=
  '(r, st) ← udp_alloc mem lock_err st;
  match r with
  | inl err => Some (inl err, st)
  | inr us => Some (inr (with_rh rh (UdpSock (us_helpers us) (Some sendh) (us_rh us) (us_eh us) (us_fhs us) (us_fd us) (us_conn us) (us_rxsz us) (us_presz us))), st)
  end.
Definition udp_alloc_fd (mem : option nat) (lock_err : Z) (fd : nat) (rh : option (sa -> mbuf -> M W unit)) (st : ustate)
    : option ((Z + udp_sock) * ustate) :=
  '(r, st) ← udp_alloc mem lock_err st;
  match r with inl err => Some (inl err, st) | inr us => Some (inr (with_rh rh (with_fd (Some fd) us)), st) end.
(** The receive handler stays NULL until [udp_handler_set]. *)
Definition udp_open (mem : option nat) (lock_err : Z) (sock : Z + nat) (st : ustate) (f : fds) : option ((Z + udp_sock) * ustate * fds) :=
  '(r, st) ← udp_alloc mem lock_err st;
  match r with
  | inl err => Some (inl err, st, f)
  | inr us =>
      match sock with
      | inl err => '(st, f) ← udp_destructor us st f; Some (inl err, st, f)
      | inr fd => Some (inr (with_fd (Some fd) us), st, open_fd fd f)
      end
  end.
Definition udp_connect (us : udp_sock) (peer : sa) (err : Z) : Z * udp_sock :=
  if negb (err =? 0) then (err, us)
  else (0, UdpSock (us_helpers us) (us_sendh us) (us_rh us) (us_eh us) (us_fhs us) (us_fd us) (Some peer) (us_rxsz us) (us_presz us)).
Definition udp_rxsz_set (us : udp_sock) (n : nat) : udp_sock :=
  UdpSock (us_helpers us) (us_sendh us) (us_rh us) (us_eh us) (us_fhs us) (us_fd us) (us_conn us) n (us_presz us).
Definition udp_rxbuf_presz_set (us : udp_sock) (n : nat) : udp_sock :=
  UdpSock (us_helpers us) (us_sendh us) (us_rh us) (us_eh us) (us_fhs us) (us_fd us) (us_conn us) (us_rxsz us) n.
Definition udp_handler_set (us : udp_sock) (rh : option (sa -> mbuf -> M W unit)) : udp_sock :=
  UdpSock (us_helpers us) (us_sendh us) (Some (default dummy_recv_handler rh)) (us_eh us) (us_fhs us) (us_fd us) (us_conn us) (us_rxsz us) (us_presz us).
Definition udp_error_handler_set (us : udp_sock) (eh : option (Z -> M W unit)) : udp_sock :=
  UdpSock (us_helpers us) (us_sendh us) (us_rh us) eh (us_fhs us) (us_fd us) (us_conn us) (us_rxsz us) (us_presz us).

(** ** The stack *)

(** The helpers of each list, lowest layer first. *)
Abbreviation stacks := (gmap nat (list (nat * udp_helper))).
(** A new helper comes above those of its layer. *)
Fixpoint place (x : nat * udp_helper) (l : list (nat * udp_helper)) : list (nat * udp_helper) :=
  match l with [] => [x] | y :: t => if uh_layer y.2 <=? uh_layer x.2 then y :: place x t else x :: l end.

Inductive udp_op :=
  | Register (us : udp_sock) (p : nat) (layer : Z) (sh : option udp_helper_send_h) (rh : option udp_helper_recv_h)
  | Remove (p : nat).
Definition run_op (o : udp_op) (st : ustate) : option ustate :=
  match o with
  | Register us p layer sh rh => snd <$> udp_register_helper us (Some p) layer sh rh st
  | Remove p => helper_destructor p st
  end.
Definition new_helper layer sh rh : udp_helper := UdpHelper layer (default helper_send_handler sh) (default helper_recv_handler rh).
Definition spec_op (o : udp_op) (S : stacks) : stacks :=
  match o with
  | Register us p layer sh rh => alter (place (p, new_helper layer sh rh)) (us_helpers us) S
  | Remove p => List.filter (fun y => negb (y.1 =? p)%nat) <$> S
  end.
(** An allocation returns memory that is not in use; a list exists. *)
Definition in_use (S : stacks) (p : nat) : Prop := exists l ys, S !! l = Some ys /\ p ∈ ys.*1.
Definition op_valid (cells : gset nat) (o : udp_op) (S : stacks) : Prop :=
  match o with
  | Register us p _ _ _ => is_Some (S !! us_helpers us) /\ p ∈ cells /\ ~ in_use S p
  | Remove p => in_use S p
  end.
Fixpoint ops_valid (cells : gset nat) (os : list udp_op) (S : stacks) : Prop :=
  match os with [] => True | o :: os => op_valid cells o S /\ ops_valid cells os (spec_op o S) end.
Definition run_all (os : list udp_op) (st : ustate) : option ustate := foldl (fun st o => st ≫= run_op o) (Some st) os.
Definition spec_all (os : list udp_op) (S : stacks) : stacks := foldl (fun S o => spec_op o S) S os.

(** Through a list of helpers, first to last. *)
Fixpoint run_send (us : udp_sock) (hs : list udp_helper) (dst : sa) (mb : mbuf) : M W (Z * mbuf) :=
  match hs with
  | [] => udp_output us dst mb
  | uh :: hs => '(hdld, err, dst, mb) ← uh_sendh uh dst mb; if hdld || negb (err =? 0) then mret (err, mb) else run_send us hs dst mb
  end.
Fixpoint run_recv (us : udp_sock) (hs : list udp_helper) (src : sa) (mb : mbuf) : M W (option unit) :=
  match hs with
  | [] => udp_input us src mb
  | uh :: hs => '(hdld, src, mb) ← uh_recvh uh src mb; if (hdld : bool) then mret (Some tt) else run_recv us hs src mb
  end.

(** The memory represents the stacks. *)
Definition lists_of (S : stacks) : gmap nat (list nat) := (fun ys => ys.*1) <$> S.
Definition urep (cells : gset nat) (st : ustate) (S : stacks) : Prop :=
  exists A, arep (u_heap st) A /\ a_lists A = lists_of S /\ dom (a_data A) = cells /\
    (forall l ys p uh, S !! l = Some ys -> (p, uh) ∈ ys -> a_get A p = Some p /\ u_helpers st !! p = Some uh) /\
    (forall l ys, S !! l = Some ys -> StronglySorted (fun x y => uh_layer x.2 <= uh_layer y.2) ys).

Lemma place_perm x l : place x l ≡ₚ x :: l.
Proof. induction l as [|y l IH]; [done|]. cbn [place]. case_match; [|done]. rewrite IH. apply Permutation_swap. Qed.
Lemma place_sorted x l : StronglySorted (fun x y => uh_layer x.2 <= uh_layer y.2) l -> StronglySorted (fun x y => uh_layer x.2 <= uh_layer y.2) (place x l).
Proof.
  induction 1 as [|y l Hs IH Hy]; cbn [place]; [by repeat constructor|]. destruct (Z.leb_spec (uh_layer y.2) (uh_layer x.2)).
  - constructor; [done|]. rewrite place_perm. constructor; done.
  - constructor; [by constructor|]. constructor; [lia|]. eapply Forall_impl; [exact Hy|]. cbn. lia.
Qed.
Lemma place_filter x l z : StronglySorted (fun x y => uh_layer x.2 <= uh_layer y.2) l ->
  List.filter (fun y => uh_layer y.2 =? z) (place x l) = List.filter (fun y => uh_layer y.2 =? z) (l ++ [x]).
Proof.
  induction 1 as [|y l Hs IH Hy]; [done|]. cbn [place]. destruct (Z.leb_spec (uh_layer y.2) (uh_layer x.2)); [cbn [List.filter app]; by rewrite IH|].
  change ((y :: l) ++ [x]) with ([] ++ (y :: l) ++ [x]). rewrite (List.filter_app _ (y :: l) [x]). cbn [app List.filter].
  destruct (Z.eqb_spec (uh_layer x.2) z) as [Hz|Hz]; [|by rewrite app_nil_r].
  assert (List.filter (fun y => uh_layer y.2 =? z) (y :: l) = []) as E.
  { assert (Forall (fun w => uh_layer x.2 < uh_layer w.2) (y :: l)) as HF by (constructor; [lia|]; eapply Forall_impl; [exact Hy|]; cbn; lia).
    revert HF. generalize (y :: l). clear -Hz. induction 1 as [|w l Hw HF IH]; [done|]. cbn [List.filter]. destruct (Z.eqb_spec (uh_layer w.2) z); [lia|done]. }
  cbn [List.filter] in E. rewrite E. done.
Qed.

(** A sorted list is known by its elements of each key, in order. *)
Lemma sorted_unique (k : nat -> Z) xs ys : StronglySorted (fun x y => k x <= k y) xs -> StronglySorted (fun x y => k x <= k y) ys ->
  (forall z, List.filter (fun x => k x =? z) xs = List.filter (fun x => k x =? z) ys) -> xs = ys.
Proof.
  intros Hx. revert ys. induction Hx as [|x xs Hx IH Fx]; intros ys Hy HF.
  { destruct ys as [|y ys]; [done|]. specialize (HF (k y)). cbn in HF. by rewrite Z.eqb_refl in HF. }
  destruct Hy as [|y ys Hy Fy]; [specialize (HF (k x)); cbn in HF; by rewrite Z.eqb_refl in HF|].
  assert (forall a l, a ∈ l <-> a ∈ List.filter (fun w => k w =? k a) l) as Hin.
  { intros a l. rewrite !list_elem_of_In, List.filter_In, Z.eqb_refl. tauto. }
  assert (k x <= k y) as H1.
  { assert (y ∈ x :: xs) as [-> |H]%elem_of_cons by (rewrite Hin, HF, <-Hin; left); [lia|]. rewrite Forall_forall in Fx. by apply Fx. }
  assert (k y <= k x) as H2.
  { assert (x ∈ y :: ys) as [-> |H]%elem_of_cons by (rewrite Hin, <-HF, <-Hin; left); [lia|]. rewrite Forall_forall in Fy. by apply Fy. }
  assert (k x = k y) as Ek by lia. pose proof (HF (k x)) as H. cbn in H. rewrite Ek, Z.eqb_refl in H. injection H as -> _. f_equal. apply IH; [done|].
  intros z. specialize (HF z). cbn in HF. destruct (k y =? z); congruence.
Qed.

(** New memory is zeroed. *)
Lemma zero_arep h A p : arep h A -> linked A p = false -> is_Some (a_data A !! p) ->
  exists h', upd_le (Some p) (fun _ => Le None None None None) h = Some h' /\ arep h' (AState (a_lists A) (<[p := None]> (a_data A))).
Proof.
  intros HA HL Hp. destruct (arep_unlinked _ _ _ HA HL Hp) as (r & Hr & Lr). destruct HA as [R D]. cbn [upd_le mbind option_bind]. rewrite Hr. cbn [mbind option_bind]. eexists. split; [done|].
  split; cbn [a_lists a_data h_le]; [|by rewrite fmap_insert, D]. split; cbn [h_le h_list].
  - intros l xs Hl. pose proof (rep_lists _ _ R _ _ Hl) as [N L K]. split; [done|done|]. intros a q b E. destruct (K a q b E) as [d Hd]. exists d. cbn [h_le].
    rewrite lookup_insert_ne; [done|]. intros <-. rewrite Hr in Hd. injection Hd as ->. done.
  - intros q r' l Hq. apply lookup_insert_Some in Hq as [[<- <-]|[_ Hq]]; [done|]. by apply (rep_owner _ _ R q r').
  - rewrite (size_same (h_le h)); [apply R|]. intros q. rewrite lookup_insert. case_decide; [subst; rewrite Hr; split; eauto|done].
Qed.

Lemma fst_sorted (k : nat -> Z) l : Forall (fun y => k y.1 = uh_layer y.2) l ->
  StronglySorted (fun x y => uh_layer x.2 <= uh_layer y.2) l -> StronglySorted (fun x y => k x <= k y) l.*1.
Proof.
  intros HF HS. induction HS as [|x l HS IH Hx]; cbn; [constructor|]. inversion HF as [|? ? H1 H2]; subst. constructor; [by apply IH|].
  apply Forall_map, Forall_forall. intros y Hy. cbn. rewrite !Forall_forall in *. rewrite H1, (H2 y Hy). by apply Hx.
Qed.
Lemma fst_filter (k : nat -> Z) z l : Forall (fun y => k y.1 = uh_layer y.2) l ->
  List.filter (fun x => k x =? z) l.*1 = (List.filter (fun y => uh_layer y.2 =? z) l).*1.
Proof. induction 1 as [|y l Hy HF IH]; [done|]. cbn. rewrite Hy. case_match; cbn; by rewrite IH. Qed.

Lemma linked_in_use A (S : stacks) p : a_lists A = lists_of S -> linked A p = true <-> in_use S p.
Proof.
  intros E. rewrite linked_spec, E. unfold in_use, lists_of. split.
  - intros (l & xs & Hl & Hp). rewrite lookup_fmap in Hl. apply fmap_Some in Hl as (ys & Hl & ->). eauto.
  - intros (l & ys & Hl & Hp). exists l, ys.*1. split; [|done]. rewrite lookup_fmap. by rewrite Hl.
Qed.

Lemma register_urep cells st S us p layer sh rh : urep cells st S -> op_valid cells (Register us p layer sh rh) S ->
  exists st', udp_register_helper us (Some p) layer sh rh st = Some (0, st') /\ urep cells st' (spec_op (Register us p layer sh rh) S).
Proof.
  intros (A & HA & HL & HD & HH & HS) ([ys Hys] & Hp & Hu). assert (linked A p = false) as Hln by (apply not_true_is_false; by rewrite linked_in_use).
  assert (is_Some (a_data A !! p)) as Hc by (apply elem_of_dom; by rewrite HD). set (l := us_helpers us) in *.
  unfold udp_register_helper. destruct (zero_arep _ _ _ HA Hln Hc) as (h1 & -> & HA1). cbn [mbind option_bind]. fold l. set (A1 := AState _ _) in HA1.
  assert (a_lists A !! l = Some ys.*1) as Hl by (by rewrite HL; unfold lists_of; rewrite lookup_fmap, Hys).
  destruct (append_refines h1 A1 l p (Some p) HA1) as (h2 & E2 & HA2). { split; cbn; [by rewrite Hl|by rewrite lookup_insert_eq]. }
  unfold a_insert in HA2. change (linked A1 p) with (linked A p) in HA2. rewrite Hln in HA2. cbn [A1 a_lists a_data] in HA2. rewrite insert_insert_eq in HA2.
  rewrite E2. cbn [mbind option_bind]. fold (new_helper layer sh rh). set (x := (p, new_helper layer sh rh)). set (st2 := UState h2 _).
  set (A2 := AState _ _) in HA2. assert (a_lists A2 !! l = Some (ys.*1 ++ [p])) as Hl2 by (cbn; by rewrite lookup_alter_eq, Hl).
  set (k := fun q => helper_layer st2 (a_get A2 q)).
  assert (forall q uh, (q, uh) ∈ x :: ys -> a_get A2 q = Some q /\ u_helpers st2 !! q = Some uh) as HK.
  { intros q uh [[= -> ->]|Hq]%elem_of_cons; unfold a_get; cbn [A2 st2 a_data u_helpers].
    - rewrite !lookup_insert_eq. done.
    - assert (q <> p) as Hne. { intros ->. apply Hu. exists l, ys. split; [done|]. apply list_elem_of_fmap. by exists (p, uh). }
      rewrite !lookup_insert_ne by done. apply (HH l ys q uh Hys Hq). }
  assert (Forall (fun y => k y.1 = uh_layer y.2) (x :: ys)) as HKF.
  { apply Forall_forall. intros [q uh] Hq. cbn. unfold k. destruct (HK q uh Hq) as [-> E]. unfold helper_layer. cbn [mbind option_bind]. by rewrite E. }
  assert (forall y z, order_of A2 (sort_handler st2) y z = (k y <=? k z)) as HO by done.
  destruct (sort_retry_spec (sort_handler st2) l (Datatypes.S (size (h_le h2) * size (h_le h2))) h2 A2 (ys.*1 ++ [p])) as (h3 & zs & E3 & HA3 & HP & HSo & HSt).
  { intros a b. unfold sort_handler. destruct (Z.leb_spec (helper_layer st2 a) (helper_layer st2 b)); [done|]. apply Z.leb_le. lia. }
  { done. } { done. }
  { pose proof (inversions_bound (order_of A2 (sort_handler st2)) (ys.*1 ++ [p])). pose proof (rep_length _ _ _ _ (proj1 HA2) Hl2). nia. }
  unfold list_sort. cbn [isnull]. rewrite E3. cbn [mbind option_bind]. eexists. split; [done|].
  assert (Forall (fun y => k y.1 = uh_layer y.2) (place x ys)) as HKP by (by rewrite place_perm).
  assert (zs = (place x ys).*1) as Ez.
  { apply (sorted_unique k).
    - apply Sorted_StronglySorted; [intros a b c; lia|]. eapply Sorted_ind with (P := Sorted (fun x y => k x <= k y)); [constructor| |exact HSo]. intros a b _ Hs Hr. constructor; [done|]. inversion Hr; constructor. rewrite HO in *. lia.
    - apply fst_sorted; [done|]. by apply place_sorted, (HS l).
    - intros z. rewrite HSt by (intros a b; rewrite HO; lia). rewrite (fst_filter k z (place x ys)) by done. rewrite place_filter by (by apply (HS l)).
      replace (ys.*1 ++ [p]) with ((ys ++ [x]).*1) by (by rewrite fmap_app). apply fst_filter. rewrite Forall_app. inversion HKF; subst. auto. }
  exists (AState (<[l := zs]> (a_lists A2)) (a_data A2)). cbn [u_heap u_helpers a_lists a_data]. split_and!.
  - exact HA3.
  - rewrite Ez. change (a_lists A2) with (alter (fun xs => xs ++ [p]) l (a_lists A)). rewrite HL. unfold lists_of at 2. cbn [spec_op]. fold l x. apply map_eq. intros j. rewrite lookup_insert. case_decide as Hj.
    + subst j. by rewrite lookup_fmap, lookup_alter_eq, Hys.
    + rewrite lookup_alter_ne by done. unfold lists_of. by rewrite !lookup_fmap, lookup_alter_ne by done.
  - rewrite <-HD. cbn. rewrite dom_insert_L. apply subseteq_union_1_L, singleton_subseteq_l. by apply elem_of_dom.
  - intros j ws q uh Hj Hq. cbn [spec_op] in Hj. fold l x in Hj. destruct (decide (j = l)) as [->|Hne].
    + rewrite lookup_alter_eq, Hys in Hj. injection Hj as <-. rewrite place_perm in Hq. by apply HK.
    + rewrite lookup_alter_ne in Hj by done. destruct (HH j ws q uh Hj Hq) as [H1 H2]. assert (q <> p) as Hnp. { intros ->. apply Hu. exists j, ws. split; [done|]. apply list_elem_of_fmap. by exists (p, uh). }
      unfold a_get in *. cbn [A2 st2 a_data u_helpers]. by rewrite !lookup_insert_ne by done.
  - intros j ws Hj. cbn [spec_op] in Hj. fold l x in Hj. destruct (decide (j = l)) as [->|Hne].
    + rewrite lookup_alter_eq, Hys in Hj. injection Hj as <-. by apply place_sorted, (HS l).
    + rewrite lookup_alter_ne in Hj by done. by apply (HS j).
Qed.

Lemma fst_remove p (ys : list (nat * udp_helper)) : (List.filter (fun y => negb (y.1 =? p)%nat) ys).*1 = filter (fun q => q <> p) ys.*1.
Proof.
  induction ys as [|[q uh] ys IH]; [done|]. cbn [List.filter fst fmap list_fmap]. destruct (Nat.eqb_spec q p) as [->|Hn]; cbn [negb fmap list_fmap fst].
  - by rewrite filter_cons_False by tauto.
  - by rewrite filter_cons_True, IH by done.
Qed.
Lemma remove_urep cells st S p : urep cells st S -> op_valid cells (Remove p) S ->
  exists st', helper_destructor p st = Some st' /\ urep cells st' (spec_op (Remove p) S).
Proof.
  intros (A & HA & HL & HD & HH & HS) Hu. assert (is_Some (a_data A !! p)) as Hc.
  { destruct Hu as (l & ys & Hl & ([? uh] & -> & Hp)%list_elem_of_fmap). destruct (HH l ys _ _ Hl Hp) as [Hg _]. unfold a_get in Hg. cbn [fst] in *. destruct (a_data A !! n); [done|]. done. }
  destruct (unlink_refines _ _ _ HA Hc) as (h' & E & HA' & _). unfold helper_destructor. rewrite E. cbn [mbind option_bind]. eexists. split; [done|].
  exists (a_unlink p A). cbn [u_heap u_helpers]. split_and!; [done| |done| |].
  - cbn. rewrite HL. unfold lists_of. rewrite <-!map_fmap_compose. apply map_fmap_ext. intros l ys _. cbn. symmetry. apply fst_remove.
  - intros l ws q uh Hl Hq. cbn in Hl. rewrite lookup_fmap in Hl. apply fmap_Some in Hl as (ys & Hl & ->).
    apply list_elem_of_In, List.filter_In in Hq as [Hq Hn]. apply list_elem_of_In in Hq. cbn in Hn. destruct (Nat.eqb_spec q p); [done|].
    destruct (HH l ys q uh Hl Hq) as [H1 H2]. split; [exact H1|]. by rewrite lookup_delete_ne.
  - intros l ws Hl. cbn in Hl. rewrite lookup_fmap in Hl. apply fmap_Some in Hl as (ys & Hl & ->). pose proof (HS l ys Hl) as Hs. clear -Hs.
    induction Hs as [|y ys Hs IH Hy]; cbn; [constructor|]. case_match; [|done]. constructor; [done|]. apply Forall_forall. intros z Hz. apply list_elem_of_In, List.filter_In in Hz as [Hz _].
    rewrite Forall_forall in Hy. apply Hy. by apply list_elem_of_In.
Qed.
Lemma run_urep cells os : forall st S, urep cells st S -> ops_valid cells os S -> exists st', run_all os st = Some st' /\ urep cells st' (spec_all os S).
Proof.
  unfold run_all, spec_all. induction os as [|o os IH]; intros st S HU HV; cbn [foldl]; [eauto|]. destruct HV as [H1 H2]. cbn [mbind option_bind].
  assert (exists st', run_op o st = Some st' /\ urep cells st' (spec_op o S)) as (st' & E & HU').
  { destruct o as [us p layer sh rh|p]; cbn [run_op]; [|by apply remove_urep]. destruct (register_urep cells st S us p layer sh rh HU H1) as (st' & -> & ?). by exists st'. }
  rewrite E. by apply IH.
Qed.

(** ** Datagrams through the stack *)
Definition all {A} (m : M W A) : M W (option A) := r ← m; mret (Some r).

Lemma send_loop_run us st ys : forall fuel e dst mb w s, chain (u_heap st) le_prev e ys.*1 ->
  Forall (fun y => data_of (u_heap st) y.1 = Some y.1 /\ u_helpers st !! y.1 = Some y.2) ys -> (length ys < fuel)%nat ->
  send_loop fuel us st dst mb e w s = all (run_send us ys.*2 dst mb) w s.
Proof.
  induction ys as [|[p uh] ys IH]; intros [|fuel] e dst mb w s Hc HF Hl; cbn [length] in Hl; try lia; cbn in Hc; [by subst e|].
  destruct Hc as (-> & r & Hr & Hc). inversion HF as [|? ? [Hd Hh] HF']; subst. cbn [fst snd] in *. unfold data_of in Hd. rewrite Hr in Hd. cbn in Hd.
  cbn [send_loop rd_le mbind option_bind]. rewrite Hr, Hd. cbn [mbind option_bind]. rewrite Hh. cbn [fmap list_fmap run_send snd]. unfold all, mbind, M_bind.
  destruct (uh_sendh uh dst mb w s) as [[[[[b err] d'] m'] w'] s']. destruct (b || negb (err =? 0)); [done|]. rewrite (IH fuel _ d' m' w' s') by (done || lia). unfold all, mbind, M_bind. by destruct (run_send us ys.*2 d' m' w' s') as [[??]?].
Qed.
Lemma recv_helpers_run us st ys : forall fuel e src mb w s, chain (u_heap st) le_next e ys.*1 ->
  Forall (fun y => data_of (u_heap st) y.1 = Some y.1 /\ u_helpers st !! y.1 = Some y.2) ys -> (length ys < fuel)%nat ->
  recv_helpers fuel us st src mb e w s = run_recv us ys.*2 src mb w s.
Proof.
  induction ys as [|[p uh] ys IH]; intros [|fuel] e src mb w s Hc HF Hl; cbn [length] in Hl; try lia; cbn in Hc; [by subst e|].
  destruct Hc as (-> & r & Hr & Hc). inversion HF as [|? ? [Hd Hh] HF']; subst. cbn [fst snd] in *. unfold data_of in Hd. rewrite Hr in Hd. cbn in Hd.
  cbn [recv_helpers rd_le mbind option_bind]. rewrite Hr, Hd. cbn [mbind option_bind]. rewrite Hh. cbn [fmap list_fmap run_recv snd]. unfold mbind, M_bind.
  destruct (uh_recvh uh src mb w s) as [[[[b d'] m'] w'] s']. destruct b; [done|]. by apply IH; [done|done|lia].
Qed.
Lemma find_loop_run st layer ys : forall fuel e, chain (u_heap st) le_next e ys.*1 ->
  Forall (fun y => data_of (u_heap st) y.1 = Some y.1 /\ u_helpers st !! y.1 = Some y.2) ys -> (length ys < fuel)%nat ->
  find_loop fuel st layer e = Some (fst <$> List.find (fun y => layer =? uh_layer y.2) ys).
Proof.
  induction ys as [|[p uh] ys IH]; intros [|fuel] e Hc HF Hl; cbn [length] in Hl; try lia; cbn in Hc; [by subst e|].
  destruct Hc as (-> & r & Hr & Hc). inversion HF as [|? ? [Hd Hh] HF']; subst. cbn [fst snd] in *. unfold data_of in Hd. rewrite Hr in Hd. cbn in Hd.
  cbn [find_loop rd_le mbind option_bind]. rewrite Hr. cbn [mbind option_bind]. rewrite Hd. cbn [mbind option_bind]. rewrite Hh. cbn [mbind option_bind List.find snd].
  destruct (layer =? uh_layer uh); [done|]. by apply IH; [done|done|lia].
Qed.

Lemma chain_inside h tr x p y : forall e, chain h tr e (x ++ p :: y) -> exists r, h_le h !! p = Some r /\ chain h tr (tr r) y.
Proof. induction x as [|q x IH]; cbn; intros e H; [destruct H as [_ H]; exact H|]. destruct H as (_ & r & _ & H). by eapply IH. Qed.

(** Nothing is registered. *)
Definition ustart (cells ls : gset nat) : ustate :=
  UState (Heap (gset_to_gmap (Le None None None None) cells) (gset_to_gmap (Lst None None 0) ls)) ∅.
Lemma ustart_urep (cells ls : gset nat) : Z.of_nat (size cells) < 18446744073709551616 -> urep cells (ustart cells ls) (gset_to_gmap [] ls).
Proof.
  intros Hs. exists (initial (u_heap (ustart cells ls))). split_and!.
  - apply initial_arep; cbn [ustart u_heap h_le h_list].
    + intros p r [_ <-]%lookup_gset_to_gmap_Some. done.
    + intros p r [_ <-]%lookup_gset_to_gmap_Some. done.
    + rewrite <-size_dom, dom_gset_to_gmap. done.
  - apply map_eq. intros l. cbn. unfold lists_of. rewrite !lookup_fmap, !lookup_gset_to_gmap. by case_guard.
  - cbn. by rewrite dom_fmap_L, dom_gset_to_gmap.
  - intros l ys p uh [_ <-]%lookup_gset_to_gmap_Some Hp. by apply not_elem_of_nil in Hp.
  - intros l ys [_ <-]%lookup_gset_to_gmap_Some. constructor.
Qed.

Lemma urep_chain cells st S l ys : urep cells st S -> S !! l = Some ys ->
  is_list (u_heap st) l ys.*1 /\ Forall (fun y => data_of (u_heap st) y.1 = Some y.1 /\ u_helpers st !! y.1 = Some y.2) ys /\ (length ys < fuel_of (u_heap st))%nat.
Proof.
  intros (A & HA & HL & _ & HH & _) Hl. assert (a_lists A !! l = Some ys.*1) as Hl' by (rewrite HL; unfold lists_of; rewrite lookup_fmap; by rewrite Hl). split_and!.
  - by apply (rep_lists _ _ (proj1 HA)).
  - apply Forall_forall. intros [p uh] Hp. destruct (HH l ys p uh Hl Hp) as [H1 H2]. by rewrite (arep_get _ _ _ HA) in H1.
  - pose proof (rep_length _ _ _ _ (proj1 HA) Hl') as H. rewrite length_fmap in H. unfold fuel_of. lia.
Qed.

(** A datagram passes through a stack: down to send, up to receive; a helper
    passes it on to those below or above it. *)
Definition passes (us : udp_sock) (st : ustate) (ys : list (nat * udp_helper)) : Prop :=
  (forall dst mb w s, udp_send us st dst mb w s = all (run_send us (reverse ys.*2) dst mb) w s) /\
  (forall src mb w s, udp_recv_packet us st src mb w s = run_recv us ys.*2 src mb w s) /\
  (forall layer, udp_helper_find us layer st = Some (fst <$> List.find (fun y => layer =? uh_layer y.2) ys)) /\
  (forall a p uh b, ys = a ++ (p, uh) :: b ->
    (forall dst mb w s, udp_send_helper us st dst mb p w s = all (run_send us (reverse a.*2) dst mb) w s) /\
    (forall src mb w s, udp_recv_helper us st src mb (Some p) w s = run_recv us b.*2 src mb w s)).

Lemma urep_passes cells st S us ys : urep cells st S -> S !! us_helpers us = Some ys -> passes us st ys.
Proof.
  intros HU Hys. destruct (urep_chain _ _ _ _ _ HU Hys) as (HI & HF & Hf).
  pose proof (chain_fwd _ _ _ HI) as C1. pose proof (chain_bwd _ _ _ HI) as C2.
  assert (rd_list (Some (us_helpers us)) (u_heap st) = Some (Lst (head ys.*1) (last ys.*1) (zlen ys.*1))) as HR by apply HI.
  split_and!.
  - intros dst mb w s. unfold udp_send, udp_send_internal. rewrite HR. cbn [l_tail]. rewrite <-fmap_reverse. apply send_loop_run; [by rewrite fmap_reverse|by apply Forall_reverse|by rewrite length_reverse].
  - intros src mb w s. unfold udp_recv_packet, udp_recv_helper. rewrite HR. cbn [fmap option_fmap option_map l_head]. by apply recv_helpers_run.
  - intros layer. unfold udp_helper_find. rewrite HR. cbn [mbind option_bind l_head]. by apply find_loop_run.
  - intros a p uh b ->. apply Forall_app in HF as [Fa Fb]. inversion Fb as [|? ? _ Fb']; subst. rewrite length_app in Hf. cbn [length] in Hf. rewrite fmap_app in C1, C2. cbn [fmap list_fmap fst] in C1, C2. split.
    + intros dst mb w s. unfold udp_send_helper, udp_send_internal. rewrite reverse_app, reverse_cons, <-app_assoc in C2. cbn [app] in C2. destruct (chain_inside _ _ _ _ _ _ C2) as (r & Hr' & Hc). cbn [rd_le mbind option_bind]. rewrite Hr'.
      rewrite <-fmap_reverse. apply send_loop_run; [by rewrite fmap_reverse|by apply Forall_reverse|rewrite length_reverse; lia].
    + intros src mb w s. unfold udp_recv_helper. destruct (chain_inside _ _ _ _ _ _ C1) as (r & Hr' & Hc). cbn [rd_le mbind option_bind]. rewrite Hr'. cbn [fmap option_fmap option_map]. apply recv_helpers_run; [done|done|lia].
Qed.

(** C29. The helpers of a socket are a stack, whatever was registered and removed
    before in whatever order: ordered by layer, equal layers in the order of
    registration; a datagram to send passes them from the highest to the lowest,
    one that arrives from the lowest to the highest, a helper passes on through
    those below it or above it; and no access is invalid. *)
Theorem udp_stack (cells ls : gset nat) (os : list udp_op) :
  Z.of_nat (size cells) < 18446744073709551616 -> ops_valid cells os (gset_to_gmap [] ls) ->
  exists st, run_all os (ustart cells ls) = Some st /\
    forall us ys, spec_all os (gset_to_gmap [] ls) !! us_helpers us = Some ys ->
      StronglySorted (fun x y => uh_layer x.2 <= uh_layer y.2) ys /\ passes us st ys.
Proof.
  intros Hs Hv. destruct (run_urep cells os _ _ (ustart_urep cells ls Hs) Hv) as (st & Hr & HU). exists st. split; [done|]. intros us ys Hys.
  split; [|by eapply urep_passes]. destruct HU as (_ & _ & _ & _ & _ & HS). by apply (HS _ _ Hys).
Qed.

(** ** Descriptors *)
Lemma close_open fd f : fd ∉ f_open f -> close_fd fd (open_fd fd f) = Some f.
Proof.
  intros H. unfold close_fd, open_fd. cbn [f_open f_watch]. rewrite decide_True by set_solver. destruct f as [o w]. cbn in *. do 2 f_equal. set_solver.
Qed.
(** The system returns descriptors that are not open. *)
Definition fresh_fds (l : list bind_ans) (f : fds) : Prop := Forall (fun a => forall fd, ba_sock a = inr fd -> fd ∉ f_open f /\ fd ∉ f_watch f) l.
Lemma listen_loop_fds l : forall err f, fresh_fds l f ->
  exists err' o, listen_loop l err f = Some (err', o, from_option (fun fd => open_fd fd f) f o) /\ forall fd, o = Some fd -> fd ∉ f_open f /\ fd ∉ f_watch f.
Proof.
  induction l as [|a l IH]; intros err f HF; cbn [listen_loop]; [by exists err, None|]. inversion HF as [|? ? Ha HF']; subst. destruct (ba_sock a) as [e|fd] eqn:Es; [by apply IH|].
  destruct (Ha fd eq_refl) as [H1 H2]. destruct (negb _); [rewrite close_open by done; by apply IH|]. destruct (negb _); [rewrite close_open by done; by apply IH|].
  exists 0, (Some fd). split; [done|]. by intros ? [= <-].
Qed.
(** Releasing a socket without helpers gives its descriptor back. *)
Lemma destructor_fds us st f : h_list (u_heap st) !! us_helpers us = Some (Lst None None 0) ->
  (forall fd, us_fd us = Some fd -> fd ∉ f_open f /\ fd ∉ f_watch f) ->
  let g := from_option (fun fd => Fds ({[fd]} ∪ f_open f) (if us_fhs us then {[fd]} ∪ f_watch f else f_watch f)) f (us_fd us) in
  udp_destructor us st g = Some (UState (Heap (h_le (u_heap st)) (h_list (u_heap st))) (u_helpers st), f).
Proof.
  intros Hl Hf g. unfold udp_destructor, list_flush, list_init, upd_list. cbn [isnull rd_list mbind option_bind]. rewrite Hl. cbn [mbind option_bind l_head].
  unfold fuel_of. cbn [flush_loop isnull mbind option_bind]. rewrite Hl. cbn [mbind option_bind]. rewrite insert_id by done.
  unfold udp_thread_detach, g. destruct (us_fd us) as [fd|] eqn:E; cbn [from_option]; [|by rewrite E]. destruct (Hf fd eq_refl) as [H1 H2]. destruct f as [o w]. cbn [f_open f_watch us_fd] in *.
  assert (forall x : gset nat, fd ∉ x -> ({[fd]} ∪ x) ∖ {[fd]} = x) as Hx by (intros x; set_solver).
  destruct (us_fhs us); cbn [f_open f_watch]; unfold close_fd; cbn [f_open f_watch]; rewrite decide_True by set_solver; cbn [mbind option_bind]; by rewrite !Hx.
Qed.

(** A socket that is opened owns one new descriptor, which the event loop
    watches; an attempt that fails, for whatever reason and however many
    addresses were tried, leaves no descriptor open; and releasing the socket
    gives the descriptor back. *)
Theorem udp_listen_descriptors (mem : option nat) (lock_err listen_err : Z) (res : option (list bind_ans))
    (rh : option (sa -> mbuf -> M W unit)) (st : ustate) (f : fds) :
  (forall l, mem = Some l -> is_Some (h_list (u_heap st) !! l)) -> fresh_fds (default [] res) f ->
  exists r st' f', udp_listen mem lock_err res listen_err rh st f = Some (r, st', f') /\
    match r with
    | inl err => f' = f /\ err <> 0
    | inr us => exists fd, us_fd us = Some fd /\ us_fhs us = true /\ f' = Fds ({[fd]} ∪ f_open f) ({[fd]} ∪ f_watch f) /\ fd ∉ f_open f /\
        snd <$> udp_destructor us st' f' = Some f
    end.
Proof.
  intros Hm HF. unfold udp_listen, udp_alloc. destruct mem as [l|]; cbn [mbind option_bind]; [|by eexists _, _, _].
  destruct (Hm l eq_refl) as [t Ht]. unfold list_init, upd_list. cbn [isnull mbind option_bind]. rewrite Ht. cbn [mbind option_bind].
  destruct (Z.eqb_spec lock_err 0) as [_|Hlk]; cbn [negb mbind option_bind]; [|by eexists _, _, _].
  set (st1 := UState _ _). set (us := UdpSock l _ _ _ _ _ _ _ _).
  assert (h_list (u_heap st1) !! l = Some (Lst None None 0)) as Hl by apply lookup_insert_eq.
  destruct res as [res|]; cbn [default] in HF.
  2:{ pose proof (destructor_fds us st1 f Hl) as D. cbn [us us_fd from_option] in D. rewrite D by done. cbn. eexists _, _, _. split; [done|]. done. }
  destruct (listen_loop_fds res 0 f HF) as (err & o & -> & Ho). cbn [mbind option_bind]. destruct o as [fd|]; cbn [from_option].
  2:{ pose proof (destructor_fds us st1 f Hl) as D. cbn [us us_fd from_option] in D. rewrite D by done. cbn. eexists _, _, _. split; [done|]. split; [done|]. by destruct (Z.eqb_spec err 0). }
  destruct (Ho fd eq_refl) as [H1 H2]. unfold udp_thread_attach. cbn [with_fd us us_fd]. destruct (Z.eqb_spec listen_err 0) as [_|Hle]; cbn [negb].
  - cbn [Z.eqb negb]. eexists _, _, _. split; [done|]. exists fd. split_and!; [done|done|done|done|]. set (us2 := with_rh rh _).
    pose proof (destructor_fds us2 st1 f Hl) as D. cbn [us2 with_rh us_fd us_fhs from_option] in D. unfold open_fd. cbn [f_open f_watch]. rewrite D; [done|]. by intros ? [= <-].
  - unfold udp_thread_detach. cbn [with_fd us us_helpers us_sendh us_rh us_eh us_fhs us_fd us_conn us_rxsz us_presz]. destruct (Z.eqb_spec listen_err 0); [done|]. cbn [negb]. set (us2 := UdpSock l None None None false (Some fd) None 0 0).
    pose proof (destructor_fds us2 st1 f Hl) as D. cbn [us2 us_fd us_fhs from_option] in D. unfold open_fd. rewrite D; [cbn; eexists _, _, _; split; [done|done]|]. by intros ? [= <-].
Qed.

(** [udp_open] sets no receive handler: a datagram that reaches such a socket
    before [udp_handler_set] calls NULL. *)
Lemma open_without_handler mem lock_err sock st f us st' f' src mb w s :
  udp_open mem lock_err sock st f = Some (inr us, st', f') -> udp_input us src mb w s = (None, w, s).
Proof.
  unfold udp_open, udp_alloc. destruct mem as [l|]; [|done]. destruct (list_init _ _); [|done]. cbn [mbind option_bind]. destruct (negb _); [done|]. cbn [mbind option_bind].
  destruct sock as [e|fd]; [|by intros [= <- <- <-]]. match goal with |- context [udp_destructor ?a ?b ?c] => by destruct (udp_destructor a b c) as [[??]|] end.
Qed.
End udp.

(** ** Two sockets *)
Section peers.
Context `{V : Env}.

(** Helpers that recode datagrams: what is sent is encoded by layer, and what is
    received decoded. *)
Definition encodes {W} (enc : Z -> bytes -> bytes) (uh : udp_helper (W := W)) : Prop := forall dst mb w s,
  exists mb', uh_sendh uh dst mb w s = ((false, 0, dst, mb'), w, s) /\ mbuf_buf mb' = enc (uh_layer uh) (mbuf_buf mb).
Definition decodes {W} (dec : Z -> bytes -> bytes) (uh : udp_helper (W := W)) : Prop := forall src mb w s,
  exists mb', uh_recvh uh src mb w s = ((false, src, mb'), w, s) /\ mbuf_buf mb' = dec (uh_layer uh) (mbuf_buf mb).

Lemma run_send_encodes {W} enc (us : udp_sock (W := W)) hs : Forall (encodes enc) hs -> forall dst mb w s,
  exists mb', mbuf_buf mb' = foldl (fun d l => enc l d) (mbuf_buf mb) (map uh_layer hs) /\ run_send us hs dst mb w s = udp_output us dst mb' w s.
Proof.
  induction 1 as [|uh hs Hu HF IH]; intros dst mb w s; cbn [run_send map foldl]; [eauto|]. destruct (Hu dst mb w s) as (m1 & E1 & B1). unfold mbind, M_bind. rewrite E1. cbn [orb negb Z.eqb].
  rewrite <-B1. apply IH.
Qed.
Lemma run_recv_decodes {W} dec (us : udp_sock (W := W)) hs : Forall (decodes dec) hs -> forall src mb w s,
  exists mb', mbuf_buf mb' = foldl (fun d l => dec l d) (mbuf_buf mb) (map uh_layer hs) /\ run_recv us hs src mb w s = udp_input us src mb' w s.
Proof.
  induction 1 as [|uh hs Hu HF IH]; intros src mb w s; cbn [run_recv map foldl]; [eauto|]. destruct (Hu src mb w s) as (m1 & E1 & B1). unfold mbind, M_bind. rewrite E1.
  rewrite <-B1. apply IH.
Qed.
Lemma layers_undo (enc dec : Z -> bytes -> bytes) ls : (forall l d, dec l (enc l d) = d) -> forall d,
  foldl (fun d l => dec l d) (foldl (fun d l => enc l d) d (reverse ls)) ls = d.
Proof. intros Hi. induction ls as [|l ls IH]; intros d; [done|]. rewrite reverse_cons, foldl_app. cbn [foldl]. by rewrite Hi, IH. Qed.

(** C30. Two programs have put helpers for the same layers on their sockets, each in
    an order of its own and perhaps after removing others.  What one side's
    helpers encode the other's decode, layer by layer.  Then a datagram that is
    sent leaves as one datagram, and when that arrives at the peer, its receive
    handler is given what was sent. *)
Theorem udp_peers {W1 W2} (cells1 ls1 cells2 ls2 : gset nat) (os1 : list (udp_op (W := W1))) (os2 : list (udp_op (W := W2)))
    (us1 : udp_sock (W := W1)) (us2 : udp_sock (W := W2)) (ys1 : list (nat * udp_helper (W := W1))) (ys2 : list (nat * udp_helper (W := W2)))
    (enc dec : Z -> bytes -> bytes) (fd : nat) (rh : sa -> mbuf -> M W2 unit) :
  Z.of_nat (size cells1) < 18446744073709551616 -> ops_valid cells1 os1 (gset_to_gmap [] ls1) ->
  Z.of_nat (size cells2) < 18446744073709551616 -> ops_valid cells2 os2 (gset_to_gmap [] ls2) ->
  spec_all os1 (gset_to_gmap [] ls1) !! us_helpers us1 = Some ys1 -> spec_all os2 (gset_to_gmap [] ls2) !! us_helpers us2 = Some ys2 ->
  map uh_layer ys1.*2 ≡ₚ map uh_layer ys2.*2 -> Forall (encodes enc) ys1.*2 -> Forall (decodes dec) ys2.*2 -> (forall l d, dec l (enc l d) = d) ->
  us_sendh us1 = None -> us_fd us1 = Some fd -> us_rh us2 = Some rh ->
  exists st1 st2, run_all os1 (ustart cells1 ls1) = Some st1 /\ run_all os2 (ustart cells2 ls2) = Some st2 /\
    forall dst src mb w1 w2 s1 s2, exists d',
      out (udp_send us1 st1 dst mb w1 s1).2 = out s1 ++ [UdpSend fd (default dst (us_conn us1)) d'] /\
      forall mb', mbuf_buf mb' = d' -> exists mb'', mbuf_buf mb'' = mbuf_buf mb /\
        udp_recv_packet us2 st2 src mb' w2 s2 = (rh src mb'';; mret (Some tt)) w2 s2.
Proof.
  intros Hs1 Hv1 Hs2 Hv2 Hy1 Hy2 HP HE HD Hi Hsh Hfd Hrh.
  destruct (run_urep cells1 os1 _ _ (ustart_urep cells1 ls1 Hs1) Hv1) as (st1 & Hr1 & HU1). destruct (run_urep cells2 os2 _ _ (ustart_urep cells2 ls2 Hs2) Hv2) as (st2 & Hr2 & HU2).
  exists st1, st2. split; [done|]. split; [done|]. destruct (urep_passes _ _ _ _ _ HU1 Hy1) as (Hsend & _). destruct (urep_passes _ _ _ _ _ HU2 Hy2) as (_ & Hrecv & _).
  assert (map uh_layer ys1.*2 = map uh_layer ys2.*2) as Hly.
  { assert (forall {W} cells st S l (ys : list (nat * udp_helper (W := W))), urep cells st S -> S !! l = Some ys -> StronglySorted Z.le (map uh_layer ys.*2)) as HSS.
    { intros W cells st S l ys (_ & _ & _ & _ & _ & HS) Hl. pose proof (HS l ys Hl) as H. clear -H. induction H as [|y ys H IH Hy]; cbn; constructor; [exact IH|].
      rewrite !Forall_map. exact Hy. }
    apply (StronglySorted_unique Z.le); [exact (HSS _ _ _ _ _ _ HU1 Hy1)|exact (HSS _ _ _ _ _ _ HU2 Hy2)|exact HP]. }
  intros dst src mb w1 w2 s1 s2. rewrite Hsend. destruct (run_send_encodes enc us1 (reverse ys1.*2) ltac:(by apply Forall_reverse) dst mb w1 s1) as (m1 & B1 & E1).
  exists (mbuf_buf m1). split; [unfold all, mbind, M_bind; rewrite E1; unfold udp_output; rewrite Hsh, Hfd; done|].
  intros mb' Hmb. rewrite Hrecv. destruct (run_recv_decodes dec us2 ys2.*2 HD src mb' w2 s2) as (m2 & B2 & E2). exists m2. rewrite E2. unfold udp_input. rewrite Hrh. split; [|done].
  rewrite B2, Hmb, B1, <-Hly. replace (map uh_layer (reverse ys1.*2)) with (reverse (map uh_layer ys1.*2)) by (symmetry; apply fmap_reverse). by apply layers_undo.
Qed.
End peers.

(** ** A run: helpers that put their layer in front of the datagram *)
Definition tagged (d : bytes) : mbuf := Mbuf d 0 (length d).
Lemma tagged_buf d : mbuf_buf (tagged d) = d.
Proof. unfold mbuf_buf, mbuf_get_left, tagged. cbn. rewrite drop_0, Nat.sub_0_r. by apply firstn_all. Qed.
Definition tag_send {W} (l : Z) : udp_helper_send_h (W := W) := fun dst mb => mret (false, 0, dst, tagged (l :: mbuf_buf mb)).
Definition tag_recv {W} (l : Z) : udp_helper_recv_h (W := W) := fun src mb => mret (false, src, tagged (tail (mbuf_buf mb))).
Definition tag_helper {W} (l : Z) : udp_helper (W := W) := new_helper l (Some (tag_send l)) (Some (tag_recv l)).
Definition demo_sock {W} (rh : option (sa -> mbuf -> M W unit)) : udp_sock (W := W) := UdpSock 1 None rh None true (Some 5%nat) None 0 0.
Definition tag_register {W} (p : nat) (l : Z) : udp_op (W := W) := Register (demo_sock None) p l (Some (tag_send l)) (Some (tag_recv l)).
Definition demo_cells : gset nat := {[10; 11; 12]}%nat.
Definition demo_lists : gset nat := {[1]}%nat.
(** The helper of layer 7 is removed and its memory used again. *)
Definition demo_os1 : list (udp_op (W := unit)) := [tag_register 10 20; tag_register 11 7; Remove 11; tag_register 11 (-3)].
Definition demo_os2 : list (udp_op (W := list bytes)) := [tag_register 12 (-3); tag_register 10 20].

Lemma demo_spec1 : spec_all demo_os1 (gset_to_gmap [] demo_lists) !! 1%nat = Some [(11%nat, tag_helper (-3)); (10%nat, tag_helper 20)].
Proof. reflexivity. Qed.
Lemma demo_spec2 : spec_all demo_os2 (gset_to_gmap [] demo_lists) !! 1%nat = Some [(12%nat, tag_helper (-3)); (10%nat, tag_helper 20)].
Proof. reflexivity. Qed.

(** Whether an address is in use can be read off the stacks. *)
Definition in_useb {W} (S : gmap nat (list (nat * udp_helper (W := W)))) (p : nat) : bool :=
  existsb (fun e => existsb (fun y => (y.1 =? p)%nat) e.2) (map_to_list S).
Lemma in_useb_spec {W} (S : gmap nat (list (nat * udp_helper (W := W)))) p : in_useb S p = true <-> in_use S p.
Proof.
  unfold in_useb, in_use. rewrite existsb_exists. split.
  - intros ([l ys] & Hin & (y & Hy & E)%existsb_exists). apply list_elem_of_In, elem_of_map_to_list in Hin. exists l, ys. split; [done|]. apply Nat.eqb_eq in E. subst p. apply list_elem_of_fmap. exists y. split; [done|]. by apply list_elem_of_In.
  - intros (l & ys & Hl & (y & -> & Hy)%list_elem_of_fmap). exists (l, ys). split; [by apply list_elem_of_In, elem_of_map_to_list|]. apply existsb_exists. exists y. split; [by apply list_elem_of_In|apply Nat.eqb_refl].
Qed.
Lemma not_in_use {W} (S : gmap nat (list (nat * udp_helper (W := W)))) p : in_useb S p = false -> ~ in_use S p.
Proof. intros H. rewrite <-in_useb_spec. by rewrite H. Qed.
Lemma demo_valid1 : ops_valid demo_cells demo_os1 (gset_to_gmap [] demo_lists).
Proof.
  cbn [demo_os1 ops_valid op_valid tag_register]. split_and!; try done; try (by eexists; vm_compute); try (apply not_in_use; by vm_compute); try (unfold demo_cells; set_solver).
  apply in_useb_spec. by vm_compute.
Qed.
Lemma demo_valid2 : ops_valid demo_cells demo_os2 (gset_to_gmap [] demo_lists).
Proof. cbn [demo_os2 ops_valid op_valid tag_register]. split_and!; try done; try (by eexists; vm_compute); try (apply not_in_use; by vm_compute); unfold demo_cells; set_solver. Qed.

Lemma udp_stack_witness :
  exists st, run_all demo_os1 (ustart demo_cells demo_lists) = Some st /\
    forall dst mb w s, udp_send (V := good_env) (demo_sock None) st dst mb w s = all (run_send (V := good_env) (demo_sock None) [tag_helper 20; tag_helper (-3)] dst mb) w s.
Proof.
  destruct (udp_stack (V := good_env) demo_cells demo_lists demo_os1 ltac:(by vm_compute) demo_valid1) as (st & Hr & H).
  exists st. split; [exact Hr|]. exact (proj1 (proj2 (H (demo_sock None) _ demo_spec1))).
Defined.

Lemma udp_peers_witness :
  exists st1 st2 d', run_all demo_os1 (ustart demo_cells demo_lists) = Some st1 /\ run_all demo_os2 (ustart demo_cells demo_lists) = Some st2 /\
    out (udp_send (V := good_env) (demo_sock None) st1 sa_zero (tagged [1; 2]) tt (Sys 0 [])).2 = [UdpSend 5 sa_zero d'] /\
    (udp_recv_packet (demo_sock (Some (fun _ mb => modify (cons (mbuf_buf mb))))) st2 sa_zero (tagged d') [] (Sys 0 [])).1.2 = [[1; 2]].
Proof.
  destruct (udp_peers (V := good_env) demo_cells demo_lists demo_cells demo_lists demo_os1 demo_os2 (demo_sock None) (demo_sock (Some (fun _ mb => modify (cons (mbuf_buf mb)))))
    _ _ (fun l d => l :: d) (fun _ d => tail d) 5%nat (fun _ mb => modify (cons (mbuf_buf mb))) ltac:(by vm_compute) demo_valid1 ltac:(by vm_compute) demo_valid2 demo_spec1 demo_spec2)
    as (st1 & st2 & H1 & H2 & H); [done| | |done|done|done|done|].
  - repeat constructor; intros dst mb w s; eexists; (split; [reflexivity|apply tagged_buf]).
  - repeat constructor; intros dst mb w s; eexists; (split; [reflexivity|apply tagged_buf]).
  - destruct (H sa_zero sa_zero (tagged [1; 2]) tt [] (Sys 0 []) (Sys 0 [])) as (d' & Ho & Hr). exists st1, st2, d'. split; [exact H1|]. split; [exact H2|]. split; [exact Ho|].
    destruct (Hr (tagged d') (tagged_buf d')) as (mb & Hb & ->). cbn. by rewrite Hb.
Defined.
