(* ===== verification/Crc32.v ===== *)
(** * CRC-32 ([src/re-4.6.0/src/crc32/crc32.c])

    libre's table-driven checksum, which STUN uses as the fingerprint of a
    message.  The table is the one of the source.  The theorems show that the
    routine computes the shift register over the reversed polynomial
    [0xedb88320] bit by bit, and that a changed octet is always noticed. *)
From S2P Require Import Prelude.

Definition crc32_tab : list Z :=
  [0x00000000; 0x77073096; 0xee0e612c; 0x990951ba; 0x076dc419; 0x706af48f;
   0xe963a535; 0x9e6495a3; 0x0edb8832; 0x79dcb8a4; 0xe0d5e91e; 0x97d2d988;
   0x09b64c2b; 0x7eb17cbd; 0xe7b82d07; 0x90bf1d91; 0x1db71064; 0x6ab020f2;
   0xf3b97148; 0x84be41de; 0x1adad47d; 0x6ddde4eb; 0xf4d4b551; 0x83d385c7;
   0x136c9856; 0x646ba8c0; 0xfd62f97a; 0x8a65c9ec; 0x14015c4f; 0x63066cd9;
   0xfa0f3d63; 0x8d080df5; 0x3b6e20c8; 0x4c69105e; 0xd56041e4; 0xa2677172;
   0x3c03e4d1; 0x4b04d447; 0xd20d85fd; 0xa50ab56b; 0x35b5a8fa; 0x42b2986c;
   0xdbbbc9d6; 0xacbcf940; 0x32d86ce3; 0x45df5c75; 0xdcd60dcf; 0xabd13d59;
   0x26d930ac; 0x51de003a; 0xc8d75180; 0xbfd06116; 0x21b4f4b5; 0x56b3c423;
   0xcfba9599; 0xb8bda50f; 0x2802b89e; 0x5f058808; 0xc60cd9b2; 0xb10be924;
   0x2f6f7c87; 0x58684c11; 0xc1611dab; 0xb6662d3d; 0x76dc4190; 0x01db7106;
   0x98d220bc; 0xefd5102a; 0x71b18589; 0x06b6b51f; 0x9fbfe4a5; 0xe8b8d433;
   0x7807c9a2; 0x0f00f934; 0x9609a88e; 0xe10e9818; 0x7f6a0dbb; 0x086d3d2d;
   0x91646c97; 0xe6635c01; 0x6b6b51f4; 0x1c6c6162; 0x856530d8; 0xf262004e;
   0x6c0695ed; 0x1b01a57b; 0x8208f4c1; 0xf50fc457; 0x65b0d9c6; 0x12b7e950;
   0x8bbeb8ea; 0xfcb9887c; 0x62dd1ddf; 0x15da2d49; 0x8cd37cf3; 0xfbd44c65;
   0x4db26158; 0x3ab551ce; 0xa3bc0074; 0xd4bb30e2; 0x4adfa541; 0x3dd895d7;
   0xa4d1c46d; 0xd3d6f4fb; 0x4369e96a; 0x346ed9fc; 0xad678846; 0xda60b8d0;
   0x44042d73; 0x33031de5; 0xaa0a4c5f; 0xdd0d7cc9; 0x5005713c; 0x270241aa;
   0xbe0b1010; 0xc90c2086; 0x5768b525; 0x206f85b3; 0xb966d409; 0xce61e49f;
   0x5edef90e; 0x29d9c998; 0xb0d09822; 0xc7d7a8b4; 0x59b33d17; 0x2eb40d81;
   0xb7bd5c3b; 0xc0ba6cad; 0xedb88320; 0x9abfb3b6; 0x03b6e20c; 0x74b1d29a;
   0xead54739; 0x9dd277af; 0x04db2615; 0x73dc1683; 0xe3630b12; 0x94643b84;
   0x0d6d6a3e; 0x7a6a5aa8; 0xe40ecf0b; 0x9309ff9d; 0x0a00ae27; 0x7d079eb1;
   0xf00f9344; 0x8708a3d2; 0x1e01f268; 0x6906c2fe; 0xf762575d; 0x806567cb;
   0x196c3671; 0x6e6b06e7; 0xfed41b76; 0x89d32be0; 0x10da7a5a; 0x67dd4acc;
   0xf9b9df6f; 0x8ebeeff9; 0x17b7be43; 0x60b08ed5; 0xd6d6a3e8; 0xa1d1937e;
   0x38d8c2c4; 0x4fdff252; 0xd1bb67f1; 0xa6bc5767; 0x3fb506dd; 0x48b2364b;
   0xd80d2bda; 0xaf0a1b4c; 0x36034af6; 0x41047a60; 0xdf60efc3; 0xa867df55;
   0x316e8eef; 0x4669be79; 0xcb61b38c; 0xbc66831a; 0x256fd2a0; 0x5268e236;
   0xcc0c7795; 0xbb0b4703; 0x220216b9; 0x5505262f; 0xc5ba3bbe; 0xb2bd0b28;
   0x2bb45a92; 0x5cb36a04; 0xc2d7ffa7; 0xb5d0cf31; 0x2cd99e8b; 0x5bdeae1d;
   0x9b64c2b0; 0xec63f226; 0x756aa39c; 0x026d930a; 0x9c0906a9; 0xeb0e363f;
   0x72076785; 0x05005713; 0x95bf4a82; 0xe2b87a14; 0x7bb12bae; 0x0cb61b38;
   0x92d28e9b; 0xe5d5be0d; 0x7cdcefb7; 0x0bdbdf21; 0x86d3d2d4; 0xf1d4e242;
   0x68ddb3f8; 0x1fda836e; 0x81be16cd; 0xf6b9265b; 0x6fb077e1; 0x18b74777;
   0x88085ae6; 0xff0f6a70; 0x66063bca; 0x11010b5c; 0x8f659eff; 0xf862ae69;
   0x616bffd3; 0x166ccf45; 0xa00ae278; 0xd70dd2ee; 0x4e048354; 0x3903b3c2;
   0xa7672661; 0xd06016f7; 0x4969474d; 0x3e6e77db; 0xaed16a4a; 0xd9d65adc;
   0x40df0b66; 0x37d83bf0; 0xa9bcae53; 0xdebb9ec5; 0x47b2cf7f; 0x30b5ffe9;
   0xbdbdf21c; 0xcabac28a; 0x53b39330; 0x24b4a3a6; 0xbad03605; 0xcdd70693;
   0x54de5729; 0x23d967bf; 0xb3667a2e; 0xc4614ab8; 0x5d681b02; 0x2a6f2b94;
   0xb40bbe37; 0xc30c8ea1; 0x5a05df1b; 0x2d02ef8d].

(** [re_crc32] ([USE_ZLIB] is not defined in this build). *)
Fixpoint crc_loop (crc : Z) (buf : bytes) : Z :=
  match buf with
  | [] => crc
  | p :: buf =>
      crc_loop (Z.lxor (nth (Z.to_nat (Z.land (Z.lxor crc p) 0xff)) crc32_tab 0) (Z.shiftr crc 8)) buf
  end.
Definition re_crc32 (crc : Z) (buf : bytes) : Z :=
  Z.lxor (crc_loop (u32 (Z.lnot crc)) buf) 0xffffffff.

(** ** The reference: one bit at a time *)

Definition crc_bit (x : Z) : Z :=
  Z.lxor (Z.shiftr x 1) (if Z.testbit x 0 then 0xedb88320 else 0).
Definition crc_octet (crc p : Z) : Z := Nat.iter 8 crc_bit (Z.lxor crc p).
Definition crc32_ref (crc : Z) (buf : bytes) : Z :=
  Z.lxor (fold_left crc_octet buf (u32 (Z.lnot crc))) 0xffffffff.

(** The value everybody checks a CRC-32 with. *)
Example crc32_check : re_crc32 0 (cstr "123456789") = 0xcbf43926.
Proof. by vm_compute. Qed.

(** ** Lemmas *)

Lemma crc_bit_lxor x y : crc_bit (Z.lxor x y) = Z.lxor (crc_bit x) (crc_bit y).
Proof.
  unfold crc_bit. rewrite Z.lxor_spec, Z.shiftr_lxor.
  apply Z.bits_inj'. intros n _. rewrite !Z.lxor_spec.
  destruct (Z.testbit x 0), (Z.testbit y 0), (Z.testbit (Z.shiftr x 1) n),
    (Z.testbit (Z.shiftr y 1) n); cbn [xorb]; rewrite ?Z.bits_0;
    destruct (Z.testbit 0xedb88320 n); done.
Qed.

Lemma crc_bits_lxor k x y :
  Nat.iter k crc_bit (Z.lxor x y) = Z.lxor (Nat.iter k crc_bit x) (Nat.iter k crc_bit y).
Proof. induction k as [|k IH]; [done|]. by rewrite !Nat.iter_succ, IH, crc_bit_lxor. Qed.

Lemma crc_bit_even x : crc_bit (Z.shiftl x 1) = x.
Proof.
  unfold crc_bit. rewrite Z.shiftl_spec_low by lia. rewrite Z.lxor_0_r.
  rewrite Z.shiftr_shiftl_l by lia. apply Z.shiftl_0_r.
Qed.

Lemma crc_bits_high k x : 0 <= x -> Nat.iter k crc_bit (Z.shiftl x (Z.of_nat k)) = x.
Proof.
  intros Hx. induction k as [|k IH]; [apply Z.shiftl_0_r|].
  rewrite Nat.iter_succ_r.
  replace (Z.shiftl x (Z.of_nat (S k))) with (Z.shiftl (Z.shiftl x (Z.of_nat k)) 1).
  - by rewrite crc_bit_even.
  - rewrite Z.shiftl_shiftl by lia. f_equal. lia.
Qed.

(** The 256 entries are what eight shifts make of the octet. *)
Lemma crc32_tab_spec b : is_byte b -> nth (Z.to_nat b) crc32_tab 0 = Nat.iter 8 crc_bit b.
Proof.
  intros Hb. apply Z.eqb_eq.
  apply (byte_check (fun b => nth (Z.to_nat b) crc32_tab 0 =? Nat.iter 8 crc_bit b)); [by vm_compute|done].
Qed.

Lemma land_255_byte x : is_byte (Z.land x 0xff).
Proof. change 0xff with (Z.ones 8). rewrite Z.land_ones by lia. unfold is_byte. apply Z.mod_pos_bound. lia. Qed.

Lemma split_low_octet x : Z.lxor (Z.land x 0xff) (Z.shiftl (Z.shiftr x 8) 8) = x.
Proof.
  apply Z.bits_inj'. intros n Hn. rewrite Z.lxor_spec, Z.land_spec, Z.shiftl_spec by done.
  change 0xff with (Z.ones 8). destruct (Z.ltb_spec n 8).
  - rewrite Z.ones_spec_low by lia. rewrite (Z.testbit_neg_r _ (n - 8)) by lia.
    by rewrite andb_true_r, xorb_false_r.
  - rewrite Z.ones_spec_high by lia. rewrite Z.shiftr_spec by lia.
    rewrite andb_false_r, xorb_false_l. f_equal. lia.
Qed.

Lemma shiftr_octet p : is_byte p -> Z.shiftr p 8 = 0.
Proof. intros [H1 H2]. rewrite Z.shiftr_div_pow2 by lia. by apply Z.div_small. Qed.

(** One round of the table version is eight rounds of the register. *)
Lemma crc_round crc p :
  0 <= crc -> is_byte p ->
  Z.lxor (nth (Z.to_nat (Z.land (Z.lxor crc p) 0xff)) crc32_tab 0) (Z.shiftr crc 8) = crc_octet crc p.
Proof.
  intros Hc Hp. unfold crc_octet. rewrite crc32_tab_spec by apply land_255_byte.
  rewrite <- (split_low_octet (Z.lxor crc p)) at 2. rewrite crc_bits_lxor.
  change 8 with (Z.of_nat 8) at 3. f_equal.
  rewrite crc_bits_high by (apply Z.shiftr_nonneg, Z.lxor_nonneg; unfold is_byte in Hp; lia).
  by rewrite Z.shiftr_lxor, (shiftr_octet p), Z.lxor_0_r.
Qed.

Abbreviation is_u32 x := (0 <= x < 4294967296).

(** Exclusive or stays within a width. *)
Lemma width_land w x : 0 <= w -> 0 <= x < 2 ^ w <-> Z.land x (Z.ones w) = x.
Proof.
  intros Hw. rewrite Z.land_ones by done. split.
  - intros H. by apply Z.mod_small.
  - intros <-. apply Z.mod_pos_bound. lia.
Qed.

Lemma lxor_width w x y :
  0 <= w -> 0 <= x < 2 ^ w -> 0 <= y < 2 ^ w -> 0 <= Z.lxor x y < 2 ^ w.
Proof.
  intros Hw. rewrite !width_land by done. intros Hx Hy. apply Z.bits_inj'. intros n Hn.
  rewrite Z.land_spec, Z.lxor_spec. rewrite <- Hx, <- Hy. rewrite !Z.land_spec.
  by destruct (Z.testbit x n), (Z.testbit y n), (Z.testbit (Z.ones w) n).
Qed.

Lemma lxor_u32 x y : is_u32 x -> is_u32 y -> is_u32 (Z.lxor x y).
Proof. by apply (lxor_width 32). Qed.
Lemma lxor_u16 x y : 0 <= x < 65536 -> 0 <= y < 65536 -> 0 <= Z.lxor x y < 65536.
Proof. by apply (lxor_width 16). Qed.
Lemma lxor_byte x y : is_byte x -> is_byte y -> is_byte (Z.lxor x y).
Proof. by apply (lxor_width 8). Qed.

Lemma crc_bit_u32 x : is_u32 x -> is_u32 (crc_bit x).
Proof.
  intros H. apply lxor_u32; [|by destruct (Z.testbit x 0)].
  rewrite Z.shiftr_div_pow2 by lia. change (2 ^ 1) with 2. Z.div_mod_to_equations. lia.
Qed.

Lemma crc_bits_u32 k x : is_u32 x -> is_u32 (Nat.iter k crc_bit x).
Proof. intros H. induction k; [done|]. rewrite Nat.iter_succ. by apply crc_bit_u32. Qed.

Lemma crc_octet_u32 c p : is_u32 c -> is_byte p -> is_u32 (crc_octet c p).
Proof. intros H [? ?]. apply crc_bits_u32, lxor_u32; lia. Qed.

Lemma crc_loop_ref crc buf :
  is_u32 crc -> Forall is_byte buf ->
  crc_loop crc buf = fold_left crc_octet buf crc /\ is_u32 (fold_left crc_octet buf crc).
Proof.
  intros Hc Hb. revert crc Hc. induction Hb as [|p buf Hp Hb IH]; intros crc Hc; [done|].
  cbn [crc_loop fold_left]. rewrite crc_round by (done || lia). apply IH.
  by apply crc_octet_u32.
Qed.

(** The low bit of the register comes out at the top, so no two states meet. *)
Lemma crc_bit_inj x y : is_u32 x -> is_u32 y -> crc_bit x = crc_bit y -> x = y.
Proof.
  intros Hx Hy E.
  assert (forall z, is_u32 z -> Z.testbit (crc_bit z) 31 = Z.testbit z 0) as T.
  { intros z Hz. unfold crc_bit. rewrite Z.lxor_spec, Z.shiftr_spec by lia.
    rewrite (Z.bits_above_log2 z (31 + 1)).
    - by destruct (Z.testbit z 0).
    - lia.
    - destruct (Z.eq_dec z 0) as [->|]; [done|]. apply Z.log2_lt_pow2; [lia|]. cbn. lia. }
  assert (Z.testbit x 0 = Z.testbit y 0) as E0 by (rewrite <- !T by done; by rewrite E).
  unfold crc_bit in E. rewrite E0 in E.
  assert (Z.shiftr x 1 = Z.shiftr y 1) as E1.
  { apply (f_equal (fun z => Z.lxor z (if Z.testbit y 0 then 0xedb88320 else 0))) in E.
    by rewrite !Z.lxor_assoc, Z.lxor_nilpotent, !Z.lxor_0_r in E. }
  apply Z.bits_inj'. intros n Hn. destruct (Z.eq_dec n 0) as [->|]; [done|].
  replace n with (n - 1 + 1) by lia. rewrite <- !Z.shiftr_spec by lia. by rewrite E1.
Qed.

Lemma crc_octet_inj c c' p p' :
  is_u32 c -> is_u32 c' -> is_byte p -> is_byte p' ->
  crc_octet c p = crc_octet c' p' -> Z.lxor c p = Z.lxor c' p'.
Proof.
  intros Hc Hc' [? ?] [? ?]. unfold crc_octet.
  assert (is_u32 (Z.lxor c p)) as Hu by (apply lxor_u32; lia).
  assert (is_u32 (Z.lxor c' p')) as Hv by (apply lxor_u32; lia). revert Hu Hv.
  generalize (Z.lxor c p), (Z.lxor c' p'), 8%nat. intros x y k Hx Hy.
  induction k as [|k IH]; [done|]. rewrite !Nat.iter_succ. intros E.
  apply IH, crc_bit_inj; [by apply crc_bits_u32|by apply crc_bits_u32|done].
Qed.

Lemma lxor_cancel_r a b c : Z.lxor a c = Z.lxor b c -> a = b.
Proof.
  intros E. apply (f_equal (fun z => Z.lxor z c)) in E.
  by rewrite !Z.lxor_assoc, Z.lxor_nilpotent, !Z.lxor_0_r in E.
Qed.
Lemma lxor_cancel_l a b c : Z.lxor c a = Z.lxor c b -> a = b.
Proof. rewrite !(Z.lxor_comm c). apply lxor_cancel_r. Qed.

Lemma crc_suffix_inj buf : forall c c',
  Forall is_byte buf -> is_u32 c -> is_u32 c' ->
  fold_left crc_octet buf c = fold_left crc_octet buf c' -> c = c'.
Proof.
  induction buf as [|p buf IH]; intros c c' Hb Hc Hc' E; [done|].
  inversion Hb as [|? ? Hp Hb']; subst. cbn [fold_left] in E.
  apply IH in E; [|done|by apply crc_octet_u32|by apply crc_octet_u32].
  apply crc_octet_inj in E; [|done..]. by apply lxor_cancel_r in E.
Qed.

Lemma u32_lnot crc : is_u32 (u32 (Z.lnot crc)).
Proof. apply u32_range. Qed.

(** ** Theorems *)

(** The table-driven routine computes the bitwise CRC-32 of any octets. *)
Theorem re_crc32_correct crc buf :
  Forall is_byte buf -> re_crc32 crc buf = crc32_ref crc buf.
Proof.
  intros Hb. unfold re_crc32, crc32_ref.
  by rewrite (proj1 (crc_loop_ref _ _ (u32_lnot crc) Hb)).
Qed.

(** A single changed octet, wherever it is, changes the checksum. *)
Theorem re_crc32_detects crc a x y b :
  Forall is_byte (a ++ x :: b) -> is_byte y -> x <> y ->
  re_crc32 crc (a ++ x :: b) <> re_crc32 crc (a ++ y :: b).
Proof.
  intros [Ha Hxb]%Forall_app Hy Hne E. inversion Hxb as [|? ? Hx Hb]; subst.
  rewrite !re_crc32_correct in E by (apply Forall_app; split; [done|by constructor]).
  unfold crc32_ref in E. apply lxor_cancel_r in E. rewrite !fold_left_app in E. cbn [fold_left] in E.
  pose proof (proj2 (crc_loop_ref _ _ (u32_lnot crc) Ha)) as Hs.
  apply crc_suffix_inj in E; [|done|by apply crc_octet_u32|by apply crc_octet_u32].
  apply crc_octet_inj in E; [|done..]. apply lxor_cancel_l in E. done.
Qed.
