(* ===== verification/StunCodec.v ===== *)
(** * STUN messages ([src/re-4.6.0/src/stun/]: [hdr.c], [addr.c], [attr.c],
    [msg.c], [stun.h])

    Encoding and decoding of messages: the header, every attribute type that
    libre knows, MESSAGE-INTEGRITY and FINGERPRINT.  Encoding moves the position
    of the buffer back and forth exactly as the code does (it leaves room for a
    header and fills it in later), and errors of writes are or-ed together.
    Decoding returns the first error.  HMAC-SHA1 is a parameter.

    The theorems are in [StunProofs]. *)
From S2P Require Import Prelude Sys Mbuf Crc32.
Local Open Scope Z_scope.

(** ** Constants *)
Definition STUN_HEADER_SIZE : nat := 20.
Definition STUN_TID_SIZE : nat := 12.
Definition STUN_MAGIC_COOKIE : Z := 0x2112a442.
Definition STUN_AF_IPv4 : Z := 1.
Definition STUN_AF_IPv6 : Z := 2.
Definition MI_SIZE : nat := 24.
Definition FP_SIZE : nat := 8.

(** [enum stun_attrib] *)
Definition STUN_ATTR_MAPPED_ADDR : Z := 0x0001.
Definition STUN_ATTR_CHANGE_REQ : Z := 0x0003.
Definition STUN_ATTR_USERNAME : Z := 0x0006.
Definition STUN_ATTR_MSG_INTEGRITY : Z := 0x0008.
Definition STUN_ATTR_ERR_CODE : Z := 0x0009.
Definition STUN_ATTR_UNKNOWN_ATTR : Z := 0x000a.
Definition STUN_ATTR_CHANNEL_NUMBER : Z := 0x000c.
Definition STUN_ATTR_LIFETIME : Z := 0x000d.
Definition STUN_ATTR_XOR_PEER_ADDR : Z := 0x0012.
Definition STUN_ATTR_DATA : Z := 0x0013.
Definition STUN_ATTR_REALM : Z := 0x0014.
Definition STUN_ATTR_NONCE : Z := 0x0015.
Definition STUN_ATTR_XOR_RELAY_ADDR : Z := 0x0016.
Definition STUN_ATTR_REQ_ADDR_FAMILY : Z := 0x0017.
Definition STUN_ATTR_EVEN_PORT : Z := 0x0018.
Definition STUN_ATTR_REQ_TRANSPORT : Z := 0x0019.
Definition STUN_ATTR_DONT_FRAGMENT : Z := 0x001a.
Definition STUN_ATTR_XOR_MAPPED_ADDR : Z := 0x0020.
Definition STUN_ATTR_RSV_TOKEN : Z := 0x0022.
Definition STUN_ATTR_PRIORITY : Z := 0x0024.
Definition STUN_ATTR_USE_CAND : Z := 0x0025.
Definition STUN_ATTR_RESP_PORT : Z := 0x0027.
Definition STUN_ATTR_SOFTWARE : Z := 0x8022.
Definition STUN_ATTR_ALT_SERVER : Z := 0x8023.
Definition STUN_ATTR_FINGERPRINT : Z := 0x8028.
Definition STUN_ATTR_CONTROLLED : Z := 0x8029.
Definition STUN_ATTR_CONTROLLING : Z := 0x802a.
Definition STUN_ATTR_RESP_ORIGIN : Z := 0x802b.
Definition STUN_ATTR_OTHER_ADDR : Z := 0x802c.

(** ** The message type *)
Definition STUN_TYPE (method class : Z) : Z :=
  Z.lor (Z.lor (Z.lor (Z.lor
    (Z.shiftl (Z.land method 0x0f80) 2) (Z.shiftl (Z.land method 0x0070) 1))
    (Z.land method 0x000f)) (Z.shiftl (Z.land class 0x2) 7)) (Z.shiftl (Z.land class 0x1) 4).
Definition STUN_CLASS (type : Z) : Z := Z.land (Z.lor (Z.shiftr type 7) (Z.shiftr type 4)) 0x3.
Definition STUN_METHOD (type : Z) : Z :=
  Z.lor (Z.lor (Z.shiftr (Z.land type 0x3e00) 2) (Z.shiftr (Z.land type 0x00e0) 1))
        (Z.land type 0x000f).

(** ** Data *)

(** [struct stun_hdr] *)
Record stun_hdr := Hdr { h_type : Z; h_len : Z; h_cookie : Z; h_tid : bytes }.

(** The value of an attribute, the union of [struct stun_attr]; [VDataHere] is
    the DATA attribute that already lies in the buffer written to. *)
Inductive stun_val :=
  | VSa (a : sa)
  | VChangeReq (ip port : bool)
  | VStr (s : bytes)
  | VMi (mi : bytes)
  | VErr (code : Z) (reason : bytes)
  | VUnknown (types : list Z)
  | VU16 (n : Z)
  | VU32 (n : Z)
  | VU64 (n : Z)
  | VU8 (n : Z)
  | VEven (r : bool)
  | VData (d : bytes)
  | VDataHere
  | VNone.

Record stun_attr := SAttr { a_type : Z; a_val : stun_val }.

(** What the type says about the value: the cases of both [switch]es. *)
Inductive attr_kind :=
  | KAddr (xor : bool) | KChangeReq | KStr | KMi | KErr | KUnknown | KU16 | KU32 | KData | KU8
  | KEven | KNone | KU64 | KOther.

Definition kind_table : list (Z * attr_kind) :=
  [(STUN_ATTR_MAPPED_ADDR, KAddr false); (STUN_ATTR_ALT_SERVER, KAddr false);
   (STUN_ATTR_RESP_ORIGIN, KAddr false); (STUN_ATTR_OTHER_ADDR, KAddr false);
   (STUN_ATTR_XOR_PEER_ADDR, KAddr true); (STUN_ATTR_XOR_RELAY_ADDR, KAddr true);
   (STUN_ATTR_XOR_MAPPED_ADDR, KAddr true); (STUN_ATTR_CHANGE_REQ, KChangeReq);
   (STUN_ATTR_USERNAME, KStr); (STUN_ATTR_REALM, KStr); (STUN_ATTR_NONCE, KStr);
   (STUN_ATTR_SOFTWARE, KStr); (STUN_ATTR_MSG_INTEGRITY, KMi); (STUN_ATTR_ERR_CODE, KErr);
   (STUN_ATTR_UNKNOWN_ATTR, KUnknown); (STUN_ATTR_CHANNEL_NUMBER, KU16);
   (STUN_ATTR_RESP_PORT, KU16); (STUN_ATTR_LIFETIME, KU32); (STUN_ATTR_PRIORITY, KU32);
   (STUN_ATTR_FINGERPRINT, KU32); (STUN_ATTR_DATA, KData); (STUN_ATTR_REQ_ADDR_FAMILY, KU8);
   (STUN_ATTR_REQ_TRANSPORT, KU8); (STUN_ATTR_EVEN_PORT, KEven);
   (STUN_ATTR_DONT_FRAGMENT, KNone); (STUN_ATTR_USE_CAND, KNone); (STUN_ATTR_RSV_TOKEN, KU64);
   (STUN_ATTR_CONTROLLED, KU64); (STUN_ATTR_CONTROLLING, KU64)].

Fixpoint assoc (l : list (Z * attr_kind)) (type : Z) : attr_kind :=
  match l with
  | [] => KOther
  | (t, k) :: l => if type =? t then k else assoc l type
  end.
Definition kind_of (type : Z) : attr_kind := assoc kind_table type.

(** ** Encoding *)
Section encode.
Context `{V : Env}.

(** [err |= mbuf_write_...] for each piece in turn. *)
Fixpoint write_all (mb : mbuf) (ds : list bytes) : IO (Z * mbuf) :=
  match ds with
  | [] => mret (0, mb)
  | d :: ds =>
      '(e, mb) ← mbuf_write_mem mb d;
      '(e', mb) ← write_all mb ds;
      mret (Z.lor e e', mb)
  end.

Definition stun_hdr_encode (mb : mbuf) (hdr : stun_hdr) : IO (Z * mbuf) :=
  write_all mb [be16 (Z.land (h_type hdr) 0x3fff); be16 (h_len hdr); be32 (h_cookie hdr);
                h_tid hdr].

Fixpoint xor_bytes (a b : bytes) : bytes :=
  match a, b with
  | x :: a, y :: b => Z.lxor x y :: xor_bytes a b
  | _, _ => a
  end.
Definition in6_xor_tid (in6 tid : bytes) : bytes :=
  xor_bytes in6 ([0x21; 0x12; 0xa4; 0x42] ++ tid).

Definition stun_addr_encode (mb : mbuf) (addr : sa) (tid : option bytes) : IO (Z * mbuf) :=
  let port := match tid with
              | Some _ => Z.lxor (sa_port addr) (Z.shiftr STUN_MAGIC_COOKIE 16)
              | None => sa_port addr
              end in
  match sa_ip addr with
  | AF_INET addr4 =>
      let addr4 := match tid with Some _ => Z.lxor addr4 STUN_MAGIC_COOKIE | None => addr4 end in
      write_all mb [[0]; [STUN_AF_IPv4]; be16 port; be32 addr4]
  | AF_INET6 addr6 =>
      let addr6 := match tid with Some tid => in6_xor_tid addr6 tid | None => addr6 end in
      write_all mb [[0]; [STUN_AF_IPv6]; be16 port; addr6]
  | _ => mret (EAFNOSUPPORT, mb)
  end.

Definition b2z (b : bool) : Z := if b then 1 else 0.
Definition be64 (v : Z) : bytes := be32 (v / 4294967296) ++ be32 v.

(** The [switch] of [stun_attr_encode]; the caller passes a value of the shape
    that the type has. *)
Definition attr_value_encode (mb : mbuf) (k : attr_kind) (v : stun_val) (tid : option bytes)
    : IO (Z * mbuf) :=
  match k, v with
  | KAddr xor, VSa a => stun_addr_encode mb a (if xor then tid else None)
  | KChangeReq, VChangeReq ip port =>
      write_all mb [be32 (Z.lor (Z.shiftl (b2z ip) 2) (Z.shiftl (b2z port) 1))]
  | KStr, VStr s => write_all mb [cstring s]
  | KMi, VMi mi => write_all mb [mi]
  | KErr, VErr code reason =>
      write_all mb [be16 0; [u8 (code / 100)]; [u8 (code mod 100)]; cstring reason]
  | KUnknown, VUnknown ts => write_all mb (map be16 ts)
  | KU16, VU16 n => write_all mb [be16 n; be16 0]
  | KU32, VU32 n => write_all mb [be32 n]
  | KData, VDataHere => mret (0, mbuf_set_pos mb (mb_end mb))
  | KData, VData d => write_all mb [d]
  | KU8, VU8 n => write_all mb [[u8 n]; [0]; be16 0]
  | KEven, VEven r => write_all mb [[u8 (Z.shiftl (b2z r) 7)]]
  | KNone, _ => mret (0, mb)
  | KU64, VU64 n => write_all mb [be64 n]
  | _, _ => mret (EINVAL, mb)
  end.

(** [while ((mb->pos - start) & 0x03)]: three octets at most, if memory for
    them can be had. *)
Fixpoint pad_loop (fuel : nat) (mb : mbuf) (start : nat) (padding : Z) : IO (Z * mbuf) :=
  match fuel with
  | O => mret (0, mb)
  | S fuel =>
      if ((mb_pos mb - start) mod 4 =? 0)%nat then mret (0, mb)
      else
        '(e, mb) ← mbuf_write_u8 mb padding;
        '(e', mb) ← pad_loop fuel mb start padding;
        mret (Z.lor e e', mb)
  end.

Definition stun_attr_encode (mb : mbuf) (type : Z) (v : stun_val) (tid : option bytes)
    (padding : Z) : IO (Z * mbuf) :=
  let mb := mbuf_advance mb 4 in
  let start := mb_pos mb in
  '(err, mb) ← attr_value_encode mb (kind_of type) v tid;
  let len := (mb_pos mb - start)%nat in
  let mb := mbuf_set_pos mb (start - 4) in
  '(e, mb) ← write_all mb [be16 type; be16 (u16 (Z.of_nat len))];
  let mb := mbuf_advance mb len in
  '(e', mb) ← pad_loop 3 mb start padding;
  mret (Z.lor err (Z.lor e e'), mb).

Definition fingerprint (buf : bytes) : Z := Z.lxor (re_crc32 0 buf) 0x5354554e.

(** An attribute whose value is NULL is skipped. *)
Fixpoint attrs_encode (mb : mbuf) (attrs : list (Z * option stun_val)) (tid : bytes)
    (padding : Z) : IO (Z * mbuf) :=
  match attrs with
  | [] => mret (0, mb)
  | (_, None) :: attrs => attrs_encode mb attrs tid padding
  | (type, Some v) :: attrs =>
      '(e, mb) ← stun_attr_encode mb (u16 type) v (Some tid) padding;
      '(e', mb) ← attrs_encode mb attrs tid padding;
      mret (Z.lor e e', mb)
  end.

Context (hmac_sha1 : bytes -> bytes -> bytes).

(** Up to the header: the error code, the attributes, and the header in front of
    them, whose length counts the MESSAGE-INTEGRITY ([mi] octets) to come. *)
Definition body_encode (mb : mbuf) (method class : Z) (tid : bytes) (ec : option (Z * bytes))
    (mi : nat) (padding : Z) (attrs : list (Z * option stun_val)) : IO (Z * Z * mbuf) :=
  let start := mb_pos mb in
  let mb := mbuf_advance mb STUN_HEADER_SIZE in
  '(e1, mb) ← match ec with
              | Some (code, reason) =>
                  stun_attr_encode mb STUN_ATTR_ERR_CODE (VErr code reason) None padding
              | None => mret (0, mb)
              end;
  '(e2, mb) ← attrs_encode mb attrs tid padding;
  let len := u16 (Z.of_nat (mb_pos mb - start - STUN_HEADER_SIZE + mi)) in
  let mb := mbuf_set_pos mb start in
  '(e3, mb) ← stun_hdr_encode mb (Hdr (STUN_TYPE method class) len STUN_MAGIC_COOKIE tid);
  mret (Z.lor e1 (Z.lor e2 e3), len, mbuf_advance mb (Z.to_nat len - mi)).

Definition mi_encode (mb : mbuf) (start : nat) (len : Z) (key : bytes) (padding : Z)
    : IO (Z * mbuf) :=
  let mb := mbuf_set_pos mb start in
  let mi := hmac_sha1 key (mbuf_buf mb) in
  let mb := mbuf_advance mb (STUN_HEADER_SIZE + Z.to_nat len - MI_SIZE) in
  stun_attr_encode mb STUN_ATTR_MSG_INTEGRITY (VMi mi) None padding.

Definition fp_encode (mb : mbuf) (start : nat) (method class : Z) (tid : bytes) (padding : Z)
    : IO (Z * mbuf) :=
  let len := u16 (Z.of_nat (mb_pos mb - start - STUN_HEADER_SIZE + FP_SIZE)) in
  let mb := mbuf_set_pos mb start in
  '(e, mb) ← stun_hdr_encode mb (Hdr (STUN_TYPE method class) len STUN_MAGIC_COOKIE tid);
  let mb := mbuf_set_pos mb start in
  let fprnt := fingerprint (mbuf_buf mb) in
  let mb := mbuf_advance mb (STUN_HEADER_SIZE + Z.to_nat len - FP_SIZE) in
  '(e', mb) ← stun_attr_encode mb STUN_ATTR_FINGERPRINT (VU32 fprnt) None padding;
  mret (Z.lor e e', mb).

Definition stun_msg_vencode (mb : mbuf) (method class : Z) (tid : bytes)
    (ec : option (Z * bytes)) (key : option bytes) (fp : bool) (padding : Z)
    (attrs : list (Z * option stun_val)) : IO (Z * mbuf) :=
  let start := mb_pos mb in
  let mi := match key with Some _ => MI_SIZE | None => 0%nat end in
  '(e1, len, mb) ← body_encode mb method class tid ec mi padding attrs;
  '(e2, mb) ← match key with
              | Some key => mi_encode mb start len key padding
              | None => mret (0, mb)
              end;
  '(e3, mb) ← (if fp then fp_encode mb start method class tid padding else mret (0, mb));
  mret (Z.lor e1 (Z.lor e2 e3), mb).
End encode.

(** ** Decoding *)

Definition stun_hdr_decode (mb : mbuf) : Z + stun_hdr * mbuf :=
  if (mbuf_get_left mb <? STUN_HEADER_SIZE)%nat then inl EBADMSG
  else
    let '(type, mb) := mbuf_read_u16 mb in
    if negb (Z.land type 0xc000 =? 0) then inl EBADMSG
    else
      let '(len, mb) := mbuf_read_u16 mb in
      if negb (Z.land len 0x3 =? 0) then inl EBADMSG
      else
        let '(cookie, mb) := mbuf_read_u32 mb in
        match mbuf_read_mem mb STUN_TID_SIZE with
        | None => inl EBADMSG
        | Some (tid, mb) =>
            if Z.of_nat (mbuf_get_left mb) <? len then inl EBADMSG
            else inr (Hdr type len cookie tid, mb)
        end.


Definition stun_addr_decode (mb : mbuf) (tid : option bytes) : Z + sa * mbuf :=
  if (mbuf_get_left mb <? 4)%nat then inl EBADMSG
  else
    let '(_, mb) := mbuf_read_u8 mb in
    let '(family, mb) := mbuf_read_u8 mb in
    let '(port, mb) := mbuf_read_u16 mb in
    let port := match tid with
                | Some _ => Z.lxor port (Z.shiftr STUN_MAGIC_COOKIE 16)
                | None => port
                end in
    if family =? STUN_AF_IPv4 then
      if (mbuf_get_left mb <? 4)%nat then inl EBADMSG
      else
        let '(addr4, mb) := mbuf_read_u32 mb in
        let addr4 := match tid with Some _ => Z.lxor addr4 STUN_MAGIC_COOKIE | None => addr4 end in
        inr (SA (AF_INET addr4) port, mb)
    else if family =? STUN_AF_IPv6 then
      match mbuf_read_mem mb 16 with
      | None => inl EBADMSG
      | Some (addr6, mb) =>
          let addr6 := match tid with Some tid => in6_xor_tid addr6 tid | None => addr6 end in
          inr (SA (AF_INET6 addr6) port, mb)
      end
    else inl EAFNOSUPPORT.

(** [attr->v.unknown_attr] has room for eight types. *)
Fixpoint read_types (n : nat) (mb : mbuf) : list Z * mbuf :=
  match n with
  | O => ([], mb)
  | S n => let '(t, mb) := mbuf_read_u16 mb in
           let '(ts, mb) := read_types n mb in (t :: ts, mb)
  end.

Section decode.
Context `{V : Env}.

Definition str_decode (mb : mbuf) (len : nat) : IO (Z + bytes * mbuf) :=
  if (mbuf_get_left mb <? len)%nat then mret (inl EBADMSG)
  else
    ok ← ask QAlloc;
    mret (if ok =? 0 then inl ENOMEM
          else match mbuf_read_mem mb len with
               | Some r => inr r
               | None => inl EOVERFLOW
               end).

(** The [switch] of [stun_attr_decode]. *)
Definition attr_value_decode (mb : mbuf) (k : attr_kind) (len : nat) (tid : bytes)
    : IO (Z + stun_val * mbuf) :=
  let u (bad : bool) (r : stun_val * mbuf) : IO (Z + stun_val * mbuf) :=
    mret (if bad then inl EBADMSG else inr r) in
  match k with
  | KAddr xor =>
      mret (match stun_addr_decode mb (if xor then Some tid else None) with
            | inl e => inl e
            | inr (a, mb) => inr (VSa a, mb)
            end)
  | KChangeReq =>
      let '(n, mb) := mbuf_read_u32 mb in
      u (negb (len =? 4)%nat) (VChangeReq (Z.testbit n 2) (Z.testbit n 1), mb)
  | KStr =>
      r ← str_decode mb len;
      mret (match r with inl e => inl e | inr (s, mb) => inr (VStr s, mb) end)
  | KMi =>
      if negb (len =? 20)%nat then mret (inl EBADMSG)
      else mret (match mbuf_read_mem mb 20 with
                 | Some (d, mb) => inr (VMi d, mb)
                 | None => inl EOVERFLOW
                 end)
  | KErr =>
      if (len <? 4)%nat then mret (inl EBADMSG)
      else
        let mb := mbuf_advance mb 2 in
        let '(c, mb) := mbuf_read_u8 mb in
        let '(d, mb) := mbuf_read_u8 mb in
        r ← str_decode mb (len - 4);
        mret (match r with
              | inl e => inl e
              | inr (s, mb) => inr (VErr (Z.land c 0x7 * 100 + d) s, mb)
              end)
  | KUnknown =>
      let '(ts, mb) := read_types (len / 2) mb in u false (VUnknown (take 8 ts), mb)
  | KU16 => let '(n, mb) := mbuf_read_u16 mb in u (len <? 2)%nat (VU16 n, mb)
  | KU32 => let '(n, mb) := mbuf_read_u32 mb in u (negb (len =? 4)%nat) (VU32 n, mb)
  | KData => u false (VData (take len (drop (mb_pos mb) (mb_buf mb))), mbuf_advance mb len)
  | KU8 => let '(n, mb) := mbuf_read_u8 mb in u (len <? 1)%nat (VU8 n, mb)
  | KEven => let '(n, mb) := mbuf_read_u8 mb in u (len <? 1)%nat (VEven (Z.testbit n 7), mb)
  | KNone => u (0 <? len)%nat (VNone, mb)
  | KU64 => let '(n, mb) := mbuf_read_u64 mb in u (negb (len =? 8)%nat) (VU64 n, mb)
  | KOther => u false (VNone, mbuf_advance mb len)
  end.

(** [while (((mb->pos - start) & 0x03) && mbuf_get_left(mb)) ++mb->pos] *)
Fixpoint skip_pad (fuel : nat) (mb : mbuf) (start : nat) : mbuf :=
  match fuel with
  | O => mb
  | S fuel =>
      if negb ((mb_pos mb - start) mod 4 =? 0)%nat && negb (mbuf_get_left mb =? 0)%nat
      then skip_pad fuel (mbuf_advance mb 1) start
      else mb
  end.

(** [struct stun_unknown_attr]: the types are counted up to eight. *)
Definition add_unknown (ua : list Z) (type : Z) : list Z :=
  if (length ua <? 8)%nat then ua ++ [type] else ua.

Definition stun_attr_decode (mb : mbuf) (tid : bytes) (ua : list Z)
    : IO (Z + stun_attr * mbuf * list Z) :=
  if (mbuf_get_left mb <? 4)%nat then mret (inl EBADMSG)
  else
    ok ← ask QAlloc;
    if ok =? 0 then mret (inl ENOMEM)
    else
      let '(type, mb) := mbuf_read_u16 mb in
      let '(len, mb) := mbuf_read_u16 mb in
      let len := Z.to_nat len in
      if (mbuf_get_left mb <? len)%nat then mret (inl EBADMSG)
      else
        let start := mb_pos mb in
        r ← attr_value_decode mb (kind_of type) len tid;
        mret (match r with
              | inl e => inl e
              | inr (v, mb) =>
                  let ua := match kind_of type with
                            | KOther => if 0x8000 <=? type then ua else add_unknown ua type
                            | _ => ua
                            end in
                  inr (SAttr type v, skip_pad 3 mb start, ua)
              end).

(** The unsigned difference is huge once the position is past the message. *)
Fixpoint attrs_decode (fuel : nat) (mb : mbuf) (extra : nat) (tid : bytes) (ua : list Z)
    : IO (Z + list stun_attr * mbuf * list Z) :=
  match fuel with
  | O => mret (inl EBADMSG)
  | S fuel =>
      if u64 (Z.of_nat (mbuf_get_left mb) - Z.of_nat extra) >=? 4 then
        r ← stun_attr_decode mb tid ua;
        match r with
        | inl e => mret (inl e)
        | inr (a, mb, ua) =>
            r ← attrs_decode fuel mb extra tid ua;
            mret (match r with
                  | inl e => inl e
                  | inr (l, mb, ua) => inr (a :: l, mb, ua)
                  end)
        end
      else mret (inr ([], mb, ua))
  end.

(** [struct stun_msg]; the buffer is kept with it, positioned at the start. *)
Record stun_message := Message {
  m_hdr : stun_hdr; m_attrs : list stun_attr; m_mb : mbuf
}.

(** Every attribute takes at least four octets. *)
Definition stun_msg_decode (mb : mbuf) : IO (Z + stun_message * list Z) :=
  match stun_hdr_decode mb with
  | inl e => mret (inl e)
  | inr (hdr, mb') =>
      ok ← ask QAlloc;
      if ok =? 0 then mret (inl ENOMEM)
      else
        let extra := (mbuf_get_left mb' - Z.to_nat (h_len hdr))%nat in
        r ← attrs_decode (S (mbuf_get_left mb')) mb' extra (h_tid hdr) [];
        mret (match r with
              | inl e => inl e
              | inr (l, _, ua) => inr (Message hdr l mb, ua)
              end)
  end.
End decode.

Definition stun_msg_class (m : stun_message) : Z := STUN_CLASS (h_type (m_hdr m)).
Definition stun_msg_method (m : stun_message) : Z := STUN_METHOD (h_type (m_hdr m)).
Definition stun_msg_mcookie (m : stun_message) : bool := STUN_MAGIC_COOKIE =? h_cookie (m_hdr m).

Fixpoint find_attr (l : list stun_attr) (type : Z) : option stun_val :=
  match l with
  | [] => None
  | a :: l => if a_type a =? type then Some (a_val a) else find_attr l type
  end.
Definition stun_msg_attr (m : stun_message) (type : Z) : option stun_val :=
  find_attr (m_attrs m) type.

(** ** The checks of a received message *)

(** The first [n] octets of the message. *)
Definition msg_octets (m : stun_message) (n : nat) : bytes :=
  take n (drop (mb_pos (m_mb m)) (mb_buf (m_mb m))).

Definition stun_msg_chk_fingerprint (m : stun_message) : Z :=
  match stun_msg_attr m STUN_ATTR_FINGERPRINT with
  | Some (VU32 fp) =>
      if fingerprint (msg_octets m (STUN_HEADER_SIZE + Z.to_nat (h_len (m_hdr m)) - FP_SIZE)) =? fp
      then 0 else EBADMSG
  | _ => EPROTO
  end.

(** While the digest is computed the length of the header does not count a
    FINGERPRINT, so the header is written again. *)
Definition hdr_octets (h : stun_hdr) : bytes :=
  be16 (Z.land (h_type h) 0x3fff) ++ be16 (h_len h) ++ be32 (h_cookie h) ++ h_tid h.

Definition stun_msg_chk_mi (hmac_sha1 : bytes -> bytes -> bytes) (m : stun_message) (key : bytes) : Z :=
  match stun_msg_attr m STUN_ATTR_MSG_INTEGRITY with
  | Some (VMi mi) =>
      let h := m_hdr m in
      let '(h, front) :=
        match stun_msg_attr m STUN_ATTR_FINGERPRINT with
        | Some _ =>
            let h' := Hdr (h_type h) (u16 (h_len h - Z.of_nat FP_SIZE)) (h_cookie h) (h_tid h) in
            (h', hdr_octets h')
        | None => (h, msg_octets m STUN_HEADER_SIZE)
        end in
      let n := (STUN_HEADER_SIZE + Z.to_nat (h_len h) - MI_SIZE)%nat in
      let data := take n (front ++ drop STUN_HEADER_SIZE (drop (mb_pos (m_mb m)) (mb_buf (m_mb m)))) in
      if bytes_eqb mi (hmac_sha1 key data) then 0 else EBADMSG
  | _ => EPROTO
  end.
