(* ===== verification/StunProofs.v ===== *)
(** * STUN messages: theorems

    What is encoded decodes to the same header and attributes; the checks accept
    it, and reject a message in which an octet was changed; an accepted message
    has all its attributes inside the length its header states, whatever follows
    it in the buffer. *)
From S2P Require Import Prelude Sys Mbuf Crc32 StunCodec.
Local Open Scope Z_scope.

(** ** What the encoder writes *)

(** [d] lies in the buffer at offset [i]. *)
Definition seg (mb : mbuf) (i : nat) (d : bytes) : Prop :=
  take (length d) (drop i (mb_buf mb)) = d.

(** [mb'] is [mb] after [d] has been written at [p]. *)
Record grew (mb mb' : mbuf) (p : nat) (d : bytes) : Prop := {
  g_pos : mb_pos mb' = (p + length d)%nat;
  g_end : (mb_end mb <= mb_end mb' <= Nat.max (mb_end mb) (p + length d))%nat
          /\ (d <> [] -> (p + length d <= mb_end mb')%nat);
  g_size : (mb_end mb' <= mb_size mb')%nat;
  g_seg : seg mb' p d;
  g_keep i e : seg mb i e -> (i + length e <= p \/ p + length d <= i)%nat -> seg mb' i e }.

Lemma seg_nil mb i : seg mb i [].
Proof. done. Qed.

Lemma seg_app mb i a b : seg mb i a -> seg mb (i + length a) b -> seg mb i (a ++ b).
Proof.
  unfold seg. intros Ha Hb. rewrite <- drop_drop in Hb. rewrite length_app.
  rewrite <- (take_drop (length a) (drop i (mb_buf mb))) at 1.
  assert (length (take (length a) (drop i (mb_buf mb))) = length a) as Hl by (by rewrite Ha).
  rewrite take_app_ge by lia. rewrite Hl, Ha. f_equal.
  by replace (length a + length b - length a)%nat with (length b) by lia.
Qed.

Lemma seg_prefix mb i a b : seg mb i (a ++ b) -> seg mb i a.
Proof.
  unfold seg. rewrite length_app. intros H.
  rewrite <- (take_app_length a b) at 2. rewrite <- H, take_take. f_equal. lia.
Qed.

Lemma seg_suffix mb i a b : seg mb i (a ++ b) -> seg mb (i + length a) b.
Proof.
  unfold seg. rewrite length_app. intros H.
  rewrite <- (drop_app_length a b) at 2. rewrite <- H, <- drop_drop, skipn_firstn_comm.
  f_equal. lia.
Qed.

Lemma seg_bound mb i d : seg mb i d -> d <> [] -> (i + length d <= mb_size mb)%nat.
Proof.
  unfold seg, mb_size. intros H Hd. apply (f_equal length) in H.
  rewrite length_take, length_drop in H. destruct d; [done|]. cbn [length] in *. lia.
Qed.

(** [seg] looks at the octets only, not at the position. *)
Lemma seg_set_pos mb p i d : seg (mbuf_set_pos mb p) i d <-> seg mb i d.
Proof. done. Qed.

Lemma put_grew mb d :
  (mb_pos mb + length d <= mb_size mb)%nat -> (mb_end mb <= mb_size mb)%nat ->
  grew mb (mbuf_put mb d) (mb_pos mb) d.
Proof.
  intros Hs He. unfold mb_size in *.
  assert (length (mb_buf (mbuf_put mb d)) = length (mb_buf mb)) as HL.
  { cbn. rewrite !length_app, length_take, length_drop. lia. }
  split; unfold mb_size; cbn [mbuf_put mb_pos mb_end].
  - done.
  - lia.
  - rewrite HL. lia.
  - unfold seg. cbn. rewrite drop_app_length' by (rewrite length_take; lia).
    by rewrite take_app_length.
  - intros i e Hseg [H|H]; unfold seg in *; cbn.
    + rewrite <- Hseg at 2. rewrite drop_app_le by (rewrite length_take; lia).
      rewrite take_app_le by (rewrite length_drop, length_take; lia).
      rewrite skipn_firstn_comm, take_take. f_equal. lia.
    + rewrite <- Hseg at 2. f_equal.
      rewrite drop_app_ge by (rewrite length_take; lia).
      rewrite length_take, Nat.min_l by lia.
      rewrite drop_app_ge by lia. rewrite drop_drop. f_equal. lia.
Qed.

Lemma grow_seg mb n extra i d :
  seg mb i d -> (mb_size mb <= n)%nat -> d <> [] ->
  seg (Mbuf (take n (mb_buf mb ++ extra)) (mb_pos mb) (mb_end mb)) i d.
Proof.
  intros H Hn Hd. pose proof (seg_bound _ _ _ H Hd) as B. unfold seg, mb_size in *. cbn.
  rewrite <- H at 2. rewrite skipn_firstn_comm, take_take, drop_app_le by lia.
  rewrite take_app_le by (rewrite length_drop; lia). f_equal. lia.
Qed.

(** *** The octets of a message, as the standard draws them *)

Definition addr_octets (a : sa) (tid : option bytes) : bytes :=
  let port := match tid with Some _ => Z.lxor (sa_port a) (Z.shiftr STUN_MAGIC_COOKIE 16)
                           | None => sa_port a end in
  match sa_ip a with
  | AF_INET v =>
      [0; STUN_AF_IPv4] ++ be16 port ++
      be32 (match tid with Some _ => Z.lxor v STUN_MAGIC_COOKIE | None => v end)
  | AF_INET6 v =>
      [0; STUN_AF_IPv6] ++ be16 port ++
      match tid with Some tid => in6_xor_tid v tid | None => v end
  | AF_UNSPEC => []
  end.

Definition value_octets (k : attr_kind) (v : stun_val) (tid : option bytes) : bytes :=
  match k, v with
  | KAddr xor, VSa a => addr_octets a (if xor then tid else None)
  | KChangeReq, VChangeReq ip port => be32 (Z.lor (Z.shiftl (b2z ip) 2) (Z.shiftl (b2z port) 1))
  | KStr, VStr s => s
  | KMi, VMi mi => mi
  | KErr, VErr code reason => be16 0 ++ [code / 100; code mod 100] ++ reason
  | KUnknown, VUnknown ts => concat (map be16 ts)
  | KU16, VU16 n => be16 n ++ be16 0
  | KU32, VU32 n => be32 n
  | KU64, VU64 n => be64 n
  | KData, VData d => d
  | KU8, VU8 n => [n; 0; 0; 0]
  | KEven, VEven r => [if r then 128 else 0]
  | _, _ => []
  end.

Definition pad_len (len : nat) : nat := (4 - len mod 4) mod 4.

Definition attr_octets (type : Z) (v : stun_val) (tid : option bytes) (padding : Z) : bytes :=
  let value := value_octets (kind_of type) v tid in
  be16 type ++ be16 (zlen value) ++ value ++ replicate (pad_len (length value)) (u8 padding).

Abbreviation no_nul l := (Forall (fun c : Z => c <> 0) l).

(** A value of the shape and in the range that its type has. *)
Definition sa_ok (a : sa) : Prop :=
  0 <= sa_port a < 65536 /\
  match sa_ip a with
  | AF_INET v => 0 <= v < 4294967296
  | AF_INET6 v => length v = 16%nat /\ Forall is_byte v
  | AF_UNSPEC => False
  end.

Definition val_ok (k : attr_kind) (v : stun_val) : Prop :=
  match k, v with
  | KAddr _, VSa a => sa_ok a
  | KChangeReq, VChangeReq _ _ | KEven, VEven _ | KNone, VNone => True
  | KData, VData d => Forall is_byte d
  | KStr, VStr s => no_nul s /\ Forall is_byte s
  | KMi, VMi mi => length mi = 20%nat /\ Forall is_byte mi
  | KErr, VErr code reason => 0 <= code < 800 /\ no_nul reason /\ Forall is_byte reason
  | KUnknown, VUnknown ts => (length ts <= 8)%nat /\ Forall (fun t => 0 <= t < 65536) ts
  | KU16, VU16 n => 0 <= n < 65536
  | KU32, VU32 n => 0 <= n < 4294967296
  | KU64, VU64 n => 0 <= n < 18446744073709551616
  | KU8, VU8 n => 0 <= n < 256
  | _, _ => False
  end.

Definition attr_ok (tid : option bytes) (a : stun_attr) : Prop :=
  0 <= a_type a < 65536 /\ val_ok (kind_of (a_type a)) (a_val a) /\
  zlen (value_octets (kind_of (a_type a)) (a_val a) tid) < 65536.

Section encode_proofs.
Context `{V : Env} (HA : AllocOk V).

Lemma write_mem_grew mb d s :
  (mb_end mb <= mb_size mb)%nat ->
  iwp (mbuf_write_mem mb d) (fun '(e, mb') s' =>
    e = 0 /\ out s' = out s /\ grew mb mb' (mb_pos mb) d) s.
Proof.
  intros He. unfold mbuf_write_mem, mbuf_resize.
  destruct (mb_size mb <? mb_pos mb + length d)%nat eqn:E; bool_hyps.
  - set (n := Nat.max _ _). assert (mb_size mb <= n /\ mb_pos mb + length d <= n)%nat as [Hn Hp] by lia.
    clearbody n. do 3 wp_step. destruct (env QAlloc (tick s) =? 0) eqn:A.
    { exfalso. by eapply alloc_null. }
    wp_steps. split_and!; [done|done|]. set (mb1 := Mbuf _ _ _).
    assert (mb_size mb1 = n) as Hs1.
    { unfold mb1, mb_size in *. cbn. rewrite length_take, length_app, uninit_length. lia. }
    destruct (put_grew mb1 d) as [G1 G2 G3 G4 G5]; [rewrite Hs1; exact Hp|rewrite Hs1; cbn; lia|].
    split; [done|done|done|done|]. intros i e Hseg Hi. destruct e as [|x e]; [done|].
    apply G5; [|done]. by apply grow_seg.
  - wp_steps. split_and!; [done|done|]. apply put_grew; lia.
Qed.

Lemma grew_trans mb mb1 mb2 p d1 d2 :
  grew mb mb1 p d1 -> grew mb1 mb2 (p + length d1) d2 -> grew mb mb2 p (d1 ++ d2).
Proof.
  intros [P1 E1 S1 G1 K1] [P2 E2 S2 G2 K2]. split.
  - rewrite P2, length_app. lia.
  - rewrite length_app. split; [lia|]. intros Hne. destruct d2 as [|x d2].
    + destruct d1 as [|y d1]; [done|]. destruct E1 as [_ E1]. simpl in *. specialize (E1 ltac:(done)). lia.
    + destruct E2 as [_ E2]. specialize (E2 ltac:(done)). lia.
  - done.
  - apply seg_app; [|done]. apply K2; [done|lia].
  - intros i e H Hi. rewrite length_app in Hi. apply K2; [apply K1; [done|]|]; lia.
Qed.

Lemma grew_nil mb : (mb_end mb <= mb_size mb)%nat -> grew mb mb (mb_pos mb) [].
Proof. intros H. split; cbn [length]; [lia|split; [lia|done]|done|done|done]. Qed.

Lemma write_all_grew mb ds s :
  (mb_end mb <= mb_size mb)%nat ->
  iwp (write_all mb ds) (fun '(e, mb') s' =>
    e = 0 /\ out s' = out s /\ grew mb mb' (mb_pos mb) (concat ds)) s.
Proof.
  revert mb s. induction ds as [|d ds IH]; intros mb s He; cbn [write_all concat].
  - wp_steps. split_and!; [done|done|]. by apply grew_nil.
  - apply iwp_bind. eapply iwp_mono; [by apply write_mem_grew|].
    intros [e1 mb1] s1 (-> & O1 & G1). cbn beta iota. apply iwp_bind.
    eapply iwp_mono; [apply IH; by apply G1|].
    intros [e2 mb2] s2 (-> & O2 & G2). wp_steps. split_and!; [done|congruence|].
    rewrite (g_pos _ _ _ _ G1) in G2. by eapply grew_trans.
Qed.

Lemma addr_encode_grew mb a tid s :
  (mb_end mb <= mb_size mb)%nat -> sa_ok a ->
  iwp (stun_addr_encode mb a tid) (fun '(e, mb') s' =>
    e = 0 /\ out s' = out s /\ grew mb mb' (mb_pos mb) (addr_octets a tid)) s.
Proof.
  intros He [_ Ha]. unfold stun_addr_encode, addr_octets. destruct (sa_ip a); [done| |];
    (eapply iwp_mono; [by apply write_all_grew|]);
    intros [e mb'] s' (? & ? & G); cbn [concat] in G; rewrite ?app_nil_r in G; by split_and!.
Qed.

Lemma cstring_id l : no_nul l -> cstring l = l.
Proof. apply cstring_no_nul. Qed.

Lemma value_encode_grew mb k v tid s :
  (mb_end mb <= mb_size mb)%nat -> val_ok k v ->
  iwp (attr_value_encode mb k v tid) (fun '(e, mb') s' =>
    e = 0 /\ out s' = out s /\ grew mb mb' (mb_pos mb) (value_octets k v tid)) s.
Proof.
  intros He Hv. destruct k, v; cbn [val_ok] in Hv; try done; cbn [attr_value_encode value_octets];
    try (by apply addr_encode_grew);
    try (eapply iwp_mono; [by apply write_all_grew|];
         intros [e mb'] s' (? & ? & G); cbn [concat app] in G; rewrite ?app_nil_r in G; split_and!; [done|done|]).
  - exact G.
  - destruct Hv. by rewrite cstring_id in G.
  - exact G.
  - destruct Hv as (Hc & Hr & _). rewrite cstring_id, !u8_small in G; [exact G|mod_lia|mod_lia|done].
  - exact G.
  - exact G.
  - exact G.
  - exact G.
  - by rewrite u8_small in G.
  - by destruct r.
  - wp_steps. split_and!; [done|done|]. by apply grew_nil.
  - exact G.
Qed.

Lemma pad_len_step m : (m mod 4 <> 0)%nat -> pad_len m = S (pad_len (S m)).
Proof.
  intros H. unfold pad_len. change (S m) with (1 + m)%nat. rewrite (Nat.Div0.add_mod 1 m 4).
  pose proof (Nat.mod_upper_bound m 4 ltac:(done)).
  destruct (m mod 4)%nat as [|[|[|[|]]]]; (done || lia).
Qed.
Lemma pad_len_bound m : (pad_len m <= 3)%nat.
Proof.
  unfold pad_len. pose proof (Nat.mod_upper_bound (4 - m mod 4) 4 ltac:(done)). lia.
Qed.

Lemma pad_loop_grew fuel mb start padding s :
  (mb_end mb <= mb_size mb)%nat -> (start <= mb_pos mb)%nat ->
  (pad_len (mb_pos mb - start) <= fuel)%nat ->
  iwp (pad_loop fuel mb start padding) (fun '(e, mb') s' =>
    e = 0 /\ out s' = out s /\
    grew mb mb' (mb_pos mb) (replicate (pad_len (mb_pos mb - start)) (u8 padding))) s.
Proof.
  revert mb s. induction fuel as [|fuel IH]; intros mb s He Hs Hf; cbn [pad_loop].
  - assert (pad_len (mb_pos mb - start) = 0%nat) as -> by lia. wp_steps.
    split_and!; [done|done|]. by apply grew_nil.
  - destruct ((mb_pos mb - start) mod 4 =? 0)%nat eqn:E; bool_hyps.
    + assert (pad_len (mb_pos mb - start) = 0%nat) as -> by (unfold pad_len; by rewrite E). wp_steps.
      split_and!; [done|done|]. by apply grew_nil.
    + assert (pad_len (mb_pos mb - start) = S (pad_len (S (mb_pos mb) - start))) as Hp.
      { rewrite Nat.sub_succ_l by lia. by apply pad_len_step. }
      apply iwp_bind. unfold mbuf_write_u8. eapply iwp_mono; [by apply write_mem_grew|].
      intros [e1 mb1] s1 (-> & O1 & G1). cbn beta iota.
      pose proof (g_pos _ _ _ _ G1) as P1. cbn [length] in P1. rewrite Nat.add_1_r in P1.
      apply iwp_bind. eapply iwp_mono; [apply IH; [by apply G1|lia|rewrite P1; lia]|].
      intros [e2 mb2] s2 (-> & O2 & G2). wp_steps. split_and!; [done|congruence|].
      rewrite Hp. rewrite P1 in G2. rewrite <- Nat.add_1_r in G2 at 1.
      apply (grew_trans _ _ _ _ [u8 padding] _ G1). exact G2.
Qed.

Lemma attr_octets_length type v tid padding :
  let n := length (value_octets (kind_of type) v tid) in
  length (attr_octets type v tid padding) = (4 + n + pad_len n)%nat.
Proof. unfold attr_octets. rewrite !length_app, length_replicate. cbn [length be16]. lia. Qed.

(** One attribute. *)
Lemma attr_encode_grew mb type v tid padding s :
  (mb_end mb <= mb_size mb)%nat -> attr_ok tid (SAttr type v) ->
  iwp (stun_attr_encode mb type v tid padding) (fun '(e, mb') s' =>
    e = 0 /\ out s' = out s /\ grew mb mb' (mb_pos mb) (attr_octets type v tid padding)) s.
Proof.
  intros He (Ht & Hv & Hl). cbn [a_type a_val] in *. unfold stun_attr_encode.
  set (val := value_octets (kind_of type) v tid) in *. cbn zeta.
  apply iwp_bind. eapply iwp_mono; [apply (value_encode_grew _ _ v tid); [exact He|exact Hv]|].
  fold val. intros [e1 mb1] s1 (-> & O1 & [P1 E1 S1 G1 K1]). cbn beta iota.
  cbn [mbuf_advance mb_pos mb_end] in *.
  apply iwp_bind. eapply iwp_mono; [apply write_all_grew; exact S1|].
  intros [e2 mb2] s2 (-> & O2 & [P2 E2 S2 G2 K2]). cbn beta iota.
  cbn [mbuf_set_pos mb_pos mb_end concat app] in *.
  replace (mb_pos mb + 4 - 4)%nat with (mb_pos mb) in * by lia.
  replace (mb_pos mb1 - (mb_pos mb + 4))%nat with (length val) in * by lia.
  rewrite app_nil_r in *. rewrite u16_small in * by lia. cbn [length be16 app] in *.
  apply iwp_bind. eapply iwp_mono; [apply pad_loop_grew|].
  { exact S2. }
  { cbn. lia. }
  { apply pad_len_bound. }
  cbn [mbuf_advance mb_pos mb_end].
  replace (mb_pos mb2 + length val - (mb_pos mb + 4))%nat with (length val) by lia.
  intros [e3 mb3] s3 (-> & O3 & [P3 E3 S3 G3 K3]). wp_steps. split_and!; [done|congruence|].
  replace (mb_pos mb2 + length val)%nat with (mb_pos mb + 4 + length val)%nat in * by lia.
  pose proof (attr_octets_length type v tid padding) as HL. fold val in HL. cbn zeta in HL.
  cbn [mbuf_advance mb_end] in E3. destruct E2 as [E2 E2']. specialize (E2' ltac:(done)).
  destruct E1 as [E1 E1'], E3 as [E3 E3']. rewrite length_replicate in E3, E3', P3.
  split; rewrite ?HL.
  - rewrite P3. lia.
  - split; [lia|]. intros _.
    destruct (pad_len (length val)) eqn:R.
    + destruct val as [|x val']; [cbn [length] in *; lia|].
      specialize (E1' ltac:(done)). lia.
    + specialize (E3' ltac:(done)). lia.
  - exact S3.
  - unfold attr_octets. fold val. cbn zeta. rewrite (app_assoc (be16 type)). apply seg_app.
    + apply K3; [exact G2|]. cbn. lia.
    + replace (mb_pos mb + length (be16 type ++ be16 (zlen val)))%nat with (mb_pos mb + 4)%nat by done.
      apply seg_app; [|exact G3]. apply K3; [|lia]. apply K2; [exact G1|lia].
  - intros i e H Hi. apply K3; [|rewrite length_replicate; lia]. apply K2; [|lia].
    apply K1; [exact H|lia].
Qed.

(** *** Whole messages *)

Definition given (attrs : list (Z * option stun_val)) : list stun_attr :=
  omap (fun '(t, v) => SAttr t <$> v) attrs.
Definition attrs_octets (l : list stun_attr) (tid : bytes) (padding : Z) : bytes :=
  concat (map (fun a => attr_octets (a_type a) (a_val a) (Some tid) padding) l).

Lemma attrs_encode_grew attrs tid padding : forall mb s,
  (mb_end mb <= mb_size mb)%nat -> Forall (attr_ok (Some tid)) (given attrs) ->
  iwp (attrs_encode mb attrs tid padding) (fun '(e, mb') s' =>
    e = 0 /\ out s' = out s /\ grew mb mb' (mb_pos mb) (attrs_octets (given attrs) tid padding)) s.
Proof.
  induction attrs as [|[t [v|]] attrs IH]; intros mb s He Hok; cbn [attrs_encode].
  - wp_steps. split_and!; [done|done|]. by apply (grew_nil mb).
  - cbn [given omap list_omap fmap option_fmap option_map] in *. fold (given attrs) in *.
    inversion Hok as [|? ? Ha Hr]; subst.
    assert (u16 t = t) as -> by (destruct Ha as [Ht _]; by apply u16_small).
    apply iwp_bind. eapply iwp_mono; [by apply attr_encode_grew|].
    intros [e1 mb1] s1 (-> & O1 & G1). cbn beta iota. apply iwp_bind.
    eapply iwp_mono; [apply IH; [by apply G1|done]|].
    intros [e2 mb2] s2 (-> & O2 & G2). wp_steps. split_and!; [done|congruence|].
    rewrite (g_pos _ _ _ _ G1) in G2. unfold attrs_octets. cbn [map concat].
    by eapply grew_trans.
  - by apply IH.
Qed.

(** The buffer holds the message [m] from [start] to its end, where the position
    is. *)
Record complete (mb : mbuf) (start : nat) (m : bytes) : Prop := {
  c_pos : mb_pos mb = (start + length m)%nat;
  c_end : mb_end mb = (start + length m)%nat;
  c_size : (mb_end mb <= mb_size mb)%nat;
  c_seg : seg mb start m }.

Lemma complete_buf mb start m : complete mb start m -> mbuf_buf (mbuf_set_pos mb start) = m.
Proof.
  intros [_ E _ S]. unfold mbuf_buf, mbuf_get_left, mbuf_set_pos. cbn. rewrite E.
  replace (start + length m - start)%nat with (length m) by lia. exact S.
Qed.

Lemma complete_attr mb start m mb' d :
  complete mb start m -> grew mb mb' (start + length m) d -> complete mb' start (m ++ d).
Proof.
  intros [P E Z S] [P' [E' E''] Z' S' K]. rewrite E in *. split.
  - rewrite P', length_app. lia.
  - rewrite length_app. destruct d; [cbn [length] in *; lia|]. specialize (E'' ltac:(done)). lia.
  - done.
  - apply seg_app; [|done]. apply K; [done|lia].
Qed.

(** Writing another header over the first one. *)
Lemma complete_header mb start h h' m mb' :
  complete mb start (h ++ m) -> length h' = length h -> h <> [] ->
  grew (mbuf_set_pos mb start) mb' start h' ->
  complete (mbuf_set_pos mb' (start + length (h' ++ m))) start (h' ++ m).
Proof.
  intros [P E Z S] Hl Hne [P' [E' E''] Z' S' K]. cbn [mbuf_set_pos mb_end] in *. rewrite length_app in *.
  split; cbn [mbuf_set_pos mb_pos mb_end]; rewrite ?length_app; [done|lia|exact Z'|].
  apply seg_app; [exact S'|]. apply K; [|lia]. rewrite Hl.
  apply (seg_suffix _ _ _ _ S).
Qed.

Lemma attrs_length_bound l tid padding : (length (attrs_octets l tid padding) mod 4 = 0)%nat.
Proof.
  induction l as [|a l IH]; [done|]. unfold attrs_octets in *. cbn [map concat].
  rewrite length_app, Nat.Div0.add_mod, IH, attr_octets_length.
  generalize (length (value_octets (kind_of (a_type a)) (a_val a) (Some tid))). intros n.
  rewrite Nat.add_0_r, Nat.Div0.mod_mod. unfold pad_len.
  rewrite (Nat.Div0.add_mod (4 + n)), (Nat.Div0.add_mod 4 n).
  pose proof (Nat.mod_upper_bound n 4 ltac:(done)).
  destruct (n mod 4)%nat as [|[|[|[|]]]]; (done || lia).
Qed.

Context (hmac_sha1 : bytes -> bytes -> bytes)
  (hmac_spec : forall k d, length (hmac_sha1 k d) = 20%nat /\ Forall is_byte (hmac_sha1 k d)).

Definition ec_octets (ec : option (Z * bytes)) (padding : Z) : bytes :=
  match ec with
  | Some (code, reason) => attr_octets STUN_ATTR_ERR_CODE (VErr code reason) None padding
  | None => []
  end.
Definition ec_ok (ec : option (Z * bytes)) : Prop :=
  match ec with
  | Some (code, reason) => attr_ok None (SAttr STUN_ATTR_ERR_CODE (VErr code reason))
  | None => True
  end.

Definition header (method class : Z) (tid : bytes) (len : nat) : bytes :=
  hdr_octets (Hdr (STUN_TYPE method class) (Z.of_nat len) STUN_MAGIC_COOKIE tid).

Definition mi_octets (method class : Z) (tid : bytes) (key : option bytes) (padding : Z)
    (body : bytes) : bytes :=
  match key with
  | Some k =>
      attr_octets STUN_ATTR_MSG_INTEGRITY
        (VMi (hmac_sha1 k (header method class tid (length body + MI_SIZE) ++ body))) None padding
  | None => []
  end.
Definition fp_octets (method class : Z) (tid : bytes) (fp : bool) (padding : Z) (body : bytes)
    : bytes :=
  if fp then
    attr_octets STUN_ATTR_FINGERPRINT
      (VU32 (fingerprint (header method class tid (length body + FP_SIZE) ++ body))) None padding
  else [].

(** The message as a whole. *)
Definition message_octets (method class : Z) (tid : bytes) (ec : option (Z * bytes))
    (key : option bytes) (fp : bool) (padding : Z) (attrs : list stun_attr) : bytes :=
  let body := ec_octets ec padding ++ attrs_octets attrs tid padding in
  let body := body ++ mi_octets method class tid key padding body in
  let body := body ++ fp_octets method class tid fp padding body in
  header method class tid (length body) ++ body.

Lemma header_length method class tid len :
  length tid = STUN_TID_SIZE -> length (header method class tid len) = STUN_HEADER_SIZE.
Proof. intros H. unfold header, hdr_octets. rewrite !length_app. cbn [h_tid length be16 be32]. by rewrite H. Qed.

Lemma mi_octets_length method class tid key padding body :
  length (mi_octets method class tid key padding body)
  = match key with Some _ => MI_SIZE | None => 0%nat end.
Proof.
  destruct key; [|done]. cbn [mi_octets]. rewrite attr_octets_length. cbn.
  by rewrite (proj1 (hmac_spec _ _)).
Qed.
Lemma fp_octets_length method class tid fp padding body :
  length (fp_octets method class tid fp padding body) = if fp then FP_SIZE else 0%nat.
Proof. by destruct fp; [cbn [fp_octets]; rewrite attr_octets_length|]. Qed.

Lemma hdr_encode_grew mb method class tid len s :
  (mb_end mb <= mb_size mb)%nat -> Z.of_nat len < 65536 ->
  iwp (stun_hdr_encode mb (Hdr (STUN_TYPE method class) (u16 (Z.of_nat len)) STUN_MAGIC_COOKIE tid))
    (fun '(e, mb') s' => e = 0 /\ out s' = out s /\ grew mb mb' (mb_pos mb) (header method class tid len)) s.
Proof.
  intros He Hl. unfold stun_hdr_encode, header, hdr_octets. cbn [h_type h_len h_cookie h_tid].
  rewrite u16_small by lia. eapply iwp_mono; [by apply write_all_grew|].
  intros [e mb'] s' (? & ? & G). cbn [concat] in G. rewrite app_nil_r in G. by split_and!.
Qed.

(** The error code and the attributes, and the header in front of them. *)
Lemma body_encode_complete mb method class tid ec padding attrs mi s :
  let body := ec_octets ec padding ++ attrs_octets (given attrs) tid padding in
  (mb_end mb <= mb_pos mb)%nat -> (mb_end mb <= mb_size mb)%nat -> length tid = STUN_TID_SIZE ->
  ec_ok ec -> Forall (attr_ok (Some tid)) (given attrs) -> Z.of_nat (length body + mi) < 65536 ->
  iwp (body_encode mb method class tid ec mi padding attrs)
    (fun '(e, len, mb') s' => e = 0 /\ out s' = out s /\ len = Z.of_nat (length body + mi) /\
       complete mb' (mb_pos mb) (header method class tid (length body + mi) ++ body)) s.
Proof.
  intros body He Hs Ht Hec Hat Hl. unfold body_encode. cbn zeta. set (mb0 := mbuf_advance mb STUN_HEADER_SIZE).
  apply iwp_bind. eapply (iwp_mono _ (fun '(e, mb1) s1 => e = 0 /\ out s1 = out s /\
    grew mb0 mb1 (mb_pos mb0) (ec_octets ec padding))).
  { destruct ec as [[code reason]|]; [by apply attr_encode_grew|]. wp_steps.
    split_and!; [done|done|by apply grew_nil]. }
  intros [e1 mb1] s1 (-> & O1 & G1). cbn beta iota. apply iwp_bind.
  eapply iwp_mono; [by apply attrs_encode_grew, Hat; apply G1|].
  intros [e2 mb2] s2 (-> & O2 & G2). cbn beta iota.
  rewrite (g_pos _ _ _ _ G1) in G2. pose proof (grew_trans _ _ _ _ _ _ G1 G2) as [P E S G K].
  fold body in P, E, S, G, K. unfold mb0 in *. cbn [mbuf_advance mb_pos mb_end] in *.
  replace (mb_pos mb2 - mb_pos mb - STUN_HEADER_SIZE + mi)%nat with (length body + mi)%nat by lia.
  cbn zeta. apply iwp_bind. eapply iwp_mono; [by apply hdr_encode_grew|].
  intros [e3 mb3] s3 (-> & O3 & G3). wp_steps.
  pose proof (header_length method class tid (length body + mi) Ht) as Hh.
  rewrite u16_small by lia. split_and!; [done|congruence|done|].
  destruct G3 as [P3 [E3 E3'] S3 G3 K3]. cbn [mbuf_set_pos mb_pos mb_end] in *.
  rewrite Hh in *. specialize (E3' ltac:(intros X; by rewrite X in Hh)).
  split; cbn [mbuf_advance mb_pos mb_end]; rewrite ?length_app, ?Hh.
  - rewrite P3. lia.
  - destruct body; cbn [length] in *; [lia|]. destruct E as [E E']. specialize (E' ltac:(done)). lia.
  - exact S3.
  - apply seg_app; [exact G3|]. rewrite Hh. apply K3; [exact G|lia].
Qed.

Lemma mi_encode_complete mb start method class tid key padding body s :
  length tid = STUN_TID_SIZE ->
  complete mb start (header method class tid (length body + MI_SIZE) ++ body) ->
  iwp (mi_encode hmac_sha1 mb start (Z.of_nat (length body + MI_SIZE)) key padding) (fun '(e, mb') s' =>
    e = 0 /\ out s' = out s /\
    complete mb' start (header method class tid (length body + MI_SIZE) ++ body ++
                        mi_octets method class tid (Some key) padding body)) s.
Proof.
  intros Ht C. unfold mi_encode. rewrite (complete_buf _ _ _ C).
  pose proof (header_length method class tid (length body + MI_SIZE) Ht) as Hh.
  set (h := header _ _ _ _) in *.
  assert (mbuf_advance (mbuf_set_pos mb start)
            (STUN_HEADER_SIZE + Z.to_nat (Z.of_nat (length body + MI_SIZE)) - MI_SIZE) = mb) as ->.
  { rewrite Nat2Z.id. pose proof (c_pos _ _ _ C) as P. rewrite length_app, Hh in P. clear -P.
    unfold mbuf_advance, mbuf_set_pos. destruct mb as [b p e]. cbn [mb_buf mb_pos mb_end] in *.
    f_equal. lia. }
  eapply iwp_mono; [apply attr_encode_grew; [apply C|]|].
  { split; [done|]. split; [apply hmac_spec|]. cbn.
    rewrite (proj1 (hmac_spec _ _)). lia. }
  intros [e mb'] s' (-> & O & G). split_and!; [done|done|]. rewrite app_assoc.
  eapply complete_attr; [exact C|]. rewrite <- (c_pos _ _ _ C). exact G.
Qed.

Lemma fingerprint_u32 d : Forall is_byte d -> 0 <= fingerprint d < 4294967296.
Proof.
  intros Hd. unfold fingerprint, re_crc32. apply lxor_u32; [|lia]. apply lxor_u32; [|lia].
  pose proof (crc_loop_ref _ _ (u32_lnot 0) Hd) as [-> H]. exact H.
Qed.

Lemma fp_encode_complete mb start method class tid padding body len s :
  length tid = STUN_TID_SIZE -> Forall is_byte (header method class tid (length body + FP_SIZE) ++ body) ->
  Z.of_nat (length body + FP_SIZE) < 65536 ->
  complete mb start (header method class tid len ++ body) ->
  iwp (fp_encode mb start method class tid padding) (fun '(e, mb') s' =>
    e = 0 /\ out s' = out s /\
    complete mb' start (header method class tid (length body + FP_SIZE) ++ body ++
                        fp_octets method class tid true padding body)) s.
Proof.
  intros Ht Hb Hl C. unfold fp_encode.
  pose proof (header_length method class tid len Ht) as Hh.
  pose proof (header_length method class tid (length body + FP_SIZE) Ht) as Hh'.
  replace (mb_pos mb - start - STUN_HEADER_SIZE + FP_SIZE)%nat with (length body + FP_SIZE)%nat
    by (rewrite (c_pos _ _ _ C), length_app, Hh; lia).
  cbn zeta. apply iwp_bind. eapply iwp_mono; [apply hdr_encode_grew; [apply C|done]|].
  intros [e1 mb1] s1 (-> & O1 & G1). cbn beta iota.
  assert (header method class tid len <> []) as Hne by (intros X; by rewrite X in Hh).
  pose proof (complete_header _ _ _ _ _ _ C (eq_trans Hh' (eq_sym Hh)) Hne G1) as C1.
  set (h := header method class tid (length body + FP_SIZE)) in *.
  pose proof (complete_buf _ _ _ C1) as B1. cbn [mbuf_set_pos] in B1. 
  change (mbuf_set_pos (mbuf_set_pos mb1 _) start) with (mbuf_set_pos mb1 start) in B1. rewrite B1.
  rewrite u16_small by lia. rewrite Nat2Z.id.
  change (mbuf_advance (mbuf_set_pos mb1 start) (STUN_HEADER_SIZE + (length body + FP_SIZE) - FP_SIZE))
    with (mbuf_set_pos mb1 (start + (STUN_HEADER_SIZE + (length body + FP_SIZE) - FP_SIZE))).
  replace (start + (STUN_HEADER_SIZE + (length body + FP_SIZE) - FP_SIZE))%nat
    with (start + length (h ++ body))%nat by (rewrite length_app, Hh'; lia).
  apply iwp_bind. eapply iwp_mono; [apply attr_encode_grew; [apply C1|]|].
  { split; [done|]. split; [|done]. by apply fingerprint_u32. }
  intros [e2 mb2] s2 (-> & O2 & G2). wp_steps. split_and!; [done|congruence|]. rewrite app_assoc.
  eapply complete_attr; [exact C1|]. exact G2.
Qed.

(** All octets of a message are octets. *)
Lemma be16_bytes v : Forall is_byte (be16 v).
Proof. repeat constructor; apply u8_range. Qed.
Lemma be32_bytes v : Forall is_byte (be32 v).
Proof. repeat constructor; apply u8_range. Qed.

Lemma xor_bytes_bytes a b : Forall is_byte a -> Forall is_byte b -> Forall is_byte (xor_bytes a b).
Proof.
  intros Ha. revert b. induction Ha as [|x a Hx Ha IH]; intros b Hb; [constructor|].
  destruct Hb as [|y b Hy Hb]; cbn; [by constructor|]. constructor; [by apply lxor_byte|by apply IH].
Qed.

Lemma addr_octets_bytes a tid :
  sa_ok a -> Forall is_byte (default [] tid) -> Forall is_byte (addr_octets a tid).
Proof.
  intros [_ Ha] Ht. unfold addr_octets. destruct (sa_ip a); [done| |];
    (apply Forall_app; split; [by repeat constructor|]; apply Forall_app; split; [apply be16_bytes|]).
  - apply be32_bytes.
  - destruct Ha as [_ Ha]. destruct tid; [|done]. apply xor_bytes_bytes; [done|].
    apply Forall_app. split; [by repeat constructor|done].
Qed.

Lemma value_octets_bytes k v tid :
  val_ok k v -> Forall is_byte (default [] tid) -> Forall is_byte (value_octets k v tid).
Proof.
  intros Hv Ht. destruct k, v; cbn [val_ok] in Hv; try done; cbn [value_octets].
  - apply addr_octets_bytes; [done|]. by destruct xor.
  - apply be32_bytes.
  - apply Hv.
  - apply Hv.
  - destruct Hv as (Hc & _ & Hb). apply Forall_app. split; [apply be16_bytes|].
    repeat constructor; try done; mod_lia.
  - destruct Hv as [_ _]. induction types as [|t ts IH]; cbn [map concat]; [constructor|].
    apply Forall_app_2; [apply be16_bytes|exact IH].
  - apply Forall_app. split; apply be16_bytes.
  - apply be32_bytes.
  - repeat constructor; (done || lia).
  - destruct r; by repeat constructor.
  - apply Forall_app. split; apply be32_bytes.
Qed.

Lemma attr_octets_bytes type v tid padding :
  attr_ok tid (SAttr type v) -> Forall is_byte (default [] tid) ->
  Forall is_byte (attr_octets type v tid padding).
Proof.
  intros (_ & Hv & _) Ht. unfold attr_octets. repeat apply Forall_app_2.
  - apply be16_bytes.
  - apply be16_bytes.
  - by apply value_octets_bytes.
  - apply Forall_replicate, u8_range.
Qed.

Lemma header_bytes method class tid len :
  Forall is_byte tid -> Forall is_byte (header method class tid len).
Proof.
  intros H. unfold header, hdr_octets. repeat apply Forall_app_2; eauto using be16_bytes, be32_bytes.
Qed.

Lemma body_bytes ec tid padding attrs :
  ec_ok ec -> Forall (attr_ok (Some tid)) attrs -> Forall is_byte tid ->
  Forall is_byte (ec_octets ec padding ++ attrs_octets attrs tid padding).
Proof.
  intros He Ha Ht. apply Forall_app_2.
  - destruct ec as [[code reason]|]; [|constructor]. by apply attr_octets_bytes.
  - induction Ha as [|[t v] attrs Hx Ha IH]; [constructor|]. unfold attrs_octets in *. cbn [map concat].
    apply Forall_app_2; [by apply attr_octets_bytes|exact IH].
Qed.

Lemma mi_bytes method class tid key padding body :
  Forall is_byte (mi_octets method class tid key padding body).
Proof.
  destruct key as [key|]; [|constructor]. apply attr_octets_bytes; [|constructor].
  split; [done|]. split; [apply hmac_spec|]. cbn. rewrite (proj1 (hmac_spec _ _)). lia.
Qed.

(** What [stun_msg_vencode] writes. *)
Lemma vencode_complete mb method class tid ec key fp padding attrs s :
  let m := message_octets method class tid ec key fp padding (given attrs) in
  (mb_end mb <= mb_pos mb)%nat -> (mb_end mb <= mb_size mb)%nat -> length tid = STUN_TID_SIZE ->
  ec_ok ec -> Forall (attr_ok (Some tid)) (given attrs) ->
  Z.of_nat (length m) < 65536 + 20 -> Forall is_byte tid ->
  iwp (stun_msg_vencode hmac_sha1 mb method class tid ec key fp padding attrs) (fun '(e, mb') s' =>
    e = 0 /\ out s' = out s /\ complete mb' (mb_pos mb) m) s.
Proof.
  intros m He Hs Ht Hec Hat Hl Hb. unfold m, message_octets in *.
  set (body := ec_octets ec padding ++ attrs_octets (given attrs) tid padding) in *.
  cbn zeta in *. set (mi := mi_octets method class tid key padding body) in *.
  set (fpo := fp_octets method class tid fp padding (body ++ mi)) in *.
  rewrite !length_app, header_length in Hl by done.
  pose proof (mi_octets_length method class tid key padding body) as Hmi. fold mi in Hmi.
  pose proof (fp_octets_length method class tid fp padding (body ++ mi)) as Hfp. fold fpo in Hfp.
  unfold stun_msg_vencode. apply iwp_bind.
  eapply iwp_mono; [apply body_encode_complete; try done; fold body; rewrite <- Hmi; unfold STUN_HEADER_SIZE in *; lia|].
  fold body. rewrite <- Hmi. intros [[e1 len] mb1] s1 (-> & O1 & -> & C1). cbn beta iota.
  apply iwp_bind. eapply (iwp_mono _ (fun '(e, mb2) s2 => e = 0 /\ out s2 = out s1 /\
    complete mb2 (mb_pos mb) (header method class tid (length body + length mi) ++ body ++ mi))).
  { destruct key as [key|].
    - unfold mi. rewrite mi_octets_length. apply mi_encode_complete; [done|].
      rewrite Hmi in C1. exact C1.
    - wp_steps. split; [done|]. split; [done|]. unfold mi. cbn [mi_octets]. by rewrite app_nil_r. }
  intros [e2 mb2] s2 (-> & O2 & C2). cbn beta iota. apply iwp_bind.
  eapply (iwp_mono _ (fun '(e, mb3) s3 => e = 0 /\ out s3 = out s2 /\
    complete mb3 (mb_pos mb) (header method class tid (length ((body ++ mi) ++ fpo)) ++ (body ++ mi) ++ fpo))).
  { rewrite length_app. destruct fp.
    - rewrite Hfp. unfold fpo. eapply fp_encode_complete; [done| | |exact C2].
      + apply Forall_app_2; [by apply header_bytes|].
        apply Forall_app_2; [by apply body_bytes|apply mi_bytes].
      + rewrite length_app. unfold STUN_HEADER_SIZE in *. lia.
    - wp_steps. split; [done|]. split; [done|]. unfold fpo. cbn [fp_octets length].
      rewrite app_nil_r, Nat.add_0_r, length_app. exact C2. }
  intros [e3 mb3] s3 (-> & O3 & C3). wp_steps. split; [done|]. split; [congruence|done].
Qed.
End encode_proofs.

(** ** Decoding what was encoded *)

(** The octets [l] are left in the buffer. *)
Definition at_ (mb : mbuf) (l : bytes) : Prop := mbuf_wf mb /\ mbuf_buf mb = l.

Lemma at_left mb l : at_ mb l -> mbuf_get_left mb = length l.
Proof. intros [W <-]. symmetry. by apply mbuf_buf_length. Qed.

Lemma at_read mb n a r :
  at_ mb (a ++ r) -> length a = n -> mbuf_read_mem mb n = Some (a, mbuf_advance mb n).
Proof.
  intros [W B] Hn. destruct (mbuf_read_mem_app mb n a r W B Hn) as (mb' & E & _).
  unfold mbuf_read_mem in *. destruct (mbuf_get_left mb <? n)%nat; [done|]. congruence.
Qed.

Lemma at_advance mb n a r :
  at_ mb (a ++ r) -> length a = n -> at_ (mbuf_advance mb n) r.
Proof.
  intros H Hn. pose proof (at_read _ _ _ _ H Hn) as E. destruct H as [W B].
  destruct (mbuf_read_mem_app mb n a r W B Hn) as (mb' & E' & W' & B' & _).
  rewrite E in E'. injection E' as <-. by split.
Qed.

Lemma at_read_be mb n a r :
  at_ mb (a ++ r) -> length a = n -> mbuf_read_be mb n = (from_be a, mbuf_advance mb n).
Proof. intros H Hn. unfold mbuf_read_be. by rewrite (at_read _ _ _ _ H Hn). Qed.

Lemma advance_advance mb a b : mbuf_advance (mbuf_advance mb a) b = mbuf_advance mb (a + b).
Proof. unfold mbuf_advance. cbn. by rewrite Nat.add_assoc. Qed.
Lemma advance_0 mb : mbuf_advance mb 0 = mb.
Proof. destruct mb. unfold mbuf_advance. cbn. by rewrite Nat.add_0_r. Qed.

(** Read the [n] octets [a] and go on behind them. *)
Ltac take_field H n a :=
  rewrite (at_read_be _ n a _ H eq_refl); apply (at_advance _ n a) in H; [|done].

Lemma xor_bytes_twice a b : xor_bytes (xor_bytes a b) b = a.
Proof.
  revert b. induction a as [|x a IH]; intros [|y b]; cbn; try done.
  by rewrite IH, Z.lxor_assoc, Z.lxor_nilpotent, Z.lxor_0_r.
Qed.
Lemma lxor_twice a b : Z.lxor (Z.lxor a b) b = a.
Proof. by rewrite Z.lxor_assoc, Z.lxor_nilpotent, Z.lxor_0_r. Qed.
Lemma xor_bytes_length a b : length (xor_bytes a b) = length a.
Proof. revert b. induction a as [|x a IH]; intros [|y b]; cbn; auto. Qed.

Lemma addr_decode mb a tid r :
  sa_ok a -> at_ mb (addr_octets a tid ++ r) ->
  stun_addr_decode mb tid = inr (a, mbuf_advance mb (length (addr_octets a tid))).
Proof.
  intros [Hp Ha] H. unfold stun_addr_decode, mbuf_read_u8, mbuf_read_u16, mbuf_read_u32.
  rewrite (at_left _ _ H). unfold addr_octets in *.
  set (port := match tid with Some _ => _ | None => _ end) in *.
  assert (0 <= port < 65536) as Hport by (unfold port; destruct tid; [by apply lxor_u16|done]).
  assert (sa_port a = match tid with Some _ => Z.lxor port (Z.shiftr STUN_MAGIC_COOKIE 16) | None => port end)
    as Hpa by (unfold port; destruct tid; [by rewrite lxor_twice|done]).
  destruct a as [ip p0]. cbn [sa_ip sa_port] in *. destruct ip as [|v|v]; [done| |].
  - set (w := match tid with Some _ => _ | None => v end) in *.
    change ([0; STUN_AF_IPv4] ++ be16 port ++ be32 w) with ([0] ++ [STUN_AF_IPv4] ++ be16 port ++ be32 w) in H.
    rewrite <- !app_assoc in H. cbn [length app be16 be32 Nat.ltb Nat.leb].
    take_field H 1%nat [0].
    take_field H 1%nat [STUN_AF_IPv4].
    take_field H 2%nat (be16 port).
    change (from_be [STUN_AF_IPv4] =? STUN_AF_IPv4) with true. cbn iota.
    rewrite (at_left _ _ H), length_app. cbn [be32 length Nat.add Nat.ltb Nat.leb].
    rewrite (at_read_be _ 4 (be32 w) _ H eq_refl), from_be16, from_be32, !advance_advance.
    rewrite u16_small by done. rewrite Hpa. do 4 f_equal. unfold w.
    destruct tid; rewrite u32_small; [by rewrite lxor_twice|by apply lxor_u32|done|done].
  - set (w := match tid with Some _ => _ | None => v end) in *. destruct Ha as [Hl Hb].
    assert (length w = 16%nat) as Hw.
    { unfold w. destruct tid; [|done]. unfold in6_xor_tid. by rewrite xor_bytes_length. }
    change ([0; STUN_AF_IPv6] ++ be16 port ++ w) with ([0] ++ [STUN_AF_IPv6] ++ be16 port ++ w) in H.
    rewrite <- !app_assoc in H. cbn [length app be16 be32 Nat.ltb Nat.leb].
    take_field H 1%nat [0].
    take_field H 1%nat [STUN_AF_IPv6].
    take_field H 2%nat (be16 port).
    change (from_be [STUN_AF_IPv6] =? STUN_AF_IPv4) with false.
    change (from_be [STUN_AF_IPv6] =? STUN_AF_IPv6) with true. cbn iota.
    rewrite (at_read _ 16 w _ H Hw), from_be16, !advance_advance.
    rewrite u16_small by done. rewrite Hpa, Hw. do 4 f_equal. unfold w.
    destruct tid; [|done]. apply xor_bytes_twice.
Qed.

Lemma read_types_be ts mb r :
  Forall (fun t => 0 <= t < 65536) ts -> at_ mb (concat (map be16 ts) ++ r) ->
  read_types (length ts) mb = (ts, mbuf_advance mb (2 * length ts)).
Proof.
  intros F. revert mb. induction F as [|t ts Ht F IH]; intros mb H.
  { by rewrite advance_0. }
  cbn [map concat] in H. rewrite <- app_assoc in H. cbn [length read_types]. unfold mbuf_read_u16.
  take_field H 2%nat (be16 t). rewrite (IH _ H), from_be16, u16_small, advance_advance by done.
  do 2 f_equal. lia.
Qed.

Lemma concat_be16_length ts : length (concat (map be16 ts)) = (2 * length ts)%nat.
Proof. induction ts as [|t ts IH]; cbn [map concat length]; [done|]. rewrite length_app, IH. cbn. lia. Qed.

Lemma from_be64 n : 0 <= n < 18446744073709551616 -> from_be (be64 n) = n.
Proof. intros H. unfold be64, be32, from_be. cbn. mod_lia. Qed.
Lemma from_be_byte b : from_be [b] = b.
Proof. done. Qed.

Section decode_proofs.
Context `{V : Env} (HA : AllocOk V).

Lemma str_decode_ok mb d r s :
  at_ mb (d ++ r) ->
  iwp (str_decode mb (length d)) (fun res s' => out s' = out s /\
    res = inr (d, mbuf_advance mb (length d))) s.
Proof.
  intros H. unfold str_decode. rewrite (at_left _ _ H), length_app.
  destruct (Nat.ltb_spec (length d + length r) (length d)); [lia|].
  apply iwp_bind, iwp_ask. apply iwp_ret. split; [done|].
  destruct (env QAlloc (tick s) =? 0) eqn:A; [exfalso; by eapply alloc_null|].
  by rewrite (at_read _ _ _ _ H eq_refl).
Qed.

(** What is read of a value, up to the padding. *)
Lemma value_decode mb k v tid r s :
  let val := value_octets k v (Some tid) in
  val_ok k v -> at_ mb (val ++ r) ->
  iwp (attr_value_decode mb k (length val) tid) (fun res s' => out s' = out s /\
    exists c, res = inr (v, mbuf_advance mb c) /\ (c <= length val)%nat /\
      (c + pad_len c = length val + pad_len (length val))%nat) s.
Proof.
  intros val Hv H. unfold val in *. clear val.
  destruct k, v; cbn [val_ok] in Hv; try done; cbn [value_octets] in *; cbn [attr_value_decode].
  - apply iwp_ret. split; [done|]. rewrite (addr_decode _ _ _ _ Hv H). eauto.
  - unfold mbuf_read_u32. take_field H 4%nat (be32 (Z.lor (Z.shiftl (b2z ip) 2) (Z.shiftl (b2z port) 1))).
    cbn [length be32 Nat.eqb negb]. apply iwp_ret. split; [done|]. exists 4%nat.
    by destruct ip, port.
  - apply iwp_bind. eapply iwp_mono; [exact (str_decode_ok _ _ _ _ H)|]. intros res s' [O ->].
    apply iwp_ret. eauto.
  - destruct Hv as [Hl _]. rewrite Hl. cbn [Nat.eqb negb]. apply iwp_ret. split; [done|].
    rewrite (at_read _ 20 _ _ H Hl). eauto.
  - destruct Hv as (Hc & _ & _).
    change (be16 0 ++ [code / 100; code mod 100] ++ reason)
      with (be16 0 ++ [code / 100] ++ [code mod 100] ++ reason) in *.
    rewrite <- !app_assoc in H. rewrite !length_app. cbn [length be16].
    replace (2 + (1 + (1 + length reason)))%nat with (4 + length reason)%nat by lia.
    destruct (Nat.ltb_spec (4 + length reason) 4); [lia|].
    apply (at_advance _ 2 (be16 0)) in H; [|done]. unfold mbuf_read_u8.
    take_field H 1%nat [code / 100]. take_field H 1%nat [code mod 100].
    apply iwp_bind. replace (4 + length reason - 4)%nat with (length reason) by lia.
    eapply iwp_mono; [exact (str_decode_ok _ _ _ _ H)|]. intros res s' [O ->]. apply iwp_ret.
    split; [done|]. exists (4 + length reason)%nat. rewrite !advance_advance, !from_be_byte.
    split; [|done]. change 7 with (Z.ones 3). rewrite Z.land_ones by lia.
    do 4 f_equal. change (2 ^ 3) with 8. Z.div_mod_to_equations. lia.
  - destruct Hv as [Hl Hr]. rewrite concat_be16_length.
    replace (2 * length types / 2)%nat with (length types) by (rewrite Nat.mul_comm, Nat.div_mul; lia).
    rewrite (read_types_be _ _ _ Hr H). apply iwp_ret. split; [done|].
    rewrite take_ge by lia. eauto.
  - unfold mbuf_read_u16. rewrite <- app_assoc in H. take_field H 2%nat (be16 n).
    cbn [length be16 app Nat.ltb Nat.leb]. apply iwp_ret. split; [done|]. exists 2%nat.
    rewrite from_be16, u16_small by done. split; [done|]. split; [lia|done].
  - unfold mbuf_read_u32. take_field H 4%nat (be32 n).
    cbn [length be32 Nat.eqb negb]. apply iwp_ret. split; [done|]. exists 4%nat.
    by rewrite from_be32, u32_small by done.
  - apply iwp_ret. split; [done|]. exists (length d). split; [|done]. do 3 f_equal.
    pose proof (at_read _ _ _ _ H eq_refl) as E. unfold mbuf_read_mem in E.
    destruct (mbuf_get_left mb <? length d)%nat; [done|]. by injection E as E.
  - unfold mbuf_read_u8. change [n; 0; 0; 0] with ([n] ++ [0; 0; 0]) in H. rewrite <- app_assoc in H.
    take_field H 1%nat [n]. cbn [length Nat.ltb Nat.leb]. apply iwp_ret. split; [done|].
    exists 1%nat. split; [done|]. split; [lia|done].
  - unfold mbuf_read_u8. take_field H 1%nat [if r0 then 128 else 0].
    cbn [length Nat.ltb Nat.leb]. apply iwp_ret. split; [done|]. exists 1%nat.
    split; [|by split]. by destruct r0.
  - apply iwp_ret. split; [done|]. exists 0%nat. rewrite advance_0. done.
  - unfold mbuf_read_u64. take_field H 8%nat (be64 n). rewrite from_be64 by done.
    cbn [length be64 be32 app Nat.eqb negb]. apply iwp_ret. split; [done|]. by exists 8%nat.
Qed.

Lemma skip_pad_spec fuel : forall mb start,
  (start <= mb_pos mb)%nat -> (pad_len (mb_pos mb - start) <= fuel)%nat ->
  (pad_len (mb_pos mb - start) <= mbuf_get_left mb)%nat ->
  skip_pad fuel mb start = mbuf_advance mb (pad_len (mb_pos mb - start)).
Proof.
  induction fuel as [|fuel IH]; intros mb start Hs Hf Hl; cbn [skip_pad].
  { assert (pad_len (mb_pos mb - start) = 0%nat) as -> by lia. by rewrite advance_0. }
  destruct ((mb_pos mb - start) mod 4 =? 0)%nat eqn:E; bool_hyps; cbn [negb andb].
  { assert (pad_len (mb_pos mb - start) = 0%nat) as -> by (unfold pad_len; by rewrite E).
    by rewrite advance_0. }
  pose proof (pad_len_step _ E) as Hp.
  assert (S (mb_pos mb - start) = mb_pos (mbuf_advance mb 1) - start)%nat as Hq by (cbn; lia).
  destruct (Nat.eqb_spec (mbuf_get_left mb) 0) as [H0|H0]; [rewrite H0, Hp in Hl; lia|]. cbn [negb].
  rewrite IH; rewrite <- ?Hq.
  - rewrite Hp, advance_advance. done.
  - cbn. lia.
  - lia.
  - unfold mbuf_get_left in *. cbn [mbuf_advance mb_end mb_pos]. lia.
Qed.

Lemma padded_octets type v tid padding r mb c :
  at_ mb (attr_octets type v tid padding ++ r) ->
  let val := value_octets (kind_of type) v tid in
  (c <= length val)%nat -> (c + pad_len c = length val + pad_len (length val))%nat ->
  let mb4 := mbuf_advance mb 4 in
  skip_pad 3 (mbuf_advance mb4 c) (mb_pos mb4) = mbuf_advance mb (length (attr_octets type v tid padding)).
Proof.
  intros H val Hc Hp mb4. pose proof (attr_octets_length type v tid padding) as HL. fold val in HL.
  cbn zeta in HL. pose proof (at_left _ _ H) as HF. rewrite length_app, HL in HF.
  assert (mb_pos (mbuf_advance mb4 c) - mb_pos mb4 = c)%nat as Hd by (cbn; lia).
  rewrite skip_pad_spec; rewrite ?Hd.
  - unfold mb4. rewrite !advance_advance, HL. f_equal. lia.
  - cbn. lia.
  - apply pad_len_bound.
  - unfold mb4, mbuf_get_left in *. cbn [mbuf_advance mb_end mb_pos]. lia.
Qed.

Lemma attr_decode_ok mb type v tid padding ua r s :
  attr_ok (Some tid) (SAttr type v) -> at_ mb (attr_octets type v (Some tid) padding ++ r) ->
  iwp (stun_attr_decode mb tid ua) (fun res s' => out s' = out s /\
    res = inr (SAttr type v, mbuf_advance mb (length (attr_octets type v (Some tid) padding)), ua)) s.
Proof.
  intros (Ht & Hv & Hl) H. cbn [a_type a_val] in *. pose proof H as H0.
  pose proof (attr_octets_length type v (Some tid) padding) as HL. cbn zeta in HL.
  unfold stun_attr_decode. rewrite (at_left _ _ H), length_app.
  destruct (Nat.ltb_spec (length (attr_octets type v (Some tid) padding) + length r) 4) as [?|_]; [lia|].
  apply iwp_bind, iwp_ask.
  destruct (env QAlloc (tick s) =? 0) eqn:A; [exfalso; by eapply alloc_null|].
  unfold attr_octets in H. cbn zeta in H. set (val := value_octets (kind_of type) v (Some tid)) in *.
  rewrite <- !app_assoc in H. unfold mbuf_read_u16.
  take_field H 2%nat (be16 type). take_field H 2%nat (be16 (zlen val)).
  rewrite !from_be16, !u16_small, Nat2Z.id by lia. rewrite (at_left _ _ H), length_app.
  destruct (Nat.ltb_spec (length val + length (replicate (pad_len (length val)) (u8 padding) ++ r)) (length val)); [lia|].
  rewrite advance_advance in *. change (2 + 2)%nat with 4%nat in *. apply iwp_bind.
  eapply iwp_mono; [exact (value_decode _ _ _ _ _ _ Hv H)|].
  intros res s1 (O1 & c & -> & Hc & Hp). apply iwp_ret. split; [done|].
  rewrite (padded_octets _ _ _ _ _ _ _ H0 Hc Hp). unfold attr_octets. fold val. cbn zeta.
  by destruct (kind_of type).
Qed.

Lemma attrs_decode_ok l tid padding extra : forall fuel mb ua s,
  Forall (attr_ok (Some tid)) l -> at_ mb (attrs_octets l tid padding ++ extra) ->
  zlen (attrs_octets l tid padding) < 18446744073709551616 ->
  (length (attrs_octets l tid padding) < fuel)%nat ->
  iwp (attrs_decode fuel mb (length extra) tid ua) (fun res s' => out s' = out s /\
    exists mb', res = inr (l, mb', ua)) s.
Proof.
  induction l as [|[type v] l IH]; intros [|fuel] mb ua s Hok H Hz Hf; try lia; cbn [attrs_decode];
    rewrite (at_left _ _ H), length_app, Nat2Z.inj_add, Z.add_simpl_r;
    unfold u64; rewrite Z.mod_small by lia.
  - cbn. apply iwp_ret. eauto.
  - inversion Hok as [|? ? Ha Hr]; subst. pose proof (attr_octets_length type v (Some tid) padding) as HL.
    unfold attrs_octets in *. cbn [map concat a_type a_val] in *. fold (attrs_octets l tid padding) in *.
    rewrite length_app in *. cbn zeta in HL.
    destruct (Z.geb_spec (Z.of_nat (length (attr_octets type v (Some tid) padding) + length (attrs_octets l tid padding))) 4); [|lia].
    rewrite <- app_assoc in H. apply iwp_bind.
    eapply iwp_mono; [exact (attr_decode_ok _ _ _ _ _ _ _ _ Ha H)|]. intros res s1 (O1 & ->).
    cbn beta iota. apply iwp_bind.
    eapply iwp_mono; [apply IH; [done|exact (at_advance _ _ _ _ H eq_refl)|lia|lia]|].
    intros res s2 (O2 & mb' & ->). apply iwp_ret. split; [congruence|eauto].
Qed.
End decode_proofs.

(** *** Message types *)

Lemma stun_type_check :
  all_from 14 0 (fun x => let '(m, c) := (x / 4, x mod 4) in let t := STUN_TYPE m c in
    (0 <=? t) && (t <? 0x4000) && (Z.land t 0xc000 =? 0) && (Z.land t 0x3fff =? t)
    && (STUN_METHOD t =? m) && ((16 <=? m) || (STUN_CLASS t =? c))) = true.
Proof. by vm_compute. Qed.

(** Every method and class gives a 14-bit type from which the method can be
    read; the class can for the methods in use, all below 16. *)
Lemma stun_type_spec m c :
  0 <= m < 4096 -> 0 <= c < 4 ->
  let t := STUN_TYPE m c in
  0 <= t < 0x4000 /\ Z.land t 0xc000 = 0 /\ Z.land t 0x3fff = t /\ STUN_METHOD t = m /\
  (m < 16 -> STUN_CLASS t = c).
Proof.
  intros Hm Hc t. pose proof (all_from_spec _ _ _ stun_type_check (m * 4 + c)) as H.
  cbn beta in H. replace ((m * 4 + c) / 4) with m in H by (Z.div_mod_to_equations; lia).
  replace ((m * 4 + c) mod 4) with c in H by (Z.div_mod_to_equations; lia). fold t in H.
  specialize (H ltac:(change (2 ^ Z.of_nat 14) with 16384; lia)). cbn zeta in H.
  bool_hyps. split; [lia|]. split_and!; try done.
  intros H16. match goal with H : orb _ _ = true |- _ => apply orb_true_iff in H as [H|H] end;
    bool_hyps; [lia|done].
Qed.

(** A method with bit 4 or bit 6 changes the class that is read back. *)
Lemma stun_class_wrong : STUN_CLASS (STUN_TYPE 0x10 0) = 2.
Proof. done. Qed.

Lemma hdr_decode_ok mb method class tid len r :
  0 <= method < 4096 -> 0 <= class < 4 -> length tid = STUN_TID_SIZE ->
  Z.of_nat len < 65536 -> (len mod 4 = 0)%nat -> (len <= length r)%nat ->
  at_ mb (header method class tid len ++ r) ->
  stun_hdr_decode mb = inr (Hdr (STUN_TYPE method class) (Z.of_nat len) STUN_MAGIC_COOKIE tid,
                            mbuf_advance mb STUN_HEADER_SIZE).
Proof.
  intros Hm Hc Ht Hl H4 Hr H. destruct (stun_type_spec method class Hm Hc) as (T1 & T2 & T3 & _).
  set (t := STUN_TYPE method class) in *. unfold stun_hdr_decode.
  rewrite (at_left _ _ H), length_app, header_length by done.
  destruct (Nat.ltb_spec (STUN_HEADER_SIZE + length r) STUN_HEADER_SIZE); [lia|].
  unfold header, hdr_octets in H. cbn [h_type h_len h_cookie h_tid] in H. fold t in H.
  rewrite T3 in H. rewrite <- !app_assoc in H. unfold mbuf_read_u16, mbuf_read_u32.
  take_field H 2%nat (be16 t). rewrite from_be16, u16_small, T2 by lia. cbn [Z.eqb negb].
  take_field H 2%nat (be16 (Z.of_nat len)). rewrite from_be16, u16_small by lia.
  change 3 with (Z.ones 2). rewrite Z.land_ones by lia. change (2 ^ 2) with (Z.of_nat 4).
  rewrite <- Nat2Z.inj_mod, H4. cbn [Z.of_nat Z.eqb negb].
  take_field H 4%nat (be32 STUN_MAGIC_COOKIE). rewrite from_be32.
  rewrite (at_read _ STUN_TID_SIZE tid _ H Ht). apply (at_advance _ STUN_TID_SIZE tid) in H; [|done].
  rewrite (at_left _ _ H). destruct (Z.ltb_spec (zlen r) (Z.of_nat len)); [lia|].
  by rewrite !advance_advance.
Qed.

(** *** Messages *)

Definition ec_attr (ec : option (Z * bytes)) : list stun_attr :=
  match ec with
  | Some (code, reason) => [SAttr STUN_ATTR_ERR_CODE (VErr code reason)]
  | None => []
  end.

Section roundtrip.
Context (hmac_sha1 : bytes -> bytes -> bytes)
  (hmac_spec : forall k d, length (hmac_sha1 k d) = 20%nat /\ Forall is_byte (hmac_sha1 k d)).
Context (method class : Z) (tid : bytes) (padding : Z).

Definition mi_attr (key : option bytes) (body : bytes) : list stun_attr :=
  match key with
  | Some k => [SAttr STUN_ATTR_MSG_INTEGRITY
      (VMi (hmac_sha1 k (header method class tid (length body + MI_SIZE) ++ body)))]
  | None => []
  end.
Definition fp_attr (fp : bool) (body : bytes) : list stun_attr :=
  if fp then [SAttr STUN_ATTR_FINGERPRINT
    (VU32 (fingerprint (header method class tid (length body + FP_SIZE) ++ body)))]
  else [].

(** The attributes of the message, the ones that the encoder adds included. *)
Definition all_attrs (ec : option (Z * bytes)) (key : option bytes) (fp : bool)
    (attrs : list stun_attr) : list stun_attr :=
  let l := ec_attr ec ++ attrs in
  let l := l ++ mi_attr key (attrs_octets l tid padding) in
  l ++ fp_attr fp (attrs_octets l tid padding).

Lemma attrs_octets_app l l' :
  attrs_octets (l ++ l') tid padding = attrs_octets l tid padding ++ attrs_octets l' tid padding.
Proof. unfold attrs_octets. by rewrite map_app, concat_app. Qed.

Lemma ec_attr_octets ec : ec_octets ec padding = attrs_octets (ec_attr ec) tid padding.
Proof. destruct ec as [[c r]|]; [|done]. unfold attrs_octets. cbn [ec_attr map concat]. by rewrite app_nil_r. Qed.
Lemma mi_attr_octets key body :
  mi_octets hmac_sha1 method class tid key padding body = attrs_octets (mi_attr key body) tid padding.
Proof. destruct key; [|done]. unfold attrs_octets. cbn [mi_attr map concat]. by rewrite app_nil_r. Qed.
Lemma fp_attr_octets fp body :
  fp_octets method class tid fp padding body = attrs_octets (fp_attr fp body) tid padding.
Proof. destruct fp; [|done]. unfold attrs_octets. cbn [fp_attr map concat]. by rewrite app_nil_r. Qed.

Lemma message_octets_attrs ec key fp attrs :
  let b := attrs_octets (all_attrs ec key fp attrs) tid padding in
  message_octets hmac_sha1 method class tid ec key fp padding attrs
  = header method class tid (length b) ++ b.
Proof.
  unfold message_octets, all_attrs. cbn zeta. rewrite ec_attr_octets.
  rewrite !attrs_octets_app, <- !fp_attr_octets, <- !mi_attr_octets. done.
Qed.

Lemma all_attrs_ok ec key fp attrs :
  ec_ok ec -> Forall (attr_ok (Some tid)) attrs -> Forall is_byte tid ->
  Forall (attr_ok (Some tid)) (all_attrs ec key fp attrs).
Proof.
  intros He Ha Ht. unfold all_attrs.
  assert (Forall (attr_ok (Some tid)) (ec_attr ec ++ attrs)) as H1.
  { apply Forall_app_2; [|done]. destruct ec as [[c r]|]; repeat constructor; apply He. }
  set (b1 := attrs_octets (ec_attr ec ++ attrs) tid padding).
  assert (Forall (attr_ok (Some tid)) ((ec_attr ec ++ attrs) ++ mi_attr key b1)) as H2.
  { apply Forall_app_2; [done|]. destruct key; [|constructor]. constructor; [|constructor].
    split; [done|]. split; [apply hmac_spec|]. cbn. rewrite (proj1 (hmac_spec _ _)). lia. }
  apply Forall_app_2; [done|]. destruct fp; [|constructor]. constructor; [|constructor].
  split; [done|]. split; [|done]. apply fingerprint_u32. apply Forall_app_2; [by apply header_bytes|].
  unfold attrs_octets. induction H2 as [|[t v] l Hx _ IH]; cbn [map concat]; [constructor|].
  apply Forall_app_2; [by apply attr_octets_bytes|done].
Qed.
End roundtrip.

Lemma find_attr_app l l' type :
  find_attr (l ++ l') type = match find_attr l type with Some v => Some v | None => find_attr l' type end.
Proof. induction l as [|a l IH]; cbn; [done|]. by destruct (a_type a =? type). Qed.
Lemma find_attr_none l type : Forall (fun a => a_type a <> type) l -> find_attr l type = None.
Proof.
  induction 1 as [|a l Ha _ IH]; cbn; [done|]. destruct (Z.eqb_spec (a_type a) type); [done|exact IH].
Qed.

(** Attributes that the caller may pass: not the two that the encoder adds. *)
Definition plain (a : stun_attr) : Prop :=
  a_type a <> STUN_ATTR_MSG_INTEGRITY /\ a_type a <> STUN_ATTR_FINGERPRINT.

Section checks.
Context (hmac_sha1 : bytes -> bytes -> bytes)
  (hmac_spec : forall k d, length (hmac_sha1 k d) = 20%nat /\ Forall is_byte (hmac_sha1 k d)).
Context (method class : Z) (tid : bytes) (padding : Z) (ec : option (Z * bytes)) (attrs : list stun_attr).
Hypothesis tid_length : length tid = STUN_TID_SIZE.
Hypothesis attrs_plain : Forall plain attrs.

Let b0 := attrs_octets (ec_attr ec ++ attrs) tid padding.

Lemma front_none type :
  type = STUN_ATTR_MSG_INTEGRITY \/ type = STUN_ATTR_FINGERPRINT ->
  find_attr (ec_attr ec ++ attrs) type = None.
Proof.
  intros Ht. apply find_attr_none, Forall_app_2.
  - destruct ec as [[c r]|]; repeat constructor. cbn. by destruct Ht as [->| ->].
  - eapply Forall_impl; [|exact attrs_plain]. intros a [? ?]. by destruct Ht as [->| ->].
Qed.

Lemma find_mi key fp :
  find_attr (all_attrs hmac_sha1 method class tid padding ec key fp attrs) STUN_ATTR_MSG_INTEGRITY
  = match key with
    | Some k => Some (VMi (hmac_sha1 k (header method class tid (length b0 + MI_SIZE) ++ b0)))
    | None => None
    end.
Proof.
  unfold all_attrs. rewrite 2!find_attr_app, front_none by (by left). fold b0.
  destruct key; [done|]. by destruct fp.
Qed.

Definition before_fp (key : option bytes) : bytes :=
  attrs_octets ((ec_attr ec ++ attrs) ++ mi_attr hmac_sha1 method class tid key b0) tid padding.

Lemma find_fp key fp :
  find_attr (all_attrs hmac_sha1 method class tid padding ec key fp attrs) STUN_ATTR_FINGERPRINT
  = if fp then Some (VU32 (fingerprint (header method class tid (length (before_fp key) + FP_SIZE)
                                        ++ before_fp key))) else None.
Proof.
  unfold all_attrs. rewrite 2!find_attr_app, front_none by (by right). fold b0.
  destruct key, fp; done.
Qed.

Lemma all_octets key fp :
  attrs_octets (all_attrs hmac_sha1 method class tid padding ec key fp attrs) tid padding
  = before_fp key ++ attrs_octets (fp_attr method class tid fp (before_fp key)) tid padding.
Proof. unfold all_attrs. rewrite attrs_octets_app. done. Qed.

Lemma before_fp_octets key :
  before_fp key = b0 ++ attrs_octets (mi_attr hmac_sha1 method class tid key b0) tid padding.
Proof. unfold before_fp. by rewrite attrs_octets_app. Qed.

(** A message as the decoder returns it from a buffer that holds the octets. *)
Context (key : option bytes) (fp : bool) (m : stun_message) (r : bytes).
Let b := attrs_octets (all_attrs hmac_sha1 method class tid padding ec key fp attrs) tid padding.
Hypothesis m_hdr_is : m_hdr m = Hdr (STUN_TYPE method class) (Z.of_nat (length b)) STUN_MAGIC_COOKIE tid.
Hypothesis m_attrs_is : m_attrs m = all_attrs hmac_sha1 method class tid padding ec key fp attrs.
Hypothesis m_octets : drop (mb_pos (m_mb m)) (mb_buf (m_mb m)) = header method class tid (length b) ++ b ++ r.

Lemma chk_fingerprint_ok : fp = true -> stun_msg_chk_fingerprint m = 0.
Proof.
  intros ->. unfold stun_msg_chk_fingerprint, stun_msg_attr. rewrite m_attrs_is, find_fp.
  unfold msg_octets. rewrite m_octets, m_hdr_is. cbn [h_len]. rewrite Nat2Z.id.
  pose proof (header_length method class tid (length b) tid_length) as Hh.
  assert (length b = length (before_fp key) + FP_SIZE)%nat as Hb.
  { unfold b. rewrite all_octets, length_app, <- fp_attr_octets.
    by rewrite (fp_octets_length method class tid true). }
  replace (STUN_HEADER_SIZE + length b - FP_SIZE)%nat
    with (length (header method class tid (length b) ++ before_fp key)) by (rewrite length_app, Hh; lia).
  rewrite <- Hb. assert (b ++ r = before_fp key ++
    attrs_octets (fp_attr method class tid true (before_fp key)) tid padding ++ r) as ->
    by (unfold b; by rewrite all_octets, <- app_assoc).
  rewrite (app_assoc (header _ _ _ _)), take_app_length. by rewrite Z.eqb_refl.
Qed.

Lemma chk_mi_ok k : 0 <= STUN_TYPE method class < 65536 -> Z.of_nat (length b) < 65536 ->
  key = Some k -> stun_msg_chk_mi hmac_sha1 m k = 0.
Proof.
  intros HT Hlen ->. unfold stun_msg_chk_mi, stun_msg_attr. rewrite m_attrs_is, find_mi, find_fp, m_hdr_is.
  pose proof (header_length method class tid (length b) tid_length) as Hh.
  pose proof (header_length method class tid (length b0 + MI_SIZE) tid_length) as Hh0.
  assert (length (before_fp (Some k)) = length b0 + MI_SIZE)%nat as H0.
  { rewrite before_fp_octets, length_app, <- mi_attr_octets.
    by rewrite (mi_octets_length hmac_sha1 hmac_spec method class tid (Some k) padding b0). }
  assert (length b = length b0 + MI_SIZE + (if fp then FP_SIZE else 0))%nat as Hb.
  { unfold b. rewrite all_octets, length_app, H0, <- fp_attr_octets. by rewrite fp_octets_length. }
  assert (drop STUN_HEADER_SIZE (header method class tid (length b) ++ b ++ r) = b ++ r) as Hd
    by (rewrite <- Hh; apply drop_app_length).
  assert (forall h n, length h = STUN_HEADER_SIZE -> n = (length h + length b0)%nat ->
    take n (h ++ b ++ r) = h ++ b0) as Ht.
  { intros h n Hl ->. unfold b. rewrite all_octets, before_fp_octets, <- !app_assoc, (app_assoc h).
    rewrite <- length_app. apply take_app_length. }
  unfold msg_octets. rewrite m_octets, Hd. destruct fp; cbn [h_len h_type h_cookie h_tid].
  - assert (u16 (Z.of_nat (length b) - Z.of_nat FP_SIZE) = Z.of_nat (length b0 + MI_SIZE)) as ->.
    { unfold FP_SIZE in *. rewrite u16_small by lia. lia. }
    rewrite Nat2Z.id. fold (header method class tid (length b0 + MI_SIZE)).
    rewrite Ht; [by rewrite bytes_eqb_refl|done|rewrite Hh0; unfold MI_SIZE; lia].
  - rewrite Nat2Z.id. rewrite <- Hh at 2. rewrite take_app_length, Nat.add_0_r in *.
    rewrite Ht; [by rewrite Hb, bytes_eqb_refl|done|rewrite Hh, Hb; unfold MI_SIZE; lia].
Qed.
End checks.

(** ** Round trip *)

Lemma complete_at mb start m : complete mb start m -> at_ (mbuf_set_pos mb start) m.
Proof.
  intros C. split; [|by apply complete_buf]. destruct C as [P E Z _].
  unfold mbuf_wf. cbn. split; [lia|exact Z].
Qed.

Lemma complete_drop mb start m :
  complete mb start m -> exists r, drop start (mb_buf mb) = m ++ r.
Proof.
  intros C. exists (drop (length m) (drop start (mb_buf mb))).
  rewrite <- (c_seg _ _ _ C) at 1. by rewrite take_drop.
Qed.

Lemma msg_decode_ok `{V : Env} hmac_sha1 mb method class tid ec key fp padding attrs s :
  let l := all_attrs hmac_sha1 method class tid padding ec key fp attrs in
  let b := attrs_octets l tid padding in
  AllocOk V -> 0 <= method < 4096 -> 0 <= class < 4 -> length tid = STUN_TID_SIZE ->
  Forall (attr_ok (Some tid)) l -> Z.of_nat (length b) < 65536 ->
  at_ mb (header method class tid (length b) ++ b) ->
  iwp (stun_msg_decode mb) (fun res s' => out s' = out s /\
    res = inr (Message (Hdr (STUN_TYPE method class) (Z.of_nat (length b)) STUN_MAGIC_COOKIE tid) l mb, [])) s.
Proof.
  intros l b HA Hm Hc Ht Hok Hl H. unfold stun_msg_decode.
  pose proof (header_length method class tid (length b) Ht) as Hh.
  rewrite (hdr_decode_ok mb method class tid (length b) b) by (done || apply attrs_length_bound).
  apply iwp_bind, iwp_ask.
  destruct (env QAlloc (tick s) =? 0) eqn:A; [exfalso; by eapply alloc_null|].
  apply (at_advance _ STUN_HEADER_SIZE) in H; [|done]. cbn [h_len h_tid].
  rewrite (at_left _ _ H), Nat2Z.id, Nat.sub_diag. apply iwp_bind.
  change 0%nat with (length (@nil Z)).
  eapply iwp_mono; [apply (attrs_decode_ok HA l tid padding []); [done|by rewrite app_nil_r|unfold b in Hl; lia|fold b; lia]|].
  intros res s' (O & mb' & ->). apply iwp_ret. by split.
Qed.

(** What a decoded message is to the one that was sent. *)
Definition received (hmac_sha1 : bytes -> bytes -> bytes) (method class : Z) (tid : bytes)
    (ec : option (Z * bytes)) (key : option bytes) (fp : bool) (attrs : list stun_attr)
    (m : stun_message) : Prop :=
  stun_msg_method m = method /\ stun_msg_class m = class /\ h_tid (m_hdr m) = tid /\
  stun_msg_mcookie m = true /\
  (exists tail, m_attrs m = ec_attr ec ++ attrs ++ tail /\
     map a_type tail = (match key with Some _ => [STUN_ATTR_MSG_INTEGRITY] | None => [] end)
                       ++ (if fp then [STUN_ATTR_FINGERPRINT] else [])) /\
  (fp = true -> stun_msg_chk_fingerprint m = 0) /\
  (forall k, key = Some k -> stun_msg_chk_mi hmac_sha1 m k = 0).

Lemma at_drop mb l : at_ mb l -> exists r, drop (mb_pos mb) (mb_buf mb) = l ++ r.
Proof.
  intros [_ <-]. unfold mbuf_buf. eexists. symmetry. apply take_drop.
Qed.

Lemma octets_received `{V : Env} hmac_sha1 mb method class tid ec key fp padding attrs s :
  AllocOk V ->
  (forall k d, length (hmac_sha1 k d) = 20%nat /\ Forall is_byte (hmac_sha1 k d)) ->
  0 <= method < 16 -> 0 <= class < 4 -> length tid = STUN_TID_SIZE -> Forall is_byte tid ->
  ec_ok ec -> Forall (attr_ok (Some tid)) attrs -> Forall plain attrs ->
  let octets := message_octets hmac_sha1 method class tid ec key fp padding attrs in
  Z.of_nat (length octets) < 65536 + 20 -> at_ mb octets ->
  iwp (stun_msg_decode mb) (fun r s' => out s' = out s /\
    exists m, r = inr (m, []) /\ received hmac_sha1 method class tid ec key fp attrs m) s.
Proof.
  intros HA HH Hm Hc Ht Hb Hec Hat Hpl octets Hl Hmb. unfold octets in *. clear octets.
  rewrite message_octets_attrs in Hl, Hmb.
  set (l := all_attrs hmac_sha1 method class tid padding ec key fp attrs) in *.
  cbn zeta in *. set (b := attrs_octets l tid padding) in *.
  rewrite length_app, header_length in Hl by done. unfold STUN_HEADER_SIZE in Hl.
  assert (Z.of_nat (length b) < 65536) as Hlb by lia. eapply iwp_mono.
  { apply (msg_decode_ok hmac_sha1 _ method class tid ec key fp padding attrs); try done; try lia.
    by apply all_attrs_ok. }
  intros r s2 (O2 & ->). split; [done|]. eexists. split; [reflexivity|].
  destruct (stun_type_spec method class ltac:(lia) Hc) as (T1 & _ & _ & T4 & T5).
  destruct (at_drop _ _ Hmb) as [rest D]. rewrite <- app_assoc in D.
  set (l0 := ec_attr ec ++ attrs) in *.
  set (mi := mi_attr hmac_sha1 method class tid key (attrs_octets l0 tid padding)).
  split; [exact T4|]. split; [apply T5; lia|]. split; [done|]. split; [done|]. split; [|split].
  - exists (mi ++ fp_attr method class tid fp (attrs_octets (l0 ++ mi) tid padding)).
    split; [cbn [m_attrs]; unfold l, all_attrs; fold l0; fold mi; by rewrite !app_assoc|].
    by destruct key, fp.
  - by eapply (chk_fingerprint_ok hmac_sha1 method class tid padding ec attrs).
  - intros k Hk. eapply (chk_mi_ok hmac_sha1 HH method class tid padding ec attrs); try done. lia.
Qed.

(** C31. STUN messages survive the wire: what [stun_msg_vencode] writes -- error
    code, attributes of every known type, and optionally MESSAGE-INTEGRITY and
    FINGERPRINT -- [stun_msg_decode] reads back with the same method, class,
    transaction and attributes, in order, and both checks accept it.  [hmac_sha1]
    is any function with a 20-octet result. *)
Theorem stun_roundtrip `{V : Env} (hmac_sha1 : bytes -> bytes -> bytes) mb method class tid ec key fp
    padding attrs s :
  AllocOk V ->
  (forall k d, length (hmac_sha1 k d) = 20%nat /\ Forall is_byte (hmac_sha1 k d)) ->
  0 <= method < 16 -> 0 <= class < 4 -> length tid = STUN_TID_SIZE -> Forall is_byte tid ->
  ec_ok ec -> Forall (attr_ok (Some tid)) (given attrs) -> Forall plain (given attrs) ->
  (mb_end mb <= mb_pos mb)%nat -> (mb_end mb <= mb_size mb)%nat ->
  Z.of_nat (length (message_octets hmac_sha1 method class tid ec key fp padding (given attrs))) < 65536 + 20 ->
  iwp ('(e, mb') ← stun_msg_vencode hmac_sha1 mb method class tid ec key fp padding attrs;
       r ← stun_msg_decode (mbuf_set_pos mb' (mb_pos mb)); mret (e, r))
    (fun '(e, r) s' => e = 0 /\ out s' = out s /\ exists m, r = inr (m, []) /\
       received hmac_sha1 method class tid ec key fp (given attrs) m) s.
Proof.
  intros HA HH Hm Hc Ht Hb Hec Hat Hpl He Hs Hl. apply iwp_bind.
  eapply iwp_mono; [by apply (vencode_complete HA hmac_sha1 HH)|].
  intros [e mb'] s1 (-> & O1 & C). cbn beta iota. apply iwp_bind. eapply iwp_mono.
  { by apply (octets_received hmac_sha1 _ method class tid ec key fp padding (given attrs)), complete_at. }
  intros r s2 (O2 & m & -> & Hr). apply iwp_ret. split; [done|]. split; [congruence|]. by exists m.
Qed.

(** ** What any input can do *)

(** A decoder moves the position forward, never past the end. *)
Definition forward (mb mb' : mbuf) : Prop :=
  exists c, mb' = mbuf_advance mb c /\ (c <= mbuf_get_left mb)%nat.

Lemma forward_refl mb : forward mb mb.
Proof. exists 0%nat. rewrite advance_0. split; [done|lia]. Qed.
Lemma forward_trans mb1 mb2 mb3 : forward mb1 mb2 -> forward mb2 mb3 -> forward mb1 mb3.
Proof.
  intros (c & -> & H) (d & -> & H'). exists (c + d)%nat. rewrite advance_advance.
  split; [done|]. unfold mbuf_get_left in *. cbn in H'. lia.
Qed.
Lemma forward_by mb c : (c <= mbuf_get_left mb)%nat -> forward mb (mbuf_advance mb c).
Proof. intros H. by exists c. Qed.
Lemma forward_read mb n d mb' : mbuf_read_mem mb n = Some (d, mb') -> forward mb mb'.
Proof.
  unfold mbuf_read_mem. destruct (Nat.ltb_spec (mbuf_get_left mb) n); [done|].
  intros [= _ <-]. by apply forward_by.
Qed.
Lemma forward_be mb n : forward mb (mbuf_read_be mb n).2.
Proof.
  unfold mbuf_read_be. destruct (mbuf_read_mem mb n) as [[d mb']|] eqn:E; [|apply forward_refl].
  by apply forward_read in E.
Qed.
Create HintDb stun discriminated.
#[local] Hint Resolve forward_refl forward_by forward_be forward_read forward_trans : stun.

Lemma forward_types n : forall mb, forward mb (read_types n mb).2.
Proof.
  induction n as [|n IH]; intros mb; cbn [read_types]; [apply forward_refl|].
  pose proof (forward_be mb 2) as F. unfold mbuf_read_u16. destruct (mbuf_read_be mb 2) as [t mb1].
  specialize (IH mb1). destruct (read_types n mb1). eauto with stun.
Qed.

Lemma forward_addr mb tid a mb' : stun_addr_decode mb tid = inr (a, mb') -> forward mb mb'.
Proof.
  unfold stun_addr_decode, mbuf_read_u8, mbuf_read_u16, mbuf_read_u32.
  destruct (mbuf_get_left mb <? 4)%nat; [done|].
  pose proof (forward_be mb 1) as F1. destruct (mbuf_read_be mb 1) as [x1 mb1].
  pose proof (forward_be mb1 1) as F2. destruct (mbuf_read_be mb1 1) as [x2 mb2].
  pose proof (forward_be mb2 2) as F3. destruct (mbuf_read_be mb2 2) as [x3 mb3].
  cbn [snd] in *. assert (forward mb mb3) as F by eauto with stun.
  destruct (x2 =? STUN_AF_IPv4).
  - destruct (mbuf_get_left mb3 <? 4)%nat; [done|]. pose proof (forward_be mb3 4) as F4.
    destruct (mbuf_read_be mb3 4) as [x4 mb4]. intros [= _ <-]. eauto with stun.
  - destruct (x2 =? STUN_AF_IPv6); [|done].
    destruct (mbuf_read_mem mb3 16) as [[d mb4]|] eqn:E; [|done]. intros [= _ <-]. eauto with stun.
Qed.

Lemma forward_skip fuel : forall mb start, forward mb (skip_pad fuel mb start).
Proof.
  induction fuel as [|fuel IH]; intros mb start; cbn [skip_pad]; [apply forward_refl|].
  destruct (negb _ && negb (mbuf_get_left mb =? 0)%nat) eqn:E; [|apply forward_refl]. bool_hyps.
  eapply forward_trans; [apply (forward_by mb 1); lia|apply IH].
Qed.

Section any_input.
Context `{V : Env}.

Lemma forward_str mb len s :
  iwp (str_decode mb len) (fun res s' => out s' = out s /\
    forall d mb', res = inr (d, mb') -> forward mb mb') s.
Proof.
  unfold str_decode. destruct (mbuf_get_left mb <? len)%nat; [by apply iwp_ret|].
  apply iwp_bind, iwp_ask, iwp_ret. split; [done|]. destruct (env QAlloc (tick s) =? 0); [done|].
  destruct (mbuf_read_mem mb len) as [[d mb']|] eqn:E; [|done]. intros ? ? [= <- <-]. eauto with stun.
Qed.

Lemma forward_value mb k len tid s :
  (len <= mbuf_get_left mb)%nat ->
  iwp (attr_value_decode mb k len tid) (fun res s' => out s' = out s /\
    forall v mb', res = inr (v, mb') -> forward mb mb') s.
Proof.
  intros Hl. destruct k; cbn [attr_value_decode];
    unfold mbuf_read_u8, mbuf_read_u16, mbuf_read_u32, mbuf_read_u64;
    try (match goal with |- context [mbuf_read_be mb ?n] =>
           pose proof (forward_be mb n); destruct (mbuf_read_be mb n) as [x mb1] end;
         apply iwp_ret; split; [done|]; case_if; intros ? ? [=]; by subst);
    try (apply iwp_ret; split; [done|]; intros ? ? [= _ <-]; by eauto with stun).
  - apply iwp_ret. split; [done|]. destruct (stun_addr_decode _ _) as [|[a mb1]] eqn:E; [done|].
    intros ? ? [= _ <-]. by apply forward_addr in E.
  - apply iwp_bind. eapply iwp_mono; [apply forward_str|]. intros res s1 [O F]. apply iwp_ret.
    split; [done|]. destruct res as [|[d mb1]]; [done|]. intros ? ? [= _ <-]. by eapply F.
  - destruct (negb _); apply iwp_ret; [done|]. split; [done|].
    destruct (mbuf_read_mem mb 20) as [[d mb1]|] eqn:E; [|done]. intros ? ? [= _ <-]. eauto with stun.
  - destruct (Nat.ltb_spec len 4); [by apply iwp_ret|].
    pose proof (forward_be (mbuf_advance mb 2) 1) as F1.
    destruct (mbuf_read_be (mbuf_advance mb 2) 1) as [x1 mb1].
    pose proof (forward_be mb1 1) as F2. destruct (mbuf_read_be mb1 1) as [x2 mb2]. cbn [snd] in *.
    assert (forward mb mb2) as F by (eapply forward_trans; [apply (forward_by mb 2); lia|eauto with stun]).
    apply iwp_bind. eapply iwp_mono; [apply forward_str|]. intros res s1 [O F3]. apply iwp_ret.
    split; [done|]. destruct res as [|[d mb3]]; [done|]. intros ? ? [= _ <-]. eauto with stun.
  - pose proof (forward_types (len / 2) mb) as F. destruct (read_types (len / 2) mb) as [ts mb1].
    apply iwp_ret. split; [done|]. by intros ? ? [= _ <-].
  - apply iwp_ret. split; [done|]. destruct (0 <? len)%nat; [done|].
    intros ? ? [= _ <-]. apply forward_refl.
Qed.

(** An attribute takes at least its own header. *)
Lemma attr_decode_forward mb tid ua s :
  iwp (stun_attr_decode mb tid ua) (fun res s' => out s' = out s /\
    forall a mb' ua', res = inr (a, mb', ua') ->
      (exists c, mb' = mbuf_advance mb c /\ (4 <= c <= mbuf_get_left mb)%nat) /\
      ((length ua <= 8)%nat -> (length ua' <= 8)%nat)) s.
Proof.
  unfold stun_attr_decode. destruct (Nat.ltb_spec (mbuf_get_left mb) 4) as [|H4]; [by apply iwp_ret|].
  apply iwp_bind, iwp_ask. destruct (env QAlloc (tick s) =? 0); [by apply iwp_ret|].
  unfold mbuf_read_u16, mbuf_read_be, mbuf_read_mem.
  destruct (Nat.ltb_spec (mbuf_get_left mb) 2); [lia|].
  assert (mbuf_get_left (mbuf_advance mb 2) = mbuf_get_left mb - 2)%nat as H2
    by (unfold mbuf_get_left; cbn; lia).
  rewrite H2. destruct (Nat.ltb_spec (mbuf_get_left mb - 2) 2); [lia|]. cbn beta iota.
  rewrite advance_advance. change (2 + 2)%nat with 4%nat. set (mb4 := mbuf_advance mb 4).
  set (type := from_be (take 2 (drop (mb_pos mb) (mb_buf mb)))). set (len := Z.to_nat _).
  destruct (Nat.ltb_spec (mbuf_get_left mb4) len); [by apply iwp_ret|].
  apply iwp_bind. eapply iwp_mono; [by apply forward_value|]. intros res s1 [O F].
  apply iwp_ret. split; [done|]. destruct res as [|[v mb5]]; [done|].
  pose proof (forward_skip 3 mb5 (mb_pos mb4)) as FS. cbn zeta.
  set (mb6 := skip_pad 3 mb5 (mb_pos mb4)) in *. clearbody mb6.
  intros ? ? ? [= _ <- <-]. split.
  - destruct (forward_trans _ _ _ (F _ _ eq_refl) FS) as (c & -> & Hc).
    exists (4 + c)%nat. unfold mb4. rewrite advance_advance. split; [done|].
    unfold mbuf_get_left, mb4 in *. cbn in Hc. lia.
  - intros Hu. destruct (kind_of type); try done. destruct (0x8000 <=? type); [done|].
    unfold add_unknown. destruct (Nat.ltb_spec (length ua) 8); [|done]. rewrite length_app. cbn. lia.
Qed.

Lemma attrs_decode_inside extra tid fuel : forall mb ua s,
  Z.of_nat (mbuf_get_left mb) < 9223372036854775808 ->
  Z.of_nat extra < 9223372036854775808 -> (length ua <= 8)%nat ->
  iwp (attrs_decode fuel mb extra tid ua) (fun res s' => out s' = out s /\
    forall l mb' ua', res = inr (l, mb', ua') ->
      exists c, mb' = mbuf_advance mb c /\ (4 * length l <= c)%nat /\
        (c + extra <= mbuf_get_left mb < c + extra + 4)%nat /\ (length ua' <= 8)%nat) s.
Proof.
  induction fuel as [|fuel IH]; intros mb ua s Hz He Hu; cbn [attrs_decode].
  { by apply iwp_ret. }
  destruct (Z.geb_spec (u64 (Z.of_nat (mbuf_get_left mb) - Z.of_nat extra)) 4) as [G|G].
  - apply iwp_bind. eapply iwp_mono; [apply attr_decode_forward|]. intros res s1 [O1 F].
    destruct res as [|[[a mb1] ua1]]; [by apply iwp_ret|].
    destruct (F _ _ _ eq_refl) as ((c & -> & Hc) & Hu1). apply iwp_bind.
    assert (mbuf_get_left (mbuf_advance mb c) = mbuf_get_left mb - c)%nat as Hl
      by (unfold mbuf_get_left; cbn; lia).
    eapply iwp_mono; [apply IH; [rewrite Hl; lia|done|by apply Hu1]|].
    intros res s2 [O2 F2]. apply iwp_ret. split; [congruence|].
    destruct res as [|[[l mb2] ua2]]; [done|]. intros ? ? ? [= <- <- <-].
    destruct (F2 _ _ _ eq_refl) as (d & -> & H4 & Hr & H8). exists (c + d)%nat.
    rewrite advance_advance. rewrite Hl in Hr. cbn [length]. repeat split; (done || lia).
  - apply iwp_ret. split; [done|]. intros ? ? ? [= <- <- <-]. exists 0%nat.
    rewrite advance_0. unfold u64 in G. cbn [length].
    destruct (Z.le_gt_cases (Z.of_nat extra) (Z.of_nat (mbuf_get_left mb))) as [H|H].
    + rewrite Z.mod_small in G by lia. repeat split; (done || lia).
    + exfalso. rewrite <- (Z.mod_add _ 1), Z.mod_small in G; lia.
Qed.

Lemma hdr_decode_forward mb hdr mb1 :
  stun_hdr_decode mb = inr (hdr, mb1) ->
  (mbuf_get_left mb1 <= mbuf_get_left mb)%nat /\ (Z.to_nat (h_len hdr) <= mbuf_get_left mb1)%nat.
Proof.
  unfold stun_hdr_decode, mbuf_read_u16, mbuf_read_u32. destruct (_ <? _)%nat; [done|].
  pose proof (forward_be mb 2) as F1. destruct (mbuf_read_be mb 2) as [x1 b1]. cbn [snd] in F1.
  destruct (negb _); [done|].
  pose proof (forward_be b1 2) as F2. destruct (mbuf_read_be b1 2) as [x2 b2]. cbn [snd] in F2.
  destruct (negb _); [done|].
  pose proof (forward_be b2 4) as F3. destruct (mbuf_read_be b2 4) as [x3 b3]. cbn [snd] in F3.
  destruct (mbuf_read_mem b3 STUN_TID_SIZE) as [[tid b4]|] eqn:E; [|done]. apply forward_read in E.
  destruct (Z.ltb_spec (Z.of_nat (mbuf_get_left b4)) x2); [done|]. intros [= <- <-]. cbn [h_len].
  split; [|lia].
  destruct (forward_trans _ _ _ F1 (forward_trans _ _ _ F2 (forward_trans _ _ _ F3 E))) as (c & -> & _).
  unfold mbuf_get_left. cbn. lia.
Qed.

(** C35. Whatever arrives, an accepted message keeps to its length: its attributes
    end inside the [hdr.len] octets that the header states (fewer than four are
    left over), also when the datagram is longer and an attribute claims octets
    beyond -- then the unsigned difference that controls the loop wraps around and
    the loop can only end in an error.  At most eight unknown types are recorded. *)
Theorem stun_decode_within mb s :
  Z.of_nat (mbuf_get_left mb) < 9223372036854775808 ->
  iwp (stun_msg_decode mb) (fun res s' => out s' = out s /\
    forall m ua, res = inr (m, ua) ->
      exists hdr mb1 mb2 s1 s2 c, stun_hdr_decode mb = inr (hdr, mb1) /\ m_hdr m = hdr /\
        attrs_decode (S (mbuf_get_left mb1)) mb1 (mbuf_get_left mb1 - Z.to_nat (h_len hdr)) (h_tid hdr) [] s1
        = (inr (m_attrs m, mb2, ua), s2) /\
        mb2 = mbuf_advance mb1 c /\ (4 * length (m_attrs m) <= c)%nat /\
        (c <= Z.to_nat (h_len hdr) < c + 4)%nat /\ (Z.to_nat (h_len hdr) <= mbuf_get_left mb1)%nat /\
        (length ua <= 8)%nat) s.
Proof.
  intros Hz. unfold stun_msg_decode. destruct (stun_hdr_decode mb) as [e|[hdr mb1]] eqn:EH.
  { apply iwp_ret. split; [done|]. intros ? ? [=]. }
  destruct (hdr_decode_forward _ _ _ EH) as [Hl Hle].
  apply iwp_bind, iwp_ask. destruct (env QAlloc (tick s) =? 0); [by apply iwp_ret|].
  apply iwp_bind. set (s1 := Sys _ _). unfold iwp.
  pose proof (attrs_decode_inside (mbuf_get_left mb1 - Z.to_nat (h_len hdr)) (h_tid hdr)
    (S (mbuf_get_left mb1)) mb1 [] s1 ltac:(lia) ltac:(lia) ltac:(cbn; lia)) as I. unfold iwp in I.
  destruct (attrs_decode _ mb1 _ _ [] s1) as [res s2] eqn:EA. destruct I as [O I]. cbn [mret IO_ret].
  split; [done|]. destruct res as [|[[l mb2] ua']]; [done|]. intros ? ? [= <- <-].
  destruct (I _ _ _ eq_refl) as (c & -> & H4 & Hc & H8).
  exists hdr, mb1, (mbuf_advance mb1 c), s1, s2, c. cbn [m_hdr m_attrs].
  split_and!; (done || lia).
Qed.

(** The decoder's fuel is no restriction: with one round per octet, and one more,
    the result is the same as with any larger number. *)
Lemma attrs_decode_fuel fuel : forall k mb extra tid ua s,
  (mbuf_get_left mb < fuel)%nat -> attrs_decode (fuel + k) mb extra tid ua s = attrs_decode fuel mb extra tid ua s.
Proof.
  induction fuel as [|fuel IH]; intros k mb extra tid ua s Hf; [lia|]. cbn [attrs_decode Nat.add].
  destruct (u64 _ >=? 4); [|done]. pose proof (attr_decode_forward mb tid ua s) as F. unfold iwp in F.
  unfold mbind, IO_bind. destruct (stun_attr_decode mb tid ua s) as [res s1].
  destruct F as [_ F]. destruct res as [|[[a mb1] ua1]]; [done|].
  destruct (F _ _ _ eq_refl) as ((c & -> & Hc) & _). rewrite IH; [done|].
  unfold mbuf_get_left in *. cbn. lia.
Qed.
End any_input.

(** ** Witnesses and further facts *)

Definition demo_tid : bytes := [1; 2; 3; 4; 5; 6; 7; 8; 9; 10; 11; 12].
Definition demo_hmac (k d : bytes) : bytes := replicate 20 (u8 (Z.of_nat (length k + length d))).
Definition demo_attrs : list (Z * option stun_val) :=
  [(STUN_ATTR_SOFTWARE, Some (VStr (cstr "re"))); (STUN_ATTR_USERNAME, None);
   (STUN_ATTR_XOR_MAPPED_ADDR, Some (VSa (SA (AF_INET 3221225985) 5004)))].

Lemma demo_hmac_spec k d : length (demo_hmac k d) = 20%nat /\ Forall is_byte (demo_hmac k d).
Proof. split; [done|]. apply Forall_replicate, u8_range. Qed.

Lemma stun_roundtrip_witness :
  @iwp (Z * (Z + stun_message * list Z))
    ('(e, mb') ← @stun_msg_vencode good_env demo_hmac (Mbuf (replicate 16 0) 0 0) 1 2 demo_tid None
                   (Some [1; 2]) true 0 demo_attrs;
     r ← @stun_msg_decode good_env (mbuf_set_pos mb' 0); mret (e, r))
    (fun '(e, r) _ => e = 0 /\ exists m, r = inr (m, []) /\
       stun_msg_attr m STUN_ATTR_XOR_MAPPED_ADDR = Some (VSa (SA (AF_INET 3221225985) 5004)) /\
       stun_msg_chk_mi demo_hmac m [1; 2] = 0) (Sys 0 []).
Proof.
  eapply iwp_mono.
  - apply (@stun_roundtrip good_env demo_hmac (Mbuf (replicate 16 0) 0 0) 1 2 demo_tid None (Some [1; 2]) true 0
      demo_attrs (Sys 0 []) _ demo_hmac_spec); try (cbn; lia); try done.
    + repeat constructor; done.
    + unfold demo_attrs, given. cbn [omap list_omap fmap option_fmap option_map].
      repeat constructor; done.
    + unfold demo_attrs, given. cbn [omap list_omap fmap option_fmap option_map].
      repeat constructor; done.
  - intros [e r] s' (E & _ & m & Er & _ & _ & _ & _ & (tail & Ea & _) & _ & Hmi). split; [exact E|].
    exists m. split; [exact Er|]. split; [|by apply Hmi].
    unfold stun_msg_attr. rewrite Ea. reflexivity.
Defined.

Lemma stun_decode_within_witness :
  @iwp (Z + stun_message * list Z)
    (@stun_msg_decode good_env (Mbuf (message_octets demo_hmac 1 2 demo_tid None None true 0 (given demo_attrs) ++ [7; 7; 7]) 0 55))
    (fun res _ => exists m c, res = inr (m, []) /\ (4 * length (m_attrs m) <= c)%nat /\
       (c <= Z.to_nat (h_len (m_hdr m)) < c + 4)%nat) (Sys 0 []).
Proof.
  set (mb := Mbuf _ 0 55).
  pose proof (@stun_decode_within good_env mb (Sys 0 []) ltac:(cbn; lia)) as H.
  unfold iwp in *. destruct (@stun_msg_decode good_env mb (Sys 0 [])) as [res s'] eqn:E.
  vm_compute in E. injection E as <- <-. destruct H as [_ H].
  destruct (H _ _ eq_refl) as (hdr & mb1 & mb2 & s1 & s2 & c & _ & Eh & _ & _ & H1 & H2 & _).
  eexists _, c. split; [reflexivity|]. split; [exact H1|]. rewrite Eh. exact H2.
Defined.

(** The fingerprint of a message does not fit the message with another octet. *)
Lemma fingerprint_detects a x y b :
  Forall is_byte (a ++ x :: b) -> is_byte y -> x <> y ->
  fingerprint (a ++ x :: b) <> fingerprint (a ++ y :: b).
Proof.
  intros Hb Hy Hne E. unfold fingerprint in E. apply lxor_cancel_r in E.
  by apply (re_crc32_detects 0 a x y b).
Qed.

(** The length of an address attribute is not looked at: one that claims to be
    empty is read from the octets behind it. *)
Lemma address_length_ignored :
  fst (@stun_attr_decode good_env (Mbuf [0; 1; 0; 0; 0; 1; 19; 140; 192; 0; 2; 1] 0 12) demo_tid [] (Sys 0 []))
  = inr (SAttr STUN_ATTR_MAPPED_ADDR (VSa (SA (AF_INET 3221225985) 5004)),
         Mbuf [0; 1; 0; 0; 0; 1; 19; 140; 192; 0; 2; 1] 12 12, []).
Proof. by vm_compute. Qed.
