(* ===== verification/Regex.v ===== *)
(** * Basic regular expressions ([src/re-4.6.0/src/fmt/regex.c])

    [re_regex] looks for the first position from which the whole expression
    matches: characters (without regard to case) and character classes with a
    count, each class greedy and without backtracking.  The interpreter reads the
    expression character by character, as the code does; a capture is the offset
    and the length of what a class matched. *)
From S2P Require Import Prelude Sys.
Local Open Scope Z_scope.

(** [struct chr] *)
Definition chr_range : Type := Z * Z.

Definition expr_match (chrv : list chr_range) (c : Z) (neg : bool) : bool :=
  let found := existsb (fun r => (fst r <=? c) && (c <=? snd r)) chrv in
  if neg then negb found else found.

(** The loop over the text of one class: how many characters it takes. *)
Fixpoint scan (chrv : list chr_range) (neg qesc : bool) (nmax nm : Z) (quote esc : bool) (p : bytes) : nat :=
  match p with
  | [] => O
  | c :: t =>
      if nm <? nmax then
        let take q e := S (scan chrv neg qesc nmax (nm + 1) q e t) in
        let plain := if expr_match chrv (tolower c) neg then take quote false else O in
        if qesc then
          if esc then take quote false
          else if c =? 92 then take quote true
          else if c =? 34 then take (negb quote) false
          else if quote then take quote false
          else plain
        else plain
      else O
  end.

(** The count behind a class. *)
Definition UINT32_MAX : Z := 4294967295.
Definition quantifier (c : Z) : option (Z * Z) :=
  if c =? 42 then Some (0, UINT32_MAX)
  else if c =? 43 then Some (1, UINT32_MAX)
  else if (49 <=? c) && (c <=? 57) then Some (c - 48, c - 48)
  else None.

(** The variables of the loop over the expression.  [r_min] is the lower bound of
    a range whose upper bound is still to come; [r_pos] and [r_p] are where the
    text is, [r_caps] the captures so far. *)
Record rstate := RState {
  r_fm : bool;
  r_ec : bool;
  r_neg : bool;
  r_qesc : bool;
  r_min : option Z;
  r_chrv : list chr_range;
  r_eesc : bool;
  r_pos : nat;
  r_p : bytes;
  r_caps : list (nat * nat)
}.

Inductive attempt := Matched (caps : list (nat * nat)) | Again | Failed (err : Z).

Definition set_eesc (b : bool) (s : rstate) : rstate :=
  RState (r_fm s) (r_ec s) (r_neg s) (r_qesc s) (r_min s) (r_chrv s) b (r_pos s) (r_p s) (r_caps s).
Definition class_start (s : rstate) : rstate :=
  RState true false false false None [] (r_eesc s) (r_pos s) (r_p s) (r_caps s).
Definition next_chr (t : bytes) (s : rstate) : rstate :=
  RState (r_fm s) (r_ec s) (r_neg s) (r_qesc s) (r_min s) (r_chrv s) false (S (r_pos s)) t (r_caps s).

(** What a class matched, with its quotes stripped. *)
Definition strip_quotes (s : rstate) (n : nat) : nat * nat :=
  let txt := take n (r_p s) in
  if r_qesc s && (1 <? n)%nat && (nth 0 txt 0 =? 34) && (nth (n - 1) txt 0 =? 34)
  then (S (r_pos s), n - 2)%nat else (r_pos s, n).

(** The class is applied to the text. *)
Definition class_end (s : rstate) (nmin nmax : Z) : option rstate :=
  let n := scan (r_chrv s) (r_neg s) (r_qesc s) nmax 0 false false (r_p s) in
  let lpl := strip_quotes s n in
  let nm := Z.of_nat (snd lpl) in
  if (nm <? nmin) || (nmax <? nm) then None
  else Some (RState false (r_ec s) (r_neg s) (r_qesc s) (r_min s) (r_chrv s) false
               (r_pos s + n) (drop n (r_p s)) (r_caps s ++ [lpl])).

(** A character of a class: [chrv] has room for 64. *)
Definition class_chr (c : Z) (s : rstate) : option rstate :=
  if (64 <=? length (r_chrv s))%nat then None
  else
    let c := tolower c in
    let r := match r_min s with Some mn => (mn, c) | None => (c, c) end in
    Some (RState (r_fm s) (r_ec s) (r_neg s) (r_qesc s) None (r_chrv s ++ [r]) false (r_pos s) (r_p s) (r_caps s)).

Definition class_special (c : Z) (s : rstate) : option rstate :=
  let n := length (r_chrv s) in
  let mk ec neg qesc mn chrv :=
    Some (RState (r_fm s) ec neg qesc mn chrv (r_eesc s) (r_pos s) (r_p s) (r_caps s)) in
  if c =? 93 then mk true (r_neg s) (r_qesc s) (r_min s) (r_chrv s)
  else if (c =? 126) && (n =? 0)%nat then mk (r_ec s) true true (r_min s) (r_chrv s)
  else if (c =? 94) && (n =? 0)%nat then mk (r_ec s) true (r_qesc s) (r_min s) (r_chrv s)
  else if (c =? 45) && negb (n =? 0)%nat && match r_min s with None => true | _ => false end then
    mk (r_ec s) (r_neg s) (r_qesc s) (Some (fst (nth (n - 1) (r_chrv s) (0, 0)))) (take (n - 1) (r_chrv s))
  else None.

Fixpoint re_try (ep : bytes) (s : rstate) : attempt :=
  match ep with
  | [] => if r_fm s then Failed EINVAL else Matched (r_caps s)
  | e :: ep =>
      if (e =? 92) && negb (r_eesc s) then re_try ep (set_eesc true s)
      else if negb (r_fm s) then
        if (e =? 91) && negb (r_eesc s) then re_try ep (class_start s)
        else
          match r_p s with
          | [] => Failed ENOENT
          | c :: t => if negb (tolower e =? tolower c) then Again else re_try ep (next_chr t s)
          end
      else if r_ec s then
        match quantifier e with
        | None => Failed EINVAL
        | Some (nmin, nmax) =>
            match class_end s nmin nmax with
            | None => Again
            | Some s => re_try ep s
            end
        end
      else
        match (if r_eesc s then None else class_special e s) with
        | Some s => re_try ep s
        | None =>
            match class_chr e s with
            | None => Failed EINVAL
            | Some s => re_try ep s
            end
        end
  end.

(** One attempt per position, until the text is used up. *)
Definition re_start (pos : nat) (p : bytes) : rstate :=
  RState false false false false None [] false pos p [].
Fixpoint re_search (expr : bytes) (pos : nat) (p : bytes) : Z + list (nat * nat) :=
  match p with
  | [] => match expr with [] => inr [] | _ => inl ENOENT end
  | _ :: t =>
      match re_try expr (re_start pos p) with
      | Matched caps => inr caps
      | Failed e => inl e
      | Again => re_search expr (S pos) t
      end
  end.
Definition re_regex (p : bytes) (expr : string) : Z + list (nat * nat) := re_search (cstr expr) 0 p.

(** The text of a capture. *)
Definition cap_text (p : bytes) (c : nat * nat) : bytes := take (snd c) (drop (fst c) p).

Example regex_digits : re_regex (cstr "foo 42 bar") "[0-9]+" = inr [(4, 2)%nat].
Proof. reflexivity. Qed.

(** ** Evaluating an expression

    Outside a class only the text and the captures matter, so an expression can
    be taken apart into its characters and classes. *)
Definition go (ep : bytes) (pos : nat) (p : bytes) (caps : list (nat * nat)) : attempt :=
  re_try ep (RState false false false false None [] false pos p caps).

Lemma try_go ep pos p : re_try ep (re_start pos p) = go ep pos p [].
Proof. done. Qed.

Lemma try_outside ep : forall ec neg qesc mn chrv ec' neg' qesc' mn' chrv' eesc pos p caps,
  re_try ep (RState false ec neg qesc mn chrv eesc pos p caps)
  = re_try ep (RState false ec' neg' qesc' mn' chrv' eesc pos p caps).
Proof.
  induction ep as [|e ep IH]; intros; cbn [re_try r_fm r_eesc r_p r_caps negb]; [done|].
  destruct ((e =? 92) && negb eesc); [apply IH|].
  destruct ((e =? 91) && negb eesc); [done|]. destruct p as [|c t]; [done|].
  destruct (negb (tolower e =? tolower c)); [done|]. apply IH.
Qed.

(** The characters of a class, up to its end. *)
Fixpoint class_run (cls : bytes) (s : rstate) : option rstate :=
  match cls with
  | [] => Some s
  | e :: cls =>
      if (e =? 92) && negb (r_eesc s) then class_run cls (set_eesc true s)
      else
        match (if r_eesc s then None else if e =? 93 then Some s else class_special e s) with
        | Some s' => if negb (r_eesc s) && (e =? 93) then None else class_run cls s'
        | None => match class_chr e s with Some s' => class_run cls s' | None => None end
        end
  end.

Lemma class_special_in c s s' :
  c <> 93 -> class_special c s = Some s' -> r_fm s' = r_fm s /\ r_ec s' = r_ec s.
Proof.
  intros Hc. unfold class_special. destruct (Z.eqb_spec c 93); [done|].
  destruct (_ && _); [by intros [= <-]|]. destruct (_ && _); [by intros [= <-]|].
  destruct (_ && _); [by intros [= <-]|done].
Qed.
Lemma class_chr_in c s s' : class_chr c s = Some s' -> r_fm s' = r_fm s /\ r_ec s' = r_ec s.
Proof. unfold class_chr. destruct (_ <=? _)%nat; [done|]. by intros [= <-]. Qed.

Lemma class_run_try cls ep : forall s s',
  r_fm s = true -> r_ec s = false -> class_run cls s = Some s' ->
  re_try (cls ++ ep) s = re_try ep s' /\ r_fm s' = true /\ r_ec s' = false.
Proof.
  induction cls as [|e cls IH]; intros s s' Hf He; cbn [class_run app]; [by intros [= <-]|].
  cbn [re_try]. destruct ((e =? 92) && negb (r_eesc s)); [by apply IH|]. rewrite Hf, He. cbn [negb].
  destruct (r_eesc s); cbn [negb andb].
  - destruct (class_chr e s) as [s1|] eqn:E; [|done]. destruct (class_chr_in _ _ _ E) as [F1 E1].
    apply IH; congruence.
  - destruct (Z.eqb_spec e 93) as [->|Hne]; [done|].
    destruct (class_special e s) as [s1|] eqn:E.
    + destruct (class_special_in _ _ _ Hne E). apply IH; congruence.
    + destruct (class_chr e s) as [s1|] eqn:E1; [|done]. destruct (class_chr_in _ _ _ E1). apply IH; congruence.
Qed.

(** The number of leading elements with a property. *)
Fixpoint span (f : Z -> bool) (p : bytes) : nat :=
  match p with c :: t => if f c then S (span f t) else O | [] => O end.
Abbreviation in_class chrv neg := (fun c => expr_match chrv (tolower c) neg).

Lemma scan_span chrv neg nmax p : forall nm q e,
  zlen p <= nmax - nm -> scan chrv neg false nmax nm q e p = span (in_class chrv neg) p.
Proof.
  induction p as [|c t IH]; intros nm q e Hl; cbn [scan span]; [done|]. cbn [length] in Hl.
  destruct (Z.ltb_spec nm nmax); [|lia]. destruct (expr_match _ _ _); [|done]. f_equal. apply IH. lia.
Qed.

Lemma go_class_gen cls q ep nmin nmax chrv neg pos p caps :
  class_run cls (RState true false false false None [] false pos p caps)
  = Some (RState true false neg false None chrv false pos p caps) ->
  quantifier q = Some (nmin, nmax) ->
  go (91 :: cls ++ 93 :: q :: ep) pos p caps =
    let n := scan chrv neg false nmax 0 false false p in
    if (Z.of_nat n <? nmin) || (nmax <? Z.of_nat n) then Again
    else go ep (pos + n) (drop n p) (caps ++ [(pos, n)]).
Proof.
  intros Hc Hq. unfold go at 1. cbn [re_try r_eesc r_fm]. change ((91 =? 92) && negb false) with false.
  change ((91 =? 91) && negb false) with true. cbn [negb]. unfold class_start. cbn [r_eesc r_pos r_p r_caps].
  destruct (class_run_try cls (93 :: q :: ep) (RState true false false false None [] false pos p caps) _ eq_refl eq_refl Hc) as [-> _].
  cbn [re_try r_eesc r_fm r_ec negb]. change ((93 =? 92) && true) with false.
  unfold class_special. change (93 =? 93) with true. cbn [r_fm r_neg r_qesc r_min r_chrv r_eesc r_pos r_p r_caps].
  cbn iota. destruct ((q =? 92) && true) eqn:E92.
  { rewrite andb_true_r in E92. apply Z.eqb_eq in E92 as ->. by vm_compute in Hq. }
  cbn [r_fm r_ec r_eesc negb]. cbn iota. rewrite Hq. unfold class_end, strip_quotes.
  cbn [r_fm r_neg r_qesc r_min r_chrv r_eesc r_pos r_p r_caps andb snd].
  set (n := scan chrv neg false nmax 0 false false p). cbn zeta. cbn [snd].
  rewrite E92. destruct ((Z.of_nat n <? nmin) || (nmax <? Z.of_nat n)); [done|]. apply try_outside.
Qed.

(** The two counts that the expressions use, on text of any realistic length. *)
Lemma go_star cls ep chrv neg pos p caps :
  class_run cls (RState true false false false None [] false pos p caps)
  = Some (RState true false neg false None chrv false pos p caps) ->
  zlen p < UINT32_MAX ->
  go (91 :: cls ++ 93 :: 42 :: ep) pos p caps =
    let n := span (in_class chrv neg) p in go ep (pos + n) (drop n p) (caps ++ [(pos, n)]).
Proof.
  intros Hc Hl. erewrite go_class_gen; [|exact Hc|reflexivity]. rewrite scan_span by lia. cbn zeta.
  assert (span (in_class chrv neg) p <= length p)%nat as Hs.
  { clear. induction p as [|c t IH]; cbn; [lia|]. destruct (expr_match _ _ _); cbn; lia. }
  destruct (Z.ltb_spec (Z.of_nat (span (in_class chrv neg) p)) 0); [lia|].
  destruct (Z.ltb_spec UINT32_MAX (Z.of_nat (span (in_class chrv neg) p))); [lia|done].
Qed.
Lemma go_plus cls ep chrv neg pos p caps :
  class_run cls (RState true false false false None [] false pos p caps)
  = Some (RState true false neg false None chrv false pos p caps) ->
  zlen p < UINT32_MAX ->
  go (91 :: cls ++ 93 :: 43 :: ep) pos p caps =
    let n := span (in_class chrv neg) p in
    if (n =? 0)%nat then Again else go ep (pos + n) (drop n p) (caps ++ [(pos, n)]).
Proof.
  intros Hc Hl. erewrite go_class_gen; [|exact Hc|reflexivity]. rewrite scan_span by lia. cbn zeta.
  assert (span (in_class chrv neg) p <= length p)%nat as Hs.
  { clear. induction p as [|c t IH]; cbn; [lia|]. destruct (expr_match _ _ _); cbn; lia. }
  destruct (Nat.eqb_spec (span (in_class chrv neg) p) 0) as [H0|H0]; [by rewrite H0|].
  destruct (Z.ltb_spec (Z.of_nat (span (in_class chrv neg) p)) 1); [lia|].
  destruct (Z.ltb_spec UINT32_MAX (Z.of_nat (span (in_class chrv neg) p))); [lia|done].
Qed.
Lemma go_one cls ep chrv neg pos p caps :
  class_run cls (RState true false false false None [] false pos p caps)
  = Some (RState true false neg false None chrv false pos p caps) ->
  go (91 :: cls ++ 93 :: 49 :: ep) pos p caps =
    match p with
    | c :: t => if in_class chrv neg c then go ep (pos + 1) t (caps ++ [(pos, 1%nat)]) else Again
    | [] => Again
    end.
Proof.
  intros Hc. erewrite go_class_gen; [|exact Hc|reflexivity]. destruct p as [|c t]; [done|].
  cbn [scan]. change (0 <? 49 - 48) with true. cbn iota. destruct (in_class chrv neg c); [|done].
  assert (forall t, scan chrv neg false (49 - 48) (0 + 1) false false t = 0%nat) as -> by (by intros []). done.
Qed.
Lemma go_chr e ep pos p caps :
  e <> 91 -> e <> 92 ->
  go (e :: ep) pos p caps =
    match p with
    | c :: t => if tolower e =? tolower c then go ep (S pos) t caps else Again
    | [] => Failed ENOENT
    end.
Proof.
  intros H1 H2. unfold go at 1. cbn [re_try r_eesc r_fm r_p negb].
  apply Z.eqb_neq in H1, H2. rewrite H1, H2. cbn [andb]. destruct p as [|c t]; [done|].
  by destruct (tolower e =? tolower c).
Qed.

Lemma span_le f p : (span f p <= length p)%nat.
Proof. induction p as [|c t IH]; cbn; [lia|]. destruct (f c); cbn; lia. Qed.
Lemma span_app f a b : forallb f a = true -> span f (a ++ b) = (length a + span f b)%nat.
Proof.
  induction a as [|c a IH]; cbn; [done|]. intros H. apply andb_true_iff in H as [-> H]. by rewrite IH.
Qed.
(** A span that ends before the end does not change when text is appended. *)
Lemma span_stable f a b : (span f a < length a)%nat -> span f (a ++ b) = span f a.
Proof.
  induction a as [|c a IH]; cbn; [lia|]. intros H. destruct (f c); [|done]. by rewrite IH by lia.
Qed.
Lemma span_ext f g p : Forall (fun c => f c = g c) p -> span f p = span g p.
Proof. induction 1 as [|c p H _ IH]; cbn; [done|]. by rewrite H, IH. Qed.
