(* ===== verification/Rtp.v ===== *)
(** * RTP header (libre [src/rtp/rtp.c])

    Encoding and decoding of the fixed RTP header with its CSRC list, as the
    media senders and the receive paths of the intercom use them. *)
From S2P Require Import Prelude Sys Fmt Mbuf.

Definition RTP_HEADER_SIZE : nat := 12.

Record rtp_header := RtpHeader {
  h_ver : Z;  h_pad : bool;  h_ext : bool;  h_cc : Z;
  h_m : bool;  h_pt : Z;  h_seq : Z;  h_ts : Z;  h_ssrc : Z;
  h_csrc : list Z;        (* csrc[0 .. cc) *)
  h_x_type : Z;  h_x_len : Z
}.

(** The header after [memset(&hdr, 0, sizeof(hdr)); hdr.ver = 2] and the
    assignments every sender makes. *)
Definition media_hdr (m : bool) (pt seq ts ssrc : Z) : rtp_header :=
  RtpHeader 2 false false 0 m pt seq ts ssrc [] 0 0.

Definition Zb (b : bool) : Z := if b then 1 else 0.

(** ** Encoding *)
Definition hdr_byte0 (h : rtp_header) : Z :=
  u8 (Z.lor (Z.lor (Z.lor (Z.shiftl (Z.land (h_ver h) 0x02) 6)
                          (Z.shiftl (Zb (h_pad h)) 5))
                   (Z.shiftl (Zb (h_ext h)) 4))
            (Z.land (h_cc h) 0x0f)).
Definition hdr_byte1 (h : rtp_header) : Z :=
  u8 (Z.lor (Z.shiftl (Zb (h_m h)) 7) (Z.land (h_pt h) 0x7f)).

(** [err |= mbuf_write_u32(...)] for each contributing source. *)
Fixpoint encode_csrc `{Env} (err : Z) (mb : mbuf) (l : list Z) : IO (Z * mbuf) :=
  match l with
  | [] => mret (err, mb)
  | v :: t =>
      '(e, mb') ← mbuf_write_u32 mb v;
      encode_csrc (Z.lor err e) mb' t
  end.

Definition rtp_hdr_encode `{Env} (mb : mbuf) (h : rtp_header) : IO (Z * mbuf) :=
  '(e0, mb) ← mbuf_write_mem mb [hdr_byte0 h; hdr_byte1 h];
  '(e1, mb) ← mbuf_write_u16 mb (h_seq h);
  '(e2, mb) ← mbuf_write_u32 mb (h_ts h);
  '(e3, mb) ← mbuf_write_u32 mb (h_ssrc h);
  encode_csrc (Z.lor (Z.lor (Z.lor e0 e1) e2) e3) mb (take (Z.to_nat (h_cc h)) (h_csrc h)).

(** ** Decoding *)
Fixpoint decode_csrc (n : nat) (mb : mbuf) : list Z * mbuf :=
  match n with
  | O => ([], mb)
  | S n' =>
      let '(v, mb1) := mbuf_read_u32 mb in
      let '(l, mb2) := decode_csrc n' mb1 in
      (v :: l, mb2)
  end.

(** The result is the error code, the header, and the buffer positioned after
    the header. *)
Definition rtp_hdr_decode (mb : mbuf) : Z * rtp_header * mbuf :=
  let none := RtpHeader 0 false false 0 false 0 0 0 0 [] 0 0 in
  if (mbuf_get_left mb <? RTP_HEADER_SIZE)%nat then (EBADMSG, none, mb)
  else
    match mbuf_read_mem mb 2 with
    | None => (EOVERFLOW, none, mb)
    | Some (buf, mb) =>
        let b0 := nth 0 buf 0 in
        let b1 := nth 1 buf 0 in
        let ver := Z.land (Z.shiftr b0 6) 0x03 in
        let pad := Z.testbit b0 5 in
        let ext := Z.testbit b0 4 in
        let cc := Z.land b0 0x0f in
        let m := Z.testbit b1 7 in
        let pt := Z.land b1 0x7f in
        let '(seq, mb) := mbuf_read_u16 mb in
        let '(ts, mb) := mbuf_read_u32 mb in
        let '(ssrc, mb) := mbuf_read_u32 mb in
        let h := RtpHeader ver pad ext cc m pt seq ts ssrc in
        if (mbuf_get_left mb <? Z.to_nat cc * 4)%nat then (EBADMSG, h [] 0 0, mb)
        else
          let '(csrc, mb) := decode_csrc (Z.to_nat cc) mb in
          if ext then
            if (mbuf_get_left mb <? 4)%nat then (EBADMSG, h csrc 0 0, mb)
            else
              let '(xt, mb) := mbuf_read_u16 mb in
              let '(xl, mb) := mbuf_read_u16 mb in
              if (mbuf_get_left mb <? Z.to_nat xl * 4)%nat then (EBADMSG, h csrc xt xl, mb)
              else (0, h csrc xt xl, mbuf_advance mb (Z.to_nat xl * 4))
          else (0, h csrc 0 0, mb)
    end.

(** ** Specification *)

(** The octets of the header on the wire. *)
Definition rtp_hdr_bytes (h : rtp_header) : bytes :=
  [hdr_byte0 h; hdr_byte1 h] ++ be16 (h_seq h) ++ be32 (h_ts h) ++ be32 (h_ssrc h)
  ++ concat (map be32 (take (Z.to_nat (h_cc h)) (h_csrc h))).

#[global] Arguments rtp_hdr_bytes : simpl never.

(** A header the encoder can represent: a version it writes (0 or 2), fields
    within their width, a CSRC list of [cc] entries and no extension. *)
Definition rtp_hdr_wf (h : rtp_header) : Prop :=
  (h_ver h = 0 \/ h_ver h = 2) /\ h_ext h = false
  /\ 0 <= h_cc h < 16 /\ length (h_csrc h) = Z.to_nat (h_cc h)
  /\ Forall (fun v => 0 <= v < 4294967296) (h_csrc h)
  /\ 0 <= h_pt h < 128 /\ 0 <= h_seq h < 65536
  /\ 0 <= h_ts h < 4294967296 /\ 0 <= h_ssrc h < 4294967296
  /\ h_x_type h = 0 /\ h_x_len h = 0.

(** ** Lemmas *)
Lemma encode_csrc_room `{Env} mb c l s :
  mbuf_holds mb c -> (length c + 4 * length l <= mb_size mb)%nat ->
  exists mb', encode_csrc 0 mb l s = ((0, mb'), s)
    /\ mbuf_holds mb' (c ++ concat (map be32 l)) /\ mb_size mb' = mb_size mb.
Proof.
  revert mb c. induction l as [|v l IH]; intros mb c Hh Hr; simpl in *.
  - exists mb. by rewrite app_nil_r.
  - destruct (mbuf_write_room mb c (be32 v) s Hh) as (mb1 & Hw & Hh1 & Hs1);
      [rewrite be32_length; lia|].
    destruct (IH mb1 _ Hh1) as (mb2 & Hw2 & Hh2 & Hs2);
      [rewrite length_app, be32_length; lia|].
    exists mb2. unfold mbind, IO_bind, mbuf_write_u32. rewrite Hw.
    change (Z.lor 0 0) with 0. rewrite Hw2.
    rewrite <- app_assoc in Hh2. split; [done|]. split; [done|congruence].
Qed.

(** Encoding into a buffer with room writes exactly the header's octets and
    asks the environment for nothing. *)
Lemma rtp_hdr_encode_room `{Env} mb c h s :
  mbuf_holds mb c -> (length c + length (rtp_hdr_bytes h) <= mb_size mb)%nat ->
  exists mb', rtp_hdr_encode mb h s = ((0, mb'), s)
    /\ mbuf_holds mb' (c ++ rtp_hdr_bytes h) /\ mb_size mb' = mb_size mb.
Proof.
  intros Hh Hr. unfold rtp_hdr_bytes in Hr. rewrite !length_app, !be16_length, !be32_length in Hr.
  simpl length in Hr. set (l := take _ _) in *.
  assert (length (concat (map be32 l)) = 4 * length l)%nat as Hcl.
  { clear. induction l; simpl in *; lia. }
  unfold rtp_hdr_encode, mbuf_write_u16, mbuf_write_u32, mbind, IO_bind.
  destruct (mbuf_write_room mb c [hdr_byte0 h; hdr_byte1 h] s Hh)
    as (m1 & -> & H1 & S1); [simpl; lia|].
  destruct (mbuf_write_room m1 _ (be16 (h_seq h)) s H1)
    as (m2 & -> & H2 & S2); [rewrite !length_app, ?be16_length; simpl; lia|].
  destruct (mbuf_write_room m2 _ (be32 (h_ts h)) s H2)
    as (m3 & -> & H3 & S3); [rewrite !length_app, ?be16_length, ?be32_length; simpl; lia|].
  destruct (mbuf_write_room m3 _ (be32 (h_ssrc h)) s H3)
    as (m4 & -> & H4 & S4); [rewrite !length_app, ?be16_length, ?be32_length; simpl; lia|].
  destruct (encode_csrc_room m4 _ l s H4)
    as (m5 & H5 & H6 & S5); [rewrite !length_app, ?be16_length, ?be32_length; simpl; lia|].
  exists m5. change (Z.lor (Z.lor (Z.lor 0 0) 0) 0) with 0. fold l. rewrite H5. split; [done|]. split; [|congruence].
  unfold rtp_hdr_bytes. rewrite <- !app_assoc in H6. exact H6.
Qed.

Lemma decode_csrc_app mb l r :
  mbuf_wf mb -> mbuf_buf mb = concat (map be32 l) ++ r ->
  Forall (fun v => 0 <= v < 4294967296) l ->
  exists mb', decode_csrc (length l) mb = (l, mb') /\ mbuf_wf mb' /\ mbuf_buf mb' = r
    /\ mb_pos mb' = (mb_pos mb + 4 * length l)%nat.
Proof.
  revert mb. induction l as [|v l IH]; intros mb Hwf Hb Hl; simpl in *.
  - exists mb. repeat split; [apply Hwf..|done|lia].
  - inversion Hl as [|? ? Hv Hl']; subst.
    destruct (mbuf_read_be_app mb 4 (be32 v) (concat (map be32 l) ++ r))
      as (m1 & Hr & Hw1 & Hb1 & Hp1); [done|done|done|].
    destruct (IH m1 Hw1 Hb1 Hl') as (m2 & Hd & Hw2 & Hb2 & Hp2).
    exists m2. unfold mbuf_read_u32. rewrite Hr, Hd, from_be32, u32_small by done.
    repeat split; [apply Hw2..|done|lia].
Qed.

(** The bits of the first two octets, for every header the encoder can
    represent (checked on all of them). *)
Lemma hdr_byte0_bits h :
  h_ver h = 0 \/ h_ver h = 2 -> h_ext h = false -> 0 <= h_cc h < 16 ->
  let b := hdr_byte0 h in
  Z.land (Z.shiftr b 6) 0x03 = h_ver h /\ Z.testbit b 5 = h_pad h
  /\ Z.testbit b 4 = false /\ Z.land b 0x0f = h_cc h.
Proof.
  intros Hv He Hc. unfold hdr_byte0. rewrite He.
  assert (h_cc h = 0 \/ h_cc h = 1 \/ h_cc h = 2 \/ h_cc h = 3 \/ h_cc h = 4 \/ h_cc h = 5
    \/ h_cc h = 6 \/ h_cc h = 7 \/ h_cc h = 8 \/ h_cc h = 9 \/ h_cc h = 10 \/ h_cc h = 11
    \/ h_cc h = 12 \/ h_cc h = 13 \/ h_cc h = 14 \/ h_cc h = 15) as Hcc by lia.
  destruct (h_pad h), Hv as [-> | ->];
    repeat (destruct Hcc as [-> | Hcc]; [by vm_compute|]); rewrite Hcc; by vm_compute.
Qed.

Lemma hdr_byte1_bits h :
  0 <= h_pt h < 128 ->
  let b := hdr_byte1 h in Z.testbit b 7 = h_m h /\ Z.land b 0x7f = h_pt h.
Proof.
  intros Hp. unfold hdr_byte1.
  assert (Z.land (h_pt h) 0x7f = h_pt h) as Hl.
  { change 0x7f with (Z.ones 7). rewrite Z.land_ones by lia. by apply Z.mod_small. }
  rewrite Hl.
  assert (forall i, 0 <= i -> 7 <= i -> Z.testbit (h_pt h) i = false) as Hhi.
  { intros i Hi Hi7. destruct (Z.eq_dec (h_pt h) 0) as [->|Hne]; [apply Z.bits_0|].
    apply Z.bits_above_log2; [lia|]. apply Z.log2_lt_pow2; [lia|].
    apply Z.lt_le_trans with (2 ^ 7); [lia|]. apply Z.pow_le_mono_r; lia. }
  assert (u8 (Z.lor (Z.shiftl (Zb (h_m h)) 7) (h_pt h))
          = Z.lor (Z.shiftl (Zb (h_m h)) 7) (h_pt h)) as ->.
  { unfold u8. change 256 with (2 ^ 8). rewrite <- Z.land_ones by lia.
    apply Z.bits_inj'. intros i Hi. rewrite Z.land_spec, Z.lor_spec, Z.shiftl_spec by lia.
    destruct (Z.lt_ge_cases i 8).
    - rewrite Z.ones_spec_low by lia. by rewrite andb_true_r.
    - rewrite Z.ones_spec_high by lia. rewrite Hhi by lia. rewrite orb_false_r, andb_false_r.
      destruct (h_m h); simpl Zb; [|by rewrite Z.bits_0].
      symmetry. change 1 with (2 ^ 0). apply Z.pow2_bits_false. lia. }
  split.
  - rewrite Z.lor_spec, Hhi, orb_false_r by lia. by destruct (h_m h).
  - change 0x7f with (Z.ones 7). apply Z.bits_inj'. intros i Hi.
    rewrite Z.land_spec, Z.lor_spec, Z.shiftl_spec by lia.
    destruct (Z.lt_ge_cases i 7).
    + rewrite Z.ones_spec_low by lia. rewrite (Z.testbit_neg_r _ (i - 7)) by lia.
      by rewrite andb_true_r.
    + rewrite Z.ones_spec_high, andb_false_r by lia. by rewrite Hhi.
Qed.

(** Decoding a buffer that starts with the octets of a header. *)
Lemma rtp_hdr_decode_bytes h mb payload :
  rtp_hdr_wf h -> mbuf_wf mb -> mbuf_buf mb = rtp_hdr_bytes h ++ payload ->
  exists mb', rtp_hdr_decode mb = (0, h, mb') /\ mbuf_buf mb' = payload /\ mbuf_wf mb'.
Proof.
  intros (Hv & He & Hcc & Hlen & Hcs & Hpt & Hsq & Hts & Hss & Hxt & Hxl) Hwf Hb.
  unfold rtp_hdr_bytes in Hb. rewrite <- Hlen, take_ge in Hb by lia.
  rewrite <- !app_assoc in Hb.
  pose proof (mbuf_buf_length _ Hwf) as Hl. rewrite Hb in Hl.
  rewrite !length_app, be16_length, !be32_length in Hl. simpl length in Hl.
  unfold rtp_hdr_decode, mbuf_read_u16, mbuf_read_u32, RTP_HEADER_SIZE.
  destruct (mbuf_get_left mb <? 12)%nat eqn:E; bool_hyps; [lia|]. clear E.
  destruct (mbuf_read_mem_app mb 2 _ _ Hwf Hb eq_refl) as (m0 & -> & W0 & B0 & _).
  cbn [nth].
  destruct (hdr_byte0_bits h Hv He Hcc) as (-> & -> & -> & ->).
  destruct (hdr_byte1_bits h Hpt) as (-> & ->).
  destruct (mbuf_read_be_app m0 2 _ _ W0 B0 eq_refl) as (m1 & -> & W1 & B1 & _).
  destruct (mbuf_read_be_app m1 4 _ _ W1 B1 eq_refl) as (m2 & -> & W2 & B2 & _).
  destruct (mbuf_read_be_app m2 4 _ _ W2 B2 eq_refl) as (m3 & -> & W3 & B3 & _).
  rewrite from_be16, !from_be32, u16_small, !u32_small by done.
  rewrite <- Hlen.
  destruct (mbuf_get_left m3 <? length (h_csrc h) * 4)%nat eqn:E; bool_hyps.
  { rewrite <- (mbuf_buf_length _ W3), B3, length_app in E.
    assert (length (concat (map be32 (h_csrc h))) = 4 * length (h_csrc h))%nat.
    { clear. induction (h_csrc h); simpl in *; lia. }
    lia. }
  destruct (decode_csrc_app m3 (h_csrc h) payload W3 B3 Hcs) as (m4 & -> & W4 & B4 & _).
  exists m4. split; [|done]. destruct h; simpl in *. congruence.
Qed.

(** RTP round trip: a header the senders can build (version 2 or 0, no
    extension, up to 15 contributing sources), encoded into a buffer with room
    and followed by a payload, is decoded to the same header, and what is left
    of the buffer is exactly the payload. *)
Theorem rtp_hdr_roundtrip `{Env} (h : rtp_header) (payload : bytes) (mb : mbuf) (s : sys) :
  rtp_hdr_wf h -> mbuf_holds mb [] ->
  (length (rtp_hdr_bytes h) + length payload <= mb_size mb)%nat ->
  exists m1 m2 m3, rtp_hdr_encode mb h s = ((0, m1), s)
    /\ mbuf_write_mem m1 payload s = ((0, m2), s)
    /\ rtp_hdr_decode (mbuf_set_pos m2 0) = (0, h, m3) /\ mbuf_buf m3 = payload.
Proof.
  intros Hh Hm Hr. destruct (rtp_hdr_encode_room mb [] h s Hm) as (m1 & E1 & H1 & S1); [len_lia|].
  destruct (mbuf_write_room m1 _ payload s H1) as (m2 & E2 & H2 & S2); [len_lia|].
  destruct (rtp_hdr_decode_bytes h (mbuf_set_pos m2 0) payload) as (m3 & E3 & B3 & _);
    [done| |by apply mbuf_buf_holds|].
  { destruct H2 as (_ & Hp & He). unfold mbuf_wf, mbuf_set_pos, mb_size in *. cbn. lia. }
  by exists m1, m2, m3.
Qed.

Lemma rtp_hdr_roundtrip_witness :
  let h := RtpHeader 2 false false 1 true 96 65535 4294967295 7 [9] 0 0 in
  exists m2 m3, rtp_hdr_decode (mbuf_set_pos m2 0) = (0, h, m3) /\ mbuf_buf m3 = [1; 2; 3].
Proof.
  cbv zeta.
  destruct (@rtp_hdr_roundtrip good_env (RtpHeader 2 false false 1 true 96 65535 4294967295 7 [9] 0 0)
    [1; 2; 3] (Mbuf (replicate 32 0) 0 0) (Sys 0 [])) as (m1 & m2 & m3 & _ & _ & Hd & Hb).
  - unfold rtp_hdr_wf. cbn. repeat split; solve [lia | by right | repeat constructor; lia].
  - unfold mbuf_holds, mb_size. cbn. repeat split; lia.
  - vm_compute. lia.
  - exists m2, m3. split; [exact Hd|exact Hb].
Defined.
