(* ===== verification/H264.v ===== *)
(** * H.264 over RTP (RFC 6184)

    The packetiser of the intercom, which [session.c] ([send_h264_nalu_rtp])
    and [rtsp_server.c] ([send_h264_nalu_to_client]) both contain, the
    packetiser and header parsers of libre ([src/h264/nal.c]), and a reference
    depacketiser built on those parsers.

    The intercom's packetiser differs between its two copies only in how a
    finished packet is sent; [send_h264_nalu] takes that as a parameter. *)
From S2P Require Import Prelude Sys Fmt Mbuf Rtp.

Definition PT_PCMU : Z := 0.
Definition PT_H264 : Z := 107.
Definition RTP_MTU : nat := 1200.
Definition H264_NALU_FU_A : Z := 28.

(** ** The intercom's packetiser *)
Definition fu_indicator (nal_header : Z) : Z := Z.lor (Z.land nal_header 0xE0) 28.
Definition fu_header (nal_type : Z) (first last_frag : bool) : Z :=
  let h := Z.land nal_type 0x1F in
  let h := if first then Z.lor h 0x80 else h in
  if last_frag then Z.lor h 0x40 else h.

Section Packetizer.
Context `{Env}.
(** how a packet leaves: [udp_send] or [tcp_interleaved_send] *)
Variable send : bytes -> IO Z.
Variables (ts ssrc : Z) (is_last_nalu : bool).

(** The FU-A loop, from [offset] on.  The result is the sequence number
    after the packets sent. *)
Fixpoint fua_loop (fuel : nat) (ind nal_type : Z) (payload : bytes) (offset : nat)
    (first : bool) (seq : Z) : IO Z :=
  match fuel with
  | O => mret seq
  | S fuel' =>
      let payload_len := length payload in
      if (offset <? payload_len)%nat then
        let chunk := Nat.min (payload_len - offset) (RTP_MTU - 2) in
        let last_frag := (payload_len <=? offset + chunk)%nat in
        mbo ← mbuf_alloc (12 + 2 + chunk);
        match mbo with
        | None => mret seq
        | Some mb =>
            '(_, mb) ← rtp_hdr_encode mb
                         (media_hdr (last_frag && is_last_nalu) PT_H264 seq ts ssrc);
            '(_, mb) ← mbuf_write_u8 mb ind;
            '(_, mb) ← mbuf_write_u8 mb (fu_header nal_type first last_frag);
            '(_, mb) ← mbuf_write_mem mb (take chunk (drop offset payload));
            _ ← send (mbuf_buf (mbuf_set_pos mb 0));
            fua_loop fuel' ind nal_type payload (offset + chunk) false (u16 (seq + 1))
        end
      else mret seq
  end.

(** One NAL unit; [seq] is [video_seq] before, the result is after.  Every
    iteration of the loop sends at least one byte, so the length of the
    payload is enough fuel. *)
Definition send_h264_nalu (nalu : bytes) (seq : Z) : IO Z :=
  match nalu with
  | [] => mret seq
  | nal_header :: payload =>
      if (length nalu <=? RTP_MTU)%nat then
        mbo ← mbuf_alloc (12 + length nalu);
        match mbo with
        | None => mret seq
        | Some mb =>
            '(_, mb) ← rtp_hdr_encode mb (media_hdr is_last_nalu PT_H264 seq ts ssrc);
            '(_, mb) ← mbuf_write_mem mb nalu;
            _ ← send (mbuf_buf (mbuf_set_pos mb 0));
            mret (u16 (seq + 1))
        end
      else
        fua_loop (length payload) (fu_indicator nal_header) (Z.land nal_header 0x1F)
          payload 0 true seq
  end.
End Packetizer.

(** ** libre's header parsers and packetiser *)
Record h264_nal_header := NalHeader { nh_f : Z; nh_nri : Z; nh_type : Z }.
Definition h264_nal_header_decode (v : Z) : h264_nal_header :=
  NalHeader (Z.land (Z.shiftr v 7) 1) (Z.land (Z.shiftr v 5) 3) (Z.land v 0x1f).
Definition h264_nal_header_encode (h : h264_nal_header) : Z :=
  u8 (Z.lor (Z.lor (Z.shiftl (nh_f h) 7) (Z.shiftl (nh_nri h) 5)) (nh_type h)).

Record h264_fu := Fu { fu_s : Z; fu_e : Z; fu_r : Z; fu_type : Z }.
Definition h264_fu_hdr_decode (v : Z) : h264_fu :=
  Fu (Z.land (Z.shiftr v 7) 1) (Z.land (Z.shiftr v 6) 1)
     (Z.land (Z.shiftr v 5) 1) (Z.land v 0x1f).
Definition h264_fu_hdr_encode (fu : h264_fu) : Z :=
  u8 (Z.lor (Z.lor (Z.lor (Z.shiftl (fu_s fu) 7) (Z.shiftl (fu_s fu) 6))
                   (Z.shiftl (fu_r fu) 5)) (fu_type fu)).

(** [h264_nal_send]: the (marker, payload) pairs handed to the packet handler.
    [buf] is the NAL unit without its header octet [ihdr]. *)
Fixpoint nal_send_loop (fuel : nat) (h0 h1 : Z) (buf : bytes) (sz : nat) (marker last : bool)
    : list (bool * bytes) :=
  match fuel with
  | O => []
  | S f =>
      if (sz <? length buf)%nat then
        (false, h0 :: h1 :: take sz buf)
        :: nal_send_loop f h0 (Z.land h1 (Z.lnot 0x80)) (drop sz buf) sz marker last
      else
        [(marker && last, h0 :: (if last then Z.lor h1 0x40 else h1) :: buf)]
  end.
Definition h264_nal_send (first last marker : bool) (ihdr : Z) (buf : bytes) (maxsz : nat)
    : list (bool * bytes) :=
  let hdr := u8 ihdr in
  if first && last && (length buf <=? maxsz)%nat then [(marker, hdr :: buf)]
  else
    let type := Z.land hdr 0x1f in
    let nri := Z.land hdr 0x60 in
    nal_send_loop (S (length buf)) (Z.lor nri H264_NALU_FU_A)
      (if first then Z.lor 0x80 type else type) buf (maxsz - 2) marker last.

(** ** Specification of the packetiser *)

(** The FU-A payloads of the rest of a NAL unit. *)
Fixpoint fu_payloads (fuel : nat) (ind nal_type : Z) (first : bool) (rest : bytes) : list bytes :=
  match fuel, rest with
  | S f, _ :: _ =>
      let last_frag := (length rest <=? RTP_MTU - 2)%nat in
      (ind :: fu_header nal_type first last_frag :: take (RTP_MTU - 2) rest)
      :: fu_payloads f ind nal_type false (drop (RTP_MTU - 2) rest)
  | _, _ => []
  end.

(** The RTP payloads of a NAL unit. *)
Definition nalu_payloads (nalu : bytes) : list bytes :=
  match nalu with
  | [] => []
  | h :: payload =>
      if (length nalu <=? RTP_MTU)%nat then [nalu]
      else fu_payloads (length payload) (fu_indicator h) (Z.land h 0x1F) true payload
  end.

(** The packets: consecutive sequence numbers from [seq] on, one timestamp,
    the marker bit on the last packet of the last NAL unit only. *)
Fixpoint video_packets (seq ts ssrc : Z) (is_last : bool) (ps : list bytes) : list bytes :=
  match ps with
  | [] => []
  | p :: t =>
      let m := is_last && match t with [] => true | _ => false end in
      (rtp_hdr_bytes (media_hdr m PT_H264 seq ts ssrc) ++ p)
      :: video_packets (u16 (seq + 1)) ts ssrc is_last t
  end.

(** A reference receiver (RFC 6184): the NAL unit a sequence of payloads
    carries.  [fua_data] checks that the fragments continue one NAL unit and
    that exactly the last one has the end bit. *)
Fixpoint fua_data (type : Z) (ps : list bytes) : option bytes :=
  match ps with
  | (ind :: hdr :: d) :: t =>
      let fu := h264_fu_hdr_decode hdr in
      if (Z.land ind 0x1f =? 28) && (fu_s fu =? 0) && (fu_type fu =? type) then
        if fu_e fu =? 1 then match t with [] => Some d | _ => None end
        else (fun r => d ++ r) <$> fua_data type t
      else None
  | _ => None
  end.

Definition depacketize (ps : list bytes) : option bytes :=
  match ps with
  | [(ind :: _) as p] => if Z.land ind 0x1f =? 28 then None else Some p
  | (ind :: hdr :: d) :: t =>
      let fu := h264_fu_hdr_decode hdr in
      if (Z.land ind 0x1f =? 28) && (fu_s fu =? 1) && (fu_e fu =? 0) then
        (fun r => Z.lor (Z.land ind 0xe0) (fu_type fu) :: d ++ r) <$> fua_data (fu_type fu) t
      else None
  | _ => None
  end.

(** Header octets are bytes, so nothing is lost when they are written. *)
Lemma fu_indicator_byte h : is_byte h -> is_byte (fu_indicator h).
Proof.
  intros Hh. apply is_byteb_spec.
  apply (byte_check (fun h => is_byteb (fu_indicator h))); [by vm_compute|done].
Qed.

Lemma fu_header_byte t first last : 0 <= t < 32 -> is_byte (fu_header t first last).
Proof.
  intros Ht. apply is_byteb_spec.
  apply (range_check 32 (fun t => is_byteb (fu_header t first last))); [|done].
  destruct first, last; by vm_compute.
Qed.

Lemma nal_type_range h : is_byte h -> 0 <= Z.land h 0x1F < 32.
Proof.
  intros Hh.
  pose proof (byte_check (fun h => (0 <=? Z.land h 0x1F) && (Z.land h 0x1F <? 32))
    ltac:(by vm_compute) h Hh) as H. cbv beta in H. bool_hyps. lia.
Qed.

(** A buffer of exactly the packet's size receives the packet: no write fails
    and nothing is asked of the environment. *)
Lemma build_single `{Env} mb h nalu s :
  mbuf_holds mb [] -> mb_size mb = (12 + length nalu)%nat ->
  length (rtp_hdr_bytes h) = 12%nat ->
  exists m1 m2, rtp_hdr_encode mb h s = ((0, m1), s)
    /\ mbuf_write_mem m1 nalu s = ((0, m2), s)
    /\ mbuf_buf (mbuf_set_pos m2 0) = rtp_hdr_bytes h ++ nalu.
Proof.
  intros Hh Hs Hl.
  destruct (rtp_hdr_encode_room mb [] h s Hh) as (m1 & E1 & H1 & S1); [len_lia|].
  destruct (mbuf_write_room m1 _ nalu s H1) as (m2 & E2 & H2 & S2); [len_lia|].
  exists m1, m2. repeat split; [done..|]. by apply mbuf_buf_holds.
Qed.

Lemma build_fragment `{Env} mb h a b d s :
  mbuf_holds mb [] -> mb_size mb = (12 + 2 + length d)%nat ->
  length (rtp_hdr_bytes h) = 12%nat -> is_byte a -> is_byte b ->
  exists m1 m2 m3 m4, rtp_hdr_encode mb h s = ((0, m1), s)
    /\ mbuf_write_u8 m1 a s = ((0, m2), s) /\ mbuf_write_u8 m2 b s = ((0, m3), s)
    /\ mbuf_write_mem m3 d s = ((0, m4), s)
    /\ mbuf_buf (mbuf_set_pos m4 0) = rtp_hdr_bytes h ++ a :: b :: d.
Proof.
  intros Hh Hs Hl Ha Hb.
  destruct (rtp_hdr_encode_room mb [] h s Hh) as (m1 & E1 & H1 & S1); [len_lia|].
  destruct (mbuf_write_room m1 _ [u8 a] s H1) as (m2 & E2 & H2 & S2); [len_lia|].
  destruct (mbuf_write_room m2 _ [u8 b] s H2) as (m3 & E3 & H3 & S3);
    [len_lia|].
  destruct (mbuf_write_room m3 _ d s H3) as (m4 & E4 & H4 & S4);
    [len_lia|].
  exists m1, m2, m3, m4. repeat split; [done..|].
  rewrite (mbuf_buf_holds _ _ H4), !u8_small by done.
  by rewrite app_nil_l, <- !app_assoc.
Qed.

(** The piece of the payload one iteration of the loop takes. *)
Lemma fu_chunk (payload : bytes) (offset : nat) :
  (offset < length payload)%nat ->
  let chunk := Nat.min (length payload - offset) (RTP_MTU - 2) in
  (0 < chunk)%nat /\ length (take chunk (drop offset payload)) = chunk
  /\ take chunk (drop offset payload) = take (RTP_MTU - 2) (drop offset payload)
  /\ (length payload <=? offset + chunk)%nat
     = (length (drop offset payload) <=? RTP_MTU - 2)%nat
  /\ drop (offset + chunk) payload = drop (RTP_MTU - 2) (drop offset payload).
Proof.
  intros Ho. cbv zeta. change (RTP_MTU - 2)%nat with 1198%nat. repeat split.
  - lia.
  - len_lia.
  - destruct (Nat.le_gt_cases (length payload - offset) 1198) as [Hle|Hgt].
    + rewrite Nat.min_l by done. by rewrite !take_ge by len_lia.
    + by rewrite Nat.min_r by lia.
  - apply eq_true_iff_eq. rewrite !Nat.leb_le, length_drop. lia.
  - rewrite drop_drop.
    destruct (Nat.le_gt_cases (length payload - offset) 1198) as [Hle|Hgt].
    + rewrite Nat.min_l by done. by rewrite !drop_ge by lia.
    + by rewrite Nat.min_r by lia.
Qed.

Lemma fu_payloads_step fuel ind ty first rest :
  (0 < length rest)%nat ->
  fu_payloads (S fuel) ind ty first rest =
  (ind :: fu_header ty first (length rest <=? RTP_MTU - 2)%nat :: take (RTP_MTU - 2) rest)
  :: fu_payloads fuel ind ty false (drop (RTP_MTU - 2) rest).
Proof. destruct rest; [simpl; lia|done]. Qed.

(** The fragment that reaches the end is the last one. *)
Lemma fu_payloads_last fuel ind ty rest :
  (length rest <= S fuel)%nat ->
  match fu_payloads fuel ind ty false (drop (RTP_MTU - 2) rest) with
  | [] => true | _ :: _ => false end = (length rest <=? RTP_MTU - 2)%nat.
Proof.
  assert (RTP_MTU - 2 = 1198)%nat as HM by done.
  intros Hf. destruct (length rest <=? RTP_MTU - 2)%nat eqn:E; bool_hyps.
  - rewrite drop_ge by done. by destruct fuel.
  - destruct fuel as [|fuel]; [lia|].
    rewrite fu_payloads_step; [done|]. rewrite length_drop. lia.
Qed.

Section PacketizerSpec.
Context `{E : Env}.
Variable send : bytes -> IO Z.
Variables (ts ssrc : Z) (is_last_nalu : bool).
(** what one send adds to the trace *)
Variable ev : bytes -> list event.
Hypothesis send_ev : forall d s, out (snd (send d s)) = out s ++ ev d.

(** The statement common to the loop and the whole function: the packets
    sent are a prefix of [ps], all of it when no allocation fails. *)
Definition sends_prefix (m : IO Z) (seq : Z) (ps : list bytes) (s : sys) : Prop :=
  exists k, fst (m s) = u16 (seq + Z.of_nat k) /\ (k <= length ps)%nat
    /\ out (snd (m s)) = out s ++ concat (map ev (take k ps))
    /\ (AllocOk E -> k = length ps).

Lemma sends_prefix_nil seq ps s :
  0 <= seq < 65536 -> (AllocOk E -> ps = []) -> sends_prefix (mret seq) seq ps s.
Proof.
  intros Hs Hp. exists 0%nat. simpl. rewrite Z.add_0_r, u16_small, app_nil_r by done.
  repeat split; [lia|]. intros A. by rewrite (Hp A).
Qed.

Lemma mbuf_alloc_None n s s' : mbuf_alloc n s = (None, s') -> ~ AllocOk E.
Proof.
  intros H A. unfold mbuf_alloc, mbuf_resize, mbind, IO_bind, ask in H. simpl in H.
  pose proof (A (tick s)) as A1. pose proof (A (S (tick s))) as A2.
  destruct (Z.eqb_spec (env QAlloc (tick s)) 0); [done|]. simpl in H.
  destruct (Z.eqb_spec (env QAlloc (S (tick s))) 0); [done|].
  injection H. done.
Qed.

Lemma mbuf_alloc_cases n s :
  (0 < n)%nat ->
  exists s', out s' = out s /\
    ((mbuf_alloc n s = (None, s') /\ ~ AllocOk E)
     \/ exists mb, mbuf_alloc n s = (Some mb, s') /\ mbuf_holds mb [] /\ mb_size mb = n).
Proof.
  intros Hn. pose proof (mbuf_alloc_spec n s) as H. unfold iwp in H.
  destruct (mbuf_alloc n s) as [[mb|] s'] eqn:Ha; exists s'; destruct H as [Ho H].
  - split; [done|right]. exists mb. destruct H as [Hh Hs].
    destruct (n =? 0)%nat eqn:En; bool_hyps; [lia|done].
  - split; [done|left]. split; [done|]. by eapply mbuf_alloc_None.
Qed.

(** A packet is built and sent, then the rest of the packets. *)
Lemma sends_prefix_cons (rest : Z -> IO Z) seq p ps s :
  (forall s', sends_prefix (rest (u16 (seq + 1))) (u16 (seq + 1)) ps s') ->
  sends_prefix (_ ← send p; rest (u16 (seq + 1))) seq (p :: ps) s.
Proof.
  intros IH. unfold sends_prefix, mbind, IO_bind.
  pose proof (send_ev p s) as Hp. destruct (send p s) as [e s1]. simpl in Hp.
  destruct (IH s1) as (k & Hseq & Hk & Ho & Hall). exists (S k).
  rewrite Hseq, Ho, Hp. simpl. repeat split.
  - rewrite u16_add_u16. f_equal. lia.
  - lia.
  - by rewrite <- app_assoc.
  - intros A. by rewrite (Hall A).
Qed.

Lemma fua_loop_sends fuel ind ty payload offset first seq s :
  is_byte ind -> 0 <= ty < 32 -> 0 <= seq < 65536 ->
  (length payload - offset <= fuel)%nat ->
  sends_prefix (fua_loop send ts ssrc is_last_nalu fuel ind ty payload offset first seq) seq
    (video_packets seq ts ssrc is_last_nalu
       (fu_payloads fuel ind ty first (drop offset payload))) s.
Proof.
  intros Hi Ht. revert offset first seq s.
  induction fuel as [|fuel IH]; intros offset first seq s Hseq Hfuel.
  { by apply sends_prefix_nil. }
  cbn [fua_loop]. destruct (offset <? length payload)%nat eqn:El; bool_hyps.
  2:{ apply sends_prefix_nil; [done|]. by rewrite drop_ge by lia. }
  destruct (fu_chunk payload offset El) as (Hc0 & Hcl & Htk & Hlast & Hdr).
  set (chunk := Nat.min _ _) in *. rewrite Hlast. clear Hlast.
  rewrite (fu_payloads_step fuel) by len_lia.
  destruct (mbuf_alloc_cases (12 + 2 + chunk) s) as (s1 & Ho & [[Ha Hn]|(mb & Ha & Hh & Hsz)]);
    [lia|..]; unfold sends_prefix, mbind, IO_bind; rewrite Ha.
  { exists 0%nat. simpl. rewrite Z.add_0_r, u16_small, app_nil_r by done.
    repeat split; [lia|done|done]. }
  set (last := (length (drop offset payload) <=? RTP_MTU - 2)%nat).
  destruct (build_fragment mb (media_hdr (last && is_last_nalu) PT_H264 seq ts ssrc) ind
    (fu_header ty first last) (take chunk (drop offset payload)) s1 Hh)
    as (m1 & m2 & m3 & m4 & -> & -> & -> & -> & ->);
    [by rewrite Hsz, Hcl|done|done|by apply fu_header_byte|].
  rewrite Htk, <- Ho. cbn [video_packets].
  rewrite fu_payloads_last by len_lia. fold last. rewrite (andb_comm is_last_nalu last).
  apply (sends_prefix_cons (fua_loop send ts ssrc is_last_nalu fuel ind ty payload
    (offset + chunk) false) seq _ _ s1).
  intros s'. rewrite <- Hdr. apply IH; [apply u16_range|lia].
Qed.

Lemma send_h264_nalu_sends nalu seq s :
  Forall is_byte nalu -> 0 <= seq < 65536 ->
  sends_prefix (send_h264_nalu send ts ssrc is_last_nalu nalu seq) seq
    (video_packets seq ts ssrc is_last_nalu (nalu_payloads nalu)) s.
Proof.
  intros Hb Hseq. destruct nalu as [|h payload]; [by apply sends_prefix_nil|].
  inversion Hb as [|? ? Hh Hp]; subst.
  unfold send_h264_nalu, nalu_payloads.
  destruct (length (h :: payload) <=? RTP_MTU)%nat eqn:El.
  - destruct (mbuf_alloc_cases (12 + length (h :: payload)) s)
      as (s1 & Ho & [[Ha Hn]|(mb & Ha & Hm & Hsz)]);
      [lia|..]; unfold sends_prefix, mbind, IO_bind; rewrite Ha.
    { exists 0%nat. simpl. rewrite Z.add_0_r, u16_small, app_nil_r by done.
      repeat split; [lia|done|done]. }
    destruct (build_single mb (media_hdr is_last_nalu PT_H264 seq ts ssrc) (h :: payload) s1 Hm)
      as (m1 & m2 & -> & -> & ->); [done|done|].
    rewrite <- Ho. cbn [video_packets]. rewrite andb_true_r.
    apply (sends_prefix_cons (fun q => mret q) seq _ [] s1).
    intros s'. apply sends_prefix_nil; [apply u16_range|done].
  - rewrite <- (drop_0 payload) at 4. apply fua_loop_sends; [|by apply nal_type_range|done|lia].
    by apply fu_indicator_byte.
Qed.
End PacketizerSpec.

(** ** Properties of the packets *)

Lemma fu_header_bits t first last :
  0 <= t < 32 ->
  h264_fu_hdr_decode (fu_header t first last) = Fu (Zb first) (Zb last) 0 t.
Proof.
  intros Ht.
  pose proof (range_check 32 (fun t =>
    let f := h264_fu_hdr_decode (fu_header t first last) in
    (fu_s f =? Zb first) && (fu_e f =? Zb last) && (fu_r f =? 0) && (fu_type f =? t))) as H.
  destruct (h264_fu_hdr_decode (fu_header t first last)) eqn:E.
  specialize (H ltac:(destruct first, last; by vm_compute) t Ht). cbv beta zeta in H.
  rewrite E in H. simpl in H. bool_hyps. congruence.
Qed.

Lemma fu_indicator_bits h :
  is_byte h ->
  Z.land (fu_indicator h) 0x1f = 28
  /\ Z.lor (Z.land (fu_indicator h) 0xe0) (Z.land h 0x1f) = h.
Proof.
  intros Hh.
  pose proof (byte_check (fun h => (Z.land (fu_indicator h) 0x1f =? 28)
    && (Z.lor (Z.land (fu_indicator h) 0xe0) (Z.land h 0x1f) =? h))
    ltac:(by vm_compute) h Hh) as H. cbv beta in H. bool_hyps. done.
Qed.

(** The continuation fragments carry the rest of the payload. *)
Lemma fua_data_payloads fuel ind ty rest :
  Z.land ind 0x1f = 28 -> 0 <= ty < 32 -> (0 < length rest <= fuel)%nat ->
  fua_data ty (fu_payloads fuel ind ty false rest) = Some rest.
Proof.
  intros Hi Ht. revert rest. induction fuel as [|fuel IH]; intros rest [Hr Hf]; [lia|].
  rewrite fu_payloads_step by done. cbn [fua_data].
  rewrite fu_header_bits by done. cbn [fu_s fu_e fu_type Zb].
  rewrite Hi, !Z.eqb_refl. cbn [andb].
  destruct (length rest <=? RTP_MTU - 2)%nat eqn:E; bool_hyps.
  - rewrite drop_ge by done. rewrite take_ge by done. by destruct fuel.
  - rewrite IH.
    + cbn. by rewrite take_drop.
    + change (RTP_MTU - 2)%nat with 1198%nat in *. len_lia.
Qed.

Lemma fu_payloads_two fuel ind ty first rest :
  (RTP_MTU - 2 < length rest <= fuel)%nat ->
  exists a b c t, fu_payloads fuel ind ty first rest = a :: b :: t
    /\ a = ind :: fu_header ty first false :: c /\ c = take (RTP_MTU - 2) rest
    /\ b :: t = fu_payloads (fuel - 1) ind ty false (drop (RTP_MTU - 2) rest).
Proof.
  change (RTP_MTU - 2)%nat with 1198%nat. intros [Hl Hf].
  destruct fuel as [|[|fuel]]; [lia..|].
  rewrite (fu_payloads_step (S fuel)) by lia. change (RTP_MTU - 2)%nat with 1198%nat.
  destruct (length rest <=? 1198)%nat eqn:E; bool_hyps; [lia|].
  cbn [Nat.sub]. rewrite (fu_payloads_step fuel) by len_lia.
  do 4 eexists. repeat split.
Qed.

Lemma depacketize_payloads h payload :
  is_byte h -> 1 <= Z.land h 0x1f <= 23 ->
  depacketize (nalu_payloads (h :: payload)) = Some (h :: payload).
Proof.
  intros Hh Ht. unfold nalu_payloads.
  destruct (length (h :: payload) <=? RTP_MTU)%nat eqn:El; bool_hyps.
  - cbn [depacketize]. destruct (Z.eqb_spec (Z.land h 0x1f) 28); [lia|]. by destruct payload.
  - destruct (fu_payloads_two (length payload) (fu_indicator h) (Z.land h 0x1f) true payload)
      as (a & b & c & t & -> & -> & -> & Hbt).
    { cbn [length] in El. change (RTP_MTU - 2)%nat with 1198%nat.
      unfold RTP_MTU in El. lia. }
    destruct (fu_indicator_bits h Hh) as [Hi1 Hi2].
    unfold depacketize. rewrite fu_header_bits by (by apply nal_type_range).
    cbn [fu_s fu_e fu_type Zb]. rewrite Hi1, !Z.eqb_refl. cbn [andb].
    rewrite Hbt, fua_data_payloads.
    + cbn. by rewrite Hi2, take_drop.
    + done.
    + by apply nal_type_range.
    + cbn [length] in El. change (RTP_MTU - 2)%nat with 1198%nat in *.
      unfold RTP_MTU in El. len_lia.
Qed.

Lemma fu_payloads_mtu fuel ind ty first rest :
  Forall (fun p => (length p <= RTP_MTU)%nat) (fu_payloads fuel ind ty first rest).
Proof.
  revert first rest. induction fuel as [|fuel IH]; intros first rest; [constructor|].
  destruct rest as [|b rest]; [constructor|].
  rewrite fu_payloads_step by (cbn; lia). constructor; [|apply IH].
  cbn [length]. rewrite length_take. change (RTP_MTU - 2)%nat with 1198%nat.
  unfold RTP_MTU. lia.
Qed.

Lemma nalu_payloads_mtu nalu : Forall (fun p => (length p <= RTP_MTU)%nat) (nalu_payloads nalu).
Proof.
  destruct nalu as [|h payload]; [constructor|]. unfold nalu_payloads.
  destruct (length (h :: payload) <=? RTP_MTU)%nat eqn:E; bool_hyps.
  - constructor; [done|constructor].
  - apply fu_payloads_mtu.
Qed.

Lemma video_packets_payloads seq ts ssrc is_last ps :
  map (drop RTP_HEADER_SIZE) (video_packets seq ts ssrc is_last ps) = ps.
Proof.
  revert seq. induction ps as [|p ps IH]; intros seq; [done|]. cbn [video_packets map].
  rewrite IH. f_equal.
Qed.

(** libre's way of stepping the FU header octet. *)
Lemma fu_header_step ty first :
  0 <= ty < 32 ->
  Z.land (fu_header ty first false) (Z.lnot 0x80) = fu_header ty false false
  /\ Z.lor (fu_header ty first false) 0x40 = fu_header ty first true
  /\ Z.lor 0x80 ty = fu_header ty true false.
Proof.
  intros Ht.
  pose proof (range_check 32 (fun ty =>
    (Z.land (fu_header ty first false) (Z.lnot 0x80) =? fu_header ty false false)
    && (Z.lor (fu_header ty first false) 0x40 =? fu_header ty first true)
    && (Z.lor 0x80 ty =? fu_header ty true false))
    ltac:(destruct first; by vm_compute) ty Ht) as H.
  cbv beta in H. bool_hyps. done.
Qed.

(** The marker goes with the last payload. *)
Fixpoint mark (marker : bool) (ps : list bytes) : list (bool * bytes) :=
  match ps with
  | [] => []
  | p :: t => (marker && match t with [] => true | _ => false end, p) :: mark marker t
  end.

Lemma nal_send_loop_payloads f1 f2 ind ty first buf marker :
  0 <= ty < 32 -> (0 < length buf < f1)%nat -> (length buf <= f2)%nat ->
  nal_send_loop f1 ind (fu_header ty first false) buf (RTP_MTU - 2) marker true
  = mark marker (fu_payloads f2 ind ty first buf).
Proof.
  intros Ht. revert f2 first buf.
  induction f1 as [|f1 IH]; intros f2 first buf [Hb Hf1] Hf2; [lia|].
  destruct f2 as [|f2]; [lia|].
  rewrite fu_payloads_step by done. cbn [nal_send_loop mark].
  rewrite fu_payloads_last by lia.
  destruct (fu_header_step ty first Ht) as (Hc & Hl & _).
  destruct (length buf <=? RTP_MTU - 2)%nat eqn:E; bool_hyps.
  - destruct (RTP_MTU - 2 <? length buf)%nat eqn:E2; bool_hyps; [lia|].
    rewrite Hl, drop_ge, take_ge by done. by destruct f2.
  - destruct (RTP_MTU - 2 <? length buf)%nat eqn:E2; bool_hyps; [|lia].
    rewrite Hc, (IH f2); [by rewrite andb_false_r|..];
      change (RTP_MTU - 2)%nat with 1198%nat in *; len_lia.
Qed.

Lemma fu_indicator_nri h :
  0 <= h < 128 -> Z.lor (Z.land (u8 h) 0x60) H264_NALU_FU_A = fu_indicator h.
Proof.
  intros Hh. apply Z.eqb_eq.
  apply (range_check 128 (fun h => Z.lor (Z.land (u8 h) 0x60) H264_NALU_FU_A =? fu_indicator h));
    [by vm_compute|done].
Qed.

(** ** Theorems *)

(** C6. Round trip: what the packetiser sends of an H.264 NAL unit (types 1 to
    23) through any transport, whatever the unit's length, is a sequence of RTP
    packets from whose payloads a receiver following RFC 6184 recovers exactly
    that unit, so fragmentation loses, duplicates and reorders nothing; and no
    payload exceeds [RTP_MTU]. *)
Theorem send_h264_nalu_roundtrip `{E : Env} (send : bytes -> IO Z) (ev : bytes -> list event)
    (ts ssrc : Z) (is_last : bool) (h : Z) (payload : bytes) (seq : Z) (s : sys) :
  (forall d s, out (snd (send d s)) = out s ++ ev d) -> AllocOk E ->
  Forall is_byte (h :: payload) -> 1 <= Z.land h 0x1f <= 23 -> 0 <= seq < 65536 ->
  exists pkts, out (snd (send_h264_nalu send ts ssrc is_last (h :: payload) seq s))
               = out s ++ concat (map ev pkts)
    /\ depacketize (map (drop RTP_HEADER_SIZE) pkts) = Some (h :: payload)
    /\ Forall (fun p => (length p <= RTP_HEADER_SIZE + RTP_MTU)%nat) pkts.
Proof.
  intros Hsend Ha Hb Ht Hseq.
  destruct (send_h264_nalu_sends send ts ssrc is_last ev Hsend (h :: payload) seq s Hb Hseq)
    as (k & _ & _ & Ho & Hall).
  set (pkts := video_packets seq ts ssrc is_last (nalu_payloads (h :: payload))) in *.
  exists pkts. rewrite Ho, (Hall Ha), firstn_all. split; [done|]. split.
  - unfold pkts. rewrite video_packets_payloads. apply depacketize_payloads; [by inversion Hb|done].
  - pose proof (nalu_payloads_mtu (h :: payload)) as Hm.
    rewrite <- (video_packets_payloads seq ts ssrc is_last) in Hm. fold pkts in Hm.
    rewrite Forall_map in Hm. apply (list.Forall_impl _ _ _ Hm). intros p Hp. cbv beta in Hp.
    rewrite length_drop in Hp. lia.
Qed.

Lemma send_h264_nalu_roundtrip_witness :
  let send := fun d => (emit (UdpSend 1 sa_zero d) ;; mret 0) : IO Z in
  let nalu := 0x65 :: replicate 3000 7 in
  exists pkts, out (snd (@send_h264_nalu good_env send 9000 5 true nalu 65535 (Sys 0 [])))
               = concat (map (fun d => [UdpSend 1 sa_zero d]) pkts)
    /\ depacketize (map (drop RTP_HEADER_SIZE) pkts) = Some nalu.
Proof.
  destruct (@send_h264_nalu_roundtrip good_env (fun d => (emit (UdpSend 1 sa_zero d) ;; mret 0))
    (fun d => [UdpSend 1 sa_zero d]) 9000 5 true 0x65 (replicate 3000 7) 65535 (Sys 0 []))
    as (pkts & H1 & H2 & _).
  - reflexivity.
  - exact good_env_alloc.
  - constructor; [unfold is_byte; lia|]. apply Forall_replicate. unfold is_byte. lia.
  - vm_compute. split; congruence.
  - lia.
  - exists pkts. split; [exact H1|exact H2].
Defined.

(** C7. Functional correctness of the packetiser: for any transport [send] whose
    effect per packet is [ev], the packets handed to it are a prefix of the
    specified sequence (consecutive sequence numbers modulo 2^16, one
    timestamp, marker on the last packet only if this is the frame's last NAL
    unit), the sequence number advances by exactly the number of packets sent,
    and the prefix is the whole sequence when memory allocation succeeds. *)
Theorem send_h264_nalu_correct `{E : Env} (send : bytes -> IO Z) (ev : bytes -> list event)
    (ts ssrc : Z) (is_last : bool) (nalu : bytes) (seq : Z) (s : sys) :
  (forall d s, out (snd (send d s)) = out s ++ ev d) ->
  Forall is_byte nalu -> 0 <= seq < 65536 ->
  let pkts := video_packets seq ts ssrc is_last (nalu_payloads nalu) in
  exists k, fst (send_h264_nalu send ts ssrc is_last nalu seq s) = u16 (seq + Z.of_nat k)
    /\ (k <= length pkts)%nat
    /\ out (snd (send_h264_nalu send ts ssrc is_last nalu seq s))
       = out s ++ concat (map ev (take k pkts))
    /\ (AllocOk E -> k = length pkts).
Proof. intros Hev Hb Hs. by apply send_h264_nalu_sends. Qed.

Lemma send_h264_nalu_correct_witness :
  let send := fun d => (emit (UdpSend 1 sa_zero d) ;; mret 0) : IO Z in
  exists k, fst (@send_h264_nalu good_env send 90 7 true (0x65 :: replicate 1500 1) 65535
                   (Sys 0 [])) = u16 (65535 + Z.of_nat k) /\ k = 2%nat.
Proof.
  destruct (@send_h264_nalu_correct good_env
    (fun d => (emit (UdpSend 1 sa_zero d) ;; mret 0))
    (fun d => [UdpSend 1 sa_zero d]) 90 7 true (0x65 :: replicate 1500 1) 65535 (Sys 0 []))
    as (k & Hk & _ & _ & Hall).
  - reflexivity.
  - constructor; [unfold is_byte; lia|]. apply Forall_replicate. unfold is_byte. lia.
  - lia.
  - exists k. split; [exact Hk|]. rewrite (Hall good_env_alloc). vm_compute. reflexivity.
Defined.

(** The intercom's packetiser and libre's [h264_nal_send] agree: same
    payloads, same marker, for every NAL unit whose forbidden bit is clear and
    whose length is not 1201, the one length libre still sends in a single
    packet (its limit does not count the NAL header octet). *)
Theorem nalu_payloads_libre (h : Z) (payload : bytes) (marker : bool) :
  0 <= h < 128 -> length (h :: payload) <> S RTP_MTU ->
  h264_nal_send true true marker h payload RTP_MTU = mark marker (nalu_payloads (h :: payload)).
Proof.
  intros Hh Hne. unfold h264_nal_send, nalu_payloads. cbn [andb length] in *.
  destruct (length payload <=? RTP_MTU)%nat eqn:E; bool_hyps;
    destruct (S (length payload) <=? RTP_MTU)%nat eqn:E2; bool_hyps; try lia.
  - cbn. rewrite andb_true_r, u8_small by lia. done.
  - pose proof (nal_type_range h ltac:(unfold is_byte; lia)) as Ht.
    rewrite fu_indicator_nri by done. rewrite u8_small by lia.
    destruct (fu_header_step _ true Ht) as (_ & _ & ->).
    apply nal_send_loop_payloads; [done|unfold RTP_MTU in *; lia|lia].
Qed.

Lemma nalu_payloads_libre_witness :
  h264_nal_send true true true 0x41 (replicate 2500 9) RTP_MTU
  = mark true (nalu_payloads (0x41 :: replicate 2500 9)).
Proof. apply nalu_payloads_libre; [lia|]. rewrite len_cons, length_replicate.
  unfold RTP_MTU. lia.
Defined.
