(* ===== verification/G711.v ===== *)
(** * G.711 mu-law

    The tables and the encoder of libre ([rem/g711/g711.c],
    [include/rem_g711.h]) and the decoder of the intercom's audio output
    ([audio_out_win.c]).  The 4096-entry table is transcribed in four parts of
    128 source lines. *)
From S2P Require Import Prelude.

(** ** Tables *)
Definition g711_l2u_0 : list Z := [
   254; 253; 252; 251; 250; 249; 248; 247; 246; 245; 244; 243; 242; 241; 240; 239;
   239; 238; 238; 237; 237; 236; 236; 235; 235; 234; 234; 233; 233; 232; 232; 231;
   231; 230; 230; 229; 229; 228; 228; 227; 227; 226; 226; 225; 225; 224; 224; 223;
   223; 223; 223; 222; 222; 222; 222; 221; 221; 221; 221; 220; 220; 220; 220; 219;
   219; 219; 219; 218; 218; 218; 218; 217; 217; 217; 217; 216; 216; 216; 216; 215;
   215; 215; 215; 214; 214; 214; 214; 213; 213; 213; 213; 212; 212; 212; 212; 211;
   211; 211; 211; 210; 210; 210; 210; 209; 209; 209; 209; 208; 208; 208; 208; 207;
   207; 207; 207; 207; 207; 207; 207; 206; 206; 206; 206; 206; 206; 206; 206; 205;
   205; 205; 205; 205; 205; 205; 205; 204; 204; 204; 204; 204; 204; 204; 204; 203;
   203; 203; 203; 203; 203; 203; 203; 202; 202; 202; 202; 202; 202; 202; 202; 201;
   201; 201; 201; 201; 201; 201; 201; 200; 200; 200; 200; 200; 200; 200; 200; 199;
   199; 199; 199; 199; 199; 199; 199; 198; 198; 198; 198; 198; 198; 198; 198; 197;
   197; 197; 197; 197; 197; 197; 197; 196; 196; 196; 196; 196; 196; 196; 196; 195;
   195; 195; 195; 195; 195; 195; 195; 194; 194; 194; 194; 194; 194; 194; 194; 193;
   193; 193; 193; 193; 193; 193; 193; 192; 192; 192; 192; 192; 192; 192; 192; 191;
   191; 191; 191; 191; 191; 191; 191; 191; 191; 191; 191; 191; 191; 191; 191; 190;
   190; 190; 190; 190; 190; 190; 190; 190; 190; 190; 190; 190; 190; 190; 190; 189;
   189; 189; 189; 189; 189; 189; 189; 189; 189; 189; 189; 189; 189; 189; 189; 188;
   188; 188; 188; 188; 188; 188; 188; 188; 188; 188; 188; 188; 188; 188; 188; 187;
   187; 187; 187; 187; 187; 187; 187; 187; 187; 187; 187; 187; 187; 187; 187; 186;
   186; 186; 186; 186; 186; 186; 186; 186; 186; 186; 186; 186; 186; 186; 186; 185;
   185; 185; 185; 185; 185; 185; 185; 185; 185; 185; 185; 185; 185; 185; 185; 184;
   184; 184; 184; 184; 184; 184; 184; 184; 184; 184; 184; 184; 184; 184; 184; 183;
   183; 183; 183; 183; 183; 183; 183; 183; 183; 183; 183; 183; 183; 183; 183; 182;
   182; 182; 182; 182; 182; 182; 182; 182; 182; 182; 182; 182; 182; 182; 182; 181;
   181; 181; 181; 181; 181; 181; 181; 181; 181; 181; 181; 181; 181; 181; 181; 180;
   180; 180; 180; 180; 180; 180; 180; 180; 180; 180; 180; 180; 180; 180; 180; 179;
   179; 179; 179; 179; 179; 179; 179; 179; 179; 179; 179; 179; 179; 179; 179; 178;
   178; 178; 178; 178; 178; 178; 178; 178; 178; 178; 178; 178; 178; 178; 178; 177;
   177; 177; 177; 177; 177; 177; 177; 177; 177; 177; 177; 177; 177; 177; 177; 176;
   176; 176; 176; 176; 176; 176; 176; 176; 176; 176; 176; 176; 176; 176; 176; 175;
   175; 175; 175; 175; 175; 175; 175; 175; 175; 175; 175; 175; 175; 175; 175; 175;
   175; 175; 175; 175; 175; 175; 175; 175; 175; 175; 175; 175; 175; 175; 175; 174;
   174; 174; 174; 174; 174; 174; 174; 174; 174; 174; 174; 174; 174; 174; 174; 174;
   174; 174; 174; 174; 174; 174; 174; 174; 174; 174; 174; 174; 174; 174; 174; 173;
   173; 173; 173; 173; 173; 173; 173; 173; 173; 173; 173; 173; 173; 173; 173; 173;
   173; 173; 173; 173; 173; 173; 173; 173; 173; 173; 173; 173; 173; 173; 173; 172;
   172; 172; 172; 172; 172; 172; 172; 172; 172; 172; 172; 172; 172; 172; 172; 172;
   172; 172; 172; 172; 172; 172; 172; 172; 172; 172; 172; 172; 172; 172; 172; 171;
   171; 171; 171; 171; 171; 171; 171; 171; 171; 171; 171; 171; 171; 171; 171; 171;
   171; 171; 171; 171; 171; 171; 171; 171; 171; 171; 171; 171; 171; 171; 171; 170;
   170; 170; 170; 170; 170; 170; 170; 170; 170; 170; 170; 170; 170; 170; 170; 170;
   170; 170; 170; 170; 170; 170; 170; 170; 170; 170; 170; 170; 170; 170; 170; 169;
   169; 169; 169; 169; 169; 169; 169; 169; 169; 169; 169; 169; 169; 169; 169; 169;
   169; 169; 169; 169; 169; 169; 169; 169; 169; 169; 169; 169; 169; 169; 169; 168;
   168; 168; 168; 168; 168; 168; 168; 168; 168; 168; 168; 168; 168; 168; 168; 168;
   168; 168; 168; 168; 168; 168; 168; 168; 168; 168; 168; 168; 168; 168; 168; 167;
   167; 167; 167; 167; 167; 167; 167; 167; 167; 167; 167; 167; 167; 167; 167; 167;
   167; 167; 167; 167; 167; 167; 167; 167; 167; 167; 167; 167; 167; 167; 167; 166;
   166; 166; 166; 166; 166; 166; 166; 166; 166; 166; 166; 166; 166; 166; 166; 166;
   166; 166; 166; 166; 166; 166; 166; 166; 166; 166; 166; 166; 166; 166; 166; 165;
   165; 165; 165; 165; 165; 165; 165; 165; 165; 165; 165; 165; 165; 165; 165; 165;
   165; 165; 165; 165; 165; 165; 165; 165; 165; 165; 165; 165; 165; 165; 165; 164;
   164; 164; 164; 164; 164; 164; 164; 164; 164; 164; 164; 164; 164; 164; 164; 164;
   164; 164; 164; 164; 164; 164; 164; 164; 164; 164; 164; 164; 164; 164; 164; 163;
   163; 163; 163; 163; 163; 163; 163; 163; 163; 163; 163; 163; 163; 163; 163; 163;
   163; 163; 163; 163; 163; 163; 163; 163; 163; 163; 163; 163; 163; 163; 163; 162;
   162; 162; 162; 162; 162; 162; 162; 162; 162; 162; 162; 162; 162; 162; 162; 162;
   162; 162; 162; 162; 162; 162; 162; 162; 162; 162; 162; 162; 162; 162; 162; 161;
   161; 161; 161; 161; 161; 161; 161; 161; 161; 161; 161; 161; 161; 161; 161; 161;
   161; 161; 161; 161; 161; 161; 161; 161; 161; 161; 161; 161; 161; 161; 161; 160;
   160; 160; 160; 160; 160; 160; 160; 160; 160; 160; 160; 160; 160; 160; 160; 160;
   160; 160; 160; 160; 160; 160; 160; 160; 160; 160; 160; 160; 160; 160; 160; 159;
   159; 159; 159; 159; 159; 159; 159; 159; 159; 159; 159; 159; 159; 159; 159; 159].

Definition g711_l2u_1 : list Z := [
   159; 159; 159; 159; 159; 159; 159; 159; 159; 159; 159; 159; 159; 159; 159; 159;
   159; 159; 159; 159; 159; 159; 159; 159; 159; 159; 159; 159; 159; 159; 159; 159;
   159; 159; 159; 159; 159; 159; 159; 159; 159; 159; 159; 159; 159; 159; 159; 158;
   158; 158; 158; 158; 158; 158; 158; 158; 158; 158; 158; 158; 158; 158; 158; 158;
   158; 158; 158; 158; 158; 158; 158; 158; 158; 158; 158; 158; 158; 158; 158; 158;
   158; 158; 158; 158; 158; 158; 158; 158; 158; 158; 158; 158; 158; 158; 158; 158;
   158; 158; 158; 158; 158; 158; 158; 158; 158; 158; 158; 158; 158; 158; 158; 157;
   157; 157; 157; 157; 157; 157; 157; 157; 157; 157; 157; 157; 157; 157; 157; 157;
   157; 157; 157; 157; 157; 157; 157; 157; 157; 157; 157; 157; 157; 157; 157; 157;
   157; 157; 157; 157; 157; 157; 157; 157; 157; 157; 157; 157; 157; 157; 157; 157;
   157; 157; 157; 157; 157; 157; 157; 157; 157; 157; 157; 157; 157; 157; 157; 156;
   156; 156; 156; 156; 156; 156; 156; 156; 156; 156; 156; 156; 156; 156; 156; 156;
   156; 156; 156; 156; 156; 156; 156; 156; 156; 156; 156; 156; 156; 156; 156; 156;
   156; 156; 156; 156; 156; 156; 156; 156; 156; 156; 156; 156; 156; 156; 156; 156;
   156; 156; 156; 156; 156; 156; 156; 156; 156; 156; 156; 156; 156; 156; 156; 155;
   155; 155; 155; 155; 155; 155; 155; 155; 155; 155; 155; 155; 155; 155; 155; 155;
   155; 155; 155; 155; 155; 155; 155; 155; 155; 155; 155; 155; 155; 155; 155; 155;
   155; 155; 155; 155; 155; 155; 155; 155; 155; 155; 155; 155; 155; 155; 155; 155;
   155; 155; 155; 155; 155; 155; 155; 155; 155; 155; 155; 155; 155; 155; 155; 154;
   154; 154; 154; 154; 154; 154; 154; 154; 154; 154; 154; 154; 154; 154; 154; 154;
   154; 154; 154; 154; 154; 154; 154; 154; 154; 154; 154; 154; 154; 154; 154; 154;
   154; 154; 154; 154; 154; 154; 154; 154; 154; 154; 154; 154; 154; 154; 154; 154;
   154; 154; 154; 154; 154; 154; 154; 154; 154; 154; 154; 154; 154; 154; 154; 153;
   153; 153; 153; 153; 153; 153; 153; 153; 153; 153; 153; 153; 153; 153; 153; 153;
   153; 153; 153; 153; 153; 153; 153; 153; 153; 153; 153; 153; 153; 153; 153; 153;
   153; 153; 153; 153; 153; 153; 153; 153; 153; 153; 153; 153; 153; 153; 153; 153;
   153; 153; 153; 153; 153; 153; 153; 153; 153; 153; 153; 153; 153; 153; 153; 152;
   152; 152; 152; 152; 152; 152; 152; 152; 152; 152; 152; 152; 152; 152; 152; 152;
   152; 152; 152; 152; 152; 152; 152; 152; 152; 152; 152; 152; 152; 152; 152; 152;
   152; 152; 152; 152; 152; 152; 152; 152; 152; 152; 152; 152; 152; 152; 152; 152;
   152; 152; 152; 152; 152; 152; 152; 152; 152; 152; 152; 152; 152; 152; 152; 151;
   151; 151; 151; 151; 151; 151; 151; 151; 151; 151; 151; 151; 151; 151; 151; 151;
   151; 151; 151; 151; 151; 151; 151; 151; 151; 151; 151; 151; 151; 151; 151; 151;
   151; 151; 151; 151; 151; 151; 151; 151; 151; 151; 151; 151; 151; 151; 151; 151;
   151; 151; 151; 151; 151; 151; 151; 151; 151; 151; 151; 151; 151; 151; 151; 150;
   150; 150; 150; 150; 150; 150; 150; 150; 150; 150; 150; 150; 150; 150; 150; 150;
   150; 150; 150; 150; 150; 150; 150; 150; 150; 150; 150; 150; 150; 150; 150; 150;
   150; 150; 150; 150; 150; 150; 150; 150; 150; 150; 150; 150; 150; 150; 150; 150;
   150; 150; 150; 150; 150; 150; 150; 150; 150; 150; 150; 150; 150; 150; 150; 149;
   149; 149; 149; 149; 149; 149; 149; 149; 149; 149; 149; 149; 149; 149; 149; 149;
   149; 149; 149; 149; 149; 149; 149; 149; 149; 149; 149; 149; 149; 149; 149; 149;
   149; 149; 149; 149; 149; 149; 149; 149; 149; 149; 149; 149; 149; 149; 149; 149;
   149; 149; 149; 149; 149; 149; 149; 149; 149; 149; 149; 149; 149; 149; 149; 148;
   148; 148; 148; 148; 148; 148; 148; 148; 148; 148; 148; 148; 148; 148; 148; 148;
   148; 148; 148; 148; 148; 148; 148; 148; 148; 148; 148; 148; 148; 148; 148; 148;
   148; 148; 148; 148; 148; 148; 148; 148; 148; 148; 148; 148; 148; 148; 148; 148;
   148; 148; 148; 148; 148; 148; 148; 148; 148; 148; 148; 148; 148; 148; 148; 147;
   147; 147; 147; 147; 147; 147; 147; 147; 147; 147; 147; 147; 147; 147; 147; 147;
   147; 147; 147; 147; 147; 147; 147; 147; 147; 147; 147; 147; 147; 147; 147; 147;
   147; 147; 147; 147; 147; 147; 147; 147; 147; 147; 147; 147; 147; 147; 147; 147;
   147; 147; 147; 147; 147; 147; 147; 147; 147; 147; 147; 147; 147; 147; 147; 146;
   146; 146; 146; 146; 146; 146; 146; 146; 146; 146; 146; 146; 146; 146; 146; 146;
   146; 146; 146; 146; 146; 146; 146; 146; 146; 146; 146; 146; 146; 146; 146; 146;
   146; 146; 146; 146; 146; 146; 146; 146; 146; 146; 146; 146; 146; 146; 146; 146;
   146; 146; 146; 146; 146; 146; 146; 146; 146; 146; 146; 146; 146; 146; 146; 145;
   145; 145; 145; 145; 145; 145; 145; 145; 145; 145; 145; 145; 145; 145; 145; 145;
   145; 145; 145; 145; 145; 145; 145; 145; 145; 145; 145; 145; 145; 145; 145; 145;
   145; 145; 145; 145; 145; 145; 145; 145; 145; 145; 145; 145; 145; 145; 145; 145;
   145; 145; 145; 145; 145; 145; 145; 145; 145; 145; 145; 145; 145; 145; 145; 144;
   144; 144; 144; 144; 144; 144; 144; 144; 144; 144; 144; 144; 144; 144; 144; 144;
   144; 144; 144; 144; 144; 144; 144; 144; 144; 144; 144; 144; 144; 144; 144; 144;
   144; 144; 144; 144; 144; 144; 144; 144; 144; 144; 144; 144; 144; 144; 144; 144;
   144; 144; 144; 144; 144; 144; 144; 144; 144; 144; 144; 144; 144; 144; 144; 143;
   143; 143; 143; 143; 143; 143; 143; 143; 143; 143; 143; 143; 143; 143; 143; 143].

Definition g711_l2u_2 : list Z := [
   143; 143; 143; 143; 143; 143; 143; 143; 143; 143; 143; 143; 143; 143; 143; 143;
   143; 143; 143; 143; 143; 143; 143; 143; 143; 143; 143; 143; 143; 143; 143; 143;
   143; 143; 143; 143; 143; 143; 143; 143; 143; 143; 143; 143; 143; 143; 143; 143;
   143; 143; 143; 143; 143; 143; 143; 143; 143; 143; 143; 143; 143; 143; 143; 143;
   143; 143; 143; 143; 143; 143; 143; 143; 143; 143; 143; 143; 143; 143; 143; 143;
   143; 143; 143; 143; 143; 143; 143; 143; 143; 143; 143; 143; 143; 143; 143; 143;
   143; 143; 143; 143; 143; 143; 143; 143; 143; 143; 143; 143; 143; 143; 143; 142;
   142; 142; 142; 142; 142; 142; 142; 142; 142; 142; 142; 142; 142; 142; 142; 142;
   142; 142; 142; 142; 142; 142; 142; 142; 142; 142; 142; 142; 142; 142; 142; 142;
   142; 142; 142; 142; 142; 142; 142; 142; 142; 142; 142; 142; 142; 142; 142; 142;
   142; 142; 142; 142; 142; 142; 142; 142; 142; 142; 142; 142; 142; 142; 142; 142;
   142; 142; 142; 142; 142; 142; 142; 142; 142; 142; 142; 142; 142; 142; 142; 142;
   142; 142; 142; 142; 142; 142; 142; 142; 142; 142; 142; 142; 142; 142; 142; 142;
   142; 142; 142; 142; 142; 142; 142; 142; 142; 142; 142; 142; 142; 142; 142; 142;
   142; 142; 142; 142; 142; 142; 142; 142; 142; 142; 142; 142; 142; 142; 142; 141;
   141; 141; 141; 141; 141; 141; 141; 141; 141; 141; 141; 141; 141; 141; 141; 141;
   141; 141; 141; 141; 141; 141; 141; 141; 141; 141; 141; 141; 141; 141; 141; 141;
   141; 141; 141; 141; 141; 141; 141; 141; 141; 141; 141; 141; 141; 141; 141; 141;
   141; 141; 141; 141; 141; 141; 141; 141; 141; 141; 141; 141; 141; 141; 141; 141;
   141; 141; 141; 141; 141; 141; 141; 141; 141; 141; 141; 141; 141; 141; 141; 141;
   141; 141; 141; 141; 141; 141; 141; 141; 141; 141; 141; 141; 141; 141; 141; 141;
   141; 141; 141; 141; 141; 141; 141; 141; 141; 141; 141; 141; 141; 141; 141; 141;
   141; 141; 141; 141; 141; 141; 141; 141; 141; 141; 141; 141; 141; 141; 141; 140;
   140; 140; 140; 140; 140; 140; 140; 140; 140; 140; 140; 140; 140; 140; 140; 140;
   140; 140; 140; 140; 140; 140; 140; 140; 140; 140; 140; 140; 140; 140; 140; 140;
   140; 140; 140; 140; 140; 140; 140; 140; 140; 140; 140; 140; 140; 140; 140; 140;
   140; 140; 140; 140; 140; 140; 140; 140; 140; 140; 140; 140; 140; 140; 140; 140;
   140; 140; 140; 140; 140; 140; 140; 140; 140; 140; 140; 140; 140; 140; 140; 140;
   140; 140; 140; 140; 140; 140; 140; 140; 140; 140; 140; 140; 140; 140; 140; 140;
   140; 140; 140; 140; 140; 140; 140; 140; 140; 140; 140; 140; 140; 140; 140; 140;
   140; 140; 140; 140; 140; 140; 140; 140; 140; 140; 140; 140; 140; 140; 140; 139;
   139; 139; 139; 139; 139; 139; 139; 139; 139; 139; 139; 139; 139; 139; 139; 139;
   139; 139; 139; 139; 139; 139; 139; 139; 139; 139; 139; 139; 139; 139; 139; 139;
   139; 139; 139; 139; 139; 139; 139; 139; 139; 139; 139; 139; 139; 139; 139; 139;
   139; 139; 139; 139; 139; 139; 139; 139; 139; 139; 139; 139; 139; 139; 139; 139;
   139; 139; 139; 139; 139; 139; 139; 139; 139; 139; 139; 139; 139; 139; 139; 139;
   139; 139; 139; 139; 139; 139; 139; 139; 139; 139; 139; 139; 139; 139; 139; 139;
   139; 139; 139; 139; 139; 139; 139; 139; 139; 139; 139; 139; 139; 139; 139; 139;
   139; 139; 139; 139; 139; 139; 139; 139; 139; 139; 139; 139; 139; 139; 139; 138;
   138; 138; 138; 138; 138; 138; 138; 138; 138; 138; 138; 138; 138; 138; 138; 138;
   138; 138; 138; 138; 138; 138; 138; 138; 138; 138; 138; 138; 138; 138; 138; 138;
   138; 138; 138; 138; 138; 138; 138; 138; 138; 138; 138; 138; 138; 138; 138; 138;
   138; 138; 138; 138; 138; 138; 138; 138; 138; 138; 138; 138; 138; 138; 138; 138;
   138; 138; 138; 138; 138; 138; 138; 138; 138; 138; 138; 138; 138; 138; 138; 138;
   138; 138; 138; 138; 138; 138; 138; 138; 138; 138; 138; 138; 138; 138; 138; 138;
   138; 138; 138; 138; 138; 138; 138; 138; 138; 138; 138; 138; 138; 138; 138; 138;
   138; 138; 138; 138; 138; 138; 138; 138; 138; 138; 138; 138; 138; 138; 138; 137;
   137; 137; 137; 137; 137; 137; 137; 137; 137; 137; 137; 137; 137; 137; 137; 137;
   137; 137; 137; 137; 137; 137; 137; 137; 137; 137; 137; 137; 137; 137; 137; 137;
   137; 137; 137; 137; 137; 137; 137; 137; 137; 137; 137; 137; 137; 137; 137; 137;
   137; 137; 137; 137; 137; 137; 137; 137; 137; 137; 137; 137; 137; 137; 137; 137;
   137; 137; 137; 137; 137; 137; 137; 137; 137; 137; 137; 137; 137; 137; 137; 137;
   137; 137; 137; 137; 137; 137; 137; 137; 137; 137; 137; 137; 137; 137; 137; 137;
   137; 137; 137; 137; 137; 137; 137; 137; 137; 137; 137; 137; 137; 137; 137; 137;
   137; 137; 137; 137; 137; 137; 137; 137; 137; 137; 137; 137; 137; 137; 137; 136;
   136; 136; 136; 136; 136; 136; 136; 136; 136; 136; 136; 136; 136; 136; 136; 136;
   136; 136; 136; 136; 136; 136; 136; 136; 136; 136; 136; 136; 136; 136; 136; 136;
   136; 136; 136; 136; 136; 136; 136; 136; 136; 136; 136; 136; 136; 136; 136; 136;
   136; 136; 136; 136; 136; 136; 136; 136; 136; 136; 136; 136; 136; 136; 136; 136;
   136; 136; 136; 136; 136; 136; 136; 136; 136; 136; 136; 136; 136; 136; 136; 136;
   136; 136; 136; 136; 136; 136; 136; 136; 136; 136; 136; 136; 136; 136; 136; 136;
   136; 136; 136; 136; 136; 136; 136; 136; 136; 136; 136; 136; 136; 136; 136; 136;
   136; 136; 136; 136; 136; 136; 136; 136; 136; 136; 136; 136; 136; 136; 136; 135;
   135; 135; 135; 135; 135; 135; 135; 135; 135; 135; 135; 135; 135; 135; 135; 135].

Definition g711_l2u_3 : list Z := [
   135; 135; 135; 135; 135; 135; 135; 135; 135; 135; 135; 135; 135; 135; 135; 135;
   135; 135; 135; 135; 135; 135; 135; 135; 135; 135; 135; 135; 135; 135; 135; 135;
   135; 135; 135; 135; 135; 135; 135; 135; 135; 135; 135; 135; 135; 135; 135; 135;
   135; 135; 135; 135; 135; 135; 135; 135; 135; 135; 135; 135; 135; 135; 135; 135;
   135; 135; 135; 135; 135; 135; 135; 135; 135; 135; 135; 135; 135; 135; 135; 135;
   135; 135; 135; 135; 135; 135; 135; 135; 135; 135; 135; 135; 135; 135; 135; 135;
   135; 135; 135; 135; 135; 135; 135; 135; 135; 135; 135; 135; 135; 135; 135; 134;
   134; 134; 134; 134; 134; 134; 134; 134; 134; 134; 134; 134; 134; 134; 134; 134;
   134; 134; 134; 134; 134; 134; 134; 134; 134; 134; 134; 134; 134; 134; 134; 134;
   134; 134; 134; 134; 134; 134; 134; 134; 134; 134; 134; 134; 134; 134; 134; 134;
   134; 134; 134; 134; 134; 134; 134; 134; 134; 134; 134; 134; 134; 134; 134; 134;
   134; 134; 134; 134; 134; 134; 134; 134; 134; 134; 134; 134; 134; 134; 134; 134;
   134; 134; 134; 134; 134; 134; 134; 134; 134; 134; 134; 134; 134; 134; 134; 134;
   134; 134; 134; 134; 134; 134; 134; 134; 134; 134; 134; 134; 134; 134; 134; 134;
   134; 134; 134; 134; 134; 134; 134; 134; 134; 134; 134; 134; 134; 134; 134; 133;
   133; 133; 133; 133; 133; 133; 133; 133; 133; 133; 133; 133; 133; 133; 133; 133;
   133; 133; 133; 133; 133; 133; 133; 133; 133; 133; 133; 133; 133; 133; 133; 133;
   133; 133; 133; 133; 133; 133; 133; 133; 133; 133; 133; 133; 133; 133; 133; 133;
   133; 133; 133; 133; 133; 133; 133; 133; 133; 133; 133; 133; 133; 133; 133; 133;
   133; 133; 133; 133; 133; 133; 133; 133; 133; 133; 133; 133; 133; 133; 133; 133;
   133; 133; 133; 133; 133; 133; 133; 133; 133; 133; 133; 133; 133; 133; 133; 133;
   133; 133; 133; 133; 133; 133; 133; 133; 133; 133; 133; 133; 133; 133; 133; 133;
   133; 133; 133; 133; 133; 133; 133; 133; 133; 133; 133; 133; 133; 133; 133; 132;
   132; 132; 132; 132; 132; 132; 132; 132; 132; 132; 132; 132; 132; 132; 132; 132;
   132; 132; 132; 132; 132; 132; 132; 132; 132; 132; 132; 132; 132; 132; 132; 132;
   132; 132; 132; 132; 132; 132; 132; 132; 132; 132; 132; 132; 132; 132; 132; 132;
   132; 132; 132; 132; 132; 132; 132; 132; 132; 132; 132; 132; 132; 132; 132; 132;
   132; 132; 132; 132; 132; 132; 132; 132; 132; 132; 132; 132; 132; 132; 132; 132;
   132; 132; 132; 132; 132; 132; 132; 132; 132; 132; 132; 132; 132; 132; 132; 132;
   132; 132; 132; 132; 132; 132; 132; 132; 132; 132; 132; 132; 132; 132; 132; 132;
   132; 132; 132; 132; 132; 132; 132; 132; 132; 132; 132; 132; 132; 132; 132; 131;
   131; 131; 131; 131; 131; 131; 131; 131; 131; 131; 131; 131; 131; 131; 131; 131;
   131; 131; 131; 131; 131; 131; 131; 131; 131; 131; 131; 131; 131; 131; 131; 131;
   131; 131; 131; 131; 131; 131; 131; 131; 131; 131; 131; 131; 131; 131; 131; 131;
   131; 131; 131; 131; 131; 131; 131; 131; 131; 131; 131; 131; 131; 131; 131; 131;
   131; 131; 131; 131; 131; 131; 131; 131; 131; 131; 131; 131; 131; 131; 131; 131;
   131; 131; 131; 131; 131; 131; 131; 131; 131; 131; 131; 131; 131; 131; 131; 131;
   131; 131; 131; 131; 131; 131; 131; 131; 131; 131; 131; 131; 131; 131; 131; 131;
   131; 131; 131; 131; 131; 131; 131; 131; 131; 131; 131; 131; 131; 131; 131; 130;
   130; 130; 130; 130; 130; 130; 130; 130; 130; 130; 130; 130; 130; 130; 130; 130;
   130; 130; 130; 130; 130; 130; 130; 130; 130; 130; 130; 130; 130; 130; 130; 130;
   130; 130; 130; 130; 130; 130; 130; 130; 130; 130; 130; 130; 130; 130; 130; 130;
   130; 130; 130; 130; 130; 130; 130; 130; 130; 130; 130; 130; 130; 130; 130; 130;
   130; 130; 130; 130; 130; 130; 130; 130; 130; 130; 130; 130; 130; 130; 130; 130;
   130; 130; 130; 130; 130; 130; 130; 130; 130; 130; 130; 130; 130; 130; 130; 130;
   130; 130; 130; 130; 130; 130; 130; 130; 130; 130; 130; 130; 130; 130; 130; 130;
   130; 130; 130; 130; 130; 130; 130; 130; 130; 130; 130; 130; 130; 130; 130; 129;
   129; 129; 129; 129; 129; 129; 129; 129; 129; 129; 129; 129; 129; 129; 129; 129;
   129; 129; 129; 129; 129; 129; 129; 129; 129; 129; 129; 129; 129; 129; 129; 129;
   129; 129; 129; 129; 129; 129; 129; 129; 129; 129; 129; 129; 129; 129; 129; 129;
   129; 129; 129; 129; 129; 129; 129; 129; 129; 129; 129; 129; 129; 129; 129; 129;
   129; 129; 129; 129; 129; 129; 129; 129; 129; 129; 129; 129; 129; 129; 129; 129;
   129; 129; 129; 129; 129; 129; 129; 129; 129; 129; 129; 129; 129; 129; 129; 129;
   129; 129; 129; 129; 129; 129; 129; 129; 129; 129; 129; 129; 129; 129; 129; 129;
   129; 129; 129; 129; 129; 129; 129; 129; 129; 129; 129; 129; 129; 129; 129; 128;
   128; 128; 128; 128; 128; 128; 128; 128; 128; 128; 128; 128; 128; 128; 128; 128;
   128; 128; 128; 128; 128; 128; 128; 128; 128; 128; 128; 128; 128; 128; 128; 128;
   128; 128; 128; 128; 128; 128; 128; 128; 128; 128; 128; 128; 128; 128; 128; 128;
   128; 128; 128; 128; 128; 128; 128; 128; 128; 128; 128; 128; 128; 128; 128; 128;
   128; 128; 128; 128; 128; 128; 128; 128; 128; 128; 128; 128; 128; 128; 128; 128;
   128; 128; 128; 128; 128; 128; 128; 128; 128; 128; 128; 128; 128; 128; 128; 128;
   128; 128; 128; 128; 128; 128; 128; 128; 128; 128; 128; 128; 128; 128; 128; 128;
   128; 128; 128; 128; 128; 128; 128; 128; 128; 128; 128; 128; 128; 128; 128; 128;
   128; 128; 128; 128; 128; 128; 128; 128; 128; 128; 128; 128; 128; 128; 128; 128].

Definition g711_l2u : list Z := g711_l2u_0 ++ g711_l2u_1 ++ g711_l2u_2 ++ g711_l2u_3.

Definition g711_u2l : list Z := [
   (-32124); (-31100); (-30076); (-29052); (-28028); (-27004); (-25980); (-24956); (-23932); (-22908); (-21884); (-20860); (-19836); (-18812); (-17788); (-16764);
   (-15996); (-15484); (-14972); (-14460); (-13948); (-13436); (-12924); (-12412); (-11900); (-11388); (-10876); (-10364); (-9852); (-9340); (-8828); (-8316);
   (-7932); (-7676); (-7420); (-7164); (-6908); (-6652); (-6396); (-6140); (-5884); (-5628); (-5372); (-5116); (-4860); (-4604); (-4348); (-4092);
   (-3900); (-3772); (-3644); (-3516); (-3388); (-3260); (-3132); (-3004); (-2876); (-2748); (-2620); (-2492); (-2364); (-2236); (-2108); (-1980);
   (-1884); (-1820); (-1756); (-1692); (-1628); (-1564); (-1500); (-1436); (-1372); (-1308); (-1244); (-1180); (-1116); (-1052); (-988); (-924);
   (-876); (-844); (-812); (-780); (-748); (-716); (-684); (-652); (-620); (-588); (-556); (-524); (-492); (-460); (-428); (-396);
   (-372); (-356); (-340); (-324); (-308); (-292); (-276); (-260); (-244); (-228); (-212); (-196); (-180); (-164); (-148); (-132);
   (-120); (-112); (-104); (-96); (-88); (-80); (-72); (-64); (-56); (-48); (-40); (-32); (-24); (-16); (-8); (-2);
   32124; 31100; 30076; 29052; 28028; 27004; 25980; 24956; 23932; 22908; 21884; 20860; 19836; 18812; 17788; 16764;
   15996; 15484; 14972; 14460; 13948; 13436; 12924; 12412; 11900; 11388; 10876; 10364; 9852; 9340; 8828; 8316;
   7932; 7676; 7420; 7164; 6908; 6652; 6396; 6140; 5884; 5628; 5372; 5116; 4860; 4604; 4348; 4092;
   3900; 3772; 3644; 3516; 3388; 3260; 3132; 3004; 2876; 2748; 2620; 2492; 2364; 2236; 2108; 1980;
   1884; 1820; 1756; 1692; 1628; 1564; 1500; 1436; 1372; 1308; 1244; 1180; 1116; 1052; 988; 924;
   876; 844; 812; 780; 748; 716; 684; 652; 620; 588; 556; 524; 492; 460; 428; 396;
   372; 356; 340; 324; 308; 292; 276; 260; 244; 228; 212; 196; 180; 164; 148; 132;
   120; 112; 104; 96; 88; 80; 72; 64; 56; 48; 40; 32; 24; 16; 8; 2].

(** ** Codec *)
Definition g711_pcm2ulaw (lx : Z) : Z :=
  let mask := if lx <? 0 then 0x7f else 0xff in
  let l := if lx <? 0 then - lx else lx in
  if l <? 4 then Z.land 0xff mask
  else Z.land (nth (Z.to_nat (Z.shiftr (l - 4) 3)) g711_l2u 0) mask.

Definition g711_ulaw2pcm (u : Z) : Z := nth (Z.to_nat u) g711_u2l 0.

(** [ulaw_to_pcm] of [audio_out_win.c]; [u = ~u] on a [uint8_t] is [255 - u]. *)
Definition ulaw_to_pcm (u : Z) : Z :=
  let u := 255 - u in
  let sign := if Z.testbit u 7 then -1 else 1 in
  let exponent := Z.land (Z.shiftr u 4) 0x07 in
  let mantissa := Z.land u 0x0F in
  let magnitude := Z.shiftl (Z.shiftl mantissa 3 + 0x84) exponent - 0x84 in
  i16 (sign * magnitude).

Definition is_i16 (x : Z) : Prop := -32768 <= x <= 32767.

(** ** The table in closed form

    The logarithmic segment of a biased magnitude, and the mu-law code built
    from it (ITU-T G.711 with bias 132). *)
Definition ulaw_code (m : Z) : Z :=
  let b := Z.min m 32635 + 132 in
  let e := Z.log2 (Z.shiftr b 7) in
  255 - (16 * e + Z.land (Z.shiftr b (e + 3)) 15).

Lemma g711_l2u_closed : g711_l2u = map (fun l => ulaw_code (l * 8 + 4)) (range 4096).
Proof. vm_compute. reflexivity. Qed.

Lemma g711_l2u_length : length g711_l2u = 4096%nat.
Proof. rewrite g711_l2u_closed. unfold range. by rewrite !length_map, length_seq. Qed.

(** The encoder without the table. *)
Definition pcm2ulaw_closed (lx : Z) : Z :=
  let mask := if lx <? 0 then 0x7f else 0xff in
  let l := Z.abs lx in
  if l <? 4 then mask else Z.land (ulaw_code (Z.shiftr (l - 4) 3 * 8 + 4)) mask.

Lemma g711_pcm2ulaw_closed lx : is_i16 lx -> g711_pcm2ulaw lx = pcm2ulaw_closed lx.
Proof.
  unfold is_i16, g711_pcm2ulaw, pcm2ulaw_closed. intros H.
  assert ((if lx <? 0 then - lx else lx) = Z.abs lx) as ->.
  { destruct (lx <? 0) eqn:E; bool_hyps; lia. }
  destruct (Z.abs lx <? 4) eqn:E; bool_hyps; [by destruct (lx <? 0)|].
  f_equal. rewrite Z.shiftr_div_pow2 by lia. change (2 ^ 3) with 8.
  set (i := (Z.abs lx - 4) / 8).
  assert (0 <= i < 4096) by (unfold i; Z.div_mod_to_equations; lia).
  rewrite g711_l2u_closed. unfold range.
  rewrite (nth_indep _ 0 (ulaw_code (Z.of_nat 0 * 8 + 4)))
    by (rewrite !length_map, length_seq; lia).
  rewrite map_map, (map_nth (fun x => ulaw_code (Z.of_nat x * 8 + 4))), seq_nth by lia.
  f_equal. lia.
Qed.

(** A property of all 16-bit samples, by evaluation of the closed form. *)
Definition all_i16 (P : Z -> bool) : bool := all_from 16 (-32768) P.
Lemma all_i16_spec P : all_i16 P = true -> forall x, is_i16 x -> P x = true.
Proof.
  intros H x Hx. apply (all_from_spec 16 (-32768)); [done|]. unfold is_i16 in Hx.
  change (2 ^ Z.of_nat 16) with 65536. lia.
Qed.

(** ** Theorems *)

(** Bounds: for every 16-bit sample the encoder's table index is within the
    4096 entries and the result is one octet. *)
Theorem pcm2ulaw_in_bounds (lx : Z) :
  is_i16 lx -> 4 <= Z.abs lx ->
  0 <= Z.shiftr (Z.abs lx - 4) 3 < zlen g711_l2u /\ is_byte (g711_pcm2ulaw lx).
Proof.
  intros Hx H4. rewrite g711_l2u_length, g711_pcm2ulaw_closed by done. split.
  - unfold is_i16 in Hx. rewrite Z.shiftr_div_pow2 by lia. Z.div_mod_to_equations. lia.
  - apply is_byteb_spec. revert lx Hx H4.
    assert (forall x, is_i16 x -> is_byteb (pcm2ulaw_closed x) = true) as H; [|by auto].
    apply (all_i16_spec (fun x => is_byteb (pcm2ulaw_closed x))). vm_compute. reflexivity.
Qed.

Lemma pcm2ulaw_in_bounds_witness :
  is_byte (g711_pcm2ulaw (-32768)) /\ g711_pcm2ulaw (-32768) = 0.
Proof.
  split; [|vm_compute; reflexivity].
  apply (pcm2ulaw_in_bounds (-32768)); unfold is_i16; lia.
Defined.

(** Round trip of the codec as the intercom uses it (libre's encoder, the
    intercom's decoder): decoding then encoding returns every code except 0x7f
    (negative zero, which comes back as 0xff), and the decoder agrees with
    libre's own table except on the two zero codes, where the table has -2 and
    2. *)
Theorem ulaw_roundtrip (u : Z) :
  is_byte u ->
  g711_pcm2ulaw (ulaw_to_pcm u) = (if u =? 0x7f then 0xff else u)
  /\ is_i16 (ulaw_to_pcm u)
  /\ ulaw_to_pcm u = (if (u =? 0x7f) || (u =? 0xff) then 0 else g711_ulaw2pcm u).
Proof.
  intros Hu.
  pose proof (byte_check (fun u =>
    (g711_pcm2ulaw (ulaw_to_pcm u) =? (if u =? 0x7f then 0xff else u))
    && ((-32768 <=? ulaw_to_pcm u) && (ulaw_to_pcm u <=? 32767))
    && (ulaw_to_pcm u =? (if (u =? 0x7f) || (u =? 0xff) then 0 else g711_ulaw2pcm u)))
    ltac:(vm_compute; reflexivity) u Hu) as H.
  cbv beta in H. bool_hyps. unfold is_i16. auto.
Qed.

Lemma ulaw_roundtrip_witness : g711_pcm2ulaw (ulaw_to_pcm 0x12) = 0x12.
Proof. apply (ulaw_roundtrip 0x12). unfold is_byte. lia. Defined.

(** Quantisation error: a sample sent as mu-law and decoded differs from
    the original by at most 1/32 of its biased magnitude. *)
Theorem ulaw_error_bound (x : Z) :
  is_i16 x -> 32 * Z.abs (ulaw_to_pcm (g711_pcm2ulaw x) - x) <= Z.abs x + 132.
Proof.
  intros Hx. rewrite g711_pcm2ulaw_closed by done. apply Z.leb_le. revert x Hx.
  apply (all_i16_spec (fun x =>
    32 * Z.abs (ulaw_to_pcm (pcm2ulaw_closed x) - x) <=? Z.abs x + 132)).
  vm_compute. reflexivity.
Qed.

Lemma ulaw_error_bound_witness :
  32 * Z.abs (ulaw_to_pcm (g711_pcm2ulaw 1000) - 1000) <= 1132.
Proof. apply (ulaw_error_bound 1000). unfold is_i16. lia. Defined.
