(* ===== verification/AudioIn.v ===== *)
(** * Microphone capture ([audio_in_win.c])

    The ring buffer between the waveIn callback and the media timer: the module
    state [g_ain], its operations, and the refinement of a bounded queue that
    drops its oldest sample when it is full.  The waveIn API is the
    environment.  Callback and timer run on different threads but every access
    to the indices is inside the critical section, so the operations are
    atomic steps in any order. *)
From S2P Require Import Prelude Sys G711.

Definition MAX_SAMPLES : Z := 960.
Definition RING_SIZE : Z := 8000.
Definition MIC_GAIN : Z := 10.

Record audio_in := AudioIn {
  ai_opened : bool;
  ai_samples_per_buf : Z;
  ai_ring : list Z;          (* int16_t ring[RING_SIZE] *)
  ai_wr : Z;                 (* write index *)
  ai_rd : Z;                 (* read index *)
  ai_drop_count : Z;         (* uint32_t *)
  ai_last_drop_log : Z       (* DWORD *)
}.

(** [memset(&g_ain, 0, sizeof(g_ain))] *)
Definition audio_in_zero : audio_in :=
  AudioIn false 0 (replicate (Z.to_nat RING_SIZE) 0) 0 0 0 0.

(** ** Operations *)

(** Software gain with clipping, then the conversion to [int16_t]. *)
Definition apply_gain (x : Z) : Z :=
  let s := x * MIC_GAIN in
  i16 (if 32767 <? s then 32767 else if s <? -32768 then -32768 else s).

(** The "ring full" branch: drop the oldest sample, count it, log at most every
    ten seconds. *)
Definition ring_drop_oldest `{Env} (a : audio_in) : IO audio_in :=
  now ← ask QClock;
  let log := 10000 <? u32 (now - ai_last_drop_log a) in
  mret (AudioIn (ai_opened a) (ai_samples_per_buf a) (ai_ring a) (ai_wr a)
          ((ai_rd a + 1) mod RING_SIZE) (u32 (ai_drop_count a + 1))
          (if log then u32 now else ai_last_drop_log a)).

(** One iteration of the loop of [enqueue_to_ring]. *)
Definition enqueue_sample `{Env} (a : audio_in) (x : Z) : IO audio_in :=
  let wr := ai_wr a in
  let next := (wr + 1) mod RING_SIZE in
  a ← (if next =? ai_rd a then ring_drop_oldest a else mret a);
  mret (AudioIn (ai_opened a) (ai_samples_per_buf a)
          (<[Z.to_nat wr := apply_gain x]> (ai_ring a)) next (ai_rd a)
          (ai_drop_count a) (ai_last_drop_log a)).

Fixpoint enqueue_to_ring `{Env} (a : audio_in) (src : list Z) : IO audio_in :=
  match src with
  | [] => mret a
  | x :: t => a' ← enqueue_sample a x; enqueue_to_ring a' t
  end.

(** The waveIn callback on [WIM_DATA]: [data] are the recorded samples. *)
Definition wave_in_proc `{Env} (a : audio_in) (data : list Z) : IO audio_in :=
  a' ← (match data with [] => mret a | _ => enqueue_to_ring a data end);
  _ ← (if ai_opened a' then emit WaveInAddBuffer else mret tt);
  mret a'.

Definition audio_in_close (a : audio_in) : IO audio_in :=
  if ai_opened a then emit WaveInStop ;; mret audio_in_zero else mret a.

Definition audio_in_open `{Env} (a : audio_in) (srate channels samples_per_frame : Z)
    : IO (Z * audio_in) :=
  if ai_opened a then mret (0, a)
  else
    let spb := if MAX_SAMPLES <? samples_per_frame then MAX_SAMPLES else samples_per_frame in
    let a0 := AudioIn false spb (ai_ring audio_in_zero) 0 0 0 0 in
    mr ← ask QWaveOpen;
    if negb (mr =? 0) then mret (ENODEV, a0)
    else
      (* the buffers are queued *)
      emit WaveInAddBuffer ;; emit WaveInAddBuffer ;;
      emit WaveInAddBuffer ;; emit WaveInAddBuffer ;;
      let a1 := AudioIn true spb (ai_ring a0) 0 0 0 0 in
      mr ← ask QWaveStart;
      if negb (mr =? 0) then a2 ← audio_in_close a1; mret (ENODEV, a2)
      else mret (0, a1).

(** [audio_in_read]: the samples stored into [pcm]; the result of the C
    function is their number. *)
Fixpoint ring_read (a : audio_in) (count : nat) : list Z * audio_in :=
  match count with
  | O => ([], a)
  | S n =>
      if ai_rd a =? ai_wr a then ([], a)
      else
        let x := nth (Z.to_nat (ai_rd a)) (ai_ring a) 0 in
        let a' := AudioIn (ai_opened a) (ai_samples_per_buf a) (ai_ring a) (ai_wr a)
                    ((ai_rd a + 1) mod RING_SIZE) (ai_drop_count a) (ai_last_drop_log a) in
        let '(l, a'') := ring_read a' n in
        (x :: l, a'')
  end.
Definition audio_in_read (a : audio_in) (count : Z) : list Z * audio_in :=
  ring_read a (Z.to_nat count).

Definition audio_in_available (a : audio_in) : Z :=
  (ai_wr a - ai_rd a + RING_SIZE) mod RING_SIZE.
Definition audio_in_is_open (a : audio_in) : bool := ai_opened a.

(** ** Specification: a queue of at most [RING_SIZE - 1] samples *)
Definition queue_cap : nat := Z.to_nat (RING_SIZE - 1).
Definition queue_push (q : list Z) (x : Z) : list Z :=
  (if (length q =? queue_cap)%nat then tail q else q) ++ [apply_gain x].
Definition queue_push_all (q : list Z) (src : list Z) : list Z := fold_left queue_push src q.

(** The ring holds the queue [q]: [q]'s [i]-th sample is [i] places after the
    read index, and the write index is after the last. *)
Definition ring_abs (a : audio_in) (q : list Z) : Prop :=
  length (ai_ring a) = Z.to_nat RING_SIZE
  /\ 0 <= ai_rd a < RING_SIZE
  /\ (length q <= queue_cap)%nat
  /\ ai_wr a = (ai_rd a + zlen q) mod RING_SIZE
  /\ forall i x, q !! i = Some x ->
       ai_ring a !! Z.to_nat ((ai_rd a + Z.of_nat i) mod RING_SIZE) = Some x.

(** ** Lemmas *)
Ltac ring_lia := unfold queue_cap, RING_SIZE in *; Z.div_mod_to_equations; lia.

Lemma ring_abs_zero : ring_abs audio_in_zero [].
Proof.
  split; [apply length_replicate|]. split; [done|]. split; [cbn; lia|].
  split; [done|]. intros i x Hi. by rewrite lookup_nil in Hi.
Qed.

Lemma ring_abs_available a q : ring_abs a q -> audio_in_available a = zlen q.
Proof.
  intros (_ & Hrd & Hcap & Hwr & _). unfold audio_in_available. rewrite Hwr. ring_lia.
Qed.

(** Dropping the oldest sample. *)
Lemma ring_abs_tail a a' x q :
  ring_abs a (x :: q) ->
  ai_ring a' = ai_ring a -> ai_wr a' = ai_wr a -> ai_rd a' = (ai_rd a + 1) mod RING_SIZE ->
  ring_abs a' q.
Proof.
  intros (Hl & Hrd & Hcap & Hwr & Hq) Er Ew Ed. unfold ring_abs. rewrite Er, Ew, Ed.
  cbn [length] in *. repeat split; try done; try ring_lia.
  intros i y Hi. rewrite <- (Hq (S i) y) by done. f_equal. f_equal. ring_lia.
Qed.

(** Storing a sample where there is room. *)
Lemma ring_abs_snoc a a' q v :
  ring_abs a q -> (length q < queue_cap)%nat ->
  ai_ring a' = <[Z.to_nat (ai_wr a) := v]> (ai_ring a) ->
  ai_wr a' = (ai_wr a + 1) mod RING_SIZE -> ai_rd a' = ai_rd a ->
  ring_abs a' (q ++ [v]).
Proof.
  intros (Hl & Hrd & Hcap & Hwr & Hq) Hroom Er Ew Ed. unfold ring_abs. rewrite Er, Ew, Ed.
  rewrite length_insert, length_app, Hwr. cbn [length].
  repeat split; try done; try ring_lia.
  intros i y Hi. apply lookup_app_Some in Hi as [Hi|[Hge Hi]].
  - pose proof (lookup_lt_Some _ _ _ Hi) as Hlt.
    rewrite list_lookup_insert_ne; [by apply Hq|]. ring_lia.
  - destruct (i - length q)%nat as [|n] eqn:En; [|by destruct n].
    cbn in Hi. injection Hi as ->.
    assert (i = length q) as -> by lia.
    apply list_lookup_insert_eq. rewrite Hl. ring_lia.
Qed.

Lemma enqueue_sample_spec `{Env} a q x s :
  ring_abs a q ->
  exists a' s', enqueue_sample a x s = (a', s') /\ ring_abs a' (queue_push q x)
    /\ out s' = out s /\ ai_opened a' = ai_opened a.
Proof.
  intros Ha. pose proof Ha as (Hl & Hrd & Hcap & Hwr & Hq).
  unfold enqueue_sample, queue_push.
  assert (((ai_wr a + 1) mod RING_SIZE =? ai_rd a) = (length q =? queue_cap)%nat) as ->.
  { apply eq_true_iff_eq. rewrite Z.eqb_eq, Nat.eqb_eq. rewrite Hwr. split; ring_lia. }
  destruct (length q =? queue_cap)%nat eqn:Ef; bool_hyps.
  - destruct q as [|y q]; [cbn in Ef; ring_lia|]. cbn [tail].
    unfold ring_drop_oldest, mbind, IO_bind, ask, mret, IO_ret.
    do 2 eexists. split; [reflexivity|]. cbn. split; [|done].
    set (a1 := AudioIn false 0 (ai_ring a) (ai_wr a) ((ai_rd a + 1) mod RING_SIZE) 0 0).
    apply (ring_abs_snoc a1); [|cbn in Ef; ring_lia|done..].
    by apply (ring_abs_tail a a1 y).
  - do 2 eexists. split; [reflexivity|]. cbn. split; [|done].
    eapply ring_abs_snoc; [exact Ha|lia|done..].
Qed.

Lemma enqueue_to_ring_spec `{Env} a q src s :
  ring_abs a q ->
  exists a' s', enqueue_to_ring a src s = (a', s') /\ ring_abs a' (queue_push_all q src)
    /\ out s' = out s /\ ai_opened a' = ai_opened a.
Proof.
  revert a q s. induction src as [|x src IH]; intros a q s Ha; cbn.
  { exists a, s. done. }
  destruct (enqueue_sample_spec a q x s Ha) as (a1 & s1 & E1 & H1 & O1 & P1).
  destruct (IH a1 _ s1 H1) as (a2 & s2 & E2 & H2 & O2 & P2).
  exists a2, s2. unfold mbind, IO_bind. rewrite E1, E2.
  split; [done|]. split; [done|]. split; congruence.
Qed.

Lemma ring_read_spec a q n :
  ring_abs a q ->
  exists a', ring_read a n = (take n q, a') /\ ring_abs a' (drop n q)
    /\ ai_opened a' = ai_opened a.
Proof.
  revert a q. induction n as [|n IH]; intros a q Ha.
  { exists a. by rewrite take_0, drop_0. }
  pose proof Ha as (Hl & Hrd & Hcap & Hwr & Hq). cbn [ring_read].
  destruct q as [|x q].
  - exists a. replace (ai_rd a =? ai_wr a) with true; [done|].
    symmetry. apply Z.eqb_eq. rewrite Hwr. cbn. ring_lia.
  - destruct (ai_rd a =? ai_wr a) eqn:E; bool_hyps; [cbn in *; ring_lia|].
    assert (nth (Z.to_nat (ai_rd a)) (ai_ring a) 0 = x) as ->.
    { apply nth_lookup_Some. rewrite <- (Hq 0%nat x) by done. f_equal. f_equal. ring_lia. }
    set (a1 := AudioIn _ _ _ _ _ _ _).
    destruct (IH a1 q) as (a2 & E2 & H2 & P2); [by eapply ring_abs_tail|].
    exists a2. rewrite E2. by rewrite P2.
Qed.

(** ** Theorems *)

(** The calls the callback thread and the media timer make, in any order. *)
Inductive ain_op := OpCapture (data : list Z) | OpRead (count : Z) | OpAvailable.

Definition ain_step `{Env} (a : audio_in) (op : ain_op) : IO (list Z * audio_in) :=
  match op with
  | OpCapture data => a' ← wave_in_proc a data; mret ([], a')
  | OpRead n => mret (audio_in_read a n)
  | OpAvailable => mret ([audio_in_available a], a)
  end.
Fixpoint ain_run `{Env} (a : audio_in) (ops : list ain_op) : IO (list (list Z)) :=
  match ops with
  | [] => mret []
  | op :: t => '(r, a') ← ain_step a op; rs ← ain_run a' t; mret (r :: rs)
  end.

Definition queue_step (q : list Z) (op : ain_op) : list Z * list Z :=
  match op with
  | OpCapture data => ([], queue_push_all q data)
  | OpRead n => (take (Z.to_nat n) q, drop (Z.to_nat n) q)
  | OpAvailable => ([zlen q], q)
  end.
Fixpoint queue_run (q : list Z) (ops : list ain_op) : list (list Z) :=
  match ops with
  | [] => []
  | op :: t => let '(r, q') := queue_step q op in r :: queue_run q' t
  end.

Lemma ain_step_refines `{Env} a q op s :
  ring_abs a q ->
  exists a' s', ain_step a op s = ((fst (queue_step q op), a'), s')
    /\ ring_abs a' (snd (queue_step q op)).
Proof.
  intros Ha. destruct op as [data|n|]; cbn.
  - destruct (enqueue_to_ring_spec a q data s Ha) as (a1 & s1 & E1 & H1 & O1 & P1).
    unfold wave_in_proc, mbind, IO_bind.
    assert (match data with [] => mret a | _ :: _ => enqueue_to_ring a data end s = (a1, s1))
      as -> by (by destruct data).
    destruct (ai_opened a1); cbn; eauto.
  - destruct (ring_read_spec a q (Z.to_nat n) Ha) as (a1 & E1 & H1 & _).
    unfold audio_in_read. exists a1, s. unfold mret, IO_ret. by rewrite E1.
  - exists a, s. by rewrite (ring_abs_available a q).
Qed.

(** C13. Refinement: for every interleaving of capture callbacks, reads and
    availability queries, starting from an opened device, the ring buffer
    returns exactly what a queue of at most 7999 samples with drop-oldest
    overflow returns: samples come out amplified, in order, none duplicated. *)
Theorem ring_refines_queue `{Env} (ops : list ain_op) (a : audio_in) (q : list Z) (s : sys) :
  ring_abs a q -> fst (ain_run a ops s) = queue_run q ops.
Proof.
  revert a q s. induction ops as [|op ops IH]; intros a q s Ha; [done|].
  destruct (ain_step_refines a q op s Ha) as (a1 & s1 & E1 & H1).
  cbn [ain_run queue_run]. unfold mbind, IO_bind. rewrite E1.
  specialize (IH a1 _ s1 H1). destruct (ain_run a1 ops s1) as [rs s2].
  destruct (queue_step q op). cbn in *. by rewrite IH.
Qed.

Lemma ring_refines_queue_witness :
  fst (@ain_run good_env audio_in_zero [OpCapture [1; -4000; 5]; OpRead 2; OpAvailable] (Sys 0 []))
  = [[]; [10; -32768]; [1]].
Proof.
  rewrite (ring_refines_queue _ audio_in_zero [] (Sys 0 []) ring_abs_zero).
  vm_compute. reflexivity.
Defined.

(** A successful open leaves an empty queue; a failed one leaves the device
    closed; and [audio_in_open] on an open device changes nothing. *)
Theorem audio_in_open_spec `{Env} (a : audio_in) (srate ch spf : Z) (s : sys) :
  let '((err, a'), _) := audio_in_open a srate ch spf s in
  (ai_opened a = true -> err = 0 /\ a' = a)
  /\ (ai_opened a = false -> err = 0 -> ai_opened a' = true /\ ring_abs a' []
        /\ ai_samples_per_buf a' <= MAX_SAMPLES)
  /\ (err <> 0 -> err = ENODEV /\ ai_opened a' = false).
Proof.
  unfold audio_in_open. destruct (ai_opened a) eqn:Eo; [by cbn|].
  set (spb := if MAX_SAMPLES <? spf then MAX_SAMPLES else spf).
  assert (spb <= MAX_SAMPLES) by (unfold spb; destruct (MAX_SAMPLES <? spf) eqn:E; bool_hyps; lia).
  unfold mbind, IO_bind, ask, emit, audio_in_close, mret, IO_ret. cbn [fst snd tick out].
  repeat (case_if; cbn); repeat split; try done; try apply ring_abs_zero; bool_hyps; try lia.
Qed.
