(* ===== verification/AudioOut.v ===== *)
(** * Speaker output ([audio_out_win.c])

    The module state [g_aout] with its four playback buffers.  The waveOut API
    is the environment: [waveOutWrite] hands a buffer to the driver (which
    clears its [WHDR_DONE] flag) and the driver sets the flag again when the
    buffer has been played, in the order the buffers were written. *)
From S2P Require Import Prelude Sys G711.

Definition AO_NUM_BUFFERS : nat := 4.
Definition AO_MAX_SAMPLES : nat := 960.

Record audio_out := AudioOut {
  ao_opened : bool;
  ao_next_buf : nat;
  ao_done : list bool;        (* hdrs[i].dwFlags & WHDR_DONE *)
  ao_bufs : list (list Z);    (* the samples last decoded into bufs[i] *)
  ao_srate : Z;
  ao_channels : Z
}.

Definition audio_out_zero : audio_out :=
  AudioOut false 0 (replicate AO_NUM_BUFFERS false) (replicate AO_NUM_BUFFERS []) 0 0.

(** ** Operations *)
Definition audio_out_open `{Env} (a : audio_out) (srate channels samples_per_frame : Z)
    : IO (Z * audio_out) :=
  if ao_opened a then mret (0, a)
  else
    mr ← ask QWaveOpen;
    if negb (mr =? 0) then mret (ENODEV, audio_out_zero)
    else mret (0, AudioOut true 0 (replicate AO_NUM_BUFFERS true)
                    (replicate AO_NUM_BUFFERS []) srate channels).

Definition audio_out_close (a : audio_out) : IO audio_out :=
  if ao_opened a then emit WaveOutReset ;; mret audio_out_zero else mret a.

Definition audio_out_play (a : audio_out) (pcmu : bytes) : IO audio_out :=
  if negb (ao_opened a) || (length pcmu =? 0)%nat then mret a
  else
    let len := Nat.min (length pcmu) AO_MAX_SAMPLES in
    if negb (nth (ao_next_buf a) (ao_done a) false) then mret a   (* drop this frame *)
    else
      let dst := map ulaw_to_pcm (take len pcmu) in
      emit (WaveOutWrite dst) ;;
      mret (AudioOut true ((ao_next_buf a + 1) mod AO_NUM_BUFFERS)%nat
              (<[ao_next_buf a := false]> (ao_done a)) (<[ao_next_buf a := dst]> (ao_bufs a))
              (ao_srate a) (ao_channels a)).

(** The driver reports buffer [i] as played ([WOM_DONE]). *)
Definition wave_out_done (a : audio_out) (i : nat) : audio_out :=
  AudioOut (ao_opened a) (ao_next_buf a) (<[i := true]> (ao_done a)) (ao_bufs a)
    (ao_srate a) (ao_channels a).

(** ** Invariant

    [k] buffers are with the driver: the [k] before [next_buf], the oldest
    first.  The flags follow from [k] and [next_buf]. *)
Definition done_flags (next k : nat) : list bool :=
  map (fun i => (k <=? (next + AO_NUM_BUFFERS - 1 - i) mod AO_NUM_BUFFERS)%nat)
    (seq 0 AO_NUM_BUFFERS).
Definition aout_inv (a : audio_out) (k : nat) : Prop :=
  (ao_next_buf a < AO_NUM_BUFFERS)%nat /\ (k <= AO_NUM_BUFFERS)%nat
  /\ (ao_opened a = true -> ao_done a = done_flags (ao_next_buf a) k).

(** The steps of an opened device: the program plays a frame, or the driver
    finishes the oldest of [k] buffers. *)
Inductive aout_step : audio_out * nat -> audio_out * nat -> Prop :=
  | step_play a k pcmu s a' s' :
      audio_out_play a pcmu s = (a', s') ->
      aout_step (a, k) (a', k + (length (out s') - length (out s)))%nat
  | step_done a k :
      aout_step (a, S k)
        (wave_out_done a ((ao_next_buf a + AO_NUM_BUFFERS - S k) mod AO_NUM_BUFFERS)%nat, k).

(** ** Lemmas *)

(** Case analysis over every position and number of busy buffers. *)
Ltac all_flags :=
  let n := fresh "n" in let k := fresh "k" in
  let Hn := fresh "Hn" in let Hk := fresh "Hk" in
  intros n k Hn Hk; unfold AO_NUM_BUFFERS in *;
  assert (n = 0 \/ n = 1 \/ n = 2 \/ n = 3)%nat by lia;
  assert (k = 0 \/ k = 1 \/ k = 2 \/ k = 3 \/ k = 4)%nat by lia;
  destruct_or?; subst; try done.

(** The next buffer is busy exactly when all of them are. *)
Lemma next_busy : forall n k, (n < AO_NUM_BUFFERS)%nat -> (k <= AO_NUM_BUFFERS)%nat ->
  nth n (done_flags n k) false = negb (k =? AO_NUM_BUFFERS)%nat.
Proof. all_flags. Qed.

Lemma flags_play : forall n k, (n < AO_NUM_BUFFERS)%nat -> (k <= AO_NUM_BUFFERS)%nat ->
  (k < AO_NUM_BUFFERS)%nat ->
  <[n := false]> (done_flags n k) = done_flags ((n + 1) mod AO_NUM_BUFFERS)%nat (S k).
Proof. all_flags; unfold AO_NUM_BUFFERS; lia. Qed.

Lemma flags_done : forall n k, (n < AO_NUM_BUFFERS)%nat -> (k <= AO_NUM_BUFFERS)%nat ->
  (0 < k)%nat ->
  <[((n + AO_NUM_BUFFERS - k) mod AO_NUM_BUFFERS)%nat := true]> (done_flags n k)
  = done_flags n (k - 1)%nat.
Proof. all_flags; lia. Qed.

(** What a call to play does on a device with [k] busy buffers. *)
Lemma audio_out_play_cases a k pcmu s :
  aout_inv a k -> ao_opened a = true -> pcmu <> [] ->
  if (k =? AO_NUM_BUFFERS)%nat then audio_out_play a pcmu s = (a, s)
  else exists a', audio_out_play a pcmu s
        = (a', Sys (tick s) (out s ++ [WaveOutWrite (map ulaw_to_pcm (take AO_MAX_SAMPLES pcmu))]))
      /\ aout_inv a' (S k).
Proof.
  intros (Hn & Hk & Hd) Ho Hp. specialize (Hd Ho).
  unfold audio_out_play. rewrite Ho, Hd, next_busy by done. cbn [negb orb].
  destruct (length pcmu =? 0)%nat eqn:El; bool_hyps; [by destruct pcmu|].
  destruct (k =? AO_NUM_BUFFERS)%nat eqn:Ek; bool_hyps; cbn [negb]; [done|].
  assert (take (Nat.min (length pcmu) AO_MAX_SAMPLES) pcmu = take AO_MAX_SAMPLES pcmu) as ->.
  { destruct (Nat.le_gt_cases (length pcmu) AO_MAX_SAMPLES).
    - rewrite Nat.min_l by done. by rewrite !take_ge by done.
    - by rewrite Nat.min_r by lia. }
  eexists. split; [reflexivity|]. repeat split; cbn [ao_next_buf ao_opened ao_done].
  - apply Nat.mod_upper_bound. done.
  - lia.
  - intros _. apply flags_play; lia.
Qed.

(** ** Theorems *)

(** Playback: the invariant on the buffer flags is preserved by every step
    of program and driver; a frame is dropped only when all four buffers are
    with the driver, and otherwise exactly its first 960 samples are decoded
    and written, into a buffer the driver does not own. *)
Theorem audio_out_safe (a a' : audio_out) (k k' : nat) :
  aout_step (a, k) (a', k') -> ao_opened a = true -> aout_inv a k ->
  aout_inv a' k'
  /\ forall pcmu s, pcmu <> [] ->
       (audio_out_play a pcmu s = (a, s) /\ k = AO_NUM_BUFFERS)
       \/ (out (snd (audio_out_play a pcmu s))
           = out s ++ [WaveOutWrite (map ulaw_to_pcm (take AO_MAX_SAMPLES pcmu))]
           /\ (k < AO_NUM_BUFFERS)%nat).
Proof.
  intros Hstep Ho Hinv. split.
  - inversion Hstep as [a0 k0 pcmu s a1 s1 Hplay|a0 k0]; subst.
    + destruct pcmu as [|x pcmu].
      { unfold audio_out_play in *. rewrite Ho in *. cbn in *. simplify_eq.
        injection Hplay as -> ->. match goal with |- aout_inv _ ?x => by replace x with k by lia end. }
      pose proof (audio_out_play_cases a k (x :: pcmu) s Hinv Ho ltac:(done)) as H.
      destruct (k =? AO_NUM_BUFFERS)%nat.
      * rewrite H in Hplay. injection Hplay as <- <-. match goal with |- aout_inv _ ?x => by replace x with k by lia end.
      * destruct H as (a1 & Hpl & Ha1). rewrite Hpl in Hplay. injection Hplay as <- <-. cbn [out].
        rewrite length_app. cbn [length].
        by replace (k + (length (out s) + 1 - length (out s)))%nat with (S k) by lia.
    + destruct Hinv as (Hn & Hk & Hd). split; [done|]. split; [lia|].
      intros _. cbn [ao_done ao_next_buf wave_out_done].
      rewrite (Hd Ho). etransitivity; [apply (flags_done (ao_next_buf a) (S k')); lia|]. f_equal. lia.
  - intros pcmu s Hp. pose proof (audio_out_play_cases a k pcmu s Hinv Ho Hp) as H.
    pose proof Hinv as (_ & Hk & _).
    destruct (k =? AO_NUM_BUFFERS)%nat eqn:Ek; bool_hyps.
    + left. done.
    + right. destruct H as (a1 & -> & _). split; [done|lia].
Qed.

Lemma audio_out_safe_witness :
  let a := AudioOut true 0 (replicate 4 true) (replicate 4 []) 8000 1 in
  aout_inv (fst (audio_out_play a [0; 255] (Sys 0 []))) 1.
Proof.
  apply (audio_out_safe (AudioOut true 0 (replicate 4 true) (replicate 4 []) 8000 1) _ 0 1).
  - apply (step_play _ 0 [0; 255] (Sys 0 []) _ (Sys 0 [WaveOutWrite (map ulaw_to_pcm [0; 255])])).
    vm_compute. reflexivity.
  - reflexivity.
  - repeat split; cbn; unfold AO_NUM_BUFFERS; lia.
Defined.
