(* ===== verification/Base64.v ===== *)
(** * Base-64 (libre [src/base64/b64.c])

    The encoders and the decoder, as the session description uses them for the
    parameter sets of the video stream. *)
From S2P Require Import Prelude Sys.

Definition b64_table : bytes :=
  cstr "ABCDEFGHIJKLMNOPQRSTUVWXYZabcdefghijklmnopqrstuvwxyz0123456789+/".
Definition b64url_table : bytes :=
  cstr "ABCDEFGHIJKLMNOPQRSTUVWXYZabcdefghijklmnopqrstuvwxyz0123456789-_".

(** Character of a 6-bit group of [v]. *)
Definition b64_char (table : bytes) (v sh : Z) : Z :=
  nth (Z.to_nat (Z.land (Z.shiftr v sh) 0x3f)) table 0.

(** The [uint32_t] of up to three octets. *)
Definition b64_word (a b c : Z) : Z :=
  Z.lor (Z.lor (Z.shiftl a 16) (Z.shiftl b 8)) (Z.shiftl c 0).

(** The encoding loop; a short last group is padded. *)
Fixpoint b64_loop (table : bytes) (pad : bool) (l : bytes) : bytes :=
  match l with
  | [] => []
  | [a] =>
      let v := b64_word a 0 0 in
      b64_char table v 18 :: b64_char table v 12 :: (if pad then [61; 61] else [])
  | [a; b] =>
      let v := b64_word a b 0 in
      b64_char table v 18 :: b64_char table v 12 :: b64_char table v 6 :: (if pad then [61] else [])
  | a :: b :: c :: t =>
      let v := b64_word a b c in
      b64_char table v 18 :: b64_char table v 12 :: b64_char table v 6 :: b64_char table v 0
      :: b64_loop table pad t
  end.

(** [olen] is the size of the output buffer; the result is the error code and
    the characters written. *)
Definition base64_encode (l : bytes) (olen : nat) : Z * bytes :=
  if (olen <? 4 * ((length l + 2) / 3))%nat then (EOVERFLOW, [])
  else (0, b64_loop b64_table true l).

Definition base64url_encode (l : bytes) (olen : nat) : Z * bytes :=
  if (olen <? 4 * ((length l + 2) / 3))%nat then (EOVERFLOW, [])
  else (0, b64_loop b64url_table false l).

Definition b64val (c : Z) : Z :=
  if (65 <=? c) && (c <=? 90) then c - 65
  else if (97 <=? c) && (c <=? 122) then c - 97 + 26
  else if (48 <=? c) && (c <=? 57) then c - 48 + 52
  else if (c =? 43) || (c =? 45) then 62
  else if (c =? 47) || (c =? 95) then 63
  else if c =? 61 then 2 ^ 24
  else 0.

(** The octets of one group; the bits 24 and 30 mark padding. *)
Definition b64_group (x0 x1 x2 x3 : Z) : bytes :=
  let v := Z.lor (Z.lor (Z.lor (u32 (Z.shiftl x0 18)) (u32 (Z.shiftl x1 12)))
                        (u32 (Z.shiftl x2 6))) (u32 (Z.shiftl x3 0)) in
  u8 (Z.shiftr v 16)
  :: (if Z.land v (2 ^ 30) =? 0 then [Z.land (Z.shiftr v 8) 0xff] else [])
  ++ (if Z.land v (2 ^ 24) =? 0 then [Z.land (Z.shiftr v 0) 0xff] else []).

Fixpoint b64_decode_loop (l : bytes) : bytes :=
  match l with
  | a :: b :: c :: d :: t => b64_group (b64val a) (b64val b) (b64val c) (b64val d) ++ b64_decode_loop t
  | [a; b; c] => b64_group (b64val a) (b64val b) (b64val c) (2 ^ 24)
  | [a; b] => b64_group (b64val a) (b64val b) (2 ^ 24) (2 ^ 24)
  | _ => []
  end.

Definition base64_decode (l : bytes) (olen : nat) : Z * bytes :=
  if (olen <? 3 * (length l / 4))%nat then (EOVERFLOW, []) else (0, b64_decode_loop l).

(** ** Lemmas *)
Lemma lor_shiftl_add a b n :
  0 <= n -> 0 <= b < 2 ^ n -> Z.lor (Z.shiftl a n) b = a * 2 ^ n + b.
Proof.
  intros Hn Hb. rewrite <- Z.shiftl_mul_pow2 by done.
  rewrite <- Z.lxor_lor, Z.add_nocarry_lxor; [done| |];
    (apply Z.bits_inj'; intros i Hi; rewrite Z.land_spec, Z.bits_0;
     destruct (Z.lt_ge_cases i n);
     [by rewrite Z.shiftl_spec_low
     |destruct (Z.eq_dec b 0) as [->|]; [by rewrite Z.bits_0, andb_false_r|];
      rewrite (Z.bits_above_log2 b), andb_false_r; [done|lia|];
      apply Z.log2_lt_pow2; [lia|]; apply Z.lt_le_trans with (2 ^ n); [lia|];
      apply Z.pow_le_mono_r; lia]).
Qed.

Lemma b64_word_sum a b c :
  is_byte a -> is_byte b -> is_byte c -> b64_word a b c = a * 65536 + b * 256 + c.
Proof.
  unfold is_byte. intros Ha Hb Hc. unfold b64_word. rewrite Z.shiftl_0_r, <- Z.lor_assoc.
  rewrite (lor_shiftl_add b c 8) by lia. change (2 ^ 8) with 256.
  rewrite lor_shiftl_add by lia. lia.
Qed.

(** A character of either alphabet decodes to its index. *)
Lemma b64_char_val table v sh :
  table = b64_table \/ table = b64url_table -> 0 <= v -> 0 <= sh ->
  b64val (b64_char table v sh) = v / 2 ^ sh mod 64.
Proof.
  intros Ht Hv Hs. unfold b64_char.
  change 0x3f with (Z.ones 6). rewrite Z.land_ones, Z.shiftr_div_pow2 by lia.
  change (2 ^ 6) with 64.
  assert (0 <= v / 2 ^ sh mod 64 < Z.of_nat 64) as Hr by (apply Z.mod_pos_bound; lia).
  revert Hr. generalize (v / 2 ^ sh mod 64). intros i Hi.
  pose proof (range_check 64 (fun i => (b64val (nth (Z.to_nat i) b64_table 0) =? i)
    && (b64val (nth (Z.to_nat i) b64url_table 0) =? i)) eq_refl i Hi) as H.
  cbn beta in H. bool_hyps. by destruct Ht as [-> | ->].
Qed.

(** Four 6-bit groups are one 24-bit number. *)
Lemma group_sum x0 x1 x2 x3 :
  0 <= x0 < 64 -> 0 <= x1 < 64 -> 0 <= x2 < 64 -> 0 <= x3 < 64 ->
  Z.lor (Z.lor (Z.lor (u32 (Z.shiftl x0 18)) (u32 (Z.shiftl x1 12)))
               (u32 (Z.shiftl x2 6))) (u32 (Z.shiftl x3 0))
  = x0 * 262144 + x1 * 4096 + x2 * 64 + x3.
Proof.
  intros H0 H1 H2 H3.
  rewrite !u32_small by (rewrite Z.shiftl_mul_pow2 by lia; lia).
  rewrite Z.shiftl_0_r, <- !Z.lor_assoc.
  rewrite (lor_shiftl_add x2 x3 6), (lor_shiftl_add x1 _ 12), (lor_shiftl_add x0 _ 18) by lia.
  lia.
Qed.

Lemma land_pow2_above v n : 0 <= n -> 0 <= v < 2 ^ n -> Z.land v (2 ^ n) = 0.
Proof.
  intros Hn Hv. rewrite Z.land_comm.
  pose proof (Z.add_lor_land (2 ^ n) v) as H.
  replace (2 ^ n) with (Z.shiftl 1 n) in H |- * by (rewrite Z.shiftl_mul_pow2; lia).
  rewrite lor_shiftl_add in H by done. rewrite Z.shiftl_mul_pow2 in * by done. lia.
Qed.

Lemma land_pow2_set v n : 0 <= n -> 2 ^ n <= v < 2 * 2 ^ n -> Z.land v (2 ^ n) = 2 ^ n.
Proof.
  intros Hn Hv.
  assert (v = Z.lor (Z.shiftl 1 n) (v - 2 ^ n)) as -> by (rewrite lor_shiftl_add; lia).
  rewrite Z.shiftl_1_l, Z.land_comm.
  rewrite Z.land_lor_distr_r, Z.land_diag, (Z.land_comm _ (v - _)), land_pow2_above by lia.
  by rewrite Z.lor_0_r.
Qed.

Lemma land_ff v : Z.land v 0xff = v mod 256.
Proof. change 0xff with (Z.ones 8). by rewrite Z.land_ones. Qed.

Lemma group4 x0 x1 x2 x3 :
  0 <= x0 < 64 -> 0 <= x1 < 64 -> 0 <= x2 < 64 -> 0 <= x3 < 64 ->
  let v := x0 * 262144 + x1 * 4096 + x2 * 64 + x3 in
  b64_group x0 x1 x2 x3 = [v / 65536; v / 256 mod 256; v mod 256].
Proof.
  intros H0 H1 H2 H3 v. unfold b64_group. rewrite group_sum by done. fold v. cbv zeta.
  assert (0 <= v < 16777216) by lia.
  rewrite !land_pow2_above, !land_ff, !Z.shiftr_div_pow2 by lia. cbn [Z.eqb app].
  change (2 ^ 0) with 1. rewrite Z.div_1_r, u8_small; [done|].
  change (2 ^ 16) with 65536. Z.div_mod_to_equations. lia.
Qed.

Lemma group3 x0 x1 x2 :
  0 <= x0 < 64 -> 0 <= x1 < 64 -> 0 <= x2 < 64 ->
  let v := x0 * 262144 + x1 * 4096 + x2 * 64 in
  b64_group x0 x1 x2 (2 ^ 24) = [v / 65536; v / 256 mod 256].
Proof.
  intros H0 H1 H2 v. unfold b64_group.
  change (u32 (Z.shiftl (2 ^ 24) 0)) with (Z.shiftl 1 24).
  pose proof (group_sum x0 x1 x2 0 H0 H1 H2 ltac:(lia)) as Hs.
  change (u32 (Z.shiftl 0 0)) with 0 in Hs. rewrite Z.lor_0_r in Hs.
  rewrite Hs, Z.add_0_r. fold v. cbv zeta. assert (0 <= v < 16777216) by lia.
  rewrite Z.lor_comm, lor_shiftl_add by lia.
  rewrite land_pow2_above, land_pow2_set, !land_ff, !Z.shiftr_div_pow2 by lia. cbn [Z.eqb app].
  change (2 ^ 24 =? 0) with false. cbv iota.
  f_equal; [|f_equal]; unfold u8; Z.div_mod_to_equations; lia.
Qed.

Lemma group2 x0 x1 :
  0 <= x0 < 64 -> 0 <= x1 < 64 ->
  let v := x0 * 262144 + x1 * 4096 in
  b64_group x0 x1 (2 ^ 24) (2 ^ 24) = [v / 65536].
Proof.
  intros H0 H1 v. unfold b64_group.
  change (u32 (Z.shiftl (2 ^ 24) 6)) with (Z.shiftl 1 30).
  change (u32 (Z.shiftl (2 ^ 24) 0)) with (Z.shiftl 1 24).
  pose proof (group_sum x0 x1 0 0 H0 H1 ltac:(lia) ltac:(lia)) as Hs.
  change (u32 (Z.shiftl 0 6)) with 0 in Hs. change (u32 (Z.shiftl 0 0)) with 0 in Hs.
  rewrite !Z.lor_0_r in Hs.
  rewrite Hs. assert (x0 * 262144 + x1 * 4096 + 0 * 64 + 0 = v) as -> by (unfold v; lia).
  cbv zeta. assert (0 <= v < 16777216) by lia.
  rewrite (Z.lor_comm v), <- Z.lor_assoc, (Z.lor_comm v).
  rewrite (lor_shiftl_add 1 v), lor_shiftl_add by lia.
  rewrite land_pow2_set by lia. change (2 ^ 30 =? 0) with false. cbv iota.
  assert (Z.land (1 * 2 ^ 30 + (1 * 2 ^ 24 + v)) (2 ^ 24) = 2 ^ 24) as ->.
  { rewrite <- (lor_shiftl_add 1 _ 30) by lia. rewrite Z.land_lor_distr_l.
    rewrite (land_pow2_set (1 * 2 ^ 24 + v) 24) by lia. reflexivity. }
  change (2 ^ 24 =? 0) with false. cbn [app].
  f_equal. rewrite Z.shiftr_div_pow2 by lia. unfold u8. Z.div_mod_to_equations; lia.
Qed.

(** Decoding what either encoder wrote. *)
Lemma b64_loop_roundtrip table pad l :
  table = b64_table \/ table = b64url_table -> Forall is_byte l ->
  b64_decode_loop (b64_loop table pad l) = l.
Proof.
  intros Ht. assert (b64val 61 = 2 ^ 24) as H61 by done.
  induction l as [l IH] using (induction_ltof1 _ (@length Z)). unfold ltof in IH. intros Hl.
  destruct l as [|a [|b [|c t]]]; [done|..].
  all: inversion Hl as [|? ? Ha Hl1]; subst.
  2, 3: inversion Hl1 as [|? ? Hb Hl2]; subst.
  3: inversion Hl2 as [|? ? Hc Hl3]; subst.
  - pose proof (b64_word_sum a 0 0 Ha ltac:(done) ltac:(done)) as Hw. unfold is_byte in Ha.
    destruct pad; cbn [b64_loop b64_decode_loop]; rewrite ?H61;
      rewrite !b64_char_val by (done || lia); rewrite Hw;
      rewrite ?app_nil_r, group2 by mod_lia; f_equal; mod_lia.
  - pose proof (b64_word_sum a b 0 Ha Hb ltac:(done)) as Hw. unfold is_byte in Ha, Hb.
    destruct pad; cbn [b64_loop b64_decode_loop]; rewrite ?H61;
      rewrite !b64_char_val by (done || lia); rewrite Hw;
      rewrite ?app_nil_r, group3 by mod_lia; f_equal; [mod_lia|f_equal; mod_lia
        |mod_lia|f_equal; mod_lia].
  - pose proof (b64_word_sum a b c Ha Hb Hc) as Hw. unfold is_byte in Ha, Hb, Hc.
    cbn [b64_loop b64_decode_loop]. rewrite !b64_char_val by (done || lia). rewrite Hw.
    rewrite IH by (done || (cbn; lia)). rewrite group4 by mod_lia. cbn [app].
    f_equal; [mod_lia|f_equal; [mod_lia|f_equal; mod_lia]].
Qed.

Lemma b64_loop_length l : length (b64_loop b64_table true l) = (4 * ((length l + 2) / 3))%nat.
Proof.
  induction l as [l IH] using (induction_ltof1 _ (@length Z)). unfold ltof in IH.
  destruct l as [|a [|b [|c t]]]; [done..|]. cbn [b64_loop length].
  rewrite IH by (cbn; lia). replace (S (S (S (length t))) + 2)%nat with (length t + 2 + 1 * 3)%nat by lia.
  rewrite Nat.div_add by lia. lia.
Qed.

(** ** Theorem *)

(** Base-64 round trip: an encoder that has room writes exactly
    [4 * ceil(n / 3)] characters, and decoding them with room for the groups
    gives the octets back; with less room it writes nothing and reports the
    overflow. *)
Theorem base64_roundtrip (l : bytes) (olen dlen : nat) :
  Forall is_byte l -> (3 * ((length l + 2) / 3) <= dlen)%nat ->
  if (olen <? 4 * ((length l + 2) / 3))%nat then base64_encode l olen = (EOVERFLOW, [])
  else exists t, base64_encode l olen = (0, t)
         /\ length t = (4 * ((length l + 2) / 3))%nat /\ base64_decode t dlen = (0, l).
Proof.
  intros Hl Hd. unfold base64_encode. case_if; [done|]. eexists. split; [done|].
  split; [apply b64_loop_length|]. unfold base64_decode. rewrite b64_loop_length.
  rewrite (Nat.mul_comm 4), Nat.div_mul by lia.
  destruct (dlen <? _)%nat eqn:Ed; bool_hyps; [lia|].
  by rewrite b64_loop_roundtrip by auto.
Qed.

Lemma base64_roundtrip_witness :
  exists t, base64_encode [103; 66; 192; 31] 127 = (0, t) /\ base64_decode t 64 = (0, [103; 66; 192; 31]).
Proof.
  destruct (base64_roundtrip [103; 66; 192; 31] 127 64) as (t & H1 & _ & H2).
  - repeat (apply Forall_cons_2; [unfold is_byte; lia|]); constructor.
  - cbn; lia.
  - exists t. split; [exact H1|exact H2].
Defined.
