(* ===== verification/Camera.v ===== *)
(** * Camera and encoder ([camera_win.c])

    The module state [g_cam], the test picture, and the extraction of NAL units
    from what the encoder returns.  The encoder itself (OpenH264) is the
    environment's. *)
From S2P Require Import Prelude Sys.

Definition MAX_NALUS : nat := 32.

(** [sps] and [pps] are the first [sps_len] and [pps_len] bytes of the arrays;
    [yuv] is the picture buffer; the encoder handle is set exactly while
    [opened]. *)
Record camera := Camera {
  cam_opened : bool;
  cam_width : nat;
  cam_height : nat;
  cam_fps : Z;
  cam_yuv : bytes;
  cam_sps : bytes;
  cam_pps : bytes;
  cam_has_params : bool;
  cam_frame_idx : Z;
  cam_force_idr : bool
}.

Definition camera_zero : camera := Camera false 0 0 0 [] [] [] false 0 false.

Record camera_frame := Frame { fr_nalus : list bytes; fr_keyframe : bool }.

(** ** Test picture *)
Definition bars_y : list Z := [235; 162; 131; 112; 84; 65; 35; 16].
Definition bars_u : list Z := [128; 44; 156; 72; 184; 100; 212; 128].
Definition bars_v : list Z := [128; 142; 44; 158; 98; 214; 72; 128].

(** A write of consecutive bytes.  A write that ends behind the buffer makes
    the list longer, so the length shows whether every write was in bounds. *)
Definition store (b : bytes) (off : nat) (v : bytes) : bytes :=
  take off b ++ v ++ drop (off + length v) b.

(** One row of bars of width [w]. *)
Definition bar_row (bars : list Z) (w : nat) : bytes :=
  map (fun x => nth (x * 8 / w) bars 0) (seq 0 w).

(** The row loop of a plane at [base]. *)
Fixpoint store_rows (b : bytes) (base : nat) (row : bytes) (n : nat) : bytes :=
  match n with
  | O => b
  | S n' => store_rows (store b base row) (base + length row) row n'
  end.

Definition generate_test_pattern (yuv : bytes) (w h : nat) (frame_idx : Z) : bytes :=
  let u_plane := (w * h)%nat in
  let v_plane := (u_plane + w * h / 4)%nat in
  let yuv := store_rows yuv 0 (bar_row bars_y w) h in
  let hw := (w / 2)%nat in
  let hh := (h / 2)%nat in
  let yuv := store_rows yuv u_plane (bar_row bars_u hw) hh in
  let yuv := store_rows yuv v_plane (bar_row bars_v hw) hh in
  let line_y := Z.to_nat (u32 (frame_idx * 4) mod Z.of_nat h) in
  store yuv (line_y * w) (replicate w 235).

(** ** Operations *)
Definition camera_open `{Env} (width height : nat) (fps bitrate_kbps : Z) : M camera Z :=
  c ← get;
  if cam_opened c then mret EALREADY
  else
    modify (fun _ => camera_zero) ;;
    rv ← lift (ask QEncCreate);
    if negb (rv =? 0) then mret EINVAL
    else
      rv ← lift (ask QEncInit);
      if negb (rv =? 0) then lift (emit EncoderDestroy) ;; mret EINVAL
      else
        ok ← lift (ask QAlloc);
        if ok =? 0 then lift (emit EncoderDestroy) ;; mret ENOMEM
        else
          modify (fun _ => Camera true width height fps
                    (map env_uninit (seq 0 (width * height * 3 / 2))) [] [] false 0 false) ;;
          mret 0.

Definition camera_close : M camera unit :=
  c ← get;
  if negb (cam_opened c) then mret tt
  else lift (emit EncoderDestroy) ;; modify (fun _ => camera_zero).

(** The start code at the front of a unit of [nal_len] bytes. *)
Definition start_code_len (nal_len : Z) (p : bytes) : Z :=
  if (4 <=? nal_len) && prefixb [0; 0; 0; 1] p then 4
  else if (3 <=? nal_len) && prefixb [0; 0; 1] p then 3
  else 0.

(** The cached parameter sets: [sps], [pps], [has_params]. *)
Record params := Params { p_sps : bytes; p_pps : bytes; p_has : bool }.

Definition cache_params (ps : params) (nalu : bytes) : params :=
  if p_has ps then ps
  else
    match nalu with
    | [] => ps
    | b0 :: _ =>
        let nal_type := Z.land b0 0x1f in
        let '(sps, pps) :=
          if (nal_type =? 7) && (length nalu <=? 64)%nat then (nalu, p_pps ps)
          else if (nal_type =? 8) && (length nalu <=? 64)%nat then (p_sps ps, nalu)
          else (p_sps ps, p_pps ps) in
        Params sps pps ((0 <? length sps)%nat && (0 <? length pps)%nat)
    end.

(** The inner loop over the units of a layer; [nalus] are those found so far.
    A skipped unit does not advance the buffer. *)
Fixpoint extract_layer (buf : bytes) (lens : list Z) (nalus : list bytes) (ps : params)
    : list bytes * params :=
  match lens with
  | [] => (nalus, ps)
  | nal_len :: lens' =>
      if (nal_len <=? 0) || (MAX_NALUS <=? length nalus)%nat
      then extract_layer buf lens' nalus ps
      else
        let skip := start_code_len nal_len buf in
        let nalu := take (Z.to_nat (nal_len - skip)) (drop (Z.to_nat skip) buf) in
        extract_layer (drop (Z.to_nat nal_len) buf) lens' (nalus ++ [nalu]) (cache_params ps nalu)
  end.

Fixpoint extract_layers (ls : list layer) (nalus : list bytes) (ps : params) : list bytes * params :=
  match ls with
  | [] => (nalus, ps)
  | l :: ls' =>
      let '(nalus', ps') := extract_layer (pBsBuf l) (pNalLengthInByte l) nalus ps in
      extract_layers ls' nalus' ps'
  end.

Definition encode_frame `{Env} (yuv : bytes) : IO enc_out :=
  fun s => (env_encode yuv (tick s), Sys (S (tick s)) (out s ++ [EncodeFrame yuv])).

Definition cam_params (c : camera) : params := Params (cam_sps c) (cam_pps c) (cam_has_params c).
Definition cam_set_params (ps : params) (c : camera) : camera :=
  Camera (cam_opened c) (cam_width c) (cam_height c) (cam_fps c) (cam_yuv c)
    (p_sps ps) (p_pps ps) (p_has ps) (cam_frame_idx c) (cam_force_idr c).
Definition cam_set_yuv (y : bytes) (c : camera) : camera :=
  Camera (cam_opened c) (cam_width c) (cam_height c) (cam_fps c) y
    (cam_sps c) (cam_pps c) (cam_has_params c) (cam_frame_idx c) (cam_force_idr c).
Definition cam_set_idr (b : bool) (c : camera) : camera :=
  Camera (cam_opened c) (cam_width c) (cam_height c) (cam_fps c) (cam_yuv c)
    (cam_sps c) (cam_pps c) (cam_has_params c) (cam_frame_idx c) b.
Definition cam_next_frame (c : camera) : camera :=
  Camera (cam_opened c) (cam_width c) (cam_height c) (cam_fps c) (cam_yuv c)
    (cam_sps c) (cam_pps c) (cam_has_params c) (u32 (cam_frame_idx c + 1)) (cam_force_idr c).

(** The error code, and the frame when it is 0. *)
Definition camera_get_frame `{Env} : M camera (Z * camera_frame) :=
  let none := Frame [] false in
  c ← get;
  if negb (cam_opened c) then mret (EINVAL, none)
  else
    (if cam_force_idr c then lift (emit ForceIntraFrame) ;; modify (cam_set_idr false)
     else mret tt) ;;
    modify (fun c => cam_set_yuv
      (generate_test_pattern (cam_yuv c) (cam_width c) (cam_height c) (cam_frame_idx c)) c) ;;
    c ← get;
    o ← lift (encode_frame (cam_yuv c));
    if negb (enc_rv o =? 0) then mret (EIO, none)
    else
      match eFrameType o with
      | videoFrameTypeSkip => mret (EAGAIN, none)
      | ty =>
          let '(nalus, ps) := extract_layers (sLayerInfo o) [] (cam_params c) in
          modify (cam_set_params ps) ;;
          match nalus with
          | [] => mret (EAGAIN, none)
          | _ =>
              modify cam_next_frame ;;
              mret (0, Frame nalus (match ty with videoFrameTypeIDR => true | _ => false end))
          end
      end.

Definition camera_request_keyframe : M camera unit := modify (cam_set_idr true).

(** The error code and the two parameter sets. *)
Definition camera_get_sps_pps : M camera (Z * bytes * bytes) :=
  c ← get;
  mret (if cam_has_params c then (0, cam_sps c, cam_pps c) else (EAGAIN, [], [])).

(** ** Invariant *)
Definition params_wf (ps : params) : Prop :=
  (length (p_sps ps) <= 64)%nat /\ (length (p_pps ps) <= 64)%nat
  /\ (p_has ps = true -> (0 < length (p_sps ps))%nat /\ (0 < length (p_pps ps))%nat).

Definition camera_wf (c : camera) : Prop :=
  params_wf (cam_params c) /\ 0 <= cam_frame_idx c < 4294967296
  /\ (cam_opened c = true -> (0 < cam_width c)%nat /\ (0 < cam_height c)%nat
      /\ length (cam_yuv c) = (cam_width c * cam_height c * 3 / 2)%nat).

(** ** Lemmas: the test picture *)
Lemma store_length b off v :
  (off + length v <= length b)%nat -> length (store b off v) = length b.
Proof. intros H. unfold store. len_lia. Qed.

Lemma store_store b off v w :
  (off + length v + length w <= length b)%nat ->
  store (store b off v) (off + length v) w = store b off (v ++ w).
Proof.
  intros H. unfold store.
  rewrite (app_assoc (take off b) v). rewrite take_app_length' by len_lia.
  rewrite drop_app_ge by len_lia. rewrite drop_drop.
  rewrite <- !app_assoc. do 4 f_equal. len_lia.
Qed.

(** The rows of a plane are one contiguous write. *)
Lemma store_rows_eq b base row n :
  (base + n * length row <= length b)%nat ->
  store_rows b base row n = store b base (concat (replicate n row)).
Proof.
  revert b base. induction n as [|n IH]; intros b base H; cbn [store_rows replicate concat].
  - unfold store. cbn [app length]. rewrite Nat.add_0_r. by rewrite take_drop.
  - rewrite IH.
    + apply store_store.
      assert (length (concat (replicate n row)) = n * length row)%nat as ->
        by (clear; induction n; cbn; len_lia). lia.
    + rewrite store_length; lia.
Qed.

Lemma concat_replicate_length {A} n (row : list A) :
  length (concat (replicate n row)) = (n * length row)%nat.
Proof. induction n; cbn; len_lia. Qed.

Lemma store_rows_length b base row n :
  (base + n * length row <= length b)%nat -> length (store_rows b base row n) = length b.
Proof.
  intros H. rewrite store_rows_eq by done. apply store_length.
  rewrite concat_replicate_length. lia.
Qed.

Lemma bar_row_length bars w : length (bar_row bars w) = w.
Proof. unfold bar_row. len_lia. Qed.

(** The three planes and the line, within a buffer of [w * h * 3 / 2] bytes. *)
Lemma plane_bounds w h :
  (w / 2 * (h / 2) <= w * h / 4)%nat /\ (w * h + w * h / 4 + w * h / 4 <= w * h * 3 / 2)%nat.
Proof.
  split.
  - apply Nat.div_le_lower_bound; [lia|].
    pose proof (Nat.Div0.mul_div_le w 2). pose proof (Nat.Div0.mul_div_le h 2). nia.
  - apply Nat.div_le_lower_bound; [lia|].
    pose proof (Nat.Div0.mul_div_le (w * h) 4). lia.
Qed.

Lemma generate_test_pattern_stores yuv w h i :
  (0 < w)%nat -> (0 < h)%nat -> length yuv = (w * h * 3 / 2)%nat ->
  exists y, generate_test_pattern yuv w h i
    = store y (Z.to_nat (u32 (i * 4) mod Z.of_nat h) * w) (replicate w 235)
    /\ y = store (store (store yuv 0 (concat (replicate h (bar_row bars_y w))))
             (w * h) (concat (replicate (h / 2) (bar_row bars_u (w / 2)))))
             (w * h + w * h / 4) (concat (replicate (h / 2) (bar_row bars_v (w / 2))))
    /\ length y = length yuv.
Proof.
  intros Hw Hh Hl. destruct (plane_bounds w h) as [B1 B2].
  eexists. unfold generate_test_pattern. split; [|split; [reflexivity|]].
  all: assert (h * w = w * h)%nat by lia.
  all: rewrite (Nat.mul_comm (w / 2)) in B1; rewrite <- Hl in B2; clear Hl; cbv zeta;
    generalize dependent (w * h / 4)%nat; generalize dependent (w / 2)%nat;
    generalize dependent (h / 2)%nat; intros hh hw q B1 B2.
  - rewrite !store_rows_eq; repeat first [done | rewrite bar_row_length | rewrite store_rows_length]; lia.
  - repeat first [done | rewrite concat_replicate_length | rewrite bar_row_length
                 | rewrite store_length]; lia.
Qed.

Lemma line_in_picture h i : (0 < h)%nat -> (Z.to_nat (u32 (i * 4) mod Z.of_nat h) < h)%nat.
Proof. intros Hh. pose proof (Z.mod_pos_bound (u32 (i * 4)) (Z.of_nat h)). lia. Qed.

Lemma generate_test_pattern_length yuv w h i :
  (0 < w)%nat -> (0 < h)%nat -> length yuv = (w * h * 3 / 2)%nat ->
  length (generate_test_pattern yuv w h i) = length yuv.
Proof.
  intros Hw Hh Hl.
  destruct (generate_test_pattern_stores yuv w h i Hw Hh Hl) as (b & -> & _ & Hb).
  pose proof (line_in_picture h i Hh) as Hline. destruct (plane_bounds w h) as [_ B2].
  set (line := Z.to_nat _) in *. assert (line * w + w <= w * h)%nat by nia.
  rewrite store_length; len_lia.
Qed.

Lemma store_lookup b off v i :
  (off + length v <= length b)%nat ->
  store b off v !! i =
    if (off <=? i)%nat && (i <? off + length v)%nat then v !! (i - off)%nat else b !! i.
Proof.
  intros H. unfold store. destruct (off <=? i)%nat eqn:E1; bool_hyps; cbn [andb].
  - rewrite lookup_app_r by len_lia. rewrite length_take, Nat.min_l by lia.
    destruct (i <? off + length v)%nat eqn:E2; bool_hyps.
    + by rewrite lookup_app_l by lia.
    + rewrite lookup_app_r by lia. rewrite lookup_drop. f_equal. lia.
  - rewrite lookup_app_l by len_lia. by rewrite lookup_take_lt by lia.
Qed.

Lemma concat_replicate_lookup {A} n (row : list A) y x :
  (y < n)%nat -> (x < length row)%nat ->
  concat (replicate n row) !! (y * length row + x)%nat = row !! x.
Proof.
  revert y. induction n as [|n IH]; intros y Hy Hx; [lia|]. cbn [replicate concat].
  destruct y as [|y]; cbn [Nat.mul].
  - by rewrite lookup_app_l by lia.
  - rewrite lookup_app_r by lia.
    replace (length row + y * length row + x - length row)%nat with (y * length row + x)%nat by lia.
    apply IH; lia.
Qed.

(** The luma value the picture must have at column [x] of row [y]. *)
Definition luma (w h : nat) (frame_idx : Z) (x y : nat) : Z :=
  if Z.of_nat y =? u32 (frame_idx * 4) mod Z.of_nat h then 235 else nth (x * 8 / w) bars_y 0.

Lemma planes_luma yuv w h x y :
  length yuv = (w * h * 3 / 2)%nat -> (x < w)%nat -> (y < h)%nat ->
  store (store (store yuv 0 (concat (replicate h (bar_row bars_y w))))
          (w * h) (concat (replicate (h / 2) (bar_row bars_u (w / 2)))))
    (w * h + w * h / 4) (concat (replicate (h / 2) (bar_row bars_v (w / 2))))
  !! (y * w + x)%nat = Some (nth (x * 8 / w) bars_y 0).
Proof.
  intros Hl Hx Hy. destruct (plane_bounds w h) as [B1 B2].
  assert (y * w + w <= w * h)%nat by nia.
  assert (h * w = w * h)%nat by lia.
  rewrite (Nat.mul_comm (w / 2)) in B1. rewrite <- Hl in B2. clear Hl.
  generalize dependent (w * h / 4)%nat. generalize dependent (w / 2)%nat.
  generalize dependent (h / 2)%nat. intros hh hw q B1 B2.
  rewrite store_lookup by (repeat first [rewrite concat_replicate_length | rewrite bar_row_length
    | rewrite store_length]; lia).
  destruct (w * h + q <=? y * w + x)%nat eqn:E1; bool_hyps; [lia|]. cbn [andb].
  rewrite store_lookup by (repeat first [rewrite concat_replicate_length | rewrite bar_row_length
    | rewrite store_length]; lia).
  destruct (w * h <=? y * w + x)%nat eqn:E2; bool_hyps; [lia|]. cbn [andb].
  rewrite store_lookup by (rewrite concat_replicate_length, bar_row_length; lia).
  rewrite concat_replicate_length, bar_row_length.
  destruct (0 <=? y * w + x)%nat eqn:E3; bool_hyps; [|lia].
  destruct (y * w + x <? 0 + h * w)%nat eqn:E4; bool_hyps; [|lia]. cbn [andb].
  rewrite Nat.sub_0_r.
  pose proof (concat_replicate_lookup h (bar_row bars_y w) y x Hy) as Hc.
  rewrite bar_row_length in Hc. rewrite Hc by done.
  unfold bar_row. rewrite list_lookup_fmap. by rewrite lookup_seq_lt.
Qed.

(** The test picture: for every width and height all writes stay inside
    the buffer of [width * height * 3 / 2] bytes, and the luma plane shows the
    eight bars with the white line of the frame. *)
Theorem generate_test_pattern_correct (yuv : bytes) (w h : nat) (frame_idx : Z) :
  (0 < w)%nat -> (0 < h)%nat -> length yuv = (w * h * 3 / 2)%nat ->
  length (generate_test_pattern yuv w h frame_idx) = length yuv
  /\ forall x y, (x < w)%nat -> (y < h)%nat ->
       generate_test_pattern yuv w h frame_idx !! (y * w + x)%nat
       = Some (luma w h frame_idx x y).
Proof.
  intros Hw Hh Hl. split; [by apply generate_test_pattern_length|].
  destruct (generate_test_pattern_stores yuv w h frame_idx Hw Hh Hl) as (b & -> & Hb & Hbl).
  pose proof (line_in_picture h frame_idx Hh) as Hline. unfold luma.
  set (z := u32 (frame_idx * 4) mod Z.of_nat h) in *. set (line := Z.to_nat z) in *.
  assert (0 <= z) by (apply Z.mod_pos_bound; lia).
  destruct (plane_bounds w h) as [B1 B2].
  assert (forall y, (y < h)%nat -> (y * w + w <= w * h)%nat) as Hrow by (intros y Hy; nia).
  pose proof (Hrow line Hline) as Hlw.
  intros x y Hx Hy. pose proof (Hrow y Hy).
  rewrite store_lookup, length_replicate by len_lia.
  destruct (Z.of_nat y =? z) eqn:Ez; bool_hyps.
  - assert (y = line) as -> by (unfold line; lia).
    destruct (line * w <=? line * w + x)%nat eqn:E1; bool_hyps; [|lia].
    destruct (line * w + x <? line * w + w)%nat eqn:E2; bool_hyps; [|lia].
    cbn [andb]. rewrite lookup_replicate_2; [done|lia].
  - assert ((line * w <=? y * w + x)%nat && (y * w + x <? line * w + w)%nat = false) as ->.
    { assert (y <> line) by (unfold line; lia). apply andb_false_iff.
      rewrite Nat.leb_gt, Nat.ltb_ge. destruct (Nat.lt_ge_cases y line); [left|right]; nia. }
    subst b. by apply planes_luma.
Qed.

Lemma generate_test_pattern_correct_witness :
  generate_test_pattern (replicate 24 0) 4 4 1 !! 1%nat = Some (luma 4 4 1 1 0).
Proof.
  pose proof (generate_test_pattern_correct (replicate 24 0) 4 4 1 ltac:(lia) ltac:(lia)
    eq_refl) as [_ H].
  apply (H 1%nat 0%nat); lia.
Defined.

(** ** NAL unit extraction

    A unit of the encoder's byte stream: a start code of four ([true]) or three
    bytes and the unit itself. *)
Definition annexb (u : bool * bytes) : bytes :=
  (if u.1 then [0; 0; 0; 1] else [0; 0; 1]) ++ u.2.

(** A layer whose buffer is the sequence of these units. *)
Definition layer_of (us : list (bool * bytes)) : layer :=
  Layer (concat (map annexb us)) (map (fun u => zlen (annexb u)) us).

Lemma start_code_annexb u r :
  start_code_len (zlen (annexb u)) (annexb u ++ r) = (if u.1 then 4 else 3).
Proof.
  destruct u as [[] n]; unfold annexb; cbn [fst snd app prefixb length]; unfold start_code_len;
    rewrite !Nat2Z.inj_succ; cbn [prefixb Z.eqb andb].
  - destruct (4 <=? _) eqn:E; bool_hyps; [done|lia].
  - rewrite andb_false_r. destruct (3 <=? _) eqn:E; bool_hyps; [done|lia].
Qed.

Lemma extract_layer_units us r nalus ps :
  (length nalus + length us <= MAX_NALUS)%nat ->
  extract_layer (concat (map annexb us) ++ r) (map (fun u => zlen (annexb u)) us) nalus ps
  = (nalus ++ map snd us, fold_left cache_params (map snd us) ps).
Proof.
  revert nalus ps. induction us as [|u us IH]; intros nalus ps Hn.
  { cbn. by rewrite app_nil_r. }
  cbn [map concat extract_layer fold_left length] in *.
  destruct (zlen (annexb u) <=? 0) eqn:E1; bool_hyps.
  { destruct u as [[] n]; cbn [annexb fst snd app length] in E1; lia. }
  destruct (MAX_NALUS <=? length nalus)%nat eqn:E2; bool_hyps; [lia|]. cbn [orb].
  rewrite <- app_assoc, start_code_annexb. cbv zeta.
  assert (take (Z.to_nat (zlen (annexb u) - (if u.1 then 4 else 3)))
            (drop (Z.to_nat (if u.1 then 4 else 3)) (annexb u ++ concat (map annexb us) ++ r))
          = u.2) as ->.
  { destruct u as [[] n]; cbn [annexb fst snd app]; apply take_app_length'; cbn [length]; lia. }
  rewrite Nat2Z.id, drop_app_length. rewrite IH by len_lia. by rewrite <- app_assoc.
Qed.

Lemma extract_layers_units uss nalus ps :
  (length nalus + length (concat uss) <= MAX_NALUS)%nat ->
  extract_layers (map layer_of uss) nalus ps
  = (nalus ++ map snd (concat uss), fold_left cache_params (map snd (concat uss)) ps).
Proof.
  revert nalus ps. induction uss as [|us uss IH]; intros nalus ps Hn.
  { cbn. by rewrite app_nil_r. }
  cbn [map concat extract_layers layer_of pBsBuf pNalLengthInByte] in *.
  pose proof (extract_layer_units us [] nalus ps) as Hl. rewrite app_nil_r in Hl.
  rewrite Hl by len_lia. rewrite IH by len_lia.
  by rewrite !map_app, fold_left_app, <- app_assoc.
Qed.

Lemma cache_params_wf ps n : params_wf ps -> params_wf (cache_params ps n).
Proof.
  intros (Hs & Hp & Hh). unfold cache_params, params_wf.
  destruct (p_has ps) eqn:Eh; [by rewrite Eh|].
  destruct n as [|b0 n]; [by rewrite Eh|].
  repeat case_if; cbn [p_sps p_pps p_has]; bool_hyps;
    (split; [done|split; [done|intros ?; bool_hyps; lia]]).
Qed.

Lemma extract_layers_wf ls nalus ps :
  params_wf ps -> (length nalus <= MAX_NALUS)%nat ->
  let '(nalus', ps') := extract_layers ls nalus ps in
  params_wf ps' /\ (length nalus' <= MAX_NALUS)%nat.
Proof.
  revert nalus ps. induction ls as [|l ls IH]; intros nalus ps Hp Hn; [done|].
  cbn [extract_layers].
  assert (let '(n', p') := extract_layer (pBsBuf l) (pNalLengthInByte l) nalus ps in
          params_wf p' /\ (length n' <= MAX_NALUS)%nat) as Hl.
  { generalize (pBsBuf l). revert nalus ps Hp Hn.
    induction (pNalLengthInByte l) as [|z lens IHl]; intros nalus ps Hp Hn buf; [done|].
    cbn [extract_layer]. destruct (_ || _) eqn:E; [by apply IHl|]. bool_hyps.
    apply IHl; [by apply cache_params_wf|len_lia]. }
  destruct (extract_layer _ _ _ _) as [n' p']. destruct Hl. by apply IH.
Qed.

(** The last steps of [camera_get_frame], after the encoder has answered. *)
Lemma camera_get_frame_opened `{Env} c s :
  cam_opened c = true ->
  let c1 := cam_set_yuv (generate_test_pattern (cam_yuv c) (cam_width c) (cam_height c)
              (cam_frame_idx c)) (if cam_force_idr c then cam_set_idr false c else c) in
  let o := env_encode (cam_yuv c1) (tick s) in
  let '(nalus, ps) := extract_layers (sLayerInfo o) [] (cam_params c) in
  exists s', camera_get_frame c s =
    (if negb (enc_rv o =? 0) then (EIO, Frame [] false, c1, s')
     else match eFrameType o with
          | videoFrameTypeSkip => (EAGAIN, Frame [] false, c1, s')
          | ty => match nalus with
                  | [] => (EAGAIN, Frame [] false, cam_set_params ps c1, s')
                  | _ => (0, Frame nalus (match ty with videoFrameTypeIDR => true | _ => false end),
                          cam_next_frame (cam_set_params ps c1), s')
                  end
          end).
Proof.
  intros Ho. unfold camera_get_frame, mbind, M_bind, get, lift, modify, encode_frame, emit, mret, M_ret.
  rewrite Ho. cbn [negb].
  destruct (cam_force_idr c) eqn:Ef; cbn -[generate_test_pattern extract_layers];
    (destruct (enc_rv (env_encode _ _) =? 0); cbn [negb];
     [destruct (eFrameType (env_encode _ _))|];
     destruct (extract_layers _ _ _) as [[|n nalus] ps]; eexists; reflexivity).
Qed.

(** NAL unit extraction: when the encoder answers with layers made of at
    least one and at most 32 units with start codes, the frame holds exactly
    those units in order, without their start codes, it is marked as key frame
    exactly when the encoder says so, and the cached parameter sets are those
    found by scanning the units. *)
Theorem camera_get_frame_units `{Env} (c : camera) (s : sys) (uss : list (list (bool * bytes)))
    (ty : frame_type) :
  cam_opened c = true ->
  env_encode (generate_test_pattern (cam_yuv c) (cam_width c) (cam_height c) (cam_frame_idx c))
    (tick s) = EncOut 0 ty (map layer_of uss) ->
  ty <> videoFrameTypeSkip -> (0 < length (concat uss) <= MAX_NALUS)%nat ->
  let '(r, f, c', s') := camera_get_frame c s in
  r = 0 /\ fr_nalus f = map snd (concat uss)
  /\ (fr_keyframe f = true <-> ty = videoFrameTypeIDR)
  /\ cam_params c' = fold_left cache_params (map snd (concat uss)) (cam_params c)
  /\ cam_force_idr c' = false /\ cam_frame_idx c' = u32 (cam_frame_idx c + 1).
Proof.
  intros Ho Henc Hty Hn. pose proof (camera_get_frame_opened c s Ho) as Hg. cbv zeta in Hg.
  cbn [cam_yuv cam_set_yuv] in Hg. rewrite Henc in Hg. cbn [enc_rv eFrameType sLayerInfo] in Hg.
  rewrite extract_layers_units in Hg by (cbn; lia). cbn [app] in Hg.
  destruct Hg as [s' ->]. cbn [Z.eqb negb].
  destruct (concat uss) as [|u us]; [cbn in Hn; lia|]. cbn [map].
  generalize (fold_left cache_params (u.2 :: map snd us) (cam_params c)). intros [p1 p2 p3].
  destruct ty; [| done |]; repeat split; try done; destruct (cam_force_idr c) eqn:Ef; done.
Qed.

Definition demo_env : Env := {|
  env q n := match q with QAlloc => 1 | _ => 0 end;
  env_encode _ _ := EncOut 0 videoFrameTypeIDR
    (map layer_of [[(true, [103; 66]); (true, [104; 206])]; [(false, [101; 1; 2])]]);
  env_md5 _ := replicate 16 0;
  env_atoi_overflow v := i32 v;
  env_ntop _ := Some (cstr "127.0.0.1");
  env_uninit _ := 170
|}.
#[export] Instance demo_env_alloc : AllocOk demo_env.
Proof. intros n. done. Qed.
#[export] Instance demo_env_md5 : Md5Spec demo_env.
Proof. split; intros d; [done|]. apply Forall_replicate. unfold is_byte. lia. Qed.

Definition demo_camera : camera :=
  Camera true 4 2 15 (replicate 12 0) [] [] false 0 false.

Lemma camera_get_frame_units_witness :
  fr_nalus ((@camera_get_frame demo_env demo_camera (Sys 0 [])).1.1.2)
  = [[103; 66]; [104; 206]; [101; 1; 2]].
Proof.
  pose proof (@camera_get_frame_units demo_env demo_camera (Sys 0 [])
    [[(true, [103; 66]); (true, [104; 206])]; [(false, [101; 1; 2])]] videoFrameTypeIDR
    eq_refl eq_refl ltac:(discriminate) ltac:(cbn; unfold MAX_NALUS; lia)) as H.
  destruct (@camera_get_frame demo_env demo_camera (Sys 0 [])) as [[[r f] c'] s'].
  apply H.
Defined.

Lemma camera_zero_wf : camera_wf camera_zero.
Proof. repeat split; cbn; lia || done. Qed.

(** Opening succeeds or finds the camera open, and never closes it. *)
Lemma camera_open_wp `{Env} w h f b c s :
  camera_wf c -> (0 < w)%nat -> (0 < h)%nat ->
  wp (camera_open w h f b) (fun r c' _ => camera_wf c'
    /\ (r = 0 \/ r = EALREADY -> cam_opened c' = true)
    /\ (cam_opened c = true -> cam_opened c' = true)) c s.
Proof.
  intros Hwf Hw Hh. pose proof camera_zero_wf.
  unfold camera_open. wp_steps; unfold EINVAL, ENOMEM, EALREADY;
    try (split; [done|]; split; [intros []; lia || done|congruence]).
  split; [|done]. split; [repeat split; cbn; lia || done|]. split; [cbn; lia|].
  intros _. cbn [cam_width cam_height cam_yuv]. len_simpl. done.
Qed.

Lemma camera_get_frame_wp `{Env} c s :
  camera_wf c ->
  wp camera_get_frame (fun '(r, f) c' _ => camera_wf c' /\ cam_opened c' = cam_opened c
    /\ (r = 0 -> (1 <= length (fr_nalus f) <= MAX_NALUS)%nat)) c s.
Proof.
  intros (Hp & Hi & Ho). unfold wp. destruct (cam_opened c) eqn:E.
  2: { unfold camera_get_frame, mbind, M_bind, get. rewrite E. cbn [negb mret M_ret].
       split; [split; [done|split; [done|by rewrite E]]|]. split; [done|unfold EINVAL; lia]. }
  pose proof (camera_get_frame_opened c s E) as Hg. cbv zeta in Hg.
  destruct (Ho eq_refl) as (Hw & Hh & Hl).
  pose proof (generate_test_pattern_length (cam_yuv c) _ _ (cam_frame_idx c) Hw Hh Hl) as Hy.
  set (o := env_encode _ _) in Hg.
  pose proof (extract_layers_wf (sLayerInfo o) [] (cam_params c) Hp ltac:(cbn; lia)) as Hx.
  destruct (extract_layers _ _ _) as [nalus ps]. destruct Hx as [Hps Hnl], Hg as [s' ->].
  assert (camera_wf (cam_set_yuv (generate_test_pattern (cam_yuv c) (cam_width c) (cam_height c)
    (cam_frame_idx c)) (if cam_force_idr c then cam_set_idr false c else c))) as H1.
  { destruct (cam_force_idr c); (split; [exact Hp|split; [exact Hi|]]; intros _;
      split; [done|split; [done|exact (eq_trans Hy Hl)]]). }
  set (c1 := cam_set_yuv _ _) in *.
  assert (cam_opened c1 = true) as Ho1 by (unfold c1; by destruct (cam_force_idr c)).
  assert (camera_wf (cam_set_params ps c1)) as H2 by (split; [by destruct ps|apply H1]).
  assert (camera_wf (cam_next_frame (cam_set_params ps c1))) as H3.
  { split; [apply H2|split; [apply u32_range|apply H2]]. }
  destruct (negb _); [split; [exact H1|done]|].
  destruct (eFrameType o); destruct nalus as [|n nalus]; (split; [done|split; [done|]]); try done;
    intros _; cbn in *; lia.
Qed.

(** The invariant of the camera: the cached parameter sets fit their arrays
    of 64 bytes and are both present once announced, the picture buffer has the
    size the picture needs, and a frame carries between 1 and 32 units.  Every
    operation preserves it, whatever the encoder answers. *)
Theorem camera_wf_invariant `{Env} (c : camera) (s : sys) :
  camera_wf c ->
  (forall w h f b, (0 < w)%nat -> (0 < h)%nat -> camera_wf (camera_open w h f b c s).1.2)
  /\ camera_wf (camera_close c s).1.2
  /\ camera_wf (camera_request_keyframe c s).1.2
  /\ (let '(r, f, c', _) := camera_get_frame c s in
      camera_wf c' /\ (r = 0 -> (1 <= length (fr_nalus f) <= MAX_NALUS)%nat)).
Proof.
  intros Hwf. split; [|split; [|split]].
  - intros w h f b Hw Hh. pose proof (camera_open_wp w h f b c s Hwf Hw Hh) as Hg. unfold wp in Hg.
    destruct (camera_open _ _ _ _ _ _) as [[??]?]. apply Hg.
  - unfold camera_close, mbind, M_bind, get, lift, modify.
    destruct (cam_opened c); [apply camera_zero_wf|done].
  - exact Hwf.
  - pose proof (camera_get_frame_wp c s Hwf) as Hg. unfold wp in Hg.
    destruct (camera_get_frame c s) as [[[r f] c'] s']. tauto.
Qed.

Lemma camera_wf_invariant_witness :
  camera_wf (camera_close demo_camera (Sys 0 [])).1.2.
Proof.
  apply (@camera_wf_invariant good_env demo_camera (Sys 0 [])).
  repeat split; cbn; solve [lia | reflexivity | discriminate].
Defined.
