(* ===== verification/AnnexB.v ===== *)
(** * Annex-B byte streams (libre [src/h264/nal.c])

    The search for start codes, which looks at four octets at a time, the
    packetiser for whole byte streams, and aggregation packets (STAP-A).  A
    pointer is an index into the buffer, [base] the address of its first octet;
    an access outside the buffer is [None]. *)
From S2P Require Import Prelude Sys Fmt Mbuf MbufOps Rtp H264 Camera.
Local Open Scope Z_scope.

(** ** Start codes *)
Definition starts_code (m : bytes) (p : nat) : option bool :=
  b0 ← m !! p;
  if b0 =? 0 then b1 ← m !! (p + 1)%nat; if b1 =? 0 then b2 ← m !! (p + 2)%nat; Some (b2 =? 1) else Some false
  else Some false.

(** The loops over single octets, up to [lim]: the place of a start code, or
    where the loop ended. *)
Fixpoint scan_bytes (fuel : nat) (m : bytes) (p : nat) (lim : Z) : option (nat + nat) :=
  match fuel with
  | O => None
  | S fuel =>
      if Z.of_nat p <? lim then
        b ← starts_code m p;
        if (b : bool) then Some (inl p) else scan_bytes fuel m (p + 1) lim
      else Some (inr p)
  end.

(** [*(const uint32_t * )p] *)
Definition load32 (b0 b1 b2 b3 : Z) : Z := b0 + 256 * b1 + 65536 * b2 + 16777216 * b3.
Definition may_have_zero (x : Z) : bool :=
  negb (Z.land (Z.land (u32 (x - 0x01010101)) (Z.lxor x 0xFFFFFFFF)) 0x80808080 =? 0).
Definition check_word (m : bytes) (p : nat) : option (option nat) :=
  b0 ← m !! p; b1 ← m !! (p + 1)%nat; b2 ← m !! (p + 2)%nat; b3 ← m !! (p + 3)%nat;
  if may_have_zero (load32 b0 b1 b2 b3) then
    b4 ← m !! (p + 4)%nat; b5 ← m !! (p + 5)%nat;
    Some (if (b1 =? 0) && (b0 =? 0) && (b2 =? 1) then Some p
          else if (b1 =? 0) && (b2 =? 0) && (b3 =? 1) then Some (p + 1)%nat
          else if (b3 =? 0) && (b2 =? 0) && (b4 =? 1) then Some (p + 2)%nat
          else if (b3 =? 0) && (b4 =? 0) && (b5 =? 1) then Some (p + 3)%nat
          else None)
  else Some None.
Fixpoint scan_words (fuel : nat) (m : bytes) (p : nat) (lim : Z) : option (nat + nat) :=
  match fuel with
  | O => None
  | S fuel =>
      if Z.of_nat p <? lim then
        r ← check_word m p;
        match r with Some q => Some (inl q) | None => scan_words fuel m (p + 4) lim end
      else Some (inr p)
  end.

(** The end of the buffer is [end]; the address of [p] is [base + p]. *)
Definition h264_find_startcode_int (base : Z) (m : bytes) (p : nat) : option nat :=
  let fuel := S (length m) in
  let e := zlen m in
  let a := Z.of_nat p + 4 - (base + Z.of_nat p) mod 4 in
  r ← scan_bytes fuel m p (Z.min a (e - 3));
  match r with
  | inl q => Some q
  | inr p =>
      r ← scan_words fuel m p (e - 3 - 3);
      match r with
      | inl q => Some q
      | inr p =>
          r ← scan_bytes fuel m p (e - 3);
          Some (match r with inl q => q | inr _ => length m end)
      end
  end.
Definition h264_find_startcode (base : Z) (m : bytes) (p : nat) : option nat :=
  out ← h264_find_startcode_int base m p;
  if (p <? out)%nat && (out <? length m)%nat then
    b ← m !! (out - 1)%nat; Some (if b =? 0 then (out - 1)%nat else out)
  else Some out.

(** ** Packets *)

(** [while (!*(r++))]: behind the first octet that is not zero. *)
Fixpoint skip_zeros (fuel : nat) (m : bytes) (r : nat) : option nat :=
  match fuel with
  | O => None
  | S fuel => b ← m !! r; if b =? 0 then skip_zeros fuel m (r + 1) else Some (r + 1)%nat
  end.
(** The next unit, from [r] on: where it begins and ends. *)
Definition next_nal (base : Z) (m : bytes) (r : nat) : option (nat * nat) :=
  r ← skip_zeros (S (length m)) m r; r1 ← h264_find_startcode base m r; Some (r, r1).

(** The packets handed to the packet handler.  An empty unit has a size of
    [r1 - r - 1] that wraps around. *)
Fixpoint packetize_loop (fuel : nat) (base : Z) (m : bytes) (r pktsize : nat) : option (list (bool * bytes)) :=
  match fuel with
  | O => None
  | S fuel =>
      if (r <? length m)%nat then
        '(r, r1) ← next_nal base m r;
        h ← m !! r;
        if (r1 <? r + 1)%nat then None
        else
          let ps := h264_nal_send true true (length m <=? r1)%nat h (take (r1 - r - 1) (drop (r + 1) m)) pktsize in
          rest ← packetize_loop fuel base m r1 pktsize; Some (ps ++ rest)
      else Some []
  end.
Definition h264_packetize (base : Z) (m : bytes) (pktsize : nat) : option (list (bool * bytes)) :=
  r ← h264_find_startcode base m 0; packetize_loop (S (length m)) base m r pktsize.

(** ** Aggregation packets *)
Definition H264_NALU_STAP_A : Z := 24.
Definition H264_HEADER_LENGTH : nat := 1.
Definition H264_STAP_MIN_LENGTH : nat := 2.

Section stap.
Context `{V : Env}.
Definition nal_header_encode_val (mb : mbuf) (nri type : Z) : IO (Z * mbuf) :=
  mbuf_write_u8 mb (Z.lor (Z.shiftl nri 5) type).

Fixpoint stap_loop (fuel : nat) (base : Z) (m : bytes) (r : nat) (nri_max : Z) (mb : mbuf) : IO (option (Z * Z * mbuf)) :=
  match fuel with
  | O => mret None
  | S fuel =>
      if (r <? length m)%nat then
        match next_nal base m r with
        | None => mret None
        | Some (r, r1) =>
            let len := (r1 - r)%nat in
            if Z.of_nat len >? 65535 then mret (Some (ERANGE, nri_max, mb))
            else
              '(err, mb) ← mbuf_write_u16 mb (Z.of_nat len);
              '(err2, mb) ← mbuf_write_mem mb (take len (drop r m));
              let err := Z.lor err err2 in
              if negb (err =? 0) then mret (Some (err, nri_max, mb))
              else
                match m !! r with
                | None => mret None
                | Some v => stap_loop fuel base m r1 (Z.max (nh_nri (h264_nal_header_decode v)) nri_max) mb
                end
        end
      else mret (Some (0, nri_max, mb))
  end.
Definition h264_stap_encode (base : Z) (mb : mbuf) (frame : bytes) : IO (option (Z * mbuf)) :=
  if (length frame =? 0)%nat then mret (Some (EINVAL, mb))
  else
    let start := mb_pos mb in
    '(err, mb) ← nal_header_encode_val mb 0 H264_NALU_STAP_A;
    if negb (err =? 0) then mret (Some (err, mb))
    else
      match h264_find_startcode base frame 0 with
      | None => mret None
      | Some r =>
          o ← stap_loop (S (length frame)) base frame r 0 mb;
          mret (match o with
                | None => None
                | Some (err, nri_max, mb) =>
                    if negb (err =? 0) then Some (err, mb)
                    else Some (0, Mbuf (alter (fun v => Z.lor v (u8 (Z.shiftl nri_max 5))) start (mb_buf mb)) (mb_pos mb) (mb_end mb))
                end)
      end.

(** The rest of a packet is taken apart into a frame. *)
Fixpoint stap_decode_loop (fuel : nat) (mb_frame mb_pkt : mbuf) (long_startcode : bool) : IO (Z * mbuf * mbuf) :=
  match fuel with
  | O => mret (0, mb_frame, mb_pkt)
  | S fuel =>
      if (H264_STAP_MIN_LENGTH <=? mbuf_get_left mb_pkt)%nat then
        let '(len, mb_pkt) := mbuf_read_u16 mb_pkt in
        if (len <? Z.of_nat H264_HEADER_LENGTH) || (len >? Z.of_nat (mbuf_get_left mb_pkt)) then mret (EBADMSG, mb_frame, mb_pkt)
        else
          '(err, mb_frame) ← mbuf_write_mem mb_frame (if long_startcode then [0; 0; 0; 1] else [0; 0; 1]);
          '(err2, mb_frame) ← mbuf_write_mem mb_frame (take (Z.to_nat len) (drop (mb_pos mb_pkt) (mb_buf mb_pkt)));
          let err := Z.lor err err2 in
          if negb (err =? 0) then mret (err, mb_frame, mb_pkt)
          else stap_decode_loop fuel mb_frame (mbuf_advance mb_pkt (Z.to_nat len)) long_startcode
      else mret (0, mb_frame, mb_pkt)
  end.
Definition stap_decode_annexb_int (mb_frame mb_pkt : mbuf) (long_startcode : bool) : IO (Z * mbuf * mbuf) :=
  stap_decode_loop (S (mbuf_get_left mb_pkt)) mb_frame mb_pkt long_startcode.
End stap.

(** ** Reference *)

(** The distance to the first start code that is followed by something, or to
    the end. *)
Fixpoint first_code (l : bytes) : nat :=
  match l with
  | [] => 0
  | b :: t => if prefixb [0; 0; 1] l && (4 <=? length l)%nat then 0 else S (first_code t)
  end.

(** ** The search is the reference *)

(** A word with a zero octet passes the test on four octets at once. *)
Lemma testbit_arith x n : 0 <= n -> Z.testbit x n = ((x / 2 ^ n) mod 2 =? 1).
Proof.
  intros Hn. rewrite <- Z.shiftr_div_pow2 by done. pose proof (Z.testbit_spec' x n Hn) as E. rewrite <- Z.shiftr_div_pow2 in E by done.
  rewrite <- E. by destruct (Z.testbit x n).
Qed.
Lemma zero_octet_seen b0 b1 b2 b3 : is_byte b0 -> is_byte b1 -> is_byte b2 -> is_byte b3 ->
  b0 = 0 \/ b1 = 0 \/ b2 = 0 \/ b3 = 0 -> may_have_zero (load32 b0 b1 b2 b3) = true.
Proof.
  intros H0 H1 H2 H3 Hz. unfold is_byte in *. unfold may_have_zero. apply negb_true_iff, Z.eqb_neq. intros E. set (x := load32 b0 b1 b2 b3) in *.
  assert (forall n, n = 7 \/ n = 15 \/ n = 23 \/ n = 31 -> ((u32 (x - 0x01010101) / 2 ^ n) mod 2 =? 1) = false \/ ((x / 2 ^ n) mod 2 =? 1) = true) as HN.
  { intros n Hn. assert (0 <= n) by lia. apply (f_equal (fun z => Z.testbit z n)) in E. rewrite !Z.land_spec, Z.lxor_spec, Z.bits_0 in E.
    rewrite !(testbit_arith _ n) in E by done. destruct ((u32 (x - 0x01010101) / 2 ^ n) mod 2 =? 1); [right|by left].
    assert (((0x80808080 / 2 ^ n) mod 2 =? 1) = true) as E1 by (destruct Hn as [-> |[-> |[-> | ->]]]; reflexivity).
    assert (((0xFFFFFFFF / 2 ^ n) mod 2 =? 1) = true) as E2 by (destruct Hn as [-> |[-> |[-> | ->]]]; reflexivity).
    rewrite E1, E2 in E. by destruct ((x / 2 ^ n) mod 2 =? 1). }
  pose proof (HN 7 ltac:(lia)) as N0. pose proof (HN 15 ltac:(lia)) as N1. pose proof (HN 23 ltac:(lia)) as N2. pose proof (HN 31 ltac:(lia)) as N3.
  rewrite !Z.eqb_neq, !Z.eqb_eq in *. clear HN E. unfold x, load32, u32 in *. change (2 ^ 7) with 128 in *. change (2 ^ 15) with 32768 in *.
  change (2 ^ 23) with 8388608 in *. change (2 ^ 31) with 2147483648 in *.
  destruct (Z.eq_dec b0 0) as [-> |Z0]; [clear N1 N2 N3; Z.div_mod_to_equations; lia|].
  destruct (Z.eq_dec b1 0) as [-> |Z1]; [clear N0 N2 N3; Z.div_mod_to_equations; lia|].
  destruct (Z.eq_dec b2 0) as [-> |Z2]; [clear N0 N1 N3; Z.div_mod_to_equations; lia|].
  assert (b3 = 0) as -> by lia. clear N0 N1 N2. Z.div_mod_to_equations; lia.
Qed.

Section search.
Context (m : bytes) (Hm : Forall is_byte m).
Definition code_at (p : nat) : bool := prefixb [0; 0; 1] (drop p m).
(** Where the first start code from [p] on is. *)
Definition target (p : nat) : nat := p + first_code (drop p m).

Lemma target_step p : (p + 3 < length m)%nat -> target p = if code_at p then p else target (p + 1).
Proof.
  intros Hp. unfold target, code_at. destruct (m !! p) as [b|] eqn:Eb; [|apply lookup_ge_None in Eb; lia].
  rewrite (drop_S _ _ _ Eb). cbn [first_code]. replace (4 <=? length (b :: drop (S p) m))%nat with true by (symmetry; apply Nat.leb_le; len_lia).
  rewrite andb_true_r. destruct (prefixb _ _); [lia|]. replace (p + 1)%nat with (S p) by lia. lia.
Qed.
Lemma target_end p : (p <= length m <= p + 3)%nat -> target p = length m.
Proof.
  intros Hp. unfold target. assert (length (drop p m) = length m - p)%nat as L by apply length_drop. assert (length (drop p m) <= 3)%nat as L3 by lia.
  assert (forall l : bytes, (length l <= 3)%nat -> first_code l = length l) as H.
  { clear. induction l as [|b l IH]; intros Hl; [done|]. cbn [first_code]. replace (4 <=? length (b :: l))%nat with false by (symmetry; by apply Nat.leb_gt; lia).
    rewrite andb_false_r, IH; [done|cbn in Hl; lia]. }
  rewrite H by done. lia.
Qed.
Lemma code_at_bytes p b0 b1 b2 : m !! p = Some b0 -> m !! (p + 1)%nat = Some b1 -> m !! (p + 2)%nat = Some b2 ->
  code_at p = (b0 =? 0) && (b1 =? 0) && (b2 =? 1).
Proof.
  intros H0 H1 H2. unfold code_at. rewrite (drop_S _ _ _ H0). replace (p + 1)%nat with (S p) in H1 by lia. rewrite (drop_S _ _ _ H1).
  replace (p + 2)%nat with (S (S p)) in H2 by lia. rewrite (drop_S _ _ _ H2). cbn [prefixb].
  rewrite (Z.eqb_sym 0 b0), (Z.eqb_sym 0 b1), (Z.eqb_sym 1 b2). destruct (b0 =? 0), (b1 =? 0), (b2 =? 1); done.
Qed.
Lemma octet p : (p < length m)%nat -> exists b, m !! p = Some b /\ is_byte b.
Proof. intros Hp. destruct (lookup_lt_is_Some_2 m p Hp) as [b Hb]. exists b. split; [done|]. by eapply Forall_lookup_1. Qed.

Lemma starts_code_spec p : (p + 2 < length m)%nat -> starts_code m p = Some (code_at p).
Proof.
  intros Hp. destruct (octet p ltac:(lia)) as (b0 & H0 & _), (octet (p + 1) ltac:(lia)) as (b1 & H1 & _), (octet (p + 2) ltac:(lia)) as (b2 & H2 & _).
  unfold starts_code. rewrite (code_at_bytes p b0 b1 b2 H0 H1 H2), H0. cbn. destruct (b0 =? 0); [|done]. rewrite H1. cbn. destruct (b1 =? 0); [|done]. by rewrite H2.
Qed.

Lemma scan_bytes_spec lim : lim <= zlen m - 3 -> forall fuel p, (p <= length m)%nat -> Z.max 0 (lim - Z.of_nat p) < Z.of_nat fuel ->
  match scan_bytes fuel m p lim with
  | Some (inl q) => q = target p
  | Some (inr p') => target p' = target p /\ (p' <= length m)%nat /\ lim <= Z.of_nat p'
  | None => False
  end.
Proof.
  intros Hl. induction fuel as [|fuel IH]; intros p Hp Hf; cbn [scan_bytes]; [lia|].
  destruct (Z.ltb_spec (Z.of_nat p) lim) as [Hlt|Hge]; [|by repeat split].
  rewrite starts_code_spec by lia. cbn [mbind option_bind]. rewrite (target_step p) by lia. destruct (code_at p); [done|].
  apply IH; lia.
Qed.

Lemma check_word_spec p : (p + 6 < length m)%nat ->
  match check_word m p with
  | Some (Some q) => q = target p
  | Some None => target (p + 4) = target p
  | None => False
  end.
Proof.
  intros Hp. destruct (octet p ltac:(lia)) as (b0 & H0 & B0), (octet (p + 1) ltac:(lia)) as (b1 & H1 & B1), (octet (p + 2) ltac:(lia)) as (b2 & H2 & B2),
    (octet (p + 3) ltac:(lia)) as (b3 & H3 & B3), (octet (p + 4) ltac:(lia)) as (b4 & H4 & _), (octet (p + 5) ltac:(lia)) as (b5 & H5 & _).
  unfold check_word. rewrite H0, H1, H2, H3. cbn [mbind option_bind]. pose proof (zero_octet_seen b0 b1 b2 b3 B0 B1 B2 B3) as HZ.
  rewrite (target_step p), (target_step (p + 1)), (target_step (p + 1 + 1)), (target_step (p + 1 + 1 + 1)) by lia.
  replace (p + 1 + 1 + 1 + 1)%nat with (p + 4)%nat by lia. replace (p + 1 + 1 + 1)%nat with (p + 3)%nat by lia. replace (p + 1 + 1)%nat with (p + 2)%nat by lia.
  rewrite (code_at_bytes p b0 b1 b2), (code_at_bytes (p + 1) b1 b2 b3), (code_at_bytes (p + 2) b2 b3 b4), (code_at_bytes (p + 3) b3 b4 b5)
    by (rewrite <- ?Nat.add_assoc; done).
  destruct (may_have_zero _); [rewrite H4, H5; cbn [mbind option_bind]|].
  - destruct (b0 =? 0), (b1 =? 0), (b2 =? 0), (b2 =? 1), (b3 =? 0), (b3 =? 1), (b4 =? 0), (b4 =? 1), (b5 =? 1); reflexivity.
  - destruct (Z.eqb_spec b0 0); [by discriminate HZ; auto|]. destruct (Z.eqb_spec b1 0); [by discriminate HZ; auto|].
    destruct (Z.eqb_spec b2 0); [by discriminate HZ; auto|]. destruct (Z.eqb_spec b3 0); [by discriminate HZ; auto|]. done.
Qed.
Lemma scan_words_spec lim : lim <= zlen m - 6 -> forall fuel p, (p <= length m)%nat -> Z.max 0 (lim - Z.of_nat p) < Z.of_nat fuel ->
  match scan_words fuel m p lim with
  | Some (inl q) => q = target p
  | Some (inr p') => target p' = target p /\ (p' <= length m)%nat /\ lim <= Z.of_nat p'
  | None => False
  end.
Proof.
  intros Hl. induction fuel as [|fuel IH]; intros p Hp Hf; cbn [scan_words]; [lia|].
  destruct (Z.ltb_spec (Z.of_nat p) lim) as [Hlt|Hge]; [|by repeat split].
  pose proof (check_word_spec p ltac:(lia)) as HC. destruct (check_word m p) as [[q|]|]; cbn [mbind option_bind]; [done| |done].
  rewrite <- HC. apply IH; lia.
Qed.

(** The search never leaves the buffer, ends, and finds what the reference does. *)
Lemma find_startcode_int_spec base p : (p <= length m)%nat -> h264_find_startcode_int base m p = Some (target p).
Proof.
  intros Hp. unfold h264_find_startcode_int. cbv zeta.
  pose proof (scan_bytes_spec (Z.min (Z.of_nat p + 4 - (base + Z.of_nat p) mod 4) (zlen m - 3)) ltac:(lia) (S (length m)) p Hp ltac:(lia)) as H1.
  destruct (scan_bytes _ _ _ _) as [[q|p1]|]; cbn [mbind option_bind]; [by rewrite H1| |done]. destruct H1 as (E1 & L1 & _).
  pose proof (scan_words_spec (zlen m - 3 - 3) ltac:(lia) (S (length m)) p1 L1 ltac:(lia)) as H2.
  destruct (scan_words _ _ _ _) as [[q|p2]|]; cbn [mbind option_bind]; [by rewrite H2, E1| |done]. destruct H2 as (E2 & L2 & _).
  pose proof (scan_bytes_spec (zlen m - 3) ltac:(lia) (S (length m)) p2 L2 ltac:(lia)) as H3.
  destruct (scan_bytes _ _ _ _) as [[q|p3]|]; cbn [mbind option_bind]; [by rewrite H3, E2, E1| |done]. destruct H3 as (E3 & L3 & G3).
  rewrite <- E1, <- E2, <- E3. f_equal. symmetry. apply target_end. lia.
Qed.
End search.

(** ** Streams of units *)
Fixpoint has_code (l : bytes) : bool :=
  match l with [] => false | _ :: t => prefixb [0; 0; 1] l || has_code t end.
(** What an encoder emits as a unit: no start code inside, and a last octet that
    is not zero. *)
Record nal_ok (u : bytes) : Prop := {
  no_code : has_code u = false;
  no_zero_end : List.last u 0 <> 0;
  no_octets : Forall is_byte u
}.
Definition stream (us : list (bool * bytes)) : bytes := concat (map annexb us).

Lemma stream_cons l u us : stream ((l, u) :: us) = (if l then [0; 0; 0; 1] else [0; 0; 1]) ++ u ++ stream us.
Proof. unfold stream. cbn [map concat]. unfold annexb. cbn [fst snd]. by rewrite <- app_assoc. Qed.
Lemma first_code_unit u rest : has_code u = false -> List.last u 0 <> 0 -> first_code (u ++ rest) = (length u + first_code rest)%nat.
Proof.
  induction u as [|b u IH]; intros Hc Hl; [done|]. cbn [has_code] in Hc. apply orb_false_iff in Hc as [Hp Hc]. cbn [app first_code length Nat.add].
  assert (prefixb [0; 0; 1] (b :: u ++ rest) = false) as ->.
  { destruct u as [|c [|d u]]; [..|exact Hp].
    - cbn [List.last] in Hl. cbn [prefixb app]. destruct (Z.eqb_spec 0 b); [by subst|done].
    - cbn [List.last] in Hl. cbn [prefixb app]. destruct (0 =? b); [|done]. destruct (Z.eqb_spec 0 c); [by subst|done]. }
  cbn [andb]. destruct u as [|c u]; [done|]. by rewrite IH.
Qed.
Lemma first_code_annexb l u rest : u <> [] -> first_code (annexb (l, u) ++ rest) = if l then 1%nat else 0%nat.
Proof.
  destruct u as [|b u]; [done|]. intros _. unfold annexb. cbn [fst snd]. destruct l; [|done]. cbn [app first_code prefixb Z.eqb].
  change (0 =? 0) with true. change (1 =? 0) with false. cbn [andb]. done.
Qed.
Lemma last_lookup_end (u : bytes) rest : List.last u 0 <> 0 -> exists b, (u ++ rest) !! (length u - 1)%nat = Some b /\ b <> 0.
Proof.
  intros Hl. destruct u as [|a u] using rev_ind; [done|]. rewrite last_last in Hl. exists a. split; [|done].
  rewrite <- app_assoc, length_app. cbn [length]. rewrite lookup_app_r by lia. by replace (length u + 1 - 1 - length u)%nat with 0%nat by lia.
Qed.
Lemma nal_ok_nonempty u : nal_ok u -> u <> [].
Proof. intros [_ H _] ->. done. Qed.
Lemma stream_bytes us : Forall (fun u => nal_ok u.2) us -> Forall is_byte (stream us).
Proof.
  intros H. induction H as [|[l u] us [_ _ Hu] _ IH]; [constructor|]. rewrite stream_cons.
  apply Forall_app. split; [destruct l; repeat constructor; lia|]. apply Forall_app. by split.
Qed.

(** From the beginning of a unit the search finds its end. *)
Lemma find_unit_end base pre u us : Forall is_byte pre -> nal_ok u -> Forall (fun u => nal_ok u.2) us ->
  h264_find_startcode base (pre ++ u ++ stream us) (length pre) = Some (length pre + length u)%nat.
Proof.
  intros Hb Hu Hus. set (m := pre ++ u ++ stream us). assert (Forall is_byte m) as Hm.
  { apply Forall_app. split; [done|]. apply Forall_app. split; [apply Hu|by apply stream_bytes]. }
  pose proof (nal_ok_nonempty u Hu) as Hne. assert (0 < length u)%nat as L0 by (destruct u; [done|cbn; lia]).
  unfold h264_find_startcode. rewrite (find_startcode_int_spec m Hm) by (unfold m; len_lia). cbn [mbind option_bind].
  assert (target m (length pre) = length pre + length u + first_code (stream us))%nat as ->.
  { unfold target, m. rewrite drop_app_length, first_code_unit by apply Hu. lia. }
  assert (length m = length pre + length u + length (stream us))%nat as Lm by (unfold m; len_lia).
  destruct (last_lookup_end u (stream us) (no_zero_end u Hu)) as (b & Eb & Hb0).
  destruct us as [|[l v] us]; [cbn [stream map concat first_code length] in *; destruct (_ <? length m)%nat eqn:E; bool_hyps; [lia|]; rewrite andb_false_r; f_equal; lia|].
  apply Forall_cons_iff in Hus as [Hv Hus]. pose proof (nal_ok_nonempty v Hv) as Hvn. destruct v as [|c v]; [done|].
  assert (stream ((l, c :: v) :: us) = annexb (l, c :: v) ++ stream us) as Es by done. rewrite Es in *.
  rewrite first_code_annexb by done.
  destruct (Nat.ltb_spec (length pre) (length pre + length u + (if l then 1 else 0))) as [_|]; [|lia].
  assert (length m >= length pre + length u + 4)%nat by (rewrite Lm; unfold annexb; destruct l; cbn [fst snd app length]; lia).
  destruct (Nat.ltb_spec (length pre + length u + (if l then 1 else 0)) (length m)) as [_|]; [|destruct l; lia]. cbn [andb]. unfold m.
  rewrite lookup_app_r by (destruct l; lia). destruct l.
  - rewrite lookup_app_r by lia. replace (_ - length u)%nat with 0%nat by lia. cbn. f_equal. lia.
  - replace (_ - length pre)%nat with (length u - 1)%nat by lia. rewrite Es, Eb. cbn [mbind option_bind]. destruct (Z.eqb_spec b 0); [done|]. f_equal. lia.
Qed.
Lemma find_first base us : Forall (fun u => nal_ok u.2) us -> h264_find_startcode base (stream us) 0 = Some 0%nat.
Proof.
  intros Hus. pose proof (stream_bytes us Hus) as Hm. unfold h264_find_startcode. rewrite (find_startcode_int_spec _ Hm) by lia. cbn [mbind option_bind].
  unfold target. rewrite drop_0. destruct us as [|[l v] us]; [done|]. apply Forall_cons_iff in Hus as [Hv _].
  pose proof (nal_ok_nonempty v Hv) as Hvn. change (stream ((l, v) :: us)) with (annexb (l, v) ++ stream us). rewrite first_code_annexb by done.
  destruct l; [|done]. destruct v; [done|]. done.
Qed.

Lemma skip_code pre (l : bool) t fuel : (3 < fuel)%nat ->
  skip_zeros fuel (pre ++ (if l then [0; 0; 0; 1] else [0; 0; 1]) ++ t) (length pre) = Some (length pre + if l then 4 else 3)%nat.
Proof.
  intros Hf. do 4 (destruct fuel as [|fuel]; [lia|]). clear Hf. set (c := if l then [0; 0; 0; 1] else [0; 0; 1]).
  assert (forall k, (pre ++ c ++ t) !! (length pre + k)%nat = (c ++ t) !! k) as HL.
  { intros k. rewrite lookup_app_r by lia. f_equal. lia. }
  assert (length pre = length pre + 0)%nat as E0 by lia. cbn [skip_zeros]. rewrite E0 at 1. rewrite HL.
  replace (length pre + 1 + 1 + 1)%nat with (length pre + 3)%nat by lia. replace (length pre + 1 + 1)%nat with (length pre + 2)%nat by lia. rewrite !HL.
  subst c. destruct l; cbn; f_equal; lia.
Qed.
Lemma next_nal_unit base pre (l : bool) u us : Forall is_byte pre -> nal_ok u -> Forall (fun u => nal_ok u.2) us ->
  let b := (length pre + if l then 4 else 3)%nat in
  next_nal base (pre ++ stream ((l, u) :: us)) (length pre) = Some (b, (b + length u)%nat).
Proof.
  intros Hb Hu Hus b. unfold next_nal. rewrite stream_cons. rewrite skip_code by (pose proof (nal_ok_nonempty u Hu); destruct u; [done|destruct l; len_lia]). cbn [mbind option_bind]. fold b.
  set (pre' := pre ++ if l then [0; 0; 0; 1] else [0; 0; 1]).
  assert (length pre' = b) as <- by (unfold pre', b; destruct l; len_lia).
  rewrite (app_assoc pre). fold pre'. rewrite find_unit_end; [done|..]; [|done|done]. apply Forall_app. split; [done|]. destruct l; repeat constructor; lia.
Qed.

(** ** The packetiser of byte streams *)
Fixpoint unit_packets (us : list bytes) (size : nat) : list (bool * bytes) :=
  match us with
  | [] => []
  | u :: us => h264_nal_send true true (match us with [] => true | _ => false end) (hd 0 u) (tl u) size ++ unit_packets us size
  end.
Lemma packetize_loop_units base size us : Forall (fun u => nal_ok u.2) us -> forall pre fuel, Forall is_byte pre -> (length us < fuel)%nat ->
  packetize_loop fuel base (pre ++ stream us) (length pre) size = Some (unit_packets (map snd us) size).
Proof.
  induction 1 as [|[l u] us Hu Hus IH]; intros pre fuel Hb Hf; (destruct fuel as [|fuel]; [lia|]); cbn [packetize_loop].
  { unfold stream. cbn [map concat]. rewrite app_nil_r. by destruct (Nat.ltb_spec (length pre) (length pre)); [lia|]. }
  cbn [snd] in Hu. pose proof (nal_ok_nonempty u Hu) as Hne. destruct u as [|h u]; [done|].
  set (m := pre ++ stream ((l, h :: u) :: us)). assert (length m = length pre + (if l then 4 else 3) + S (length u) + length (stream us))%nat as Lm.
  { unfold m. rewrite stream_cons. destruct l; len_lia. }
  destruct (Nat.ltb_spec (length pre) (length m)) as [_|]; [|destruct l; lia]. pose proof (next_nal_unit base pre l (h :: u) us Hb Hu Hus) as En. cbv zeta in En. fold m in En |- *. rewrite En. cbn [mbind option_bind].
  set (pre' := pre ++ (if l then [0; 0; 0; 1] else [0; 0; 1])). assert (m = pre' ++ (h :: u) ++ stream us) as Em.
  { unfold m, pre'. by rewrite stream_cons, <- app_assoc. }
  assert (length pre + (if l then 4 else 3) = length pre')%nat as Lp by (unfold pre'; destruct l; len_lia). rewrite Lp in *.
  assert (m !! length pre' = Some h) as -> by (rewrite Em, lookup_app_r, Nat.sub_diag by lia; done). cbn [mbind option_bind length].
  destruct (Nat.ltb_spec (length pre' + S (length u)) (length pre' + 1)); [lia|].
  replace (length pre' + S (length u) - length pre' - 1)%nat with (length u) by lia.
  assert (drop (length pre' + 1) m = u ++ stream us) as ->.
  { rewrite Em. rewrite drop_app_ge by lia. by replace (length pre' + 1 - length pre')%nat with 1%nat by lia. }
  rewrite take_app_length. pose proof (IH (pre' ++ h :: u) fuel) as IH'. rewrite <- (app_assoc pre'), <- Em in IH'.
  replace (length (pre' ++ h :: u)) with (length pre' + S (length u))%nat in IH' by len_lia.
  rewrite IH'; [|apply Forall_app; split; [apply Forall_app; split; [done|destruct l; repeat constructor; lia]|apply Hu]|cbn in Hf; lia].
  cbn [mbind option_bind map snd unit_packets hd tl]. do 3 f_equal. destruct us as [|[l2 v] us]; cbn [map].
  - apply Nat.leb_le. cbn [stream map concat length] in Lm. lia.
  - apply Nat.leb_gt. apply Forall_cons_iff in Hus as [Hv _]. pose proof (nal_ok_nonempty v Hv). rewrite Lm.
    rewrite stream_cons. destruct l2; len_lia.
Qed.

Lemma packetize_units base size us : Forall (fun u => nal_ok u.2) us ->
  h264_packetize base (stream us) size = Some (unit_packets (map snd us) size).
Proof.
  intros H. unfold h264_packetize. rewrite find_first by done. cbn [mbind option_bind].
  apply (packetize_loop_units base size us H []); [constructor|].
  assert (length us <= length (stream us))%nat; [|lia]. clear H. induction us as [|[l u] us IH]; [done|].
  rewrite stream_cons. destruct l; len_lia.
Qed.

(** ** Theorems *)
Lemma mark_units us : Forall (fun u => 0 <= hd 0 u < 128 /\ u <> [] /\ length u <> S RTP_MTU) us ->
  unit_packets us RTP_MTU
  = concat (imap (fun i u => mark (S i =? length us)%nat (nalu_payloads u)) us).
Proof.
  intros H. assert (forall k n, (k + length us = n)%nat ->
    unit_packets us RTP_MTU = concat (imap (fun i u => mark (S (k + i) =? n)%nat (nalu_payloads u)) us)) as Hk.
  { induction H as [|u us (Hh & Hne & Hl) _ IH]; intros k n Hn; [done|]. cbn [unit_packets imap concat]. destruct u as [|h u]; [done|]. cbn [hd tl] in *.
    rewrite nalu_payloads_libre by done. f_equal.
    - f_equal. destruct us; cbn in Hn; symmetry; [apply Nat.eqb_eq|apply Nat.eqb_neq]; lia.
    - rewrite (IH (S k) n) by (cbn in Hn; lia). f_equal. apply imap_ext. intros i x _. unfold compose. by replace (S k + i)%nat with (k + S i)%nat by lia. }
  by rewrite (Hk 0%nat (length us)).
Qed.
Lemma stream_concat uss : concat (map (fun us => pBsBuf (layer_of us)) uss) = stream (concat uss).
Proof. induction uss as [|us uss IH]; [done|]. cbn [map concat]. rewrite IH. unfold stream. by rewrite map_app, concat_app. Qed.

(** The search for a start code, which tests four octets at once with bit
    operations, ends, never reads outside the buffer wherever that lies in memory,
    and finds exactly the first start code that is followed by another octet; the
    exported function steps back over the zero of a four-octet start code. *)
Theorem startcode_search base m p :
  Forall is_byte m -> (p <= length m)%nat ->
  h264_find_startcode_int base m p = Some (p + first_code (drop p m))%nat
  /\ exists q, h264_find_startcode base m p = Some q
     /\ (q = p + first_code (drop p m) \/ (p <= q /\ S q = p + first_code (drop p m) /\ m !! q = Some 0%Z))%nat.
Proof.
  intros Hm Hp. pose proof (find_startcode_int_spec m Hm base p Hp) as E. split; [exact E|]. unfold h264_find_startcode. rewrite E. cbn [mbind option_bind].
  unfold target. set (out := (p + first_code (drop p m))%nat). destruct ((p <? out)%nat && (out <? length m)%nat) eqn:Eb; [|by eauto].
  bool_hyps. destruct (octet m Hm (out - 1) ltac:(lia)) as (b & Hb & _). rewrite Hb. cbn [mbind option_bind].
  destruct (Z.eqb_spec b 0) as [-> |Hn]; [|by eauto]. eexists. split; [done|]. right. split; [lia|]. split; [lia|done].
Qed.
Definition demo_stream : bytes := [1; 2; 3; 4; 5; 6; 7; 8; 0; 0; 0; 1; 103; 66; 0; 9].
Lemma startcode_search_witness :
  exists q, h264_find_startcode 1 demo_stream 2 = Some q /\ (q = 9 \/ (2 <= q /\ S q = 9 /\ demo_stream !! q = Some 0%Z))%nat.
Proof. apply (startcode_search 1 demo_stream 2); [repeat constructor; unfold is_byte; lia|cbn; lia]. Defined.

(** A frame of at most 32 units, as the encoder returns it: what libre's
    [h264_packetize] makes of the byte stream, in terms of the units that the
    intercom takes out of the layers. *)
Lemma packetize_frame base uss ps :
  Forall (fun u => nal_ok u.2 /\ 0 <= hd 0 u.2 < 128 /\ length u.2 <> S RTP_MTU) (concat uss) ->
  (length (concat uss) <= MAX_NALUS)%nat ->
  let layers := map layer_of uss in
  let nalus := (extract_layers layers [] ps).1 in
  nalus = map snd (concat uss) /\
  h264_packetize base (concat (map pBsBuf layers)) RTP_MTU
  = Some (concat (imap (fun i u => mark (S i =? length nalus)%nat (nalu_payloads u)) nalus)).
Proof.
  intros H Hn layers nalus. assert (nalus = map snd (concat uss)) as En by (unfold nalus, layers; by rewrite extract_layers_units).
  split; [done|].
  assert (concat (map pBsBuf layers) = stream (concat uss)) as -> by (unfold layers; by rewrite map_map, stream_concat).
  rewrite packetize_units by (eapply Forall_impl; [|exact H]; by intros u (? & _)). rewrite En. f_equal. apply mark_units.
  apply Forall_map. eapply Forall_impl; [|exact H]. intros u (Hu & Hh & Hl). split; [done|]. split; [by apply nal_ok_nonempty|done].
Qed.
Definition demo_units : list (list (bool * bytes)) := [[(true, [103; 66; 128]); (false, [104; 206])]; [(true, 101 :: replicate 1500 7)]].
Lemma demo_units_ok : Forall (fun u => nal_ok u.2 /\ 0 <= hd 0 u.2 < 128 /\ length u.2 <> S RTP_MTU) (concat demo_units).
Proof.
  repeat apply Forall_cons; try apply Forall_nil; (split; [split; [vm_compute; reflexivity|vm_compute; discriminate|]|split; [cbn; lia|vm_compute; discriminate]]);
    cbn [snd]; repeat apply Forall_cons; try apply Forall_replicate; try apply Forall_nil; unfold is_byte; lia.
Qed.

(** Two start codes in a row: the size of the empty unit wraps around, and the
    packetiser reads far beyond the buffer. *)
Lemma empty_unit_overruns : h264_packetize 0 [0; 0; 1; 0; 0; 1; 9; 9] RTP_MTU = None.
Proof. vm_compute. reflexivity. Qed.

(** ** Aggregation packets *)
Section stap_proofs.
Context `{V : Env} (HA : AllocOk V).
Lemma write_ok mb c d s : mbuf_holds mb c ->
  iwp (mbuf_write_mem mb d) (fun '(err, mb') s' => out s' = out s /\ err = 0 /\ mbuf_holds mb' (c ++ d)) s.
Proof.
  intros H. eapply iwp_mono; [by apply mbuf_write_mem_spec|]. intros [err mb'] s' [Ho [(-> & H1 & _)|(_ & _ & Hn)]]; [done|by destruct Hn].
Qed.

Definition stap_body (us : list bytes) : bytes := concat (map (fun u => be16 (zlen u) ++ u) us).
Definition nri_of (u : bytes) : Z := nh_nri (h264_nal_header_decode (hd 0 u)).
Definition max_nri (us : list bytes) (n : Z) : Z := fold_left (fun n u => Z.max (nri_of u) n) us n.

Lemma stap_loop_units base us : Forall (fun u => nal_ok u.2 /\ zlen u.2 <= 65535) us ->
  forall pre fuel nri mb c s, Forall is_byte pre -> (length us < fuel)%nat -> mbuf_holds mb c ->
  iwp (stap_loop fuel base (pre ++ stream us) (length pre) nri mb) (fun r s' => out s' = out s /\
    exists mb', r = Some (0, max_nri (map snd us) nri, mb') /\ mbuf_holds mb' (c ++ stap_body (map snd us))) s.
Proof.
  induction 1 as [|[l u] us [Hu Hlen] Hus IH]; intros pre fuel nri mb c s Hb Hf Hh; (destruct fuel as [|fuel]; [lia|]); cbn [stap_loop].
  { unfold stream. cbn [map concat]. rewrite app_nil_r. destruct (Nat.ltb_spec (length pre) (length pre)); [lia|]. apply iwp_ret.
    split; [done|]. exists mb. split; [done|]. unfold stap_body. cbn. by rewrite app_nil_r. }
  cbn [snd] in Hu, Hlen. assert (Forall (fun u => nal_ok u.2) us) as Hus' by (eapply Forall_impl; [|exact Hus]; by intros v [? _]).
  set (m := pre ++ stream ((l, u) :: us)). pose proof (next_nal_unit base pre l u us Hb Hu Hus') as En. cbv zeta in En. fold m in En.
  set (pre' := pre ++ (if l then [0; 0; 0; 1] else [0; 0; 1])). assert (m = pre' ++ u ++ stream us) as Em by (unfold m, pre'; by rewrite stream_cons, <- app_assoc).
  assert (length pre + (if l then 4 else 3) = length pre')%nat as Lp by (unfold pre'; destruct l; len_lia). rewrite Lp in *.
  destruct (Nat.ltb_spec (length pre) (length m)) as [_|Hge]; [|rewrite Em in Hge; destruct l; len_lia]. rewrite En.
  replace (length pre' + length u - length pre')%nat with (length u) by lia. destruct (Z.gtb_spec (zlen u) 65535); [lia|].
  apply iwp_bind. eapply iwp_mono; [by apply write_ok|]. intros [e1 mb1] s1 (Ho1 & -> & H1).
  apply iwp_bind. eapply iwp_mono; [by apply write_ok|]. intros [e2 mb2] s2 (Ho2 & -> & H2). cbn [Z.lor Z.eqb negb].
  assert (exists h t, u = h :: t) as (h & t & Eu) by (pose proof (nal_ok_nonempty u Hu); destruct u; [done|eauto]).
  assert (m !! length pre' = Some h) as -> by (rewrite Em, lookup_app_r, Nat.sub_diag by lia; by rewrite Eu).
  assert (drop (length pre') m = u ++ stream us) as Ed by (by rewrite Em, drop_app_length). rewrite Ed, take_app_length in H2.
  specialize (IH (pre' ++ u) fuel (Z.max (nh_nri (h264_nal_header_decode h)) nri) mb2 ((c ++ be16 (zlen u)) ++ u) s2).
  rewrite <- (app_assoc pre'), <- Em, length_app in IH.
  eapply iwp_mono; [apply IH|]; [|cbn in Hf; lia|exact H2|].
  { apply Forall_app. split; [apply Forall_app; split; [done|destruct l; repeat constructor; lia]|apply Hu]. }
  intros r s' (Ho & mb' & -> & Hmb). split; [congruence|]. exists mb'. split; [cbn [map snd max_nri fold_left]; by rewrite Eu|].
  unfold stap_body in *. cbn [map snd concat]. by rewrite <- !app_assoc in *.
Qed.

Lemma alter_holds f mb c1 v c2 : mbuf_holds mb (c1 ++ v :: c2) ->
  mbuf_holds (Mbuf (alter f (length c1) (mb_buf mb)) (mb_pos mb) (mb_end mb)) (c1 ++ f v :: c2).
Proof.
  intros (Hc & Hp & He). unfold mbuf_holds, mb_size in *. cbn [mb_buf mb_pos mb_end]. rewrite length_alter. split; [|done].
  rewrite <- (take_drop (mb_end mb) (mb_buf mb)), Hc. rewrite <- app_assoc. rewrite alter_app_r_alt by lia. rewrite Nat.sub_diag. cbn [app].
  assert (mb_end mb = length (c1 ++ f v :: c2)) as ->.
  { apply (f_equal length) in Hc. rewrite length_take in Hc. len_lia. }
  change ((v :: c2) ++ drop (mb_end mb) (mb_buf mb)) with (v :: c2 ++ drop (mb_end mb) (mb_buf mb)). cbn [alter list_alter].
  by rewrite (app_comm_cons c2), app_assoc, take_app_length.
Qed.

(** The packet: the largest NRI over all units with type 24, and each unit behind
    its length. *)
Definition stap_packet (us : list bytes) : bytes := Z.lor H264_NALU_STAP_A (u8 (Z.shiftl (max_nri us 0) 5)) :: stap_body us.
Lemma stap_encode_units base us mb c s : us <> [] -> Forall (fun u => nal_ok u.2 /\ zlen u.2 <= 65535) us -> mbuf_holds mb c ->
  iwp (h264_stap_encode base mb (stream us)) (fun r s' => out s' = out s /\ exists mb', r = Some (0, mb') /\ mbuf_holds mb' (c ++ stap_packet (map snd us))) s.
Proof.
  intros Hne Hus Hh. assert (Forall (fun u => nal_ok u.2) us) as Hus' by (eapply Forall_impl; [|exact Hus]; by intros v [? _]).
  unfold h264_stap_encode. destruct us as [|[l u] us']; [done|]. set (us := (l, u) :: us') in *.
  assert (length us <= length (stream us))%nat as Lus.
  { clear. induction us as [|[k v] us IH]; [done|]. rewrite stream_cons. destruct k; len_lia. }
  destruct (Nat.eqb_spec (length (stream us)) 0) as [E|_]; [rewrite E in Lus; cbn in Lus; lia|]. cbv zeta. unfold nal_header_encode_val, mbuf_write_u8.
  apply iwp_bind. eapply iwp_mono; [by apply write_ok|]. intros [e mb1] s1 (Ho1 & -> & H1). cbn [Z.eqb negb]. rewrite find_first by done.
  apply iwp_bind. eapply iwp_mono; [eapply (stap_loop_units base us Hus [] (S (length (stream us))) 0 mb1 _ s1); [constructor|lia|exact H1]|].
  intros r s2 (Ho2 & mb2 & -> & H2). apply iwp_ret. cbn [Z.eqb negb]. split; [congruence|]. eexists. split; [done|].
  assert (mb_pos mb = length c) as ->. { rewrite (mbuf_holds_length mb c Hh). apply Hh. }
  rewrite <- app_assoc in H2. exact (alter_holds (fun v => Z.lor v (u8 (Z.shiftl (max_nri (map snd us) 0) 5))) mb2 c _ _ H2).
Qed.

Lemma be16_read n : 0 <= n <= 65535 -> from_be (be16 n) = n.
Proof. intros H. rewrite from_be16. apply u16_small. lia. Qed.
Lemma stap_decode_units long us : Forall (fun u => u <> [] /\ zlen u <= 65535) us ->
  forall fuel frame pkt c s, mbuf_wf pkt -> mbuf_buf pkt = stap_body us -> (length us < fuel)%nat -> mbuf_holds frame c ->
  iwp (stap_decode_loop fuel frame pkt long) (fun '(err, frame', _) s' => out s' = out s /\ err = 0
    /\ mbuf_holds frame' (c ++ stream (map (fun u => (long, u)) us))) s.
Proof.
  induction 1 as [|u us [Hu Hlen] _ IH]; intros fuel frame pkt c s W Eb Hf Hh; (destruct fuel as [|fuel]; [lia|]); cbn [stap_decode_loop];
    pose proof (mbuf_buf_length pkt W) as L; rewrite Eb in L.
  { cbn in L. destruct (Nat.leb_spec H264_STAP_MIN_LENGTH (mbuf_get_left pkt)) as [Hx|_]; [unfold H264_STAP_MIN_LENGTH in Hx; lia|].
    apply iwp_ret. split; [done|]. split; [done|]. unfold stream. cbn. by rewrite app_nil_r. }
  unfold stap_body in Eb, L. cbn [map concat] in Eb, L. fold (stap_body us) in Eb, L. rewrite !length_app, be16_length in L.
  destruct (Nat.leb_spec H264_STAP_MIN_LENGTH (mbuf_get_left pkt)) as [_|Hx]; [|unfold H264_STAP_MIN_LENGTH in Hx; lia].
  unfold mbuf_read_u16, mbuf_read_be. pose proof (read_tape pkt 2 W) as HR. destruct (mbuf_read_mem pkt 2) as [[d pkt1]|].
  2: { rewrite Eb in HR. rewrite !length_app, be16_length in HR. lia. }
  destruct HR as (_ & -> & W1 & _ & E1). rewrite Eb, <- app_assoc in *. rewrite (take_app_length' (be16 _)) by done. rewrite be16_read by lia.
  rewrite (drop_app_length' (be16 _)) in E1 by done. pose proof (mbuf_buf_length pkt1 W1) as L1. rewrite E1, length_app in L1.
  assert (0 < length u)%nat by (destruct u; [done|cbn; lia]).
  assert ((zlen u <? Z.of_nat H264_HEADER_LENGTH) || (zlen u >? Z.of_nat (mbuf_get_left pkt1)) = false) as ->.
  { apply orb_false_iff. split; [apply Z.ltb_ge; unfold H264_HEADER_LENGTH; lia|]. rewrite Z.gtb_ltb. apply Z.ltb_ge. lia. }
  rewrite Nat2Z.id. pose proof (read_tape pkt1 (length u) W1) as HR. unfold mbuf_read_mem in HR.
  destruct (Nat.ltb_spec (mbuf_get_left pkt1) (length u)); [lia|]. destruct HR as (_ & Ed & W2 & _ & E2). rewrite E1 in Ed, E2.
  rewrite take_app_length in Ed. rewrite drop_app_length in E2.
  apply iwp_bind. eapply iwp_mono; [by apply write_ok|]. intros [e1 f1] s1 (Ho1 & -> & H1).
  apply iwp_bind. eapply iwp_mono; [by apply write_ok|]. intros [e2 f2] s2 (Ho2 & -> & H2). cbn [Z.lor Z.eqb negb]. rewrite Ed in H2.
  eapply iwp_mono; [eapply (IH fuel f2 _ _ s2 W2 E2); [cbn in Hf; lia|exact H2]|].
  intros [[err f'] p'] s' (Ho & -> & H'). split; [congruence|]. split; [done|]. cbn [map]. rewrite stream_cons. by rewrite <- !app_assoc in H'.
Qed.

(** Aggregation is undone by its decoder.  A frame in Annex-B format whose
    units fit 16-bit lengths is encoded, behind what the buffer holds, into an
    octet of type 24 with the largest NRI of its units and each unit behind its
    length; decoding what follows that octet gives the same units in the same
    order, each with a start code of the wanted length. *)
Theorem stap_roundtrip base us mb frame c s (long : bool) :
  us <> [] -> Forall (fun u => nal_ok u.2 /\ zlen u.2 <= 65535) us -> mbuf_holds mb c -> mbuf_holds frame [] ->
  iwp (h264_stap_encode base mb (stream us)) (fun r s' =>
    exists mb', r = Some (0, mb') /\ mbuf_holds mb' (c ++ stap_packet (map snd us))
      /\ iwp (stap_decode_annexb_int frame (mbuf_set_pos mb' (length c + 1)) long) (fun '(err, frame', _) s2 =>
           out s2 = out s /\ err = 0 /\ mbuf_holds frame' (stream (map (fun u => (long, u.2)) us))) s') s.
Proof.
  intros Hne Hus Hh Hf. eapply iwp_mono; [by apply (stap_encode_units base us mb c s)|]. intros r s1 (Ho & mb' & -> & H').
  exists mb'. split; [done|]. split; [done|]. pose proof (mbuf_holds_length mb' _ H') as Lc. unfold stap_packet in Lc. rewrite length_app in Lc. cbn [length] in Lc.
  destruct H' as (Hc & Hp & He). unfold stap_decode_annexb_int. set (pkt := mbuf_set_pos mb' (length c + 1)).
  assert (mbuf_wf pkt) as W by (unfold mbuf_wf, pkt, mbuf_set_pos, mb_size in *; cbn; lia).
  assert (mbuf_buf pkt = stap_body (map snd us)) as Eb.
  { destruct (tape_rest pkt W) as [E _]. rewrite <- E. unfold pkt, tape_of, mbuf_set_pos. cbn [tp_pos tp_data mb_pos mb_buf mb_end]. rewrite Hc.
    rewrite drop_app_ge by lia. by replace (length c + 1 - length c)%nat with 1%nat by lia. }
  pose proof (mbuf_buf_length pkt W) as L. rewrite Eb in L.
  assert (length (map snd us) <= length (stap_body (map snd us)))%nat as Ls.
  { clear. generalize (map snd us). intros l. induction l as [|u l IH]; [done|]. unfold stap_body. cbn [map concat]. fold (stap_body l). rewrite !length_app, be16_length. cbn [length]. lia. }
  eapply iwp_mono; [eapply (stap_decode_units long (map snd us)); [|exact W|exact Eb|lia|exact Hf]|].
  - apply Forall_map. eapply Forall_impl; [|exact Hus]. intros u [Hu Hl]. split; [by apply nal_ok_nonempty|done].
  - intros [[err f'] p'] s2 (Ho2 & -> & H2). split; [congruence|]. split; [done|]. cbn [app] in H2. rewrite map_map in H2. exact H2.
Qed.
End stap_proofs.

Lemma stap_roundtrip_witness :
  iwp (@h264_stap_encode demo_env 2 (Mbuf [] 0 0) (stream [(true, [103; 66; 128]); (false, [104; 206])])) (fun r s' =>
    exists mb', r = Some (0, mb') /\ mbuf_holds mb' (stap_packet [[103; 66; 128]; [104; 206]])
      /\ iwp (@stap_decode_annexb_int demo_env (Mbuf [] 0 0) (mbuf_set_pos mb' 1) false) (fun '(err, frame', _) s2 =>
           out s2 = [] /\ err = 0 /\ mbuf_holds frame' [0; 0; 1; 103; 66; 128; 0; 0; 1; 104; 206]) s') (Sys 0 []).
Proof.
  apply (@stap_roundtrip demo_env demo_env_alloc 2 [(true, [103; 66; 128]); (false, [104; 206])] (Mbuf [] 0 0) (Mbuf [] 0 0) [] (Sys 0 []) false).
  - discriminate.
  - repeat constructor; try (vm_compute; lia); try (vm_compute; discriminate); unfold is_byte; try lia.
  - split; [reflexivity|split; [reflexivity|vm_compute; lia]].
  - split; [reflexivity|split; [reflexivity|vm_compute; lia]].
Defined.
