(* ===== verification/RtspAuth.v ===== *)
(** * Digest authentication ([rtsp_auth.c])

    The module state [g_auth], the field parser of the [Authorization] header,
    the check of a request and the challenge.  MD5 is the environment's. *)
From S2P Require Import Prelude Sys Fmt.

Definition REALM : bytes := cstr "SmartLockIntercom".
Definition NONCE_LEN : nat := 32.
Definition MD5_STR_SIZE : nat := 33.

(** The arrays are C strings: their content up to the terminator. *)
Record auth := Auth {
  au_username : bytes;
  au_password : bytes;
  au_nonce : bytes;
  au_enabled : bool
}.

Definition auth_zero : auth := Auth [] [] [] false.

Definition set_nonce (n : bytes) (a : auth) : auth :=
  Auth (au_username a) (au_password a) n (au_enabled a).

(** ** Operations *)

(** [rand()] is not negative, so [%] is [mod]. *)
Fixpoint generate_nonce `{Env} (len : nat) : IO bytes :=
  match len with
  | O => mret []
  | S n =>
      r ← ask QRand;
      t ← generate_nonce n;
      mret (digit_char false (r mod 16) :: t)
  end.

(** An absent ([NULL]) string is [None]. *)
Definition rtsp_auth_init `{Env} (username password : option bytes) : M auth unit :=
  match username, password with
  | Some u, Some p =>
      match cstring u, cstring p with
      | _ :: _, _ :: _ =>
          n ← lift (generate_nonce NONCE_LEN);
          modify (fun _ => Auth (str_ncpy u 64) (str_ncpy p 64) n true)
      | _, _ => modify (fun a => Auth (au_username a) (au_password a) (au_nonce a) false)
      end
  | _, _ => modify (fun a => Auth (au_username a) (au_password a) (au_nonce a) false)
  end.

Definition rtsp_auth_enabled : M auth bool := a ← get; mret (au_enabled a).

(** [sprintf(out + 2 * i, "%02x", digest[i])] *)
Definition hex2 (b : Z) : bytes := [digit_char false (b / 16); digit_char false (b mod 16)].
Definition md5_hex `{Env} (data : bytes) : bytes := concat (map hex2 (env_md5 data)).

(** The end of an unquoted value. *)
Definition field_end (c : Z) : bool := (c =? chr ",") || (c =? chr " ") || (c =? 13).

(** The error code and, on success, the C string stored in [out]. *)
Definition parse_digest_field `{Env} (hdr field : bytes) (out_sz : nat) : Z * bytes :=
  let pattern := snprintf_str 64 "%s=\q" [AStr field] in
  match strstr hdr pattern with
  | None =>
      let pattern := snprintf_str 64 "%s=" [AStr field] in
      match strstr hdr pattern with
      | None => (ENOENT, [])
      | Some p =>
          let start := drop (p + length pattern) (cstring hdr) in
          let value := take (length start - length (skip_while (fun c => negb (field_end c)) start)) start in
          (0, take (out_sz - 1) value)
      end
  | Some p =>
      let start := drop (p + length pattern) (cstring hdr) in
      match strchr start 34 with
      | None => (EINVAL, [])
      | Some e => (0, take (out_sz - 1) (take e start))
      end
  end.

(** The local array a field was parsed into: the string, its terminator and
    what was on the stack before. *)
Definition field_array `{Env} (v : bytes) (size : nat) : bytes :=
  v ++ 0 :: map env_uninit (seq (length v + 1) (size - (length v + 1))).

(** The comparison loop: [cmp |= response[i] ^ expected[i]]. *)
Fixpoint xor_diff (n : nat) (a b : bytes) : Z :=
  match n with
  | O => 0
  | S n' => Z.lor (Z.lxor (nth 0 a 0) (nth 0 b 0)) (xor_diff n' (tail a) (tail b))
  end.

(** The digest the server expects for the fields of a request. *)
Definition expected_digest `{Env} (a : auth) (realm nonce method req_uri : bytes) : bytes :=
  let ha1 := md5_hex (snprintf_str 256 "%s:%s:%s"
                        [AStr (au_username a); AStr realm; AStr (au_password a)]) in
  let ha2 := md5_hex (snprintf_str 256 "%s:%s" [AStr method; AStr req_uri]) in
  md5_hex (snprintf_str 512 "%s:%s:%s" [AStr ha1; AStr nonce; AStr ha2]).

(** [uri] is a parameter of the function that its body does not use. *)
Definition rtsp_auth_check `{Env} (method uri : bytes) (auth_hdr : option bytes) : M auth Z :=
  a ← get;
  if negb (au_enabled a) then mret 0
  else
    match auth_hdr with
    | None => mret EACCES
    | Some hdr =>
        if negb (starts_nocase (cstr "Digest ") (cstring hdr)) then mret EACCES
        else
          let '(e1, username) := parse_digest_field hdr (cstr "username") 64 in
          if negb (e1 =? 0) then mret EACCES else
          let '(e2, realm) := parse_digest_field hdr (cstr "realm") 64 in
          if negb (e2 =? 0) then mret EACCES else
          let '(e3, nonce) := parse_digest_field hdr (cstr "nonce") 64 in
          if negb (e3 =? 0) then mret EACCES else
          let '(e4, response) := parse_digest_field hdr (cstr "response") 64 in
          if negb (e4 =? 0) then mret EACCES else
          let '(e5, req_uri) := parse_digest_field hdr (cstr "uri") 256 in
          if negb (e5 =? 0) then mret EACCES else
          if negb (streq username (au_username a)) then mret EACCES else
          if negb (streq nonce (au_nonce a)) then mret EACCES else
          let expected := expected_digest a realm nonce method req_uri in
          if negb (xor_diff (MD5_STR_SIZE - 1) (field_array response 64) expected =? 0)
          then mret EACCES
          else
            n ← lift (generate_nonce NONCE_LEN);
            modify (set_nonce n) ;;
            mret 0
    end.

(** The content of the buffer and the return value. *)
Definition rtsp_auth_challenge `{Env} (buf_sz : nat) : M auth (bytes * Z) :=
  a ← get;
  mret (re_snprintf buf_sz "WWW-Authenticate: Digest realm=\q%s\q, nonce=\q%s\q\r\n"
          [AStr REALM; AStr (au_nonce a)]).

(** ** Invariant *)
Definition is_hex (c : Z) : Prop := 48 <= c <= 57 \/ 97 <= c <= 102.

Definition auth_wf (a : auth) : Prop :=
  au_enabled a = true ->
  length (au_nonce a) = NONCE_LEN /\ Forall is_hex (au_nonce a)
  /\ (0 < length (au_username a) <= 63)%nat /\ Forall (fun c => c <> 0) (au_username a)
  /\ (0 < length (au_password a) <= 63)%nat /\ Forall (fun c => c <> 0) (au_password a).

(** ** Specification of a client

    The header a client builds in answer to a challenge (RFC 2617), from its
    own user name and password and the challenge's realm and nonce. *)
Definition quoted (k v : bytes) : bytes := k ++ [61; 34] ++ v ++ [34].
Definition client_response `{Env} (user pass realm nonce method uri : bytes) : bytes :=
  md5_hex (md5_hex (user ++ [58] ++ realm ++ [58] ++ pass) ++ [58] ++ nonce ++ [58]
           ++ md5_hex (method ++ [58] ++ uri)).
Definition client_header `{Env} (user pass realm nonce method uri : bytes) : bytes :=
  cstr "Digest " ++ quoted (cstr "username") user ++ cstr ", "
  ++ quoted (cstr "realm") realm ++ cstr ", " ++ quoted (cstr "nonce") nonce ++ cstr ", "
  ++ quoted (cstr "uri") uri ++ cstr ", "
  ++ quoted (cstr "response") (client_response user pass realm nonce method uri).

(** A value a client can put between quotes without being misread. *)
Definition plain_value (v : bytes) : Prop :=
  Forall (fun c => c <> 0 /\ c <> 34 /\ c <> 61) v.

(** ** Lemmas: finding a quoted field

    A pattern that ends in a quote can only match where one is, so the search skips whole
    quote-free segments. *)
Section quotes.
Abbreviation qfree := (Forall (fun c => c <> 34)).

Lemma first_quote_unique a b x y :
  qfree a -> qfree b -> a ++ 34 :: x = b ++ 34 :: y -> a = b /\ x = y.
Proof.
  intros Ha. revert b. induction Ha as [|c a Hc Ha IH]; intros b Hb E.
  - destruct b as [|d b]; simpl in E; [by injection E as ->|].
    inversion Hb; subst. congruence.
  - destruct b as [|d b]; simpl in E; [congruence|]. injection E as -> E.
    inversion Hb; subst. by destruct (IH b H2 E) as [-> ->].
Qed.

Context (f : bytes) (Hf : qfree f).

Lemma prefix_quote a r :
  qfree a -> prefixb (f ++ [34]) (a ++ 34 :: r) = true -> a = f.
Proof.
  intros Ha H. apply prefixb_spec in H as [k H].
  rewrite <- app_assoc in H. by apply first_quote_unique in H as [-> _].
Qed.

Lemma find_sub_skip a r :
  qfree a -> (forall x, a <> x ++ f) ->
  find_sub (f ++ [34]) (a ++ 34 :: r)
  = (fun n => (length a + 1 + n)%nat) <$> find_sub (f ++ [34]) r.
Proof.
  induction 1 as [|c a Hc Ha IH]; intros Hne.
  - cbn [app find_sub]. destruct (prefixb (f ++ [34]) (34 :: r)) eqn:E.
    + apply (prefix_quote [] r) in E; [|constructor]. by destruct (Hne []).
    + by destruct (find_sub _ r).
  - cbn [app find_sub]. destruct (prefixb (f ++ [34]) (c :: a ++ 34 :: r)) eqn:E.
    + apply (prefix_quote (c :: a)) in E; [|by constructor]. by destruct (Hne []).
    + rewrite IH by (intros x ->; by apply (Hne (c :: x))).
      by destruct (find_sub _ r).
Qed.

Lemma find_sub_hit x r :
  qfree x -> find_sub (f ++ [34]) ((x ++ f) ++ 34 :: r) = Some (length x).
Proof.
  induction 1 as [|c x Hc Hx IH].
  - cbn [app length]. assert (prefixb (f ++ [34]) (f ++ 34 :: r) = true) as E.
    { apply prefixb_spec. exists r. by rewrite <- app_assoc. }
    destruct (f ++ 34 :: r) eqn:F; cbn [find_sub]; by rewrite E.
  - cbn [app find_sub]. destruct (prefixb (f ++ [34]) (c :: (x ++ f) ++ 34 :: r)) eqn:E.
    + apply (prefix_quote (c :: x ++ f)) in E; [|constructor; [done|by apply Forall_app]].
      apply (f_equal length) in E. len_lia.
    + by rewrite IH.
Qed.
End quotes.

(** A value without [=] does not end in [k=]; a literal is checked. *)
Lemma not_suffix_plain v k : plain_value v -> forall x, v <> x ++ k ++ [61].
Proof.
  intros Hv x ->. apply Forall_app in Hv as [_ Hv]. apply Forall_app in Hv as [_ Hv].
  inversion Hv; tauto.
Qed.
Lemma not_suffix_lit a k : prefixb (rev k) (rev a) = false -> forall x, a <> x ++ k.
Proof.
  intros H x ->. rewrite rev_app_distr in H.
  assert (prefixb (rev k) (rev k ++ rev x) = true); [|congruence].
  apply prefixb_spec. by eexists.
Qed.
Lemma plain_qfree v : plain_value v -> Forall (fun c => c <> 34) v.
Proof. apply Forall_impl. tauto. Qed.
Lemma plain_nonul v : plain_value v -> Forall (fun c => c <> 0) v.
Proof. apply Forall_impl. tauto. Qed.
#[export] Hint Resolve plain_qfree plain_nonul : intercom.

Lemma parse_quoted `{Env} hdr k sz p pre v post :
  Forall (fun c => c <> 0) hdr -> Forall (fun c => c <> 34) v ->
  hdr = pre ++ 34 :: v ++ 34 :: post ->
  snprintf_str 64 "%s=\q" [AStr k] = k ++ [61; 34] ->
  find_sub (k ++ [61; 34]) hdr = Some p ->
  (p + length k + 2 = length pre + 1)%nat ->
  parse_digest_field hdr k sz = (0, take (sz - 1) v).
Proof.
  intros Hn Hv Hh Hp Hf Hl. unfold parse_digest_field. rewrite Hp.
  unfold strstr. rewrite cstring_no_nul by done. rewrite Hf. cbv zeta.
  assert (drop (p + length (k ++ [61; 34])) hdr = v ++ 34 :: post) as ->.
  { subst hdr. rewrite (cons_middle 34 pre), (app_assoc pre). apply drop_app_length'. len_lia. }
  subst hdr. apply Forall_app in Hn as [_ Hn]. inversion Hn as [|? ? _ Hn']; subst.
  unfold strchr. rewrite cstring_no_nul by done.
  rewrite (memchr_app_None v) by (by apply memchr_None).
  cbn [memchr]. rewrite Z.eqb_refl. cbn [fmap option_fmap option_map].
  rewrite Nat.add_0_r. by rewrite take_app_length.
Qed.

(** ** Lemmas: digests and nonces *)
Lemma digit_char_hex c : 0 <= c < 16 -> is_hex (digit_char false c).
Proof. intros H. unfold digit_char, is_hex. destruct (c <? 10) eqn:E; bool_hyps; lia. Qed.

Lemma md5_hex_spec `{E : Env} `{!Md5Spec E} d :
  length (md5_hex d) = 32%nat /\ Forall is_hex (md5_hex d).
Proof.
  unfold md5_hex. pose proof (md5_length d) as Hl. pose proof (md5_bytes d) as Hb.
  split.
  - assert (forall l, length (concat (map hex2 l)) = 2 * length l)%nat as ->;
      [|by rewrite Hl].
    clear. induction l as [|b l IH]; cbn in *; lia.
  - clear Hl. induction Hb as [|b l Hb _ IH]; cbn [map concat]; [constructor|].
    apply Forall_app. split; [|done]. unfold is_byte in Hb.
    apply Forall_cons_2; [|apply Forall_cons_2; [|constructor]]; apply digit_char_hex; mod_lia.
Qed.

(** The digits that the next calls of [rand] give, [k] calls having been made. *)
Definition drawn_nonce `{Env} (k : nat) : bytes :=
  map (fun i => digit_char false (env QRand i mod 16)) (seq k NONCE_LEN).
Lemma generate_nonce_drawn `{Env} s :
  iwp (generate_nonce NONCE_LEN) (fun r s' => length r = NONCE_LEN /\ Forall is_hex r /\ out s' = out s /\ r = drawn_nonce (tick s)) s.
Proof.
  unfold drawn_nonce. generalize NONCE_LEN. intros n. revert s. induction n as [|n IH]; intros s; cbn [generate_nonce].
  - by apply iwp_ret.
  - wp_step. wp_step. cbn beta. wp_step. eapply iwp_mono; [apply IH|].
    intros r s' (Hl & Hh & Ho & Hd). wp_step. cbn [length seq map]. split; [lia|].
    split; [|by rewrite Hd]. constructor; [|done]. apply digit_char_hex. mod_lia.
Qed.

Lemma hex_nonzero l : Forall is_hex l -> Forall (fun c => c <> 0) l.
Proof. apply Forall_impl. unfold is_hex. lia. Qed.
Lemma hex_plain l : Forall is_hex l -> plain_value l.
Proof. apply Forall_impl. unfold is_hex. lia. Qed.
#[export] Hint Resolve hex_nonzero hex_plain : intercom.

(** The comparison loop finds no difference exactly when the arrays agree. *)
Lemma xor_diff_0 n a b :
  (n <= length a)%nat -> (n <= length b)%nat ->
  (xor_diff n a b = 0 <-> take n a = take n b).
Proof.
  revert a b. induction n as [|n IH]; intros a b Ha Hb; [done|].
  destruct a as [|x a]; [cbn in Ha; lia|]. destruct b as [|y b]; [cbn in Hb; lia|].
  cbn [xor_diff nth tail firstn]. cbn [length] in *. rewrite Z.lor_eq_0_iff, Z.lxor_eq_0_iff.
  rewrite IH by lia. split; [intros [-> ->]; done|intros Hx; by injection Hx].
Qed.

Lemma field_array_length `{Env} v n : (length v < n)%nat -> length (field_array v n) = n.
Proof. intros Hv. unfold field_array. len_lia. Qed.

Lemma take_eq_l {A} (a b c : list A) n :
  (n <= length a)%nat -> length c = n -> (take n (a ++ b) = c <-> take n a = c).
Proof. intros Ha Hc. by rewrite take_app_le. Qed.

(** Whatever was on the stack, an array matches a digest exactly when the
    string in it does. *)
Lemma response_matches `{Env} v d :
  (length v < 64)%nat -> length d = 32%nat -> Forall is_hex d ->
  (xor_diff (MD5_STR_SIZE - 1) (field_array v 64) d = 0 <-> take 32 v = d).
Proof.
  intros Hv Hd Hh. change (MD5_STR_SIZE - 1)%nat with 32%nat.
  rewrite xor_diff_0 by (rewrite ?field_array_length; lia).
  rewrite (take_ge d) by lia. unfold field_array.
  destruct (Nat.le_gt_cases 32 (length v)); [by rewrite take_eq_l|].
  split; intros E; exfalso.
  - assert (d !! length v = Some 0) as Hx.
    { rewrite <- E, lookup_take_lt by lia. by rewrite list_lookup_middle. }
    apply (Forall_lookup_1 _ _ _ _ Hh) in Hx. unfold is_hex in Hx. lia.
  - rewrite take_ge in E by lia. subst. lia.
Qed.

Lemma parse_digest_field_bound `{Env} hdr k sz e v :
  parse_digest_field hdr k sz = (e, v) -> (length v <= sz - 1)%nat.
Proof.
  unfold parse_digest_field. repeat case_match; intros [= <- <-]; len_lia.
Qed.

(** ** Theorems *)

Lemma parse_digest_field_nonul `{Env} hdr k sz e v :
  parse_digest_field hdr k sz = (e, v) -> Forall (fun c => c <> 0) v.
Proof.
  unfold parse_digest_field.
  repeat case_match; intros [= <- <-]; try constructor;
    repeat apply Forall_take; apply Forall_drop, cstring_Forall.
Qed.

(** What the header of an accepted request carries. *)
Definition auth_accepts `{Env} (a : auth) (method : bytes) (hdr : option bytes) : Prop :=
  exists h realm response req_uri, hdr = Some h
    /\ starts_nocase (cstr "Digest ") (cstring h) = true
    /\ parse_digest_field h (cstr "username") 64 = (0, au_username a)
    /\ parse_digest_field h (cstr "realm") 64 = (0, realm)
    /\ parse_digest_field h (cstr "nonce") 64 = (0, au_nonce a)
    /\ parse_digest_field h (cstr "response") 64 = (0, response)
    /\ parse_digest_field h (cstr "uri") 256 = (0, req_uri)
    /\ take 32 response = expected_digest a realm (au_nonce a) method req_uri.

Lemma streq_nonul a b :
  Forall (fun c => c <> 0) a -> Forall (fun c => c <> 0) b -> streq a b = bytes_eqb a b.
Proof. intros Ha Hb. unfold streq. by rewrite !cstring_no_nul. Qed.

(** The outcome of the check, as a relation between the states. *)
Definition auth_outcome `{Env} (a : auth) (method : bytes) (hdr : option bytes) (s : sys)
    (r : Z) (a' : auth) (s' : sys) : Prop :=
  (r = 0 /\ auth_accepts a method hdr /\ out s' = out s
   /\ exists n, a' = set_nonce n a /\ length n = NONCE_LEN /\ Forall is_hex n /\ n = drawn_nonce (tick s))
  \/ (r = EACCES /\ ~ auth_accepts a method hdr /\ a' = a /\ s' = s).

Lemma expected_digest_hex `{E : Env} `{!Md5Spec E} a realm nonce method uri :
  length (expected_digest a realm nonce method uri) = 32%nat
  /\ Forall is_hex (expected_digest a realm nonce method uri).
Proof. apply md5_hex_spec. Qed.

Lemma auth_refuse `{Env} a method hdr s :
  ~ auth_accepts a method hdr -> wp (mret EACCES) (auth_outcome a method hdr s) a s.
Proof. intros Hn. apply wp_ret. by right. Qed.

Lemma auth_check_outcome `{E : Env} `{!Md5Spec E} a method uri hdr s :
  auth_wf a -> au_enabled a = true ->
  wp (rtsp_auth_check method uri hdr) (auth_outcome a method hdr s) a s.
Proof.
  intros Hwf Hen. destruct (Hwf Hen) as (Hnl & Hnh & Hul & Hun & _).
  unfold rtsp_auth_check. wp_step. wp_step. cbn beta. rewrite Hen. cbn [negb].
  destruct hdr as [h|]; [|apply auth_refuse; by intros (?&?&?&?&?&?)].
  destruct (starts_nocase (cstr "Digest ") (cstring h)) eqn:Ed; cbn [negb];
    [|apply auth_refuse; intros (?&?&?&?&[= <-]&?&_); congruence].
  destruct (parse_digest_field h (cstr "username") 64) as [e1 un] eqn:P1.
  destruct (parse_digest_field h (cstr "realm") 64) as [e2 realm] eqn:P2.
  destruct (parse_digest_field h (cstr "nonce") 64) as [e3 nonce] eqn:P3.
  destruct (parse_digest_field h (cstr "response") 64) as [e4 resp] eqn:P4.
  destruct (parse_digest_field h (cstr "uri") 256) as [e5 ru] eqn:P5.
  pose proof (parse_digest_field_bound _ _ _ _ _ P4) as Hr4.
  assert (streq un (au_username a) = bytes_eqb un (au_username a)) as Eu
    by (eapply streq_nonul; [by eapply parse_digest_field_nonul|done]).
  assert (streq nonce (au_nonce a) = bytes_eqb nonce (au_nonce a)) as En
    by (eapply streq_nonul; [by eapply parse_digest_field_nonul|auto with intercom]).
  rewrite Eu, En.
  destruct (e1 =? 0) eqn:Z1, (e2 =? 0) eqn:Z2, (e3 =? 0) eqn:Z3, (e4 =? 0) eqn:Z4, (e5 =? 0) eqn:Z5;
    cbn [negb]; bool_hyps;
    try (apply auth_refuse;
         intros (?&?&?&?&[= <-]&_&?&?&?&?&?&_); congruence).
  subst e1 e2 e3 e4 e5.
  destruct (bytes_eqb un (au_username a)) eqn:Bu; cbn [negb];
    [apply bytes_eqb_eq in Bu; subst un|
     apply auth_refuse; intros (?&?&?&?&[= <-]&_&?&_); bool_hyps;
     unfold bytes_eqb in Bu; bool_hyps; congruence].
  destruct (bytes_eqb nonce (au_nonce a)) eqn:Bn; cbn [negb];
    [apply bytes_eqb_eq in Bn; subst nonce|
     apply auth_refuse; intros (?&?&?&?&[= <-]&_&_&_&?&_);
     unfold bytes_eqb in Bn; bool_hyps; congruence].
  destruct (expected_digest_hex a realm (au_nonce a) method ru) as [Hdl Hdh].
  pose proof (response_matches resp (expected_digest a realm (au_nonce a) method ru)
    ltac:(lia) Hdl Hdh) as Hm.
  destruct (xor_diff _ _ _ =? 0) eqn:Ex; bool_hyps; cbn [negb].
  - apply wp_bind, wp_lift. eapply iwp_mono; [apply generate_nonce_drawn|]. intros n s' (Hl & Hh & Ho & Hd).
    apply wp_bind, wp_modify, wp_ret. left. split; [done|]. split; [|by eauto 10].
    exists h, realm, resp, ru. rewrite P1, P2, P3, P4, P5. repeat split; [done|]. by apply Hm.
  - apply auth_refuse. intros (?&?&?&?&[= <-]&_&?&?&?&?&?&Ht).
    apply Ex, Hm. congruence.
Qed.

(** C3. With authentication enabled, the check accepts a request exactly when
    its header is a Digest header with the configured user name, the current
    nonce and, in the first 32 characters of the response, the digest computed
    from the stored password; it accepts by returning 0 and replacing the nonce,
    and nothing else, by the 32 hexadecimal digits that the next 32 calls of
    [rand] give, and refuses with [EACCES] leaving the state as it was.  The
    answer does not depend on what the stack held. *)
Theorem rtsp_auth_check_decides `{E : Env} `{!Md5Spec E} (a : auth) (method uri : bytes)
    (hdr : option bytes) (s : sys) :
  auth_wf a -> au_enabled a = true ->
  let '(r, a', s') := rtsp_auth_check method uri hdr a s in
  (r = 0 <-> auth_accepts a method hdr)
  /\ (r = 0 -> a' = set_nonce (drawn_nonce (tick s)) a /\ Forall is_hex (drawn_nonce (tick s)) /\ out s' = out s)
  /\ (r <> 0 -> r = EACCES /\ a' = a /\ s' = s).
Proof.
  intros Hwf Hen. pose proof (auth_check_outcome a method uri hdr s Hwf Hen) as H.
  unfold wp in H. destruct (rtsp_auth_check _ _ _ _ _) as [[r a'] s'].
  destruct H as [(-> & Hacc & Ho & n & -> & _ & Hh & ->)|(-> & Hacc & -> & ->)].
  - split; [done|]. split; [done|]. by intros [].
  - unfold EACCES. split; [split; [lia|done]|]. split; [lia|done].
Qed.

Definition demo_auth : auth :=
  Auth (cstr "admin") (cstr "secret") (replicate 32 97) true.
Lemma demo_auth_wf : auth_wf demo_auth.
Proof.
  intros _. cbn [demo_auth au_nonce au_username au_password].
  split; [done|]. split; [apply Forall_replicate; unfold is_hex; lia|].
  repeat split; cbn [length cstr]; try lia; repeat (apply Forall_cons_2; [done|]); constructor.
Qed.

(** C4. Replay protection: when [rand] draws a nonce other than the current
    one, a header that is accepted is refused when it is presented again, whatever
    the method and address. *)
Theorem rtsp_auth_no_replay `{E : Env} `{!Md5Spec E} (a a' : auth) (m m' u u' : bytes)
    (hdr : option bytes) (s s' s2 : sys) :
  auth_wf a -> au_enabled a = true -> drawn_nonce (tick s) <> au_nonce a ->
  rtsp_auth_check m u hdr a s = (0, a', s') ->
  rtsp_auth_check m' u' hdr a' s2 = (EACCES, a', s2).
Proof.
  intros Hwf Hen Hne H1. pose proof (auth_check_outcome a m u hdr s Hwf Hen) as O1.
  unfold wp in O1. rewrite H1 in O1.
  destruct O1 as [(_ & Hacc & _ & n & -> & Hl & Hh & Hd)|[[=] _]]. rewrite <- Hd in Hne.
  assert (auth_wf (set_nonce n a)) as Hwf' by (intros _; by destruct (Hwf Hen) as (_ & _ & ?)).
  pose proof (auth_check_outcome (set_nonce n a) m' u' hdr s2 Hwf' Hen) as O2. unfold wp in O2.
  destruct (rtsp_auth_check _ _ _ _ s2) as [[r2 a2] s2'].
  destruct O2 as [(_ & Hacc' & _)|(-> & _ & -> & ->)]; [|done].
  destruct Hacc as (h&?&?&?&->&_&_&_&P&_). destruct Hacc' as (h'&?&?&?&[= <-]&_&_&_&P'&_).
  cbn in *. congruence.
Qed.

Definition demo_header : bytes :=
  @client_header good_env (cstr "admin") (cstr "secret") REALM (replicate 32 97) (cstr "PLAY")
    (cstr "rtsp://lock/live").

(** A header that is accepted, one that is not. *)
Lemma rtsp_auth_check_decides_witness :
  (@rtsp_auth_check good_env (cstr "PLAY") [] (Some demo_header) demo_auth (Sys 0 [])).1.2 = set_nonce (@drawn_nonce good_env 0) demo_auth
  /\ (@rtsp_auth_check good_env (cstr "PLAY") [] None demo_auth (Sys 0 [])).1.1 = EACCES.
Proof.
  pose proof (@rtsp_auth_check_decides good_env good_env_md5 demo_auth (cstr "PLAY") [] (Some demo_header) (Sys 0 []) demo_auth_wf eq_refl) as H1.
  pose proof (@rtsp_auth_check_decides good_env good_env_md5 demo_auth (cstr "PLAY") [] None (Sys 0 []) demo_auth_wf eq_refl) as H2.
  split.
  - destruct (@rtsp_auth_check good_env (cstr "PLAY") [] (Some demo_header) demo_auth (Sys 0 [])) as [[r a'] s'] eqn:E.
    assert (r = 0) as Hr by (vm_compute in E; congruence). apply H1. exact Hr.
  - destruct (@rtsp_auth_check good_env (cstr "PLAY") [] None demo_auth (Sys 0 [])) as [[r a'] s'] eqn:E.
    apply H2. vm_compute in E. intros ->. discriminate E.
Defined.

Lemma rtsp_auth_no_replay_witness :
  @rtsp_auth_check good_env (cstr "PLAY") [] (Some demo_header)
    (Auth (cstr "admin") (cstr "secret") (replicate 32 48) true) (Sys 99 [])
  = (EACCES, Auth (cstr "admin") (cstr "secret") (replicate 32 48) true, Sys 99 []).
Proof.
  apply (@rtsp_auth_no_replay good_env good_env_md5 demo_auth _ (cstr "PLAY") (cstr "PLAY") [] []
    (Some demo_header) (Sys 0 []) (Sys 32 [])).
  - exact demo_auth_wf.
  - reflexivity.
  - vm_compute. discriminate.
  - vm_compute. reflexivity.
Defined.

(** The invariant of the module: once enabled, the nonce is 32 hexadecimal
    digits and the credentials are non-empty strings of at most 63 characters.
    Initialisation establishes it and a check preserves it. *)
Theorem auth_wf_invariant `{E : Env} `{!Md5Spec E} (a : auth) (s : sys) :
  (forall u p, auth_wf (rtsp_auth_init u p a s).1.2)
  /\ (auth_wf a -> forall m u h, auth_wf (rtsp_auth_check m u h a s).1.2).
Proof.
  split.
  - intros u p.
    assert (wp (rtsp_auth_init u p) (fun _ a' _ => auth_wf a') a s) as H;
      [|unfold wp in H; by destruct (rtsp_auth_init _ _ _ _) as [[??]?]].
    unfold rtsp_auth_init.
    destruct u as [u|]; [destruct p as [p|]|]; [|by apply wp_modify..].
    destruct (cstring u) as [|cu tu] eqn:Eu; [by apply wp_modify|].
    destruct (cstring p) as [|cp tp] eqn:Ep; [by apply wp_modify|].
    apply wp_bind, wp_lift. eapply iwp_mono; [apply generate_nonce_drawn|].
    intros n s' (Hl & Hh & _). apply wp_modify. intros _. cbn [au_nonce au_username au_password].
    unfold str_ncpy.
    repeat split; [done|done|rewrite Eu; cbn; lia|rewrite length_take; lia
      |apply Forall_take, cstring_Forall|rewrite Ep; cbn; lia|rewrite length_take; lia
      |apply Forall_take, cstring_Forall].
  - intros Hwf m u h. destruct (au_enabled a) eqn:Hen.
    + pose proof (auth_check_outcome a m u h s Hwf Hen) as H. unfold wp in H.
      destruct (rtsp_auth_check _ _ _ _ _) as [[r a'] s'].
      destruct H as [(_ & _ & _ & n & -> & Hl & Hh & _)|(_ & _ & -> & _)]; [|done].
      intros _. cbn. destruct (Hwf Hen) as (_ & _ & ?). done.
    + unfold rtsp_auth_check, mbind, M_bind, get. rewrite Hen. done.
Qed.

Lemma auth_wf_invariant_witness :
  auth_wf (@rtsp_auth_check good_env (cstr "PLAY") [] (Some demo_header) demo_auth (Sys 0 [])).1.2.
Proof.
  apply (@auth_wf_invariant good_env good_env_md5 demo_auth (Sys 0 [])), demo_auth_wf.
Defined.

(** ** The client's header is understood *)

(** The header as quote-free segments between quotes. *)
Lemma client_header_segments `{Env} user pass realm nonce method uri :
  client_header user pass realm nonce method uri
  = cstr "Digest username=" ++ 34 :: user ++ 34 :: cstr ", realm=" ++ 34 :: realm
    ++ 34 :: cstr ", nonce=" ++ 34 :: nonce ++ 34 :: cstr ", uri=" ++ 34 :: uri
    ++ 34 :: cstr ", response=" ++ 34 :: client_response user pass realm nonce method uri
    ++ 34 :: [].
Proof.
  unfold client_header, quoted. set (r := client_response _ _ _ _ _ _). clearbody r.
  cbn [cstr app]. rewrite <- ?app_assoc. cbn [app].
  repeat (rewrite <- ?app_assoc; cbn [app]). done.
Qed.

Lemma find_key_hit k x lit r :
  lit = x ++ k ++ [61] -> Forall (fun c => c <> 34) k -> Forall (fun c => c <> 34) x ->
  find_sub (k ++ [61; 34]) (lit ++ 34 :: r) = Some (length x).
Proof.
  intros -> Hk Hx. rewrite (app_assoc k [61] [34] : k ++ [61; 34] = _).
  apply find_sub_hit; [|done]. apply Forall_app. by repeat constructor.
Qed.

Lemma find_key_skip k a r :
  Forall (fun c => c <> 34) k -> Forall (fun c => c <> 34) a -> (forall x, a <> x ++ k ++ [61]) ->
  find_sub (k ++ [61; 34]) (a ++ 34 :: r)
  = (fun n => (length a + 1 + n)%nat) <$> find_sub (k ++ [61; 34]) r.
Proof.
  intros Hk Ha Hne. rewrite (app_assoc k [61] [34] : k ++ [61; 34] = _).
  apply find_sub_skip; [|done..]. apply Forall_app. by repeat constructor.
Qed.

Ltac seg_side :=
  first [ assumption | by auto with intercom
        | (repeat (apply Forall_cons_2; [done|]); by constructor)
        | by apply not_suffix_plain
        | by apply not_suffix_lit ].
(** Walk over the segments to the one the pattern ends. *)
Ltac seg_skip := rewrite find_key_skip by seg_side.

Section client.
Context `{E : Env} `{!Md5Spec E} (user pass realm nonce method uri : bytes).
Context (Hu : plain_value user) (Hr : plain_value realm) (Hn : plain_value nonce)
  (Hi : plain_value uri).

Let resp := client_response user pass realm nonce method uri.
Let hdr := client_header user pass realm nonce method uri.

Lemma client_response_hex : length resp = 32%nat /\ Forall is_hex resp.
Proof. apply md5_hex_spec. Qed.

Lemma client_header_nonul : Forall (fun c => c <> 0) hdr.
Proof.
  unfold hdr. rewrite client_header_segments. destruct client_response_hex as [_ Hh].
  repeat first [ apply Forall_app; split | apply Forall_cons_2; [done|]
               | by apply plain_nonul | by apply hex_nonzero | constructor ].
Qed.

Ltac unlet := repeat match goal with p := _ : bytes |- _ => subst p end.
(** A field is found behind the segments that do not end in its key. *)
Ltac parse_field sz pre v x lit :=
  eapply (parse_quoted _ _ sz _ pre v);
  [ done | seg_side
  | match goal with Hs : _ = _ |- _ => rewrite Hs end; unlet; by repeat (rewrite <- ?app_assoc; cbn [app])
  | reflexivity
  | match goal with Hs : _ = _ |- _ => rewrite Hs end; repeat seg_skip;
    rewrite (find_key_hit _ x lit) by seg_side; reflexivity
  | unlet; cbn [cstr]; len_lia ].

Lemma client_fields :
  parse_digest_field hdr (cstr "username") 64 = (0, take 63 user)
  /\ parse_digest_field hdr (cstr "realm") 64 = (0, take 63 realm)
  /\ parse_digest_field hdr (cstr "nonce") 64 = (0, take 63 nonce)
  /\ parse_digest_field hdr (cstr "response") 64 = (0, take 63 resp)
  /\ parse_digest_field hdr (cstr "uri") 256 = (0, take 255 uri).
Proof.
  destruct client_response_hex as [_ Hh]. apply hex_plain in Hh.
  pose proof client_header_nonul as H0.
  pose proof (client_header_segments user pass realm nonce method uri) as Hs.
  fold hdr resp in Hs. clearbody hdr resp.
  pose (p1 := cstr "Digest username=" ++ 34 :: user ++ 34 :: cstr ", realm=").
  pose (p2 := p1 ++ 34 :: realm ++ 34 :: cstr ", nonce=").
  pose (p3 := p2 ++ 34 :: nonce ++ 34 :: cstr ", uri=").
  pose (p4 := p3 ++ 34 :: uri ++ 34 :: cstr ", response=").
  split; [|split; [|split; [|split]]].
  - parse_field 64%nat (cstr "Digest username=") user (cstr "Digest ") (cstr "Digest username=").
  - parse_field 64%nat p1 realm (cstr ", ") (cstr ", realm=").
  - parse_field 64%nat p2 nonce (cstr ", ") (cstr ", nonce=").
  - parse_field 64%nat p4 resp (cstr ", ") (cstr ", response=").
  - parse_field 256%nat p3 uri (cstr ", ") (cstr ", uri=").
Qed.
End client.

Lemma expected_digest_client `{E : Env} `{!Md5Spec E} a realm nonce method uri :
  (length (au_username a) <= 63)%nat -> (length (au_password a) <= 63)%nat ->
  (length realm <= 63)%nat -> (length nonce <= 63)%nat ->
  (length method + length uri <= 254)%nat ->
  expected_digest a realm nonce method uri
  = client_response (au_username a) (au_password a) realm nonce method uri.
Proof.
  intros Hu Hp Hr Hn Hm. unfold expected_digest, client_response.
  rewrite (snprintf_colon3 256), (snprintf_colon2 256) by lia.
  rewrite snprintf_colon3; [done|].
  rewrite !(fun d => proj1 (md5_hex_spec d)). lia.
Qed.

(** Round trip of challenge and response: the Digest header a client
    computes from the configured user name and password, any realm and the
    current nonce is accepted, for every method and address whose joint length
    fits the server's buffer; the address the request itself names ([uri'])
    plays no part. *)
Theorem rtsp_auth_client_accepted `{E : Env} `{!Md5Spec E} (a : auth)
    (realm method uri uri' : bytes) (s : sys) :
  auth_wf a -> au_enabled a = true ->
  plain_value (au_username a) -> plain_value realm -> plain_value uri ->
  (length realm <= 63)%nat -> (length method + length uri <= 254)%nat ->
  let hdr := client_header (au_username a) (au_password a) realm (au_nonce a) method uri in
  (rtsp_auth_check method uri' (Some hdr) a s).1.1 = 0.
Proof.
  intros Hwf Hen Hu Hr Hi Hrl Hml hdr. destruct (Hwf Hen) as (Hnl & Hnh & Hul & _ & Hpl & _).
  assert (auth_accepts a method (Some hdr)) as Hacc.
  { destruct (client_fields (au_username a) (au_password a) realm (au_nonce a) method uri)
      as (F1 & F2 & F3 & F4 & F5); [auto with intercom..|].
    fold hdr in F1, F2, F3, F4, F5. unfold NONCE_LEN in *.
    rewrite take_ge in F1, F2, F3, F5 by lia.
    exists hdr, realm, (take 63 (client_response (au_username a) (au_password a) realm (au_nonce a) method uri)), uri.
    split; [done|]. split; [|repeat split; [done..|]].
    - subst hdr. rewrite cstring_no_nul; [done|].
      apply client_header_nonul; auto with intercom.
    - rewrite expected_digest_client by lia. rewrite take_take.
      apply take_ge. rewrite (proj1 (client_response_hex _ _ _ _ _ _)). lia. }
  pose proof (auth_check_outcome a method uri' (Some hdr) s Hwf Hen) as O. unfold wp in O.
  destruct (rtsp_auth_check _ _ _ _ _) as [[r a'] s'].
  destruct O as [(-> & _)|(_ & Hno & _)]; [done|by destruct Hno].
Qed.

Lemma rtsp_auth_client_accepted_witness :
  (@rtsp_auth_check good_env (cstr "PLAY") [] (Some demo_header) demo_auth (Sys 0 [])).1.1 = 0.
Proof.
  apply (@rtsp_auth_client_accepted good_env good_env_md5 demo_auth REALM (cstr "PLAY")
    (cstr "rtsp://lock/live") [] (Sys 0 [])).
  - exact demo_auth_wf.
  - reflexivity.
  - repeat (apply Forall_cons_2; [done|]); constructor.
  - repeat (apply Forall_cons_2; [done|]); constructor.
  - repeat (apply Forall_cons_2; [done|]); constructor.
  - cbn; lia.
  - cbn; lia.
Defined.

Lemma ha2_drops_long_uri `{Env} (method uri : bytes) :
  method <> [] -> uri <> [] -> (length method < 255)%nat -> (255 <= length method + length uri)%nat ->
  snprintf_str 256 "%s:%s" [AStr method; AStr uri] = method ++ [58].
Proof.
  intros Hm Hu Hml Hl. unfold snprintf_str, re_snprintf.
  assert (pieces "%s:%s" [AStr method; AStr uri] = ([method; [58]; uri], true)) as ->
    by (destruct method, uri; done).
  change (256 - 1)%nat with 255%nat. cbn [print_bounded].
  destruct (255 <? length method)%nat eqn:E1; bool_hyps; [lia|].
  cbn [length]. destruct (255 - length method <? 1)%nat eqn:E2; bool_hyps; [lia|].
  destruct (255 - length method - 1 <? length uri)%nat eqn:E3; bool_hyps; [done|lia].
Qed.

(** Long addresses are not authenticated: when method and address together
    exceed the 254 characters the server's buffer has for them, the digest
    covers the method only, so that one response serves every such address. *)
Theorem long_uri_unauthenticated `{Env} (a : auth) (realm nonce method uri1 uri2 : bytes) :
  (0 < length method < 255)%nat -> (0 < length uri1)%nat -> (0 < length uri2)%nat ->
  (255 <= length method + length uri1)%nat -> (255 <= length method + length uri2)%nat ->
  expected_digest a realm nonce method uri1 = expected_digest a realm nonce method uri2.
Proof.
  intros Hm H1 H2 L1 L2. unfold expected_digest.
  rewrite !ha2_drops_long_uri; [done|..]; try lia; intros ->; cbn [length] in *; lia.
Qed.

Lemma long_uri_unauthenticated_witness :
  @expected_digest good_env demo_auth REALM [97] (cstr "PLAY") (replicate 255 47)
  = @expected_digest good_env demo_auth REALM [97] (cstr "PLAY") (replicate 255 48).
Proof. apply (@long_uri_unauthenticated good_env); cbn; lia. Defined.
