(* ===== verification/RtspParse.v ===== *)
(** * RTSP request parsing ([rtsp_server.c], lines 288 to 416)

    The parsers work on pointers into the receive buffer.  [mem] is the C
    string from the start of the request on (it continues with whatever was
    received after the request) and positions are offsets into it. *)
From S2P Require Import Prelude Sys Fmt.

Record rtsp_req := Req {
  rq_method : bytes;         (* char[16] *)
  rq_uri : bytes;            (* char[256] *)
  rq_cseq : Z;
  rq_transport : bytes;      (* char[256] *)
  rq_session : bytes;        (* char[32] *)
  rq_authorization : bytes   (* char[512] *)
}.

Definition req_zero : rtsp_req := Req [] [] 0 [] [] [].

Definition set_cseq (z : Z) (r : rtsp_req) : rtsp_req :=
  Req (rq_method r) (rq_uri r) z (rq_transport r) (rq_session r) (rq_authorization r).
Definition set_transport (v : bytes) (r : rtsp_req) : rtsp_req :=
  Req (rq_method r) (rq_uri r) (rq_cseq r) v (rq_session r) (rq_authorization r).
Definition set_session (v : bytes) (r : rtsp_req) : rtsp_req :=
  Req (rq_method r) (rq_uri r) (rq_cseq r) (rq_transport r) v (rq_authorization r).
Definition set_authorization (v : bytes) (r : rtsp_req) : rtsp_req :=
  Req (rq_method r) (rq_uri r) (rq_cseq r) (rq_transport r) (rq_session r) v.

(** [memcpy(array, v, n)] over a string in a zeroed array: a shorter second
    value leaves the tail of the first. *)
Definition overlay (old v : bytes) : bytes := v ++ drop (length v) old.

(** The value of a header field: from behind the name ([line + n]), over
    blanks, up to [eol]; the length is a [size_t] subtraction, cut to the
    array. *)
Definition header_value (mem : bytes) (start eol cap : nat) : bytes :=
  let val := (start + (length (drop start mem)
                       - length (skip_while (fun c => c =? 32)%Z (drop start mem))))%nat in
  let len := u64 (Z.of_nat eol - Z.of_nat val) in
  let len := if Z.of_nat cap <=? len then Z.of_nat cap - 1 else len in
  take (Z.to_nat len) (drop val mem).

(** One header line at offset [line], ending at [eol]. *)
Definition header_line `{Env} (mem : bytes) (line eol : nat) (req : rtsp_req) : rtsp_req :=
  let l := drop line mem in
  if starts_nocase (cstr "CSeq:") l then set_cseq (atoi (drop (line + 5) mem)) req
  else if starts_nocase (cstr "Transport:") l then
    set_transport (overlay (rq_transport req) (header_value mem (line + 10) eol 256)) req
  else if starts_nocase (cstr "Session:") l then
    set_session (overlay (rq_session req) (header_value mem (line + 8) eol 32)) req
  else if starts_nocase (cstr "Authorization:") l then
    set_authorization (overlay (rq_authorization req) (header_value mem (line + 14) eol 512)) req
  else req.

(** The header loop; [len] is the length of the request. *)
Fixpoint header_loop `{Env} (fuel : nat) (mem : bytes) (len line : nat) (req : rtsp_req)
    : rtsp_req :=
  match fuel with
  | O => req
  | S f =>
      if (line + 2 <? len)%nat then
        let line := (line + 2)%nat in
        match find_sub CRLF (drop line mem) with
        | None => req
        | Some d =>
            let eol := (line + d)%nat in
            header_loop f mem len eol (header_line mem line eol req)
        end
      else req
  end.

Definition parse_headers `{Env} (mem : bytes) (len : nat) (req : rtsp_req) : rtsp_req :=
  match find_sub CRLF mem with
  | None => req
  | Some line => header_loop (S len) mem len line req
  end.

Definition parse_rtsp_request `{Env} (mem : bytes) (len : nat) : rtsp_req :=
  match memchr (take len mem) 32 with
  | None => req_zero
  | Some sp1 =>
      let req := Req (take 15 (take sp1 mem)) [] 0 [] [] [] in
      let sp1 := (sp1 + 1)%nat in
      match memchr (drop sp1 (take len mem)) 32 with
      | None => req
      | Some u =>
          let req := Req (rq_method req) (take 255 (take u (drop sp1 mem))) 0 [] [] [] in
          parse_headers mem len req
      end
  end.

(** ** Transport header *)

(** Both parsers read two numbers after a keyword; [conv] is the conversion to
    the type of the results. *)
Definition parse_pair `{Env} (key : bytes) (conv : Z -> Z) (transport : bytes)
    : option (Z * Z) :=
  match strstr transport key with
  | None => None
  | Some i =>
      let p := drop (i + 12) (cstring transport) in
      let a := conv (atoi p) in
      match strchr p 45 with
      | Some d => Some (a, conv (atoi (drop (d + 1) p)))
      | None => Some (a, conv (a + 1))
      end
  end.
Definition parse_client_port `{Env} : bytes -> option (Z * Z) :=
  parse_pair (cstr "client_port=") u16.
Definition parse_interleaved `{Env} : bytes -> option (Z * Z) :=
  parse_pair (cstr "interleaved=") u8.

Definition is_tcp_transport (transport : bytes) : bool :=
  match strstr transport (cstr "RTP/AVP/TCP"), strstr transport (cstr "interleaved=") with
  | None, None => false
  | _, _ => true
  end.

(** ** Specification: a request as lines *)
Definition request_line (method uri : bytes) : bytes :=
  method ++ [32] ++ uri ++ cstr " RTSP/1.0".
Definition request_text (method uri : bytes) (lines : list bytes) : bytes :=
  request_line method uri ++ CRLF ++ concat (map (fun l => l ++ CRLF) lines) ++ CRLF.

(** What one header line means, without reference to the buffer. *)
Definition field_value (n cap : nat) (l : bytes) : bytes :=
  take (cap - 1) (skip_while (fun c => c =? 32) (drop n l)).
Definition line_effect `{Env} (req : rtsp_req) (l : bytes) : rtsp_req :=
  if starts_nocase (cstr "CSeq:") l then set_cseq (atoi (drop 5 l)) req
  else if starts_nocase (cstr "Transport:") l then
    set_transport (overlay (rq_transport req) (field_value 10 256 l)) req
  else if starts_nocase (cstr "Session:") l then
    set_session (overlay (rq_session req) (field_value 8 32 l)) req
  else if starts_nocase (cstr "Authorization:") l then
    set_authorization (overlay (rq_authorization req) (field_value 14 512 l)) req
  else req.

(** A line the specification covers: no CR, no NUL, and a sequence number field
    that is not blank. *)
Definition line_ok (l : bytes) : Prop :=
  Forall (fun c => c <> 13 /\ c <> 0) l
  /\ (starts_nocase (cstr "CSeq:") l = true -> skip_while isspace (drop 5 l) <> []).

(** ** Lemmas: one line *)
Lemma find_crlf l r :
  Forall (fun c => c <> 13) l -> find_sub CRLF (l ++ 13 :: 10 :: r) = Some (length l).
Proof.
  induction 1 as [|c l Hc Hl IH]; [done|]. cbn [app find_sub prefixb CRLF].
  destruct (13 =? c) eqn:E; bool_hyps; [congruence|]. cbn [andb]. by rewrite IH.
Qed.

Lemma starts_nocase_line lit l r :
  Forall (fun c => tolower c <> 13) lit -> starts_nocase lit (l ++ 13 :: r) = starts_nocase lit l.
Proof.
  intros H. revert l. induction H as [|a lit Ha _ IH]; intros l; [done|].
  destruct l as [|b l]; cbn [app starts_nocase].
  - destruct (tolower a =? tolower 13) eqn:E; bool_hyps; [|done]. by rewrite E in Ha.
  - by rewrite IH.
Qed.

Lemma starts_nocase_length lit l : starts_nocase lit l = true -> (length lit <= length l)%nat.
Proof.
  revert l. induction lit as [|a lit IH]; intros [|b l] H; cbn in *; [lia..|done|].
  bool_hyps. apply IH in H0. lia.
Qed.

Lemma skip_while_stop p x c r : p c = false ->
  skip_while p (x ++ c :: r) = skip_while p x ++ c :: r.
Proof.
  intros Hc. induction x as [|b x IH]; cbn [app skip_while]; [by rewrite Hc|].
  by destruct (p b).
Qed.

Lemma skip_while_app p x y : skip_while p x <> [] -> skip_while p (x ++ y) = skip_while p x ++ y.
Proof. induction x as [|b x IH]; cbn [app skip_while]; intros H; [done|]. destruct (p b); auto. Qed.

Lemma skip_while_length p x : (length (skip_while p x) <= length x)%nat.
Proof. induction x as [|b x IH]; cbn [skip_while]; [lia|]. destruct (p b); cbn [length]; lia. Qed.

Lemma skip_while_drop p x : skip_while p x = drop (length x - length (skip_while p x)) x.
Proof.
  induction x as [|b x IH]; cbn [skip_while]; [done|]. destruct (p b).
  - rewrite IH at 1. pose proof (skip_while_length p x). cbn [length].
    by replace (S (length x) - length (skip_while p x))%nat
      with (S (length x - length (skip_while p x))) by lia.
  - by rewrite Nat.sub_diag.
Qed.

Lemma digits_val_stop acc x c r : isdigit c = false -> digits_val acc (x ++ c :: r) = digits_val acc x.
Proof.
  intros Hc. revert acc. induction x as [|b x IH]; intros acc; cbn [app digits_val]; [by rewrite Hc|].
  destruct (isdigit b); auto.
Qed.

Lemma atoi_val_stop x c r : isdigit c = false ->
  skip_while isspace x <> [] -> atoi_val (x ++ c :: r) = atoi_val x.
Proof.
  intros Hc Hx. unfold atoi_val. rewrite skip_while_app by done.
  destruct (skip_while isspace x) as [|b y]; [done|]. cbn [app].
  rewrite (app_comm_cons y (c :: r) b), !digits_val_stop by done. done.
Qed.

(** The [size_t] subtraction does not wrap, and the value is the text behind
    the name without leading blanks. *)
Lemma header_value_line pre l r n cap :
  (n <= length l)%nat -> zlen l < 4294967296 -> (0 < cap)%nat ->
  header_value (pre ++ l ++ 13 :: r) (length pre + n) (length pre + length l) cap
  = field_value n cap l.
Proof.
  intros Hn Hl Hc. unfold header_value, field_value.
  rewrite drop_app_add, drop_app_le by done. set (x := drop n l).
  assert (length x = length l - n)%nat as Hx by (unfold x; len_lia).
  rewrite skip_while_stop by done. set (y := skip_while _ x).
  pose proof (skip_while_length (fun c => c =? 32) x) as Hy. fold y in Hy.
  rewrite !length_app. cbn [length].
  replace (length x + S (length r) - (length y + S (length r)))%nat with (length x - length y)%nat by lia.
  replace (Z.of_nat (length pre + length l) - Z.of_nat (length pre + n + (length x - length y)))
    with (zlen y) by lia.
  assert (u64 (zlen y) = zlen y) as -> by (apply Z.mod_small; lia).
  assert (drop (length pre + n + (length x - length y)) (pre ++ l ++ 13 :: r) = y ++ 13 :: r) as ->.
  { rewrite <- Nat.add_assoc, drop_app_add, drop_app_le by lia.
    rewrite <- drop_drop. fold x. unfold y. by rewrite <- skip_while_drop. }
  destruct (Z.of_nat cap <=? zlen y) eqn:E; bool_hyps.
  - rewrite take_app_le by lia. f_equal. lia.
  - rewrite Nat2Z.id, take_app_length. by rewrite take_ge by lia.
Qed.

Ltac no_cr := repeat (apply Forall_cons_2; [done|]); constructor.

Lemma header_line_effect `{Env} pre l r req :
  line_ok l -> zlen l < 4294967296 -> Forall (fun c => c <> 0) r ->
  header_line (pre ++ l ++ 13 :: r) (length pre) (length pre + length l) req = line_effect req l.
Proof.
  intros [Hl Hseq] Hlen Hr. unfold header_line, line_effect. rewrite drop_app_length.
  rewrite !starts_nocase_line by no_cr.
  destruct (starts_nocase (cstr "CSeq:") l) eqn:E1.
  { pose proof (starts_nocase_length _ _ E1) as Hn. cbn in Hn.
    f_equal. rewrite drop_app_add, drop_app_le by lia. unfold atoi.
    assert (Forall (fun c => c <> 0) (drop 5 l)) as H0
      by (apply Forall_drop; eapply Forall_impl; [|exact Hl]; cbn; tauto).
    rewrite (cstring_no_nul (drop 5 l ++ _)) by (apply Forall_app; split; [done|by constructor]).
    rewrite (cstring_no_nul (drop 5 l)) by done. by rewrite atoi_val_stop by auto. }
  repeat match goal with |- context [starts_nocase ?k l] =>
    let E := fresh in destruct (starts_nocase k l) eqn:E;
    [pose proof (starts_nocase_length _ _ E) as Hn; cbn in Hn;
     by rewrite header_value_line by lia|]
  end.
  done.
Qed.

(** ** Lemmas: the loop *)
Lemma line_ok_nocr l : line_ok l -> Forall (fun c => c <> 13) l.
Proof. intros [Hl _]. eapply Forall_impl; [|exact Hl]. cbn. tauto. Qed.
Lemma line_ok_nonul l : line_ok l -> Forall (fun c => c <> 0) l.
Proof. intros [Hl _]. eapply Forall_impl; [|exact Hl]. cbn. tauto. Qed.

Abbreviation body_text ls := (concat (map (fun l => l ++ CRLF) ls) ++ CRLF).

Lemma body_nonul ls t : Forall line_ok ls -> Forall (fun c => c <> 0) t ->
  Forall (fun c => c <> 0) (body_text ls ++ t).
Proof.
  intros Hl Ht. rewrite <- app_assoc. apply Forall_app. split; [|by repeat constructor].
  induction Hl as [|l ls Hok _ IH]; cbn; [constructor|].
  rewrite !Forall_app. repeat split; [by apply line_ok_nonul|by repeat constructor|done].
Qed.

Lemma header_loop_lines `{Env} ls pre t fuel req :
  Forall line_ok ls -> Forall (fun c => c <> 0) t -> zlen (body_text ls) < 4294967296 ->
  (length ls + 2 <= fuel)%nat ->
  header_loop fuel (pre ++ CRLF ++ body_text ls ++ t)
    (length pre + 2 + length (body_text ls)) (length pre) req
  = fold_left line_effect ls req.
Proof.
  revert pre fuel req. induction ls as [|l ls IH]; intros pre fuel req Hok Ht Hlen Hf.
  - destruct fuel as [|[|fuel]]; [cbn in Hf; lia..|]. cbn [header_loop map concat app].
    change (length CRLF) with 2%nat.
    destruct (length pre + 2 <? length pre + 2 + 2)%nat eqn:E; bool_hyps; [|lia].
    rewrite drop_app_add. change (drop 2 (CRLF ++ CRLF ++ t)) with ([] ++ 13 :: 10 :: t).
    rewrite find_crlf by constructor. cbn [fold_left length]. rewrite Nat.add_0_r.
    destruct (length pre + 2 + 2 <? length pre + 2 + 2)%nat eqn:E2; bool_hyps; [lia|].
    unfold header_line. rewrite drop_app_add. done.
  - inversion Hok as [|? ? Hl Hls]; subst. destruct fuel as [|fuel]; [cbn in Hf; lia|].
    cbn [header_loop map concat].
    set (rest := body_text ls ++ t).
    assert (pre ++ CRLF ++ (((l ++ CRLF) ++ concat (map (fun l => l ++ CRLF) ls)) ++ CRLF) ++ t
            = (pre ++ CRLF) ++ l ++ 13 :: 10 :: rest) as ->.
    { unfold rest, CRLF. by rewrite <- !app_assoc. }
    assert (length (pre ++ CRLF) = length pre + 2)%nat as Hp by (unfold CRLF; len_lia).
    set (body := concat _) in *.
    destruct (length pre + 2 <? _)%nat eqn:E; bool_hyps; [|unfold CRLF in E; len_lia].
    rewrite <- Hp, drop_app_length, find_crlf by (by apply line_ok_nocr).
    rewrite header_line_effect; [|done| |].
    + replace ((pre ++ CRLF) ++ l ++ 13 :: 10 :: rest)
        with (((pre ++ CRLF) ++ l) ++ CRLF ++ rest) by (unfold CRLF; by rewrite <- !app_assoc).
      replace (length (pre ++ CRLF) + length l)%nat with (length ((pre ++ CRLF) ++ l)) by len_lia.
      replace (length (pre ++ CRLF) + length (((l ++ CRLF) ++ body) ++ CRLF))%nat
        with (length ((pre ++ CRLF) ++ l) + 2 + length (body_text ls))%nat
        by (subst body; unfold CRLF; len_lia).
      cbn [fold_left]. apply IH; [done|done| |cbn in Hf; lia].
      subst body. revert Hlen. cbn [map concat]. unfold CRLF. len_lia.
    + revert Hlen. cbn [map concat]. unfold CRLF. len_lia.
    + constructor; [done|]. by apply body_nonul.
Qed.

Lemma body_text_length ls : (2 * length ls + 2 <= length (body_text ls))%nat.
Proof.
  unfold CRLF. rewrite length_app. cbn [length].
  induction ls as [|l ls IH]; cbn [map concat length]; len_lia.
Qed.

(** A word of the request line. *)
Definition word_ok (w : bytes) : Prop := Forall (fun c => c <> 32 /\ c <> 13 /\ c <> 0) w.

(** A request made of a request line and header lines, followed by any
    further data, is parsed into the method and address (cut to 15 and 255
    characters) and the effect of each header line in order: the pointer loop
    over the receive buffer never reads a header of the data that follows, and
    its lengths do not wrap. *)
Theorem parse_rtsp_request_lines `{Env} (method uri : bytes) (lines : list bytes) (tail : bytes) :
  word_ok method -> word_ok uri -> Forall line_ok lines -> Forall (fun c => c <> 0) tail ->
  zlen (request_text method uri lines) < 4294967296 ->
  parse_rtsp_request (request_text method uri lines ++ tail)
    (length (request_text method uri lines))
  = fold_left line_effect lines (Req (take 15 method) (take 255 uri) 0 [] [] []).
Proof.
  intros Hm Hu Hl Ht Hlen. unfold parse_rtsp_request. rewrite take_app_length.
  assert (forall w r, word_ok w -> memchr (w ++ 32 :: r) 32 = Some (length w)) as Hsp.
  { intros w r Hw. rewrite memchr_app_None.
    - cbn. by rewrite Nat.add_0_r.
    - apply memchr_None. eapply Forall_impl; [|exact Hw]. cbn. tauto. }
  set (rl := request_line method uri) in *. unfold request_text in *. fold rl in Hlen |- *.
  set (b := concat (map (fun l => l ++ CRLF) lines) ++ CRLF) in *.
  assert (rl ++ CRLF ++ b = method ++ 32 :: uri ++ 32 :: cstr "RTSP/1.0" ++ CRLF ++ b) as Hs.
  { unfold rl, request_line. by rewrite <- !app_assoc. }
  rewrite Hs, Hsp by done. rewrite (cons_middle 32 method), app_assoc.
  replace (length method + 1)%nat with (length (method ++ [32])) by len_lia.
  rewrite drop_app_length, Hsp by done.
  rewrite <- !app_assoc, take_app_length, app_assoc, drop_app_length.
  rewrite <- app_assoc, take_app_length.
  cbn [rq_method]. unfold parse_headers.
  replace (method ++ [32] ++ uri ++ (32 :: cstr "RTSP/1.0" ++ CRLF ++ b) ++ tail)
    with (rl ++ CRLF ++ b ++ tail) by (unfold rl, request_line; by rewrite <- !app_assoc).
  replace (method ++ [32] ++ uri ++ 32 :: cstr "RTSP/1.0" ++ CRLF ++ b)
    with (rl ++ CRLF ++ b) by (unfold rl, request_line; by rewrite <- !app_assoc).
  assert (forall w, word_ok w -> Forall (fun c => c <> 13) w) as Hcr.
  { intros w Hw. eapply Forall_impl; [|exact Hw]. cbn. tauto. }
  assert (find_sub CRLF (rl ++ CRLF ++ b ++ tail) = Some (length rl)) as ->.
  { apply find_crlf. unfold rl, request_line. rewrite !Forall_app.
       repeat split; [by apply Hcr|by repeat constructor|by apply Hcr|no_cr]. }
  pose proof (body_text_length lines) as Hb. fold b in Hb.
  replace (length (rl ++ CRLF ++ b)) with (length rl + 2 + length b)%nat
    in Hlen |- * by (unfold CRLF; len_lia).
  apply (header_loop_lines lines rl tail); [done|done|fold b; lia|lia].
Qed.

Lemma parse_rtsp_request_lines_witness :
  @parse_rtsp_request good_env
    (request_text (cstr "SETUP") (cstr "rtsp://a/trackID=0")
       [cstr "CSeq: 3"; cstr "Transport: RTP/AVP/TCP;interleaved=0-1"] ++ cstr "$")
    (length (request_text (cstr "SETUP") (cstr "rtsp://a/trackID=0")
       [cstr "CSeq: 3"; cstr "Transport: RTP/AVP/TCP;interleaved=0-1"]))
  = Req (cstr "SETUP") (cstr "rtsp://a/trackID=0") 3 (cstr "RTP/AVP/TCP;interleaved=0-1") [] [].
Proof.
  rewrite (@parse_rtsp_request_lines good_env).
  - vm_compute. reflexivity.
  - repeat (apply Forall_cons_2; [repeat split; discriminate|]); constructor.
  - repeat (apply Forall_cons_2; [repeat split; discriminate|]); constructor.
  - repeat (apply Forall_cons_2;
      [split; [repeat (apply Forall_cons_2; [repeat split; discriminate|]); constructor
              |vm_compute; discriminate]|]); constructor.
  - repeat constructor; discriminate.
  - vm_compute. reflexivity.
Defined.

(** ** Transport round trip *)
Definition stops_number (post : bytes) : Prop :=
  match post with [] => True | c :: _ => isdigit c = false end.

Lemma atoi_digits `{Env} n post :
  0 <= n <= 2147483647 -> stops_number post -> Forall (fun c => c <> 0) post ->
  atoi (local_itoa n 10 false ++ post) = n.
Proof.
  intros Hn Hp H0. destruct (local_itoa_spec n ltac:(lia)) as (Hne & Hd & Hv).
  set (ds := local_itoa n 10 false) in *. clearbody ds.
  assert (forall c, isdigit c = true -> 48 <= c <= 57) as Hdig
    by (unfold isdigit; intros c Hc; bool_hyps; lia).
  unfold atoi. rewrite cstring_no_nul.
  2: { apply Forall_app. split; [|done]. eapply Forall_impl; [|exact Hd]. cbn.
       intros c Hc. apply Hdig in Hc. lia. }
  assert (atoi_val (ds ++ post) = n) as ->.
  { destruct ds as [|c ds]; [done|]. inversion Hd as [|? ? Hc Hd']; subst.
    pose proof (Hdig c Hc). unfold atoi_val. cbn [app skip_while].
    assert (isspace c = false) as ->.
    { unfold isspace. apply orb_false_iff. rewrite Z.eqb_neq, andb_false_iff, !Z.leb_gt. lia. }
    destruct (c =? 45) eqn:E1; bool_hyps; [lia|]. destruct (c =? 43) eqn:E2; bool_hyps; [lia|].
    rewrite app_comm_cons. destruct post as [|q post]; [by rewrite app_nil_r|].
    by rewrite digits_val_stop. }
  destruct (_ && _) eqn:E; [done|].
  apply andb_false_iff in E. rewrite !Z.leb_gt in E. lia.
Qed.

Lemma itoa_no_dash n : 0 <= n < 2 ^ 64 -> Forall (fun c => c <> 45 /\ c <> 0) (local_itoa n 10 false).
Proof.
  intros Hn. destruct (local_itoa_spec n Hn) as (_ & Hd & _).
  eapply Forall_impl; [|exact Hd]. cbn. intros c Hc. unfold isdigit in Hc. bool_hyps. lia.
Qed.

Lemma parse_pair_text `{Env} key conv pre post a b :
  length key = 12%nat -> find_sub key (pre ++ key) = Some (length pre) ->
  Forall (fun c => c <> 0) (pre ++ key) -> Forall (fun c => c <> 0) post -> stops_number post ->
  0 <= a < 65536 -> 0 <= b < 65536 ->
  parse_pair key conv (pre ++ key ++ local_itoa a 10 false ++ [45] ++ local_itoa b 10 false ++ post)
  = Some (conv a, conv b).
Proof.
  intros Hk Hf Hn0 Hp0 Hs Ha Hb. unfold parse_pair, strstr.
  pose proof (itoa_no_dash a ltac:(lia)) as Hda. pose proof (itoa_no_dash b ltac:(lia)) as Hdb.
  assert (forall l, Forall (fun c => c <> 45 /\ c <> 0) l -> Forall (fun c => c <> 0) l) as Hnz
    by (intros l Hl; eapply Forall_impl; [|exact Hl]; cbn; tauto).
  assert (Forall (fun c => c <> 0) (45 :: local_itoa b 10 false ++ post)) as Htail
    by (constructor; [done|apply Forall_app; auto]).
  assert (Forall (fun c => c <> 0) (local_itoa a 10 false ++ [45] ++ local_itoa b 10 false ++ post))
    as Hrest by (apply Forall_app; auto).
  rewrite app_assoc, cstring_no_nul by (apply Forall_app; auto).
  rewrite (find_sub_app _ _ _ _ Hf).
  replace (length pre + 12)%nat with (length (pre ++ key)) by len_lia.
  rewrite drop_app_length. rewrite atoi_digits by (done || lia).
  unfold strchr. rewrite cstring_no_nul by done.
  rewrite memchr_app_None
    by (apply memchr_None; eapply Forall_impl; [|exact Hda]; cbn; tauto).
  cbn [app memchr]. rewrite Z.eqb_refl. cbn [fmap option_fmap option_map].
  rewrite Nat.add_0_r, drop_app_add. rewrite skipn_cons, drop_0.
  rewrite atoi_digits by (done || lia). done.
Qed.

(** A Transport header that names two ports (or two interleaved channels)
    in decimal is read back as those numbers, behind any text that does not
    itself contain the keyword and before any text that does not continue the
    second number. *)
Theorem transport_roundtrip `{Env} (pre post : bytes) (a b : Z) :
  Forall (fun c => c <> 0) pre -> Forall (fun c => c <> 0) post -> stops_number post ->
  (find_sub (cstr "client_port=") (pre ++ cstr "client_port=") = Some (length pre) ->
   0 <= a < 65536 -> 0 <= b < 65536 ->
   parse_client_port (pre ++ cstr "client_port=" ++ local_itoa a 10 false ++ [45]
                      ++ local_itoa b 10 false ++ post) = Some (a, b))
  /\ (find_sub (cstr "interleaved=") (pre ++ cstr "interleaved=") = Some (length pre) ->
      0 <= a < 256 -> 0 <= b < 256 ->
      parse_interleaved (pre ++ cstr "interleaved=" ++ local_itoa a 10 false ++ [45]
                         ++ local_itoa b 10 false ++ post) = Some (a, b)).
Proof.
  intros Hpre Hpost Hs. split; intros Hf Ha Hb.
  - unfold parse_client_port. rewrite parse_pair_text by (done || lia ||
      (apply Forall_app; split; [done|no_cr])). by rewrite !u16_small.
  - unfold parse_interleaved. rewrite parse_pair_text by (done || lia ||
      (apply Forall_app; split; [done|no_cr])). by rewrite !u8_small.
Qed.

Lemma transport_roundtrip_witness :
  @parse_client_port good_env (cstr "RTP/AVP;unicast;client_port=50000-50001") = Some (50000, 50001).
Proof.
  apply (@transport_roundtrip good_env (cstr "RTP/AVP;unicast;") [] 50000 50001);
    [no_cr|constructor|exact I|vm_compute; reflexivity|lia|lia].
Defined.
