(* ===== verification/RtspState.v ===== *)
(** * State of the RTSP server ([rtsp_server.c])

    [struct rtsp_client], the server globals [g_rtsp], and the world the
    handlers run in: the server with the camera, the microphone, the speaker
    and the authentication module it calls.

    A client is identified by its TCP connection.  A timer is the delay it was
    last started with, or [None] when it is not running. *)
From S2P Require Import Prelude Sys Fmt Mbuf Camera AudioIn AudioOut RtspAuth.

Inductive rtsp_state := RTSP_IDLE | RTSP_READY | RTSP_PLAYING.
#[export] Instance rtsp_state_eq_dec : EqDecision rtsp_state.
Proof. solve_decision. Defined.

(** The fields of one direction of media: socket, destination and port for
    UDP, channels for TCP, and the RTP counters. *)
Record track := Track {
  t_sock : option nat;
  t_dest : sa;
  t_srv_port : Z;
  t_ch : Z;
  t_ch_rtcp : Z;
  t_ssrc : Z;
  t_ts : Z;
  t_seq : Z;
  t_setup : bool
}.

(** The [bc_] fields are the backchannel's. *)
Record client := Client {
  c_tc : nat;
  c_peer : sa;
  c_rbuf : option mbuf;
  c_state : rtsp_state;
  c_session_id : bytes;
  c_interleaved : bool;
  c_video : track;
  c_audio : track;
  c_bc_setup : bool;
  c_bc_ch : Z;
  c_bc_ch_rtcp : Z;
  c_audio_out_opened : bool;
  c_timeout : option Z
}.

Record rtsp := Rtsp {
  g_listening : bool;
  g_clients : list client;
  g_tmr_audio : option Z;
  g_tmr_video : option Z;
  g_camera_opened : bool;
  g_frame_count : Z;
  g_port : Z;
  g_local_ip : bytes;
  g_mic_opened : bool
}.

Record world := World {
  w_rtsp : rtsp;
  w_cam : camera;
  w_ain : audio_in;
  w_aout : audio_out;
  w_auth : auth
}.

(** ** Field updates *)
Definition set_t_sock (v : option nat) (x : track) : track :=
  Track v (t_dest x) (t_srv_port x) (t_ch x) (t_ch_rtcp x) (t_ssrc x) (t_ts x) (t_seq x) (t_setup x).
Definition set_t_dest (v : sa) (x : track) : track :=
  Track (t_sock x) v (t_srv_port x) (t_ch x) (t_ch_rtcp x) (t_ssrc x) (t_ts x) (t_seq x) (t_setup x).
Definition set_t_srv_port (v : Z) (x : track) : track :=
  Track (t_sock x) (t_dest x) v (t_ch x) (t_ch_rtcp x) (t_ssrc x) (t_ts x) (t_seq x) (t_setup x).
Definition set_t_ch (v : Z) (x : track) : track :=
  Track (t_sock x) (t_dest x) (t_srv_port x) v (t_ch_rtcp x) (t_ssrc x) (t_ts x) (t_seq x) (t_setup x).
Definition set_t_ch_rtcp (v : Z) (x : track) : track :=
  Track (t_sock x) (t_dest x) (t_srv_port x) (t_ch x) v (t_ssrc x) (t_ts x) (t_seq x) (t_setup x).
Definition set_t_ssrc (v : Z) (x : track) : track :=
  Track (t_sock x) (t_dest x) (t_srv_port x) (t_ch x) (t_ch_rtcp x) v (t_ts x) (t_seq x) (t_setup x).
Definition set_t_ts (v : Z) (x : track) : track :=
  Track (t_sock x) (t_dest x) (t_srv_port x) (t_ch x) (t_ch_rtcp x) (t_ssrc x) v (t_seq x) (t_setup x).
Definition set_t_seq (v : Z) (x : track) : track :=
  Track (t_sock x) (t_dest x) (t_srv_port x) (t_ch x) (t_ch_rtcp x) (t_ssrc x) (t_ts x) v (t_setup x).
Definition set_t_setup (v : bool) (x : track) : track :=
  Track (t_sock x) (t_dest x) (t_srv_port x) (t_ch x) (t_ch_rtcp x) (t_ssrc x) (t_ts x) (t_seq x) v.

Definition set_c_rbuf (v : option mbuf) (x : client) : client :=
  Client (c_tc x) (c_peer x) v (c_state x) (c_session_id x) (c_interleaved x) (c_video x) (c_audio x) (c_bc_setup x) (c_bc_ch x) (c_bc_ch_rtcp x) (c_audio_out_opened x) (c_timeout x).
Definition set_c_state (v : rtsp_state) (x : client) : client :=
  Client (c_tc x) (c_peer x) (c_rbuf x) v (c_session_id x) (c_interleaved x) (c_video x) (c_audio x) (c_bc_setup x) (c_bc_ch x) (c_bc_ch_rtcp x) (c_audio_out_opened x) (c_timeout x).
Definition set_c_session_id (v : bytes) (x : client) : client :=
  Client (c_tc x) (c_peer x) (c_rbuf x) (c_state x) v (c_interleaved x) (c_video x) (c_audio x) (c_bc_setup x) (c_bc_ch x) (c_bc_ch_rtcp x) (c_audio_out_opened x) (c_timeout x).
Definition set_c_interleaved (v : bool) (x : client) : client :=
  Client (c_tc x) (c_peer x) (c_rbuf x) (c_state x) (c_session_id x) v (c_video x) (c_audio x) (c_bc_setup x) (c_bc_ch x) (c_bc_ch_rtcp x) (c_audio_out_opened x) (c_timeout x).
Definition set_c_video (v : track) (x : client) : client :=
  Client (c_tc x) (c_peer x) (c_rbuf x) (c_state x) (c_session_id x) (c_interleaved x) v (c_audio x) (c_bc_setup x) (c_bc_ch x) (c_bc_ch_rtcp x) (c_audio_out_opened x) (c_timeout x).
Definition set_c_audio (v : track) (x : client) : client :=
  Client (c_tc x) (c_peer x) (c_rbuf x) (c_state x) (c_session_id x) (c_interleaved x) (c_video x) v (c_bc_setup x) (c_bc_ch x) (c_bc_ch_rtcp x) (c_audio_out_opened x) (c_timeout x).
Definition set_c_bc_setup (v : bool) (x : client) : client :=
  Client (c_tc x) (c_peer x) (c_rbuf x) (c_state x) (c_session_id x) (c_interleaved x) (c_video x) (c_audio x) v (c_bc_ch x) (c_bc_ch_rtcp x) (c_audio_out_opened x) (c_timeout x).
Definition set_c_bc_ch (v : Z) (x : client) : client :=
  Client (c_tc x) (c_peer x) (c_rbuf x) (c_state x) (c_session_id x) (c_interleaved x) (c_video x) (c_audio x) (c_bc_setup x) v (c_bc_ch_rtcp x) (c_audio_out_opened x) (c_timeout x).
Definition set_c_bc_ch_rtcp (v : Z) (x : client) : client :=
  Client (c_tc x) (c_peer x) (c_rbuf x) (c_state x) (c_session_id x) (c_interleaved x) (c_video x) (c_audio x) (c_bc_setup x) (c_bc_ch x) v (c_audio_out_opened x) (c_timeout x).
Definition set_c_audio_out_opened (v : bool) (x : client) : client :=
  Client (c_tc x) (c_peer x) (c_rbuf x) (c_state x) (c_session_id x) (c_interleaved x) (c_video x) (c_audio x) (c_bc_setup x) (c_bc_ch x) (c_bc_ch_rtcp x) v (c_timeout x).
Definition set_c_timeout (v : option Z) (x : client) : client :=
  Client (c_tc x) (c_peer x) (c_rbuf x) (c_state x) (c_session_id x) (c_interleaved x) (c_video x) (c_audio x) (c_bc_setup x) (c_bc_ch x) (c_bc_ch_rtcp x) (c_audio_out_opened x) v.

Definition set_g_listening (v : bool) (x : rtsp) : rtsp :=
  Rtsp v (g_clients x) (g_tmr_audio x) (g_tmr_video x) (g_camera_opened x) (g_frame_count x) (g_port x) (g_local_ip x) (g_mic_opened x).
Definition set_g_clients (v : list client) (x : rtsp) : rtsp :=
  Rtsp (g_listening x) v (g_tmr_audio x) (g_tmr_video x) (g_camera_opened x) (g_frame_count x) (g_port x) (g_local_ip x) (g_mic_opened x).
Definition set_g_tmr_audio (v : option Z) (x : rtsp) : rtsp :=
  Rtsp (g_listening x) (g_clients x) v (g_tmr_video x) (g_camera_opened x) (g_frame_count x) (g_port x) (g_local_ip x) (g_mic_opened x).
Definition set_g_tmr_video (v : option Z) (x : rtsp) : rtsp :=
  Rtsp (g_listening x) (g_clients x) (g_tmr_audio x) v (g_camera_opened x) (g_frame_count x) (g_port x) (g_local_ip x) (g_mic_opened x).
Definition set_g_camera_opened (v : bool) (x : rtsp) : rtsp :=
  Rtsp (g_listening x) (g_clients x) (g_tmr_audio x) (g_tmr_video x) v (g_frame_count x) (g_port x) (g_local_ip x) (g_mic_opened x).
Definition set_g_frame_count (v : Z) (x : rtsp) : rtsp :=
  Rtsp (g_listening x) (g_clients x) (g_tmr_audio x) (g_tmr_video x) (g_camera_opened x) v (g_port x) (g_local_ip x) (g_mic_opened x).
Definition set_g_port (v : Z) (x : rtsp) : rtsp :=
  Rtsp (g_listening x) (g_clients x) (g_tmr_audio x) (g_tmr_video x) (g_camera_opened x) (g_frame_count x) v (g_local_ip x) (g_mic_opened x).
Definition set_g_local_ip (v : bytes) (x : rtsp) : rtsp :=
  Rtsp (g_listening x) (g_clients x) (g_tmr_audio x) (g_tmr_video x) (g_camera_opened x) (g_frame_count x) (g_port x) v (g_mic_opened x).
Definition set_g_mic_opened (v : bool) (x : rtsp) : rtsp :=
  Rtsp (g_listening x) (g_clients x) (g_tmr_audio x) (g_tmr_video x) (g_camera_opened x) (g_frame_count x) (g_port x) (g_local_ip x) v.

Definition set_w_rtsp (v : rtsp) (x : world) : world :=
  World v (w_cam x) (w_ain x) (w_aout x) (w_auth x).
Definition set_w_cam (v : camera) (x : world) : world :=
  World (w_rtsp x) v (w_ain x) (w_aout x) (w_auth x).
Definition set_w_ain (v : audio_in) (x : world) : world :=
  World (w_rtsp x) (w_cam x) v (w_aout x) (w_auth x).
Definition set_w_aout (v : audio_out) (x : world) : world :=
  World (w_rtsp x) (w_cam x) (w_ain x) v (w_auth x).
Definition set_w_auth (v : auth) (x : world) : world :=
  World (w_rtsp x) (w_cam x) (w_ain x) (w_aout x) v.

(** ** Initial values *)
Definition track_zero : track := Track None sa_zero 0 0 0 0 0 0 false.
(** [mem_zalloc] and the two assignments that follow it. *)
Definition client_new (tc : nat) (peer : sa) : client :=
  Client tc peer None RTSP_IDLE [] false track_zero track_zero false 0xFF 0xFF false None.
Definition rtsp_zero : rtsp := Rtsp false [] None None false 0 0 [] false.

(** ** Access *)

(** The client with connection [id]. *)
Definition find_client (id : nat) (l : list client) : option client :=
  find (fun c => (c_tc c =? id)%nat) l.
(** A client that is not in the list (freed) reads as a zeroed one; the
    handlers are only called for clients in the list. *)
Definition client_of (id : nat) (w : world) : client :=
  default (client_new id sa_zero) (find_client id (g_clients (w_rtsp w))).
Definition client_get (id : nat) : M world client := fun w s => (client_of id w, w, s).

Definition upd_clients (id : nat) (f : client -> client) (l : list client) : list client :=
  map (fun c => if (c_tc c =? id)%nat then f c else c) l.
Definition upd (id : nat) (f : client -> client) : M world unit :=
  modify (fun w => set_w_rtsp (set_g_clients (upd_clients id f (g_clients (w_rtsp w))) (w_rtsp w)) w).
Definition on_rtsp (f : rtsp -> rtsp) : M world unit :=
  modify (fun w => set_w_rtsp (f (w_rtsp w)) w).

(** The modules the server calls, on their part of the world. *)
Definition on_cam {A} (m : M camera A) : M world A := zoom w_cam set_w_cam m.
Definition on_auth {A} (m : M auth A) : M world A := zoom w_auth set_w_auth m.
Definition on_ain {A} (f : audio_in -> IO (A * audio_in)) : M world A :=
  fun w s => let '(a, d, s') := f (w_ain w) s in (a, set_w_ain d w, s').
Definition on_aout {A} (f : audio_out -> IO (A * audio_out)) : M world A :=
  fun w s => let '(a, d, s') := f (w_aout w) s in (a, set_w_aout d w, s').

Definition upd_video (id : nat) (f : track -> track) : M world unit :=
  upd id (fun c => set_c_video (f (c_video c)) c).
Definition upd_audio (id : nat) (f : track -> track) : M world unit :=
  upd id (fun c => set_c_audio (f (c_audio c)) c).
