(* ===== verification/RtspServer.v ===== *)
(** * The RTSP server ([rtsp_server.c])

    The operations of the server on the state of [RtspState]: replies, the
    method handlers, the dispatcher, the TCP callbacks, the media timers and
    the public functions. *)
From S2P Require Import Prelude Sys Fmt Mbuf Rtp H264 G711 AudioIn AudioOut Base64 Camera.
From S2P Require Import RtspAuth RtspParse RtspState.

Definition AUDIO_SRATE : Z := 8000.
Definition AUDIO_PTIME : Z := 20.
Definition AUDIO_SAMPLES : nat := 160.
Definition VIDEO_WIDTH : nat := 320.
Definition VIDEO_HEIGHT : nat := 240.
Definition VIDEO_FPS : Z := 15.
Definition VIDEO_PTIME : Z := 66.
Definition VIDEO_CLOCK : Z := 90000.
Definition SESSION_TIMEOUT : Z := 60000.

Section Server.
Context `{Env}.

(** ** Media control *)
Definition playing (c : client) : bool := bool_decide (c_state c = RTSP_PLAYING).
Definition has_playing_clients (w : world) : bool := existsb playing (g_clients (w_rtsp w)).

Definition maybe_stop_media : M world unit :=
  w ← get;
  if has_playing_clients w then mret tt
  else on_rtsp (fun g => set_g_frame_count 0 (set_g_tmr_audio None (set_g_tmr_video None g))).

(** [mem_deref] of the last reference: the destructor. *)
Definition client_destructor (id : nat) : M world unit :=
  c ← client_get id;
  (if c_audio_out_opened c
   then on_aout (fun d => d' ← audio_out_close d; mret (tt, d')) else mret tt) ;;
  on_rtsp (fun g => set_g_clients
    (List.filter (fun c => negb (c_tc c =? id)%nat) (g_clients g)) g) ;;
  (match t_sock (c_video c) with Some u => lift (emit (UdpClose u)) | None => mret tt end) ;;
  (match t_sock (c_audio c) with Some u => lift (emit (UdpClose u)) | None => mret tt end) ;;
  lift (emit (TcpClose (c_tc c))).

(** The common body of the timeout and close handlers. *)
Definition session_timeout_handler (id : nat) : M world unit :=
  c ← client_get id;
  (if playing c then upd id (set_c_state RTSP_IDLE) ;; maybe_stop_media else mret tt) ;;
  client_destructor id.
Definition rtsp_close_handler (id : nat) : M world unit :=
  c ← client_get id;
  (if playing c then upd id (set_c_state RTSP_IDLE) ;; maybe_stop_media else mret tt) ;;
  client_destructor id.

Definition start_timers : M world unit :=
  on_rtsp (fun g => set_g_tmr_audio (Some AUDIO_PTIME) (set_g_tmr_video (Some VIDEO_PTIME) g)).

Definition ensure_mic : M world unit :=
  w ← get;
  if g_mic_opened (w_rtsp w) then mret tt
  else
    err ← on_ain (fun d => audio_in_open d AUDIO_SRATE 1 (Z.of_nat AUDIO_SAMPLES));
    if err =? 0 then on_rtsp (set_g_mic_opened true) else mret tt.

Definition ensure_camera (opened : bool) : M world bool :=
  if opened then mret true
  else
    err ← on_cam (camera_open VIDEO_WIDTH VIDEO_HEIGHT VIDEO_FPS 300);
    if negb (err =? 0) && negb (err =? EALREADY) then mret false
    else on_rtsp (set_g_camera_opened true) ;; mret true.

Definition ensure_media_started : M world unit :=
  w ← get;
  ok ← ensure_camera (g_camera_opened (w_rtsp w));
  if (ok : bool) then ensure_mic ;; start_timers else mret tt.

(** The error code, the socket and the port. *)
Definition alloc_rtp_socket : IO (Z * nat * Z) :=
  err ← ask QListen;
  if negb (err =? 0) then mret (err, 0%nat, 0)
  else u ← fresh; p ← ask QPort; mret (0, u, u16 p).

(** ** Sending *)
Definition tcp_send (tc : nat) (data : bytes) : IO Z := emit (TcpSend tc data) ;; ask QTcpSend.
(** A NULL socket is refused ([EINVAL]). *)
Definition udp_send (us : option nat) (dst : sa) (data : bytes) : IO Z :=
  match us with
  | None => mret EINVAL
  | Some u => emit (UdpSend u dst data) ;; ask QUdpSend
  end.

(** [err |= ...] *)
Definition or_printf (err : Z) (mb : mbuf) (fmt : string) (args : list farg) : IO (Z * mbuf) :=
  '(e, mb) ← mbuf_printf mb fmt args; mret (Z.lor err e, mb).

Definition rtsp_reply (cl : client) (cseq code : Z) (reason : bytes)
    (extra_hdrs body : option bytes) : IO Z :=
  let body_len := length (default [] body) in
  mbo ← mbuf_alloc (512 + body_len);
  match mbo with
  | None => mret ENOMEM
  | Some mb =>
      '(err, mb) ← mbuf_printf mb "RTSP/1.0 %d %s\r\n" [ANum code; AStr reason];
      '(err, mb) ← or_printf err mb "CSeq: %d\r\n" [ANum cseq];
      '(err, mb) ← (match c_session_id cl with
                    | _ :: _ =>
                        if (200 <=? code) && (code <? 300)
                        then or_printf err mb "Session: %s;timeout=60\r\n" [AStr (c_session_id cl)]
                        else mret (err, mb)
                    | [] => mret (err, mb)
                    end);
      '(err, mb) ← (match extra_hdrs with
                    | Some h => or_printf err mb "%s" [AStr h]
                    | None => mret (err, mb)
                    end);
      '(err, mb) ← (match body with
                    | Some (b :: bs) =>
                        '(err, mb) ← or_printf err mb "Content-Length: %zu\r\n" [ANum (Z.of_nat body_len)];
                        '(err, mb) ← or_printf err mb "\r\n" [];
                        '(e, mb) ← mbuf_write_mem mb (b :: bs);
                        mret (Z.lor err e, mb)
                    | _ => or_printf err mb "\r\n" []
                    end);
      if negb (err =? 0) then mret err
      else tcp_send (c_tc cl) (mbuf_buf (mbuf_set_pos mb 0))
  end.

(** [rtp] is what the packet's buffer holds from its position. *)
Definition tcp_interleaved_send (cl : client) (channel : Z) (rtp : bytes) : IO Z :=
  let rtp_len := length rtp in
  mbo ← mbuf_alloc (4 + rtp_len);
  match mbo with
  | None => mret ENOMEM
  | Some mb =>
      '(_, mb) ← mbuf_write_u8 mb (chr "$");
      '(_, mb) ← mbuf_write_u8 mb channel;
      '(_, mb) ← mbuf_write_u8 mb (Z.shiftr (Z.of_nat rtp_len) 8);
      '(_, mb) ← mbuf_write_u8 mb (Z.land (Z.of_nat rtp_len) 0xFF);
      '(_, mb) ← mbuf_write_mem mb rtp;
      tcp_send (c_tc cl) (mbuf_buf (mbuf_set_pos mb 0))
  end.

(** The way a packet of a track leaves. *)
Definition track_send (cl : client) (t : track) (data : bytes) : IO Z :=
  if c_interleaved cl then tcp_interleaved_send cl (t_ch t) data
  else udp_send (t_sock t) (t_dest t) data.

Definition send_h264_nalu_to_client (id : nat) (nalu : bytes) (is_last_nalu : bool) : M world unit :=
  c ← client_get id;
  let v := c_video c in
  seq ← lift (send_h264_nalu (track_send c v) (t_ts v) (t_ssrc v) is_last_nalu nalu (t_seq v));
  upd_video id (set_t_seq seq).

(** [for (i = 0; i < frame.count; i++) send_h264_nalu_to_client(...)] *)
Fixpoint send_nalus (id : nat) (nalus : list bytes) : M world unit :=
  match nalus with
  | [] => mret tt
  | n :: t => send_h264_nalu_to_client id n (match t with [] => true | _ => false end) ;; send_nalus id t
  end.

Definition advance_video (id : nat) : M world unit :=
  upd_video id (fun t => set_t_ts (u32 (t_ts t + VIDEO_CLOCK / VIDEO_FPS)) t).

(** One G.711 packet to a client. *)
Definition send_audio (id : nat) (pcmu : bytes) : M world unit :=
  mbo ← lift (mbuf_alloc (12 + AUDIO_SAMPLES));
  match mbo with
  | None => mret tt
  | Some mb =>
      c ← client_get id;
      let a := c_audio c in
      upd_audio id (set_t_seq (u16 (t_seq a + 1))) ;;
      '(_, mb) ← lift (rtp_hdr_encode mb (media_hdr false PT_PCMU (t_seq a) (t_ts a) (t_ssrc a)));
      '(_, mb) ← lift (mbuf_write_mem mb pcmu);
      _ ← lift (track_send c a (mbuf_buf (mbuf_set_pos mb 0)));
      upd_audio id (fun t => set_t_ts (u32 (t_ts t + Z.of_nat AUDIO_SAMPLES)) t)
  end.

(** A frame of microphone samples, silence where there are none, encoded. *)
Definition read_audio_frame : M world bytes :=
  w ← get;
  pcm ← (if g_mic_opened (w_rtsp w)
         then on_ain (fun d => mret (audio_in_read d (Z.of_nat AUDIO_SAMPLES)))
         else mret []);
  mret (map g711_pcm2ulaw (pcm ++ replicate (AUDIO_SAMPLES - length pcm) 0)).

(** ** Method handlers *)
Definition reply (id : nat) (cseq code : Z) (reason : string) (extra body : option bytes) : M world Z :=
  c ← client_get id;
  lift (rtsp_reply c cseq code (cstr reason) extra body).

Definition handle_options (id : nat) (req : rtsp_req) : M world unit :=
  _ ← reply id (rq_cseq req) 200 "OK"
        (Some (cstr "Public: OPTIONS, DESCRIBE, SETUP, PLAY, TEARDOWN, GET_PARAMETER\r\n")) None;
  mret tt.

(** Make sure the camera has produced its parameter sets: open it if need be
    and encode one key frame. *)
Definition describe_open_camera : M world unit :=
  '(e, _, _) ← on_cam camera_get_sps_pps;
  if e =? 0 then mret tt
  else
    err ← on_cam (camera_open VIDEO_WIDTH VIDEO_HEIGHT VIDEO_FPS 300);
    (if (err =? 0) || (err =? EALREADY) then
       on_cam camera_request_keyframe ;;
       _ ← on_cam camera_get_frame;
       mret tt
     else mret tt) ;;
    w ← get;
    if negb (g_camera_opened (w_rtsp w)) && (err =? 0)
    then on_rtsp (set_g_camera_opened true) else mret tt.

(** The [sprop-parameter-sets] attribute, when both sets are known and fit. *)
Definition describe_sprop (sps_pps : Z * bytes * bytes) : bytes :=
  let '(e, sps, pps) := sps_pps in
  if e =? 0 then
    match base64_encode sps 127, base64_encode pps 127 with
    | (0, s64), (0, p64) => snprintf_str 256 ";sprop-parameter-sets=%s,%s" [AStr s64; AStr p64]
    | _, _ => []
    end
  else [].

Definition SDP_FORMAT : string :=
  "v=0\r\no=- 0 0 IN IP4 %s\r\ns=Smart Lock Intercom\r\nc=IN IP4 0.0.0.0\r\nt=0 0\r\nm=video 0 RTP/AVP %d\r\na=rtpmap:%d H264/90000\r\na=fmtp:%d profile-level-id=42e01f;packetization-mode=1%s\r\na=control:trackID=0\r\nm=audio 0 RTP/AVP %d\r\na=rtpmap:%d PCMU/8000\r\na=ptime:%d\r\na=control:trackID=1\r\nm=audio 0 RTP/AVP %d\r\na=rtpmap:%d PCMU/8000\r\na=ptime:%d\r\na=sendonly\r\na=control:trackID=2\r\n".

Definition describe_sdp (local_ip sprop : bytes) : bytes * Z :=
  re_snprintf 2048 SDP_FORMAT
    [AStr local_ip; ANum PT_H264; ANum PT_H264; ANum PT_H264; AStr sprop;
     ANum PT_PCMU; ANum PT_PCMU; ANum AUDIO_PTIME; ANum PT_PCMU; ANum PT_PCMU; ANum AUDIO_PTIME].

(** The body is the [n] first bytes of the array, [n] the result of the
    printing (its bytes are all the array holds, see [describe_sdp_fits]). *)
Definition handle_describe (id : nat) (req : rtsp_req) : M world unit :=
  describe_open_camera ;;
  sp ← on_cam camera_get_sps_pps;
  w ← get;
  let '(sdp, n) := describe_sdp (g_local_ip (w_rtsp w)) (describe_sprop sp) in
  let hdrs := snprintf_str 512 "Content-Type: application/sdp\r\nContent-Base: %s/\r\n"
                [AStr (rq_uri req)] in
  _ ← reply id (rq_cseq req) 200 "OK" (Some hdrs) (Some (take (Z.to_nat (u64 n)) sdp));
  mret tt.

(** *** SETUP *)
(** [strstr(uri, "trackID=n")] followed by a delimiter. *)
Definition track_id (uri key : bytes) : bool :=
  match strstr uri key with
  | None => false
  | Some i =>
      let c := nth (i + 9) (cstring uri) 0 in
      (c =? 0) || (c =? chr "/") || (c =? chr "&") || (c =? chr ";") || (c =? chr " ")
  end.

(** The flags [is_video] and [is_backchannel]; a request for neither, nor for
    audio, is for video first and audio then. *)
Definition setup_flags (cl : client) (uri : bytes) : bool * bool :=
  let is_video := track_id uri (cstr "trackID=0") in
  let is_audio := track_id uri (cstr "trackID=1") in
  let is_backchannel := track_id uri (cstr "trackID=2") in
  if negb is_video && negb is_audio && negb is_backchannel then (negb (t_setup (c_video cl)), false)
  else (is_video, is_backchannel).

Definition TCP_SSRC_FORMAT : string :=
  "Transport: RTP/AVP/TCP;unicast;interleaved=%u-%u;ssrc=%08X\r\n".

(** The interleaved branch; the result is the Transport header of the reply. *)
Definition setup_tcp (id : nat) (is_video is_backchannel : bool) (req : rtsp_req) : M world bytes :=
  let '(rtp_ch, rtcp_ch) :=
    match parse_interleaved (rq_transport req) with
    | Some p => p
    | None => if is_video then (0, 1) else (2, 3)
    end in
  upd id (set_c_interleaved true) ;;
  if is_video then
      r ← lift (ask QRand);
      upd_video id (fun t => set_t_setup true (set_t_ssrc (u32 r) (set_t_ch_rtcp rtcp_ch (set_t_ch rtp_ch t)))) ;;
      mret (snprintf_str 256 TCP_SSRC_FORMAT [ANum rtp_ch; ANum rtcp_ch; ANum (u32 r)])
  else if is_backchannel then
      upd id (fun c => set_c_bc_setup true (set_c_bc_ch_rtcp rtcp_ch (set_c_bc_ch rtp_ch c))) ;;
      mret (snprintf_str 256 "Transport: RTP/AVP/TCP;unicast;interleaved=%u-%u\r\n"
              [ANum rtp_ch; ANum rtcp_ch])
  else
      r ← lift (ask QRand);
      upd_audio id (fun t => set_t_setup true (set_t_ssrc (u32 r) (set_t_ch_rtcp rtcp_ch (set_t_ch rtp_ch t)))) ;;
      mret (snprintf_str 256 TCP_SSRC_FORMAT [ANum rtp_ch; ANum rtcp_ch; ANum (u32 r)]).

(** The socket part of the UDP branch for one track: [None] if it failed. *)
Definition setup_socket (t : track) : IO (option track) :=
  match t_sock t with
  | Some _ => mret (Some t)
  | None =>
      '(err, u, port) ← alloc_rtp_socket;
      if negb (err =? 0) then mret None
      else r ← ask QRand; mret (Some (set_t_ssrc (u32 r) (set_t_srv_port port (set_t_sock (Some u) t))))
  end.

Definition setup_udp_track (t : track) (peer : sa) (client_rtp client_rtcp : Z) : track * bytes :=
  let t := set_t_setup true (set_t_dest (sa_set_port peer client_rtp) t) in
  (t, snprintf_str 256
        "Transport: RTP/AVP;unicast;client_port=%u-%u;server_port=%u-%u;ssrc=%08X\r\n"
        [ANum client_rtp; ANum client_rtcp; ANum (t_srv_port t); ANum (t_srv_port t + 1);
         ANum (t_ssrc t)]).

(** The UDP branch: [None] when it has sent an error reply. *)
Definition setup_udp (id : nat) (is_video is_backchannel : bool) (req : rtsp_req)
    : M world (option bytes) :=
  let refuse code reason := _ ← reply id (rq_cseq req) code reason None None; mret None in
  c ← client_get id;
  if is_backchannel then refuse 461 "Unsupported Transport"
  else if negb (sa_is_loopback (c_peer c)) then refuse 461 "Unsupported Transport"
  else
    match parse_client_port (rq_transport req) with
    | None => refuse 461 "Unsupported Transport"
    | Some (client_rtp, client_rtcp) =>
        to ← lift (setup_socket (if is_video then c_video c else c_audio c));
        match to with
        | None => refuse 500 "Internal Error"
        | Some t =>
            let '(t, resp) := setup_udp_track t (c_peer c) client_rtp client_rtcp in
            (if is_video then upd_video id (fun _ => t) else upd_audio id (fun _ => t)) ;;
            mret (Some resp)
        end
    end.

Definition setup_finish (id : nat) (req : rtsp_req) (resp : bytes) : M world unit :=
  c ← client_get id;
  (match c_session_id c with
   | [] => r ← lift (ask QRand);
           upd id (set_c_session_id (snprintf_str 16 "%08x" [ANum (u32 r)]))
   | _ => mret tt
   end) ;;
  upd id (set_c_state RTSP_READY) ;;
  _ ← reply id (rq_cseq req) 200 "OK" (Some resp) None;
  mret tt.

Definition handle_setup (id : nat) (req : rtsp_req) : M world unit :=
  c ← client_get id;
  let '(is_video, is_backchannel) := setup_flags c (rq_uri req) in
  if is_tcp_transport (rq_transport req) then
    resp ← setup_tcp id is_video is_backchannel req;
    setup_finish id req resp
  else
    ro ← setup_udp id is_video is_backchannel req;
    match ro with
    | None => mret tt
    | Some resp => setup_finish id req resp
    end.

(** *** PLAY *)

(** [while (uri_len > 0 && base_uri[uri_len - 1] == '/')] *)
Definition strip_slashes (uri : bytes) : bytes :=
  rev (skip_while (fun c => c =? 47) (rev uri)).

Definition rtp_info (c : client) (uri : bytes) : bytes :=
  let base_uri := strip_slashes (snprintf_str 256 "%s" [AStr uri]) in
  let v := c_video c in
  let a := c_audio c in
  if c_bc_setup c then
    snprintf_str 512
      "Range: npt=0.000-\r\nRTP-Info: url=%s/trackID=0;seq=%u;rtptime=%u,url=%s/trackID=1;seq=%u;rtptime=%u,url=%s/trackID=2;seq=0;rtptime=0\r\n"
      [AStr base_uri; ANum (t_seq v); ANum (t_ts v);
       AStr base_uri; ANum (t_seq a); ANum (t_ts a); AStr base_uri]
  else
    snprintf_str 512
      "Range: npt=0.000-\r\nRTP-Info: url=%s/trackID=0;seq=%u;rtptime=%u,url=%s/trackID=1;seq=%u;rtptime=%u\r\n"
      [AStr base_uri; ANum (t_seq v); ANum (t_ts v); AStr base_uri; ANum (t_seq a); ANum (t_ts a)].

(** The speaker for the backchannel. *)
Definition play_open_speaker (id : nat) : M world unit :=
  c ← client_get id;
  if c_bc_setup c && negb (c_audio_out_opened c) then
    err ← on_aout (fun d => audio_out_open d AUDIO_SRATE 1 (Z.of_nat AUDIO_SAMPLES));
    if err =? 0 then upd id (set_c_audio_out_opened true) else mret tt
  else mret tt.

(** The first picture, sent at once. *)
Definition play_first_frame (id : nat) : M world unit :=
  '(err, frame) ← on_cam camera_get_frame;
  if err =? 0 then
    send_nalus id (fr_nalus frame) ;;
    advance_video id ;;
    on_rtsp (fun g => set_g_frame_count (u32 (g_frame_count g + 1)) g)
  else mret tt.

(** The first audio packet. *)
Definition play_first_audio (id : nat) : M world unit :=
  c ← client_get id;
  if t_setup (c_audio c) then pcmu ← read_audio_frame; send_audio id pcmu else mret tt.

Definition handle_play (id : nat) (req : rtsp_req) : M world unit :=
  c ← client_get id;
  match c_state c with
  | RTSP_IDLE =>
      _ ← reply id (rq_cseq req) 455 "Method Not Valid in This State" None None;
      mret tt
  | _ =>
      upd id (set_c_state RTSP_PLAYING) ;;
      ensure_media_started ;;
      on_cam camera_request_keyframe ;;
      let info := rtp_info c (rq_uri req) in
      play_open_speaker id ;;
      _ ← reply id (rq_cseq req) 200 "OK" (Some info) None;
      play_first_frame id ;;
      play_first_audio id
  end.

Definition handle_teardown (id : nat) (req : rtsp_req) : M world unit :=
  _ ← reply id (rq_cseq req) 200 "OK" None None;
  upd id (set_c_state RTSP_IDLE) ;;
  maybe_stop_media ;;
  client_destructor id.

(** *** Dispatch *)
Definition is_method (m : string) (req : rtsp_req) : bool := streq (rq_method req) (cstr m).

Definition restart_timeout (id : nat) : M world unit :=
  upd id (set_c_timeout (Some SESSION_TIMEOUT)).

(** The method table; [true] means the client was freed. *)
Definition run_method (id : nat) (req : rtsp_req) : M world bool :=
  if is_method "OPTIONS" req then handle_options id req ;; mret false
  else if is_method "DESCRIBE" req then handle_describe id req ;; mret false
  else if is_method "SETUP" req then handle_setup id req ;; mret false
  else if is_method "PLAY" req then handle_play id req ;; mret false
  else if is_method "TEARDOWN" req then handle_teardown id req ;; mret true
  else if is_method "GET_PARAMETER" req then
    _ ← reply id (rq_cseq req) 200 "OK" None None; mret false
  else _ ← reply id (rq_cseq req) 405 "Method Not Allowed" None None; mret false.

(** Methods that restart the inactivity timeout. *)
Definition resets_timeout (req : rtsp_req) : bool :=
  is_method "OPTIONS" req || is_method "DESCRIBE" req || is_method "SETUP" req
  || is_method "PLAY" req || is_method "GET_PARAMETER" req.

(** Methods that need no credentials. *)
Definition auth_exempt (req : rtsp_req) : bool :=
  is_method "OPTIONS" req || is_method "GET_PARAMETER" req.

(** [true] when the request may not proceed. *)
Definition auth_refused (req : rtsp_req) : M world bool :=
  en ← on_auth rtsp_auth_enabled;
  if en && negb (auth_exempt req) then
    r ← on_auth (rtsp_auth_check (rq_method req) (rq_uri req)
                   (match rq_authorization req with [] => None | a => Some a end));
    mret (negb (r =? 0))
  else mret false.

Definition dispatch_rtsp (id : nat) (mem : bytes) (len : nat) : M world bool :=
  let req := parse_rtsp_request mem len in
  refused ← auth_refused req;
  if (refused : bool) then
    '(challenge, _) ← on_auth (rtsp_auth_challenge 256);
    _ ← reply id (rq_cseq req) 401 "Unauthorized" (Some challenge) None;
    mret false
  else
    freed ← run_method id req;
    if (freed : bool) then mret true
    else (if resets_timeout req then restart_timeout id else mret tt) ;; mret false.

(** ** Receiving *)

(** The audio payload of an interleaved frame of at least 12 bytes. *)
Definition backchannel_payload (rtp : bytes) : bytes :=
  let frame_len := length rtp in
  let b i := nth i rtp 0 in
  let cc := Z.to_nat (Z.land (b 0%nat) 0x0F) in
  let ext := Z.testbit (b 0%nat) 4 in
  let hdr_len := (12 + cc * 4)%nat in
  let hdr_len :=
    if ext && (hdr_len + 4 <=? frame_len)%nat
    then (hdr_len + (4 + Z.to_nat (u16 (Z.lor (Z.shiftl (b (hdr_len + 2)%nat) 8) (b (hdr_len + 3)%nat))) * 4))%nat
    else hdr_len in
  drop hdr_len rtp.

Definition handle_interleaved (id : nat) (channel : Z) (rtp : bytes) : M world unit :=
  c ← client_get id;
  if c_bc_setup c && (channel =? c_bc_ch c) && (12 <=? length rtp)%nat then
    match backchannel_payload rtp with
    | [] => mret tt
    | pcmu =>
        if c_audio_out_opened c
        then on_aout (fun d => d' ← audio_out_play d pcmu; mret (tt, d')) else mret tt
    end
  else mret tt.

(** What is at the front of the received data. *)
Inductive unit_ :=
  | UFrame (channel : Z) (rtp : bytes) (total : nat)    (* a complete frame *)
  | URequest (req_len : nat)                            (* a complete request *)
  | UMore.                                              (* not complete yet *)

Definition frame_length (data : bytes) : nat :=
  Z.to_nat (u16 (Z.lor (Z.shiftl (nth 2 data 0) 8) (nth 3 data 0))).

Definition next_unit (data : bytes) : unit_ :=
  match data with
  | [] => UMore
  | d0 :: _ =>
      if d0 =? chr "$" then
        if (length data <? 4)%nat then UMore
        else
          let frame_len := frame_length data in
          let total := (4 + frame_len)%nat in
          if (length data <? total)%nat then UMore
          else UFrame (nth 1 data 0) (take frame_len (drop 4 data)) total
      else
        match strstr data (cstr "\r\n\r\n") with
        | None => UMore
        | Some eor => URequest (eor + 4)
        end
  end.

(** The received bytes, and the removal of the first [n] of them. *)
Definition rbuf_data (mb : mbuf) : bytes := take (mb_end mb) (mb_buf mb).
Definition rbuf_consume (n : nat) (mb : mbuf) : mbuf :=
  let remain := (mb_end mb - n)%nat in
  Mbuf (drop n (rbuf_data mb) ++ drop remain (mb_buf mb)) (mb_pos mb) remain.

Definition client_data (id : nat) (w : world) : bytes :=
  match c_rbuf (client_of id w) with Some mb => rbuf_data mb | None => [] end.
Definition consume (id n : nat) : M world unit :=
  upd id (fun c => set_c_rbuf (rbuf_consume n <$> c_rbuf c) c).

(** Room for the terminator, whose place is behind the data.  When the buffer is
    full and cannot be extended, the result of [mbuf_resize] is ignored and the
    terminator is written one octet behind the memory; that octet is not part of
    the model. *)
Definition ensure_terminator (id : nat) : M world unit :=
  c ← client_get id;
  match c_rbuf c with
  | Some mb =>
      if (mb_size mb <=? mb_end mb)%nat then
        '(_, mb') ← lift (mbuf_resize mb (mb_end mb + 1));
        upd id (set_c_rbuf (Some mb'))
      else mret tt
  | None => mret tt
  end.

(** The loop over complete units.  Every unit is at least four bytes, so the
    number of received bytes is enough fuel. *)
Fixpoint recv_loop (fuel : nat) (id : nat) : M world unit :=
  match fuel with
  | O => mret tt
  | S f =>
      w ← get;
      let data := client_data id w in
      match data with
      | [] => mret tt
      | d0 :: _ =>
          (if d0 =? chr "$" then mret tt else ensure_terminator id) ;;
          match next_unit data with
          | UMore => mret tt
          | UFrame channel rtp total =>
              handle_interleaved id channel rtp ;;
              consume id total ;;
              recv_loop f id
          | URequest req_len =>
              freed ← dispatch_rtsp id (cstring data) req_len;
              if (freed : bool) then mret tt
              else consume id req_len ;; recv_loop f id
          end
      end
  end.

(** Append to the receive buffer, allocated on first use: [false] if it cannot
    be. *)
Definition recv_append (id : nat) (data : bytes) : M world bool :=
  c ← client_get id;
  mbo ← (match c_rbuf c with Some mb => mret (Some mb) | None => lift (mbuf_alloc 4096) end);
  match mbo with
  | None => mret false
  | Some mb =>
      '(_, mb) ← lift (mbuf_write_mem (mbuf_set_pos mb (mb_end mb)) data);
      upd id (set_c_rbuf (Some mb)) ;;
      mret true
  end.

Definition rtsp_recv_handler (id : nat) (data : bytes) : M world unit :=
  ok ← recv_append id data;
  if negb ok then mret tt
  else
    w ← get;
    if 16384 <? zlen (client_data id w) then client_destructor id
    else recv_loop (length (client_data id w)) id.

(** ** Connections *)

(** The two ways a client starts; its timeout runs and it joins the list. *)
Definition client_start (tc : nat) (peer : sa) : M world unit :=
  on_rtsp (fun g => set_g_clients
    (g_clients g ++ [set_c_timeout (Some SESSION_TIMEOUT) (client_new tc peer)]) g).

(** [tc] is the connection that [tcp_accept] makes. *)
Definition rtsp_conn_handler (tc : nat) (peer : sa) : M world unit :=
  ok ← lift (ask QAlloc);
  if ok =? 0 then lift (emit TcpReject)
  else
    err ← lift (ask QAccept);
    if negb (err =? 0) then mret tt
    else client_start tc peer.

(** [tc] is the relay's connection, which the server takes over. *)
Definition rtsp_accept_relay_conn (tc : nat) (peer : sa) : M world unit :=
  ok ← lift (ask QAlloc);
  if ok =? 0 then lift (emit (TcpClose tc)) else client_start tc peer.

(** ** Media timers *)

(** [while (skip > 0) { n = audio_in_read(...); if (n == 0) break; skip -= n; }] *)
Fixpoint drain_loop (fuel : nat) (skip : Z) (d : audio_in) : audio_in :=
  match fuel with
  | O => d
  | S f =>
      if 0 <? skip then
        let '(l, d') := audio_in_read d (if Z.of_nat AUDIO_SAMPLES <? skip
                                         then Z.of_nat AUDIO_SAMPLES else skip) in
        match l with
        | [] => d'
        | _ => drain_loop f (skip - zlen l) d'
        end
      else d
  end.

(** Every round takes at least one sample, so [skip] rounds are enough. *)
Definition drain_excess (d : audio_in) : audio_in :=
  let avail := audio_in_available d in
  if Z.of_nat AUDIO_SAMPLES * 2 <? avail
  then drain_loop (Z.to_nat (avail - Z.of_nat AUDIO_SAMPLES)) (avail - Z.of_nat AUDIO_SAMPLES) d
  else d.

Definition audio_send_timer : M world unit :=
  on_rtsp (set_g_tmr_audio (Some AUDIO_PTIME)) ;;
  w ← get;
  if negb (has_playing_clients w) then mret tt
  else
    (if g_mic_opened (w_rtsp w) then on_ain (fun d => mret (tt, drain_excess d)) else mret tt) ;;
    pcmu ← read_audio_frame;
    w ← get;
    forM (map c_tc (g_clients (w_rtsp w))) (fun id =>
      c ← client_get id;
      if negb (playing c) || negb (t_setup (c_audio c)) then mret tt else send_audio id pcmu).

Definition video_send_timer : M world unit :=
  on_rtsp (set_g_tmr_video (Some VIDEO_PTIME)) ;;
  w ← get;
  if negb (has_playing_clients w) then mret tt
  else
    let n := g_frame_count (w_rtsp w) in
    (if (0 <? n) && (n mod (VIDEO_FPS * 2) =? 0) then on_cam camera_request_keyframe else mret tt) ;;
    '(err, frame) ← on_cam camera_get_frame;
    if negb (err =? 0) then mret tt
    else
      w ← get;
      forM (map c_tc (g_clients (w_rtsp w))) (fun id =>
        c ← client_get id;
        if negb (playing c) || negb (t_setup (c_video c)) then mret tt
        else send_nalus id (fr_nalus frame) ;; advance_video id) ;;
      on_rtsp (fun g => set_g_frame_count (u32 (g_frame_count g + 1)) g).

(** ** Public functions *)

(** [def] is what [net_default_source_addr_get] found. *)
Definition rtsp_server_init (def : option sa) : M world Z :=
  on_rtsp (fun _ => rtsp_zero) ;;
  err ← lift (ask QListen);
  if negb (err =? 0) then mret err
  else
    port ← lift (ask QPort);
    on_rtsp (fun g => set_g_local_ip
      (match def with
       | Some a => snprintf_str 64 "%j" [ASa a]
       | None => str_ncpy (cstr "0.0.0.0") 64
       end) (set_g_port (u16 port) (set_g_listening true g))) ;;
    mret 0.

Definition rtsp_server_close : M world unit :=
  on_rtsp (fun g => set_g_tmr_video None (set_g_tmr_audio None g)) ;;
  w ← get;
  forM (map c_tc (g_clients (w_rtsp w))) client_destructor ;;
  on_rtsp (set_g_listening false) ;;
  w ← get;
  (if g_camera_opened (w_rtsp w)
   then on_cam camera_close ;; on_rtsp (set_g_camera_opened false) else mret tt) ;;
  (if g_mic_opened (w_rtsp w)
   then on_ain (fun d => d' ← audio_in_close d; mret (tt, d')) ;; on_rtsp (set_g_mic_opened false)
   else mret tt).
End Server.
