(* ===== verification/RtspReply.v ===== *)
(** * Replies and packets of the RTSP server

    What [rtsp_reply], [tcp_interleaved_send] and the session description put
    on the wire. *)
From S2P Require Import Prelude Sys Fmt Mbuf Rtp H264 G711 AudioIn AudioOut Base64 Camera.
From S2P Require Import RtspAuth RtspParse RtspState RtspServer.

(** ** Specification *)

(** Decimal text of a number, as [%d] prints it. *)
Definition dec (z : Z) : bytes := (if z <? 0 then [45] else []) ++ local_itoa (Z.abs z) 10 false.

Definition session_header (c : client) (code : Z) : bytes :=
  match c_session_id c with
  | _ :: _ =>
      if (200 <=? code) && (code <? 300)
      then cstr "Session: " ++ c_session_id c ++ cstr ";timeout=60\r\n" else []
  | [] => []
  end.

Definition body_part (body : option bytes) : bytes :=
  match body with
  | Some (b :: bs) => cstr "Content-Length: " ++ dec (zlen (b :: bs)) ++ CRLF ++ CRLF ++ b :: bs
  | _ => CRLF
  end.

(** The text of a reply. *)
Definition reply_text (c : client) (cseq code : Z) (reason : bytes) (extra body : option bytes) : bytes :=
  cstr "RTSP/1.0 " ++ dec code ++ [32] ++ reason ++ CRLF
  ++ cstr "CSeq: " ++ dec cseq ++ CRLF
  ++ session_header c code ++ default [] extra ++ body_part body.

(** The bytes of an interleaved frame. *)
Definition interleaved_bytes (channel : Z) (rtp : bytes) : bytes :=
  [36; u8 channel; u8 (Z.shiftr (zlen rtp) 8); u8 (Z.land (zlen rtp) 0xFF)] ++ rtp.

(** ** Lemmas: formats *)
Lemma concat_dec z :
  concat (write_padded (local_itoa (Z.abs z) 10 false) 0 32 false
            (if z <? 0 then Some [45] else None)) = dec z.
Proof.
  unfold dec, write_padded. set (d := local_itoa _ _ _).
  destruct (z <? 0); destruct d as [|x d]; cbn; by rewrite ?app_nil_r.
Qed.

Lemma dec_nonneg z : 0 <= z -> dec z = local_itoa z 10 false.
Proof. intros Hz. unfold dec. destruct (z <? 0) eqn:E; bool_hyps; [lia|]. by rewrite Z.abs_eq. Qed.

(** The pieces of a string and of a number. *)
Abbreviation str_pieces v := (write_padded v 0 32 false None).
Abbreviation num_pieces z := (write_padded (local_itoa (Z.abs z) 10 false) 0 32 false
                                (if z <? 0 then Some [45] else None)).
Abbreviation size_pieces z := (write_padded (local_itoa z 10 false) 0 32 false None).

(** Evaluate the pieces of a format with symbolic arguments. *)
Ltac eval_pieces := lazy -[local_itoa write_padded Z.ltb Z.abs Z.of_nat length]; reflexivity.
Ltac concat_pieces :=
  repeat first [ progress cbn [concat] | rewrite concat_app | rewrite concat_dec
               | rewrite concat_write_padded | rewrite app_nil_r ].

Section reply.
Context `{V : Env}.

(** The output of a format. *)
Definition prints (fmt : string) (args : list farg) (text : bytes) : Prop :=
  exists ps, pieces fmt args = (ps, true) /\ concat ps = text.

Lemma prints_status code reason :
  prints "RTSP/1.0 %d %s\r\n" [ANum code; AStr reason]
    (cstr "RTSP/1.0 " ++ dec code ++ [32] ++ reason ++ CRLF).
Proof.
  exists ([cstr "RTSP/1.0 "] ++ num_pieces code ++ [[32]] ++ str_pieces reason ++ [CRLF]).
  split; [eval_pieces|by concat_pieces].
Qed.
Lemma prints_cseq cseq :
  prints "CSeq: %d\r\n" [ANum cseq] (cstr "CSeq: " ++ dec cseq ++ CRLF).
Proof.
  exists ([cstr "CSeq: "] ++ num_pieces cseq ++ [CRLF]). split; [eval_pieces|by concat_pieces].
Qed.
Lemma prints_session sid :
  prints "Session: %s;timeout=60\r\n" [AStr sid] (cstr "Session: " ++ sid ++ cstr ";timeout=60\r\n").
Proof.
  exists ([cstr "Session: "] ++ str_pieces sid ++ [cstr ";timeout=60\r\n"]).
  split; [eval_pieces|by concat_pieces].
Qed.
Lemma prints_str h : prints "%s" [AStr h] h.
Proof. exists (str_pieces h ++ []). split; [eval_pieces|by concat_pieces]. Qed.
Lemma prints_crlf : prints "\r\n" [] CRLF.
Proof. by exists [CRLF]. Qed.
Lemma prints_length n : 0 <= n ->
  prints "Content-Length: %zu\r\n" [ANum n] (cstr "Content-Length: " ++ dec n ++ CRLF).
Proof.
  intros Hn. exists ([cstr "Content-Length: "] ++ size_pieces n ++ [CRLF]).
  split; [eval_pieces|]. rewrite dec_nonneg by done. by concat_pieces.
Qed.

(** A buffer that holds [text] unless an allocation failed. *)
Definition builds (text : bytes) (r : Z * mbuf) : Prop :=
  (r.1 = 0 /\ mbuf_holds r.2 text) \/ (r.1 = ENOMEM /\ (exists c, mbuf_holds r.2 c) /\ ~ AllocOk V).

Lemma mbuf_printf_builds mb c fmt args t s :
  mbuf_holds mb c -> prints fmt args t ->
  iwp (mbuf_printf mb fmt args) (fun r s' => out s' = out s /\ builds (c ++ t) r) s.
Proof.
  intros Hh (ps & Hp & <-). unfold mbuf_printf. rewrite Hp. apply iwp_bind.
  eapply iwp_mono; [by apply mbuf_write_pieces_spec|].
  intros [err mb'] s' (Ho & Hc). apply iwp_ret. split; [done|]. rewrite andb_false_r. exact Hc.
Qed.

Lemma or_printf_builds err mb c fmt args t s :
  builds c (err, mb) -> prints fmt args t ->
  iwp (or_printf err mb fmt args) (fun r s' => out s' = out s /\ builds (c ++ t) r) s.
Proof.
  intros Hb Hp. unfold or_printf. apply iwp_bind.
  destruct Hb as [[E Hh]|(E & [c' Hh] & Ha)]; cbn in E, Hh; subst err;
    (eapply iwp_mono; [by eapply mbuf_printf_builds|]); intros [e mb'] s' [Ho Hb].
  - by apply iwp_ret.
  - apply iwp_ret. split; [done|]. right. cbn.
    destruct Hb as [[E Hm]|(E & Hm & _)]; cbn in E, Hm; subst e; split; eauto.
Qed.

Lemma or_write_builds err mb c d s :
  builds c (err, mb) ->
  iwp ('(e, mb) ← mbuf_write_mem mb d; mret (Z.lor err e, mb))
    (fun r s' => out s' = out s /\ builds (c ++ d) r) s.
Proof.
  intros Hb. apply iwp_bind.
  destruct Hb as [[E Hh]|(E & [c' Hh] & Ha)]; cbn in E, Hh; subst err;
    (eapply iwp_mono; [by eapply mbuf_write_mem_spec|]);
    intros [e mb'] s' (Ho & [(-> & Hm & _)|(-> & -> & Ha')]); apply iwp_ret; (split; [done|]).
  - by left.
  - right. split; [done|]. split; [by exists c|done].
  - right. split; [done|]. split; [by eexists|done].
  - right. split; [done|]. split; [by exists c'|done].
Qed.

Lemma builds_nop c r s : builds c r -> iwp (mret r) (fun r s' => out s' = out s /\ builds (c ++ []) r) s.
Proof. intros Hb. apply iwp_ret. by rewrite app_nil_r. Qed.

(** The body part of the reply. *)
Lemma reply_body_builds err mb c body s :
  builds c (err, mb) ->
  iwp (match body with
       | Some (b :: bs) =>
           '(err, mb) ← or_printf err mb "Content-Length: %zu\r\n" [ANum (zlen (default [] body))];
           '(err, mb) ← or_printf err mb "\r\n" [];
           '(e, mb) ← mbuf_write_mem mb (b :: bs);
           mret (Z.lor err e, mb)
       | _ => or_printf err mb "\r\n" []
       end) (fun r s' => out s' = out s /\ builds (c ++ body_part body) r) s.
Proof.
  intros B. destruct body as [[|b bs]|]; try by apply or_printf_builds, prints_crlf.
  apply iwp_bind. eapply iwp_mono; [apply or_printf_builds; [exact B|apply prints_length; lia]|].
  intros [e1 m1] s1 [O1 B1]. apply iwp_bind.
  eapply iwp_mono; [apply or_printf_builds; [exact B1|apply prints_crlf]|].
  intros [e2 m2] s2 [O2 B2]. eapply iwp_mono; [by apply or_write_builds|].
  intros [e3 m3] s3 [O3 B3]. split; [congruence|].
  unfold body_part. cbn [default] in B3. by repeat rewrite <- app_assoc in B3.
Qed.

(** A reply goes out whole in one send, or not at all. *)
Lemma rtsp_reply_spec cl cseq code reason extra body s :
  iwp (rtsp_reply cl cseq code reason extra body) (fun r s' =>
    (r = ENOMEM /\ out s' = out s /\ ~ AllocOk V)
    \/ out s' = out s ++ [TcpSend (c_tc cl) (reply_text cl cseq code reason extra body)]) s.
Proof.
  unfold rtsp_reply. apply iwp_bind. eapply iwp_mono; [apply mbuf_alloc_spec|].
  intros [mb|] s0 [Ho0 Hmb]; [|apply iwp_ret; by left].
  destruct Hmb as [Hmb _]. cbn beta iota zeta.
  apply iwp_bind. eapply iwp_mono; [apply mbuf_printf_builds; [exact Hmb|apply prints_status]|].
  intros [e1 m1] s1 [Ho1 B1].
  apply iwp_bind. eapply iwp_mono; [apply or_printf_builds; [exact B1|apply prints_cseq]|].
  intros [e2 m2] s2 [Ho2 B2]. set (t2 := _ ++ (cstr "CSeq: " ++ _)) in B2.
  apply iwp_bind.
  eapply (iwp_mono _ (fun r s' => out s' = out s2 /\ builds (t2 ++ session_header cl code) r)).
  { unfold session_header. destruct (c_session_id cl) as [|x sid]; [by apply builds_nop|].
    destruct (_ && _); [|by apply builds_nop].
    apply or_printf_builds; [exact B2|apply prints_session]. }
  intros [e3 m3] s3 [Ho3 B3]. apply iwp_bind.
  eapply (iwp_mono _ (fun r s' => out s' = out s3
    /\ builds ((t2 ++ session_header cl code) ++ default [] extra) r)).
  { destruct extra as [h|]; [|by apply builds_nop].
    apply or_printf_builds; [exact B3|apply prints_str]. }
  intros [e4 m4] s4 [Ho4 B4]. apply iwp_bind.
  eapply iwp_mono; [by apply reply_body_builds|].
  intros [e5 m5] s5 [Ho5 B5]. cbn beta iota.
  destruct B5 as [[E5 Hm]|(E5 & _ & Ha)]; cbn in E5; subst e5; cbn [Z.eqb negb ENOMEM snd] in *.
  - unfold tcp_send. apply iwp_bind, iwp_emit, iwp_ask. right. cbn [out].
    rewrite (mbuf_buf_holds _ _ Hm). replace (out s5) with (out s) by congruence.
    do 3 f_equal. unfold t2, reply_text. cbn [app].
    by repeat (rewrite <- ?app_assoc; cbn [app]).
  - apply iwp_ret. left. split; [done|]. split; [congruence|done].
Qed.

(** An interleaved frame goes out whole, or not at all. *)
Lemma tcp_interleaved_send_spec cl ch rtp s :
  iwp (tcp_interleaved_send cl ch rtp) (fun r s' =>
    (r = ENOMEM /\ out s' = out s /\ ~ AllocOk V)
    \/ out s' = out s ++ [TcpSend (c_tc cl) (interleaved_bytes ch rtp)]) s.
Proof.
  unfold tcp_interleaved_send. apply iwp_bind. eapply iwp_mono; [apply mbuf_alloc_spec|].
  intros [m0|] s0 [Ho Hm]; [|apply iwp_ret; by left].
  destruct Hm as [Hm Hsz]. cbn [Nat.eqb Nat.add] in Hsz. unfold mbuf_write_u8.
  destruct (mbuf_write_room m0 [] [u8 (chr "$")] s0 Hm) as (m1 & W1 & H1 & S1); [cbn; lia|].
  destruct (mbuf_write_room m1 _ [u8 ch] s0 H1) as (m2 & W2 & H2 & S2); [cbn; lia|].
  destruct (mbuf_write_room m2 _ [u8 (Z.shiftr (zlen rtp) 8)] s0 H2) as (m3 & W3 & H3 & S3); [cbn; lia|].
  destruct (mbuf_write_room m3 _ [u8 (Z.land (zlen rtp) 0xFF)] s0 H3) as (m4 & W4 & H4 & S4); [cbn; lia|].
  destruct (mbuf_write_room m4 _ rtp s0 H4) as (m5 & W5 & H5 & S5); [len_lia|].
  unfold iwp, mbind, IO_bind. rewrite W1, W2, W3, W4, W5, (mbuf_buf_holds _ _ H5).
  right. cbn [tcp_send emit ask mbind IO_bind out]. by rewrite Ho.
Qed.

(** What sending a packet on a track does to the trace. *)
Definition track_event (cl : client) (t : track) (d : bytes) : list event :=
  if c_interleaved cl then [TcpSend (c_tc cl) (interleaved_bytes (t_ch t) d)]
  else match t_sock t with Some u => [UdpSend u (t_dest t) d] | None => [] end.

Lemma track_send_spec cl t d s :
  AllocOk V -> out (snd (track_send cl t d s)) = out s ++ track_event cl t d.
Proof.
  intros Ha. unfold track_send, track_event. destruct (c_interleaved cl).
  - pose proof (tcp_interleaved_send_spec cl (t_ch t) d s) as Hs. unfold iwp in Hs.
    destruct (tcp_interleaved_send _ _ _ _) as [r s']. destruct Hs as [(_ & _ & Hn)|Hs]; [by destruct Hn|done].
  - unfold udp_send. destruct (t_sock t); cbn; by rewrite ?app_nil_r.
Qed.

(** The session description always fits its array. *)
Lemma describe_sdp_fits ip sprop :
  (length ip <= 63)%nat -> (length sprop <= 255)%nat ->
  exists text, describe_sdp ip sprop = (text, zlen text) /\ (length text <= 2047)%nat.
Proof.
  intros Hi Hs. unfold describe_sdp.
  destruct ip as [|i ip], sprop as [|c sprop];
    (eexists; split;
     [apply re_snprintf_fits; [vm_compute; reflexivity|]|];
     cbn [concat]; rewrite ?length_app; cbn [length app] in *; rewrite ?length_app; cbn [length];
     change (2048 - 1)%nat with 2047%nat; lia).
Qed.
End reply.

(** ** Lemmas: frames *)
Lemma interleaved_next_unit ch rtp tail :
  is_byte ch -> zlen rtp < 65536 ->
  next_unit (interleaved_bytes ch rtp ++ tail) = UFrame ch rtp (4 + length rtp).
Proof.
  intros Hc Hl.
  assert (frame_length (interleaved_bytes ch rtp ++ tail) = length rtp) as Hfl.
  { unfold frame_length, interleaved_bytes. cbn [app nth].
    rewrite land_ff, Z.shiftr_div_pow2 by lia. change (2 ^ 8) with 256.
    rewrite !(u8_small) by mod_lia. rewrite lor_shiftl_add by mod_lia.
    change (2 ^ 8) with 256. rewrite u16_small by mod_lia. mod_lia. }
  unfold next_unit. set (data := interleaved_bytes ch rtp ++ tail) in *.
  assert (data = 36 :: drop 1 data) as Hd by done. rewrite Hd. cbn [Z.eqb].
  rewrite <- Hd. change (36 =? chr "$") with true. cbn iota.
  assert (length data = 4 + length rtp + length tail)%nat as Hlen.
  { unfold data, interleaved_bytes. len_lia. }
  destruct (length data <? 4)%nat eqn:E1; bool_hyps; [lia|]. rewrite Hfl.
  destruct (length data <? 4 + length rtp)%nat eqn:E2; bool_hyps; [lia|].
  unfold data, interleaved_bytes. cbn [app nth]. rewrite u8_small by done.
  f_equal. change (drop 4 (?a :: ?b :: ?c :: ?d :: ?l)) with l. apply take_app_length.
Qed.

(** ** Lemmas: the backchannel packet *)
Lemma mbuf_read_be_advance mb n :
  (n <= mbuf_get_left mb)%nat ->
  mbuf_read_be mb n = (from_be (take n (drop (mb_pos mb) (mb_buf mb))), mbuf_advance mb n).
Proof.
  intros Hn. unfold mbuf_read_be, mbuf_read_mem.
  destruct (mbuf_get_left mb <? n)%nat eqn:E; bool_hyps; [lia|done].
Qed.

Lemma mbuf_left_advance mb n : mbuf_get_left (mbuf_advance mb n) = (mbuf_get_left mb - n)%nat.
Proof. unfold mbuf_get_left, mbuf_advance. cbn. lia. Qed.

Lemma mbuf_advance_advance mb n k : mbuf_advance (mbuf_advance mb n) k = mbuf_advance mb (n + k).
Proof. unfold mbuf_advance. cbn. f_equal. lia. Qed.

Lemma decode_csrc_advance n mb :
  (4 * n <= mbuf_get_left mb)%nat -> snd (decode_csrc n mb) = mbuf_advance mb (4 * n).
Proof.
  revert mb. induction n as [|n IH]; intros mb Hn; cbn [decode_csrc].
  - destruct mb. unfold mbuf_advance. cbn. f_equal. lia.
  - unfold mbuf_read_u32. rewrite mbuf_read_be_advance by lia.
    pose proof (IH (mbuf_advance mb 4)) as IH'. rewrite mbuf_left_advance in IH'.
    destruct (decode_csrc n (mbuf_advance mb 4)) as [l m]. cbn [snd] in *.
    rewrite IH' by lia. rewrite mbuf_advance_advance. f_equal. lia.
Qed.

Lemma from_be_2 l i a b :
  l !! i = Some a -> l !! (i + 1)%nat = Some b -> is_byte a -> is_byte b ->
  from_be (take 2 (drop i l)) = u16 (Z.lor (Z.shiftl (nth i l 0) 8) (nth (i + 1) l 0)).
Proof.
  intros Ha Hb Ba Bb. unfold is_byte in *.
  rewrite (nth_lookup_Some _ _ _ _ Ha), (nth_lookup_Some _ _ _ _ Hb).
  assert (take 2 (drop i l) = [a; b]) as ->.
  { rewrite (drop_S _ _ _ Ha). rewrite (drop_S l b (S i)) by (by rewrite <- Nat.add_1_r).
    done. }
  unfold from_be. cbn [fold_left]. rewrite lor_shiftl_add by (cbn; lia).
  change (2 ^ 8) with 256. rewrite u16_small by lia. lia.
Qed.

(** ** Theorems *)

(** C10. A reply is all or nothing: the client's connection receives exactly one
    send with the complete reply (status line, sequence number, the session
    header only on success and once a session exists, the extra headers, and
    a body announced with its exact length), or nothing at all and the caller
    gets [ENOMEM], which does not happen while memory can be allocated. *)
Theorem rtsp_reply_whole `{V : Env} (cl : client) (cseq code : Z) (reason : bytes)
    (extra body : option bytes) (s : sys) :
  let '(r, s') := rtsp_reply cl cseq code reason extra body s in
  (r = ENOMEM /\ out s' = out s /\ ~ AllocOk V)
  \/ out s' = out s ++ [TcpSend (c_tc cl) (reply_text cl cseq code reason extra body)].
Proof. apply (rtsp_reply_spec cl cseq code reason extra body s). Qed.

(** Interleaved frames: what [tcp_interleaved_send] writes for a packet is
    read back by the receive loop's framing as that channel and packet, and
    whatever follows is left for the next round. *)
Theorem interleaved_roundtrip `{V : Env} (cl : client) (ch : Z) (rtp tail : bytes) (s : sys) :
  is_byte ch -> zlen rtp < 65536 -> AllocOk V ->
  exists wire, out (snd (tcp_interleaved_send cl ch rtp s)) = out s ++ [TcpSend (c_tc cl) wire]
    /\ next_unit (wire ++ tail) = UFrame ch rtp (length wire)
    /\ drop (length wire) (wire ++ tail) = tail.
Proof.
  intros Hc Hl Ha. exists (interleaved_bytes ch rtp).
  pose proof (tcp_interleaved_send_spec cl ch rtp s) as Hs. unfold iwp in Hs.
  destruct (tcp_interleaved_send _ _ _ _) as [r s']. split; [|split].
  - destruct Hs as [(_ & _ & Hn)|Hs]; [by destruct Hn|done].
  - rewrite interleaved_next_unit by done. done.
  - apply drop_app_length.
Qed.

Lemma interleaved_roundtrip_witness :
  exists wire, out (snd (@tcp_interleaved_send good_env (client_new 5 sa_zero) 2 [128; 0; 7] (Sys 0 [])))
    = [TcpSend 5 wire] /\ next_unit (wire ++ [36]) = UFrame 2 [128; 0; 7] 7.
Proof.
  destruct (@interleaved_roundtrip good_env (client_new 5 sa_zero) 2 [128; 0; 7] [36] (Sys 0 []))
    as (wire & H1 & H2 & _).
  - unfold is_byte. lia.
  - cbn. lia.
  - exact good_env_alloc.
  - exists wire. split; [exact H1|]. vm_compute in H1. injection H1 as <-. exact H2.
Defined.

(** The backchannel's hand-written RTP header parser agrees with libre's:
    on every packet that [rtp_hdr_decode] accepts, the audio handed to the
    speaker is exactly the payload behind the decoded header, CSRC list and
    header extension included. *)
Theorem backchannel_payload_libre (rtp : bytes) (h : rtp_header) (mb : mbuf) :
  Forall is_byte rtp -> rtp_hdr_decode (Mbuf rtp 0 (length rtp)) = (0, h, mb) ->
  backchannel_payload rtp = mbuf_buf mb.
Proof.
  intros Hb. unfold rtp_hdr_decode. set (m0 := Mbuf rtp 0 (length rtp)).
  assert (mbuf_get_left m0 = length rtp) as L0 by (unfold mbuf_get_left; cbn; lia).
  destruct (mbuf_get_left m0 <? RTP_HEADER_SIZE)%nat eqn:E1; [done|]. bool_hyps.
  unfold RTP_HEADER_SIZE in E1.
  unfold mbuf_read_mem. destruct (mbuf_get_left m0 <? 2)%nat eqn:E2; bool_hyps; [lia|].
  unfold mbuf_read_u16, mbuf_read_u32.
  rewrite !mbuf_read_be_advance by (rewrite ?mbuf_left_advance; lia).
  rewrite !mbuf_advance_advance. change (2 + (2 + (4 + 4)))%nat with 12%nat.
  assert (nth 0 (take 2 (drop (mb_pos m0) (mb_buf m0))) 0 = nth 0 rtp 0) as ->
    by (destruct rtp as [|? [|]]; cbn in *; lia || done).
  set (cc := Z.to_nat (Z.land (nth 0 rtp 0) 0x0F)). rewrite mbuf_left_advance, L0.
  destruct (length rtp - 12 <? cc * 4)%nat eqn:E3; [done|]. bool_hyps.
  pose proof (decode_csrc_advance cc (mbuf_advance m0 12)) as Hcs.
  rewrite mbuf_left_advance, L0 in Hcs. specialize (Hcs ltac:(lia)).
  destruct (decode_csrc cc (mbuf_advance m0 12)) as [csrc m1]. cbn [snd] in Hcs. subst m1.
  rewrite mbuf_advance_advance. unfold backchannel_payload. fold cc.
  assert (forall n, mbuf_buf (mbuf_advance m0 n) = drop n rtp) as Hbuf.
  { intros n. unfold mbuf_buf, mbuf_advance, mbuf_get_left. cbn. apply take_ge. len_lia. }
  destruct (Z.testbit (nth 0 rtp 0) 4) eqn:Ex; cbn [andb].
  2: { intros [= _ <-]. rewrite Hbuf. f_equal. lia. }
  rewrite mbuf_left_advance, L0.
  destruct (length rtp - (12 + 4 * cc) <? 4)%nat eqn:E4; [done|]. bool_hyps.
  destruct (12 + cc * 4 + 4 <=? length rtp)%nat eqn:E5; bool_hyps; [|lia].
  rewrite (mbuf_read_be_advance (mbuf_advance m0 (12 + 4 * cc))) by (rewrite mbuf_left_advance; lia).
  rewrite mbuf_advance_advance.
  rewrite mbuf_read_be_advance by (rewrite mbuf_left_advance; lia).
  rewrite mbuf_advance_advance. cbn [mb_pos mb_buf mbuf_advance m0].
  set (i := (12 + cc * 4 + 2)%nat).
  replace (0 + (12 + 4 * cc + 2))%nat with i by lia.
  destruct (lookup_lt_is_Some_2 rtp i ltac:(lia)) as [a Ha].
  destruct (lookup_lt_is_Some_2 rtp (i + 1) ltac:(lia)) as [b Hb'].
  rewrite (from_be_2 rtp i a b) by (done || by eapply (Forall_lookup_1 _ _ _ _ Hb)).
  replace (12 + cc * 4 + 3)%nat with (i + 1)%nat by lia.
  set (xl := Z.to_nat (u16 _)). destruct (_ <? xl * 4)%nat eqn:E6; [done|]. intros [= _ <-].
  change (Mbuf rtp (12 + 4 * cc + 2 + 2) (length rtp)) with (mbuf_advance m0 (12 + 4 * cc + 2 + 2)).
  rewrite mbuf_advance_advance, Hbuf. f_equal. lia.
Qed.

Lemma backchannel_payload_libre_witness :
  backchannel_payload ([0x81; 0] ++ replicate 10 0 ++ [9; 9; 9; 9] ++ [255; 127]) = [255; 127].
Proof.
  pose (m := Mbuf ([0x81; 0] ++ replicate 10 0 ++ [9; 9; 9; 9] ++ [255; 127]) 0 18).
  apply (backchannel_payload_libre _ (snd (fst (rtp_hdr_decode m))) (snd (rtp_hdr_decode m))).
  - repeat (apply Forall_cons_2; [unfold is_byte; lia|]); constructor.
  - vm_compute. reflexivity.
Defined.
