(* ===== verification/RtspAccess.v ===== *)
(** * Access control and request framing of the RTSP server

    What an unauthenticated or untimely request can do, which transports are
    refused, and that the framing of the received bytes does not depend on how
    TCP cuts them. *)
From S2P Require Import Prelude Sys Fmt Mbuf Rtp H264 G711 AudioIn AudioOut Base64 Camera.
From S2P Require Import RtspAuth RtspParse RtspState RtspServer RtspReply.

(** ** Lemmas *)
Lemma set_w_auth_id w : set_w_auth (w_auth w) w = w.
Proof. by destruct w. Qed.

(** At most one reply with the given text to a client. *)
Definition replied `{V : Env} (c : client) (text : bytes) (s s' : sys) : Prop :=
  (out s' = out s /\ ~ AllocOk V) \/ out s' = out s ++ [TcpSend (c_tc c) text].

Section access.
Context `{V : Env}.

Lemma reply_spec id cseq code reason extra body (w : world) s :
  wp (reply id cseq code reason extra body) (fun _ w' s' => w' = w
    /\ replied (client_of id w)
         (reply_text (client_of id w) cseq code (cstr reason) extra body) s s') w s.
Proof.
  unfold reply. apply wp_bind. change (wp (client_get id) ?Q w s) with (Q (client_of id w) w s).
  cbn beta. apply wp_lift. eapply iwp_mono; [apply rtsp_reply_spec|].
  intros r s' [(_ & Ho & Ha)|Ho]; (split; [done|]); [by left|by right].
Qed.

(** The header an authorization check sees. *)
Definition auth_header (req : rtsp_req) : option bytes :=
  match rq_authorization req with [] => None | a => Some a end.

Lemma auth_refused_spec `{!Md5Spec V} req (w : world) s :
  auth_wf (w_auth w) -> au_enabled (w_auth w) = true -> auth_exempt req = false ->
  ~ auth_accepts (w_auth w) (rq_method req) (auth_header req) ->
  auth_refused req w s = (true, w, s).
Proof.
  intros Hwf Hen Hex Hno. unfold auth_refused, on_auth, rtsp_auth_enabled, mbind, M_bind, zoom, get.
  cbn [mret M_ret]. rewrite Hen, Hex. cbn [negb andb]. rewrite set_w_auth_id.
  pose proof (auth_check_outcome (w_auth w) (rq_method req) (rq_uri req) (auth_header req) s Hwf Hen) as Ho.
  unfold wp in Ho. fold (auth_header req).
  destruct (rtsp_auth_check _ _ _ _ _) as [[r a'] s'].
  destruct Ho as [(_ & Hacc & _)|(-> & _ & -> & ->)]; [by destruct Hno|].
  by rewrite set_w_auth_id.
Qed.
End access.

(** The challenge a refused client gets. *)
Definition challenge_text (a : auth) : bytes :=
  cstr "WWW-Authenticate: Digest realm=\qSmartLockIntercom\q, nonce=\q" ++ au_nonce a ++ cstr "\q\r\n".

Lemma challenge_fits `{Env} a :
  auth_wf a -> au_enabled a = true ->
  fst (re_snprintf 256 "WWW-Authenticate: Digest realm=\q%s\q, nonce=\q%s\q\r\n"
         [AStr REALM; AStr (au_nonce a)]) = challenge_text a.
Proof.
  intros Hwf Hen. destruct (Hwf Hen) as (Hl & _). unfold NONCE_LEN in Hl.
  erewrite re_snprintf_fits with
    (ps := [cstr "WWW-Authenticate: Digest realm=\q"; REALM; cstr "\q, nonce=\q"]
           ++ str_pieces (au_nonce a) ++ [cstr "\q\r\n"]).
  - cbn [fst]. rewrite !concat_app, concat_write_padded. cbn [concat]. by rewrite ?app_nil_r.
  - eval_pieces.
  - rewrite !concat_app, concat_write_padded, !length_app. rewrite Hl. vm_compute. lia.
Qed.

(** ** Theorems *)

(** C2. Unauthenticated requests are powerless: with authentication enabled, a
    request for any method but OPTIONS and GET_PARAMETER whose Authorization
    header does not carry a valid response leaves the whole state as it was
    (no media, no session, no timer changes) and makes the server send at most
    one message, the 401 reply with the challenge for the current nonce. *)
Theorem unauthenticated_powerless `{V : Env} `{!Md5Spec V} (id : nat) (mem : bytes) (len : nat)
    (w : world) (s : sys) :
  let req := parse_rtsp_request mem len in
  auth_wf (w_auth w) -> au_enabled (w_auth w) = true -> auth_exempt req = false ->
  ~ auth_accepts (w_auth w) (rq_method req) (auth_header req) ->
  let '(freed, w', s') := dispatch_rtsp id mem len w s in
  freed = false /\ w' = w
  /\ replied (client_of id w)
       (reply_text (client_of id w) (rq_cseq req) 401 (cstr "Unauthorized")
          (Some (challenge_text (w_auth w))) None) s s'.
Proof.
  intros req Hwf Hen Hex Hno.
  assert (wp (dispatch_rtsp id mem len) (fun freed w' s' => freed = false /\ w' = w
    /\ replied (client_of id w)
       (reply_text (client_of id w) (rq_cseq req) 401 (cstr "Unauthorized")
          (Some (challenge_text (w_auth w))) None) s s') w s) as Hwp;
    [|unfold wp in Hwp; by destruct (dispatch_rtsp _ _ _ _ _) as [[??]?]].
  unfold dispatch_rtsp. fold req. apply wp_bind. unfold wp at 1.
  rewrite auth_refused_spec by done. apply wp_bind, wp_zoom.
  unfold rtsp_auth_challenge. apply wp_bind, wp_get, wp_ret. rewrite set_w_auth_id.
  pose proof (challenge_fits (w_auth w) Hwf Hen) as Hc.
  destruct (re_snprintf _ _ _) as [ch n]. cbn [fst] in Hc. subst ch.
  apply wp_bind. eapply wp_mono; [apply reply_spec|]. intros r w' s' [-> Hr].
  by apply wp_ret.
Qed.

Definition demo_world (cs : list client) (a : auth) : world :=
  World (Rtsp true cs None None false 0 554 (cstr "192.168.1.5") false)
    camera_zero audio_in_zero audio_out_zero a.

Definition play_request : bytes := cstr "PLAY rtsp://lock/live RTSP/1.0\r\nCSeq: 4\r\n\r\n".

Lemma unauthenticated_powerless_witness :
  snd (fst (@dispatch_rtsp good_env 7 play_request (length play_request)
              (demo_world [client_new 7 sa_zero] demo_auth) (Sys 0 [])))
  = demo_world [client_new 7 sa_zero] demo_auth.
Proof.
  pose proof (@unauthenticated_powerless good_env good_env_md5 7 play_request (length play_request)
    (demo_world [client_new 7 sa_zero] demo_auth) (Sys 0 []) demo_auth_wf eq_refl eq_refl) as H.
  destruct (@dispatch_rtsp good_env 7 play_request _ _ _) as [[f w'] s'].
  apply H. intros (h & ? & ? & ? & Hh & _). vm_compute in Hh. discriminate.
Defined.

(** PLAY is refused outside a session: for a client in the idle state it
    changes nothing and answers 455. *)
Theorem play_requires_setup `{V : Env} (id : nat) (req : rtsp_req) (w : world) (s : sys) :
  c_state (client_of id w) = RTSP_IDLE ->
  let '(_, w', s') := handle_play id req w s in
  w' = w
  /\ replied (client_of id w)
       (reply_text (client_of id w) (rq_cseq req) 455 (cstr "Method Not Valid in This State")
          None None) s s'.
Proof.
  intros Hst.
  assert (wp (handle_play id req) (fun _ w' s' => w' = w /\ replied (client_of id w)
    (reply_text (client_of id w) (rq_cseq req) 455 (cstr "Method Not Valid in This State")
       None None) s s') w s) as Hwp;
    [|unfold wp in Hwp; by destruct (handle_play _ _ _ _) as [[??]?]].
  unfold handle_play. apply wp_bind. unfold wp at 1, client_get. rewrite Hst.
  apply wp_bind. eapply wp_mono; [apply reply_spec|]. intros r w' s' [-> Hr]. by apply wp_ret.
Qed.

Lemma play_requires_setup_witness :
  snd (fst (@handle_play good_env 7 (Req (cstr "PLAY") [] 4 [] [] [])
              (demo_world [client_new 7 sa_zero] auth_zero) (Sys 0 [])))
  = demo_world [client_new 7 sa_zero] auth_zero.
Proof.
  pose proof (@play_requires_setup good_env 7 (Req (cstr "PLAY") [] 4 [] [] [])
    (demo_world [client_new 7 sa_zero] auth_zero) (Sys 0 []) eq_refl) as H.
  destruct (@handle_play good_env 7 _ _ _) as [[f w'] s']. apply H.
Defined.

(** C39. UDP transport is refused for every client that is not on this machine,
    for the backchannel, and without client ports: the state stays as it was
    and the answer is 461. *)
Theorem udp_refused `{V : Env} (id : nat) (req : rtsp_req) (w : world) (s : sys) :
  is_tcp_transport (rq_transport req) = false ->
  sa_is_loopback (c_peer (client_of id w)) = false
  \/ snd (setup_flags (client_of id w) (rq_uri req)) = true
  \/ parse_client_port (rq_transport req) = None ->
  let '(_, w', s') := handle_setup id req w s in
  w' = w
  /\ replied (client_of id w)
       (reply_text (client_of id w) (rq_cseq req) 461 (cstr "Unsupported Transport") None None) s s'.
Proof.
  intros Htcp Hor. set (text := reply_text _ _ 461 _ _ _).
  assert (wp (handle_setup id req) (fun _ w' s' => w' = w /\ replied (client_of id w) text s s') w s)
    as Hwp; [|unfold wp in Hwp; by destruct (handle_setup _ _ _ _) as [[??]?]].
  unfold handle_setup. apply wp_bind. unfold wp at 1, client_get. rewrite Htcp.
  destruct (setup_flags (client_of id w) (rq_uri req)) as [is_video is_bc]. cbn [snd] in Hor.
  apply wp_bind. unfold setup_udp. apply wp_bind. unfold wp at 1, client_get.
  assert (wp (_ ← reply id (rq_cseq req) 461 "Unsupported Transport" None None; mret None)
    (fun a w' s' => wp (match a with None => mret tt | Some r => setup_finish id req r end)
       (fun _ w' s' => w' = w /\ replied (client_of id w) text s s') w' s') w s) as Href.
  { apply wp_bind. eapply wp_mono; [apply reply_spec|]. intros r w' s' [-> Hr]. by do 2 apply wp_ret. }
  destruct is_bc; [exact Href|].
  destruct (negb (sa_is_loopback _)) eqn:El; [exact Href|]. bool_hyps.
  destruct Hor as [Hl|[[=]|Hp]]; [congruence|]. rewrite Hp. exact Href.
Qed.

Lemma udp_refused_witness :
  snd (fst (@handle_setup good_env 7
    (Req (cstr "SETUP") (cstr "rtsp://lock/trackID=0") 2 (cstr "RTP/AVP;client_port=5000-5001") [] [])
    (demo_world [client_new 7 (SA (AF_INET 0xC0A80107) 4711)] auth_zero) (Sys 0 [])))
  = demo_world [client_new 7 (SA (AF_INET 0xC0A80107) 4711)] auth_zero.
Proof.
  pose proof (@udp_refused good_env 7
    (Req (cstr "SETUP") (cstr "rtsp://lock/trackID=0") 2 (cstr "RTP/AVP;client_port=5000-5001") [] [])
    (demo_world [client_new 7 (SA (AF_INET 0xC0A80107) 4711)] auth_zero) (Sys 0 [])
    eq_refl (or_introl eq_refl)) as H.
  destruct (@handle_setup good_env 7 _ _ _) as [[f w'] s']. apply H.
Defined.

(** ** Framing *)

(** The number of bytes a complete unit takes. *)
Definition unit_size (u : unit_) : nat :=
  match u with UFrame _ _ n => n | URequest n => n | UMore => 0 end.

(** The complete units at the front of the data, and what is left, as a reader
    at the other end of the connection takes them apart.  (A specification, for
    the viewer of [Viewer]; the server's own loop is [recv_loop].) *)
Fixpoint split_units (fuel : nat) (data : bytes) : list unit_ * bytes :=
  match fuel with
  | O => ([], data)
  | S f =>
      match next_unit data with
      | UMore => ([], data)
      | u => let '(us, r) := split_units f (drop (unit_size u) data) in (u :: us, r)
      end
  end.
Definition split_all (data : bytes) : list unit_ * bytes := split_units (length data) data.

(** A complete unit is at least four of the bytes received. *)
Lemma next_unit_size data :
  next_unit data = UMore \/ (4 <= unit_size (next_unit data) <= length data)%nat.
Proof.
  unfold next_unit. destruct data as [|d0 t]; [by left|]. set (data := d0 :: t).
  destruct (d0 =? chr "$").
  - destruct (length data <? 4)%nat eqn:E1; [by left|].
    destruct (length data <? 4 + frame_length data)%nat eqn:E2; [by left|]. bool_hyps.
    right. cbn [unit_size]. lia.
  - destruct (strstr data _) as [eor|] eqn:E; [|by left]. right. cbn [unit_size].
    unfold strstr in E. apply find_sub_Some in E as (k & _ & Hl & _).
    destruct (cstring_prefix data) as [z Hz]. apply (f_equal length) in Hz.
    rewrite length_app in Hz. change (length (cstr "\r\n\r\n")) with 4%nat in Hl. lia.
Qed.

(** A complete unit stays what it is when more data arrives. *)
Lemma next_unit_app a b : next_unit a <> UMore -> next_unit (a ++ b) = next_unit a.
Proof.
  unfold next_unit. destruct a as [|d0 t]; [done|]. rewrite <- app_comm_cons.
  change (d0 :: t ++ b) with ((d0 :: t) ++ b). set (a := d0 :: t).
  destruct (d0 =? chr "$").
  - destruct (length a <? 4)%nat eqn:E1; [done|]. bool_hyps.
    assert (frame_length (a ++ b) = frame_length a) as Hf.
    { unfold frame_length. by rewrite !app_nth1 by lia. }
    rewrite Hf. destruct (length a <? 4 + frame_length a)%nat eqn:E2; [done|]. bool_hyps.
    intros _. destruct (length (a ++ b) <? 4)%nat eqn:E3; bool_hyps; [len_lia|].
    destruct (length (a ++ b) <? 4 + frame_length a)%nat eqn:E4; bool_hyps; [len_lia|].
    rewrite app_nth1 by lia. rewrite drop_app_le by lia. rewrite take_app_le by len_lia. done.
  - unfold strstr. destruct (find_sub _ (cstring a)) as [i|] eqn:E; [|done]. intros _.
    assert (exists k, cstring (a ++ b) = cstring a ++ k) as [k ->].
    { clear. induction a as [|x a [k IH]]; cbn [app cstring]; [by eexists|].
      destruct (x =? 0); [by exists []|]. exists k. cbn. by rewrite IH. }
    by rewrite (find_sub_app _ _ k _ E).
Qed.

Lemma split_units_fuel f g data :
  (length data <= f)%nat -> (length data <= g)%nat -> split_units f data = split_units g data.
Proof.
  revert g data. induction f as [|f IH]; intros g data Hf Hg.
  - destruct data; [|cbn in Hf; lia]. by destruct g.
  - destruct g as [|g]; [destruct data; [done|cbn in Hg; lia]|]. cbn [split_units].
    pose proof (next_unit_size data) as Hs.
    destruct (next_unit data) as [c r n|n|]; cbn [unit_size] in *; [| |done];
      (destruct Hs as [[=]|Hs]; rewrite (IH g); [done|len_lia..]).
Qed.

Lemma split_all_step data :
  split_all data = match next_unit data with
                   | UMore => ([], data)
                   | u => let '(us, r) := split_all (drop (unit_size u) data) in (u :: us, r)
                   end.
Proof.
  unfold split_all. destruct data as [|x t]; [done|]. set (data := x :: t).
  change (length data) with (S (length t)) at 1. cbn [split_units].
  pose proof (next_unit_size data) as Hs.
  destruct (next_unit data) as [c r n|n|]; cbn [unit_size] in *; [| |done];
    (destruct Hs as [[=]|Hs];
     rewrite (split_units_fuel (length t) (length (drop n data))); [done| |done];
     unfold data in *; len_lia).
Qed.
