(* ===== verification/RtspInv.v ===== *)
(** * The invariant of the RTSP server

    A well-formedness invariant of the server's state, preserved by every
    handler, and the step relation of the event loop over which it is proved
    by rule induction. *)
From S2P Require Import Prelude Sys Fmt Mbuf Rtp H264 G711 AudioIn AudioOut Base64 Camera.
From S2P Require Import RtspAuth RtspParse RtspState RtspServer RtspReply RtspAccess.

Abbreviation clients w := (g_clients (w_rtsp w)).

(** ** Well-formed clients *)
Definition track_wf (t : track) : Prop :=
  0 <= t_ch t < 256 /\ 0 <= t_ch_rtcp t < 256 /\ 0 <= t_srv_port t < 65536
  /\ 0 <= t_ssrc t < 4294967296 /\ 0 <= t_ts t < 4294967296 /\ 0 <= t_seq t < 65536.

Definition session_id_ok (l : bytes) : Prop := l = [] \/ (length l = 8%nat /\ Forall is_hex l).

Definition some_setup (c : client) : Prop :=
  t_setup (c_video c) = true \/ t_setup (c_audio c) = true \/ c_bc_setup c = true.

(** A track that is set up has a way to send. *)
Definition track_reachable (c : client) (t : track) : Prop :=
  t_setup t = true -> c_interleaved c = true \/ t_sock t <> None.

Definition rbuf_ok (o : option mbuf) : Prop :=
  match o with Some mb => (mb_end mb <= mb_size mb)%nat | None => True end.

Record client_wf (c : client) : Prop := {
  cw_video : track_wf (c_video c);
  cw_audio : track_wf (c_audio c);
  cw_bc_ch : 0 <= c_bc_ch c < 256 /\ 0 <= c_bc_ch_rtcp c < 256;
  cw_session : session_id_ok (c_session_id c);
  (* a session that is ready or playing has an identifier and a track *)
  cw_state : c_state c <> RTSP_IDLE -> c_session_id c <> [] /\ some_setup c;
  cw_speaker : c_audio_out_opened c = true -> c_bc_setup c = true;
  cw_bc : c_bc_setup c = true -> c_interleaved c = true;
  cw_video_send : track_reachable c (c_video c);
  cw_audio_send : track_reachable c (c_audio c);
  (* the inactivity timeout is always running *)
  cw_timeout : c_timeout c = Some SESSION_TIMEOUT;
  cw_rbuf : rbuf_ok (c_rbuf c)
}.

(** ** The server invariant *)
Definition timers_ok (g : rtsp) : Prop :=
  (g_tmr_audio g = None /\ g_tmr_video g = None)
  \/ (g_tmr_audio g = Some AUDIO_PTIME /\ g_tmr_video g = Some VIDEO_PTIME
      /\ g_camera_opened g = true).

Record rtsp_wf (w : world) : Prop := {
  rw_nodup : NoDup (map c_tc (clients w));
  rw_clients : Forall client_wf (clients w);
  rw_timers : timers_ok (w_rtsp w);
  rw_count : 0 <= g_frame_count (w_rtsp w) < 4294967296;
  rw_ip : (length (g_local_ip (w_rtsp w)) <= 63)%nat;
  rw_cam : camera_wf (w_cam w);
  rw_cam_open : g_camera_opened (w_rtsp w) = true -> cam_opened (w_cam w) = true;
  rw_mic : g_mic_opened (w_rtsp w) = true -> ai_opened (w_ain w) = true;
  rw_auth : auth_wf (w_auth w)
}.

(** The receive buffers of the clients, which only the receive path touches. *)
Definition bufs (w : world) : list (nat * option mbuf) :=
  map (fun c => (c_tc c, c_rbuf c)) (clients w).

(** What every handler preserves. *)
Definition ok_step (w w' : world) : Prop :=
  rtsp_wf w' /\ bufs w' = bufs w
  /\ (cam_opened (w_cam w) = true -> cam_opened (w_cam w') = true).

(** ** Lemmas: clients in the list *)
Lemma find_client_In id l c : find_client id l = Some c -> In c l /\ c_tc c = id.
Proof. intros H. apply find_some in H as [Hi Ht]. cbn beta in Ht. split; [done|]. by apply Nat.eqb_eq. Qed.

Lemma find_client_unique id l c c' :
  NoDup (map c_tc l) -> find_client id l = Some c -> In c' l -> c_tc c' = id -> c' = c.
Proof.
  induction l as [|x l IH]; cbn [map find_client find]; intros Hn Hf Hi Ht; [done|].
  inversion Hn as [|? ? Hx Hn']; subst.
  destruct (c_tc x =? c_tc c')%nat eqn:E; bool_hyps.
  - injection Hf as <-. destruct Hi as [->|Hi]; [done|]. exfalso. apply Hx. rewrite E.
    apply list_elem_of_In, in_map_iff. by exists c'.
  - destruct Hi as [->|Hi]; [done|]. by apply IH.
Qed.

Lemma find_client_None id l c : find_client id l = None -> In c l -> c_tc c <> id.
Proof. unfold find_client. intros Hf Hi Ht. apply (find_none _ _ Hf) in Hi. cbn beta in Hi. by bool_hyps. Qed.

(** Every client with connection [id] is the one the handlers read. *)
Lemma client_of_unique id w c :
  rtsp_wf w -> In c (clients w) -> c_tc c = id -> client_of id w = c.
Proof.
  intros Hw Hi Ht. unfold client_of. destruct (find_client id (clients w)) as [x|] eqn:E.
  - cbn. symmetry. by apply (find_client_unique id (clients w)); [apply Hw|..].
  - by apply (find_client_None _ _ _ E) in Hi.
Qed.

Lemma client_wf_in w c : rtsp_wf w -> In c (clients w) -> client_wf c.
Proof. intros Hw Hi. pose proof (rw_clients w Hw) as Hf. rewrite List.Forall_forall in Hf. auto. Qed.

Lemma upd_clients_map {A} (g : client -> A) id f l :
  (forall c, In c l -> c_tc c = id -> g (f c) = g c) -> map g (upd_clients id f l) = map g l.
Proof.
  intros Hf. unfold upd_clients. rewrite map_map. apply map_ext_in. intros c Hi.
  destruct (c_tc c =? id)%nat eqn:E; bool_hyps; [by apply Hf|done].
Qed.

Lemma upd_clients_Forall (P : client -> Prop) id f l :
  Forall P l -> (forall c, In c l -> c_tc c = id -> P c -> P (f c)) -> Forall P (upd_clients id f l).
Proof.
  intros Hl Hf. unfold upd_clients. rewrite List.Forall_forall in *. intros x Hx.
  apply in_map_iff in Hx as (c & <- & Hi).
  destruct (c_tc c =? id)%nat eqn:E; bool_hyps; auto.
Qed.

Lemma In_upd_clients id f l c :
  In c (upd_clients id f l) ->
  exists c0, In c0 l /\ (c = c0 /\ c_tc c0 <> id \/ c = f c0 /\ c_tc c0 = id).
Proof.
  unfold upd_clients. rewrite in_map_iff. intros (c0 & <- & Hi). exists c0. split; [done|].
  destruct (c_tc c0 =? id)%nat eqn:E; bool_hyps; auto.
Qed.

(** ** Lemmas: parts of the state *)
Lemma ok_refl w : rtsp_wf w -> ok_step w w.
Proof. by split. Qed.
Lemma ok_trans w1 w2 w3 : ok_step w1 w2 -> ok_step w2 w3 -> ok_step w1 w3.
Proof. intros (_ & B1 & C1) (H2 & B2 & C2). split; [done|]. split; [congruence|auto]. Qed.

Lemma ok_upd w id f :
  rtsp_wf w ->
  (forall c, In c (clients w) -> c_tc c = id -> client_wf c ->
     c_tc (f c) = c_tc c /\ c_rbuf (f c) = c_rbuf c /\ client_wf (f c)) ->
  ok_step w (set_w_rtsp (set_g_clients (upd_clients id f (clients w)) (w_rtsp w)) w).
Proof.
  intros Hw Hf. assert (forall c, In c (clients w) -> client_wf c) as Hcw
    by (intros; by eapply client_wf_in).
  split; [|split; [|done]].
  - destruct Hw as [Hn Hc Ht Hk Hi Hm Ho Hmic Ha]. constructor; cbn; try done.
    + rewrite upd_clients_map; [done|]. intros c Hin E. by apply Hf; auto.
    + apply upd_clients_Forall; [done|]. intros c Hin E Hwf. by apply Hf.
  - unfold bufs. cbn. apply upd_clients_map. intros c Hin E.
    destruct (Hf c Hin E (Hcw c Hin)) as (-> & -> & _). done.
Qed.

Lemma ok_rtsp w g :
  rtsp_wf w -> g_clients g = clients w -> timers_ok g -> 0 <= g_frame_count g < 4294967296 ->
  (length (g_local_ip g) <= 63)%nat ->
  (g_camera_opened g = true -> cam_opened (w_cam w) = true) ->
  (g_mic_opened g = true -> ai_opened (w_ain w) = true) ->
  ok_step w (set_w_rtsp g w).
Proof.
  intros Hw Hc Ht Hk Hi Ho Hmic. destruct Hw. split; [constructor; cbn; rewrite ?Hc; done|].
  split; [|done]. unfold bufs. cbn. by rewrite Hc.
Qed.

Lemma ok_cam w c :
  rtsp_wf w -> camera_wf c -> (cam_opened (w_cam w) = true -> cam_opened c = true) ->
  ok_step w (set_w_cam c w).
Proof. intros Hw Hc Ho. destruct Hw. split; [constructor; cbn; auto|by split]. Qed.

Lemma ok_ain w d :
  rtsp_wf w -> (ai_opened (w_ain w) = true -> ai_opened d = true) -> ok_step w (set_w_ain d w).
Proof. intros Hw Ho. destruct Hw. split; [constructor; cbn; auto|by split]. Qed.

Lemma ok_aout w d : rtsp_wf w -> ok_step w (set_w_aout d w).
Proof. intros Hw. destruct Hw. split; [constructor; cbn; auto|by split]. Qed.

Lemma ok_auth w a : rtsp_wf w -> auth_wf a -> ok_step w (set_w_auth a w).
Proof. intros Hw Ha. destruct Hw. split; [constructor; cbn; auto|by split]. Qed.

(** ** Computations that preserve the invariant *)
Definition keeps {A} (m : M world A) : Prop :=
  forall w s, rtsp_wf w -> wp m (fun _ w' _ => ok_step w w') w s.

Lemma keeps_ret {A} (a : A) : keeps (mret a).
Proof. intros w s Hw. by apply wp_ret, ok_refl. Qed.
Lemma keeps_bind {A B} (m : M world A) (f : A -> M world B) :
  keeps m -> (forall a, keeps (f a)) -> keeps (m ≫= f).
Proof.
  intros Hm Hf w s Hw. apply wp_bind. eapply wp_mono; [by apply Hm|].
  intros a w' s' Hok. eapply wp_mono; [apply Hf, Hok|]. intros b w2 s2 Hok2.
  exact (ok_trans _ _ _ Hok Hok2).
Qed.
Lemma keeps_lift {A} (m : IO A) : keeps (lift m).
Proof.
  intros w s Hw. apply wp_lift. unfold iwp. destruct (m s). by apply ok_refl.
Qed.
Lemma keeps_get : keeps get.
Proof. intros w s Hw. by apply wp_get, ok_refl. Qed.
Lemma keeps_client_get id : keeps (client_get id).
Proof. intros w s Hw. by apply ok_refl. Qed.
Lemma keeps_upd id f :
  (forall c, client_wf c -> c_tc (f c) = c_tc c /\ c_rbuf (f c) = c_rbuf c /\ client_wf (f c)) ->
  keeps (upd id f).
Proof. intros Hf w s Hw. apply wp_modify, ok_upd; auto. Qed.
Lemma keeps_forM {A} (l : list A) (f : A -> M world unit) :
  (forall x, keeps (f x)) -> keeps (forM l f).
Proof. intros Hf. induction l; cbn [forM]; [apply keeps_ret|]. apply keeps_bind; auto. Qed.

Lemma keeps_on_cam {A} (m : M camera A) :
  (forall c s, camera_wf c -> wp m (fun _ c' _ => camera_wf c'
     /\ (cam_opened c = true -> cam_opened c' = true)) c s) -> keeps (on_cam m).
Proof.
  intros Hm w s Hw. apply wp_zoom. eapply wp_mono; [apply Hm, Hw|].
  intros a c' s' [Hc Ho]. by apply ok_cam.
Qed.
Lemma keeps_on_ain {A} (f : audio_in -> IO (A * audio_in)) :
  (forall d s, iwp (f d) (fun r _ => ai_opened d = true -> ai_opened r.2 = true) s) -> keeps (on_ain f).
Proof.
  intros Hf w s Hw. unfold wp, on_ain. specialize (Hf (w_ain w) s). unfold iwp in Hf.
  destruct (f (w_ain w) s) as [[a d] s']. by apply ok_ain.
Qed.
Lemma keeps_on_aout {A} (f : audio_out -> IO (A * audio_out)) : keeps (on_aout f).
Proof.
  intros w s Hw. unfold wp, on_aout. destruct (f (w_aout w) s) as [[a d] s']. by apply ok_aout.
Qed.

(** Split a program into its steps. *)
Ltac keeps_step :=
  lazymatch goal with
  | |- keeps (mret _) => apply keeps_ret
  | |- keeps (mbind _ _) => apply keeps_bind; [|intros ?]
  | |- keeps (lift _) => apply keeps_lift
  | |- keeps get => apply keeps_get
  | |- keeps (client_get _) => apply keeps_client_get
  | |- keeps (forM _ _) => apply keeps_forM; intros ?
  | |- keeps (on_aout _) => apply keeps_on_aout
  | |- keeps (if ?b then _ else _) => destruct b eqn:?
  | |- keeps (let '(_, _) := ?p in _) => destruct p
  | |- keeps (match ?x with _ => _ end) => destruct x
  end.
Ltac keeps_steps := repeat (keeps_step; cbn beta); try done.

(** ** Media control keeps the invariant *)
Section keeps.
Context `{V : Env}.

Lemma keeps_maybe_stop_media : keeps maybe_stop_media.
Proof.
  unfold maybe_stop_media. keeps_steps. intros w s Hw. apply wp_modify, ok_rtsp; cbn; try apply Hw;
    [done|by left|lia].
Qed.

Lemma audio_in_open_opened d sr ch spf s :
  iwp (audio_in_open d sr ch spf) (fun r _ =>
    (r.1 = 0 -> ai_opened r.2 = true) /\ (ai_opened d = true -> ai_opened r.2 = true)) s.
Proof.
  unfold audio_in_open, audio_in_close. destruct (ai_opened d) eqn:Ed; [by apply iwp_ret|].
  wp_steps; cbn; unfold ENODEV; split; lia || done.
Qed.

Lemma ring_read_opened d n : ai_opened (snd (ring_read d n)) = ai_opened d.
Proof.
  revert d. induction n as [|n IH]; intros d; cbn [ring_read]; [done|].
  destruct (_ =? _); [done|]. set (d' := AudioIn _ _ _ _ _ _ _). specialize (IH d').
  by destruct (ring_read d' n).
Qed.

Lemma drain_loop_opened f k d : ai_opened (drain_loop f k d) = ai_opened d.
Proof.
  revert k d. induction f as [|f IH]; intros k d; cbn [drain_loop]; [done|].
  destruct (0 <? k); [|done]. unfold audio_in_read.
  match goal with |- context [ring_read d ?n] => pose proof (ring_read_opened d n) as Hr;
    destruct (ring_read d n) as [l d'] end.
  cbn [snd] in Hr. destruct l; [done|]. by rewrite IH.
Qed.

Lemma ensure_camera_wp w s :
  rtsp_wf w ->
  wp (ensure_camera (g_camera_opened (w_rtsp w))) (fun ok w' _ => ok_step w w'
    /\ (ok = true -> g_camera_opened (w_rtsp w') = true)) w s.
Proof.
  intros Hw. unfold ensure_camera. destruct (g_camera_opened (w_rtsp w)) eqn:Eo.
  { apply wp_ret. by split; [apply ok_refl|]. }
  apply wp_bind, wp_zoom. eapply wp_mono;
    [apply camera_open_wp; [apply Hw|unfold VIDEO_WIDTH; lia|unfold VIDEO_HEIGHT; lia]|].
  intros err c' s' (Hc & Ho & Hkeep).
  pose proof (ok_cam w c' Hw Hc Hkeep) as Hok.
  destruct (negb (err =? 0) && negb (err =? EALREADY)) eqn:E; [by apply wp_ret|].
  assert (err = 0 \/ err = EALREADY) as Herr.
  { apply andb_false_iff in E as [E|E]; bool_hyps; auto. }
  apply wp_bind, wp_modify, wp_ret. split; [|done]. eapply ok_trans; [exact Hok|].
  destruct Hok as [Hw' _]. apply ok_rtsp; cbn; try apply Hw'; auto.
  destruct (rw_timers _ Hw') as [?|(?&?&?)]; [by left|right]. done.
Qed.

Lemma ensure_mic_wp w s :
  rtsp_wf w ->
  wp ensure_mic (fun _ w' _ => ok_step w w'
    /\ g_camera_opened (w_rtsp w') = g_camera_opened (w_rtsp w)) w s.
Proof.
  intros Hw. unfold ensure_mic. apply wp_bind, wp_get.
  destruct (g_mic_opened (w_rtsp w)) eqn:Em; [by apply wp_ret; split; [apply ok_refl|]|].
  apply wp_bind. unfold wp at 1, on_ain.
  pose proof (audio_in_open_opened (w_ain w) AUDIO_SRATE 1 (Z.of_nat AUDIO_SAMPLES) s) as Ho.
  unfold iwp in Ho. destruct (audio_in_open _ _ _ _ _) as [[err d] s'].
  cbn [fst snd] in Ho. destruct Ho as [Ho Hk].
  pose proof (ok_ain w d Hw Hk) as Hok.
  destruct (err =? 0) eqn:E; bool_hyps; [|by apply wp_ret].
  apply wp_modify. split; [|done]. eapply ok_trans; [exact Hok|].
  destruct Hok as [Hw' _]. apply ok_rtsp; cbn; try apply Hw'; auto.
Qed.

Lemma keeps_ensure_media : keeps ensure_media_started.
Proof.
  intros w s Hw. unfold ensure_media_started. apply wp_bind, wp_get, wp_bind.
  eapply wp_mono; [by apply ensure_camera_wp|]. intros ok w1 s1 [Hok1 Hcam].
  destruct ok; [|by apply wp_ret]. apply wp_bind.
  eapply wp_mono; [apply ensure_mic_wp, Hok1|]. intros _ w2 s2 [Hok2 Heq].
  apply wp_modify. eapply ok_trans; [exact Hok1|]. eapply ok_trans; [exact Hok2|].
  destruct Hok2 as [Hw2 _]. apply ok_rtsp; cbn; try apply Hw2; auto.
  right. split; [done|]. split; [done|]. cbn. rewrite Heq. auto.
Qed.

Lemma keeps_camera_open : keeps (on_cam (camera_open VIDEO_WIDTH VIDEO_HEIGHT VIDEO_FPS 300)).
Proof.
  apply keeps_on_cam. intros c s Hc. eapply wp_mono;
    [apply camera_open_wp; [done|unfold VIDEO_WIDTH; lia|unfold VIDEO_HEIGHT; lia]|].
  cbn. tauto.
Qed.
Lemma keeps_request_keyframe : keeps (on_cam camera_request_keyframe).
Proof. apply keeps_on_cam. intros c s Hc. by apply wp_modify. Qed.
Lemma keeps_get_frame : keeps (on_cam camera_get_frame).
Proof.
  apply keeps_on_cam. intros c s Hc. eapply wp_mono; [by apply camera_get_frame_wp|].
  intros [r f] c' s' (Hwf & Ho & _). split; [done|congruence].
Qed.
Lemma keeps_get_sps_pps : keeps (on_cam camera_get_sps_pps).
Proof. apply keeps_on_cam. intros c s Hc. by apply wp_bind, wp_get, wp_ret. Qed.

Lemma keeps_reply id cseq code reason extra body : keeps (reply id cseq code reason extra body).
Proof. unfold reply. keeps_steps. Qed.

Lemma keeps_count : keeps (on_rtsp (fun g => set_g_frame_count (u32 (g_frame_count g + 1)) g)).
Proof. intros w s Hw. apply wp_modify, ok_rtsp; cbn; try apply Hw; [done|apply u32_range]. Qed.
End keeps.
#[export] Hint Resolve keeps_maybe_stop_media keeps_ensure_media keeps_camera_open
  keeps_request_keyframe keeps_get_frame keeps_get_sps_pps keeps_reply keeps_count : intercom.

(** ** Lemmas: updates of a client *)
Lemma client_wf_set_video c t :
  client_wf c -> track_wf t -> (t_setup (c_video c) = true -> t_setup t = true) ->
  track_reachable c t -> client_wf (set_c_video t c).
Proof.
  intros Hc Ht Hs Hr. destruct Hc. constructor; cbn; try done.
  intros Hst. destruct (cw_state0 Hst) as [? Hss]. split; [done|].
  unfold some_setup in *. cbn. tauto.
Qed.
Lemma client_wf_set_audio c t :
  client_wf c -> track_wf t -> (t_setup (c_audio c) = true -> t_setup t = true) ->
  track_reachable c t -> client_wf (set_c_audio t c).
Proof.
  intros Hc Ht Hs Hr. destruct Hc. constructor; cbn; try done.
  intros Hst. destruct (cw_state0 Hst) as [? Hss]. split; [done|].
  unfold some_setup in *. cbn. tauto.
Qed.

Lemma track_wf_seq t n : track_wf t -> 0 <= n < 65536 -> track_wf (set_t_seq n t).
Proof. unfold track_wf. cbn. tauto. Qed.
Lemma track_wf_ts t n : track_wf t -> 0 <= n < 4294967296 -> track_wf (set_t_ts n t).
Proof. unfold track_wf. cbn. tauto. Qed.

Lemma keeps_upd_video_seq id n : 0 <= n < 65536 -> keeps (upd_video id (set_t_seq n)).
Proof.
  intros Hn. apply keeps_upd. intros c Hc. split; [done|split; [done|]].
  apply client_wf_set_video; [done|apply track_wf_seq; [apply Hc|done]|done|]. intros Hs.
  by apply Hc.
Qed.
Lemma keeps_upd_audio_seq id n : keeps (upd_audio id (set_t_seq (u16 n))).
Proof.
  apply keeps_upd. intros c Hc. split; [done|split; [done|]].
  apply client_wf_set_audio; [done|apply track_wf_seq; [apply Hc|apply u16_range]|done|].
  intros Hs. by apply Hc.
Qed.
Lemma keeps_upd_audio_ts id k : keeps (upd_audio id (fun t => set_t_ts (u32 (t_ts t + k)) t)).
Proof.
  apply keeps_upd. intros c Hc. split; [done|split; [done|]].
  apply client_wf_set_audio; [done|apply track_wf_ts; [apply Hc|apply u32_range]|done|].
  intros Hs. by apply Hc.
Qed.
Lemma keeps_advance_video id : keeps (advance_video id).
Proof.
  apply keeps_upd. intros c Hc. split; [done|split; [done|]].
  apply client_wf_set_video; [done|apply track_wf_ts; [apply Hc|apply u32_range]|done|].
  intros Hs. by apply Hc.
Qed.
#[export] Hint Resolve keeps_upd_audio_seq keeps_upd_audio_ts keeps_advance_video : intercom.

Ltac keeps_steps ::=
  repeat first [ solve [auto with intercom nocore] | keeps_step; cbn beta ]; try done.

(** ** Sending keeps the invariant *)
Section sending.
Context `{V : Env}.

Lemma fua_loop_seq send ts ssrc last fuel ind ty pl off first seq s :
  0 <= seq < 65536 ->
  iwp (fua_loop send ts ssrc last fuel ind ty pl off first seq) (fun r _ => 0 <= r < 65536) s.
Proof.
  revert off first seq s. induction fuel as [|fuel IH]; intros off first seq s Hs; cbn [fua_loop].
  { by apply iwp_ret. }
  destruct (off <? length pl)%nat; [|by apply iwp_ret].
  apply iwp_bind. unfold iwp at 1. destruct (mbuf_alloc _ _) as [[mb|] s1]; [|by apply iwp_ret].
  apply iwp_bind. unfold iwp at 1. destruct (rtp_hdr_encode _ _ _) as [[? ?] ?].
  apply iwp_bind. unfold iwp at 1. destruct (mbuf_write_u8 _ _ _) as [[? ?] ?].
  apply iwp_bind. unfold iwp at 1. destruct (mbuf_write_u8 _ _ _) as [[? ?] ?].
  apply iwp_bind. unfold iwp at 1. destruct (mbuf_write_mem _ _ _) as [[? ?] ?].
  apply iwp_bind. unfold iwp at 1. destruct (send _ _) as [? ?].
  apply IH, u16_range.
Qed.

Lemma send_h264_nalu_seq send ts ssrc last nalu seq s :
  0 <= seq < 65536 ->
  iwp (send_h264_nalu send ts ssrc last nalu seq) (fun r _ => 0 <= r < 65536) s.
Proof.
  intros Hs. unfold send_h264_nalu. destruct nalu as [|h pl]; [by apply iwp_ret|].
  destruct (_ <=? _)%nat; [|by apply fua_loop_seq].
  apply iwp_bind. unfold iwp at 1. destruct (mbuf_alloc _ _) as [[mb|] s1]; [|by apply iwp_ret].
  apply iwp_bind. unfold iwp at 1. destruct (rtp_hdr_encode _ _ _) as [[? ?] ?].
  apply iwp_bind. unfold iwp at 1. destruct (mbuf_write_mem _ _ _) as [[? ?] ?].
  apply iwp_bind. unfold iwp at 1. destruct (send _ _) as [? ?]. apply iwp_ret, u16_range.
Qed.

Lemma keeps_send_nalu id nalu last : keeps (send_h264_nalu_to_client id nalu last).
Proof.
  intros w s Hw. unfold send_h264_nalu_to_client. apply wp_bind. unfold wp at 1, client_get.
  assert (0 <= t_seq (c_video (client_of id w)) < 65536) as Hseq.
  { unfold client_of. destruct (find_client id (clients w)) as [c|] eqn:E; [|cbn; lia].
    apply find_client_In in E as [Hi _]. by apply (client_wf_in w c Hw Hi). }
  apply wp_bind, wp_lift. eapply iwp_mono; [by apply send_h264_nalu_seq|].
  intros r s' Hr. by apply keeps_upd_video_seq.
Qed.

Lemma keeps_send_nalus id l : keeps (send_nalus id l).
Proof.
  induction l as [|n l IH]; cbn [send_nalus]; [apply keeps_ret|].
  apply keeps_bind; [apply keeps_send_nalu|done].
Qed.

Lemma keeps_send_audio id pcmu : keeps (send_audio id pcmu).
Proof. unfold send_audio. keeps_steps. Qed.

Lemma keeps_read_audio : keeps read_audio_frame.
Proof.
  unfold read_audio_frame. keeps_steps. apply keeps_on_ain. intros d s. apply iwp_ret.
  unfold audio_in_read. by rewrite ring_read_opened.
Qed.
End sending.
#[export] Hint Resolve keeps_send_nalus keeps_send_audio keeps_read_audio : intercom.

(** ** Facts about one client *)
Definition at_client (id : nat) (P : client -> Prop) (w : world) : Prop :=
  forall c, In c (clients w) -> c_tc c = id -> P c.

Lemma at_client_of id w (P : client -> Prop) :
  rtsp_wf w -> P (client_of id w) -> at_client id P w.
Proof. intros Hw HP c Hi Ht. by rewrite <- (client_of_unique id w c). Qed.

(** An update under a fact about the client. *)
Lemma wp_upd_at id f (P Q : client -> Prop) w s :
  rtsp_wf w -> at_client id P w -> (forall c, c_tc (f c) = c_tc c) ->
  (forall c, client_wf c -> P c -> c_rbuf (f c) = c_rbuf c /\ client_wf (f c) /\ Q (f c)) ->
  wp (upd id f) (fun _ w' _ => ok_step w w' /\ at_client id Q w') w s.
Proof.
  intros Hw HP Ht Hf. apply wp_modify. split.
  - apply ok_upd; [done|]. intros c Hi Hc Hwf. split; [done|]. destruct (Hf c Hwf (HP c Hi Hc)) as (?&?&_). done.
  - intros c Hi Hc. cbn in Hi. apply In_upd_clients in Hi as (c0 & Hi & [[-> Hne]|[-> He]]); [done|].
    apply Hf; [by eapply client_wf_in|by apply HP].
Qed.

Lemma client_of_wf id w : rtsp_wf w -> In (client_of id w) (clients w) \/ client_of id w = client_new id sa_zero.
Proof.
  intros Hw. unfold client_of. destruct (find_client id (clients w)) as [c|] eqn:E; [|by right].
  left. by apply find_client_In in E as [? _].
Qed.

(** A client that is not in the list is not changed by an update. *)
Lemma client_of_track id w :
  rtsp_wf w -> track_wf (c_video (client_of id w)) /\ track_wf (c_audio (client_of id w)).
Proof.
  intros Hw. destruct (client_of_wf id w Hw) as [Hi| ->].
  - by pose proof (client_wf_in w _ Hw Hi) as [].
  - unfold track_wf. cbn. lia.
Qed.

(** ** Handlers keep the invariant *)
Section handlers.
Context `{V : Env}.

Lemma keeps_describe_camera : keeps describe_open_camera.
Proof.
  intros w s Hw. unfold describe_open_camera. apply wp_bind.
  eapply wp_mono; [by apply keeps_get_sps_pps|]. intros [[e a] b] w0 s0 Hok0.
  destruct (e =? 0); [by apply wp_ret|]. destruct Hok0 as (Hw0 & B0 & C0).
  apply wp_bind, wp_zoom. eapply wp_mono;
    [apply camera_open_wp; [apply Hw0|unfold VIDEO_WIDTH; lia|unfold VIDEO_HEIGHT; lia]|].
  intros err c' s1 (Hc & Ho & Hk). pose proof (ok_cam w0 c' Hw0 Hc Hk) as Hok1.
  set (w1 := set_w_cam c' w0) in *.
  apply wp_bind. eapply (wp_mono _ (fun _ w2 _ => ok_step w1 w2)).
  { destruct (_ || _); [|apply wp_ret, ok_refl, Hok1].
    assert (keeps (on_cam camera_request_keyframe ;; _ ← on_cam camera_get_frame; mret tt)) as Hks
      by keeps_steps.
    apply Hks, Hok1. }
  intros _ w2 s2 Hok2. apply wp_bind, wp_get.
  assert (ok_step w w2) as Hw2 by (eapply ok_trans; [by split|]; by eapply ok_trans).
  destruct (_ && _) eqn:E; [|by apply wp_ret]. bool_hyps. subst err.
  apply wp_modify. eapply ok_trans; [exact Hw2|]. destruct Hok2 as (Hwf2 & _ & C2).
  apply ok_rtsp; cbn; try apply Hwf2; auto.
  destruct (rw_timers _ Hwf2) as [?|(?&?&?)]; [by left|right]. done.
Qed.

Lemma keeps_describe id req : keeps (handle_describe id req).
Proof. unfold handle_describe. pose proof keeps_describe_camera. keeps_steps. Qed.

Lemma parse_pair_range key conv tr p lo hi :
  (forall z, lo <= conv z < hi) -> parse_pair key conv tr = Some p -> lo <= p.1 < hi /\ lo <= p.2 < hi.
Proof.
  intros Hc. unfold parse_pair. destruct (strstr tr key); [|done].
  destruct (strchr _ _); intros [= <-]; cbn; auto.
Qed.

Lemma track_wf_tcp t r a b :
  track_wf t -> 0 <= a < 256 -> 0 <= b < 256 ->
  track_wf (set_t_setup true (set_t_ssrc (u32 r) (set_t_ch_rtcp b (set_t_ch a t)))).
Proof. pose proof (u32_range r). unfold track_wf. cbn. tauto. Qed.

Lemma setup_tcp_wp id v b req w s :
  rtsp_wf w ->
  wp (setup_tcp id v b req) (fun _ w' _ => ok_step w w' /\ at_client id some_setup w') w s.
Proof.
  intros Hw. unfold setup_tcp.
  set (chs := match parse_interleaved _ with Some p => p | None => if v then (0, 1) else (2, 3) end).
  assert (0 <= chs.1 < 256 /\ 0 <= chs.2 < 256) as Hch.
  { unfold chs. destruct (parse_interleaved _) as [p|] eqn:E.
    - by eapply parse_pair_range; [apply u8_range|].
    - destruct v; cbn; lia. }
  destruct chs as [a c]. cbn [fst snd] in Hch. destruct Hch as [Ha Hc].
  apply wp_bind. eapply wp_mono.
  { apply (wp_upd_at id (set_c_interleaved true) (fun _ => True) (fun c => c_interleaved c = true));
      [done|done|done|]. intros x Hx _. split; [done|]. split; [|done].
    destruct Hx. constructor; cbn; try done; intros ?; by left. }
  intros _ w1 s1 [Hok1 Hat1].
  destruct v; [|destruct b].
  - apply wp_bind, wp_lift, iwp_ask. apply wp_bind. eapply wp_mono.
    { eapply (wp_upd_at id _ _ some_setup); [apply Hok1|exact Hat1|done|].
      intros x Hx Hint. split; [done|]. split; [|by left].
      apply client_wf_set_video; [done|apply track_wf_tcp; [apply Hx|done..]|done|by left]. }
    intros _ w2 s2 [Hok2 Hat2]. apply wp_ret. split; [by eapply ok_trans|done].
  - apply wp_bind. eapply wp_mono.
    { eapply (wp_upd_at id _ _ some_setup); [apply Hok1|exact Hat1|done|].
      intros x Hx Hint. split; [done|]. split; [|by right; right].
      destruct Hx. constructor; cbn; try done. intros Hst. destruct (cw_state0 Hst).
      split; [done|by right; right]. }
    intros _ w2 s2 [Hok2 Hat2]. apply wp_ret. split; [by eapply ok_trans|done].
  - apply wp_bind, wp_lift, iwp_ask. apply wp_bind. eapply wp_mono.
    { eapply (wp_upd_at id _ _ some_setup); [apply Hok1|exact Hat1|done|].
      intros x Hx Hint. split; [done|]. split; [|by right; left].
      apply client_wf_set_audio; [done|apply track_wf_tcp; [apply Hx|done..]|done|by left]. }
    intros _ w2 s2 [Hok2 Hat2]. apply wp_ret. split; [by eapply ok_trans|done].
Qed.

Lemma setup_socket_wf t s :
  track_wf t ->
  iwp (setup_socket t) (fun r _ => match r with
    | Some t' => track_wf t' /\ t_sock t' <> None | None => True end) s.
Proof.
  intros Ht. unfold setup_socket. destruct (t_sock t) eqn:E; [apply iwp_ret; by rewrite E|].
  apply iwp_bind. unfold alloc_rtp_socket. wp_steps; try done.
  pose proof (u16_range (env QPort (S (S (tick s))))) as Hp.
  match goal with |- context [u32 ?r] => pose proof (u32_range r) end.
  unfold track_wf in *. cbn in *. repeat split; try tauto; done.
Qed.

Lemma setup_udp_wp id v b req w s :
  rtsp_wf w ->
  wp (setup_udp id v b req) (fun ro w' _ => ok_step w w'
    /\ (ro <> None -> at_client id some_setup w')) w s.
Proof.
  intros Hw. unfold setup_udp.
  assert (forall code reason, wp (_ ← reply id (rq_cseq req) code reason None None; mret (@None bytes))
    (fun ro w' _ => ok_step w w' /\ (ro <> None -> at_client id some_setup w')) w s) as Href.
  { intros code reason. apply wp_bind. eapply wp_mono; [by apply keeps_reply|].
    intros r w' s' Hok. by apply wp_ret. }
  apply wp_bind. unfold wp at 1, client_get.
  destruct b; [apply Href|]. destruct (negb _); [apply Href|].
  destruct (parse_client_port _) as [[p1 p2]|]; [|apply Href].
  destruct (client_of_track id w Hw) as [Hv Ha].
  apply wp_bind, wp_lift. eapply iwp_mono; [apply setup_socket_wf; by destruct v|].
  intros [t|] s' Ht.
  2: { apply wp_bind. eapply wp_mono; [by apply keeps_reply|]. intros r w' s2 Hok. by apply wp_ret. }
  destruct Ht as [Ht Hsock].
  destruct (setup_udp_track t (c_peer (client_of id w)) p1 p2) as [t2 resp] eqn:Eu.
  assert (track_wf t2 /\ t_setup t2 = true /\ t_sock t2 <> None) as (Ht2 & Hs2 & Hk2).
  { unfold setup_udp_track in Eu. injection Eu as <- _. unfold track_wf in *. cbn. tauto. }
  apply wp_bind. destruct v.
  - eapply wp_mono.
    { eapply (wp_upd_at id _ (fun _ => True) some_setup); [done|done|done|].
      intros x Hx _. split; [done|]. split; [|by left].
      apply client_wf_set_video; [done..|by right]. }
    intros _ w2 s2 [Hok2 Hat2]. by apply wp_ret.
  - eapply wp_mono.
    { eapply (wp_upd_at id _ (fun _ => True) some_setup); [done|done|done|].
      intros x Hx _. split; [done|]. split; [|by right; left].
      apply client_wf_set_audio; [done..|by right]. }
    intros _ w2 s2 [Hok2 Hat2]. by apply wp_ret.
Qed.

Lemma itoa_hex fuel n acc k :
  0 <= n < 16 ^ Z.of_nat k -> (0 < k <= fuel)%nat -> Forall is_hex acc ->
  Forall is_hex (itoa_loop fuel n 16 false acc)
  /\ (length (itoa_loop fuel n 16 false acc) <= k + length acc)%nat.
Proof.
  revert n acc k. induction fuel as [|fuel IH]; intros n acc k Hn Hk Hacc; [lia|].
  cbn [itoa_loop]. assert (is_hex (digit_char false (n - n / 16 * 16))) as Hd
    by (apply digit_char_hex; mod_lia).
  destruct (n / 16 =? 0) eqn:E; bool_hyps; [split; [by constructor|cbn; lia]|].
  destruct k as [|k]; [lia|]. rewrite Nat2Z.inj_succ, Z.pow_succ_r in Hn by lia.
  destruct k as [|k]; [cbn in Hn; mod_lia|].
  destruct (IH (n / 16) (digit_char false (n - n / 16 * 16) :: acc) (S k)) as [H1 H2];
    [split; [mod_lia|apply Z.div_lt_upper_bound; lia]|lia|by constructor|].
  split; [done|]. cbn [length] in H2. lia.
Qed.

(** A session identifier is eight hexadecimal digits. *)
Lemma session_id_format r : let l := snprintf_str 16 "%08x" [ANum (u32 r)] in
  length l = 8%nat /\ Forall is_hex l.
Proof.
  pose proof (u32_range r) as Hr.
  destruct (itoa_hex 64 (u32 r) [] 8) as [Hh Hl]; [cbn; lia|lia|constructor|].
  fold (local_itoa (u32 r) 16 false) in Hh, Hl. set (d := local_itoa (u32 r) 16 false) in *.
  cbn [length] in Hl.
  assert (exists ps, pieces "%08x" [ANum (u32 r)] = (ps, true)
    /\ concat ps = replicate (8 - length d) 48 ++ d) as (ps & Hp & Hc).
  { exists (write_padded d 8 48 false None ++ []). split.
    - unfold d. lazy -[local_itoa write_padded Z.ltb Z.abs u32]. reflexivity.
    - rewrite app_nil_r. unfold write_padded. change (48 =? 48) with true. cbv iota zeta.
      cbn [default length app]. change (8 - Nat.min 8 0)%nat with 8%nat.
      rewrite concat_app. f_equal.
      + induction (8 - length d)%nat as [|n IH]; cbn; [done|]. by rewrite IH.
      + destruct d; cbn; by rewrite ?app_nil_r. }
  rewrite (snprintf_str_fits _ _ _ ps Hp) by (rewrite Hc; len_lia). rewrite Hc.
  split; [len_lia|]. apply Forall_app. split; [|done]. apply Forall_replicate. unfold is_hex. lia.
Qed.

Lemma setup_finish_wp id req resp w s :
  rtsp_wf w -> at_client id some_setup w ->
  wp (setup_finish id req resp) (fun _ w' _ => ok_step w w') w s.
Proof.
  intros Hw Hat. unfold setup_finish. apply wp_bind. unfold wp at 1, client_get.
  apply wp_bind. eapply (wp_mono _ (fun _ w1 _ => ok_step w w1
    /\ at_client id (fun c => some_setup c /\ c_session_id c <> []) w1)).
  { destruct (c_session_id (client_of id w)) as [|x l] eqn:Es.
    - apply wp_bind, wp_lift, iwp_ask.
      destruct (session_id_format (env QRand (tick s))) as [Hl Hh].
      eapply (wp_upd_at id _ some_setup); [done|done|done|]. intros c Hc Hss.
      split; [done|]. split; [|split; [done|cbn; intros E; by rewrite E in Hl]].
      destruct Hc. constructor; cbn; try done; [by right|]. intros Hst. split; [|done].
      intros E. by rewrite E in Hl.
    - apply wp_ret. split; [by apply ok_refl|]. intros c Hi Ht. split; [by apply Hat|].
      rewrite <- (client_of_unique id w c Hw Hi Ht), Es. done. }
  intros _ w1 s1 [Hok1 Hat1]. apply wp_bind. eapply wp_mono.
  { eapply (wp_upd_at id _ _ (fun _ => True)); [apply Hok1|exact Hat1|done|].
    intros c Hc [Hss Hsid]. split; [done|]. split; [|done]. destruct Hc. by constructor. }
  intros _ w2 s2 [Hok2 _]. apply wp_bind. eapply wp_mono; [apply keeps_reply, Hok2|].
  intros ? w3 s3 Hok3. apply wp_ret. eapply ok_trans; [exact Hok1|]. by eapply ok_trans.
Qed.

Lemma keeps_setup id req : keeps (handle_setup id req).
Proof.
  intros w s Hw. unfold handle_setup. apply wp_bind. unfold wp at 1, client_get.
  destruct (setup_flags _ _) as [v b]. destruct (is_tcp_transport _).
  - apply wp_bind. eapply wp_mono; [by apply setup_tcp_wp|]. intros r w1 s1 [Hok Hat].
    eapply wp_mono; [apply setup_finish_wp; [apply Hok|done]|]. intros ? w2 s2 Hok2.
    by eapply ok_trans.
  - apply wp_bind. eapply wp_mono; [by apply setup_udp_wp|]. intros [r|] w1 s1 [Hok Hat].
    2: { by apply wp_ret. }
    eapply wp_mono; [apply setup_finish_wp; [apply Hok|by apply Hat]|]. intros ? w2 s2 Hok2.
    by eapply ok_trans.
Qed.

Lemma keeps_play id req : keeps (handle_play id req).
Proof.
  intros w s Hw. unfold handle_play. apply wp_bind. unfold wp at 1, client_get.
  assert (forall info, keeps (play_open_speaker id ;;
    _ ← reply id (rq_cseq req) 200 "OK" (Some info) None;
    play_first_frame id ;; play_first_audio id)) as Hrest.
  { intros info. apply keeps_bind; [|intros _; unfold play_first_frame, play_first_audio; keeps_steps].
    clear w s Hw. intros w s Hw. unfold play_open_speaker. apply wp_bind. unfold wp at 1, client_get.
    destruct (_ && _) eqn:E; [|by apply wp_ret, ok_refl]. bool_hyps.
    apply wp_bind. unfold wp at 1, on_aout. destruct (audio_out_open _ _ _ _ _) as [[err d] s'].
    pose proof (ok_aout w d Hw) as Hok. destruct (err =? 0); [|by apply wp_ret].
    assert (at_client id (fun c => c_bc_setup c = true) (set_w_aout d w)) as Hat
      by (intros c Hi Ht; rewrite <- (client_of_unique id w c Hw Hi Ht); done).
    eapply wp_mono.
    { eapply (wp_upd_at id _ _ (fun _ => True)); [apply Hok|exact Hat|done|].
      intros c Hc Hbc. split; [done|]. split; [|done]. destruct Hc. by constructor. }
    intros _ w2 s2 [Hok2 _]. exact (ok_trans _ _ _ Hok Hok2). }
  assert (c_state (client_of id w) <> RTSP_IDLE ->
    wp (upd id (set_c_state RTSP_PLAYING) ;; ensure_media_started ;;
        on_cam camera_request_keyframe ;;
        (let info := rtp_info (client_of id w) (rq_uri req) in
         play_open_speaker id ;;
         _ ← reply id (rq_cseq req) 200 "OK" (Some info) None;
         play_first_frame id ;; play_first_audio id))
       (fun _ w' _ => ok_step w w') w s) as Hplay.
  { intros Hst. apply wp_bind. eapply wp_mono.
    { eapply (wp_upd_at id _ (fun c => c_state c <> RTSP_IDLE) (fun _ => True));
        [done|by apply at_client_of|done|].
      intros c Hc Hne. split; [done|]. split; [|done]. destruct Hc. constructor; cbn; auto. }
    intros _ w1 s1 [Hok1 _].
    assert (forall info, keeps (ensure_media_started ;; on_cam camera_request_keyframe ;;
      (play_open_speaker id ;; _ ← reply id (rq_cseq req) 200 "OK" (Some info) None;
       play_first_frame id ;; play_first_audio id))) as Hk.
    { intros info. apply keeps_bind; [apply keeps_ensure_media|intros _].
      apply keeps_bind; [apply keeps_request_keyframe|intros _]. apply Hrest. }
    eapply wp_mono; [apply Hk, Hok1|]. intros ? w2 s2 Hok2. by eapply ok_trans. }
  destruct (c_state (client_of id w)) eqn:Es; [|by apply Hplay..].
  apply wp_bind. eapply wp_mono; [by apply keeps_reply|]. intros ? w' s' Hok. by apply wp_ret.
Qed.

(** Freeing a client. *)
Lemma destructor_wp id w s :
  rtsp_wf w ->
  wp (client_destructor id) (fun _ w' _ => rtsp_wf w'
    /\ clients w' = List.filter (fun c => negb (c_tc c =? id)%nat) (clients w)
    /\ g_tmr_audio (w_rtsp w') = g_tmr_audio (w_rtsp w)
    /\ g_tmr_video (w_rtsp w') = g_tmr_video (w_rtsp w)) w s.
Proof.
  intros Hw. unfold client_destructor. apply wp_bind. unfold wp at 1, client_get.
  apply wp_bind. eapply (wp_mono _ (fun _ w1 _ => rtsp_wf w1 /\ w_rtsp w1 = w_rtsp w)).
  { destruct (c_audio_out_opened _); [|by apply wp_ret].
    unfold wp, on_aout. destruct (_ ≫= _) as [[[] d] s1].
    split; [apply ok_aout; done|done]. }
  intros _ w1 s1 [Hw1 Heq]. apply wp_bind, wp_modify.
  set (w2 := set_w_rtsp _ w1).
  assert (rtsp_wf w2 /\ clients w2 = List.filter (fun c => negb (c_tc c =? id)%nat) (clients w)
    /\ g_tmr_audio (w_rtsp w2) = g_tmr_audio (w_rtsp w)
    /\ g_tmr_video (w_rtsp w2) = g_tmr_video (w_rtsp w)) as H2.
  { split; [|cbn; rewrite Heq; done].
    assert (forall l : list client, NoDup (map c_tc l) ->
      NoDup (map c_tc (List.filter (fun c => negb (c_tc c =? id)%nat) l))) as Hnd.
    { induction l as [|c l IH]; cbn; [done|]. inversion 1 as [|? ? Hx Hl]; subst.
      destruct (negb _); cbn; [|by apply IH]. constructor; [|by apply IH].
      intros Hin. apply Hx. apply list_elem_of_In, in_map_iff in Hin as (y & Hy & Hin).
      apply filter_In in Hin as [Hin _]. apply list_elem_of_In, in_map_iff. by exists y. }
    destruct Hw1. constructor; cbn; try done; [by apply Hnd|].
    rewrite List.Forall_forall in *. intros c Hc. apply filter_In in Hc as [Hc _]. auto. }
  apply wp_bind. destruct (t_sock (c_video _)); [apply wp_lift, iwp_emit|apply wp_ret];
    apply wp_bind; (destruct (t_sock (c_audio _)); [apply wp_lift, iwp_emit|apply wp_ret]);
    apply wp_lift, iwp_emit; exact H2.
Qed.

Lemma keeps_set_idle id : keeps (upd id (set_c_state RTSP_IDLE)).
Proof.
  apply keeps_upd. intros c Hc. split; [done|split; [done|]]. destruct Hc. by constructor.
Qed.
Lemma keeps_restart_timeout id : keeps (restart_timeout id).
Proof.
  apply keeps_upd. intros c Hc. split; [done|split; [done|]]. destruct Hc. by constructor.
Qed.
End handlers.
#[export] Hint Resolve keeps_describe keeps_setup keeps_play keeps_set_idle keeps_restart_timeout : intercom.
