(* ===== verification/RtspSteps.v ===== *)
(** * The event loop of the RTSP server

    The steps the event loop can take (a connection, received data, a closed
    connection, a timeout, a tick of a media timer, the audio callbacks), the
    invariant of all reachable states, and what the receive path leaves. *)
From stdpp Require Import relations.
From S2P Require Import Prelude Sys Fmt Mbuf Rtp H264 G711 AudioIn AudioOut Base64 Camera.
From S2P Require Import RtspAuth RtspParse RtspState RtspServer RtspReply RtspAccess RtspInv.

(** The buffers without those of client [id]. *)
Definition without (id : nat) (l : list (nat * option mbuf)) : list (nat * option mbuf) :=
  List.filter (fun p => negb (p.1 =? id)%nat) l.

Lemma bufs_without id w w' :
  clients w' = List.filter (fun c => negb (c_tc c =? id)%nat) (clients w) ->
  bufs w' = without id (bufs w).
Proof.
  intros Hc. unfold bufs, without. rewrite Hc. clear Hc. induction (clients w) as [|c l IH]; [done|]. cbn.
  destruct (negb (c_tc c =? id)%nat); cbn; by rewrite IH.
Qed.

(** ** Dispatch *)
Section dispatch.
Context `{V : Env} `{!Md5Spec V}.

Lemma auth_refused_keeps req : keeps (auth_refused req).
Proof.
  intros w s Hw. unfold auth_refused. apply wp_bind, wp_zoom.
  unfold rtsp_auth_enabled. apply wp_bind, wp_get, wp_ret. rewrite set_w_auth_id.
  destruct (_ && _) eqn:E; [|by apply wp_ret, ok_refl]. bool_hyps.
  apply wp_bind, wp_zoom. eapply wp_mono; [apply auth_check_outcome; [apply Hw|done]|].
  intros r a s' [(_ & _ & _ & n & -> & Hl & Hh & _)|(_ & _ & -> & _)]; apply wp_ret.
  - apply ok_auth; [done|]. intros _. cbn. split; [done|split; [done|]].
    by destruct (rw_auth _ Hw) as (_ & _ & ?).
  - rewrite set_w_auth_id. by apply ok_refl.
Qed.

Lemma teardown_wf id req w s :
  rtsp_wf w -> wp (handle_teardown id req) (fun _ w' _ => rtsp_wf w'
    /\ bufs w' = without id (bufs w)) w s.
Proof.
  intros Hw. unfold handle_teardown. apply wp_bind. eapply wp_mono; [by apply keeps_reply|].
  intros ? w1 s1 Hok1. apply wp_bind. eapply wp_mono; [apply keeps_set_idle, Hok1|].
  intros ? w2 s2 Hok2. apply wp_bind. eapply wp_mono; [apply keeps_maybe_stop_media, Hok2|].
  intros ? w3 s3 Hok3. eapply wp_mono; [apply destructor_wp, Hok3|].
  intros ? w4 s4 (Hw4 & Hc & _). split; [done|]. rewrite (bufs_without id w3 w4 Hc). f_equal.
  destruct Hok1 as (_ & B1 & _), Hok2 as (_ & B2 & _), Hok3 as (_ & B3 & _). congruence.
Qed.

Lemma run_method_wp id req w s :
  rtsp_wf w -> wp (run_method id req) (fun freed w' _ => rtsp_wf w'
    /\ if freed then bufs w' = without id (bufs w) else ok_step w w') w s.
Proof.
  intros Hw. unfold run_method, handle_options.
  assert (forall m : M world unit, keeps m -> wp (m ;; mret false)
    (fun freed w' _ => rtsp_wf w'
      /\ if (freed : bool) then bufs w' = without id (bufs w) else ok_step w w') w s) as Hk.
  { intros m Hm. apply wp_bind. eapply wp_mono; [by apply Hm|]. intros ? w1 s1 Hok.
    apply wp_ret. split; [apply Hok|done]. }
  assert (forall code reason, wp (_ ← reply id (rq_cseq req) code reason None None; mret false)
    (fun freed w' _ => rtsp_wf w'
      /\ if (freed : bool) then bufs w' = without id (bufs w) else ok_step w w') w s) as Hr.
  { intros code reason. apply wp_bind. eapply wp_mono; [by apply keeps_reply|].
    intros ? w1 s1 Hok. apply wp_ret. split; [apply Hok|done]. }
  destruct (is_method "OPTIONS" req); [apply Hk; keeps_steps|].
  destruct (is_method "DESCRIBE" req); [apply Hk; keeps_steps|].
  destruct (is_method "SETUP" req); [apply Hk; keeps_steps|].
  destruct (is_method "PLAY" req); [apply Hk; keeps_steps|].
  destruct (is_method "TEARDOWN" req).
  { apply wp_bind. eapply wp_mono; [by apply teardown_wf|]. intros ? w1 s1 Hw1. by apply wp_ret. }
  destruct (is_method "GET_PARAMETER" req); apply Hr.
Qed.

Lemma dispatch_wp id mem len w s :
  rtsp_wf w -> wp (dispatch_rtsp id mem len) (fun freed w' _ => rtsp_wf w'
    /\ if freed then bufs w' = without id (bufs w) else ok_step w w') w s.
Proof.
  intros Hw. unfold dispatch_rtsp. set (req := parse_rtsp_request mem len).
  apply wp_bind. eapply wp_mono; [by apply auth_refused_keeps|]. intros refused w1 s1 Hok1.
  destruct refused.
  - apply wp_bind, wp_zoom. unfold rtsp_auth_challenge. apply wp_bind, wp_get, wp_ret.
    rewrite set_w_auth_id. destruct (re_snprintf _ _ _) as [ch n].
    apply wp_bind. eapply wp_mono; [apply keeps_reply, Hok1|]. intros ? w2 s2 Hok2. apply wp_ret.
    split; [apply Hok2|exact (ok_trans _ _ _ Hok1 Hok2)].
  - apply wp_bind. eapply wp_mono; [apply run_method_wp, Hok1|]. intros freed w2 s2 [Hw2 Hf].
    destruct freed; [apply wp_ret; split; [done|]; destruct Hok1 as (_ & B1 & _); congruence|].
    apply wp_bind.
    eapply (wp_mono _ (fun _ w3 _ => ok_step w2 w3)).
    { destruct (resets_timeout req); [by apply keeps_restart_timeout|by apply wp_ret, ok_refl]. }
    intros _ w3 s3 Hok3. apply wp_ret. split; [apply Hok3|].
    eapply ok_trans; [exact Hok1|]. eapply ok_trans; [exact Hf|done].
Qed.

Lemma handle_interleaved_keeps id ch rtp : keeps (handle_interleaved id ch rtp).
Proof. unfold handle_interleaved. keeps_steps. Qed.
End dispatch.

(** ** The receive buffer *)
Definition buf_bound (p : nat * option mbuf) : Prop :=
  match p.2 with Some mb => Z.of_nat (mb_end mb) <= 16384 | None => True end.

(** The invariant between events: well-formed, and no client holds more than
    16 KB of unprocessed data. *)
Definition rtsp_inv (w : world) : Prop := rtsp_wf w /\ Forall buf_bound (bufs w).

(** The buffer of a client, read off [bufs]. *)
Definition buf_of (id : nat) (l : list (nat * option mbuf)) : option mbuf :=
  match find (fun p => (p.1 =? id)%nat) l with Some p => p.2 | None => None end.

Lemma client_rbuf_bufs id w : c_rbuf (client_of id w) = buf_of id (bufs w).
Proof.
  unfold client_of, buf_of, bufs, find_client. induction (clients w) as [|c l IH]; [done|].
  cbn. by destruct (c_tc c =? id)%nat.
Qed.

Lemma client_data_bufs id w w' : bufs w' = bufs w -> client_data id w' = client_data id w.
Proof. intros Hb. unfold client_data. by rewrite !client_rbuf_bufs, Hb. Qed.

(** Replacing the buffer of one client. *)
Definition set_buf (id : nat) (o : option mbuf -> option mbuf) (l : list (nat * option mbuf)) :=
  map (fun p => if (p.1 =? id)%nat then (p.1, o p.2) else p) l.

Lemma wp_upd_rbuf id (o : option mbuf -> option mbuf) w s (P : world -> Prop) :
  rtsp_wf w -> (forall c, In c (clients w) -> c_tc c = id -> rbuf_ok (o (c_rbuf c))) ->
  (forall w', rtsp_wf w' -> bufs w' = set_buf id o (bufs w) -> P w') ->
  wp (upd id (fun c => set_c_rbuf (o (c_rbuf c)) c)) (fun _ w' _ => P w') w s.
Proof.
  intros Hw Ho HP. apply wp_modify, HP.
  - destruct Hw as [Hn Hc ???????]. constructor; cbn; try done.
    + rewrite upd_clients_map; [done|]. done.
    + apply upd_clients_Forall; [done|]. intros c Hi Ht [] . by constructor; cbn; try done; apply Ho.
  - unfold bufs, set_buf, upd_clients. cbn. rewrite !map_map. apply map_ext. intros c. cbn.
    by destruct (c_tc c =? id)%nat.
Qed.

Lemma buf_of_set id o l mb : buf_of id l = Some mb -> buf_of id (set_buf id o l) = o (Some mb).
Proof.
  unfold buf_of, set_buf. induction l as [|[k b] l IH]; [done|]. cbn.
  destruct (k =? id)%nat eqn:E; cbn; rewrite E; cbn; [by intros ->|exact IH].
Qed.

Lemma buf_of_set_None id o l :
  buf_of id l = None -> o None = None -> buf_of id (set_buf id o l) = None.
Proof.
  unfold buf_of, set_buf. intros Hb Ho. revert Hb. induction l as [|[k b] l IH]; [done|]. cbn.
  destruct (k =? id)%nat eqn:E; cbn; rewrite E; cbn; [by intros ->|exact IH].
Qed.

Lemma buf_of_ok id w mb : rtsp_wf w -> buf_of id (bufs w) = Some mb -> (mb_end mb <= mb_size mb)%nat.
Proof.
  intros Hw Eb. rewrite <- client_rbuf_bufs in Eb. destruct (client_of_wf id w Hw) as [Hi|E0].
  - pose proof (cw_rbuf _ (client_wf_in w _ Hw Hi)) as Hr. by rewrite Eb in Hr.
  - by rewrite E0 in Eb.
Qed.

Lemma buf_of_without id l : buf_of id (without id l) = None.
Proof.
  unfold buf_of, without. induction l as [|[k b] l IH]; [done|]. cbn.
  destruct (k =? id)%nat eqn:E; cbn; [done|]. by rewrite E.
Qed.

Lemma client_data_without id w w' : bufs w' = without id (bufs w) -> client_data id w' = [].
Proof. intros Hb. unfold client_data. by rewrite client_rbuf_bufs, Hb, buf_of_without. Qed.

(** All buffers but those of client [id] are within the bound. *)
Definition bound_except (id : nat) (l : list (nat * option mbuf)) : Prop :=
  Forall (fun p => p.1 <> id -> buf_bound p) l.

Lemma bound_except_set id o l : bound_except id l -> bound_except id (set_buf id o l).
Proof.
  intros Hb. unfold bound_except, set_buf in *. rewrite List.Forall_forall in *. intros p Hp.
  apply in_map_iff in Hp as ([k b] & <- & Hp). specialize (Hb _ Hp). cbn in *.
  destruct (k =? id)%nat eqn:E; bool_hyps; cbn; [done|]. auto.
Qed.

Lemma bound_without id l : bound_except id l -> Forall buf_bound (without id l).
Proof.
  unfold bound_except, without. rewrite !List.Forall_forall. intros Hb p Hp.
  apply filter_In in Hp as [Hp Hn]. bool_hyps. auto.
Qed.

Lemma bound_join id w :
  rtsp_wf w -> bound_except id (bufs w) -> zlen (client_data id w) <= 16384 ->
  Forall buf_bound (bufs w).
Proof.
  intros Hw Hb Hd. unfold bound_except in Hb. rewrite List.Forall_forall in *. intros p Hp.
  destruct (Nat.eq_dec p.1 id) as [E|E]; [|by apply Hb].
  unfold bufs in Hp. apply in_map_iff in Hp as (c & <- & Hi). cbn in E.
  pose proof (client_wf_in w c Hw Hi) as Hc. apply cw_rbuf in Hc.
  unfold client_data in Hd. rewrite (client_of_unique id w c Hw Hi E) in Hd.
  unfold buf_bound, rbuf_ok in *. cbn. destruct (c_rbuf c) as [mb|]; [|done].
  unfold rbuf_data, mb_size in *. rewrite length_take in Hd. lia.
Qed.

Lemma rbuf_consume_data n mb :
  (mb_end mb <= mb_size mb)%nat -> (n <= mb_end mb)%nat ->
  rbuf_data (rbuf_consume n mb) = drop n (rbuf_data mb) /\ (mb_end (rbuf_consume n mb) <= mb_size (rbuf_consume n mb))%nat
  /\ mb_end (rbuf_consume n mb) = (mb_end mb - n)%nat.
Proof.
  intros He Hn. unfold rbuf_consume, rbuf_data, mb_size in *. cbn [mb_buf mb_end].
  assert (length (drop n (take (mb_end mb) (mb_buf mb))) = mb_end mb - n)%nat as Hl by len_lia.
  split; [|split; [len_lia|done]]. rewrite take_app_le by lia. apply take_ge. lia.
Qed.

Lemma rbuf_data_length mb : (mb_end mb <= mb_size mb)%nat -> length (rbuf_data mb) = mb_end mb.
Proof. unfold rbuf_data, mb_size. intros H. len_lia. Qed.

(** ** The receive loop *)
Section receive.
Context `{V : Env} `{!Md5Spec V}.

(** What every step of the loop maintains. *)
Definition recv_ok (id : nat) (data : bytes) (w : world) : Prop :=
  rtsp_wf w /\ bound_except id (bufs w) /\ client_data id w = data.

Lemma recv_ok_step id data w w' : recv_ok id data w -> ok_step w w' -> recv_ok id data w'.
Proof.
  intros (_ & Hb & Hd) (Hw' & Hbufs & _). split; [done|]. rewrite Hbufs.
  split; [done|]. by rewrite (client_data_bufs id w w').
Qed.

Lemma ensure_terminator_wp id data w s :
  recv_ok id data w -> wp (ensure_terminator id) (fun _ w' _ => recv_ok id data w') w s.
Proof.
  intros (Hw & Hb & Hd). unfold ensure_terminator. apply wp_bind. unfold wp at 1, client_get.
  rewrite client_rbuf_bufs. destruct (buf_of id (bufs w)) as [mb|] eqn:Eb; [|by apply wp_ret].
  pose proof (buf_of_ok id w mb Hw Eb) as He.
  destruct (mb_size mb <=? mb_end mb)%nat eqn:Es; bool_hyps; [|by apply wp_ret].
  apply wp_bind, wp_lift. unfold mbuf_resize.
  assert (forall mb', (mb_end mb' <= mb_size mb')%nat -> rbuf_data mb' = rbuf_data mb ->
    forall s', wp (upd id (set_c_rbuf (Some mb'))) (fun _ w' _ => recv_ok id data w') w s') as Hupd.
  { intros mb' He' Hd' s'. apply (wp_upd_rbuf id (fun _ => Some mb')); [done|done|].
    intros w' Hw' Hbufs. split; [done|]. rewrite Hbufs. split; [by apply bound_except_set|].
    unfold client_data in *. rewrite client_rbuf_bufs, Hbufs, (buf_of_set _ _ _ mb) by done.
    rewrite client_rbuf_bufs, Eb in Hd. congruence. }
  apply iwp_bind, iwp_ask, iwp_ret. destruct (_ =? 0); apply Hupd; try done.
  - unfold mb_size in *. cbn. rewrite length_take, length_app, uninit_length. lia.
  - unfold rbuf_data, mb_size in *. cbn. rewrite take_take, Nat.min_l by lia.
    by rewrite take_app_le by lia.
Qed.

Lemma consume_wp id data n w s :
  recv_ok id data w -> (n <= length data)%nat ->
  wp (consume id n) (fun _ w' _ => recv_ok id (drop n data) w') w s.
Proof.
  intros (Hw & Hb & Hd) Hn. unfold consume.
  apply (wp_upd_rbuf id (fmap (rbuf_consume n))); [done| |].
  - intros c Hi Ht. pose proof (cw_rbuf _ (client_wf_in w c Hw Hi)) as Hr.
    unfold client_data in Hd. rewrite (client_of_unique id w c Hw Hi Ht) in Hd.
    destruct (c_rbuf c) as [mb|]; cbn in *; [|done]. subst data.
    rewrite rbuf_data_length in Hn by done. by apply rbuf_consume_data.
  - intros w' Hw' Hbufs. split; [done|]. rewrite Hbufs. split; [by apply bound_except_set|].
    unfold client_data in *. rewrite client_rbuf_bufs, Hbufs. rewrite client_rbuf_bufs in Hd.
    destruct (buf_of id (bufs w)) as [mb|] eqn:Eb.
    + rewrite (buf_of_set _ _ _ mb) by done. cbn. subst data.
      pose proof (buf_of_ok id w mb Hw Eb) as He.
      rewrite rbuf_data_length in Hn by done. by apply rbuf_consume_data.
    + subst data. rewrite drop_nil.
      by rewrite buf_of_set_None.
Qed.

(** The loop ends with no complete unit left, within its fuel. *)
Lemma recv_loop_wp fuel id data w s :
  recv_ok id data w -> zlen data <= 16384 -> (length data <= fuel)%nat ->
  wp (recv_loop fuel id) (fun _ w' _ => rtsp_inv w' /\ next_unit (client_data id w') = UMore) w s.
Proof.
  assert (forall data w, recv_ok id data w -> zlen data <= 16384 -> next_unit data = UMore ->
    rtsp_inv w /\ next_unit (client_data id w) = UMore) as Hend.
  { intros d w0 (Hw & Hb & Hd) Hl Hu. subst d. split; [|done]. split; [done|]. by apply (bound_join id). }
  revert data w s. induction fuel as [|fuel IH]; intros data w s Hok Hl Hf; cbn [recv_loop].
  { destruct data; [|cbn in Hf; lia]. apply wp_ret. by apply (Hend []). }
  apply wp_bind, wp_get. pose proof Hok as (Hw & Hb & Hd). rewrite Hd.
  destruct data as [|d0 t]; [apply wp_ret; by apply (Hend [])|]. set (data := d0 :: t) in *.
  apply wp_bind. eapply (wp_mono _ (fun _ w1 _ => recv_ok id data w1)).
  { destruct (d0 =? chr "$"); [by apply wp_ret|by apply ensure_terminator_wp]. }
  intros _ w1 s1 Hok1. pose proof (next_unit_size data) as Hu.
  destruct (next_unit data) as [ch rtp n|n|] eqn:En; [| |apply wp_ret; by apply (Hend data)];
    cbn [unit_size] in Hu; destruct Hu as [[=]|Hu].
  - apply wp_bind. eapply wp_mono; [apply handle_interleaved_keeps, Hok1|].
    intros ? w2 s2 Hk. apply wp_bind.
    eapply wp_mono; [apply (consume_wp id data n); [by eapply recv_ok_step|lia]|].
    intros ? w3 s3 Hok3. apply (IH (drop n data)); [done|len_lia|len_lia].
  - apply wp_bind. eapply wp_mono; [apply dispatch_wp, Hok1|]. intros freed w2 s2 [Hw2 Hfr].
    destruct freed.
    + apply wp_ret. rewrite (client_data_without id w1 w2 Hfr). split; [|done]. split; [done|].
      rewrite Hfr. apply bound_without, Hok1.
    + apply wp_bind.
      eapply wp_mono; [apply (consume_wp id data n); [by eapply recv_ok_step|lia]|].
      intros ? w3 s3 Hok3. apply (IH (drop n data)); [done|len_lia|len_lia].
Qed.

Lemma recv_append_wp id data w s :
  rtsp_inv w ->
  wp (recv_append id data) (fun ok w' _ => rtsp_wf w' /\ bound_except id (bufs w')
    /\ (ok = false -> rtsp_inv w' /\ client_data id w' = [])) w s.
Proof.
  intros [Hw Hb].
  assert (bound_except id (bufs w)) as Hbe by (eapply Forall_impl; [|exact Hb]; done).
  unfold recv_append. apply wp_bind. unfold wp at 1, client_get.
  rewrite client_rbuf_bufs. apply wp_bind.
  eapply (wp_mono _ (fun mbo w' _ => w' = w /\ match mbo with
    | Some mb => (mb_end mb <= mb_size mb)%nat | None => buf_of id (bufs w) = None end)).
  { destruct (buf_of id (bufs w)) as [mb|] eqn:Eb.
    - apply wp_ret. split; [done|]. by eapply buf_of_ok.
    - apply wp_lift. eapply iwp_mono; [apply mbuf_alloc_spec|].
      intros [mb|] s' [_ Hm]; (split; [done|]); [|done]. by destruct Hm as [(_ & _ & ?) _]. }
  intros [mb|] w0 s0 [-> Hm].
  2: { apply wp_ret. split; [done|]. split; [done|]. intros _. split; [by split|].
       unfold client_data. by rewrite client_rbuf_bufs, Hm. }
  apply wp_bind, wp_lift.
  assert (mbuf_holds (mbuf_set_pos mb (mb_end mb)) (rbuf_data mb)) as Hh by done.
  eapply iwp_mono; [by apply (mbuf_write_mem_spec _ (rbuf_data mb))|].
  intros [e mb'] s1 [_ Hr].
  assert (mb_end mb' <= mb_size mb')%nat as He'.
  { destruct Hr as [(_ & (_ & _ & ?) & _)|(_ & -> & _)]; done. }
  apply wp_bind. eapply wp_mono.
  { apply (wp_upd_rbuf id (fun _ => Some mb') w s1 (fun w' => rtsp_wf w' /\ bound_except id (bufs w')));
      [done|done|]. intros w' Hw' Hbufs. split; [done|]. rewrite Hbufs. by apply bound_except_set. }
  intros _ w2 s2 [Hw2 Hb2]. by apply wp_ret.
Qed.

Lemma recv_handler_wp id data w s :
  rtsp_inv w ->
  wp (rtsp_recv_handler id data)
    (fun _ w' _ => rtsp_inv w' /\ next_unit (client_data id w') = UMore) w s.
Proof.
  intros Hinv. unfold rtsp_recv_handler. apply wp_bind.
  eapply wp_mono; [by apply recv_append_wp|]. intros ok w1 s1 (Hw1 & Hb1 & Hno).
  destruct ok; cbn [negb].
  2: { apply wp_ret. destruct (Hno eq_refl) as [? ->]. done. }
  apply wp_bind, wp_get. destruct (16384 <? _) eqn:E; bool_hyps.
  - eapply wp_mono; [by apply destructor_wp|]. intros _ w2 s2 (Hw2 & Hc & _).
    pose proof (bufs_without id w1 w2 Hc) as Hbw. rewrite (client_data_without id w1 w2 Hbw).
    split; [|done]. split; [done|]. rewrite Hbw. by apply bound_without.
  - apply (recv_loop_wp _ _ (client_data id w1)); [done|lia|done].
Qed.
End receive.

(** ** The other events *)
Section events.
Context `{V : Env}.

Lemma keeps_inv {A} (m : M world A) w s :
  keeps m -> rtsp_inv w -> wp m (fun _ w' _ => rtsp_inv w') w s.
Proof.
  intros Hm [Hw Hb]. eapply wp_mono; [by apply Hm|]. intros a w' s' (Hw' & Hbufs & _).
  split; [done|]. by rewrite Hbufs.
Qed.

Lemma destructor_inv id w s :
  rtsp_inv w -> wp (client_destructor id) (fun _ w' _ => rtsp_inv w') w s.
Proof.
  intros [Hw Hb]. eapply wp_mono; [by apply destructor_wp|]. intros _ w2 s2 (Hw2 & Hc & _).
  split; [done|]. rewrite (bufs_without id w w2 Hc). apply bound_without.
  eapply Forall_impl; [|exact Hb]. done.
Qed.

Lemma close_inv id w s :
  rtsp_inv w -> wp (rtsp_close_handler id) (fun _ w' _ => rtsp_inv w') w s.
Proof.
  intros Hw. unfold rtsp_close_handler. apply wp_bind. unfold wp at 1, client_get.
  apply wp_bind. eapply wp_mono.
  { apply (keeps_inv (if playing (client_of id w)
      then upd id (set_c_state RTSP_IDLE) ;; maybe_stop_media else mret tt)); [keeps_steps|done]. }
  intros ? w1 s1 Hw1. by apply destructor_inv.
Qed.

Lemma client_new_wf tc peer : client_wf (set_c_timeout (Some SESSION_TIMEOUT) (client_new tc peer)).
Proof.
  constructor; unfold track_wf, track_reachable, session_id_ok; cbn; solve [done | lia | by left].
Qed.

Lemma client_start_inv tc peer w s :
  rtsp_inv w -> tc ∉ map c_tc (clients w) ->
  wp (client_start tc peer) (fun _ w' _ => rtsp_inv w') w s.
Proof.
  intros [Hw Hb] Htc. apply wp_modify. split.
  - destruct Hw. constructor; cbn; try done.
    + rewrite map_app. apply list.NoDup_app. split; [done|]. split; [|apply list.NoDup_singleton].
      intros x Hx Hin. cbn in Hin. apply list_elem_of_singleton in Hin as ->. done.
    + apply Forall_app. split; [done|]. constructor; [apply client_new_wf|done].
  - unfold bufs in *. cbn. rewrite map_app. apply Forall_app. split; [done|by repeat constructor].
Qed.

Lemma conn_inv tc peer w s :
  rtsp_inv w -> tc ∉ map c_tc (clients w) ->
  wp (rtsp_conn_handler tc peer) (fun _ w' _ => rtsp_inv w') w s.
Proof.
  intros Hw Htc. unfold rtsp_conn_handler. apply wp_bind, wp_lift, iwp_ask.
  destruct (_ =? 0); [by apply wp_lift, iwp_emit|]. apply wp_bind, wp_lift, iwp_ask.
  destruct (negb _); [by apply wp_ret|]. by apply client_start_inv.
Qed.

Lemma relay_conn_inv tc peer w s :
  rtsp_inv w -> tc ∉ map c_tc (clients w) ->
  wp (rtsp_accept_relay_conn tc peer) (fun _ w' _ => rtsp_inv w') w s.
Proof.
  intros Hw Htc. unfold rtsp_accept_relay_conn. apply wp_bind, wp_lift, iwp_ask.
  destruct (_ =? 0); [by apply wp_lift, iwp_emit|]. by apply client_start_inv.
Qed.

Lemma audio_timer_inv w s :
  rtsp_inv w -> g_tmr_audio (w_rtsp w) <> None ->
  wp audio_send_timer (fun _ w' _ => rtsp_inv w') w s.
Proof.
  intros [Hw Hb] Ht. unfold audio_send_timer. apply wp_bind, wp_modify.
  set (w1 := set_w_rtsp _ w).
  assert (ok_step w w1) as (Hw1 & Hb1 & _).
  { apply ok_rtsp; cbn; try apply Hw; [done|].
    destruct (rw_timers _ Hw) as [[? _]|(?&?&?)]; [done|right; done]. }
  apply keeps_inv; [|split; [done|by rewrite Hb1]]. keeps_steps; apply keeps_on_ain; intros d s'.
  apply iwp_ret. cbn. unfold drain_excess. destruct (_ <? _); [|done]. by rewrite drain_loop_opened.
Qed.

Lemma video_timer_inv w s :
  rtsp_inv w -> g_tmr_video (w_rtsp w) <> None ->
  wp video_send_timer (fun _ w' _ => rtsp_inv w') w s.
Proof.
  intros [Hw Hb] Ht. unfold video_send_timer. apply wp_bind, wp_modify.
  set (w1 := set_w_rtsp _ w).
  assert (ok_step w w1) as (Hw1 & Hb1 & _).
  { apply ok_rtsp; cbn; try apply Hw; [done|].
    destruct (rw_timers _ Hw) as [[_ ?]|(?&?&?)]; [done|right; done]. }
  apply keeps_inv; [|split; [done|by rewrite Hb1]]. keeps_steps.
Qed.
End events.

(** ** The step relation *)
Section steps.
Context `{V : Env}.

(** Run a handler from one state of the process to the next. *)
Definition runs {A} (m : M world A) (x y : world * sys) : Prop :=
  (snd (fst (m x.1 x.2)), snd (m x.1 x.2)) = y.

Inductive rtsp_step : world * sys -> world * sys -> Prop :=
  | step_conn tc peer x y :
      tc ∉ map c_tc (clients x.1) -> runs (rtsp_conn_handler tc peer) x y -> rtsp_step x y
  | step_relay tc peer x y :
      tc ∉ map c_tc (clients x.1) -> runs (rtsp_accept_relay_conn tc peer) x y -> rtsp_step x y
  | step_recv id data x y : runs (rtsp_recv_handler id data) x y -> rtsp_step x y
  | step_close id x y : runs (rtsp_close_handler id) x y -> rtsp_step x y
  | step_timeout id x y : runs (session_timeout_handler id) x y -> rtsp_step x y
  | step_audio x y :
      g_tmr_audio (w_rtsp x.1) <> None -> runs audio_send_timer x y -> rtsp_step x y
  | step_video x y :
      g_tmr_video (w_rtsp x.1) <> None -> runs video_send_timer x y -> rtsp_step x y
  | step_capture data x y :
      runs (on_ain (fun d => d' ← wave_in_proc d data; mret (tt, d'))) x y -> rtsp_step x y
  | step_played i x y :
      runs (on_aout (fun d => mret (tt, wave_out_done d i))) x y -> rtsp_step x y.

Lemma runs_wp {A} (m : M world A) (P : world -> Prop) x y :
  wp m (fun _ w' _ => P w') x.1 x.2 -> runs m x y -> P y.1.
Proof. unfold wp, runs. destruct (m x.1 x.2) as [[a w'] s']. by intros HP <-. Qed.

Lemma enqueue_opened d data s :
  iwp (enqueue_to_ring d data) (fun d' _ => ai_opened d' = ai_opened d) s.
Proof.
  revert d s. induction data as [|x data IH]; intros d s; cbn [enqueue_to_ring]; [by apply iwp_ret|].
  apply iwp_bind. unfold enqueue_sample, ring_drop_oldest.
  wp_steps; (eapply iwp_mono; [apply IH|]; by intros ? ? ->).
Qed.

Lemma capture_keeps data : keeps (on_ain (fun d => d' ← wave_in_proc d data; mret (tt, d'))).
Proof.
  apply keeps_on_ain. intros d s. apply iwp_bind. unfold wave_in_proc. apply iwp_bind.
  eapply (iwp_mono _ (fun d' _ => ai_opened d' = ai_opened d)).
  { destruct data; [by apply iwp_ret|apply enqueue_opened]. }
  intros d' s' Hd. apply iwp_bind. destruct (ai_opened d') eqn:E; [apply iwp_emit|apply iwp_ret];
    do 2 apply iwp_ret; cbn; congruence.
Qed.

Lemma step_inv `{!Md5Spec V} x y : rtsp_step x y -> rtsp_inv x.1 -> rtsp_inv y.1.
Proof.
  intros Hstep Hinv. destruct Hstep as [tc peer x y Htc Hr|tc peer x y Htc Hr|id data x y Hr|id x y Hr
    |id x y Hr|x y Ht Hr|x y Ht Hr|data x y Hr|i x y Hr]; revert Hr; apply runs_wp.
  - by apply conn_inv.
  - by apply relay_conn_inv.
  - eapply wp_mono; [by apply recv_handler_wp|]. by intros ? ? ? [? _].
  - by apply close_inv.
  - by apply close_inv.
  - by apply audio_timer_inv.
  - by apply video_timer_inv.
  - apply keeps_inv; [apply capture_keeps|done].
  - apply keeps_inv; [apply keeps_on_aout|done].
Qed.

Lemma init_inv def w s :
  camera_wf (w_cam w) -> auth_wf (w_auth w) ->
  wp (rtsp_server_init def) (fun _ w' _ => rtsp_inv w') w s.
Proof.
  intros Hc Ha. unfold rtsp_server_init. apply wp_bind, wp_modify, wp_bind, wp_lift, iwp_ask.
  assert (forall ip port on, (length ip <= 63)%nat ->
    rtsp_inv (World (Rtsp on [] None None false 0 port ip false) (w_cam w) (w_ain w) (w_aout w) (w_auth w)))
    as Hi.
  { intros ip port on Hip. split; [|constructor].
    constructor; cbn; solve [done | lia | by left | apply NoDup_nil_2 | constructor]. }
  destruct (negb _); [apply wp_ret; by apply (Hi [] 0 false ltac:(cbn; lia))|].
  apply wp_bind, wp_lift, iwp_ask. apply wp_bind, wp_modify, wp_ret. apply Hi.
  destruct def; [apply (re_snprintf_bound 64)|]. unfold str_ncpy. len_lia.
Qed.
End steps.

(** ** Theorems *)

(** C1. Invariant of the RTSP server: in every state reachable from its
    initialisation by any sequence of connections, received bytes, closed
    connections, timeouts, timer ticks and audio callbacks, and whatever the
    operating system answers, the state is well-formed: connections are
    distinct; every session that is ready or playing has an eight-digit
    identifier and a track that can be sent on; RTP counters, channels and
    ports keep their widths; every client's inactivity timeout is running; the
    two media timers run together and only with the camera open; no client
    holds more than 16 KB of unprocessed data. *)
Theorem rtsp_invariant `{V : Env} `{!Md5Spec V} (def : option sa) (w0 w : world) (s0 s : sys) :
  camera_wf (w_cam w0) -> auth_wf (w_auth w0) ->
  rtc rtsp_step (snd (fst (rtsp_server_init def w0 s0)), snd (rtsp_server_init def w0 s0)) (w, s) ->
  rtsp_inv w.
Proof.
  intros Hc Ha Hsteps. change w with ((w, s).1).
  assert (rtsp_inv (snd (fst (rtsp_server_init def w0 s0)), snd (rtsp_server_init def w0 s0)).1) as H0.
  { pose proof (init_inv def w0 s0 Hc Ha) as Hi. unfold wp in Hi.
    by destruct (rtsp_server_init def w0 s0) as [[??]?]. }
  induction Hsteps as [x|x y z Hstep _ IH]; [done|]. apply IH. by eapply step_inv.
Qed.

Lemma rtsp_invariant_witness :
  rtsp_inv (snd (fst (@rtsp_recv_handler good_env 7 play_request
    (snd (fst (@rtsp_conn_handler good_env 7 sa_zero
       (snd (fst (@rtsp_server_init good_env None (demo_world [] demo_auth) (Sys 0 [])))) (Sys 2 []))))
    (Sys 4 [])))).
Proof.
  apply (@rtsp_invariant good_env good_env_md5 None (demo_world [] demo_auth) _ (Sys 0 [])
    (snd (@rtsp_recv_handler good_env 7 play_request
    (snd (fst (@rtsp_conn_handler good_env 7 sa_zero
       (snd (fst (@rtsp_server_init good_env None (demo_world [] demo_auth) (Sys 0 [])))) (Sys 2 []))))
    (Sys 4 [])))).
  - exact camera_zero_wf.
  - exact demo_auth_wf.
  - eapply rtc_l; [apply (step_conn 7 sa_zero); [|reflexivity]|].
    { vm_compute. intros H. inversion H. }
    eapply rtc_l; [apply (step_recv 7 play_request); reflexivity|]. apply rtc_refl.
Defined.

(** C8. The receive path makes progress and finishes: after a delivery the
    client has been freed or its buffer holds no complete request or frame any
    more, so a complete request never waits for the next delivery. *)
Theorem recv_drains `{V : Env} `{!Md5Spec V} (id : nat) (data : bytes) (w : world) (s : sys) :
  rtsp_inv w ->
  next_unit (client_data id (snd (fst (rtsp_recv_handler id data w s)))) = UMore.
Proof.
  intros Hw. pose proof (recv_handler_wp id data w s Hw) as H. unfold wp in H.
  destruct (rtsp_recv_handler id data w s) as [[??]?]. apply H.
Qed.

Lemma recv_drains_witness :
  next_unit (client_data 7 (snd (fst (@rtsp_recv_handler good_env 7 (play_request ++ cstr "OPT")
    (demo_world [set_c_timeout (Some SESSION_TIMEOUT) (client_new 7 sa_zero)] demo_auth) (Sys 0 []))))) = UMore.
Proof.
  apply (@recv_drains good_env good_env_md5). split.
  - constructor.
    + apply list.NoDup_singleton.
    + constructor; [apply client_new_wf|constructor].
    + left. done.
    + cbn. lia.
    + cbn. lia.
    + exact camera_zero_wf.
    + discriminate.
    + discriminate.
    + exact demo_auth_wf.
  - repeat constructor.
Defined.
