(* ===== verification/RtspRecv.v ===== *)
(** * What the RTSP server does with a byte stream

    TCP delivers what a client sends in chunks of any size.  This file relates
    [rtsp_recv_handler] ([rtsp_server.c], lines 972 to 1071), called once per
    chunk, to the messages of the stream: which requests and interleaved frames
    are passed to the handlers, in which order, and what stays in the buffer. *)
From S2P Require Import Prelude Sys Fmt Mbuf Rtp H264 G711 AudioIn AudioOut Base64 Camera.
From S2P Require Import RtspAuth RtspParse RtspState RtspServer RtspReply RtspAccess RtspInv RtspSteps.

(** ** Messages of a stream *)

(** The bytes of one request or of one frame, and nothing more. *)
Definition complete (m : bytes) : Prop := next_unit m <> UMore /\ unit_size (next_unit m) = length m.

(** A stream cut into its messages, and an incomplete rest. *)
Definition cut (stream : bytes) (ms : list bytes) (rest : bytes) : Prop :=
  stream = concat ms ++ rest /\ Forall complete ms /\ next_unit rest = UMore.

Lemma complete_app m r : complete m -> next_unit (m ++ r) = next_unit m.
Proof. intros [H _]. by apply next_unit_app. Qed.

Lemma complete_pos m : complete m -> (4 <= length m)%nat.
Proof. intros [H1 H2]. destruct (next_unit_size m) as [|H]; [done|lia]. Qed.

Lemma find_sub_end n x : exists i, find_sub n (x ++ n) = Some i.
Proof.
  assert (prefixb n n = true) as Hn by (apply prefixb_spec; exists []; by rewrite app_nil_r).
  induction x as [|c x [i IH]]; cbn [app find_sub].
  - destruct n as [|c n]; [by exists 0%nat|]. cbn [find_sub]. rewrite Hn. by eexists.
  - destruct (prefixb n (c :: x ++ n)); [by eexists|]. rewrite IH. by eexists.
Qed.

Lemma cstring_take n l : cstring (take n l) = take n (cstring l).
Proof.
  revert n. induction l as [|c l IH]; intros [|n]; cbn [take cstring]; [done..|].
  destruct (c =? 0); [done|]. cbn [take]. by rewrite IH.
Qed.

Lemma next_unit_cons data d0 t :
  data = d0 :: t ->
  next_unit data =
    if d0 =? chr "$" then
      if (length data <? 4)%nat then UMore
      else if (length data <? 4 + frame_length data)%nat then UMore
      else UFrame (nth 1 data 0) (take (frame_length data) (drop 4 data)) (4 + frame_length data)
    else match strstr data (cstr "\r\n\r\n") with None => UMore | Some eor => URequest (eor + 4) end.
Proof. by intros ->. Qed.

(** The front of the buffer, as a message. *)
Lemma complete_take data :
  next_unit data <> UMore ->
  let n := unit_size (next_unit data) in
  complete (take n data) /\ next_unit (take n data) = next_unit data /\ (4 <= n <= length data)%nat.
Proof.
  intros Hu n. pose proof (next_unit_size data) as [|Hs]; [done|]. fold n in Hs.
  assert (next_unit (take n data) <> UMore) as Hm.
  { unfold n in *. clear n. destruct data as [|d0 t]; [done|]. remember (d0 :: t) as data eqn:Et.
    assert (forall j, take (4 + j) data = d0 :: take (3 + j) t) as Ht by (intros j; by rewrite Et).
    rewrite (next_unit_cons data d0 t Et) in *. destruct (d0 =? chr "$") eqn:Ed.
    - destruct (length data <? 4)%nat eqn:E1; [done|].
      destruct (length data <? 4 + frame_length data)%nat eqn:E2; [done|]. bool_hyps.
      cbn [unit_size] in *. remember (frame_length data) as k eqn:Ek.
      rewrite (next_unit_cons _ _ _ (Ht k)), Ed.
      assert (frame_length (take (4 + k) data) = k) as ->.
      { rewrite Ek, Et. rewrite Et in E1. clear. unfold frame_length. by destruct t as [|t1 [|t2 [|t3 t]]]. }
      assert (length (take (4 + k) data) = 4 + k)%nat as -> by len_lia.
      destruct (_ <? 4)%nat eqn:E3; bool_hyps; [lia|]. by rewrite Nat.ltb_irrefl.
    - destruct (strstr data _) as [i|] eqn:E; [|done]. cbn [unit_size] in *. unfold strstr in *.
      destruct (find_sub_Some _ _ _ E) as (k & Hk & Hl & _).
      change (length (cstr "\r\n\r\n")) with 4%nat in Hl.
      assert (cstring (take (i + 4) data) = take i (cstring data) ++ cstr "\r\n\r\n") as Hc.
      { rewrite cstring_take. rewrite Hk at 1. rewrite take_app.
        replace (length (take i (cstring data))) with i by len_lia.
        rewrite take_ge by len_lia. f_equal. replace (i + 4 - i)%nat with 4%nat by lia. done. }
      destruct (find_sub_end (cstr "\r\n\r\n") (take i (cstring data))) as [j Hj].
      rewrite <- Hc in Hj. rewrite (Nat.add_comm i 4) in *.
      rewrite (next_unit_cons _ _ _ (Ht i)), Ed. unfold strstr. by rewrite Hj. }
  assert (next_unit (take n data) = next_unit data) as E.
  { pose proof (next_unit_app (take n data) (drop n data) Hm) as H. by rewrite take_drop in H. }
  split; [|done]. split; [done|]. rewrite E. fold n. len_lia.
Qed.

(** A stream has one cut, so the messages do not depend on the chunks. *)
Lemma cut_unique stream ms r ms' r' : cut stream ms r -> cut stream ms' r' -> ms = ms' /\ r = r'.
Proof.
  intros (E & F & Hr) (E' & F' & Hr'). rewrite E in E'. clear E stream.
  revert ms' F' E'. induction F as [|m ms Hm F IH]; intros ms' F' E'.
  - destruct F' as [|m' ms' Hm' F']; [done|]. cbn [concat app] in E'. rewrite <- app_assoc in E'.
    rewrite E', complete_app in Hr by done. by destruct Hm'.
  - cbn [concat] in E'. rewrite <- app_assoc in E'. destruct F' as [|m' ms' Hm' F'].
    { cbn [concat app] in E'. rewrite <- E', complete_app in Hr' by done. by destruct Hm. }
    cbn [concat] in E'. rewrite <- app_assoc in E'.
    assert (length m = length m') as Hl.
    { destruct Hm as [A1 A2], Hm' as [B1 B2]. rewrite <- A2, <- B2.
      rewrite <- (next_unit_app m (concat ms ++ r)), <- (next_unit_app m' (concat ms' ++ r')) by done.
      by rewrite E'. }
    apply app_inj_1 in E' as [-> E']; [|done]. by destruct (IH _ F' E') as [-> ->].
Qed.

(** ** Handled messages *)

(** The world without the receive buffer of a client. *)
Definition no_buf (id : nat) (w : world) : world :=
  set_w_rtsp (set_g_clients (upd_clients id (set_c_rbuf None) (clients w)) (w_rtsp w)) w.

(** How the server's dealings with a connection end. *)
Inductive ending := Open | Teardown | Overflow.

(** [handled id ms e]: the messages [ms] are passed to their handlers, in this
    order, each once; nothing else happens but work on the receive buffer.  A
    request is read from the buffer, in which the data received after it
    follows. *)
Inductive handled `{V : Env} (id : nat) :
    list bytes -> ending -> world -> sys -> world -> sys -> Prop :=
| h_done w s : handled id [] Open w s w s
| h_buffer ms e w s w1 s1 w2 s2 :
    no_buf id w1 = no_buf id w -> out s1 = out s ->
    handled id ms e w1 s1 w2 s2 -> handled id ms e w s w2 s2
| h_frame m ch rtp ms e w s w1 s1 w2 s2 :
    next_unit m = UFrame ch rtp (length m) ->
    handle_interleaved id ch rtp w s = (tt, w1, s1) ->
    handled id ms e w1 s1 w2 s2 -> handled id (m :: ms) e w s w2 s2
| h_request m after ms e w s w1 s1 w2 s2 :
    next_unit m = URequest (length m) ->
    dispatch_rtsp id (cstring (m ++ after)) (length m) w s = (false, w1, s1) ->
    handled id ms e w1 s1 w2 s2 -> handled id (m :: ms) e w s w2 s2
| h_teardown m after w s w1 s1 :
    next_unit m = URequest (length m) ->
    dispatch_rtsp id (cstring (m ++ after)) (length m) w s = (true, w1, s1) ->
    handled id [m] Teardown w s w1 s1
| h_overflow w s w1 s1 :
    16384 < zlen (client_data id w) -> client_destructor id w s = (tt, w1, s1) ->
    handled id [] Overflow w s w1 s1.

(** The chunks of a connection, until the client is freed. *)
Definition alive (id : nat) (w : world) : bool := existsb (fun c => (c_tc c =? id)%nat) (clients w).
Fixpoint deliver `{V : Env} (id : nat) (chunks : list bytes) : M world unit :=
  match chunks with
  | [] => mret tt
  | d :: ds => rtsp_recv_handler id d ;;
               w ← get; if alive id w then deliver id ds else mret tt
  end.

(** ** Lemmas: work on the buffer *)
Lemma wp_eq {W A} (m : M W A) (Q : A -> W -> sys -> Prop) w s :
  wp m Q w s -> wp m (fun a w' s' => m w s = (a, w', s') /\ Q a w' s') w s.
Proof. unfold wp. by destruct (m w s) as [[??]?]. Qed.
Lemma wp_and {W A} (m : M W A) (P Q : A -> W -> sys -> Prop) w s :
  wp m P w s -> wp m Q w s -> wp m (fun a w' s' => P a w' s' /\ Q a w' s') w s.
Proof. unfold wp. by destruct (m w s) as [[??]?]. Qed.

(** Only the receive buffer of [id] changes, and nothing is put out. *)
Definition quiet {A} (id : nat) (m : M world A) : Prop :=
  forall w s, wp m (fun _ w' s' => no_buf id w' = no_buf id w /\ out s' = out s) w s.

Lemma quiet_ret {A} id (a : A) : quiet id (mret a).
Proof. by intros w s. Qed.
Lemma quiet_bind {A B} id (m : M world A) (f : A -> M world B) :
  quiet id m -> (forall a, quiet id (f a)) -> quiet id (m ≫= f).
Proof.
  intros Hm Hf w s. apply wp_bind. eapply wp_mono; [apply Hm|]. intros a w1 s1 [H1 H2].
  eapply wp_mono; [apply Hf|]. cbn. intros b w2 s2 [H3 H4]. split; congruence.
Qed.
Lemma quiet_get id : quiet id (client_get id).
Proof. by intros w s. Qed.
Lemma quiet_upd id (o : option mbuf -> option mbuf) :
  quiet id (upd id (fun c => set_c_rbuf (o (c_rbuf c)) c)).
Proof.
  intros w s. apply wp_modify. split; [|done].
  assert (forall l, upd_clients id (set_c_rbuf None)
    (upd_clients id (fun c => set_c_rbuf (o (c_rbuf c)) c) l) = upd_clients id (set_c_rbuf None) l) as E.
  { intros l. unfold upd_clients. rewrite map_map. apply map_ext. intros c.
    destruct (c_tc c =? id)%nat eqn:E; cbn; by rewrite E. }
  unfold no_buf. by rewrite <- (E (clients w)).
Qed.
Lemma quiet_set id mb : quiet id (upd id (set_c_rbuf (Some mb))).
Proof. exact (quiet_upd id (fun _ => Some mb)). Qed.
Lemma quiet_lift {A} id (m : IO A) : (forall s, iwp m (fun _ s' => out s' = out s) s) -> quiet id (lift m).
Proof. intros Hm w s. apply wp_lift. eapply iwp_mono; [apply Hm|]. done. Qed.

Section quiet.
Context `{V : Env}.

Lemma consume_quiet id n : quiet id (consume id n).
Proof. apply (quiet_upd id (fmap (rbuf_consume n))). Qed.

Lemma ensure_terminator_quiet id : quiet id (ensure_terminator id).
Proof.
  unfold ensure_terminator. apply quiet_bind; [apply quiet_get|]. intros c.
  destruct (c_rbuf c) as [mb|]; [|apply quiet_ret]. destruct (_ <=? _)%nat; [|apply quiet_ret].
  apply quiet_bind; [|intros [? ?]; apply quiet_set]. apply quiet_lift. intros s.
  unfold mbuf_resize. apply iwp_bind, iwp_ask, iwp_ret. done.
Qed.

Lemma recv_append_quiet id data w s :
  rtsp_wf w ->
  wp (recv_append id data) (fun _ w' s' => no_buf id w' = no_buf id w /\ out s' = out s) w s.
Proof.
  intros Hw. unfold recv_append. apply wp_bind. unfold wp at 1, client_get. apply wp_bind.
  eapply (wp_mono _ (fun mbo w' s' => w' = w /\ out s' = out s /\
    match mbo with Some mb => (mb_end mb <= mb_size mb)%nat | None => True end)).
  { rewrite client_rbuf_bufs. destruct (buf_of id (bufs w)) as [mb|] eqn:Eb.
    - apply wp_ret. split; [done|split; [done|]]. by eapply buf_of_ok.
    - apply wp_lift. eapply iwp_mono; [apply mbuf_alloc_spec|]. intros [mb|] s' [Ho Hm]; [|done].
      split; [done|split; [done|]]. by destruct Hm as [(_ & _ & ?) _]. }
  intros [mb|] w0 s0 (-> & Ho & Hm); [|by apply wp_ret]. apply wp_bind, wp_lift.
  eapply iwp_mono; [by apply (mbuf_write_mem_spec _ (rbuf_data mb))|].
  intros [e mb'] s1 [Ho1 _]. apply wp_bind. eapply wp_mono; [apply quiet_set|].
  intros _ w2 s2 [H1 H2]. apply wp_ret. split; congruence.
Qed.
End quiet.

Lemma bufs_alive id w : alive id w = existsb (fun p => (p.1 =? id)%nat) (bufs w).
Proof. unfold alive, bufs. by induction (clients w) as [|c l IH]; cbn; [|rewrite IH]. Qed.

Lemma alive_bufs id w w' : map fst (bufs w') = map fst (bufs w) -> alive id w' = alive id w.
Proof.
  rewrite !bufs_alive. generalize (bufs w). induction (bufs w') as [|p l IH]; intros [|q l']; try done.
  cbn. intros [= -> E]. by rewrite (IH l').
Qed.

Lemma no_buf_alive id w w' : no_buf id w' = no_buf id w -> alive id w' = alive id w.
Proof.
  assert (forall w, alive id (no_buf id w) = alive id w) as H.
  { intros x. unfold alive, no_buf, upd_clients. cbn. induction (clients x) as [|c l IH]; [done|].
    cbn. rewrite IH. by destruct (c_tc c =? id)%nat eqn:E; cbn; rewrite E. }
  intros E. by rewrite <- H, E, H.
Qed.

Lemma set_buf_fst id o l : map fst (set_buf id o l) = map fst l.
Proof. unfold set_buf. rewrite map_map. apply map_ext. intros [k b]. cbn. by destruct (k =? id)%nat. Qed.

Lemma buf_of_set_alive id o l :
  existsb (fun p => (p.1 =? id)%nat) l = true -> buf_of id (set_buf id (fun _ => o) l) = o.
Proof.
  unfold buf_of, set_buf. induction l as [|[k b] l IH]; [done|]. cbn.
  destruct (k =? id)%nat eqn:E; cbn; rewrite E; [done|exact IH].
Qed.

Lemma without_dead id w w' : bufs w' = without id (bufs w) -> alive id w' = false.
Proof.
  intros E. rewrite bufs_alive, E. unfold without. clear E. induction (bufs w) as [|p l IH]; [done|].
  cbn. destruct (p.1 =? id)%nat eqn:Ep; cbn; [done|]. by rewrite Ep.
Qed.

(** ** Lemmas: the receive loop *)
Section loop.
Context `{V : Env} `{!Md5Spec V}.

(** What a delivery left, as far as the stream is concerned. *)
Definition settled (id : nat) (data : bytes) (ms : list bytes) (e : ending) (w' : world) : Prop :=
  match e with
  | Open => cut data ms (client_data id w')
  | Teardown => Forall complete ms /\ exists rest, data = concat ms ++ rest
  | Overflow => ms = [] /\ 16384 < zlen data
  end /\ alive id w' = (if e is Open then true else false).

Lemma settled_cons id m data ms e w' :
  complete m -> e <> Overflow -> settled id data ms e w' -> settled id (m ++ data) (m :: ms) e w'.
Proof.
  intros Hm He [H1 H2]. split; [|done]. destruct e; [| |done].
  - destruct H1 as (-> & F & Hr). split; [cbn; by rewrite app_assoc|]. split; [by constructor|done].
  - destruct H1 as (F & r & ->). split; [by constructor|]. exists r. cbn. by rewrite app_assoc.
Qed.

Lemma recv_loop_handled fuel id data w s :
  recv_ok id data w -> alive id w = true -> (length data <= fuel)%nat ->
  wp (recv_loop fuel id) (fun _ w' s' => exists ms e,
    handled id ms e w s w' s' /\ e <> Overflow /\ settled id data ms e w') w s.
Proof.
  assert (forall data w s, recv_ok id data w -> alive id w = true -> next_unit data = UMore ->
    exists ms e, handled id ms e w s w s /\ e <> Overflow /\ settled id data ms e w) as Hend.
  { intros d w0 s0 (_ & _ & <-) Ha Hu. exists [], Open. split; [constructor|]. split; [done|]. by split. }
  revert data w s. induction fuel as [|fuel IH]; intros data w s Hok Ha Hf; cbn [recv_loop].
  { destruct data; [|cbn in Hf; lia]. apply wp_ret. by apply Hend. }
  apply wp_bind, wp_get. pose proof Hok as (_ & _ & Hd). rewrite Hd.
  destruct data as [|d0 t]; [apply wp_ret; by apply Hend|]. set (data := d0 :: t) in *.
  apply wp_bind. eapply (wp_mono _ (fun _ w1 s1 => recv_ok id data w1
    /\ no_buf id w1 = no_buf id w /\ out s1 = out s)).
  { destruct (d0 =? chr "$"); [by apply wp_ret|].
    apply wp_and; [by apply ensure_terminator_wp|apply ensure_terminator_quiet]. }
  intros _ w1 s1 (Hok1 & Hq1 & Ho1). pose proof (no_buf_alive _ _ _ Hq1) as Ha1. rewrite Ha in Ha1.
  assert (next_unit data = UMore \/ next_unit data <> UMore) as [Hm|Hm]
    by (destruct (next_unit data); [by right|by right|by left]).
  { rewrite Hm. apply wp_ret. destruct (Hend data w1 s1 Hok1 Ha1 Hm) as (ms & e & Hh & He & Hs).
    exists ms, e. split; [by eapply h_buffer|done]. }
  destruct (complete_take data Hm) as (Hc & Hu & Hl). cbv zeta in *.
  (* the message at the front is dealt with, and taken from the buffer *)
  assert (forall n w2 s2, n = unit_size (next_unit data) -> ok_step w1 w2 ->
    (forall ms e w3 s3, handled id ms e w2 s2 w3 s3 -> handled id (take n data :: ms) e w s w3 s3) ->
    wp (consume id n ;; recv_loop fuel id) (fun _ w' s' => exists ms e,
      handled id ms e w s w' s' /\ e <> Overflow /\ settled id data ms e w') w2 s2) as Hnext.
  { intros n w2 s2 Hn Hk Hh. subst n. pose proof Hk as (_ & Hb2 & _).
    apply wp_bind. eapply wp_mono; [apply wp_and; [|apply consume_quiet]|].
    { apply (consume_wp id data); [by eapply recv_ok_step|lia]. }
    intros _ w3 s3 (Hok3 & Hq3 & Ho3).
    assert (alive id w3 = true) as Ha3.
    { rewrite (no_buf_alive _ _ _ Hq3), (alive_bufs id w1 w2); [done|by rewrite Hb2]. }
    eapply wp_mono; [apply (IH _ _ _ Hok3 Ha3); len_lia|].
    intros _ w' s' (ms & e & Hh' & He & Hs). exists (take (unit_size (next_unit data)) data :: ms), e.
    split; [by eapply Hh, h_buffer|]. split; [done|].
    rewrite <- (take_drop (unit_size (next_unit data)) data) at 1. by apply settled_cons. }
  assert (length (take (unit_size (next_unit data)) data) = unit_size (next_unit data)) as Hlen by len_lia.
  destruct (next_unit data) as [ch rtp n|n|]; cbn [unit_size] in *; [| |done].
  - apply wp_bind. eapply wp_mono; [apply wp_eq, handle_interleaved_keeps, Hok1|].
    intros [] w2 s2 [Heq Hk]. apply Hnext; [done..|]. intros ms e w3 s3 Hh.
    eapply h_buffer; [done..|]. eapply h_frame; [by rewrite Hu, Hlen|done..].
  - assert (cstring data = cstring (take n data ++ drop n data)) as Hsp by by rewrite take_drop.
    apply wp_bind. eapply wp_mono; [apply wp_eq, dispatch_wp, Hok1|].
    intros freed w2 s2 (Heq & Hw2 & Hfr).
    rewrite Hsp in Heq. destruct freed.
    + apply wp_ret. exists [take n data], Teardown. split.
      { eapply h_buffer; [done..|]. eapply h_teardown; [by rewrite Hu, Hlen|]. rewrite Hlen. exact Heq. }
      split; [done|]. split; [|by eapply without_dead].
      split; [by constructor|]. exists (drop n data). cbn. by rewrite app_nil_r, take_drop.
    + apply Hnext; [done..|]. intros ms e w3 s3 Hh.
      eapply h_buffer; [done..|]. eapply h_request; [by rewrite Hu, Hlen|rewrite Hlen; exact Heq|done].
Qed.

Lemma recv_append_data id data w s :
  AllocOk V -> rtsp_inv w -> alive id w = true ->
  wp (recv_append id data) (fun ok w' s' => ok = true /\ recv_ok id (client_data id w ++ data) w') w s.
Proof.
  intros Hal Hinv Ha. pose proof Hinv as [Hw Hb].
  assert (bound_except id (bufs w)) as Hbe by (eapply Forall_impl; [|exact Hb]; done).
  unfold recv_append. apply wp_bind. unfold wp at 1, client_get. apply wp_bind.
  eapply (wp_mono _ (fun mbo w' _ => w' = w /\ match mbo with
    | Some mb => (mb_end mb <= mb_size mb)%nat /\ rbuf_data mb = client_data id w | None => False end)).
  { unfold client_data. rewrite client_rbuf_bufs. destruct (buf_of id (bufs w)) as [mb|] eqn:Eb.
    - apply wp_ret. split; [done|split; [|done]]. by eapply buf_of_ok.
    - apply wp_lift. eapply iwp_mono; [apply mbuf_alloc_spec|].
      intros [mb|] s' [_ Hm]; (split; [done|]); [|done]. destruct Hm as [(Hd & _ & ?) _]. done. }
  intros [mb|] w0 s0 [-> Hm]; [|done]. destruct Hm as [Hm Hd].
  apply wp_bind, wp_lift. eapply iwp_mono; [by apply (mbuf_write_mem_spec _ (rbuf_data mb))|].
  intros [e mb'] s1 [_ [(_ & (Hd' & _ & He') & _)|(_ & _ & Hno)]]; [|done].
  apply wp_bind. eapply wp_mono.
  { apply (wp_upd_rbuf id (fun _ => Some mb') w s1 (recv_ok id (client_data id w ++ data)));
      [done|done|]. intros w' Hw' Hbufs. split; [done|]. rewrite Hbufs.
    split; [by apply bound_except_set|]. unfold client_data at 1.
    rewrite client_rbuf_bufs, Hbufs, buf_of_set_alive by (by rewrite <- bufs_alive).
    rewrite <- Hd. exact Hd'. }
  intros u w2 s2 Hok. by apply wp_ret.
Qed.

(** One delivery. *)
Lemma recv_handler_handled id data w s :
  AllocOk V -> rtsp_inv w -> alive id w = true ->
  wp (rtsp_recv_handler id data) (fun _ w' s' => exists ms e,
    handled id ms e w s w' s' /\ settled id (client_data id w ++ data) ms e w') w s.
Proof.
  intros Hal Hinv Ha. pose proof Hinv as [Hw _]. unfold rtsp_recv_handler. apply wp_bind.
  eapply wp_mono; [apply wp_and; [by apply recv_append_data|by apply recv_append_quiet]|].
  intros ok w1 s1 ([Eok Hok] & Hq & Ho). subst ok. cbn [negb].
  pose proof (no_buf_alive _ _ _ Hq) as Ha1. rewrite Ha in Ha1.
  apply wp_bind, wp_get. pose proof Hok as (Hw1 & _ & Hd). rewrite Hd.
  destruct (16384 <? _) eqn:E; bool_hyps.
  - eapply wp_mono; [by apply wp_eq, destructor_wp|]. intros [] w2 s2 (Heq & Hw2 & Hc & _).
    exists [], Overflow. split.
    { eapply h_buffer; [done..|]. apply h_overflow; [by rewrite Hd|done]. }
    split; [done|]. by apply (without_dead id w1 w2), bufs_without.
  - eapply wp_mono; [by apply recv_loop_handled|]. intros _ w' s' (ms & e & Hh & _ & Hs).
    exists ms, e. split; [by eapply h_buffer|done].
Qed.

(** ** Lemmas: deliveries *)
Lemma handled_complete id ms e w s w' s' : handled id ms e w s w' s' -> Forall complete ms.
Proof.
  induction 1; try done; repeat constructor; auto; match goal with H : next_unit _ = _ |- _ => by rewrite H end.
Qed.

Lemma handled_app id ms1 ms2 e w s w1 s1 w2 s2 :
  handled id ms1 Open w s w1 s1 -> handled id ms2 e w1 s1 w2 s2 -> handled id (ms1 ++ ms2) e w s w2 s2.
Proof.
  remember Open as o eqn:Eo. intros H. revert Eo.
  induction H; intros Eo H2; try discriminate Eo; cbn [app]; auto;
    [eapply h_buffer|eapply h_frame|eapply h_request]; eauto.
Qed.
End loop.

(** ** Example: an OPTIONS request and a frame, cut in the middle of both *)
Definition options_request : bytes := cstr "OPTIONS rtsp://lock/live RTSP/1.0\r\nCSeq: 4\r\n\r\n".
Definition stream_world : world :=
  demo_world [set_c_timeout (Some SESSION_TIMEOUT) (client_new 7 sa_zero)] demo_auth.
Lemma stream_world_inv : rtsp_inv stream_world.
Proof.
  split; [|by repeat constructor]. constructor.
  - apply list.NoDup_singleton.
  - constructor; [apply client_new_wf|constructor].
  - by left.
  - cbn. lia.
  - cbn. lia.
  - exact camera_zero_wf.
  - discriminate.
  - discriminate.
  - exact demo_auth_wf.
Qed.

Definition stream_chunks : list bytes :=
  [take 20 options_request; drop 20 options_request ++ [36; 0; 0]; [3; 1; 2; 3; 80; 76]].
Lemma stream_result :
  let '(_, w', s') := @deliver good_env 7 stream_chunks stream_world (Sys 0 []) in
  alive 7 w' = true /\ client_data 7 w' = [80; 76] /\ length (out s') = 1%nat.
Proof. vm_compute. repeat split. Qed.
Lemma stream_cut :
  cut (client_data 7 stream_world ++ concat (take (length stream_chunks) stream_chunks))
    [options_request; [36; 0; 0; 3; 1; 2; 3]] [80; 76].
Proof. split; [by vm_compute|]. split; [|done]. repeat constructor; vm_compute; try discriminate; done. Qed.

(** ** Theorem *)

(** C9. The messages of a client's stream are all handled, in order and once,
    however TCP cuts the stream into chunks: after the chunks have been
    delivered, the requests and frames passed to [dispatch_rtsp] and to the
    handler of interleaved frames are the messages of the stream, and what is
    left of the stream is in the receive buffer, an incomplete message.  This
    goes on until a TEARDOWN frees the client, or until more than 16384 bytes
    are buffered after a delivery, which frees it at once.  (With memory
    available; the client's buffer holds no complete message to start with.) *)
Theorem recv_handles_stream `{V : Env} `{!Md5Spec V} (id : nat) (chunks : list bytes) (w : world) (s : sys) :
  AllocOk V -> rtsp_inv w -> alive id w = true -> next_unit (client_data id w) = UMore ->
  let '(_, w', s') := deliver id chunks w s in
  exists k ms e, handled id ms e w s w' s' /\
    let stream := client_data id w ++ concat (take k chunks) in
    match e with
    | Open => k = length chunks /\ alive id w' = true /\ cut stream ms (client_data id w')
    | Teardown => alive id w' = false /\ Forall complete ms /\ exists rest, stream = concat ms ++ rest
    | Overflow => alive id w' = false /\ Forall complete ms /\
                  exists rest, stream = concat ms ++ rest /\ 16384 < zlen rest
    end.
Proof.
  intros Hal. revert w s. induction chunks as [|d ds IH]; intros w s Hinv Ha Hu; cbn [deliver].
  { exists 0%nat, [], Open. split; [constructor|]. cbn [take concat length]. rewrite app_nil_r. done. }
  refine (_ : wp (rtsp_recv_handler id d ;; w ← get; if alive id w then deliver id ds else mret tt) _ w s).
  apply wp_bind. eapply wp_mono.
  { apply wp_and; [by apply recv_handler_wp|by apply recv_handler_handled]. }
  intros _ w1 s1 ([Hinv1 Hu1] & ms & e & Hh & Hs & Ha1). apply wp_bind, wp_get. rewrite Ha1.
  pose proof (handled_complete _ _ _ _ _ _ _ Hh) as Hf.
  destruct e; [|apply wp_ret; exists 1%nat; eexists _, _; split; [exact Hh|]; cbn [take concat]; rewrite app_nil_r..].
  - unfold wp. specialize (IH w1 s1 Hinv1 Ha1 Hu1).
    destruct (deliver id ds w1 s1) as [[[] w2] s2]. destruct IH as (k & ms2 & e2 & Hh2 & Hs2).
    exists (S k), (ms ++ ms2), e2. split; [by eapply handled_app|]. cbn [take concat length]. cbv zeta in *.
    rewrite app_assoc. destruct Hs as (-> & _ & _).
    destruct e2.
    + destruct Hs2 as (-> & Ha2 & E & F2 & Hr). split; [done|]. split; [done|].
      split; [by rewrite concat_app, <- !app_assoc, E|]. split; [by apply Forall_app|done].
    + destruct Hs2 as (Ha2 & F2 & r & E). split; [done|]. split; [by apply Forall_app|].
      exists r. by rewrite concat_app, <- !app_assoc, E.
    + destruct Hs2 as (Ha2 & F2 & r & E & Hr). split; [done|]. split; [by apply Forall_app|].
      exists r. split; [|done]. by rewrite concat_app, <- !app_assoc, E.
  - destruct Hs as (_ & r & E). by eauto.
  - destruct Hs as (-> & Hl). split; [done|]. split; [constructor|]. by eexists.
Qed.

Lemma recv_handles_stream_witness :
  let '(_, w', s') := @deliver good_env 7 stream_chunks stream_world (Sys 0 []) in
  @handled good_env 7 [options_request; [36; 0; 0; 3; 1; 2; 3]] Open stream_world (Sys 0 []) w' s'
  /\ client_data 7 w' = [80; 76] /\ length (out s') = 1%nat.
Proof.
  pose proof (@recv_handles_stream good_env good_env_md5 7 stream_chunks stream_world (Sys 0 [])
    good_env_alloc stream_world_inv eq_refl eq_refl) as H.
  pose proof stream_result as Hv.
  destruct (@deliver good_env 7 stream_chunks stream_world (Sys 0 [])) as [[[] w'] s'].
  destruct Hv as (Ha & Hd & Ho). split; [|by split].
  destruct H as (k & ms & e & Hh & Hs). cbv zeta in Hs.
  destruct e; [|destruct Hs as [Hs _]; rewrite Ha in Hs; discriminate Hs..].
  destruct Hs as (-> & _ & Hc). rewrite Hd in Hc.
  destruct (cut_unique _ _ _ _ _ Hc stream_cut) as [<- _]. exact Hh.
Defined.
