(* ===== verification/RtspMedia.v ===== *)
(** * The media timers of the RTSP server

    Who receives what on a tick of the audio and video timers, how long
    captured audio can wait, and when the media stops. *)
From S2P Require Import Prelude Sys Fmt Mbuf Rtp H264 G711 AudioIn AudioOut Base64 Camera.
From S2P Require Import RtspAuth RtspParse RtspState RtspServer RtspReply RtspAccess RtspInv.

(** ** Draining the microphone *)
Lemma drain_loop_spec f k d q :
  ring_abs d q -> 0 <= k <= zlen q -> (Z.to_nat k <= f)%nat ->
  ring_abs (drain_loop f k d) (drop (Z.to_nat k) q).
Proof.
  revert k d q. induction f as [|f IH]; intros k d q Hr Hk Hf; cbn [drain_loop].
  { replace (Z.to_nat k) with 0%nat by lia. done. }
  destruct (0 <? k) eqn:E; bool_hyps; [|replace (Z.to_nat k) with 0%nat by lia; done].
  change (Z.of_nat AUDIO_SAMPLES) with 160. set (n := if 160 <? k then 160 else k).
  assert (0 < n <= k) as Hn by (unfold n; destruct (160 <? k) eqn:E2; bool_hyps; lia).
  unfold audio_in_read. destruct (ring_read_spec d q (Z.to_nat n) Hr) as (d' & -> & Hd & _).
  destruct (take (Z.to_nat n) q) as [|x l] eqn:Et.
  { apply (f_equal length) in Et. rewrite length_take in Et. cbn in Et. lia. }
  assert (zlen (x :: l) = n) as -> by (rewrite <- Et, length_take; lia).
  replace (drop (Z.to_nat k) q) with (drop (Z.to_nat (k - n)) (drop (Z.to_nat n) q))
    by (rewrite drop_drop; f_equal; lia).
  apply IH; [done|rewrite length_drop; lia|lia].
Qed.

(** What is left of a backlog: the newest frame of a long one. *)
Definition newest (q : list Z) : list Z :=
  if 320 <? zlen q then drop (length q - AUDIO_SAMPLES) q else q.

Lemma drain_excess_abs d q : ring_abs d q -> ring_abs (drain_excess d) (newest q).
Proof.
  intros Hr. unfold drain_excess, newest. rewrite (ring_abs_available d q Hr).
  change (Z.of_nat AUDIO_SAMPLES * 2) with 320. destruct (320 <? zlen q) eqn:E; bool_hyps; [|done].
  replace (length q - AUDIO_SAMPLES)%nat with (Z.to_nat (zlen q - Z.of_nat AUDIO_SAMPLES)) by lia.
  apply drain_loop_spec; [done|unfold AUDIO_SAMPLES; lia|lia].
Qed.

(** Bounded audio latency: before a frame is read, a backlog of more than
    two frames (320 samples) is cut to the newest 160 samples in order; a
    smaller one is untouched.  So at most 40 ms of audio ever waits. *)
Theorem drain_excess_latency (d : audio_in) (q : list Z) :
  ring_abs d q ->
  exists q', ring_abs (drain_excess d) q' /\ zlen q' <= 320
    /\ q' = (if 320 <? zlen q then drop (length q - AUDIO_SAMPLES) q else q).
Proof.
  intros Hr. exists (newest q). split; [by apply drain_excess_abs|]. split; [|done]. unfold newest.
  destruct (320 <? zlen q) eqn:E; bool_hyps; [|done]. rewrite length_drop. unfold AUDIO_SAMPLES. lia.
Qed.

Lemma drain_excess_latency_witness :
  exists q', ring_abs (drain_excess audio_in_zero) q' /\ q' = [].
Proof.
  destruct (drain_excess_latency audio_in_zero []) as (q' & H1 & _ & H2).
  - exact ring_abs_zero.
  - exists q'. split; [exact H1|exact H2].
Defined.

(** ** A loop over the clients *)
Definition with_clients (l : list client) (w : world) : world :=
  set_w_rtsp (set_g_clients l (w_rtsp w)) w.

Lemma upd_clients_middle f pre c post :
  NoDup (map c_tc (pre ++ c :: post)) ->
  upd_clients (c_tc c) f (pre ++ c :: post) = pre ++ f c :: post
  /\ find_client (c_tc c) (pre ++ c :: post) = Some c.
Proof.
  intros Hn.
  assert (forall l, c_tc c ∉ map c_tc l -> upd_clients (c_tc c) f l = l) as Hid.
  { intros l. induction l as [|x l IH]; cbn; [done|]. rewrite not_elem_of_cons. intros [Hx Hl].
    destruct (c_tc x =? c_tc c)%nat eqn:E; bool_hyps; [congruence|]. f_equal. by apply IH. }
  rewrite map_app in Hn. apply list.NoDup_app in Hn as (_ & Hd & Hp). cbn in Hd, Hp.
  apply list.NoDup_cons in Hp as [Hc _].
  assert (c_tc c ∉ map c_tc pre) as Hpre.
  { intros Hin. apply (Hd _ Hin). by left. }
  split.
  - assert (upd_clients (c_tc c) f (pre ++ c :: post)
      = upd_clients (c_tc c) f pre ++ f c :: upd_clients (c_tc c) f post) as ->
      by (unfold upd_clients; rewrite map_app; cbn; by rewrite Nat.eqb_refl).
    by rewrite !Hid.
  - unfold find_client. clear Hd Hid. induction pre as [|x pre IH]; cbn; [by rewrite Nat.eqb_refl|].
    cbn in Hpre. apply not_elem_of_cons in Hpre as [Hx Hl].
    destruct (c_tc x =? c_tc c)%nat eqn:E; bool_hyps; [congruence|]. by apply IH.
Qed.

(** A loop whose body, for a client [c], replaces it by [eff c] and adds
    [evs c] to the trace does so for every client, in order. *)
Lemma forM_clients (body : nat -> M world unit) (eff : client -> client) (evs : client -> list event)
    (P : client -> Prop) (w : world) (s : sys) :
  (forall c, c_tc (eff c) = c_tc c) ->
  (forall c l w s, P c -> NoDup (map c_tc l) -> find_client (c_tc c) l = Some c -> clients w = l ->
     wp (body (c_tc c)) (fun _ w' s' => w' = with_clients (upd_clients (c_tc c) (fun _ => eff c) l) w
       /\ out s' = out s ++ evs c) w s) ->
  NoDup (map c_tc (clients w)) -> Forall P (clients w) ->
  wp (forM (map c_tc (clients w)) body) (fun _ w' s' => w' = with_clients (map eff (clients w)) w
    /\ out s' = out s ++ concat (map evs (clients w))) w s.
Proof.
  intros Htc Hbody.
  assert (forall post pre w s, NoDup (map c_tc (pre ++ post)) -> Forall P post -> clients w = pre ++ post ->
    wp (forM (map c_tc post) body) (fun _ w' s' => w' = with_clients (pre ++ map eff post) w
      /\ out s' = out s ++ concat (map evs post)) w s) as Hgen.
  { induction post as [|c post IH]; intros pre w0 s0 Hn HP Hc; cbn [map forM].
    - apply wp_ret. rewrite app_nil_r in *. split; [|by rewrite app_nil_r].
      unfold with_clients. rewrite <- Hc. destruct w0 as [[] ? ? ? ?]. done.
    - inversion HP as [|? ? Hp HP']; subst.
      destruct (upd_clients_middle (fun _ => eff c) pre c post Hn) as [Hu Hf].
      apply wp_bind. eapply wp_mono; [apply (Hbody c (pre ++ c :: post)); done|].
      intros _ w1 s1 [-> Ho1]. rewrite Hu. eapply wp_mono.
      { apply (IH (pre ++ [eff c])); [|done|by rewrite <- app_assoc].
        rewrite <- app_assoc. cbn. rewrite map_app in *. cbn in *. by rewrite Htc. }
      intros _ w2 s2 [-> Ho2]. split; [by rewrite <- app_assoc|].
      rewrite Ho2, Ho1. cbn. by rewrite <- app_assoc. }
  intros Hn HP. by apply (Hgen (clients w) []).
Qed.

Lemma with_clients_id w : with_clients (clients w) w = w.
Proof. by destruct w as [[] ? ? ? ?]. Qed.

Lemma upd_self id c l :
  NoDup (map c_tc l) -> find_client id l = Some c -> upd_clients id (fun _ => c) l = l.
Proof.
  intros Hn Hf. unfold upd_clients. rewrite <- (map_id l) at 2. apply map_ext_in. intros x Hx.
  destruct (c_tc x =? id)%nat eqn:E; bool_hyps; [|done].
  symmetry. by apply (find_client_unique id l).
Qed.

(** ** Audio *)
Definition hears (c : client) : bool := playing c && t_setup (c_audio c).
Definition sees (c : client) : bool := playing c && t_setup (c_video c).

(** The packet a client gets, and its state after. *)
Definition audio_packet (t : track) (pcmu : bytes) : bytes :=
  rtp_hdr_bytes (media_hdr false PT_PCMU (t_seq t) (t_ts t) (t_ssrc t)) ++ pcmu.
Definition audio_advance (c : client) : client :=
  let a := c_audio c in
  set_c_audio (set_t_ts (u32 (t_ts a + Z.of_nat AUDIO_SAMPLES)) (set_t_seq (u16 (t_seq a + 1)) a)) c.

Definition audio_events (pcmu : bytes) (c : client) : list event :=
  if hears c then track_event c (c_audio c) (audio_packet (c_audio c) pcmu) else [].
Definition audio_effect (c : client) : client := if hears c then audio_advance c else c.

Lemma upd_upd_const id (f g : client -> client) c l :
  find_client id l = Some c -> NoDup (map c_tc l) -> c_tc (g c) = c_tc c ->
  upd_clients id f (upd_clients id g l) = upd_clients id (fun _ => f (g c)) l.
Proof.
  intros Hf Hn Hg. unfold upd_clients. rewrite map_map. apply map_ext_in. intros x Hx.
  destruct (c_tc x =? id)%nat eqn:E; [|by rewrite E]. bool_hyps.
  rewrite (find_client_unique id l c x Hn Hf Hx E). apply find_client_In in Hf as [_ Hf].
  rewrite Hg, Hf, Nat.eqb_refl. done.
Qed.

Lemma client_of_find id w c : find_client id (clients w) = Some c -> client_of id w = c.
Proof. intros Hf. unfold client_of. by rewrite Hf. Qed.

Lemma send_audio_spec `{V : Env} id pcmu c w s :
  AllocOk V -> length pcmu = AUDIO_SAMPLES -> NoDup (map c_tc (clients w)) ->
  find_client id (clients w) = Some c ->
  wp (send_audio id pcmu) (fun _ w' s' =>
    w' = with_clients (upd_clients id (fun _ => audio_advance c) (clients w)) w
    /\ out s' = out s ++ track_event c (c_audio c) (audio_packet (c_audio c) pcmu)) w s.
Proof.
  intros Ha Hl Hn Hf. unfold send_audio. apply wp_bind, wp_lift. unfold iwp.
  destruct (mbuf_alloc_cases (12 + AUDIO_SAMPLES) s ltac:(lia))
    as (s1 & Ho & [[_ Hno]|(mb & -> & Hh & Hs)]); [by destruct Hno|].
  apply wp_bind. unfold wp at 1, client_get. rewrite (client_of_find _ _ _ Hf).
  apply wp_bind, wp_modify.
  destruct (build_single mb (media_hdr false PT_PCMU (t_seq (c_audio c)) (t_ts (c_audio c))
    (t_ssrc (c_audio c))) pcmu s1 Hh) as (m1 & m2 & E1 & E2 & E3); [by rewrite Hl|done|].
  apply wp_bind, wp_lift. unfold iwp. rewrite E1.
  apply wp_bind, wp_lift. unfold iwp. rewrite E2, E3.
  apply wp_bind, wp_lift. unfold iwp.
  pose proof (track_send_spec c (c_audio c) (audio_packet (c_audio c) pcmu) s1 Ha) as Hsend.
  unfold audio_packet in Hsend |- *. destruct (track_send _ _ _ _) as [r s2]. cbn [snd] in Hsend.
  apply wp_modify. split; [|by rewrite Hsend, Ho].
  transitivity (with_clients (upd_clients id
    (fun c0 => set_c_audio (set_t_ts (u32 (t_ts (c_audio c0) + Z.of_nat AUDIO_SAMPLES)) (c_audio c0)) c0)
    (upd_clients id (fun c0 => set_c_audio (set_t_seq (u16 (t_seq (c_audio c) + 1)) (c_audio c0)) c0)
       (clients w))) w); [reflexivity|].
  by rewrite (upd_upd_const id _ _ c).
Qed.

Lemma ring_read_length d n : (length (fst (ring_read d n)) <= n)%nat.
Proof.
  revert d. induction n as [|n IH]; intros d; cbn [ring_read]; [cbn; lia|].
  destruct (_ =? _); [cbn; lia|]. set (d' := AudioIn _ _ _ _ _ _ _). specialize (IH d').
  destruct (ring_read d' n). cbn in *. lia.
Qed.

(** The frame of a tick: up to 160 samples of the queue, filled up with silence. *)
Definition mic_frame (mic : bool) (q : list Z) : bytes :=
  let pcm := if mic then take AUDIO_SAMPLES q else [] in
  map g711_pcm2ulaw (pcm ++ replicate (AUDIO_SAMPLES - length pcm) 0).

(** Reading a frame touches the microphone only. *)
Lemma read_audio_frame_spec w s :
  wp read_audio_frame (fun pcmu w' s' => length pcmu = AUDIO_SAMPLES
    /\ (forall q, g_mic_opened (w_rtsp w) = false \/ ring_abs (w_ain w) q ->
          pcmu = mic_frame (g_mic_opened (w_rtsp w)) q)
    /\ w_rtsp w' = w_rtsp w /\ s' = s) w s.
Proof.
  unfold read_audio_frame. apply wp_bind, wp_get. destruct (g_mic_opened (w_rtsp w)); apply wp_bind.
  - unfold wp, on_ain, audio_in_read, mret, IO_ret.
    pose proof (ring_read_length (w_ain w) (Z.to_nat (Z.of_nat AUDIO_SAMPLES))) as Hl.
    pose proof (fun q => ring_read_spec (w_ain w) q (Z.to_nat (Z.of_nat AUDIO_SAMPLES))) as Hq.
    destruct (ring_read (w_ain w) _) as [l d]. cbn [fst] in Hl. rewrite Nat2Z.id in Hl, Hq.
    split; [len_lia|]. split; [|done]. intros q [Hr|Hr]; [done|]. by destruct (Hq q Hr) as (? & [= -> _] & _).
  - do 2 apply wp_ret. split; [len_lia|done].
Qed.

(** A tick of the audio timer: every client that is playing and has set up
    audio receives exactly one RTP packet with the same 20 ms of audio
    (160 octets), numbered with its own next sequence number and timestamp;
    nobody else receives anything or changes.  The audio is the mu-law coding of
    the oldest samples that are left after the backlog is cut, filled up with
    silence (and is silence without a microphone).  The sequence number then
    advances by one modulo 2^16 and the timestamp by 160 modulo 2^32. *)
Theorem audio_tick `{V : Env} (w : world) (s : sys) :
  AllocOk V -> rtsp_wf w -> has_playing_clients w = true ->
  let '(_, w', s') := audio_send_timer w s in
  exists pcmu, length pcmu = AUDIO_SAMPLES
    /\ (forall q, ring_abs (w_ain w) q -> pcmu = mic_frame (g_mic_opened (w_rtsp w)) (newest q))
    /\ out s' = out s ++ concat (map (audio_events pcmu) (clients w))
    /\ clients w' = map audio_effect (clients w)
    /\ g_tmr_audio (w_rtsp w') = Some AUDIO_PTIME.
Proof.
  intros Ha Hw Hp.
  assert (wp audio_send_timer (fun _ w' s' => exists pcmu, length pcmu = AUDIO_SAMPLES
    /\ (forall q, ring_abs (w_ain w) q -> pcmu = mic_frame (g_mic_opened (w_rtsp w)) (newest q))
    /\ out s' = out s ++ concat (map (audio_events pcmu) (clients w))
    /\ clients w' = map audio_effect (clients w)
    /\ g_tmr_audio (w_rtsp w') = Some AUDIO_PTIME) w s) as Hwp;
    [|unfold wp in Hwp; by destruct (audio_send_timer w s) as [[??]?]].
  unfold audio_send_timer. apply wp_bind, wp_modify, wp_bind, wp_get.
  set (w1 := set_w_rtsp (set_g_tmr_audio (Some AUDIO_PTIME) (w_rtsp w)) w).
  change (has_playing_clients w1) with (has_playing_clients w). rewrite Hp. cbn [negb].
  apply wp_bind. eapply (wp_mono _ (fun _ x sx => w_rtsp x = w_rtsp w1 /\ sx = s
    /\ (g_mic_opened (w_rtsp w) = true -> w_ain x = drain_excess (w_ain w)))).
  { change (g_mic_opened (w_rtsp w1)) with (g_mic_opened (w_rtsp w)).
    destruct (g_mic_opened (w_rtsp w)); [done|by apply wp_ret]. }
  intros _ x sx (Hx & -> & Hd). apply wp_bind. eapply wp_mono; [apply read_audio_frame_spec|].
  intros pcmu y sy (Hlen & Hq & Hy & ->). rewrite Hx in Hy, Hq. apply wp_bind, wp_get.
  assert (clients y = clients w) as Hc by (by rewrite Hy).
  eapply wp_mono.
  { apply (forM_clients _ audio_effect (audio_events pcmu) (fun _ => True)).
    - intros c. unfold audio_effect. by destruct (hears c).
    - intros c l z sz _ Hnd Hf Hcl. apply wp_bind. unfold wp at 1, client_get. subst l.
      rewrite (client_of_find _ z c Hf). unfold audio_effect, audio_events, hears.
      destruct (playing c && t_setup (c_audio c)) eqn:E.
      + bool_hyps. rewrite H, H0. cbn [negb orb]. by apply send_audio_spec.
      + rewrite <- negb_andb, E. cbn [negb]. apply wp_ret.
        by rewrite upd_self, with_clients_id, app_nil_r by done.
    - rewrite Hc. apply Hw.
    - apply List.Forall_forall. done. }
  intros _ w' s' [-> Ho]. rewrite Hc in *. exists pcmu. split; [done|].
  split; [|split; [done|]; split; [done|]; cbn; by rewrite Hy].
  intros q Hr. change (g_mic_opened (w_rtsp w1)) with (g_mic_opened (w_rtsp w)) in Hq.
  apply Hq. destruct (g_mic_opened (w_rtsp w)); [right|by left].
  rewrite Hd by done. by apply drain_excess_abs.
Qed.

(** A client with video and audio set up over the connection [tc]. *)
Definition demo_client (tc : nat) (st : rtsp_state) : client :=
  Client tc sa_zero None st (cstr "0a1b2c3d") true
    (Track None sa_zero 0 0 1 7 9000 100 true) (Track None sa_zero 0 2 3 8 4000 65535 true)
    false 0xFF 0xFF false (Some SESSION_TIMEOUT).

Lemma demo_client_wf tc st : client_wf (demo_client tc st).
Proof.
  constructor; cbn; try done; try lia; try (unfold track_wf; cbn; lia); try (by left).
  - right. split; [done|]. unfold is_hex. repeat (constructor; [lia|]). constructor.
  - intros _. split; [done|by left].
Qed.

Definition demo_playing (cs : list client) : world :=
  World (Rtsp true cs (Some AUDIO_PTIME) (Some VIDEO_PTIME) true 30 554 (cstr "192.168.1.5") false)
    (Camera true 2 2 15 (replicate 6 0) [] [] false 0 false) audio_in_zero audio_out_zero demo_auth.

Definition demo_two : world := demo_playing [demo_client 7 RTSP_PLAYING; demo_client 8 RTSP_READY].

Lemma demo_two_wf : rtsp_wf demo_two.
Proof.
  constructor; cbn; [| |by right|lia|lia| |done|done|].
  - apply list.NoDup_cons. split; [|apply list.NoDup_singleton].
    rewrite list_elem_of_singleton. discriminate.
  - constructor; [apply demo_client_wf|]. constructor; [apply demo_client_wf|constructor].
  - repeat split; cbn; (lia || discriminate || done).
  - exact demo_auth_wf.
Qed.

Lemma audio_tick_witness :
  exists pcmu, length pcmu = AUDIO_SAMPLES
    /\ out (snd (@audio_send_timer good_env demo_two (Sys 0 [])))
       = [TcpSend 7 (interleaved_bytes 2 (audio_packet (c_audio (demo_client 7 RTSP_PLAYING)) pcmu))].
Proof.
  pose proof (@audio_tick good_env demo_two (Sys 0 []) good_env_alloc demo_two_wf eq_refl) as H.
  destruct (audio_send_timer demo_two (Sys 0 [])) as [[a w] s].
  destruct H as (pcmu & Hl & _ & Ho & _). exists pcmu. split; [exact Hl|exact Ho].
Defined.

(** ** Video *)

(** What the encoder returns are octets. *)
Class EncoderBytes (E : Env) :=
  encoder_bytes : forall yuv n, Forall (fun l => Forall is_byte (pBsBuf l)) (sLayerInfo (env_encode yuv n)).

#[export] Instance good_env_encoder : EncoderBytes good_env.
Proof. intros yuv n. constructor. Qed.

(** The packets of a frame for one client: the units in order, numbered
    consecutively, the marker on the last packet of the last unit. *)
Fixpoint frame_packets (seq ts ssrc : Z) (nalus : list bytes) : list bytes :=
  match nalus with
  | [] => []
  | n :: t =>
      let ps := video_packets seq ts ssrc (match t with [] => true | _ => false end) (nalu_payloads n) in
      ps ++ frame_packets (u16 (seq + zlen ps)) ts ssrc t
  end.

Definition client_frame (nalus : list bytes) (c : client) : list bytes :=
  let v := c_video c in frame_packets (t_seq v) (t_ts v) (t_ssrc v) nalus.

Definition video_events (nalus : list bytes) (c : client) : list event :=
  if sees c then concat (map (track_event c (c_video c)) (client_frame nalus c)) else [].

Definition video_effect (nalus : list bytes) (c : client) : client :=
  if sees c then
    let v := c_video c in
    set_c_video (set_t_ts (u32 (t_ts v + VIDEO_CLOCK / VIDEO_FPS))
      (set_t_seq (u16 (t_seq v + zlen (client_frame nalus c))) v)) c
  else c.

Lemma extract_layer_bytes buf lens nalus ps :
  Forall is_byte buf -> Forall (Forall is_byte) nalus ->
  Forall (Forall is_byte) (fst (extract_layer buf lens nalus ps)).
Proof.
  revert buf nalus ps. induction lens as [|n lens IH]; intros buf nalus ps Hb Hn; [done|].
  cbn [extract_layer]. destruct (_ || _); [by apply IH|].
  apply IH; [by apply Forall_drop|]. apply Forall_app. split; [done|]. constructor; [|constructor].
  by apply Forall_take, Forall_drop.
Qed.

Lemma extract_layers_bytes ls nalus ps :
  Forall (fun l => Forall is_byte (pBsBuf l)) ls -> Forall (Forall is_byte) nalus ->
  Forall (Forall is_byte) (fst (extract_layers ls nalus ps)).
Proof.
  intros Hl. revert nalus ps. induction Hl as [|l ls Hb Hl IH]; intros nalus ps Hn; [done|].
  cbn [extract_layers].
  pose proof (extract_layer_bytes (pBsBuf l) (pNalLengthInByte l) nalus ps Hb Hn) as H1.
  destruct (extract_layer _ _ _ _) as [n1 p1]. by apply IH.
Qed.

Lemma camera_get_frame_bytes `{V : Env} `{!EncoderBytes V} c s :
  wp camera_get_frame (fun '(_, f) _ _ => Forall (Forall is_byte) (fr_nalus f)) c s.
Proof.
  unfold camera_get_frame. apply wp_bind, wp_get.
  destruct (negb (cam_opened c)); [apply wp_ret; constructor|].
  apply wp_bind. eapply (wp_mono _ (fun _ _ _ => True)).
  { destruct (cam_force_idr c); wp_steps; done. }
  intros _ c1 s1 _. apply wp_bind, wp_modify, wp_bind, wp_get, wp_bind.
  set (c2 := cam_set_yuv _ c1). unfold encode_frame. unfold wp at 1, lift.
  set (o := env_encode _ _). destruct (negb _); [apply wp_ret; constructor|].
  pose proof (extract_layers_bytes (sLayerInfo o) [] (cam_params c2) (encoder_bytes _ _) ltac:(constructor)) as Hx.
  destruct (extract_layers _ _ _) as [nalus ps].
  destruct (eFrameType o); try (apply wp_ret; constructor);
    (apply wp_bind, wp_modify; destruct nalus; [apply wp_ret; constructor|];
     apply wp_bind, wp_modify, wp_ret; exact Hx).
Qed.

(** A client replaced by another state of itself. *)
Lemma upd_const_facts id (c c1 : client) l :
  NoDup (map c_tc l) -> find_client id l = Some c -> c_tc c1 = c_tc c ->
  let l1 := upd_clients id (fun _ => c1) l in
  find_client id l1 = Some c1 /\ NoDup (map c_tc l1)
  /\ forall c2, upd_clients id (fun _ => c2) l1 = upd_clients id (fun _ => c2) l.
Proof.
  intros Hnd Hf Htc. cbv zeta. pose proof (find_client_In _ _ _ Hf) as [_ Hid].
  assert ((c_tc c1 =? id)%nat = true) as Hc1 by (apply Nat.eqb_eq; congruence).
  split; [|split].
  - clear Hnd. unfold find_client, upd_clients in *. induction l as [|x l IHl]; [done|].
    cbn in *. destruct (c_tc x =? id)%nat eqn:E; [by rewrite Hc1|]. rewrite E. by apply IHl.
  - unfold upd_clients. rewrite map_map.
    replace (map _ l) with (map c_tc l); [done|].
    apply map_ext_in. intros x Hx. destruct (c_tc x =? id)%nat eqn:E; bool_hyps; congruence.
  - intros c2. unfold upd_clients. rewrite map_map. apply map_ext_in. intros x _.
    destruct (c_tc x =? id)%nat eqn:E; [by rewrite Hc1|by rewrite E].
Qed.

(** One unit to a client: its packets leave and its sequence number advances
    by their number. *)
Lemma send_nalu_client_spec `{V : Env} id n last c w s :
  AllocOk V -> Forall is_byte n -> NoDup (map c_tc (clients w)) ->
  find_client id (clients w) = Some c -> 0 <= t_seq (c_video c) < 65536 ->
  let v := c_video c in
  let ps := video_packets (t_seq v) (t_ts v) (t_ssrc v) last (nalu_payloads n) in
  wp (send_h264_nalu_to_client id n last) (fun _ w' s' =>
    w' = with_clients (upd_clients id
           (fun _ => set_c_video (set_t_seq (u16 (t_seq v + zlen ps)) v) c) (clients w)) w
    /\ out s' = out s ++ concat (map (track_event c v) ps)) w s.
Proof.
  intros Ha Hn Hnd Hf Hseq v ps. unfold send_h264_nalu_to_client. apply wp_bind.
  unfold wp at 1, client_get. rewrite (client_of_find _ _ _ Hf). apply wp_bind, wp_lift. unfold iwp.
  fold v. destruct (send_h264_nalu_sends (track_send c v) (t_ts v) (t_ssrc v) last (track_event c v)
    (fun d s => track_send_spec c v d s Ha) n (t_seq v) s Hn Hseq) as (k & Hk & _ & Ho & Hall).
  specialize (Hall Ha). fold ps in Hall, Ho. subst k. rewrite firstn_all in Ho.
  destruct (send_h264_nalu _ _ _ _ _ _ _) as [seq s1]. cbn [fst snd] in Hk, Ho. subst seq.
  apply wp_modify. split; [|done].
  unfold with_clients. f_equal. f_equal. apply map_ext_in. intros x Hx.
  destruct (c_tc x =? id)%nat eqn:E; [|done]. bool_hyps.
  by rewrite (find_client_unique id _ c x Hnd Hf Hx E).
Qed.

(** All units of a frame to a client. *)
Lemma send_nalus_spec `{V : Env} id nalus c w s :
  AllocOk V -> Forall (Forall is_byte) nalus -> NoDup (map c_tc (clients w)) ->
  find_client id (clients w) = Some c -> 0 <= t_seq (c_video c) < 65536 ->
  wp (send_nalus id nalus) (fun _ w' s' =>
    w' = with_clients (upd_clients id (fun _ => set_c_video (set_t_seq
           (u16 (t_seq (c_video c) + zlen (client_frame nalus c))) (c_video c)) c) (clients w)) w
    /\ out s' = out s ++ concat (map (track_event c (c_video c)) (client_frame nalus c))) w s.
Proof.
  intros Ha Hb. revert c w s. induction Hb as [|n nalus Hn Hb IH]; intros c w s Hnd Hf Hseq;
    cbn [send_nalus].
  { apply wp_ret. cbn. rewrite Z.add_0_r, u16_small, app_nil_r by done. split; [|done].
    replace (set_c_video _ c) with c by (destruct c as [? ? ? ? ? ? [] ? ? ? ? ? ?]; done).
    by rewrite upd_self, with_clients_id. }
  apply wp_bind. eapply wp_mono; [by apply (send_nalu_client_spec id n _ c)|].
  intros _ w1 s1 [-> Ho]. set (ps := video_packets _ _ _ _ _) in *.
  set (c1 := set_c_video (set_t_seq (u16 (t_seq (c_video c) + zlen ps)) (c_video c)) c) in *.
  destruct (upd_const_facts id c c1 (clients w) Hnd Hf eq_refl) as (Hf1 & Hn1 & Hu).
  eapply wp_mono; [apply (IH c1); [exact Hn1|exact Hf1|apply u16_range]|].
  intros _ w2 s2 [-> Ho2].
  assert (client_frame (n :: nalus) c = ps ++ client_frame nalus c1) as -> by done.
  split.
  - cbn [clients w_rtsp with_clients set_w_rtsp g_clients set_g_clients]. rewrite Hu.
    assert (set_c_video (set_t_seq (u16 (t_seq (c_video c1) + zlen (client_frame nalus c1)))
      (c_video c1)) c1 = set_c_video (set_t_seq (u16 (t_seq (c_video c)
      + zlen (ps ++ client_frame nalus c1))) (c_video c)) c) as ->; [|done].
    rewrite length_app, Nat2Z.inj_add, Z.add_assoc, <- (u16_add_u16 (_ + zlen ps)). done.
  - rewrite Ho2, Ho, map_app, concat_app, app_assoc. done.
Qed.

Lemma video_client_body `{V : Env} nalus c w s :
  AllocOk V -> Forall (Forall is_byte) nalus -> client_wf c -> NoDup (map c_tc (clients w)) ->
  find_client (c_tc c) (clients w) = Some c ->
  wp (c0 ← client_get (c_tc c);
      if negb (playing c0) || negb (t_setup (c_video c0)) then mret tt
      else send_nalus (c_tc c) nalus ;; advance_video (c_tc c))
    (fun _ w' s' => w' = with_clients (upd_clients (c_tc c) (fun _ => video_effect nalus c) (clients w)) w
       /\ out s' = out s ++ video_events nalus c) w s.
Proof.
  intros Ha Hb Hc Hnd Hf. apply wp_bind. unfold wp at 1, client_get.
  rewrite (client_of_find _ w c Hf), <- negb_andb. unfold video_effect, video_events, sees.
  destruct (playing c && t_setup (c_video c)); cbn [negb].
  2: { apply wp_ret. by rewrite upd_self, with_clients_id, app_nil_r by done. }
  apply wp_bind. eapply wp_mono; [apply (send_nalus_spec _ nalus c); try done; apply (cw_video c Hc)|].
  intros _ w1 s1 [-> Ho]. apply wp_modify. split; [|done].
  set (c1 := set_c_video _ c). unfold with_clients. cbn [w_rtsp set_w_rtsp g_clients set_g_clients].
  by rewrite (upd_upd_const (c_tc c) _ (fun _ => c1) c).
Qed.

(** A tick of the video timer encodes one picture (asking for a key frame
    every 30 frames, two seconds).  When the encoder delivers one, every client
    that is playing and has set up video receives all its NAL units, packetised
    with that client's own consecutive sequence numbers and timestamp, and its
    counters advance by the number of packets and by 6000 (1/15 s at 90 kHz);
    nobody else receives anything or changes, and the frame is counted.  When
    the encoder delivers none, nothing is sent and no counter moves.  The
    timer is running again in either case. *)
Theorem video_tick `{V : Env} `{!EncoderBytes V} (w : world) (s : sys) :
  AllocOk V -> rtsp_wf w -> has_playing_clients w = true ->
  let n := g_frame_count (w_rtsp w) in
  let cam := if (0 <? n) && (n mod 30 =? 0) then cam_set_idr true (w_cam w) else w_cam w in
  let '(_, w', s') := video_send_timer w s in
  let '(err, f, cam', s1) := camera_get_frame cam s in
  g_tmr_video (w_rtsp w') = Some VIDEO_PTIME /\ w_cam w' = cam'
  /\ (if err =? 0 then
        out s' = out s1 ++ concat (map (video_events (fr_nalus f)) (clients w))
        /\ clients w' = map (video_effect (fr_nalus f)) (clients w)
        /\ g_frame_count (w_rtsp w') = u32 (n + 1)
      else out s' = out s1 /\ clients w' = clients w /\ g_frame_count (w_rtsp w') = n).
Proof.
  intros Ha Hw Hp n cam.
  assert (wp video_send_timer (fun _ w' s' =>
    let '(err, f, cam', s1) := camera_get_frame cam s in
    g_tmr_video (w_rtsp w') = Some VIDEO_PTIME /\ w_cam w' = cam'
    /\ (if err =? 0 then
          out s' = out s1 ++ concat (map (video_events (fr_nalus f)) (clients w))
          /\ clients w' = map (video_effect (fr_nalus f)) (clients w)
          /\ g_frame_count (w_rtsp w') = u32 (n + 1)
        else out s' = out s1 /\ clients w' = clients w /\ g_frame_count (w_rtsp w') = n)) w s) as Hwp;
    [|unfold wp in Hwp; by destruct (video_send_timer w s) as [[??]?]].
  unfold video_send_timer. apply wp_bind, wp_modify, wp_bind, wp_get.
  set (w1 := set_w_rtsp (set_g_tmr_video (Some VIDEO_PTIME) (w_rtsp w)) w).
  change (has_playing_clients w1) with (has_playing_clients w). rewrite Hp. cbn [negb].
  change (g_frame_count (w_rtsp w1)) with n. change (VIDEO_FPS * 2) with 30.
  apply wp_bind. eapply (wp_mono _ (fun _ x sx => x = set_w_cam cam w1 /\ sx = s)).
  { unfold cam. destruct ((0 <? n) && (n mod 30 =? 0)); [by apply wp_zoom, wp_modify|].
    apply wp_ret. by destruct w. }
  intros _ x sx [-> ->]. apply wp_bind, wp_zoom. cbn [w_cam set_w_cam].
  pose proof (camera_get_frame_bytes cam s) as Hb. unfold wp at 1. unfold wp in Hb.
  destruct (camera_get_frame cam s) as [[[err f] cam'] s1].
  destruct (err =? 0) eqn:Ee; cbn [negb]; [|by apply wp_ret].
  apply wp_bind, wp_get, wp_bind.
  set (w2 := set_w_cam cam' _).
  eapply wp_mono.
  { apply (forM_clients _ (video_effect (fr_nalus f)) (video_events (fr_nalus f)) client_wf).
    - intros c. unfold video_effect. by destruct (sees c).
    - intros c l z sz Hc Hnd Hf Hcl. subst l. by apply video_client_body.
    - apply Hw.
    - apply Hw. }
  intros _ w' s' [-> Ho]. apply wp_modify. done.
Qed.

(** An environment whose encoder returns one short key frame. *)
Definition video_env : Env := {|
  env := @env good_env;
  env_encode _ _ := EncOut 0 videoFrameTypeIDR [Layer [0; 0; 0; 1; 0x65; 1; 2] [7]];
  env_md5 := @env_md5 good_env;
  env_atoi_overflow := @env_atoi_overflow good_env;
  env_ntop := @env_ntop good_env;
  env_uninit := @env_uninit good_env
|}.

Lemma video_tick_witness :
  exists pre, out (snd (@video_send_timer video_env demo_two (Sys 0 [])))
    = pre ++ [TcpSend 7 (interleaved_bytes 0
        (rtp_hdr_bytes (media_hdr true PT_H264 100 9000 7) ++ [0x65; 1; 2]))]
  /\ map (fun c => t_seq (c_video c)) (clients (fst (@video_send_timer video_env demo_two (Sys 0 []))).2)
     = [101; 100].
Proof.
  assert (EncoderBytes video_env) as He.
  { intros yuv n. repeat constructor; unfold is_byte; lia. }
  assert (AllocOk video_env) as Ha by (intros n; discriminate).
  pose proof (@video_tick video_env He demo_two (Sys 0 []) Ha demo_two_wf eq_refl) as H.
  cbv zeta in H. destruct (@video_send_timer video_env demo_two (Sys 0 [])) as [[a w'] s'].
  set (r := @camera_get_frame video_env _ _) in H. vm_compute in r. subst r. cbv iota beta in H. destruct H as (_ & _ & Ho & Hc & _).
  exists [ForceIntraFrame; EncodeFrame [235; 235; 235; 84; 128; 128]].
  split; [cbn [fst snd]; rewrite Ho; vm_compute; reflexivity|].
  cbn [fst snd]. rewrite Hc. vm_compute. reflexivity.
Defined.

(** ** When the media stops *)
Definition others (id : nat) (w : world) : list client :=
  List.filter (fun c => negb (c_tc c =? id)%nat) (clients w).

(** The state a client that leaves the server leaves behind. *)
Definition media_after (id : nat) (w w' : world) : Prop :=
  clients w' = others id w
  /\ g_tmr_audio (w_rtsp w') = (if existsb playing (others id w) then g_tmr_audio (w_rtsp w) else None)
  /\ g_tmr_video (w_rtsp w') = (if existsb playing (others id w) then g_tmr_video (w_rtsp w) else None)
  /\ g_camera_opened (w_rtsp w') = g_camera_opened (w_rtsp w).

Lemma destructor_clients `{V : Env} id w s :
  wp (client_destructor id) (fun _ w' _ =>
    w_rtsp w' = set_g_clients (others id w) (w_rtsp w)) w s.
Proof.
  unfold client_destructor. apply wp_bind. unfold wp at 1, client_get. set (c := client_of id w).
  apply wp_bind. eapply (wp_mono _ (fun _ x _ => w_rtsp x = w_rtsp w)).
  { destruct (c_audio_out_opened c); [|by apply wp_ret]. unfold wp, on_aout, mbind, IO_bind.
    destruct (audio_out_close _ _) as [d s1]. done. }
  intros _ x s1 Hx. apply wp_bind, wp_modify. rewrite Hx.
  destruct (t_sock (c_video c)), (t_sock (c_audio c)); wp_steps; done.
Qed.

(** The client is set idle, so it no longer counts as playing. *)
Lemma idle_then_leave `{V : Env} id w s :
  wp (upd id (set_c_state RTSP_IDLE) ;; maybe_stop_media ;; client_destructor id)
    (fun _ w' _ => media_after id w w') w s.
Proof.
  set (w1 := set_w_rtsp (set_g_clients (upd_clients id (set_c_state RTSP_IDLE) (clients w)) (w_rtsp w)) w).
  apply wp_bind. apply wp_modify. fold w1.
  assert (has_playing_clients w1 = existsb playing (others id w)) as Hp.
  { unfold has_playing_clients, others. cbn. induction (clients w) as [|c l IH]; [done|].
    cbn [upd_clients map existsb List.filter]. change (map _ l) with (upd_clients id (set_c_state RTSP_IDLE) l).
    destruct (c_tc c =? id)%nat; cbn [negb existsb]; by rewrite IH. }
  assert (forall x, clients x = clients w1 -> others id x = others id w) as Ho.
  { intros x Hx. unfold others. rewrite Hx. cbn. clear. induction (clients w) as [|c l IH]; [done|].
    cbn. destruct (c_tc c =? id)%nat eqn:E; cbn; [by rewrite E|]. rewrite E. cbn. by f_equal. }
  unfold maybe_stop_media. apply wp_bind, wp_bind, wp_get. rewrite Hp.
  destruct (existsb playing (others id w)) eqn:E; [apply wp_ret|apply wp_modify].
  - eapply wp_mono; [apply destructor_clients|]. cbn beta. intros _ w' s' Hw'.
    rewrite (Ho w1 eq_refl) in Hw'. unfold media_after. rewrite Hw', E. done.
  - eapply wp_mono; [apply destructor_clients|]. cbn beta. intros _ w' s' Hw'.
    rewrite Ho in Hw' by done. unfold media_after. rewrite Hw', E. done.
Qed.

(** Media follows its audience: when a playing client leaves, by TEARDOWN,
    by closing its connection or by inactivity, exactly that client is gone, and
    the capture and picture timers keep running if and only if another client is
    still playing. *)
Theorem media_stops_with_last_player `{V : Env} (id : nat) (req : rtsp_req) (w : world) (s : sys) :
  playing (client_of id w) = true ->
  media_after id w (snd (fst (handle_teardown id req w s)))
  /\ media_after id w (snd (fst (rtsp_close_handler id w s)))
  /\ media_after id w (snd (fst (session_timeout_handler id w s))).
Proof.
  intros Hp.
  assert (forall m : M world unit, wp m (fun _ w' _ => media_after id w w') w s ->
    media_after id w (snd (fst (m w s)))) as Hwp.
  { intros m Hm. unfold wp in Hm. by destruct (m w s) as [[??]?]. }
  split; [|split]; apply Hwp.
  - unfold handle_teardown. apply wp_bind.
    eapply wp_mono; [apply reply_spec|]. intros _ w' s' [-> _]. apply idle_then_leave.
  - unfold rtsp_close_handler. apply wp_bind. unfold wp at 1, client_get. rewrite Hp.
    exact (idle_then_leave id w s).
  - unfold session_timeout_handler. apply wp_bind. unfold wp at 1, client_get. rewrite Hp.
    exact (idle_then_leave id w s).
Qed.

Lemma media_stops_with_last_player_witness :
  g_tmr_video (w_rtsp (snd (fst (rtsp_close_handler 7 demo_two (Sys 0 []))))) = None
  /\ map c_tc (clients (snd (fst (rtsp_close_handler 7 demo_two (Sys 0 []))))) = [8%nat].
Proof.
  destruct (@media_stops_with_last_player good_env 7
    (@parse_rtsp_request good_env play_request (length play_request)) demo_two (Sys 0 []) eq_refl)
    as (_ & (Hc & _ & Ht & _) & _).
  split; [exact Ht|]. rewrite Hc. reflexivity.
Defined.

(** ** Observed divergences *)

(** A playing client whose buffer overflows is freed without [maybe_stop_media],
    so the timers go on without an audience. *)
Lemma overflow_leaves_timers :
  let '(_, w', _) := @rtsp_recv_handler good_env 7 (replicate (Z.to_nat 16385) 65)
                       (demo_playing [demo_client 7 RTSP_PLAYING]) (Sys 0 []) in
  clients w' = [] /\ g_tmr_video (w_rtsp w') = Some VIDEO_PTIME.
Proof. vm_compute. done. Qed.

(** Of two clients with an open backchannel, the first to leave closes the
    speaker; the other one still believes it is open. *)
Definition demo_talker (tc : nat) : client :=
  set_c_audio_out_opened true (set_c_bc_setup true (demo_client tc RTSP_PLAYING)).
Lemma speaker_closed_under_other :
  let w := set_w_aout (AudioOut true 0 (replicate 4 true) (replicate 4 []) 8000 1)
             (demo_playing [demo_talker 7; demo_talker 8]) in
  let '(_, w', _) := rtsp_close_handler 7 w (Sys 0 []) in
  ao_opened (w_aout w') = false /\ map c_audio_out_opened (clients w') = [true].
Proof. vm_compute. done. Qed.
