(* ===== verification/FrameWire.v ===== *)
(** * The intercom's packets and libre's

    The RTSP server packetises the units of a frame itself ([send_nalus] with
    [send_h264_nalu], [rtsp_server.c]); libre has a packetiser of its own for the
    byte stream of a frame ([h264_packetize], [src/h264/nal.c]).  They make the
    same packets. *)
From S2P Require Import Prelude Sys Fmt Mbuf Rtp H264 G711 AudioIn AudioOut Base64 Camera AnnexB.
From S2P Require Import RtspAuth RtspParse RtspState RtspServer RtspReply RtspAccess RtspInv RtspMedia.

(** Marker and payload of libre's packets, as RTP packets of a stream. *)
Fixpoint as_rtp (seq ts ssrc : Z) (l : list (bool * bytes)) : list bytes :=
  match l with
  | [] => []
  | (m, p) :: l => (rtp_hdr_bytes (media_hdr m PT_H264 seq ts ssrc) ++ p) :: as_rtp (u16 (seq + 1)) ts ssrc l
  end.

Lemma as_rtp_app seq ts ssrc l k :
  0 <= seq < 65536 -> as_rtp seq ts ssrc (l ++ k) = as_rtp seq ts ssrc l ++ as_rtp (u16 (seq + zlen l)) ts ssrc k.
Proof.
  revert seq. induction l as [|[m p] l IH]; intros seq Hs; cbn [app as_rtp length].
  - by rewrite Z.add_0_r, u16_small.
  - rewrite IH by apply u16_range. rewrite u16_add_u16. do 4 f_equal. lia.
Qed.

Lemma video_packets_marked seq ts ssrc last ps :
  video_packets seq ts ssrc last ps = as_rtp seq ts ssrc (mark last ps).
Proof. revert seq. induction ps as [|p ps IH]; intros seq; [done|]. cbn. by rewrite IH. Qed.
Lemma mark_length last ps : length (mark last ps) = length ps.
Proof. induction ps as [|p ps IH]; [done|]. cbn. by rewrite IH. Qed.
Lemma video_packets_length seq ts ssrc last ps : length (video_packets seq ts ssrc last ps) = length ps.
Proof. revert seq. induction ps as [|p ps IH]; intros seq; [done|]. cbn. by rewrite IH. Qed.

Lemma frame_packets_marked ts ssrc nalus : forall seq k n, 0 <= seq < 65536 -> (k + length nalus = n)%nat ->
  frame_packets seq ts ssrc nalus
  = as_rtp seq ts ssrc (concat (imap (fun i u => mark (S (k + i) =? n)%nat (nalu_payloads u)) nalus)).
Proof.
  induction nalus as [|u nalus IH]; intros seq k n Hs Hn; [done|]. cbn [frame_packets imap concat]. cbv zeta.
  rewrite as_rtp_app by done. rewrite video_packets_length, mark_length. rewrite video_packets_marked. f_equal.
  - f_equal. f_equal. destruct nalus; cbn in Hn; symmetry; [apply Nat.eqb_eq|apply Nat.eqb_neq]; lia.
  - rewrite (IH _ (S k) n) by (try apply u16_range; cbn in Hn; lia). do 2 f_equal. apply imap_ext.
    intros i x _. unfold compose. by replace (S k + i)%nat with (k + S i)%nat by lia.
Qed.

(** C38. For every frame that the encoder returns in at most 32 units (the
    camera drops the units beyond; units without start codes inside, in any
    number of layers, each with a start code of three or four octets; no unit of
    1201 octets, which libre does not fragment), what [send_nalus] sends to a
    client for the units taken out of the layers is exactly what libre's
    [h264_packetize] makes of the byte stream: the same payloads in the same
    order, with the marker on the last only, as RTP packets with the client's
    consecutive sequence numbers; the client's number advances by as many.
    (With memory available.) *)
Theorem frame_packets_libre `{V : Env} (base : Z) (uss : list (list (bool * bytes))) (ps : params)
    (id : nat) (c : client) (w : world) (s : sys) :
  AllocOk V ->
  Forall (fun u => nal_ok u.2 /\ 0 <= hd 0 u.2 < 128 /\ length u.2 <> S RTP_MTU) (concat uss) ->
  (length (concat uss) <= MAX_NALUS)%nat ->
  rtsp_wf w -> find_client id (clients w) = Some c ->
  let layers := map layer_of uss in
  let nalus := (extract_layers layers [] ps).1 in
  let v := c_video c in
  let '(_, w', s') := send_nalus id nalus w s in
  exists pkts, h264_packetize base (concat (map pBsBuf layers)) RTP_MTU = Some pkts /\
    out s' = out s ++ concat (map (track_event c v) (as_rtp (t_seq v) (t_ts v) (t_ssrc v) pkts)) /\
    clients w' = upd_clients id (fun _ => set_c_video (set_t_seq (u16 (t_seq v + zlen pkts)) v) c) (clients w).
Proof.
  intros Ha Hu Hn Hw Hf layers nalus v. destruct (packetize_frame base uss ps Hu Hn) as [En Ep].
  fold layers in En, Ep. fold nalus in En, Ep.
  assert (Forall (Forall is_byte) nalus) as Hb.
  { rewrite En. apply Forall_map. eapply Forall_impl; [|exact Hu]. intros u (Hu' & _). apply Hu'. }
  destruct (find_client_In _ _ _ Hf) as [Hin Hid].
  pose proof (cw_video c (client_wf_in w c Hw Hin)) as Hv.
  pose proof (send_nalus_spec id nalus c w s Ha Hb (rw_nodup w Hw) Hf ltac:(apply Hv)) as H. unfold wp in H.
  destruct (send_nalus id nalus w s) as [[[] w'] s']. destruct H as [-> Ho].
  eexists. split; [exact Ep|]. set (pkts := concat (imap _ _)) in *.
  assert (client_frame nalus c = as_rtp (t_seq v) (t_ts v) (t_ssrc v) pkts) as Ec.
  { unfold client_frame, pkts. fold v. apply (frame_packets_marked _ _ nalus _ 0%nat); [apply Hv|done]. }
  assert (forall seq ts ssrc l, length (as_rtp seq ts ssrc l) = length l) as Hl.
  { intros seq ts ssrc l. revert seq. induction l as [|[m p] l IH]; intros seq; [done|]. cbn. by rewrite IH. }
  rewrite Ec in *. split; [done|]. rewrite Hl. done.
Qed.

Lemma frame_packets_libre_witness :
  let nalus := (extract_layers (map layer_of demo_units) [] (Params [] [] false)).1 in
  let '(_, _, s') := @send_nalus good_env 7 nalus demo_two (Sys 0 []) in
  nalus = [[103; 66; 128]; [104; 206]; 101 :: replicate 1500 7] /\
  exists pkts, h264_packetize 3 (concat (map pBsBuf (map layer_of demo_units))) RTP_MTU = Some pkts /\
    map fst pkts = [false; false; false; true] /\ length (out s') = 4%nat.
Proof.
  intros nalus.
  pose proof (@frame_packets_libre good_env 3 demo_units (Params [] [] false) 7 (demo_client 7 RTSP_PLAYING) demo_two (Sys 0 [])
    good_env_alloc demo_units_ok ltac:(vm_compute; lia) demo_two_wf eq_refl) as H. cbv zeta in H. fold nalus in H.
  destruct (@send_nalus good_env 7 nalus demo_two (Sys 0 [])) as [[u w'] s'].
  destruct H as (pkts & Hp & Ho & _). split; [vm_compute; reflexivity|]. exists pkts. split; [exact Hp|].
  assert (h264_packetize 3 (concat (map pBsBuf (map layer_of demo_units))) RTP_MTU = Some pkts) as Hq by exact Hp.
  vm_compute in Hq. injection Hq as Hq. rewrite Ho. clear Ho Hp. subst pkts. split; vm_compute; reflexivity.
Defined.
