(* ===== verification/Viewer.v ===== *)
(** * From the camera to the viewer

    The parts of the video path together: camera, timers and packetiser of the
    RTSP server, the interleaved frames on the connection of a client, libre's
    send queue below it, and a viewer that reads what arrives: it takes the
    stream apart into frames, decodes the RTP packets of its video channel and
    puts the NAL units together again. *)
From S2P Require Import Prelude Sys Fmt Mbuf Rtp TcpConn H264 G711 AudioIn AudioOut Base64 Camera.
From S2P Require Import RtspAuth RtspParse RtspState RtspServer RtspReply RtspAccess RtspInv RtspSteps RtspMedia.
From stdpp Require Import list.
Local Open Scope Z_scope.

(** ** The viewer (RFC 2326, section 10.12; RFC 3550; RFC 6184) *)

(** The packets on a channel of the stream. *)
Definition on_channel (ch : Z) (u : unit_) : option bytes :=
  match u with UFrame c d _ => if c =? ch then Some d else None | _ => None end.
(** The sequence number and the payload of a packet. *)
Definition rtp_payload (d : bytes) : option (Z * bytes) :=
  let '(err, h, mb) := rtp_hdr_decode (Mbuf d 0 (length d)) in
  if err =? 0 then Some (h_seq h, mbuf_buf mb) else None.

(** The last sequence number, the fragments of a unit so far, the units. *)
Record rx := Rx { rx_seq : option Z; rx_part : option bytes; rx_units : list bytes }.
(** Fragments are put together only if no packet is missing between them. *)
Definition rx_fragment (r : rx) (seq ind hdr : Z) (d : bytes) : option bytes :=
  let fu := h264_fu_hdr_decode hdr in
  if fu_s fu =? 1 then Some (Z.lor (Z.land ind 0xe0) (fu_type fu) :: d)
  else if bool_decide ((fun q => u16 (q + 1)) <$> rx_seq r = Some seq) then (fun a => a ++ d) <$> rx_part r
  else None.
Definition rx_step (r : rx) (p : Z * bytes) : rx :=
  let '(seq, pl) := p in
  let keep a := Rx (Some seq) a (rx_units r) in
  match pl with
  | [] => keep None
  | ind :: rest =>
      if negb (Z.land ind 0x1f =? 28) then Rx (Some seq) None (rx_units r ++ [pl])
      else
        match rest with
        | [] => keep None
        | hdr :: d =>
            match rx_fragment r seq ind hdr d with
            | Some a => if fu_e (h264_fu_hdr_decode hdr) =? 1 then Rx (Some seq) None (rx_units r ++ [a]) else keep (Some a)
            | None => keep None
            end
        end
  end.
Definition rx_packets (r : rx) (l : list bytes) : rx := foldl rx_step r (omap rtp_payload l).
(** The units a viewer has got from the octets that arrived. *)
Definition viewer (ch : Z) (wire : bytes) : list bytes :=
  rx_units (rx_packets (Rx None None []) (omap (on_channel ch) (split_all wire).1)).

(** ** Units come back *)
Definition nal_unit (n : bytes) : Prop := exists h d, n = h :: d /\ is_byte h /\ 1 <= Z.land h 0x1f <= 23.

Fixpoint number (seq : Z) (ps : list bytes) : list (Z * bytes) :=
  match ps with [] => [] | p :: ps => (seq, p) :: number (u16 (seq + 1)) ps end.

Lemma rtp_payload_app h d : rtp_hdr_wf h -> rtp_payload (rtp_hdr_bytes h ++ d) = Some (h_seq h, d).
Proof.
  intros Hw. unfold rtp_payload. destruct (rtp_hdr_decode_bytes h (Mbuf (rtp_hdr_bytes h ++ d) 0 (length (rtp_hdr_bytes h ++ d))) d Hw) as (mb & -> & <- & _); [| |done].
  - unfold mbuf_wf, mb_size. cbn. lia.
  - unfold mbuf_buf, mbuf_get_left. cbn [mb_buf mb_pos mb_end]. rewrite drop_0, Nat.sub_0_r. by rewrite take_ge by lia.
Qed.
Lemma media_hdr_wf m pt seq ts ssrc : 0 <= pt < 128 -> 0 <= seq < 65536 -> 0 <= ts < 4294967296 -> 0 <= ssrc < 4294967296 -> rtp_hdr_wf (media_hdr m pt seq ts ssrc).
Proof. intros. unfold rtp_hdr_wf. cbn. repeat split; try lia; try (by right). constructor. Qed.

Section numbered.
Context (ts ssrc : Z) (Hts : 0 <= ts < 4294967296) (Hss : 0 <= ssrc < 4294967296).

Lemma video_packets_number last ps seq : 0 <= seq < 65536 ->
  omap rtp_payload (video_packets seq ts ssrc last ps) = number seq ps.
Proof.
  revert seq. induction ps as [|p ps IH]; intros seq Hs; [done|]. cbn [video_packets number]. cbn -[rtp_hdr_bytes u16].
  rewrite rtp_payload_app by (by apply media_hdr_wf). f_equal. apply IH, u16_range.
Qed.

Lemma rx_fragments fuel ind ty rest seq q a us :
  Z.land ind 0x1f = 28 -> 0 <= ty < 32 -> (0 < length rest <= fuel)%nat -> u16 (q + 1) = seq ->
  exists q', foldl rx_step (Rx (Some q) (Some a) us) (number seq (fu_payloads fuel ind ty false rest)) = Rx (Some q') None (us ++ [a ++ rest]).
Proof.
  intros Hi Ht. revert rest seq q a. induction fuel as [|fuel IH]; intros rest seq q a [Hr Hf] Hq; [lia|].
  rewrite fu_payloads_step by done. cbn [number foldl rx_step]. rewrite Hi. cbn [Z.eqb Pos.eqb negb]. unfold rx_fragment. rewrite fu_header_bits by done.
  cbn [fu_s fu_e Zb rx_seq rx_part rx_units fmap option_fmap option_map Z.eqb]. rewrite bool_decide_eq_true_2 by congruence.
  change (RTP_MTU - 2)%nat with 1198%nat. destruct (Nat.leb_spec (length rest) 1198); cbn [Z.eqb Zb Pos.eqb].
  - rewrite drop_ge, take_ge by done. exists seq. by destruct fuel.
  - destruct (IH (drop 1198 rest) (u16 (seq + 1)) seq (a ++ take 1198 rest)) as [q' E]; [len_lia|done|]. exists q'. cbn. rewrite E. by rewrite <-app_assoc, take_drop.
Qed.

Lemma rx_nalu n seq r : nal_unit n -> exists q, foldl rx_step r (number seq (nalu_payloads n)) = Rx (Some q) None (rx_units r ++ [n]).
Proof.
  intros (h & d & -> & Hh & Ht). unfold nalu_payloads. destruct (Nat.leb_spec (length (h :: d)) RTP_MTU) as [Hl|Hl].
  - exists seq. cbn. destruct (Z.eqb_spec (Z.land h 31) 28); [lia|done].
  - cbn [length] in Hl. unfold RTP_MTU in Hl. destruct (length d) as [|f] eqn:El; [lia|]. rewrite fu_payloads_step by lia.
    destruct (fu_indicator_bits h Hh) as [Hi1 Hi2]. pose proof (nal_type_range h Hh) as Hr.
    change (RTP_MTU - 2)%nat with 1198%nat. destruct (Nat.leb_spec (length d) 1198); [lia|]. cbn [number foldl rx_step]. rewrite Hi1. cbn [Z.eqb Pos.eqb negb]. unfold rx_fragment. rewrite fu_header_bits by done.
    cbn [fu_s fu_e fu_type Zb Z.eqb Pos.eqb]. rewrite Hi2.
    destruct (rx_fragments f (fu_indicator h) (Z.land h 31) (drop 1198 d) (u16 (seq + 1)) seq (h :: take 1198 d) (rx_units r) Hi1 Hr) as [q E]; [len_lia|done|].
    exists q. etransitivity; [exact E|]. cbn [app]. by rewrite take_drop.
Qed.

Lemma rx_frame nalus seq r : Forall nal_unit nalus -> 0 <= seq < 65536 -> rx_units (rx_packets r (frame_packets seq ts ssrc nalus)) = rx_units r ++ nalus.
Proof.
  intros Hn. revert seq r. induction Hn as [|n nalus H1 Hn IH]; intros seq r Hs; unfold rx_packets in *; cbn [frame_packets]; [by rewrite app_nil_r|].
  rewrite omap_app, foldl_app, video_packets_number by done. destruct (rx_nalu n seq r H1) as [q ->]. rewrite IH by apply u16_range. cbn [rx_units]. by rewrite <-app_assoc.
Qed.
End numbered.

(** What has come out stays. *)
Lemma rx_step_units r p : rx_units r `prefix_of` rx_units (rx_step r p).
Proof.
  destruct p as [seq [|ind rest]]; [done|]. cbn [rx_step]. destruct (negb _); [by eexists|]. destruct rest as [|hdr d]; [done|]. destruct (rx_fragment _ _ _ _ _); [|done]. destruct (_ =? 1); [by eexists|done].
Qed.
Lemma rx_units_prefix l r : rx_units r `prefix_of` rx_units (foldl rx_step r l).
Proof. revert r. induction l as [|p l IH]; intros r; [done|]. cbn [foldl]. etransitivity; [apply rx_step_units|apply IH]. Qed.

(** ** Frames on the stream *)
Definition frame_bytes (f : Z * bytes) : bytes := interleaved_bytes f.1 f.2.
Definition frame_ok (f : Z * bytes) : Prop := is_byte f.1 /\ zlen f.2 < 65536.
Definition frame_unit (f : Z * bytes) : unit_ := UFrame f.1 f.2 (4 + length f.2).

Lemma frame_bytes_length f : length (frame_bytes f) = (4 + length f.2)%nat.
Proof. done. Qed.
Lemma partial_frame f x y : frame_ok f -> frame_bytes f = x ++ y -> y <> [] -> next_unit x = UMore.
Proof.
  intros [H1 H2] E Hy. assert (next_unit x = UMore \/ next_unit x <> UMore) as [|Hn] by (destruct (next_unit x); auto); [done|]. exfalso. pose proof (next_unit_app x y Hn) as Ha.
  destruct (next_unit_size x) as [|[_ Hl]]; [done|]. rewrite <-Ha, <-E in Hl. unfold frame_bytes in Hl. rewrite <-(app_nil_r (interleaved_bytes _ _)), interleaved_next_unit in Hl by done.
  cbn [unit_size] in Hl. apply (f_equal length) in E. rewrite frame_bytes_length, length_app in E. destruct y; [done|]. cbn in E. lia.
Qed.
(** Of a part of the stream the whole frames are taken. *)
Lemma split_frames l x y : Forall frame_ok l -> concat (map frame_bytes l) = x ++ y ->
  exists k, (split_all x).1 = map frame_unit (take k l) /\ (y = [] -> take k l = l).
Proof.
  intros Hl. revert x y. induction Hl as [|f l Hf Hl IH]; intros x y E; cbn [map concat] in E.
  { symmetry in E. apply app_nil in E as [-> ->]. by exists 0%nat. }
  assert (exists k z, (x = frame_bytes f ++ z /\ (split_all z).1 = map frame_unit (take k l) /\ (y = [] -> take k l = l)) \/ (k = 0%nat /\ frame_bytes f = x ++ z /\ z <> [] /\ y <> [])) as (k & z & [(-> & Hk & Hall)|(-> & E1 & Hz & Hy)]).
  { apply app_eq_inv in E as [(z & E1 & E2)|(z & E1 & E2)]; [destruct z as [|c z]|].
    - rewrite app_nil_r in E1. destruct (IH [] y) as (k & ? & ?); [done|]. exists k, []. rewrite app_nil_r. auto.
    - exists 0%nat, (c :: z). right. by rewrite E2.
    - destruct (IH z y E2) as (k & ? & ?). exists k, z. auto. }
  - exists (S k). cbn [take map]. split; [|intros Hy; by rewrite Hall]. rewrite split_all_step. destruct Hf as [H1 H2]. unfold frame_bytes. rewrite interleaved_next_unit by done.
    cbn [unit_size]. rewrite drop_app_length' by done. destruct (split_all z). cbn [fst] in *. by rewrite Hk.
  - exists 0%nat. by rewrite split_all_step, (partial_frame f x z).
Qed.

(** ** What the server sends *)
Definition sent_to (id : nat) (l : list event) : list bytes :=
  omap (fun e => match e with TcpSend c d => if (c =? id)%nat then Some d else None | _ => None end) l.

Lemma sent_to_app id a b : sent_to id (a ++ b) = sent_to id a ++ sent_to id b.
Proof. apply omap_app. Qed.
Lemma sent_to_concat id l : sent_to id (concat l) = concat (map (sent_to id) l).
Proof. induction l as [|a l IH]; [done|]. cbn [concat map]. by rewrite sent_to_app, IH. Qed.

(** Only the events of the client itself are sent to it. *)
Lemma sent_to_clients id (f : client -> list event) l c :
  (forall x, c_tc x <> id -> sent_to id (f x) = []) -> NoDup (map c_tc l) -> find_client id l = Some c ->
  sent_to id (concat (map f l)) = sent_to id (f c).
Proof.
  intros Hf. induction l as [|x l IH]; cbn [map concat]; intros Hn Hc; [done|]. rewrite sent_to_app. inversion Hn as [|? ? Hx Hn']; subst.
  unfold find_client in Hc. cbn [List.find] in Hc. destruct (Nat.eqb_spec (c_tc x) id) as [He|He].
  - injection Hc as ->. enough (sent_to id (concat (map f l)) = []) as -> by apply app_nil_r. rewrite sent_to_concat.
    subst id. clear - Hf Hx. induction l as [|y l IH]; [done|]. cbn [map concat] in *. rewrite Hf by (intros E; apply Hx; rewrite <-E; left). apply IH. intros H. apply Hx. by right.
  - rewrite Hf by done. by apply IH.
Qed.

Lemma track_event_other id c t d : c_tc c <> id -> sent_to id (track_event c t d) = [].
Proof.
  intros H. unfold track_event. destruct (c_interleaved c); [cbn; by destruct (Nat.eqb_spec (c_tc c) id)|]. by destruct (t_sock t).
Qed.
Lemma track_event_frame c t d : c_interleaved c = true -> sent_to (c_tc c) (track_event c t d) = [frame_bytes (t_ch t, d)].
Proof. intros H. unfold track_event. rewrite H. cbn. by rewrite Nat.eqb_refl. Qed.
Lemma track_events_other id c t l : c_tc c <> id -> sent_to id (concat (map (track_event c t) l)) = [].
Proof. intros H. rewrite sent_to_concat, map_map. induction l as [|d l IH]; [done|]. cbn. by rewrite track_event_other. Qed.
Lemma track_events_frames c t l : c_interleaved c = true -> sent_to (c_tc c) (concat (map (track_event c t) l)) = map frame_bytes (map (pair (t_ch t)) l).
Proof. intros H. rewrite sent_to_concat, !map_map. induction l as [|d l IH]; [done|]. cbn [map concat]. rewrite track_event_frame by done. cbn [app]. by f_equal. Qed.

(** The camera sends nothing. *)
Lemma camera_silent `{V : Env} id c s : wp camera_get_frame (fun _ _ s' => sent_to id (out s') = sent_to id (out s)) c s.
Proof.
  unfold camera_get_frame. apply wp_bind, wp_get. destruct (negb (cam_opened c)); [by apply wp_ret|].
  apply wp_bind. eapply (wp_mono _ (fun _ _ s' => sent_to id (out s') = sent_to id (out s))).
  { destruct (cam_force_idr c); [|by apply wp_ret]. apply wp_bind, wp_lift, iwp_emit. apply wp_modify. cbn [out]. by rewrite sent_to_app, app_nil_r. }
  intros _ c1 s1 H1. apply wp_bind, wp_modify, wp_bind, wp_get, wp_bind. set (c2 := cam_set_yuv _ c1).
  eapply (wp_mono _ (fun _ _ s' => sent_to id (out s') = sent_to id (out s))).
  { unfold wp, lift, encode_frame. cbn [out]. by rewrite sent_to_app, app_nil_r. }
  intros o c3 s2 H2. destruct (negb _); [by apply wp_ret|]. destruct (extract_layers _ _ _) as [nalus ps].
  destruct (eFrameType o); try (by apply wp_ret); apply wp_bind, wp_modify; (destruct nalus; [by apply wp_ret|]; by apply wp_bind, wp_modify, wp_ret).
Qed.

(** ** Ticks of the media timers *)
Inductive media_tick := AudioTick | VideoTick.

Section ticks.
Context `{V : Env}.

(** The camera when the tick asks it for a picture, and what it delivers. *)
Definition tick_camera (w : world) : camera :=
  let n := g_frame_count (w_rtsp w) in
  if (0 <? n) && (n mod 30 =? 0) then cam_set_idr true (w_cam w) else w_cam w.
Definition tick_units (t : media_tick) (w : world) (s : sys) : list bytes :=
  match t with
  | AudioTick => []
  | VideoTick => let '(err, f, _, _) := camera_get_frame (tick_camera w) s in if err =? 0 then fr_nalus f else []
  end.
Definition tick_run (t : media_tick) : M world unit :=
  match t with AudioTick => audio_send_timer | VideoTick => video_send_timer end.
(** A sequence of ticks, with the units of all pictures. *)
Fixpoint play (ts : list media_tick) (w : world) (s : sys) : list bytes * world * sys :=
  match ts with
  | [] => ([], w, s)
  | t :: ts =>
      let '(_, w', s') := tick_run t w s in
      let '(us, w'', s'') := play ts w' s' in (tick_units t w s ++ us, w'', s'')
  end.

(** Client [id] is watching on channel [ch]: it plays video over its connection
    and its audio, if any, has another channel. *)
Definition watching (ch : Z) (c : client) : Prop :=
  sees c = true /\ c_interleaved c = true /\ t_ch (c_video c) = ch /\ (t_setup (c_audio c) = true -> t_ch (c_audio c) <> ch).
Definition watches (id : nat) (ch : Z) (w : world) : Prop :=
  rtsp_inv w /\ g_tmr_video (w_rtsp w) <> None /\ exists c, find_client id (clients w) = Some c /\ watching ch c.

Lemma find_client_map id f l c : (forall x, c_tc (f x) = c_tc x) -> find_client id l = Some c -> find_client id (map f l) = Some (f c).
Proof.
  intros Hf. unfold find_client. induction l as [|x l IH]; [done|]. cbn. rewrite Hf. destruct (_ =? _)%nat; [by intros [= ->]|done].
Qed.
Lemma video_effect_tc nalus x : c_tc (video_effect nalus x) = c_tc x.
Proof. unfold video_effect. by destruct (sees x). Qed.
Lemma audio_effect_tc x : c_tc (audio_effect x) = c_tc x.
Proof. unfold audio_effect. by destruct (hears x). Qed.
Lemma video_effect_watching ch nalus c : watching ch c -> watching ch (video_effect nalus c).
Proof. unfold video_effect. by destruct (sees c). Qed.
Lemma audio_effect_watching ch c : watching ch c -> watching ch (audio_effect c).
Proof. unfold audio_effect. by destruct (hears c). Qed.
Lemma watched_playing id ch w : watches id ch w -> has_playing_clients w = true.
Proof.
  intros (_ & _ & c & Hf & Hs & _). apply find_client_In in Hf as [Hi _]. unfold has_playing_clients. apply existsb_exists. exists c. split; [done|]. unfold sees in Hs. by bool_hyps.
Qed.
Lemma timer_other w : rtsp_inv w -> g_tmr_audio (w_rtsp w) <> None <-> g_tmr_video (w_rtsp w) <> None.
Proof. intros [Hw _]. destruct (rw_timers w Hw) as [[-> ->]|(-> & -> & _)]; done. Qed.

(** Lengths of packets. *)
Lemma frame_packets_small seq ts ssrc nalus : Forall (fun d => zlen d < 65536) (frame_packets seq ts ssrc nalus).
Proof.
  revert seq. induction nalus as [|n nalus IH]; intros seq; [constructor|]. cbn [frame_packets]. apply Forall_app. split; [|apply IH].
  set (ps := video_packets _ _ _ _ _). pose proof (nalu_payloads_mtu n) as Hm. rewrite <-(video_packets_payloads seq ts ssrc (match nalus with [] => true | _ => false end)) in Hm. fold ps in Hm.
  apply Forall_map in Hm. eapply Forall_impl; [exact Hm|]. cbn. unfold RTP_MTU, RTP_HEADER_SIZE. intros d. rewrite length_drop. lia.
Qed.

Lemma on_channel_same ch l : omap (on_channel ch) (map frame_unit (map (pair ch) l)) = l.
Proof. induction l as [|d l IH]; [done|]. cbn. by rewrite Z.eqb_refl, IH. Qed.

(** What a tick gives the viewer. *)
Definition tick_result (t : media_tick) (id : nat) (ch : Z) (w : world) (s : sys) (w' : world) (s' : sys) : Prop :=
  watches id ch w' /\ exists fs, Forall frame_ok fs /\ sent_to id (out s') = sent_to id (out s) ++ map frame_bytes fs /\
    (Forall nal_unit (tick_units t w s) -> forall r, rx_units (rx_packets r (omap (on_channel ch) (map frame_unit fs))) = rx_units r ++ tick_units t w s).

Lemma audio_tick_viewed id ch w s : AllocOk V -> watches id ch w -> let '(_, w', s') := tick_run AudioTick w s in tick_result AudioTick id ch w s w' s'.
Proof.
  intros Ha Hwt. pose proof Hwt as ([Hw Hb] & Ht & c & Hf & Hc). pose proof (proj2 (timer_other w (conj Hw Hb)) Ht) as Hta. cbn [tick_run].
  pose proof (audio_tick w s Ha Hw (watched_playing id ch w Hwt)) as HT. pose proof (audio_timer_inv w s (conj Hw Hb) Hta) as HI. unfold wp in HI.
  destruct (audio_send_timer w s) as [[[] w'] s']. destruct HT as (pcmu & Hl & _ & Ho & Hcl & Htm). split.
  { split; [done|]. split; [apply timer_other; [done|congruence]|]. exists (audio_effect c). rewrite Hcl. split; [apply find_client_map; [apply audio_effect_tc|done]|by apply audio_effect_watching]. }
  pose proof (find_client_In _ _ _ Hf) as [Hi Hid]. destruct Hc as (Hs & Hil & Hch & Hne).
  rewrite Ho, sent_to_app, (sent_to_clients id (audio_events pcmu) (clients w) c); [|intros x Hx; unfold audio_events; destruct (hears x); [by apply track_event_other|done]|apply Hw|done].
  unfold audio_events. destruct (hears c) eqn:Eh.
  - exists [(t_ch (c_audio c), audio_packet (c_audio c) pcmu)]. rewrite <-Hid, track_event_frame by done. unfold hears in Eh. bool_hyps.
    pose proof (client_wf_in w c Hw Hi) as HWF. split_and!; [|done|].
    + constructor; [|constructor]. split; cbn [fst snd]; [apply (cw_audio c HWF)|]. unfold audio_packet. rewrite length_app, Hl. change (length (rtp_hdr_bytes (media_hdr false PT_PCMU (t_seq (c_audio c)) (t_ts (c_audio c)) (t_ssrc (c_audio c))))) with 12%nat. unfold AUDIO_SAMPLES. lia.
    + intros _ r. cbn [map frame_unit fst snd]. cbn -[audio_packet]. destruct (Z.eqb_spec (t_ch (c_audio c)) ch); [by destruct (Hne H0)|]. by rewrite app_nil_r.
  - exists []. split_and!; [constructor|done|]. intros _ r. by rewrite app_nil_r.
Qed.

Lemma video_tick_viewed `{!EncoderBytes V} id ch w s : AllocOk V -> watches id ch w -> let '(_, w', s') := tick_run VideoTick w s in tick_result VideoTick id ch w s w' s'.
Proof.
  intros Ha Hwt. pose proof Hwt as ([Hw Hb] & Ht & c & Hf & Hc). cbn [tick_run].
  pose proof (video_tick w s Ha Hw (watched_playing id ch w Hwt)) as HT. cbv zeta in HT. fold (tick_camera w) in HT. pose proof (video_timer_inv w s (conj Hw Hb) Ht) as HI. unfold wp in HI.
  unfold tick_result. cbn [tick_units]. pose proof (camera_silent id (tick_camera w) s) as Hsi. unfold wp in Hsi.
  destruct (video_send_timer w s) as [[[] w'] s']. destruct (camera_get_frame (tick_camera w) s) as [[[err f] cam'] s1].
  destruct HT as (Htm & _ & HT). pose proof (find_client_In _ _ _ Hf) as [Hi Hid]. destruct (err =? 0).
  - destruct HT as (Ho & Hcl & _). split.
    { split; [done|]. split; [congruence|]. exists (video_effect (fr_nalus f) c). rewrite Hcl. split; [apply find_client_map; [apply video_effect_tc|done]|by apply video_effect_watching]. }
    destruct Hc as (Hs & Hil & Hch & _). pose proof (client_wf_in w c Hw Hi) as HWF.
    rewrite Ho, sent_to_app, (sent_to_clients id (video_events (fr_nalus f)) (clients w) c), Hsi; [|intros x Hx; unfold video_events; destruct (sees x); [by apply track_events_other|done]|apply Hw|done].
    unfold video_events. rewrite Hs. exists (map (pair ch) (client_frame (fr_nalus f) c)). pose proof (cw_video c HWF) as Hv. split_and!.
    + apply Forall_map. eapply Forall_impl; [apply frame_packets_small|]. intros d Hd. split; [|done]. cbn [fst]. rewrite <-Hch. apply Hv.
    + rewrite <-Hid, track_events_frames by done. by rewrite Hch.
    + intros Hn r. rewrite on_channel_same. destruct Hv as (_ & _ & _ & ? & ? & ?). by apply rx_frame.
  - destruct HT as (Ho & Hcl & _). split.
    { split; [done|]. split; [congruence|]. exists c. by rewrite Hcl. }
    exists []. rewrite Ho, Hsi. split_and!; [constructor|by rewrite app_nil_r|]. intros _ r. by rewrite app_nil_r.
Qed.

Lemma omap_frames_app ch a b r : rx_packets r (omap (on_channel ch) (map frame_unit (a ++ b))) = rx_packets (rx_packets r (omap (on_channel ch) (map frame_unit a))) (omap (on_channel ch) (map frame_unit b)).
Proof. unfold rx_packets. by rewrite map_app, !omap_app, foldl_app. Qed.

Lemma play_viewed `{!EncoderBytes V} id ch ts : AllocOk V -> forall w s, watches id ch w -> let '(us, w', s') := play ts w s in
  exists fs, Forall frame_ok fs /\ sent_to id (out s') = sent_to id (out s) ++ map frame_bytes fs /\
    (Forall nal_unit us -> forall r, rx_units (rx_packets r (omap (on_channel ch) (map frame_unit fs))) = rx_units r ++ us).
Proof.
  intros Ha. induction ts as [|t ts IH]; intros w s Hw; cbn [play].
  { exists []. split_and!; [constructor|by rewrite app_nil_r|]. intros _ r. by rewrite app_nil_r. }
  assert (let '(_, w', s') := tick_run t w s in tick_result t id ch w s w' s') as H by (destruct t; [by apply audio_tick_viewed|by apply video_tick_viewed]).
  destruct (tick_run t w s) as [[u w1] s1]. destruct H as (Hw1 & fs1 & Hok1 & Ho1 & Hr1). specialize (IH w1 s1 Hw1). destruct (play ts w1 s1) as [[us w2] s2].
  destruct IH as (fs2 & Hok2 & Ho2 & Hr2). exists (fs1 ++ fs2). split_and!; [by apply Forall_app|by rewrite Ho2, Ho1, map_app, <-app_assoc|].
  intros [Hn1 Hn2]%Forall_app r. rewrite omap_frames_app, Hr2, Hr1 by done. by rewrite app_assoc.
Qed.
End ticks.

(** ** The connection *)
Definition op_sends (op : tcp_op) : option bytes := match op with Send d _ => Some d | Event _ _ => None end.
(** Every message was accepted. *)
Fixpoint accepted (ops : list tcp_op) (tc : tcp_conn) : Prop :=
  match ops with
  | [] => True
  | op :: ops => match op with Send d o => (TcpConn.tcp_send tc d o).1 = 0 | Event _ _ => True end /\ accepted ops (op_conn op tc)
  end.
Lemma accepted_stream ops tc A : accepted ops tc -> (run_tcp ops tc A).2 = A ++ concat (omap op_sends ops).
Proof.
  revert tc A. induction ops as [|[d o|fl o] ops IH]; intros tc A H; cbn [run_tcp accepted] in *; [by rewrite app_nil_r| |].
  - destruct H as [H0 H]. rewrite (IH _ _ H). cbn [op_stream omap list_omap op_sends concat]. rewrite H0. cbn. by rewrite <-app_assoc.
  - rewrite (IH _ _ (proj2 H)). done.
Qed.
Lemma stream_prefix tc A B : stream tc (A ++ B) -> exists r, drop (length A) (tc_wire tc) ++ r = B /\ (tc_fdc tc = true -> tc_sendq tc = [] -> r = []).
Proof.
  intros H. assert (exists q, tc_wire tc ++ q = A ++ B /\ (tc_fdc tc = true -> tc_sendq tc = [] -> q = [])) as (q & E & Hq).
  { unfold stream in H. destruct (tc_fdc tc); [exists (concat (tc_sendq tc)); split; [done|by intros _ ->]|destruct H as [q E]; by exists q]. }
  apply app_eq_inv in E as [(z & E1 & E2)|(z & E1 & E2)].
  - exists q. split; [by rewrite E1, drop_app_length|done].
  - exists B. rewrite drop_ge by (rewrite E1, length_app; lia). split; [done|]. intros H1 H2. rewrite (Hq H1 H2) in E2. by destruct z, B.
Qed.

(** C14. From the camera to the viewer: a client watches over its connection, and the
    media timers tick in any order.  If the connection is given what the server
    sends to that client, between any events of its socket, and accepts every
    message (no send fails, so none meets a full queue), then whatever part of
    it the system has taken so far, the viewer has got the first of the NAL units
    that the camera delivered, in order, whole and nothing else; and all of them
    once the send queue is empty.  (With memory available, for NAL units of types
    1 to 23, and a client whose audio and video channels differ; a send that is
    refused in the middle of a message is [TcpConn.message_torn].) *)
Theorem viewer_sees `{V : Env} `{!EncoderBytes V} (id : nat) (ch : Z) (ts : list media_tick) (w : world) (s : sys)
    (tc : tcp_conn) (A : bytes) (ops : list tcp_op) :
  AllocOk V -> watches id ch w -> Forall nal_unit (play ts w s).1.1 ->
  conn_wf tc -> stream tc A -> tcp_ok ops tc -> accepted ops tc ->
  sent_to id (out (play ts w s).2) = sent_to id (out s) ++ omap op_sends ops ->
  let tc' := (run_tcp ops tc A).1 in
  let seen := viewer ch (drop (length A) (tc_wire tc')) in
  seen `prefix_of` (play ts w s).1.1 /\ (tc_fdc tc' = true -> tc_sendq tc' = [] -> seen = (play ts w s).1.1).
Proof.
  intros Ha Hw Hn HW HS Hok Hacc Hsent tc' seen. pose proof (play_viewed id ch ts Ha w s Hw) as HP. destruct (play ts w s) as [[us w'] s']. cbn [fst snd] in *.
  destruct HP as (fs & Hfs & Ho & Hr). specialize (Hr Hn (Rx None None [])). rewrite Ho in Hsent. apply app_inv_head in Hsent.
  pose proof (run_tcp_stream ops tc A HW HS Hok) as HT. pose proof (accepted_stream ops tc A Hacc) as HA. rewrite <-Hsent in HA.
  unfold seen, tc'. destruct (run_tcp ops tc A) as [tc1 A1]. cbn [fst snd] in *. destruct HT as [_ HT]. rewrite HA in HT.
  destruct (stream_prefix _ _ _ HT) as (r & E & Hall). destruct (split_frames fs _ r Hfs (eq_sym E)) as (k & Ek & Hk). unfold viewer. rewrite Ek. split.
  - rewrite <-(take_drop k fs), omap_frames_app in Hr. cbn [rx_units app] in Hr. rewrite <-Hr. apply rx_units_prefix.
  - intros H1 H2. rewrite Hk by auto. exact Hr.
Qed.

(** ** A run *)
Lemma demo_watches : watches 7 0 demo_two.
Proof.
  split; [split; [exact demo_two_wf|repeat constructor]|]. split; [done|]. exists (demo_client 7 RTSP_PLAYING). split; [done|]. by split_and!.
Qed.
Definition demo_ticks : list media_tick := [VideoTick; AudioTick; VideoTick].
Definition demo_sent : list bytes := Eval vm_compute in sent_to 7 (out (@play video_env demo_ticks demo_two (Sys 0 [])).2).
Definition demo_conn : tcp_conn := TcpConn true [] 0 TCP_TXQSZ_DEFAULT false true 1 [1; 2; 3].
Definition takes (n : Z) : os := Os (Sent n) (RecvErr EAGAIN) (Some 0) 0 true true.
(** The first message is taken in part, the others are queued, and some of the
    queue is written. *)
Definition demo_ops : list tcp_op :=
  match map (fun d => Send d (takes 9)) demo_sent with a :: l => a :: Event 2 (takes 10) :: l ++ [Event 2 (takes 100)] | [] => [] end.
Lemma demo_sends : sent_to 7 (out (@play video_env demo_ticks demo_two (Sys 0 [])).2) = omap op_sends demo_ops.
Proof. vm_compute. reflexivity. Qed.
Lemma demo_units : (@play video_env demo_ticks demo_two (Sys 0 [])).1.1 = [[0x65; 1; 2]; [0x65; 1; 2]].
Proof. vm_compute. reflexivity. Qed.
Lemma demo_ops_ok : tcp_ok demo_ops demo_conn /\ accepted demo_ops demo_conn.
Proof. split; vm_compute; repeat split; try done. Qed.
#[local] Instance video_env_bytes : EncoderBytes video_env.
Proof. intros yuv n. repeat constructor; unfold is_byte; lia. Qed.

Lemma viewer_sees_witness :
  viewer 0 (drop 3 (tc_wire (run_tcp demo_ops demo_conn [1; 2; 3]).1)) `prefix_of` [[0x65; 1; 2]; [0x65; 1; 2]]
  /\ viewer 0 (drop 3 (tc_wire (run_tcp (demo_ops ++ [Event 2 (takes 67); Event 2 (takes 19)]) demo_conn [1; 2; 3]).1)) = [[0x65; 1; 2]; [0x65; 1; 2]].
Proof.
  assert (AllocOk video_env) as Ha by (intros n; discriminate).
  assert (Forall nal_unit (@play video_env demo_ticks demo_two (Sys 0 [])).1.1) as Hu.
  { rewrite demo_units. repeat constructor; (eexists _, _; split; [reflexivity|]; split; [unfold is_byte; lia|vm_compute; split; discriminate]). }
  assert (conn_wf demo_conn) as Hw by (split; cbn; try done; constructor).
  split.
  - pose proof (@viewer_sees video_env _ 7 0 demo_ticks demo_two (Sys 0 []) demo_conn [1; 2; 3] demo_ops Ha demo_watches Hu Hw eq_refl (proj1 demo_ops_ok) (proj2 demo_ops_ok) demo_sends) as H.
    rewrite demo_units in H. apply H.
  - pose proof (@viewer_sees video_env _ 7 0 demo_ticks demo_two (Sys 0 []) demo_conn [1; 2; 3] (demo_ops ++ [Event 2 (takes 67); Event 2 (takes 19)]) Ha demo_watches Hu Hw eq_refl) as H.
    rewrite demo_units in H. apply H; [vm_compute; repeat split; try done|vm_compute; repeat split; try done|vm_compute; reflexivity|vm_compute; reflexivity|vm_compute; reflexivity].
Defined.
