(* ===== verification/RelayClient.v ===== *)
(** * The device side of the relay ([relay_client.c])

    The state machine that keeps the intercom registered with the relay: the
    outgoing connection, the line protocol (REGISTER, OK, BRIDGE), the hand-over
    of a bridged connection to the RTSP server, and reconnection with
    exponential backoff.

    The bridge callback is a parameter: a computation on the application's
    state [W].  In the intercom it is [rtsp_accept_relay_conn]. *)
From stdpp Require Import relations.
From S2P Require Import Prelude Sys Fmt Mbuf.

Definition RECONNECT_INTERVAL_MS : Z := 5000.
Definition MAX_RECONNECT_MS : Z := 300000.
Definition RELAY_LINE : nat := 256.
Definition MAX_RBUF_SIZE : Z := 8192.

(** [g_relay].  A timer is the delay it was started with; [rl_has_cb] tells
    whether a bridge callback is set. *)
Record relay := Relay {
  rl_tc : option nat;
  rl_tmr : option Z;
  rl_rbuf : option mbuf;
  rl_host : bytes;
  rl_port : Z;
  rl_device_id : bytes;
  rl_auth_token : bytes;
  rl_addr : bytes;
  rl_has_cb : bool;
  rl_registered : bool;
  rl_running : bool;
  rl_bridging : bool;
  rl_backoff : Z
}.

Definition relay_zero : relay :=
  Relay None None None [] 0 [] [] [] false false false false 0.

Definition set_rl_tc (v : option nat) (r : relay) : relay :=
  Relay v (rl_tmr r) (rl_rbuf r) (rl_host r) (rl_port r) (rl_device_id r) (rl_auth_token r) (rl_addr r) (rl_has_cb r) (rl_registered r) (rl_running r) (rl_bridging r) (rl_backoff r).
Definition set_rl_tmr (v : option Z) (r : relay) : relay :=
  Relay (rl_tc r) v (rl_rbuf r) (rl_host r) (rl_port r) (rl_device_id r) (rl_auth_token r) (rl_addr r) (rl_has_cb r) (rl_registered r) (rl_running r) (rl_bridging r) (rl_backoff r).
Definition set_rl_rbuf (v : option mbuf) (r : relay) : relay :=
  Relay (rl_tc r) (rl_tmr r) v (rl_host r) (rl_port r) (rl_device_id r) (rl_auth_token r) (rl_addr r) (rl_has_cb r) (rl_registered r) (rl_running r) (rl_bridging r) (rl_backoff r).
Definition set_rl_registered (v : bool) (r : relay) : relay :=
  Relay (rl_tc r) (rl_tmr r) (rl_rbuf r) (rl_host r) (rl_port r) (rl_device_id r) (rl_auth_token r) (rl_addr r) (rl_has_cb r) v (rl_running r) (rl_bridging r) (rl_backoff r).
Definition set_rl_running (v : bool) (r : relay) : relay :=
  Relay (rl_tc r) (rl_tmr r) (rl_rbuf r) (rl_host r) (rl_port r) (rl_device_id r) (rl_auth_token r) (rl_addr r) (rl_has_cb r) (rl_registered r) v (rl_bridging r) (rl_backoff r).
Definition set_rl_bridging (v : bool) (r : relay) : relay :=
  Relay (rl_tc r) (rl_tmr r) (rl_rbuf r) (rl_host r) (rl_port r) (rl_device_id r) (rl_auth_token r) (rl_addr r) (rl_has_cb r) (rl_registered r) (rl_running r) v (rl_backoff r).
Definition set_rl_backoff (v : Z) (r : relay) : relay :=
  Relay (rl_tc r) (rl_tmr r) (rl_rbuf r) (rl_host r) (rl_port r) (rl_device_id r) (rl_auth_token r) (rl_addr r) (rl_has_cb r) (rl_registered r) (rl_running r) (rl_bridging r) v.

Section Client.
Context `{V : Env} {W : Type}.
Variable bridge_cb : nat -> M W unit.

(** The client's state beside the application's. *)
Definition on_relay (f : relay -> relay) : M (relay * W) unit :=
  modify (fun x => (f (fst x), snd x)).
Definition relay_get : M (relay * W) relay := x ← get; mret (fst x).
Definition on_app {A} (m : M W A) : M (relay * W) A :=
  zoom snd (fun w x => (fst x, w)) m.

(** [g_relay.tc = mem_deref(g_relay.tc)] *)
Definition drop_tc : M (relay * W) unit :=
  r ← relay_get;
  (match rl_tc r with Some c => lift (emit (TcpClose c)) | None => mret tt end) ;;
  on_relay (set_rl_tc None).

(** The connection, the buffer and the registration are given up together. *)
Definition drop_all : M (relay * W) unit :=
  drop_tc ;;
  on_relay (fun r => set_rl_registered false (set_rl_rbuf None r)).

(** ** Backoff *)
Definition backoff_delay (count : Z) : Z :=
  let delay := u32 (Z.shiftl RECONNECT_INTERVAL_MS (if count <? 6 then count else 6)) in
  if MAX_RECONNECT_MS <? delay then MAX_RECONNECT_MS else delay.

Definition relay_backoff_delay : M (relay * W) Z :=
  r ← relay_get;
  on_relay (set_rl_backoff (u32 (rl_backoff r + 1))) ;;
  mret (backoff_delay (rl_backoff r)).

Definition relay_schedule_reconnect : M (relay * W) unit :=
  r ← relay_get;
  if negb (rl_running r) then mret tt
  else
    delay ← relay_backoff_delay;
    on_relay (set_rl_tmr (Some delay)).

(** ** Connection callbacks *)
Definition relay_close_handler : M (relay * W) unit :=
  drop_all ;;
  r ← relay_get;
  if rl_running r && negb (rl_bridging r) then relay_schedule_reconnect else mret tt.

(** The content of the [line] array for the text before a newline. *)
Definition relay_line (text : bytes) : bytes :=
  let line_len := length text in
  let actual :=
    if (0 <? line_len)%nat && (nth (line_len - 1) text 0 =? 13) then (line_len - 1)%nat else line_len in
  take (if (RELAY_LINE <=? actual)%nat then (RELAY_LINE - 1)%nat else actual) text.

(** BRIDGE: the connection goes to the callback, and a reconnection is due.
    Lines arrive on a connection, so there is one to hand over (see
    [relay_inv]). *)
Definition relay_bridge : M (relay * W) unit :=
  r ← relay_get;
  on_relay (fun r => set_rl_registered false (set_rl_rbuf None (set_rl_tc None (set_rl_bridging true r)))) ;;
  (if rl_has_cb r then
     match rl_tc r with Some tc => on_app (bridge_cb tc) | None => mret tt end
   else mret tt) ;;
  on_relay (fun r => set_rl_backoff 0 (set_rl_bridging false r)) ;;
  r ← relay_get;
  if rl_running r then on_relay (set_rl_tmr (Some RECONNECT_INTERVAL_MS)) else mret tt.

(** The received bytes and the removal of the first [n]. *)
Definition relay_data (r : relay) : bytes :=
  match rl_rbuf r with Some mb => take (mb_end mb) (mb_buf mb) | None => [] end.
Definition relay_consume (n : nat) (mb : mbuf) : mbuf :=
  let remain := (mb_end mb - n)%nat in
  Mbuf (drop n (take (mb_end mb) (mb_buf mb)) ++ drop remain (mb_buf mb)) (mb_pos mb) remain.

(** The loop over complete lines; each takes at least its newline, so the
    number of bytes is enough fuel. *)
Fixpoint relay_lines (fuel : nat) : M (relay * W) unit :=
  match fuel with
  | O => mret tt
  | S f =>
      r ← relay_get;
      match memchr (relay_data r) 10 with
      | None => mret tt
      | Some line_len =>
          let line := relay_line (take line_len (relay_data r)) in
          let consume := on_relay (fun r => set_rl_rbuf (relay_consume (line_len + 1) <$> rl_rbuf r) r) in
          if streq line (cstr "OK") && negb (rl_registered r)
          then on_relay (set_rl_registered true) ;; consume ;; relay_lines f
          else if streq line (cstr "BRIDGE") then relay_bridge
          else consume ;; relay_lines f
      end
  end.

(** With a buffer: the size limit, the new bytes, the complete lines. *)
Definition relay_append (mb : mbuf) (data : bytes) : M (relay * W) unit :=
  on_relay (set_rl_rbuf (Some mb)) ;;
  if MAX_RBUF_SIZE <? Z.of_nat (mb_end mb) + zlen data then relay_close_handler
  else
    '(_, mb) ← lift (mbuf_write_mem (mbuf_set_pos mb (mb_end mb)) data);
    on_relay (set_rl_rbuf (Some mb)) ;;
    r ← relay_get;
    relay_lines (length (relay_data r)).

Definition relay_recv_handler (data : bytes) : M (relay * W) unit :=
  r ← relay_get;
  mbo ← (match rl_rbuf r with Some mb => mret (Some mb) | None => lift (mbuf_alloc 1024) end);
  match mbo with
  | None => mret tt
  | Some mb => relay_append mb data
  end.

Definition relay_estab_handler : M (relay * W) unit :=
  on_relay (set_rl_backoff 0) ;;
  r ← relay_get;
  let reg_msg := snprintf_str RELAY_LINE "REGISTER %s %s\r\n"
                   [AStr (rl_device_id r); AStr (rl_auth_token r)] in
  mbo ← lift (mbuf_alloc (length reg_msg));
  match mbo, rl_tc r with
  | Some mb, Some tc =>
      '(_, mb) ← lift (mbuf_write_mem mb reg_msg);
      lift (emit (TcpSend tc (mbuf_buf (mbuf_set_pos mb 0)))) ;;
      _ ← lift (ask QTcpSend);
      mret tt
  | _, _ => mret tt
  end.

(** The resolver is asked for success, then for the address. *)
Definition relay_do_connect : M (relay * W) unit :=
  rc ← lift (ask QResolve);
  if negb (rc =? 0) then relay_schedule_reconnect
  else
    a ← lift (ask QResolve);
    r ← relay_get;
    lift (emit (TcpConnect (SA (AF_INET (u32 a)) (rl_port r)))) ;;
    err ← lift (ask QConnect);
    if negb (err =? 0) then relay_schedule_reconnect
    else
      tc ← lift fresh;
      on_relay (set_rl_tc (Some tc)).

(** The timer has fired, so it is no longer running. *)
Definition relay_reconnect : M (relay * W) unit :=
  on_relay (set_rl_tmr None) ;;
  r ← relay_get;
  if negb (rl_running r) then mret tt
  else drop_all ;; relay_do_connect.

(** ** Public functions *)
Definition relay_client_start (host : option bytes) (port : Z) (device_id auth_token : option bytes)
    (has_cb : bool) : M (relay * W) Z :=
  match host, device_id, auth_token with
  | Some host, Some device_id, Some auth_token =>
      on_relay (fun r =>
        let port := if port =? 0 then 443 else port in
        Relay (rl_tc r) None (rl_rbuf r) (str_ncpy host 128) port (str_ncpy device_id 64)
          (str_ncpy auth_token 64) (snprintf_str 256 "%s:%u" [AStr host; ANum port])
          has_cb (rl_registered r) true false (rl_backoff r)) ;;
      relay_do_connect ;;
      mret 0
  | _, _, _ => mret EINVAL
  end.

Definition relay_client_stop : M (relay * W) unit :=
  on_relay (fun r => set_rl_tmr None (set_rl_running false r)) ;;
  drop_all.

Definition relay_client_is_connected (r : relay) : bool := rl_registered r.
Definition relay_client_get_server (r : relay) : option bytes :=
  if negb (rl_running r) then None else Some (rl_addr r).
End Client.

(** ** What the line protocol means

    Independently of how the bytes were cut into segments: the registration
    after the complete lines and the bytes that are left, or a hand-over. *)
Inductive line_result := Stay (registered : bool) (rest : bytes) | HandOver.

Fixpoint lines_result (fuel : nat) (registered : bool) (data : bytes) : line_result :=
  match fuel with
  | O => Stay registered data
  | S f =>
      match memchr data 10 with
      | None => Stay registered data
      | Some n =>
          let line := relay_line (take n data) in
          let rest := drop (n + 1) data in
          if streq line (cstr "OK") && negb registered then lines_result f true rest
          else if streq line (cstr "BRIDGE") then HandOver
          else lines_result f registered rest
      end
  end.
Definition protocol (registered : bool) (data : bytes) : line_result :=
  lines_result (length data) registered data.

Lemma lines_result_fuel f g registered data :
  (length data <= f)%nat -> (length data <= g)%nat ->
  lines_result f registered data = lines_result g registered data.
Proof.
  revert g registered data. induction f as [|f IH]; intros g registered data Hf Hg.
  - destruct data; [|cbn in Hf; lia]. by destruct g.
  - destruct g as [|g]; [destruct data; [done|cbn in Hg; lia]|]. cbn [lines_result].
    destruct (memchr data 10) as [n|] eqn:E; [|done].
    apply memchr_Some in E as (_ & Hn & _).
    rewrite !(IH g) by (rewrite length_drop; lia). done.
Qed.

Lemma protocol_step registered data n :
  memchr data 10 = Some n ->
  protocol registered data =
    (let line := relay_line (take n data) in
     let rest := drop (n + 1) data in
     if streq line (cstr "OK") && negb registered then protocol true rest
     else if streq line (cstr "BRIDGE") then HandOver else protocol registered rest).
Proof.
  intros E. pose proof (memchr_Some _ _ _ E) as (_ & Hn & _). unfold protocol.
  destruct (length data) as [|m] eqn:El; [lia|]. cbn [lines_result]. rewrite E. cbv zeta.
  rewrite !(lines_result_fuel m (length (drop (n + 1) data))) by (rewrite length_drop; lia). done.
Qed.

(** What is left has no complete line. *)
Lemma protocol_rest registered data registered' rest :
  protocol registered data = Stay registered' rest -> memchr rest 10 = None.
Proof.
  remember (length data) as k eqn:Hk. revert registered data Hk.
  induction k as [k IH] using lt_wf_ind. intros registered data -> Hp.
  destruct (memchr data 10) as [n|] eqn:E.
  - pose proof (memchr_Some _ _ _ E) as (_ & Hn & _). rewrite (protocol_step _ _ n) in Hp by done.
    assert (length (drop (n + 1) data) < length data)%nat as Hlt by (rewrite length_drop; lia).
    cbv zeta in Hp. destruct (_ && _); [by eapply IH in Hp|]. destruct (streq _ _); [done|].
    by eapply IH in Hp.
  - unfold protocol in Hp. destruct data; [by injection Hp as _ <-|].
    cbn [length lines_result] in Hp. rewrite E in Hp. by injection Hp as _ <-.
Qed.

Lemma protocol_rest_length registered data registered' rest :
  protocol registered data = Stay registered' rest -> (length rest <= length data)%nat.
Proof.
  unfold protocol. generalize (length data) at 1 as f. intros f. revert registered data.
  induction f as [|f IH]; intros registered data H; cbn [lines_result] in H; [by injection H as _ <-|].
  destruct (memchr data 10) as [n|]; [|by injection H as _ <-].
  assert (length (drop (n + 1) data) <= length data)%nat as Hle by len_lia.
  cbv zeta in H. destruct (_ && _); [apply IH in H; lia|]. destruct (streq _ _); [done|].
  apply IH in H. lia.
Qed.

Lemma protocol_app (registered : bool) (a b : bytes) :
  protocol registered (a ++ b) =
    match protocol registered a with
    | Stay registered' rest => protocol registered' (rest ++ b)
    | HandOver => HandOver
    end.
Proof.
  remember (length a) as k eqn:Hk. revert registered a Hk.
  induction k as [k IH] using lt_wf_ind. intros registered a ->.
  destruct (memchr a 10) as [n|] eqn:E.
  - pose proof (memchr_Some _ _ _ E) as (_ & Hn & _).
    rewrite (protocol_step _ _ n E), (protocol_step _ (a ++ b) n) by by apply memchr_app.
    cbv zeta. rewrite take_app_le, drop_app_le by lia.
    assert (length (drop (n + 1) a) < length a)%nat as Hlt by (rewrite length_drop; lia).
    destruct (_ && _); [by eapply IH|]. destruct (streq _ _); [done|]. by eapply IH.
  - assert (protocol registered a = Stay registered a) as ->; [|done].
    unfold protocol. destruct a; [done|]. cbn [length lines_result]. by rewrite E.
Qed.

(** ** The receive handler implements the protocol *)
Definition rbuf_fits (o : option mbuf) : Prop :=
  match o with Some mb => (mb_end mb <= mb_size mb)%nat | None => True end.

Lemma relay_consume_data n mb :
  (mb_end mb <= mb_size mb)%nat -> (n <= mb_end mb)%nat ->
  take (mb_end (relay_consume n mb)) (mb_buf (relay_consume n mb)) = drop n (take (mb_end mb) (mb_buf mb))
  /\ (mb_end (relay_consume n mb) <= mb_size (relay_consume n mb))%nat.
Proof.
  intros Hs Hn. unfold relay_consume, mb_size in *. cbn. split.
  - rewrite take_app_le by len_lia. apply take_ge. len_lia.
  - len_lia.
Qed.

Section ClientSpec.
Context `{V : Env} {W : Type}.
Variable bridge_cb : nat -> M W unit.

Lemma relay_get_bind {A} (k : relay -> M (relay * W) A) (r : relay) (w : W) s :
  (relay_get ≫= k) (r, w) s = k r (r, w) s.
Proof. done. Qed.

(** A hand-over does not depend on what was buffered. *)
Lemma relay_bridge_forget b g (r : relay) (w : W) s :
  relay_bridge bridge_cb (set_rl_rbuf b (set_rl_registered g r), w) s = relay_bridge bridge_cb (r, w) s.
Proof. by destruct r. Qed.

Definition lines_post (r : relay) (w : W) (s : sys) (res : line_result)
    (out3 : unit * (relay * W) * sys) : Prop :=
  match res with
  | Stay registered rest => exists b, out3 = (tt, (set_rl_rbuf b (set_rl_registered registered r), w), s)
      /\ relay_data (set_rl_rbuf b r) = rest /\ rbuf_fits b
  | HandOver => out3 = relay_bridge bridge_cb (r, w) s
  end.

Lemma lines_post_forget b g r w s res o :
  lines_post (set_rl_rbuf b (set_rl_registered g r)) w s res o -> lines_post r w s res o.
Proof.
  destruct res as [g' rest|]; cbn [lines_post]; [|by rewrite relay_bridge_forget].
  intros (b' & -> & Hd & Hb). by exists b'.
Qed.

Lemma relay_lines_spec f (r : relay) (w : W) s :
  (length (relay_data r) <= f)%nat -> rbuf_fits (rl_rbuf r) ->
  lines_post r w s (protocol (rl_registered r) (relay_data r)) (relay_lines bridge_cb f (r, w) s).
Proof.
  revert r. induction f as [|f IH]; intros r Hf Hb.
  { destruct (relay_data r) eqn:E; [|cbn in Hf; lia]. exists (rl_rbuf r).
    split; [by destruct r|]. split; [exact E|exact Hb]. }
  cbn [relay_lines]. rewrite relay_get_bind.
  destruct (memchr (relay_data r) 10) as [n|] eqn:E.
  2: { assert (protocol (rl_registered r) (relay_data r) = Stay (rl_registered r) (relay_data r)) as ->.
       { unfold protocol. destruct (relay_data r); [done|]. cbn [length lines_result]. by rewrite E. }
       exists (rl_rbuf r). split; [by destruct r|]. split; [reflexivity|exact Hb]. }
  pose proof (memchr_Some _ _ _ E) as (_ & Hn & _). rewrite (protocol_step _ _ n E). cbv zeta.
  destruct (rl_rbuf r) as [mb|] eqn:Er; [|unfold relay_data in Hn; rewrite Er in Hn; cbn in Hn; lia].
  assert (relay_data r = take (mb_end mb) (mb_buf mb)) as Hd by (unfold relay_data; by rewrite Er).
  cbn in Hb. unfold mb_size in Hb.
  destruct (relay_consume_data (n + 1) mb Hb) as [Hc Hs]; [rewrite Hd in Hn; len_lia|].
  assert (forall g, lines_post r w s (protocol g (drop (n + 1) (relay_data r)))
    (relay_lines bridge_cb f (set_rl_rbuf (Some (relay_consume (n + 1) mb)) (set_rl_registered g r), w) s))
    as Hstep.
  { intros g. apply (lines_post_forget (Some (relay_consume (n + 1) mb)) g).
    rewrite Hd, <- Hc. apply (IH (set_rl_rbuf (Some (relay_consume (n + 1) mb)) (set_rl_registered g r))).
    - unfold relay_data. cbn [rl_rbuf set_rl_rbuf]. rewrite Hc. rewrite Hd in Hn, Hf.
      rewrite length_drop. lia.
    - exact Hs. }
  destruct (_ && _).
  { unfold mbind, M_bind, on_relay, modify. cbn [fst snd].
    change (rl_rbuf (set_rl_registered true r)) with (rl_rbuf r). rewrite Er. apply Hstep. }
  destruct (streq _ (cstr "BRIDGE")); [done|].
  unfold mbind, M_bind, on_relay, modify. cbn [fst snd]. rewrite Er.
  specialize (Hstep (rl_registered r)). by destruct r.
Qed.

(** What a delivery leaves in the buffer before the lines are looked at: the
    new bytes are appended, or dropped when memory is short. *)
Definition appended (r : relay) (data d : bytes) : Prop :=
  d = relay_data r ++ data \/ (~ AllocOk V /\ d = relay_data r).

Lemma stay_unchanged r w s :
  memchr (relay_data r) 10 = None -> rbuf_fits (rl_rbuf r) ->
  lines_post r w s (protocol (rl_registered r) (relay_data r)) (tt, (r, w), s).
Proof.
  intros E Hb.
  assert (protocol (rl_registered r) (relay_data r) = Stay (rl_registered r) (relay_data r)) as ->.
  { unfold protocol. destruct (relay_data r); [done|]. cbn [length lines_result]. by rewrite E. }
  exists (rl_rbuf r). split; [by destruct r|]. split; [reflexivity|exact Hb].
Qed.

Lemma relay_append_spec mb data r w s :
  relay_data r = take (mb_end mb) (mb_buf mb) -> (mb_end mb <= mb_size mb)%nat ->
  zlen (relay_data r) + zlen data <= MAX_RBUF_SIZE ->
  exists d s1, appended r data d /\ out s1 = out s
    /\ lines_post r w s1 (protocol (rl_registered r) d) (relay_append bridge_cb mb data (r, w) s).
Proof.
  intros Hd Hm Hmax. unfold relay_append.
  unfold mbind at 1, M_bind at 1, on_relay at 1, modify at 1. cbn [fst snd].
  assert (zlen (relay_data r) = Z.of_nat (mb_end mb)) as Hlen.
  { rewrite Hd, length_take. unfold mb_size in Hm. lia. }
  destruct (MAX_RBUF_SIZE <? _) eqn:E; bool_hyps; [lia|].
  pose proof (mbuf_write_mem_spec (mbuf_set_pos mb (mb_end mb)) (relay_data r) data s) as Hwr.
  unfold iwp in Hwr. unfold mbind at 1, M_bind at 1, lift at 1.
  destruct (mbuf_write_mem _ data s) as [[e mb1] s2].
  destruct Hwr as [Ho2 Hwr]; [by rewrite Hd|].
  unfold mbind at 1, M_bind at 1, on_relay at 1, modify at 1. cbn [fst snd]. rewrite relay_get_bind.
  assert (appended r data (take (mb_end mb1) (mb_buf mb1)) /\ (mb_end mb1 <= mb_size mb1)%nat) as [Hap Hs1].
  { destruct Hwr as [(_ & (Ht & _ & Hs) & _)|(_ & -> & Hno)]; [split; [by left|done]|].
    split; [right; split; [done|]|done]. by rewrite Hd. }
  eexists. exists s2. split; [exact Hap|]. split; [done|].
  apply (lines_post_forget (Some mb1) (rl_registered r)).
  replace (set_rl_rbuf (Some mb1) (set_rl_rbuf (Some mb) r))
    with (set_rl_rbuf (Some mb1) (set_rl_registered (rl_registered r) r)) by by destruct r.
  set (r1 := set_rl_rbuf (Some mb1) _).
  change (take (mb_end mb1) (mb_buf mb1)) with (relay_data r1).
  change (rl_registered r) with (rl_registered r1). apply relay_lines_spec; [lia|exact Hs1].
Qed.

Lemma relay_recv_spec data r w s :
  rbuf_fits (rl_rbuf r) -> zlen (relay_data r) + zlen data <= MAX_RBUF_SIZE ->
  memchr (relay_data r) 10 = None ->
  exists d s1, appended r data d /\ out s1 = out s
    /\ lines_post r w s1 (protocol (rl_registered r) d) (relay_recv_handler bridge_cb data (r, w) s).
Proof.
  intros Hb Hmax Hnl. unfold relay_recv_handler. rewrite relay_get_bind.
  destruct (rl_rbuf r) as [mb|] eqn:Er.
  { apply relay_append_spec; [unfold relay_data; by rewrite Er|done|done]. }
  assert (relay_data r = []) as Hd0 by (unfold relay_data; by rewrite Er).
  unfold mbind at 1, M_bind at 1, lift at 1.
  pose proof (mbuf_alloc_spec 1024 s) as Ha. unfold iwp in Ha.
  destruct (mbuf_alloc 1024 s) as [[mb|] s1]; destruct Ha as [Ho Ha].
  - destruct Ha as [(Ht & _ & Hs) _]. rewrite <- Ho. apply relay_append_spec; [by rewrite Ht|done|done].
  - exists (relay_data r), s1. split; [by right|]. split; [done|].
    apply stay_unchanged; [done|]. by rewrite Er.
Qed.

(** Too much: the connection is given up. *)
Lemma relay_recv_overflow data r w s :
  rbuf_fits (rl_rbuf r) -> MAX_RBUF_SIZE < zlen (relay_data r) + zlen data ->
  exists s1, out s1 = out s /\
    (relay_recv_handler bridge_cb data (r, w) s = relay_close_handler (r, w) s1
     \/ (~ AllocOk V /\ relay_recv_handler bridge_cb data (r, w) s = (tt, (r, w), s1))).
Proof.
  intros Hb Hmax. unfold relay_recv_handler. rewrite relay_get_bind.
  assert (forall mb s1, zlen (relay_data r) = Z.of_nat (mb_end mb) ->
    relay_append bridge_cb mb data (r, w) s1 = relay_close_handler (r, w) s1) as Hc.
  { intros mb s1 Hl. unfold relay_append, mbind at 1, M_bind at 1, on_relay at 1, modify at 1.
    cbn [fst snd]. destruct (MAX_RBUF_SIZE <? _) eqn:E; bool_hyps; [|lia].
    destruct r as [[tc|] ? ? ? ? ? ? ? ? ? ? ? ?]; done. }
  destruct (rl_rbuf r) as [mb|] eqn:Er.
  { exists s. split; [done|left]. apply Hc. unfold relay_data. rewrite Er, length_take.
    cbn in Hb. unfold mb_size in Hb. lia. }
  unfold mbind, M_bind, lift.
  pose proof (mbuf_alloc_spec 1024 s) as Ha. unfold iwp in Ha.
  destruct (mbuf_alloc 1024 s) as [[mb|] s1]; destruct Ha as [Ho Ha]; exists s1; (split; [done|]).
  - left. apply Hc. destruct Ha as [Hh _]. pose proof (mbuf_holds_length _ _ Hh) as Hl.
    unfold relay_data. rewrite Er. cbn in *. lia.
  - right. split; [exact Ha|reflexivity].
Qed.
End ClientSpec.

(** ** The invariant of the client *)
Record relay_inv (r : relay) : Prop := {
  ri_fits : rbuf_fits (rl_rbuf r);
  ri_bound : zlen (relay_data r) <= MAX_RBUF_SIZE;
  ri_lines : memchr (relay_data r) 10 = None;
  (* a running client has a connection or is about to make one, never both *)
  ri_conn : rl_running r = true ->
    (rl_tc r <> None /\ rl_tmr r = None)
    \/ (rl_tc r = None /\ exists d, rl_tmr r = Some d /\ RECONNECT_INTERVAL_MS <= d <= MAX_RECONNECT_MS);
  ri_stopped : rl_running r = false -> rl_tc r = None /\ rl_tmr r = None;
  (* nothing is remembered of a connection that is gone *)
  ri_gone : rl_tc r = None -> rl_registered r = false /\ rl_rbuf r = None;
  ri_bridging : rl_bridging r = false;
  ri_backoff : 0 <= rl_backoff r < 4294967296;
  ri_texts : (length (rl_device_id r) <= 63)%nat /\ (length (rl_auth_token r) <= 63)%nat
}.

Lemma backoff_delay_range c : 0 <= c -> RECONNECT_INTERVAL_MS <= backoff_delay c <= MAX_RECONNECT_MS.
Proof.
  intros Hc. unfold backoff_delay, RECONNECT_INTERVAL_MS, MAX_RECONNECT_MS.
  destruct (c <? 6) eqn:E; bool_hyps; [|by vm_compute].
  assert (c = 0 \/ c = 1 \/ c = 2 \/ c = 3 \/ c = 4 \/ c = 5) as H by lia.
  repeat (destruct H as [-> | H]; [by vm_compute|]). subst c. by vm_compute.
Qed.

(** Reconnection backs off: after [n] consecutive failures the next
    attempt is made after 5 s doubled [n] times, and never after more than
    5 min; the counter does not overflow into the shift. *)
Theorem backoff_schedule (n : Z) :
  0 <= n -> backoff_delay n = Z.min (5000 * 2 ^ n) 300000.
Proof.
  intros Hn. unfold backoff_delay, RECONNECT_INTERVAL_MS, MAX_RECONNECT_MS.
  destruct (n <? 6) eqn:E; bool_hyps.
  - assert (n = 0 \/ n = 1 \/ n = 2 \/ n = 3 \/ n = 4 \/ n = 5) as H by lia.
    repeat (destruct H as [-> | H]; [by vm_compute|]). subst n. by vm_compute.
  - change (u32 (Z.shiftl 5000 6)) with 320000. cbn [Z.ltb Z.compare Pos.compare Pos.compare_cont].
    pose proof (Z.pow_le_mono_r 2 6 n ltac:(lia) ltac:(lia)). lia.
Qed.

Lemma backoff_schedule_witness : map backoff_delay [0; 1; 5; 6; 40] = [5000; 10000; 160000; 300000; 300000].
Proof.
  cbn [map]. rewrite !backoff_schedule by lia. vm_compute. reflexivity.
Defined.

(** A client without a connection, a buffer or a timer. *)
Record quiet (r : relay) : Prop := {
  q_tc : rl_tc r = None;
  q_tmr : rl_tmr r = None;
  q_rbuf : rl_rbuf r = None;
  q_registered : rl_registered r = false;
  q_bridging : rl_bridging r = false;
  q_backoff : 0 <= rl_backoff r < 4294967296;
  q_texts : (length (rl_device_id r) <= 63)%nat /\ (length (rl_auth_token r) <= 63)%nat
}.

Lemma quiet_stopped r : quiet r -> rl_running r = false -> relay_inv r.
Proof.
  intros [? ? Hb] Hr. constructor; unfold relay_data; rewrite ?Hb; cbn; try done; try congruence.
Qed.

(** Quiet but for a timer within the limits. *)
Lemma quiet_timer r d :
  quiet r -> rl_running r = true -> RECONNECT_INTERVAL_MS <= d <= MAX_RECONNECT_MS ->
  relay_inv (set_rl_tmr (Some d) r).
Proof.
  intros [? ? Hb] Hr Hd. constructor; unfold relay_data; cbn; rewrite ?Hb; cbn; try done; try congruence.
  intros _. right. eauto.
Qed.

Section invariant.
Context `{V : Env} {W : Type}.
Variable bridge_cb : nat -> M W unit.

Abbreviation keeps_inv r m := (forall (w : W) s, wp m (fun _ x _ => relay_inv (fst x)) (r, w) s).

Lemma schedule_wp r : quiet r -> keeps_inv r relay_schedule_reconnect.
Proof.
  intros Hq w s. unfold relay_schedule_reconnect. apply wp_bind, wp_bind, wp_get, wp_ret. cbn [fst].
  destruct (rl_running r) eqn:E; cbn [negb]; [|apply wp_ret; by apply quiet_stopped].
  unfold relay_backoff_delay. do 2 apply wp_bind. apply wp_bind, wp_get, wp_ret.
  apply wp_bind, wp_modify, wp_ret, wp_modify. cbn [fst].
  apply quiet_timer; [|done|apply backoff_delay_range; apply Hq].
  destruct Hq; constructor; cbn; try done. apply u32_range.
Qed.

Lemma connect_wp r : quiet r -> rl_running r = true -> keeps_inv r relay_do_connect.
Proof.
  intros Hq Hr w s. unfold relay_do_connect. apply wp_bind, wp_lift, iwp_ask.
  destruct (negb _); [by apply schedule_wp|]. apply wp_bind, wp_lift, iwp_ask.
  apply wp_bind, wp_bind, wp_get, wp_ret, wp_bind, wp_lift, iwp_emit, wp_bind, wp_lift, iwp_ask.
  destruct (negb _); [by apply schedule_wp|]. apply wp_bind, wp_lift, iwp_fresh, wp_modify. cbn [fst].
  destruct Hq as [? Ht Hb]. constructor; unfold relay_data; cbn; rewrite ?Hb; cbn; try done; try congruence.
  intros _. by left.
Qed.

(** The connection is dropped: what remains is quiet but for the timer. *)
Lemma drop_all_wp r :
  relay_inv r -> forall (w : W) s,
  wp drop_all (fun _ x _ => snd x = w /\ quiet (set_rl_tmr None (fst x))
    /\ rl_tmr (fst x) = rl_tmr r /\ rl_running (fst x) = rl_running r) (r, w) s.
Proof.
  intros Hi w s. unfold drop_all, drop_tc. do 2 apply wp_bind. apply wp_bind, wp_get, wp_ret. cbn [fst].
  apply wp_bind. eapply (wp_mono _ (fun _ x _ => x = (r, w))).
  { destruct (rl_tc r); [by apply wp_lift, iwp_emit|by apply wp_ret]. }
  intros _ x s' ->. do 2 apply wp_modify. cbn. split; [done|]. split; [|done].
  destruct Hi. by constructor.
Qed.

Lemma quiet_drop r : quiet (set_rl_tmr None r) -> rl_tmr r = None -> quiet r.
Proof. intros []. by constructor. Qed.

Lemma close_wp r : relay_inv r -> rl_tc r <> None -> keeps_inv r relay_close_handler.
Proof.
  intros Hi Htc w s.
  assert (rl_tmr r = None) as Ht.
  { destruct (rl_running r) eqn:E; [|by apply (ri_stopped r Hi)].
    destruct (ri_conn r Hi E) as [[_ ?]|[? _]]; [done|congruence]. }
  unfold relay_close_handler. apply wp_bind.
  eapply wp_mono; [by apply drop_all_wp|]. intros _ [r1 w1] s1 (_ & Hq & Htm & Hrun). cbn [fst] in *.
  apply quiet_drop in Hq; [|congruence]. apply wp_bind, wp_bind, wp_get, wp_ret. cbn [fst].
  destruct (rl_running r1 && negb (rl_bridging r1)) eqn:E; [by apply schedule_wp|].
  apply wp_ret. cbn. apply quiet_stopped; [done|]. by rewrite (q_bridging r1 Hq), andb_true_r in E.
Qed.

Lemma bridge_wp r : relay_inv r -> rl_tc r <> None -> keeps_inv r (relay_bridge bridge_cb).
Proof.
  intros Hi Htc w s. unfold relay_bridge. apply wp_bind, wp_bind, wp_get, wp_ret. cbn [fst].
  apply wp_bind, wp_modify. cbn [fst snd].
  set (r1 := set_rl_registered _ _). apply wp_bind.
  eapply (wp_mono _ (fun _ x _ => fst x = r1)).
  { destruct (rl_has_cb r); [|by apply wp_ret]. destruct (rl_tc r); [|by apply wp_ret].
    apply wp_zoom. unfold wp. by destruct (bridge_cb _ _ _) as [[??]?]. }
  intros _ [r2 w2] s2 Hr2. cbn [fst] in Hr2. subst r2. apply wp_bind, wp_modify. cbn [fst snd].
  apply wp_bind, wp_bind, wp_get, wp_ret. cbn [fst].
  assert (rl_tmr r = None) as Ht.
  { destruct (rl_running r) eqn:E; [|by apply (ri_stopped r Hi)].
    destruct (ri_conn r Hi E) as [[_ ?]|[? _]]; [done|congruence]. }
  assert (quiet (set_rl_backoff 0 (set_rl_bridging false r1))) as Hq
    by (destruct Hi; constructor; cbn; first [done|lia]).
  change (rl_running (set_rl_backoff 0 (set_rl_bridging false r1))) with (rl_running r).
  destruct (rl_running r) eqn:E; [apply wp_modify|apply wp_ret]; cbn [fst].
  - apply quiet_timer; [done|done|]. by vm_compute.
  - by apply quiet_stopped.
Qed.

(** Other lines, other bytes: the connection stays. *)
Lemma inv_rebuffer r g b :
  relay_inv r -> rl_tc r <> None -> rbuf_fits b ->
  zlen (relay_data (set_rl_rbuf b r)) <= MAX_RBUF_SIZE -> memchr (relay_data (set_rl_rbuf b r)) 10 = None ->
  relay_inv (set_rl_rbuf b (set_rl_registered g r)).
Proof. intros [] Htc Hb Hl Hn. by constructor. Qed.

Lemma protocol_shrinks registered data registered' rest :
  protocol registered data = Stay registered' rest -> (length rest <= length data)%nat.
Proof.
  remember (length data) as k eqn:Hk. revert registered data Hk.
  induction k as [k IH] using lt_wf_ind. intros registered data -> Hp.
  destruct (memchr data 10) as [n|] eqn:E.
  - pose proof (memchr_Some _ _ _ E) as (_ & Hn & _). rewrite (protocol_step _ _ n) in Hp by done.
    pose proof (length_drop data (n + 1)) as Hlt. cbv zeta in Hp.
    assert (length (drop (n + 1) data) < length data)%nat as Hlt' by lia.
    destruct (_ && _); [pose proof (IH _ Hlt' _ _ eq_refl Hp); lia|].
    destruct (streq _ _); [done|]. pose proof (IH _ Hlt' _ _ eq_refl Hp). lia.
  - unfold protocol in Hp. destruct data; [by injection Hp as _ <-|].
    cbn [length lines_result] in Hp. rewrite E in Hp. by injection Hp as _ <-.
Qed.

Lemma recv_wp r data : relay_inv r -> rl_tc r <> None -> keeps_inv r (relay_recv_handler bridge_cb data).
Proof.
  intros Hi Htc w s.
  destruct (Z.le_gt_cases (zlen (relay_data r) + zlen data) MAX_RBUF_SIZE) as [Hle|Hgt].
  - destruct (relay_recv_spec bridge_cb data r w s (ri_fits r Hi) Hle (ri_lines r Hi))
      as (d & s1 & Happ & _ & Hpost).
    unfold wp. destruct (protocol (rl_registered r) d) as [g rest|] eqn:Ep; cbn [lines_post] in Hpost.
    + destruct Hpost as (b & -> & Hd & Hb). apply inv_rebuffer; [done|done|done|..]; rewrite Hd.
      * apply protocol_shrinks in Ep. destruct Happ as [-> |[_ ->]]; [len_lia|].
        pose proof (ri_bound r Hi). lia.
      * by eapply protocol_rest.
    + rewrite Hpost. exact (bridge_wp r Hi Htc w s1).
  - destruct (relay_recv_overflow bridge_cb data r w s (ri_fits r Hi) Hgt) as (s1 & _ & [Hc|[_ Hc]]);
      unfold wp; rewrite Hc; [exact (close_wp r Hi Htc w s1)|exact Hi].
Qed.

Lemma inv_backoff0 r : relay_inv r -> relay_inv (set_rl_backoff 0 r).
Proof. intros []. by constructor. Qed.

Lemma estab_wp r : relay_inv r -> keeps_inv r relay_estab_handler.
Proof.
  intros Hi w s. apply inv_backoff0 in Hi. unfold relay_estab_handler. apply wp_bind, wp_modify. cbn [fst snd].
  apply wp_bind, wp_bind, wp_get, wp_ret. cbn [fst]. set (r1 := set_rl_backoff 0 r) in *. apply wp_bind, wp_lift.
  unfold iwp. destruct (mbuf_alloc _ _) as [[mb|] s1]; [|by apply wp_ret].
  destruct (rl_tc r1); [|by apply wp_ret].
  apply wp_bind, wp_lift. unfold iwp. destruct (mbuf_write_mem _ _ _) as [[e mb1] s2].
  apply wp_bind, wp_lift, iwp_emit, wp_bind, wp_lift, iwp_ask, wp_ret. exact Hi.
Qed.

Lemma reconnect_wp r : relay_inv r -> rl_tmr r <> None -> keeps_inv r relay_reconnect.
Proof.
  intros Hi Ht w s. unfold relay_reconnect. apply wp_bind, wp_modify, wp_bind, wp_bind, wp_get, wp_ret.
  cbn [fst snd].
  destruct (rl_running (set_rl_tmr None r)) eqn:E; cbn in E; cbn [negb].
  2: { destruct (ri_stopped r Hi E). done. }
  destruct (ri_conn r Hi E) as [[_ ?]|[Htc _]]; [done|].
  destruct (ri_gone r Hi Htc) as [Hg Hb]. apply wp_bind. unfold drop_all, drop_tc.
  do 2 apply wp_bind. apply wp_bind, wp_get, wp_ret. cbn [fst rl_tc set_rl_tmr]. rewrite Htc.
  apply wp_bind, wp_ret. do 2 apply wp_modify. cbn [fst snd]. apply connect_wp; [|done].
  destruct Hi. by constructor.
Qed.

Lemma start_wp r host port id token cb :
  relay_inv r -> rl_running r = false -> keeps_inv r (relay_client_start host port id token cb).
Proof.
  intros Hi E w s. unfold relay_client_start.
  destruct host as [host|], id as [id|], token as [token|]; try (by apply wp_ret).
  destruct (ri_stopped r Hi E) as [Htc _]. destruct (ri_gone r Hi Htc) as [Hg Hb].
  apply wp_bind, wp_modify, wp_bind. cbn [fst snd]. eapply wp_mono; [apply connect_wp; [|done]|].
  - destruct Hi. constructor; try done. cbn. unfold str_ncpy. split; len_lia.
  - intros ? x s' Hx. by apply wp_ret.
Qed.

Lemma stop_wp r : relay_inv r -> keeps_inv r relay_client_stop.
Proof.
  intros Hi w s. unfold relay_client_stop. apply wp_bind, wp_modify. cbn [fst snd].
  unfold drop_all, drop_tc. do 2 apply wp_bind. apply wp_bind, wp_get, wp_ret. cbn [fst].
  set (r1 := set_rl_tmr _ _). apply wp_bind. eapply (wp_mono _ (fun _ x _ => x = (r1, w))).
  { destruct (rl_tc r1); [by apply wp_lift, iwp_emit|by apply wp_ret]. }
  intros _ x s' ->. do 2 apply wp_modify. cbn [fst snd]. apply quiet_stopped; [|done].
  destruct Hi. by constructor.
Qed.

(** What the event loop and [main] may do with the client: the callbacks of its
    connection while it has one, its timer while it runs, stop, and start when
    it is stopped.  The last is how [main.c] uses it (one start before the event
    loop, one stop after it); [relay_client_start] itself has no such guard, see
    [start_while_running]. *)
Definition rc_state : Type := relay * W * sys.
Definition does {A} (m : M (relay * W) A) (x y : rc_state) : Prop :=
  let '(_, x', s') := m (fst x) (snd x) in y = (x', s').
Inductive relay_step : rc_state -> rc_state -> Prop :=
  | rc_estab x y : rl_tc (fst (fst x)) <> None -> does relay_estab_handler x y -> relay_step x y
  | rc_recv data x y :
      rl_tc (fst (fst x)) <> None -> does (relay_recv_handler bridge_cb data) x y -> relay_step x y
  | rc_close x y : rl_tc (fst (fst x)) <> None -> does relay_close_handler x y -> relay_step x y
  | rc_timer x y : rl_tmr (fst (fst x)) <> None -> does relay_reconnect x y -> relay_step x y
  | rc_stop x y : does relay_client_stop x y -> relay_step x y
  | rc_start host port id token cb x y :
      rl_running (fst (fst x)) = false ->
      does (relay_client_start host port id token cb) x y -> relay_step x y.

Lemma does_wp {A} (m : M (relay * W) A) x y :
  (forall w s, wp m (fun _ x _ => relay_inv (fst x)) (fst (fst x), w) s) ->
  does m x y -> relay_inv (fst (fst y)).
Proof.
  destruct x as [[r w] s]. intros Hm. specialize (Hm w s). unfold wp in Hm. unfold does. cbn [fst snd] in *.
  destruct (m (r, w) s) as [[a x'] s']. by intros ->.
Qed.

Lemma relay_step_inv x y : relay_step x y -> relay_inv (fst (fst x)) -> relay_inv (fst (fst y)).
Proof.
  intros Hs Hi.
  destruct Hs as [x y Ht Hd|data x y Ht Hd|x y Ht Hd|x y Ht Hd|x y Hd|host port id token cb x y Hr Hd];
    revert Hd; apply does_wp.
  - by apply estab_wp.
  - by apply recv_wp.
  - by apply close_wp.
  - by apply reconnect_wp.
  - by apply stop_wp.
  - by apply start_wp.
Qed.
End invariant.

(** ** Theorems *)

(** C36. A delivery from the relay does what the line protocol says for all
    bytes received so far, however they were segmented: a complete OK line
    registers the client, a complete BRIDGE line hands the connection over, all
    other lines are skipped, an incomplete line waits; nothing else changes and
    nothing is sent.  (Within the 8 KB limit, with memory available.) *)
Theorem relay_recv_correct `{V : Env} {W : Type} (bridge_cb : nat -> M W unit) (data : bytes)
    (r : relay) (w : W) (s : sys) :
  AllocOk V -> relay_inv r -> zlen (relay_data r) + zlen data <= MAX_RBUF_SIZE ->
  exists s1, out s1 = out s /\
    match protocol (rl_registered r) (relay_data r ++ data) with
    | Stay registered rest =>
        exists b, relay_recv_handler bridge_cb data (r, w) s
                  = (tt, (set_rl_rbuf b (set_rl_registered registered r), w), s1)
          /\ relay_data (set_rl_rbuf b r) = rest
    | HandOver => relay_recv_handler bridge_cb data (r, w) s = relay_bridge bridge_cb (r, w) s1
    end.
Proof.
  intros Ha Hi Hle.
  destruct (relay_recv_spec bridge_cb data r w s (ri_fits r Hi) Hle (ri_lines r Hi))
    as (d & s1 & [-> |[Hno _]] & Ho & Hp); [|done].
  exists s1. split; [done|]. destruct (protocol _ _); [|exact Hp].
  destruct Hp as (b & ? & ? & _). by exists b.
Qed.

Definition demo_relay : relay :=
  Relay (Some 5%nat) None None (cstr "relay") 443 (cstr "door-1") (cstr "smartlock2026") (cstr "relay:443")
    true false true false 0.
Lemma demo_relay_inv : relay_inv demo_relay.
Proof.
  constructor; unfold relay_data; cbn; try done; try lia. intros _. left. done.
Qed.

Lemma relay_recv_correct_witness :
  snd (snd (fst (@relay_recv_handler good_env (list nat) (fun tc => modify (fun l => tc :: l))
    (cstr "OK\r\nBRIDGE\r\n") (demo_relay, []) (Sys 0 [])))) = [5%nat].
Proof.
  destruct (@relay_recv_correct good_env (list nat) (fun tc => modify (fun l => tc :: l))
    (cstr "OK\r\nBRIDGE\r\n") demo_relay [] (Sys 0 []) good_env_alloc demo_relay_inv) as (s1 & _ & H).
  - vm_compute. discriminate.
  - change (protocol _ _) with HandOver in H. cbv iota in H. rewrite H. reflexivity.
Defined.

(** What can be told of the client from outside. *)
Definition relay_seen (r : relay) : option nat * option Z * bool * bool * Z * bytes :=
  (rl_tc r, rl_tmr r, rl_registered r, rl_running r, rl_backoff r, relay_data r).

(** A hand-over leaves the same client whatever the callback does. *)
Lemma relay_bridge_seen {W} (cb : nat -> M W unit) (r : relay) (w : W) (s : sys) :
  relay_seen (fst (snd (fst (relay_bridge cb (r, w) s))))
  = (None, if rl_running r then Some RECONNECT_INTERVAL_MS else rl_tmr r, false, rl_running r, 0, []).
Proof.
  destruct r as [tc tmr rb ho po di at_ ad [] reg [] br bo], tc as [tc|]; try reflexivity;
    unfold relay_bridge, relay_get, on_relay, on_app, mbind, M_bind, get, modify, zoom, mret, M_ret; cbn;
    destruct (cb tc w s) as [[? ?] ?]; reflexivity.
Qed.

(** The device's side of the protocol does not depend on how TCP cuts the
    stream: delivering [a] and then [b] leaves the client exactly as delivering
    both at once does (connection, timer, registration, backoff, bytes
    waiting), as long as [a] alone does not hand the connection over. *)
Theorem relay_recv_segmentation `{V : Env} {W : Type} (bridge_cb : nat -> M W unit) (a b : bytes)
    (r : relay) (w : W) (s : sys) :
  AllocOk V -> relay_inv r -> zlen (relay_data r) + zlen (a ++ b) <= MAX_RBUF_SIZE ->
  protocol (rl_registered r) (relay_data r ++ a) <> HandOver ->
  let '(_, x1, s1) := relay_recv_handler bridge_cb a (r, w) s in
  relay_seen (fst (snd (fst (relay_recv_handler bridge_cb b x1 s1))))
  = relay_seen (fst (snd (fst (relay_recv_handler bridge_cb (a ++ b) (r, w) s)))).
Proof.
  intros Ha Hi Hle Hno. rewrite length_app in Hle.
  destruct (relay_recv_spec bridge_cb a r w s (ri_fits r Hi) ltac:(lia) (ri_lines r Hi))
    as (d & s1 & [-> |[Hn _]] & _ & Hp); [|done].
  destruct (relay_recv_spec bridge_cb (a ++ b) r w s (ri_fits r Hi) ltac:(len_lia) (ri_lines r Hi))
    as (d & s3 & [-> |[Hn _]] & _ & H3); [|done].
  rewrite app_assoc, protocol_app in H3.
  destruct (protocol (rl_registered r) (relay_data r ++ a)) as [g rest|] eqn:E; [|done].
  destruct Hp as (rb & -> & Hd & Hf).
  set (r1 := set_rl_rbuf rb (set_rl_registered g r)).
  pose proof (protocol_rest _ _ _ _ E) as Hr. pose proof (protocol_rest_length _ _ _ _ E) as Hl.
  assert (relay_data r1 = rest) as Hd1 by done. rewrite length_app in Hl.
  destruct (relay_recv_spec bridge_cb b r1 w s1 Hf ltac:(rewrite Hd1; lia) ltac:(by rewrite Hd1))
    as (d & s2 & [-> |[Hn _]] & _ & H2); [|done].
  rewrite Hd1 in H2. change (rl_registered r1) with g in H2.
  destruct (protocol g (rest ++ b)) as [g' rest'|].
  - destruct H2 as (rb2 & -> & Hd2 & _), H3 as (rb3 & -> & Hd3 & _).
    unfold relay_seen. cbn [fst snd]. change (relay_data (set_rl_rbuf rb2 r1) = rest') in Hd2.
    unfold relay_data in *. cbn in *. by rewrite Hd2, Hd3.
  - cbn [lines_post] in H2, H3. rewrite H2, H3. unfold r1. by rewrite !relay_bridge_seen.
Qed.

Lemma relay_recv_segmentation_witness :
  let '(_, x1, s1) := @relay_recv_handler good_env (list nat) (fun tc => modify (fun l => tc :: l))
    (cstr "OK\r\nBRI") (demo_relay, []) (Sys 0 []) in
  relay_seen (fst (snd (fst (@relay_recv_handler good_env (list nat) (fun tc => modify (fun l => tc :: l))
    (cstr "DGE\r\n") x1 s1)))) = (None, Some 5000, false, true, 0, []).
Proof.
  pose proof (@relay_recv_segmentation good_env (list nat) (fun tc => modify (fun l => tc :: l))
    (cstr "OK\r\nBRI") (cstr "DGE\r\n") demo_relay [] (Sys 0 []) good_env_alloc demo_relay_inv) as H.
  destruct (relay_recv_handler _ (cstr "OK\r\nBRI") _ _) as [[u x1] s1].
  etransitivity; [apply H|]; [vm_compute; discriminate..|]. vm_compute. reflexivity.
Defined.

(** Why the invariant is about starts of a stopped client: a second start of a
    connected client whose connection attempt fails leaves both the connection
    and a reconnection, which will replace it. *)
Definition refusing_env : Env := {|
  env q n := match q with QAlloc => 1 | QConnect => 111 (* ECONNREFUSED *) | _ => 0 end;
  env_encode := @env_encode good_env; env_md5 := @env_md5 good_env;
  env_atoi_overflow := @env_atoi_overflow good_env; env_ntop := @env_ntop good_env;
  env_uninit := @env_uninit good_env |}.
Lemma start_while_running :
  let '(_, (r, _), _) := @relay_client_start refusing_env unit (Some (cstr "relay")) 0 (Some (cstr "door-1"))
    (Some (cstr "smartlock2026")) true (demo_relay, tt) (Sys 0 []) in
  rl_running r = true /\ rl_tc r = Some 5%nat /\ rl_tmr r = Some RECONNECT_INTERVAL_MS.
Proof. vm_compute. done. Qed.

(** C12. Invariant of the relay client, for any application behind the bridge
    callback and whatever the network does: from the stopped state, after any
    sequence of starts of the stopped client (as [main.c] does; a start while it
    runs is not covered, see [start_while_running]), stops, connections
    established, deliveries, closed connections and timer expiries, a running
    client either has its connection or has a reconnection scheduled within 5 s
    to 5 min, never neither and never both, so it cannot get stuck; a stopped
    client has neither; without a connection it is not registered and holds no
    data; and it never buffers more than 8 KB or a complete line. *)
Theorem relay_client_invariant `{V : Env} {W : Type} (bridge_cb : nat -> M W unit)
    (w0 : W) (s0 : sys) (r : relay) (w : W) (s : sys) :
  rtc (relay_step bridge_cb) (relay_zero, w0, s0) (r, w, s) -> relay_inv r.
Proof.
  intros Hs. change r with (fst (fst (r, w, s))).
  assert (relay_inv (fst (fst (relay_zero, w0, s0)))) as H0 by (constructor; unfold relay_data; cbn; done || lia).
  induction Hs as [x|x y z Hstep _ IH]; [done|]. apply IH. by eapply relay_step_inv.
Qed.

Lemma relay_client_invariant_witness :
  let '(_, (r, _), _) := @relay_client_start good_env unit (Some (cstr "relay")) 0 (Some (cstr "door-1"))
    (Some (cstr "smartlock2026")) true (relay_zero, tt) (Sys 0 []) in relay_inv r.
Proof.
  destruct (@relay_client_start good_env unit _ _ _ _ _ _ _) as [[a [r w]] s] eqn:E.
  apply (@relay_client_invariant good_env unit (fun _ => mret tt) tt (Sys 0 []) r w s).
  eapply rtc_l; [|apply rtc_refl].
  apply (rc_start _ (Some (cstr "relay")) 0 (Some (cstr "door-1")) (Some (cstr "smartlock2026")) true);
    [reflexivity|]. unfold does. cbn [fst snd]. rewrite E. reflexivity.
Defined.
