(* ===== verification/RelayServer.v ===== *)
(** * The relay server ([relay_server.c])

    A process of its own: one thread per connection, a table of registered
    devices under a lock.  Reading a line, forwarding bytes and classifying the
    first line are functions; the threads are a step relation whose steps are
    the code between two blocking points, so that the sections under the lock
    are atomic and everything else may interleave.

    A socket is identified by a number that is not used again; what a second
    [close] of the same descriptor ([double_close]) does to a later connection is
    the subject of [RelayFds]. *)
From stdpp Require Import gmap relations.
From S2P Require Import Prelude Sys.

Definition MAX_DEVICES : nat := 64.
Definition MAX_LINE : nat := 256.
Definition ID_SIZE : nat := 64.
Definition AUTH_TOKEN : bytes := cstr "smartlock2026".

(** ** Reading a line *)

(** [room] is [bufsz - 1 - pos].  [None] is an error or the end of the stream;
    otherwise the text and the rest of the stream. *)
Fixpoint readline_loop (room : nat) (buf : bytes) (stream : bytes) : option (bytes * bytes) :=
  match room with
  | O => Some (buf, stream)
  | S room' =>
      match stream with
      | [] => None
      | c :: t =>
          if c =? 10 then
            let pos := length buf in
            Some (if (0 <? pos)%nat && (nth (pos - 1) buf 0 =? 13) then take (pos - 1) buf else buf, t)
          else readline_loop room' (buf ++ [c]) t
      end
  end.
Definition readline (stream : bytes) (bufsz : nat) : option (bytes * bytes) :=
  readline_loop (bufsz - 1) [] stream.

(** ** Forwarding *)
Section Bridge.
(** The result of the [k]-th [send] of [n] bytes. *)
Variable send_ret : nat -> nat -> Z.

(** [while (sent < n)]: the bytes that went out, whether all did, and the
    number of the next call.  Every round sends at least one byte, so the
    length of the data is enough fuel. *)
Fixpoint send_all (fuel : nat) (data : bytes) (k : nat) : bytes * bool * nat :=
  match fuel, data with
  | _, [] => ([], true, k)
  | O, _ => ([], false, k)
  | S f, _ =>
      let w := send_ret k (length data) in
      if w <=? 0 then ([], false, S k)
      else
        let '(l, ok, k') := send_all f (drop (Z.to_nat w) data) (S k) in
        (take (Z.to_nat w) data ++ l, ok, k')
  end.

(** One direction: what the peer is sent for the chunks that [recv]
    returned before it returned 0 or an error. *)
Fixpoint bridge_one_dir (chunks : list bytes) (k : nat) : bytes :=
  match chunks with
  | [] => []
  | c :: t =>
      let '(l, ok, k') := send_all (length c) c k in
      if (ok : bool) then l ++ bridge_one_dir t k' else l
  end.
End Bridge.

(** ** The device table *)
Record device_slot := Slot { ds_in_use : bool; ds_bridging : bool; ds_id : bytes; ds_sock : nat }.
Definition slot_zero : device_slot := Slot false false [] 0.

Fixpoint first_slot (P : device_slot -> bool) (i : nat) (l : list device_slot) : option nat :=
  match l with
  | [] => None
  | d :: t => if P d then Some i else first_slot P (S i) t
  end.

Definition matches (device_id : bytes) (d : device_slot) : bool :=
  ds_in_use d && negb (ds_bridging d) && bytes_eqb (ds_id d) device_id.
Definition find_device (l : list device_slot) (device_id : bytes) : option nat :=
  first_slot (matches device_id) 0 l.
Definition alloc_device_slot (l : list device_slot) : option nat :=
  first_slot (fun d => negb (ds_in_use d)) 0 l.

Definition set_in_use (b : bool) (d : device_slot) : device_slot :=
  Slot b (ds_bridging d) (ds_id d) (ds_sock d).
Definition set_bridging (b : bool) (d : device_slot) : device_slot :=
  Slot (ds_in_use d) b (ds_id d) (ds_sock d).

(** ** The first line *)
Inductive request :=
  | ReqRegister (device_id : bytes)
  | ReqConnect (device_id : bytes)
  | ReqError (reply : bytes).

Definition valid_id_char (c : Z) : bool :=
  ((97 <=? c) && (c <=? 122)) || ((65 <=? c) && (c <=? 90)) || ((48 <=? c) && (c <=? 57))
  || (c =? 45) || (c =? 95).
Definition valid_id (l : bytes) : bool := forallb valid_id_char l.

(** The replies are the bytes [send] is given a length for: 22 of the 23 of the
    last one. *)
Definition ERR_AUTH : bytes := take 19 (cstr "ERROR auth_failed\r\n").
Definition ERR_ID : bytes := take 18 (cstr "ERROR invalid_id\r\n").
Definition ERR_FULL : bytes := take 19 (cstr "ERROR server_full\r\n").
Definition ERR_NOT_FOUND : bytes := take 24 (cstr "ERROR device_not_found\r\n").
Definition ERR_UNKNOWN : bytes := take 22 (cstr "ERROR unknown_command\r\n").

(** [line] is the content of the array, a C string. *)
Definition classify (line : bytes) : request :=
  let line := cstring line in
  if starts_with (cstr "REGISTER ") line then
    let device_id := drop 9 line in
    match strchr device_id 32 with
    | None => ReqError ERR_AUTH
    | Some i =>
        let token := drop (i + 1) device_id in
        let device_id := take i device_id in
        if negb (streq token AUTH_TOKEN) then ReqError ERR_AUTH
        else if negb (valid_id device_id) then ReqError ERR_ID
        else ReqRegister device_id
    end
  else if starts_with (cstr "CONNECT ") line then
    let device_id := drop 8 line in
    if negb (valid_id device_id) then ReqError ERR_ID else ReqConnect device_id
  else ReqError ERR_UNKNOWN.

(** ** Threads

    Where a connection's thread is. *)
Inductive pc :=
  | PRead                              (* in readline *)
  | PError (reply : bytes)             (* about to send an error and close *)
  | PRegister (id : bytes)             (* about to take the lock *)
  | PRegistered (slot : nat)           (* about to send OK *)
  | PWait (slot : nat)                 (* in the MSG_PEEK loop *)
  | PUnregister (slot : nat)           (* about to take the lock again *)
  | PConnect (id : bytes)              (* about to take the lock *)
  | PNotify (idx : nat) (dev : nat)    (* about to send OK and BRIDGE *)
  | PBridge (idx : nat) (dev : nat)    (* in bridge_sockets *)
  | PRelease (idx : nat) (dev : nat)   (* about to take the lock again *)
  | PClose (socks : list nat)          (* about to close these *)
  | PDone.

(** What a thread does that others can see. *)
Inductive relay_event :=
  | EvLine (sock : nat) (line : bytes)             (* a line was read *)
  | EvSend (sock : nat) (data : bytes)
  | EvClose (sock : nat)
  | EvRegistered (sock slot : nat) (id : bytes).   (* the slot was taken *)

Record server := Server {
  sv_devices : list device_slot;
  sv_threads : gmap nat pc;
  sv_log : list relay_event
}.

Definition server_init : server := Server (replicate MAX_DEVICES slot_zero) ∅ [].

(** What a blocking call returned to the thread. *)
Inductive input :=
  | ILine (line : option bytes)   (* readline; [None] is -1 *)
  | IPeek (n : Z)                 (* recv(..., MSG_PEEK) *)
  | IRun.                         (* nothing to wait for, or the bridge has ended *)

(** The section under the lock of REGISTER: the table, the sockets closed, and
    the slot. *)
Definition register (devs : list device_slot) (id : bytes) (sock : nat)
    : list device_slot * list nat * option nat :=
  let '(devs, closed) :=
    match find_device devs id with
    | Some e => (alter (set_in_use false) e devs, [ds_sock (nth e devs slot_zero)])
    | None => (devs, [])
    end in
  match alloc_device_slot devs with
  | None => (devs, closed, None)
  | Some slot =>
      (alter (fun d => Slot true (ds_bridging d) (take (ID_SIZE - 1) id) sock) slot devs, closed, Some slot)
  end.

(** One step of the thread of [sock] at [p]: the table, the next point, and
    what it did; [None] if [inp] is not what it waits for. *)
Definition thread_step (devs : list device_slot) (sock : nat) (p : pc) (inp : input)
    : option (list device_slot * pc * list relay_event) :=
  match p, inp with
  | PRead, ILine None | PRead, ILine (Some []) => Some (devs, PClose [sock], [])
  | PRead, ILine (Some line) =>
      Some (devs, match classify line with
                  | ReqRegister id => PRegister id
                  | ReqConnect id => PConnect id
                  | ReqError reply => PError reply
                  end, [EvLine sock line])
  | PError reply, IRun => Some (devs, PClose [sock], [EvSend sock reply])
  | PRegister id, IRun =>
      let '(devs, closed, slot) := register devs id sock in
      Some (devs, match slot with Some i => PRegistered i | None => PError ERR_FULL end,
            map EvClose closed ++ match slot with Some i => [EvRegistered sock i id] | None => [] end)
  | PRegistered slot, IRun => Some (devs, PWait slot, [EvSend sock (cstr "OK\r\n")])
  | PWait slot, IPeek n => Some (devs, if 0 <? n then PWait slot else PUnregister slot, [])
  | PUnregister slot, IRun =>
      let d := nth slot devs slot_zero in
      Some (if ds_in_use d && (ds_sock d =? sock)%nat then alter (set_in_use false) slot devs else devs,
            PClose [sock], [])
  | PConnect id, IRun =>
      match find_device devs id with
      | None => Some (devs, PError ERR_NOT_FOUND, [])
      | Some idx =>
          Some (alter (set_bridging true) idx devs, PNotify idx (ds_sock (nth idx devs slot_zero)), [])
      end
  | PNotify idx dev, IRun =>
      Some (devs, PBridge idx dev, [EvSend sock (cstr "OK\r\n"); EvSend dev (cstr "BRIDGE\r\n")])
  | PBridge idx dev, IRun => Some (devs, PRelease idx dev, [])
  | PRelease idx dev, IRun =>
      Some (alter (fun d => set_bridging false (set_in_use false d)) idx devs, PClose [sock; dev], [])
  | PClose socks, IRun => Some (devs, PDone, map EvClose socks)
  | _, _ => None
  end.

(** The server's steps: a connection is accepted, or a thread goes on. *)
Definition accept (sock : nat) (sv : server) : option server :=
  match sv_threads sv !! sock with
  | None => Some (Server (sv_devices sv) (<[sock := PRead]> (sv_threads sv)) (sv_log sv))
  | Some _ => None
  end.
Definition step_thread (sock : nat) (inp : input) (sv : server) : option server :=
  match sv_threads sv !! sock with
  | None => None
  | Some p =>
      match thread_step (sv_devices sv) sock p inp with
      | None => None
      | Some (devs, p', evs) => Some (Server devs (<[sock := p']> (sv_threads sv)) (sv_log sv ++ evs))
      end
  end.

Inductive server_step : server -> server -> Prop :=
  | sv_accept sock sv sv' : accept sock sv = Some sv' -> server_step sv sv'
  | sv_thread sock inp sv sv' : step_thread sock inp sv = Some sv' -> server_step sv sv'.

(** A run given as a list of what happens, for examples. *)
Inductive happening := HAccept (sock : nat) | HStep (sock : nat) (inp : input).
Fixpoint run (l : list happening) (sv : server) : option server :=
  match l with
  | [] => Some sv
  | HAccept sock :: t => accept sock sv ≫= run t
  | HStep sock inp :: t => step_thread sock inp sv ≫= run t
  end.

Lemma run_steps l sv sv' : run l sv = Some sv' -> rtc server_step sv sv'.
Proof.
  revert sv. induction l as [|[sock|sock inp] l IH]; intros sv H; cbn [run] in H.
  - injection H as <-. apply rtc_refl.
  - destruct (accept sock sv) as [sv1|] eqn:E; [|done]. eapply rtc_l; [by eapply sv_accept|]. by apply IH.
  - destruct (step_thread sock inp sv) as [sv1|] eqn:E; [|done].
    eapply rtc_l; [by eapply sv_thread|]. by apply IH.
Qed.

(** ** Lemmas: the table *)
Lemma first_slot_Some P k l i :
  first_slot P k l = Some i ->
  exists d, (k <= i)%nat /\ l !! (i - k)%nat = Some d /\ P d = true
    /\ forall j d', (j < i - k)%nat -> l !! j = Some d' -> P d' = false.
Proof.
  revert k. induction l as [|x l IH]; intros k H; cbn in H; [done|].
  destruct (P x) eqn:E.
  - injection H as <-. exists x. rewrite Nat.sub_diag. repeat split; [lia|done|lia].
  - destruct (IH _ H) as (d & Hk & Hl & Hd & Hmin). exists d.
    replace (i - k)%nat with (S (i - S k)) by lia. repeat split; [lia|done|done|].
    intros [|j] d' Hj Hl'; [by injection Hl' as <-|]. apply (Hmin j); [lia|done].
Qed.

Lemma first_slot_None P k l d : first_slot P k l = None -> d ∈ l -> P d = false.
Proof.
  revert k. induction l as [|x l IH]; intros k H Hd; cbn in H; [by apply not_elem_of_nil in Hd|].
  destruct (P x) eqn:E; [done|]. apply elem_of_cons in Hd as [-> |Hd]; [done|by eapply IH].
Qed.

Lemma first_slot_unique P l i d :
  l !! i = Some d -> P d = true -> (forall j d', l !! j = Some d' -> P d' = true -> j = i) ->
  first_slot P 0 l = Some i.
Proof.
  intros Hl Hd Hu. destruct (first_slot P 0 l) as [j|] eqn:E.
  - apply first_slot_Some in E as (d' & _ & Hj & Hd' & _). rewrite Nat.sub_0_r in Hj.
    f_equal. by eapply Hu.
  - eapply first_slot_None in E; [|by eapply list_elem_of_lookup_2]. congruence.
Qed.

Lemma nth_lookup_slot (l : list device_slot) i d : l !! i = Some d -> nth i l slot_zero = d.
Proof. intros H. rewrite nth_lookup, H. done. Qed.

(** A slot after a change of slot [i]. *)
Lemma alter_cases (f : device_slot -> device_slot) (i : nat) (l : list device_slot) (j : nat) d :
  alter f i l !! j = Some d ->
  (j <> i /\ l !! j = Some d) \/ (j = i /\ exists d0, l !! i = Some d0 /\ d = f d0).
Proof.
  destruct (decide (j = i)) as [-> |Hne].
  - rewrite list_lookup_alter_eq. destruct (l !! i) as [d0|]; cbn; [|done]. intros [= <-]. right. eauto.
  - rewrite list_lookup_alter_ne by done. by left.
Qed.

(** ** Reading and forwarding *)
Lemma readline_loop_line room buf text rest :
  Forall (fun c => c <> 10) text -> (length text < room)%nat ->
  readline_loop room buf (text ++ 10 :: rest) = readline_loop (room - length text) (buf ++ text) (10 :: rest).
Proof.
  intros Ht. revert room buf. induction Ht as [|c text Hc Ht IH]; intros room buf Hr.
  - by rewrite Nat.sub_0_r, app_nil_r.
  - destruct room as [|room]; [cbn in Hr; lia|]. cbn [app readline_loop length Nat.sub] in *.
    destruct (Z.eqb_spec c 10); [done|]. rewrite IH by lia. by rewrite <- app_assoc.
Qed.

(** A line terminated by CRLF that fits the array. *)
Lemma readline_crlf text rest bufsz :
  Forall (fun c => c <> 10) text -> (length text + 2 < bufsz)%nat ->
  readline (text ++ CRLF ++ rest) bufsz = Some (text, rest).
Proof.
  intros Ht Hl. unfold readline, CRLF. change ([13; 10] ++ rest) with ([13] ++ 10 :: rest).
  rewrite app_assoc. rewrite readline_loop_line.
  - destruct (bufsz - 1 - _)%nat as [|m] eqn:E; [len_lia|]. cbn [readline_loop Z.eqb Pos.eqb app].
    rewrite length_app. cbn [length]. destruct (0 <? _)%nat eqn:E2; bool_hyps; [|lia].
    cbn [andb]. rewrite app_nth2 by lia. replace (_ - 1 - _)%nat with 0%nat by lia. cbn [nth Z.eqb Pos.eqb].
    rewrite take_app_length' by lia. done.
  - apply Forall_app. split; [done|]. repeat constructor. lia.
  - len_lia.
Qed.

(** The text never fills the array. *)
Lemma readline_loop_bound room buf stream text rest :
  readline_loop room buf stream = Some (text, rest) -> (length text <= length buf + room)%nat.
Proof.
  revert buf stream. induction room as [|room IH]; intros buf stream H; cbn in H.
  - injection H as <- _. lia.
  - destruct stream as [|c t]; [done|]. destruct (c =? 10).
    + injection H as <- _. destruct (_ && _); len_lia.
    + apply IH in H. len_lia.
Qed.

Section Forward.
Variable send_ret : nat -> nat -> Z.
(** [send] never reports more than it was given. *)
Hypothesis send_le : forall k n, send_ret k n <= Z.of_nat n.

Lemma send_all_spec f data k :
  (length data <= f)%nat ->
  let '(l, ok, k') := send_all send_ret f data k in
  (exists t, data = l ++ t) /\ (ok = true -> l = data)
  /\ ((forall k n, (0 < n)%nat -> 0 < send_ret k n) -> ok = true).
Proof.
  revert data k. induction f as [|f IH]; intros data k Hf; destruct data as [|b data].
  - cbn. split; [by exists []|done].
  - cbn in Hf. lia.
  - cbn. split; [by exists []|done].
  - cbn [send_all]. set (d := b :: data) in *. pose proof (send_le k (length d)) as Hle.
    destruct (send_ret k (length d) <=? 0) eqn:E; bool_hyps.
    + split; [by exists d|]. split; [done|]. intros Hpos. specialize (Hpos k (length d)). subst d. cbn in *. lia.
    + set (w := Z.to_nat (send_ret k (length d))) in *.
      specialize (IH (drop w d) (S k) ltac:(rewrite length_drop; lia)).
      destruct (send_all _ f (drop w d) (S k)) as [[l ok] k']. destruct IH as ((t & Ht) & Hok & Hpos).
      split; [exists t; by rewrite <- app_assoc, <- Ht, take_drop|]. split; [|done].
      intros ->. by rewrite Hok, take_drop.
Qed.

Lemma bridge_prefix chunks k :
  exists t, concat chunks = bridge_one_dir send_ret chunks k ++ t.
Proof.
  revert k. induction chunks as [|c chunks IH]; intros k; [by exists []|]. cbn [bridge_one_dir concat].
  pose proof (send_all_spec (length c) c k ltac:(lia)) as H.
  destruct (send_all _ _ _ _) as [[l ok] k']. destruct H as ((t & Ht) & Hok & _). destruct ok.
  - destruct (IH k') as [t' Ht']. exists t'. rewrite (Hok eq_refl), Ht'. by rewrite <- app_assoc.
  - exists (t ++ concat chunks). by rewrite Ht at 1; rewrite <- app_assoc.
Qed.
End Forward.

(** ** The invariant of the relay *)

(** The connection [sock] asked for [req] in its first line. *)
Definition asked (log : list relay_event) (sock : nat) (req : request) : Prop :=
  exists line, EvLine sock line ∈ log /\ classify line = req.
Definition unregistered (log : list relay_event) (sock : nat) : Prop :=
  forall i id, EvRegistered sock i id ∉ log.

Definition bridge_of (p : pc) : option (nat * nat) :=
  match p with
  | PNotify idx dev | PBridge idx dev | PRelease idx dev => Some (idx, dev)
  | _ => None
  end.

(** Who is bridged with whom, and why. *)
Definition bridge_ok (log : list relay_event) (c idx dev : nat) : Prop :=
  exists id, asked log c (ReqConnect (take (ID_SIZE - 1) id)) /\ EvRegistered dev idx id ∈ log.

Definition thread_ok (log : list relay_event) (sock : nat) (p : pc) : Prop :=
  match p with
  | PRead => unregistered log sock
  | PRegister id => asked log sock (ReqRegister id) /\ unregistered log sock
  | PConnect id => asked log sock (ReqConnect id)
  | PNotify idx dev | PBridge idx dev | PRelease idx dev => bridge_ok log sock idx dev
  | _ => True
  end.

Definition slots_ok (devs : list device_slot) (log : list relay_event) : Prop :=
  forall i d, devs !! i = Some d -> ds_in_use d = true ->
    exists id, EvRegistered (ds_sock d) i id ∈ log /\ ds_id d = take (ID_SIZE - 1) id.

Record server_inv (sv : server) : Prop := {
  si_len : length (sv_devices sv) = MAX_DEVICES;
  si_slots : slots_ok (sv_devices sv) (sv_log sv);
  (* a registration was asked for with the token, and happens once *)
  si_auth : forall sock i id, EvRegistered sock i id ∈ sv_log sv -> asked (sv_log sv) sock (ReqRegister id);
  si_once : forall sock i j id id', EvRegistered sock i id ∈ sv_log sv ->
    EvRegistered sock j id' ∈ sv_log sv -> i = j;
  si_new : forall sock, sv_threads sv !! sock = None -> unregistered (sv_log sv) sock;
  si_threads : forall sock p, sv_threads sv !! sock = Some p -> thread_ok (sv_log sv) sock p;
  (* a bridge holds its slot, alone *)
  si_held : forall c p idx dev, sv_threads sv !! c = Some p -> bridge_of p = Some (idx, dev) ->
    exists d, sv_devices sv !! idx = Some d /\ ds_bridging d = true;
  si_alone : forall c c' p p' idx dev dev', sv_threads sv !! c = Some p -> sv_threads sv !! c' = Some p' ->
    bridge_of p = Some (idx, dev) -> bridge_of p' = Some (idx, dev') -> c = c'
}.

Lemma asked_app log evs sock req : asked log sock req -> asked (log ++ evs) sock req.
Proof. intros (line & Hl & Hc). exists line. split; [|done]. apply elem_of_app. by left. Qed.
Lemma bridge_ok_app log evs c idx dev : bridge_ok log c idx dev -> bridge_ok (log ++ evs) c idx dev.
Proof. intros (id & Ha & He). exists id. split; [by apply asked_app|]. apply elem_of_app. by left. Qed.

Lemma slots_ok_weaken devs devs' log evs :
  slots_ok devs log ->
  (forall i d, devs' !! i = Some d -> ds_in_use d = true ->
     exists d0, devs !! i = Some d0 /\ ds_in_use d0 = true /\ ds_sock d = ds_sock d0 /\ ds_id d = ds_id d0) ->
  slots_ok devs' (log ++ evs).
Proof.
  intros Hs Hd i d Hl Hu. destruct (Hd i d Hl Hu) as (d0 & Hl0 & Hu0 & -> & ->).
  destruct (Hs i d0 Hl0 Hu0) as (id & He & ?). exists id. split; [apply elem_of_app; by left|done].
Qed.

(** The section under the lock of REGISTER. *)
Lemma register_spec devs id sock devs' closed slot :
  register devs id sock = (devs', closed, slot) ->
  length devs' = length devs
  /\ (forall i d, devs !! i = Some d -> exists d', devs' !! i = Some d' /\ ds_bridging d' = ds_bridging d)
  /\ (forall i d, devs' !! i = Some d -> ds_in_use d = true ->
        (slot = Some i /\ ds_sock d = sock /\ ds_id d = take (ID_SIZE - 1) id)
        \/ (exists d0, devs !! i = Some d0 /\ ds_in_use d0 = true /\ ds_sock d = ds_sock d0
            /\ ds_id d = ds_id d0)).
Proof.
  unfold register.
  set (devs1 := match find_device devs id with
    | Some e => (alter (set_in_use false) e devs, [ds_sock (nth e devs slot_zero)])
    | None => (devs, []) end).
  assert (length (fst devs1) = length devs
    /\ (forall i d, devs !! i = Some d -> exists d', fst devs1 !! i = Some d' /\ ds_bridging d' = ds_bridging d)
    /\ (forall i d, fst devs1 !! i = Some d -> ds_in_use d = true -> devs !! i = Some d)) as (Hl1 & Hb1 & Hu1).
  { unfold devs1. destruct (find_device devs id) as [e|]; cbn [fst]; [|eauto].
    split; [apply length_alter|]. split.
    - intros i d Hi. destruct (decide (i = e)) as [-> |Hne].
      + rewrite list_lookup_alter_eq, Hi. by eexists.
      + rewrite list_lookup_alter_ne by done. eauto.
    - intros i d Hi Hu. apply alter_cases in Hi as [[_ ?]|(-> & d0 & _ & ->)]; [done|discriminate]. }
  destruct devs1 as [l cl]. cbn [fst] in *.
  destruct (alloc_device_slot l) as [k|]; intros [= <- <- <-].
  - split; [by rewrite length_alter|]. split.
    + intros i d Hi. destruct (Hb1 i d Hi) as (d' & Hd' & <-). destruct (decide (i = k)) as [-> |Hne].
      * rewrite list_lookup_alter_eq, Hd'. by eexists.
      * rewrite list_lookup_alter_ne by done. eauto.
    + intros i d Hi Hu. apply alter_cases in Hi as [[_ Hi]|(-> & d0 & _ & ->)]; [|by left].
      right. exists d. repeat split; try done. by apply Hu1.
  - split; [done|]. split; [done|]. intros i d Hi Hu. right. exists d. repeat split; try done. by apply Hu1.
Qed.

(** Case analysis on a step of a thread. *)
Ltac step_cases H :=
  match type of H with
  | thread_step _ _ ?p ?inp = Some _ =>
      destruct p; destruct inp as [[[|? ?]|]|?|]; cbn [thread_step] in H; try discriminate H
  end.

(** A lookup in a table in which one slot has been changed. *)
Lemma alter_keeps (P : device_slot -> Prop) f (i : nat) (devs : list device_slot) (j : nat) d :
  devs !! j = Some d -> P d -> (P d -> P (f d)) -> exists d', alter f i devs !! j = Some d' /\ P d'.
Proof.
  intros Hj Hp Hf. destruct (decide (i = j)) as [-> |Hne].
  - rewrite list_lookup_alter_eq, Hj. eauto.
  - rewrite list_lookup_alter_ne by done. eauto.
Qed.

(** No registration among these events. *)
Ltac no_registered He :=
  first
    [ repeat (apply elem_of_cons in He as [He|He]; [discriminate He|]); by apply not_elem_of_nil in He
    | apply list_elem_of_fmap in He as (? & He & _); discriminate He ].

Section step.
Context (devs devs' : list device_slot) (sock : nat) (p p' : pc) (inp : input) (evs : list relay_event).
Hypothesis Hstep : thread_step devs sock p inp = Some (devs', p', evs).

Lemma step_length : length devs' = length devs.
Proof.
  step_cases Hstep; try (injection Hstep as <- <- <-; rewrite ?length_alter; done).
  - destruct (register devs id sock) as [[l c] o] eqn:E. injection Hstep as <- <- <-.
    by apply register_spec in E as [? _].
  - injection Hstep as <- <- <-. destruct (_ && _); rewrite ?length_alter; done.
  - destruct (find_device devs id); injection Hstep as <- <- <-; rewrite ?length_alter; done.
Qed.

(** Only its own bridge's end takes the mark off a slot. *)
Lemma step_bridging i d :
  devs !! i = Some d -> ds_bridging d = true -> (forall dev, p <> PRelease i dev) ->
  exists d', devs' !! i = Some d' /\ ds_bridging d' = true.
Proof.
  intros Hi Hb Hne. step_cases Hstep; try (injection Hstep as <- <- <-; eauto; fail).
  - destruct (register devs id sock) as [[l c] o] eqn:E. injection Hstep as <- <- <-.
    apply register_spec in E as (_ & Hk & _). destruct (Hk i d Hi) as (d' & ? & ?). exists d'. by split; congruence.
  - injection Hstep as <- <- <-. destruct (_ && _); [|eauto]. by eapply alter_keeps.
  - destruct (find_device devs id); injection Hstep as <- <- <-; [|eauto]. by eapply alter_keeps.
  - injection Hstep as <- <- <-. assert (i <> idx) by (intros ->; by eapply Hne).
    exists d. by rewrite list_lookup_alter_ne.
Qed.

Lemma step_registered s i id :
  EvRegistered s i id ∈ evs -> s = sock /\ p = PRegister id.
Proof.
  intros He. step_cases Hstep; try (injection Hstep as <- <- <-; by no_registered He).
  - destruct (register devs id0 sock) as [[l c] o] eqn:E. injection Hstep as <- <- <-.
    apply elem_of_app in He as [He|He]; [by no_registered He|].
    destruct o; [|by no_registered He]. apply list_elem_of_singleton in He. by injection He as -> -> ->.
  - destruct (find_device devs id0); injection Hstep as <- <- <-; by no_registered He.
Qed.

Lemma step_slots log : slots_ok devs log -> slots_ok devs' (log ++ evs).
Proof.
  intros Hs. step_cases Hstep;
    try (injection Hstep as <- <- <-; apply (slots_ok_weaken devs); [exact Hs|]; intros; eauto; fail).
  - destruct (register devs id sock) as [[l c] o] eqn:E. injection Hstep as <- <- <-.
    apply register_spec in E as (_ & _ & Hk). intros i d Hi Hu.
    destruct (Hk i d Hi Hu) as [(-> & -> & ->)|(d0 & Hi0 & Hu0 & -> & ->)].
    + exists id. split; [|done]. rewrite !elem_of_app. right; right. by apply list_elem_of_singleton.
    + destruct (Hs i d0 Hi0 Hu0) as (id0 & ? & ->). exists id0. split; [apply elem_of_app; by left|done].
  - injection Hstep as <- <- <-. apply (slots_ok_weaken devs); [exact Hs|]. intros i d Hi Hu.
    destruct (_ && _); [|eauto].
    apply alter_cases in Hi as [[_ ?]|(_ & d0 & _ & ->)]; [eauto|discriminate].
  - destruct (find_device devs id); injection Hstep as <- <- <-;
      (apply (slots_ok_weaken devs); [exact Hs|]); intros i d Hi Hu; [|eauto].
    apply alter_cases in Hi as [[_ ?]|(-> & d0 & ? & ->)]; [eauto|]. exists d0. by repeat split.
  - injection Hstep as <- <- <-. apply (slots_ok_weaken devs); [exact Hs|]. intros i d Hi Hu.
    apply alter_cases in Hi as [[_ ?]|(_ & d0 & _ & ->)]; [eauto|discriminate].
Qed.

(** A bridge that begins takes a slot that no bridge holds. *)
Lemma step_bridge idx dev :
  bridge_of p' = Some (idx, dev) ->
  bridge_of p = Some (idx, dev)
  \/ exists id d, p = PConnect id /\ devs !! idx = Some d /\ matches id d = true /\ ds_sock d = dev
       /\ exists d', devs' !! idx = Some d' /\ ds_bridging d' = true.
Proof.
  intros Hb. step_cases Hstep; try (injection Hstep as <- <- <-; cbn in Hb; first [discriminate | by left]).
  - injection Hstep as <- <- <-. by destruct (classify _).
  - destruct (register devs id sock) as [[l c] o] eqn:E. injection Hstep as <- <- <-. by destruct o.
  - injection Hstep as <- <- <-. by destruct (0 <? n).
  - unfold find_device in Hstep.
    destruct (first_slot _ 0 devs) as [k|] eqn:E; injection Hstep as <- <- <-; [|discriminate].
    cbn in Hb. injection Hb as -> <-. apply first_slot_Some in E as (d & _ & Hd & Hm & _).
    rewrite Nat.sub_0_r in Hd. right. exists id, d. split; [done|]. split; [done|]. split; [done|].
    split; [by rewrite (nth_lookup_slot _ _ _ Hd)|]. rewrite list_lookup_alter_eq, Hd. by eexists.
Qed.

(** The thread itself, from what is known of it and of the table. *)
Lemma step_thread_ok log :
  slots_ok devs log -> thread_ok log sock p -> thread_ok (log ++ evs) sock p'.
Proof.
  intros Hs Ht. step_cases Hstep; try (injection Hstep as <- <- <-; cbn in Ht |- *; first
    [done | by apply bridge_ok_app]).
  - injection Hstep as <- <- <-. set (line := z :: l).
    assert (asked (log ++ [EvLine sock line]) sock (classify line)) as Ha.
    { exists line. split; [|done]. apply elem_of_app. right. by apply list_elem_of_singleton. }
    destruct (classify line) as [id|id|reply]; cbn; [|done|done]. split; [done|].
    intros i id' He. apply elem_of_app in He as [He|He]; [by eapply Ht|by no_registered He].
  - destruct (register devs id sock) as [[l c] o] eqn:E. injection Hstep as <- <- <-. by destruct o.
  - injection Hstep as <- <- <-. by destruct (0 <? n).
  - unfold find_device in Hstep.
    destruct (first_slot _ 0 devs) as [k|] eqn:E; injection Hstep as <- <- <-; [|done].
    apply first_slot_Some in E as (d & _ & Hd & Hm & _). rewrite Nat.sub_0_r in Hd.
    rewrite (nth_lookup_slot _ _ _ Hd). unfold matches in Hm. bool_hyps.
    apply bytes_eqb_eq in H0. destruct (Hs k d Hd H) as (id' & He & Hid).
    cbn. apply bridge_ok_app. exists id'. split; [|done]. cbn in Ht. congruence.
Qed.
End step.

Lemma thread_ok_other log evs sock p :
  (forall i id, EvRegistered sock i id ∉ evs) -> thread_ok log sock p -> thread_ok (log ++ evs) sock p.
Proof.
  intros Hn Ht.
  assert (unregistered log sock -> unregistered (log ++ evs) sock) as Hu.
  { intros H i id He. apply elem_of_app in He as [He|He]; [by eapply H|by eapply Hn]. }
  destruct p; cbn in *; try done; try (by apply Hu); try (by apply bridge_ok_app).
  - destruct Ht. split; [by apply asked_app|by apply Hu].
  - by apply asked_app.
Qed.

Lemma accept_inv sock sv sv' : accept sock sv = Some sv' -> server_inv sv -> server_inv sv'.
Proof.
  unfold accept. destruct (sv_threads sv !! sock) eqn:E; [done|]. intros [= <-] [].
  constructor; cbn; try done.
  - intros s Hs. apply lookup_insert_None in Hs as [? _]. by apply si_new0.
  - intros s p Hs. apply lookup_insert_Some in Hs as [[-> <-]|[_ Hs]]; [by apply si_new0|by apply si_threads0].
  - intros c p idx dev Hc Hb. apply lookup_insert_Some in Hc as [[-> <-]|[_ Hc]]; [done|by eapply si_held0].
  - intros c c' p p' idx dev dev' Hc Hc' Hb Hb'.
    apply lookup_insert_Some in Hc as [[-> <-]|[_ Hc]]; [done|].
    apply lookup_insert_Some in Hc' as [[-> <-]|[_ Hc']]; [done|]. by eapply si_alone0.
Qed.

Section step_inv.
Context (sv : server) (sock : nat) (p p' : pc) (inp : input) (devs' : list device_slot)
  (evs : list relay_event).
Hypothesis Hinv : server_inv sv.
Hypothesis Hp : sv_threads sv !! sock = Some p.
Hypothesis Hstep : thread_step (sv_devices sv) sock p inp = Some (devs', p', evs).

(** A bridge after the step: it was there before, or it is new and its slot
    was free. *)
Lemma bridges_after c q idx dev :
  <[sock := p']> (sv_threads sv) !! c = Some q -> bridge_of q = Some (idx, dev) ->
  (exists q0, sv_threads sv !! c = Some q0 /\ bridge_of q0 = Some (idx, dev)
     /\ (c = sock -> forall dev, p <> PRelease idx dev))
  \/ (c = sock /\ (exists d, sv_devices sv !! idx = Some d /\ ds_bridging d = false)
      /\ exists d', devs' !! idx = Some d' /\ ds_bridging d' = true).
Proof.
  intros Hc Hb. apply lookup_insert_Some in Hc as [[<- <-]|[Hne Hc]].
  2: { left. exists q. split; [done|]. split; [done|]. congruence. }
  destruct (step_bridge _ _ _ _ _ _ _ Hstep idx dev Hb) as [Hb0|(id & d & -> & Hd & Hm & _ & Hd')].
  - left. exists p. repeat split; try done. intros _ dev' ->. destruct inp as [|?|]; cbn in Hstep; try done.
    by injection Hstep as <- <- <-.
  - right. split; [done|]. split; [|done]. exists d. split; [done|]. unfold matches in Hm. by bool_hyps.
Qed.

Lemma held_after c q idx dev :
  <[sock := p']> (sv_threads sv) !! c = Some q -> bridge_of q = Some (idx, dev) ->
  exists d, devs' !! idx = Some d /\ ds_bridging d = true.
Proof.
  intros Hc Hb. destruct (bridges_after c q idx dev Hc Hb) as [(q0 & Hq0 & Hb0 & Hr)|(_ & _ & ?)]; [|done].
  destruct (si_held sv Hinv c q0 idx dev Hq0 Hb0) as (d & Hd & Hdb).
  apply (step_bridging _ _ _ _ _ _ _ Hstep idx d Hd Hdb). intros dev' ->.
  destruct (decide (c = sock)) as [Heq|Hne]; [by eapply Hr|]. apply Hne.
  by eapply (si_alone sv Hinv c sock q0 (PRelease idx dev') idx dev dev').
Qed.

Lemma alone_after c c' q q' idx dev dev' :
  <[sock := p']> (sv_threads sv) !! c = Some q -> <[sock := p']> (sv_threads sv) !! c' = Some q' ->
  bridge_of q = Some (idx, dev) -> bridge_of q' = Some (idx, dev') -> c = c'.
Proof.
  intros Hc Hc' Hb Hb'.
  destruct (bridges_after c q idx dev Hc Hb) as [(q0 & Hq0 & Hb0 & _)|(-> & (d & Hd & Hdb) & _)];
  destruct (bridges_after c' q' idx dev' Hc' Hb') as [(q0' & Hq0' & Hb0' & _)|(-> & (d' & Hd' & Hdb') & _)];
    try done.
  - by eapply (si_alone sv Hinv c c' q0 q0').
  - destruct (si_held sv Hinv c q0 idx dev Hq0 Hb0) as (x & Hx & Hxb). congruence.
  - destruct (si_held sv Hinv c' q0' idx dev' Hq0' Hb0') as (x & Hx & Hxb). congruence.
Qed.

Lemma log_after s i id :
  EvRegistered s i id ∈ sv_log sv ++ evs ->
  EvRegistered s i id ∈ sv_log sv \/ (s = sock /\ asked (sv_log sv) sock (ReqRegister id)
    /\ unregistered (sv_log sv) sock /\ EvRegistered s i id ∈ evs).
Proof.
  intros He. apply elem_of_app in He as [He|He]; [by left|]. right.
  destruct (step_registered _ _ _ _ _ _ _ Hstep _ _ _ He) as [-> Hpc].
  rewrite Hpc in Hp. pose proof (si_threads sv Hinv _ _ Hp) as [? ?]. done.
Qed.

Lemma once_evs s i j id id' : EvRegistered s i id ∈ evs -> EvRegistered s j id' ∈ evs -> i = j.
Proof.
  intros H1 H2. destruct (step_registered _ _ _ _ _ _ _ Hstep _ _ _ H1) as [_ Hpc]. subst p.
  destruct inp as [|?|]; cbn in Hstep; try done.
  destruct (register _ id sock) as [[l c] o]. injection Hstep as <- <- <-.
  apply elem_of_app in H1 as [H1|H1]; [by no_registered H1|].
  apply elem_of_app in H2 as [H2|H2]; [by no_registered H2|].
  destruct o; [|by no_registered H1]. apply list_elem_of_singleton in H1, H2. congruence.
Qed.

Lemma thread_step_inv :
  server_inv (Server devs' (<[sock := p']> (sv_threads sv)) (sv_log sv ++ evs)).
Proof.
  constructor; cbn [sv_devices sv_threads sv_log].
  - rewrite (step_length _ _ _ _ _ _ _ Hstep). apply Hinv.
  - eapply step_slots; [done|apply Hinv].
  - intros s i id He. destruct (log_after s i id He) as [H|(-> & H & _)]; apply asked_app; [|done].
    by eapply si_auth.
  - intros s i j id id' Hi Hj.
    destruct (log_after s i id Hi) as [H1|(-> & _ & Hu & He1)];
      destruct (log_after _ j id' Hj) as [H2|(E2 & _ & Hu' & He2)].
    + by eapply (si_once sv Hinv s i j).
    + subst s. by destruct (Hu' i id).
    + by destruct (Hu j id').
    + by eapply once_evs.
  - intros s Hs i id He. apply lookup_insert_None in Hs as [Hs Hne].
    destruct (log_after s i id He) as [H|(-> & _)]; [|done]. by eapply (si_new sv Hinv).
  - intros s q Hq. apply lookup_insert_Some in Hq as [[<- <-]|[Hne Hq]].
    + eapply step_thread_ok; [done|apply Hinv|by apply (si_threads sv Hinv)].
    + apply thread_ok_other; [|by apply (si_threads sv Hinv)]. intros i id He.
      destruct (step_registered _ _ _ _ _ _ _ Hstep _ _ _ He) as [-> _]. done.
  - exact held_after.
  - exact alone_after.
Qed.
End step_inv.

Lemma server_step_inv sv sv' : server_step sv sv' -> server_inv sv -> server_inv sv'.
Proof.
  intros [sock x y Ha|sock inp x y Ht] Hi; [by eapply accept_inv|].
  unfold step_thread in Ht. destruct (sv_threads x !! sock) as [p|] eqn:Ep; [|done].
  destruct (thread_step _ _ _ _) as [[[devs' p'] evs]|] eqn:Es; [|done]. injection Ht as <-.
  by eapply thread_step_inv.
Qed.

Lemma server_init_inv : server_inv server_init.
Proof.
  constructor; cbn [server_init sv_devices sv_threads sv_log]; try done.
  - intros i d Hi Hu. apply lookup_replicate in Hi as [-> _]. done.
  - intros ? ? ? He. by apply not_elem_of_nil in He.
  - intros ? ? ? ? ? He. by apply not_elem_of_nil in He.
  - intros ? _ ? ? He. by apply not_elem_of_nil in He.
Qed.

Lemma reachable_inv sv : rtc server_step server_init sv -> server_inv sv.
Proof.
  intros Hr. pose proof server_init_inv as Hi. induction Hr as [x|x y z Hs _ IH]; [done|].
  apply IH. by eapply server_step_inv.
Qed.

(** ** One registration per identifier *)

(** At most one slot answers to an identifier. *)
Definition unique_ids (devs : list device_slot) : Prop :=
  forall id i j di dj, devs !! i = Some di -> devs !! j = Some dj ->
    matches id di = true -> matches id dj = true -> i = j.

(** The table loses matches only. *)
Lemma unique_weaken devs devs' :
  unique_ids devs ->
  (forall i d id, devs' !! i = Some d -> matches id d = true ->
     exists d0, devs !! i = Some d0 /\ matches id d0 = true) ->
  unique_ids devs'.
Proof.
  intros Hu Hw id i j di dj Hi Hj Mi Mj.
  destruct (Hw i di id Hi Mi) as (? & ? & ?), (Hw j dj id Hj Mj) as (? & ? & ?). by eapply (Hu id).
Qed.

Lemma alter_matches f (k : nat) (devs : list device_slot) (i : nat) d id :
  (forall d, matches id (f d) = false) -> alter f k devs !! i = Some d -> matches id d = true ->
  devs !! i = Some d /\ i <> k.
Proof.
  intros Hf Hi Hm. apply alter_cases in Hi as [[? ?]|(-> & d0 & _ & ->)]; [done|].
  rewrite Hf in Hm. discriminate.
Qed.

(** After the old registration has been dropped, nothing answers to [id]. *)
Lemma register_clears devs id sock devs' closed slot :
  unique_ids devs -> (length id <= ID_SIZE - 1)%nat -> register devs id sock = (devs', closed, slot) ->
  unique_ids devs'
  /\ forall i d, devs' !! i = Some d -> matches id d = true -> slot = Some i /\ ds_sock d = sock.
Proof.
  intros Hu Hl. unfold register.
  set (l1 := match find_device devs id with
    | Some e => (alter (set_in_use false) e devs, [ds_sock (nth e devs slot_zero)])
    | None => (devs, []) end).
  assert (forall x d, matches x (set_in_use false d) = false) as Hf0 by done.
  assert ((forall i d x, fst l1 !! i = Some d -> matches x d = true -> devs !! i = Some d)
    /\ forall i d, fst l1 !! i = Some d -> matches id d = false) as [Hsub Hno].
  { unfold l1, find_device. destruct (first_slot (matches id) 0 devs) as [e|] eqn:E; cbn [fst].
    - split; [intros i d x Hi Hm; by destruct (alter_matches _ e devs i d x (Hf0 x) Hi Hm)|].
      intros i d Hi. destruct (matches id d) eqn:Hm; [|done]. exfalso.
      destruct (alter_matches (set_in_use false) e devs i d id (Hf0 id) Hi Hm) as [Hi' Hne].
      apply first_slot_Some in E as (d0 & _ & H0 & Hm0 & _). rewrite Nat.sub_0_r in H0.
      apply Hne. by eapply (Hu id).
    - split; [done|]. intros i d Hi. eapply first_slot_None; [done|]. by eapply list_elem_of_lookup_2. }
  destruct l1 as [l cl]. cbn [fst] in *.
  assert (unique_ids l) as Hul by (eapply unique_weaken; [exact Hu|]; eauto).
  destruct (alloc_device_slot l) as [k|]; intros [= <- <- <-].
  2: { split; [done|]. intros i d Hi Hm. rewrite (Hno i d Hi) in Hm. discriminate. }
  assert (forall i d, alter (fun d => Slot true (ds_bridging d) (take (ID_SIZE - 1) id) sock) k l !! i = Some d ->
    forall x, matches x d = true -> (i <> k /\ l !! i = Some d) \/ (i = k /\ x = id /\ ds_sock d = sock)) as Hk.
  { intros i d Hi x Hm. apply alter_cases in Hi as [?|(-> & d0 & _ & ->)]; [by left|]. right.
    unfold matches in Hm. cbn in Hm. bool_hyps. apply bytes_eqb_eq in H0. by rewrite take_ge in H0. }
  split.
  - intros x i j di dj Hi Hj Mi Mj.
    destruct (Hk i di Hi x Mi) as [[? Hi0]|(-> & Hx & _)], (Hk j dj Hj x Mj) as [[? Hj0]|(-> & Hx' & _)].
    + by eapply (Hul x).
    + subst x. rewrite (Hno _ _ Hi0) in Mi. discriminate.
    + subst x. rewrite (Hno _ _ Hj0) in Mj. discriminate.
    + done.
  - intros i d Hi Hm. destruct (Hk i d Hi id Hm) as [[_ Hi0]|(-> & _ & ->)]; [|done].
    rewrite (Hno _ _ Hi0) in Hm. discriminate.
Qed.

(** No identifier longer than the table can hold has been registered. *)
Definition short_ids (log : list relay_event) : Prop :=
  forall sock id, asked log sock (ReqRegister id) -> (length id <= ID_SIZE - 1)%nat.

Lemma short_ids_prefix log evs : short_ids (log ++ evs) -> short_ids log.
Proof. intros H sock id Ha. eapply H. by apply asked_app. Qed.

Lemma step_unique devs devs' sock p p' inp evs log :
  thread_step devs sock p inp = Some (devs', p', evs) ->
  thread_ok log sock p -> short_ids log -> unique_ids devs -> unique_ids devs'.
Proof.
  intros Hstep Ht Hshort Hu. step_cases Hstep; try (by injection Hstep as <- <- <-).
  - destruct (register devs id sock) as [[l c] o] eqn:E. injection Hstep as <- <- <-.
    destruct Ht as [Ha _]. eapply register_clears in E; [apply E|done|by eapply Hshort].
  - injection Hstep as <- <- <-. destruct (_ && _); [|done]. eapply unique_weaken; [exact Hu|].
    intros i d id Hi Hm. exists d. split; [|done]. by eapply alter_matches in Hi as [? _].
  - destruct (find_device devs id); injection Hstep as <- <- <-; [|done].
    eapply unique_weaken; [exact Hu|]. intros i d id' Hi Hm.
    exists d. split; [|done]. eapply alter_matches in Hi as [? _]; [done| |done].
    intros x. unfold matches. cbn. by rewrite andb_false_r.
  - injection Hstep as <- <- <-. eapply unique_weaken; [exact Hu|]. intros i d id Hi Hm.
    exists d. split; [|done]. by eapply alter_matches in Hi as [? _].
Qed.

Lemma reachable_unique sv :
  rtc server_step server_init sv -> short_ids (sv_log sv) -> unique_ids (sv_devices sv).
Proof.
  intros Hr.
  assert (forall x y, rtc server_step x y -> server_inv x ->
    (short_ids (sv_log x) -> unique_ids (sv_devices x)) -> short_ids (sv_log y) -> unique_ids (sv_devices y)) as Hgen.
  { clear. intros x y Hr. induction Hr as [x|x y z Hs Hr IH]; intros Hi Hu; [done|].
    apply IH; [by eapply server_step_inv|]. clear IH Hr z.
    destruct Hs as [sock x y Ha|sock inp x y Ht].
    - unfold accept in Ha. destruct (sv_threads x !! sock); [done|]. by injection Ha as <-.
    - unfold step_thread in Ht. destruct (sv_threads x !! sock) as [p|] eqn:Ep; [|done].
      destruct (thread_step _ _ _ _) as [[[devs' p'] evs]|] eqn:Es; [|done]. injection Ht as <-.
      cbn [sv_log sv_devices]. intros Hshort. pose proof (short_ids_prefix _ _ Hshort) as Hs0.
      eapply step_unique; [done|by apply (si_threads x Hi)|done|by apply Hu]. }
  apply (Hgen server_init sv Hr server_init_inv). intros _ id i j di dj Hi Hj Hm.
  apply lookup_replicate in Hi as [-> _]. done.
Qed.

(** ** Theorems *)

(** Only authorised bridges, however the threads interleave, as long as every
    connection has a number of its own; [RelayFds] has descriptors instead. *)
Lemma server_bridges (sv : server) (c : nat) (p : pc) (idx dev : nat) :
  rtc server_step server_init sv ->
  sv_threads sv !! c = Some p -> bridge_of p = Some (idx, dev) ->
  (exists id, asked (sv_log sv) c (ReqConnect (take (ID_SIZE - 1) id))
      /\ asked (sv_log sv) dev (ReqRegister id))
  /\ (exists d, sv_devices sv !! idx = Some d /\ ds_bridging d = true)
  /\ forall c' p' idx', sv_threads sv !! c' = Some p' -> bridge_of p' = Some (idx', dev) -> c' = c.
Proof.
  intros Hr Hc Hb. pose proof (reachable_inv sv Hr) as Hi.
  assert (forall c p idx, sv_threads sv !! c = Some p -> bridge_of p = Some (idx, dev) ->
    bridge_ok (sv_log sv) c idx dev) as Hok.
  { intros x q k Hx Hq. pose proof (si_threads sv Hi x q Hx) as Ht.
    destruct q; cbn in Hq; try done; by injection Hq as <- <-. }
  destruct (Hok c p idx Hc Hb) as (id & Ha & He). split; [|split].
  - exists id. split; [done|]. by eapply si_auth.
  - by eapply si_held.
  - intros c' p' idx' Hc' Hb'. destruct (Hok c' p' idx' Hc' Hb') as (id' & _ & He').
    rewrite (si_once sv Hi dev idx' idx id' id He' He) in Hb'.
    by eapply (si_alone sv Hi c' c p' p idx dev dev).
Qed.

Definition demo_run : list happening :=
  [HAccept 1; HStep 1 (ILine (Some (cstr "REGISTER door-1 smartlock2026"))); HStep 1 IRun; HStep 1 IRun;
   HAccept 2; HStep 2 (ILine (Some (cstr "CONNECT door-1"))); HStep 2 IRun; HStep 2 IRun].

(** The latest registration wins: as long as no identifier of 64 characters
    or more is registered, a device that registers in a slot that is not held
    by a bridge is at once the one that a client asking for its identifier is
    given, whoever registered it before. *)
Theorem latest_registration_found (sv sv' : server) (sock i : nat) (id : bytes) :
  rtc server_step server_init sv -> short_ids (sv_log sv) ->
  sv_threads sv !! sock = Some (PRegister id) ->
  step_thread sock IRun sv = Some sv' -> sv_threads sv' !! sock = Some (PRegistered i) ->
  ds_bridging (nth i (sv_devices sv') slot_zero) = false ->
  find_device (sv_devices sv') id = Some i /\ ds_sock (nth i (sv_devices sv') slot_zero) = sock.
Proof.
  intros Hr Hs Ht Hstep Hi Hb. unfold step_thread in Hstep. rewrite Ht in Hstep. cbn [thread_step] in Hstep.
  destruct (register _ id sock) as [[devs' closed] slot] eqn:E. injection Hstep as <-.
  cbn [sv_devices sv_threads] in *. rewrite lookup_insert_eq in Hi. destruct slot as [k|]; [|done].
  injection Hi as ->.
  destruct (si_threads sv (reachable_inv sv Hr) _ _ Ht) as [Ha _].
  destruct (register_clears _ _ _ _ _ _ (reachable_unique sv Hr Hs) (Hs _ _ Ha) E) as [_ Hm].
  assert (exists d, devs' !! i = Some d /\ matches id d = true) as (d & Hd & Hmd).
  { unfold register in E. destruct (match find_device (sv_devices sv) id with Some e => _ | None => _ end) as [l cl].
    destruct (alloc_device_slot l) as [k|] eqn:Ea; [|done]. injection E as <- <- ->.
    apply first_slot_Some in Ea as (d0 & _ & Hd0 & _). rewrite Nat.sub_0_r in Hd0.
    rewrite nth_lookup, list_lookup_alter_eq, Hd0 in Hb. cbn in Hb.
    rewrite list_lookup_alter_eq, Hd0. eexists. split; [done|]. unfold matches. cbn. rewrite Hb.
    rewrite take_ge by (by eapply Hs). cbn. apply bytes_eqb_refl. }
  rewrite (nth_lookup_slot _ _ _ Hd). split; [|by apply (Hm i d)].
  eapply first_slot_unique; [done|done|]. intros j d' Hj Hmj. destruct (Hm j d' Hj Hmj) as [[= ->] _]. done.
Qed.

Lemma latest_registration_found_witness :
  exists sv, run (take 3 demo_run) server_init = Some sv
    /\ find_device (sv_devices sv) (cstr "door-1") = Some 0%nat
       /\ ds_sock (nth 0 (sv_devices sv) slot_zero) = 1%nat.
Proof.
  destruct (run (take 2 demo_run) server_init) as [sv|] eqn:E; [|vm_compute in E; discriminate E].
  destruct (run (take 3 demo_run) server_init) as [sv'|] eqn:E'; [|vm_compute in E'; discriminate E'].
  exists sv'. split; [reflexivity|].
  apply (latest_registration_found sv sv' 1 0 (cstr "door-1")).
  - apply run_steps with (take 2 demo_run). exact E.
  - vm_compute in E. injection E as <-. intros sock id (line & Hin & Hc). cbn [sv_log] in Hin.
    apply list_elem_of_singleton in Hin. injection Hin as -> ->. vm_compute in Hc. injection Hc as <-.
    vm_compute. lia.
  - vm_compute in E. injection E as <-. vm_compute. reflexivity.
  - vm_compute in E, E'. injection E as <-. injection E' as <-. vm_compute. reflexivity.
  - vm_compute in E'. injection E' as <-. vm_compute. reflexivity.
  - vm_compute in E'. injection E' as <-. vm_compute. reflexivity.
Defined.

(** The tunnel is transparent: with a [send] that accepts between one and
    all of the bytes it is offered each time, one direction of a bridge delivers
    exactly the bytes received, in order; and whatever [send] does, what it
    delivers is a prefix of them. *)
Theorem bridge_transparent (send_ret : nat -> nat -> Z) (chunks : list bytes) (k : nat) :
  (forall k n, send_ret k n <= Z.of_nat n) ->
  (exists t, concat chunks = bridge_one_dir send_ret chunks k ++ t)
  /\ ((forall k n, (0 < n)%nat -> 0 < send_ret k n) -> bridge_one_dir send_ret chunks k = concat chunks).
Proof.
  intros Hle. split; [by apply bridge_prefix|]. intros Hpos. revert k.
  induction chunks as [|c chunks IH]; intros k; [done|]. cbn [bridge_one_dir concat].
  pose proof (send_all_spec send_ret Hle (length c) c k ltac:(lia)) as H.
  destruct (send_all _ _ _ _) as [[l ok] k']. destruct H as (_ & Hok & Hp). rewrite (Hp Hpos) in *.
  by rewrite IH, (Hok eq_refl).
Qed.

Lemma bridge_transparent_witness :
  bridge_one_dir (fun _ n => if (2 <? n)%nat then 2 else Z.of_nat n) [[1; 2; 3; 4; 5]; [6]] 0 = [1; 2; 3; 4; 5; 6].
Proof.
  apply (bridge_transparent (fun _ n => if (2 <? n)%nat then 2 else Z.of_nat n) [[1; 2; 3; 4; 5]; [6]] 0).
  - intros k n. destruct (2 <? n)%nat eqn:E; bool_hyps; lia.
  - intros k n Hn. destruct (2 <? n)%nat; lia.
Defined.

(** ** Observed divergences *)

(** A device that disconnects during a bridge gives up its slot although the
    slot is marked as held; the next device to register gets it, is told OK,
    cannot be found while the old bridge lasts, and is dropped from the table
    when that bridge ends, with its connection still open. *)
Definition lost_run : list happening :=
  demo_run ++
  [HStep 1 (IPeek 0); HStep 1 IRun;
   HAccept 3; HStep 3 (ILine (Some (cstr "REGISTER door-2 smartlock2026"))); HStep 3 IRun; HStep 3 IRun;
   HStep 2 IRun; HStep 2 IRun].

Lemma registration_lost :
  exists sv, run lost_run server_init = Some sv
    /\ EvSend 3 (cstr "OK\r\n") ∈ sv_log sv /\ sv_threads sv !! 3%nat = Some (PWait 0)
    /\ find_device (sv_devices sv) (cstr "door-2") = None.
Proof.
  destruct (run lost_run server_init) as [sv|] eqn:E; [|vm_compute in E; discriminate E].
  exists sv. split; [done|]. vm_compute in E. injection E as <-.
  split; [|by vm_compute]. cbn [sv_log]. repeat (apply elem_of_cons; first [by left | right]).
Qed.

(** At the end of a bridge the device's socket is closed by the client's thread
    and, when its own thread notices, a second time. *)
Definition double_run : list happening :=
  demo_run ++ [HStep 2 IRun; HStep 2 IRun; HStep 2 IRun; HStep 1 (IPeek 0); HStep 1 IRun; HStep 1 IRun].

Lemma double_close :
  exists sv, run double_run server_init = Some sv
    /\ length (List.filter (fun e => match e with EvClose 1%nat => true | _ => false end) (sv_log sv)) = 2%nat.
Proof.
  destruct (run double_run server_init) as [sv|] eqn:E; [|vm_compute in E; discriminate E].
  exists sv. split; [done|]. vm_compute in E. injection E as <-. done.
Qed.

(** The reply to an unknown command lacks the newline that ends a line. *)
Lemma unknown_command_unterminated :
  classify (cstr "HELLO") = ReqError ERR_UNKNOWN /\ memchr ERR_UNKNOWN 10 = None.
Proof. by vm_compute. Qed.

(** A device with an identifier of 64 characters or more is told OK but cannot
    be found under it. *)
Definition long_id : bytes := replicate 64 97.
Lemma long_id_not_found :
  exists sv, run [HAccept 1; HStep 1 (ILine (Some (cstr "REGISTER " ++ long_id ++ cstr " smartlock2026")));
                  HStep 1 IRun; HStep 1 IRun] server_init = Some sv
    /\ sv_threads sv !! 1%nat = Some (PWait 0) /\ find_device (sv_devices sv) long_id = None.
Proof.
  destruct (run _ server_init) as [sv|] eqn:E; [|vm_compute in E; discriminate E].
  exists sv. split; [done|]. vm_compute in E. injection E as <-. by vm_compute.
Qed.
