(* ===== verification/RelayFds.v ===== *)
(** * The relay process and its descriptors ([relay_server.c])

    [RelayServer] gives every connection a number of its own.  A process has
    descriptors, which the system hands out again as soon as they are closed, and
    the relay closes some of them twice.  Here are the set-up and accept loop of
    [main], with threads that cannot be created, and the threads of [RelayServer]
    on descriptor numbers, with what goes over each connection ([rp_wire]).  A
    call refers to the connection its descriptor stands for when it returns.

    As long as [accept] returns no number that a thread still holds, this process
    is the server of [RelayServer], and nothing is forwarded, sent or closed
    between strangers; [bridge_hijacked] shows that without it something is. *)
From S2P Require Import Prelude Sys RelayServer.
From stdpp Require Import gmap relations.
Local Open Scope Z_scope.

(** ** Set-up *)
Definition RELAY_PORT : Z := 443.

(** The result of [main] before its loop: listening on a port, or the exit code.
    [arg] is [argv[1]]; the other arguments are the results of the calls. *)
Inductive setup := Listening (sock : nat) (port : Z) | Exit (code : Z) (closed : list nat).
Definition relay_setup (atoi : bytes -> Z) (arg : option bytes) (sock : option nat) (bind_ret listen_ret : Z) : setup :=
  let port := match arg with Some a => atoi a | None => RELAY_PORT end in
  match sock with
  | None => Exit 1 []
  | Some s =>
      if bind_ret <? 0 then Exit 1 [s]
      else if listen_ret <? 0 then Exit 1 [s]
      else Listening s (u16 port)
  end.

(** ** The process *)

(** What happens on the connections, and in which connection's thread. *)
Inductive wire_event :=
  | WLine (c : nat) (line : bytes)                    (* the first line of [c] *)
  | WSend (thread c : nat) (data : bytes)
  | WForward (thread src dst : nat) (data : bytes)    (* by a bridge *)
  | WClosed (thread c : nat).

Record relay_proc := Proc {
  rp_devices : list device_slot;
  rp_threads : gmap nat (nat * pc);   (* connection: the descriptor of its thread *)
  rp_fds : gmap nat nat;              (* open descriptors *)
  rp_owner : gmap nat nat;            (* descriptor: the last connection accepted on it *)
  rp_next : nat;                      (* connections accepted *)
  rp_wire : list wire_event
}.
Definition proc_init : relay_proc := Proc (replicate MAX_DEVICES slot_zero) ∅ ∅ ∅ 0 [].

(** [accept] returned [fd]; [created] is whether the thread could be created. If
    not, the loop goes on and the descriptor stays open. *)
Definition rp_accept (fd : nat) (created : bool) (w : relay_proc) : option relay_proc :=
  match rp_fds w !! fd with
  | Some _ => None
  | None =>
      let c := rp_next w in
      Some (Proc (rp_devices w) (if created then <[c := (fd, PRead)]> (rp_threads w) else rp_threads w)
              (<[fd := c]> (rp_fds w)) (<[fd := c]> (rp_owner w)) (S c) (rp_wire w))
  end.

(** The system's part of what a thread does. *)
Definition do_event (thread : nat) (e : relay_event) (fds : gmap nat nat) : gmap nat nat * list wire_event :=
  match e with
  | EvLine fd line => (fds, match fds !! fd with Some c => [WLine c line] | None => [] end)
  | EvSend fd data => (fds, match fds !! fd with Some c => [WSend thread c data] | None => [] end)
  | EvClose fd => match fds !! fd with Some c => (delete fd fds, [WClosed thread c]) | None => (fds, []) end
  | EvRegistered _ _ _ => (fds, [])
  end.
Fixpoint do_events (thread : nat) (evs : list relay_event) (fds : gmap nat nat) : gmap nat nat * list wire_event :=
  match evs with
  | [] => (fds, [])
  | e :: evs =>
      let '(fds, w1) := do_event thread e fds in
      let '(fds, w2) := do_events thread evs fds in (fds, w1 ++ w2)
  end.

(** Only an open descriptor can be read from. *)
Definition readable (fds : gmap nat nat) (fd : nat) (inp : input) : bool :=
  let is_open := match fds !! fd with Some _ => true | None => false end in
  match inp with
  | ILine (Some _) => is_open
  | IPeek n => (n <=? 0) || is_open
  | _ => true
  end.
Definition rp_thread (c : nat) (inp : input) (w : relay_proc) : option relay_proc :=
  match rp_threads w !! c with
  | None => None
  | Some (fd, p) =>
      if readable (rp_fds w) fd inp then
        match thread_step (rp_devices w) fd p inp with
        | None => None
        | Some (devs, p', evs) =>
            let '(fds, wire) := do_events c evs (rp_fds w) in
            Some (Proc devs (<[c := (fd, p')]> (rp_threads w)) fds (rp_owner w) (rp_next w) (rp_wire w ++ wire))
        end
      else None
  end.

(** A round of [bridge_one_dir] in one of the two directions: [data] was received
    and part of it, or all, was sent. *)
Definition rp_forward (c : nat) (to_device : bool) (data : bytes) (w : relay_proc) : option relay_proc :=
  match rp_threads w !! c with
  | Some (fd, PBridge idx dev) =>
      let '(s1, s2) := if to_device then (fd, dev) else (dev, fd) in
      match rp_fds w !! s1, rp_fds w !! s2 with
      | Some x, Some y =>
          Some (Proc (rp_devices w) (rp_threads w) (rp_fds w) (rp_owner w) (rp_next w) (rp_wire w ++ [WForward c x y data]))
      | _, _ => None
      end
  | _ => None
  end.

Inductive rp_happening := RAccept (fd : nat) (created : bool) | RStep (c : nat) (inp : input) | RForward (c : nat) (to_device : bool) (data : bytes).
Definition rp_step (h : rp_happening) (w : relay_proc) : option relay_proc :=
  match h with
  | RAccept fd created => rp_accept fd created w
  | RStep c inp => rp_thread c inp w
  | RForward c to_device data => rp_forward c to_device data w
  end.

(** ** Descriptors in use *)

(** The descriptors a thread will still use. *)
Definition pc_fds (p : pc) : list nat :=
  match p with
  | PNotify _ dev | PBridge _ dev | PRelease _ dev => [dev]
  | PClose socks => socks
  | _ => []
  end.
Definition pc_done (p : pc) : bool := match p with PDone => true | _ => false end.
Definition held (w : relay_proc) (fd : nat) : Prop :=
  exists c f p, rp_threads w !! c = Some (f, p) /\ pc_done p = false /\ (fd = f \/ fd ∈ pc_fds p).

(** Runs in which [accept] returns no descriptor that a thread holds. *)
Inductive rp_run : list rp_happening -> relay_proc -> relay_proc -> Prop :=
  | rr_nil w : rp_run [] w w
  | rr_cons h l w w1 w2 :
      (forall fd created, h = RAccept fd created -> ~ held w fd) ->
      rp_step h w = Some w1 -> rp_run l w1 w2 -> rp_run (h :: l) w w2.

(** What a connection asked for with its first line. *)
Definition wire_asked (wire : list wire_event) (c : nat) (req : request) : Prop :=
  exists line, WLine c line ∈ wire /\ classify line = req.
(** The thread of a client [c] may deal with the device [d]: [c] asked for the
    identifier (as far as the table stores it) that [d] registered. *)
Definition may_bridge (wire : list wire_event) (c d : nat) : Prop :=
  exists id, wire_asked wire c (ReqConnect (take (ID_SIZE - 1) id)) /\ wire_asked wire d (ReqRegister id).
(** [c] registers an identifier under which [d] was registered. *)
Definition may_replace (wire : list wire_event) (c d : nat) : Prop :=
  exists id, wire_asked wire c (ReqRegister (take (ID_SIZE - 1) id)) /\ wire_asked wire d (ReqRegister id).
Definition event_ok (wire : list wire_event) (e : wire_event) : Prop :=
  match e with
  | WLine _ _ => True
  | WSend t c data => c = t \/ (may_bridge wire t c /\ data = cstr "BRIDGE\r\n")
  | WForward t src dst _ => (src = t /\ may_bridge wire t dst) \/ (dst = t /\ may_bridge wire t src)
  | WClosed t c => c = t \/ may_bridge wire t c \/ may_replace wire t c
  end.

(** ** The simulation *)
Definition map_pc (f : nat -> nat) (p : pc) : pc :=
  match p with
  | PNotify idx dev => PNotify idx (f dev)
  | PBridge idx dev => PBridge idx (f dev)
  | PRelease idx dev => PRelease idx (f dev)
  | PClose socks => PClose (map f socks)
  | p => p
  end.
Definition map_ev (f : nat -> nat) (e : relay_event) : relay_event :=
  match e with
  | EvLine s line => EvLine (f s) line
  | EvSend s data => EvSend (f s) data
  | EvClose s => EvClose (f s)
  | EvRegistered s i id => EvRegistered (f s) i id
  end.
(** A slot on descriptors and on connections; the socket of a free slot does not
    matter. *)
Record slot_rel (f : nat -> nat) (d d' : device_slot) : Prop := {
  sr_use : ds_in_use d' = ds_in_use d;
  sr_bridging : ds_bridging d' = ds_bridging d;
  sr_id : ds_id d' = ds_id d;
  sr_sock : ds_in_use d = true -> ds_sock d' = f (ds_sock d)
}.

Lemma first_slot_rel f P l l' : Forall2 (slot_rel f) l l' -> (forall d d', slot_rel f d d' -> P d' = P d) ->
  forall i, first_slot P i l' = first_slot P i l.
Proof.
  intros H HP. induction H as [|d d' l l' Hd _ IH]; intros i; cbn; [done|]. by rewrite (HP d d' Hd), IH.
Qed.
Lemma find_device_rel f l l' id : Forall2 (slot_rel f) l l' -> find_device l' id = find_device l id.
Proof. intros H. apply (first_slot_rel f); [done|]. intros d d' [E1 E2 E3 _]. unfold matches. by rewrite E1, E2, E3. Qed.
Lemma alloc_slot_rel f l l' : Forall2 (slot_rel f) l l' -> alloc_device_slot l' = alloc_device_slot l.
Proof. intros H. apply (first_slot_rel f); [done|]. intros d d' [E1 _ _ _]. by rewrite E1. Qed.

(** The slot that [find_device] found. *)
Lemma find_device_Some l id e : find_device l id = Some e ->
  exists d, l !! e = Some d /\ ds_in_use d = true /\ ds_id d = id /\ nth e l slot_zero = d.
Proof.
  intros H. apply first_slot_Some in H as (d & _ & Hd & Hm & _). rewrite Nat.sub_0_r in Hd. exists d. unfold matches in Hm. bool_hyps.
  apply bytes_eqb_eq in H0. split; [done|]. split; [done|]. split; [done|]. by apply nth_lookup_slot.
Qed.

(** REGISTER on connections does what it does on descriptors. *)
Lemma register_rel f l l' id fd : Forall2 (slot_rel f) l l' ->
  let '(l1, closed, slot) := register l id fd in
  exists l1', register l' id (f fd) = (l1', map f closed, slot) /\ Forall2 (slot_rel f) l1 l1'.
Proof.
  intros H. unfold register. rewrite (find_device_rel f l l' id H).
  assert (exists la la' cl, match find_device l id with Some e => (alter (set_in_use false) e l, [ds_sock (nth e l slot_zero)]) | None => (l, []) end = (la, cl)
    /\ match find_device l id with Some e => (alter (set_in_use false) e l', [ds_sock (nth e l' slot_zero)]) | None => (l', []) end = (la', map f cl)
    /\ Forall2 (slot_rel f) la la') as (la & la' & cl & -> & -> & Ha).
  { destruct (find_device l id) as [e|] eqn:E; [|by exists l, l', []]. destruct (find_device_Some _ _ _ E) as (d & Hd & Hu & _ & ->).
    destruct (Forall2_lookup_l _ _ _ _ _ H Hd) as (d' & Hd' & Hr). do 3 eexists. split; [done|].
    rewrite (nth_lookup_slot _ _ _ Hd'), (sr_sock _ _ _ Hr Hu). split; [done|]. apply Forall2_alter; [done|].
    intros x y _ _ [E1 E2 E3 E4]. by constructor. }
  rewrite (alloc_slot_rel f la la' Ha). destruct (alloc_device_slot la) as [k|]; [|by exists la'].
  eexists. split; [done|]. apply Forall2_alter; [done|]. intros x y _ _ [E1 E2 E3 E4]. by constructor.
Qed.

(** A step on descriptors is a step on connections. *)
Lemma thread_step_rel f l l' fd c p inp l1 p1 evs :
  Forall2 (slot_rel f) l l' -> f fd = c ->
  (forall i d, l !! i = Some d -> ds_in_use d = true -> f (ds_sock d) = c -> ds_sock d = fd) ->
  thread_step l fd p inp = Some (l1, p1, evs) ->
  exists l1', thread_step l' c (map_pc f p) inp = Some (l1', map_pc f p1, map (map_ev f) evs) /\ Forall2 (slot_rel f) l1 l1'.
Proof.
  intros H <- Hinj Hs. step_cases Hs; cbn [map_pc thread_step] in *.
  - injection Hs as <- <- <-. exists l'. done.
  - injection Hs as <- <- <-. exists l'. split; [|done]. do 3 f_equal. by destruct (classify _).
  - injection Hs as <- <- <-. exists l'. done.
  - injection Hs as <- <- <-. exists l'. done.
  - pose proof (register_rel f l l' id fd H) as HR. destruct (register l id fd) as [[la cl] slot]. destruct HR as (la' & -> & Ha).
    injection Hs as <- <- <-. exists la'. split; [|done]. rewrite map_app, !map_map. by destruct slot.
  - injection Hs as <- <- <-. exists l'. done.
  - injection Hs as <- <- <-. exists l'. split; [|done]. by destruct (0 <? n).
  - injection Hs as <- <- <-. eexists. split; [done|].
    destruct (l !! slot) as [d|] eqn:Hd.
    + destruct (Forall2_lookup_l _ _ _ _ _ H Hd) as (d' & Hd' & Hr). rewrite (nth_lookup_slot _ _ _ Hd), (nth_lookup_slot _ _ _ Hd'), (sr_use _ _ _ Hr).
      destruct (ds_in_use d) eqn:Hu; cbn [andb]; [|done]. rewrite (sr_sock _ _ _ Hr Hu).
      replace (f (ds_sock d) =? f fd)%nat with (ds_sock d =? fd)%nat.
      2: { destruct (Nat.eqb_spec (ds_sock d) fd) as [->|Hn]; [by rewrite Nat.eqb_refl|].
           destruct (Nat.eqb_spec (f (ds_sock d)) (f fd)) as [Ef|]; [|done]. by destruct Hn; eapply Hinj. }
      destruct (_ =? _)%nat; [|done]. apply Forall2_alter; [done|]. intros x y _ _ [E1 E2 E3 E4]. by constructor.
    + assert (l' !! slot = None) as Hd' by (apply lookup_ge_None in Hd; apply lookup_ge_None; by rewrite <- (Forall2_length _ _ _ H)).
      rewrite !nth_lookup, Hd, Hd'. done.
  - rewrite (find_device_rel f l l' id H). destruct (find_device l id) as [e|] eqn:E; injection Hs as <- <- <-; [|by exists l'].
    destruct (find_device_Some _ _ _ E) as (d & Hd & Hu & _ & ->). destruct (Forall2_lookup_l _ _ _ _ _ H Hd) as (d' & Hd' & Hr).
    rewrite (nth_lookup_slot _ _ _ Hd'), (sr_sock _ _ _ Hr Hu). eexists. split; [done|]. apply Forall2_alter; [done|].
    intros x y _ _ [E1 E2 E3 E4]. by constructor.
  - injection Hs as <- <- <-. exists l'. done.
  - injection Hs as <- <- <-. by exists l'.
  - injection Hs as <- <- <-. eexists. split; [done|]. apply Forall2_alter; [done|].
    intros x y _ _ [E1 E2 E3 E4]. by constructor.
  - injection Hs as <- <- <-. exists l'. by rewrite !map_map.
Qed.

Definition conn_of (w : relay_proc) (fd : nat) : nat := default 0%nat (rp_owner w !! fd).
(** The thread that stands behind a slot. *)
Definition holds_slot (p : pc) (i : nat) : Prop := p = PRegistered i \/ p = PWait i \/ p = PUnregister i.

(** The process [w] is the server [sv]. *)
Record refines (w : relay_proc) (sv : server) : Prop := {
  rf_threads : forall c, sv_threads sv !! c = (fun '(fd, p) => map_pc (conn_of w) p) <$> rp_threads w !! c;
  rf_devs : Forall2 (slot_rel (conn_of w)) (rp_devices w) (sv_devices sv);
  rf_lines : forall c line, EvLine c line ∈ sv_log sv -> WLine c line ∈ rp_wire w
}.
(** What holds of descriptors. *)
Record fds_inv (w : relay_proc) : Prop := {
  fi_own : forall c fd p, rp_threads w !! c = Some (fd, p) -> pc_done p = false -> rp_owner w !! fd = Some c;
  fi_open : forall fd c, rp_fds w !! fd = Some c -> rp_owner w !! fd = Some c;
  fi_slots : forall i d, rp_devices w !! i = Some d -> ds_in_use d = true ->
    exists c p, rp_threads w !! c = Some (ds_sock d, p) /\ holds_slot p i;
  fi_once : forall f g c, rp_owner w !! f = Some c -> rp_owner w !! g = Some c -> f = g;
  fi_next : forall c, (rp_next w <= c)%nat -> rp_threads w !! c = None /\ forall fd, rp_owner w !! fd <> Some c;
  fi_close : forall c fd socks s, rp_threads w !! c = Some (fd, PClose socks) -> s ∈ socks ->
    conn_of w s = c \/ may_bridge (rp_wire w) c (conn_of w s);
  fi_wire : forall e, e ∈ rp_wire w -> event_ok (rp_wire w) e
}.

Lemma wire_asked_app wire new c req : wire_asked wire c req -> wire_asked (wire ++ new) c req.
Proof. intros (line & Hl & Hc). exists line. split; [|done]. apply elem_of_app. by left. Qed.
Lemma may_bridge_app wire new c d : may_bridge wire c d -> may_bridge (wire ++ new) c d.
Proof. intros (id & H1 & H2). exists id. split; by apply wire_asked_app. Qed.
Lemma event_ok_app wire new e : event_ok wire e -> event_ok (wire ++ new) e.
Proof.
  destruct e; cbn; [done|..].
  - intros [?|[? ?]]; [by left|right]. split; [by apply may_bridge_app|done].
  - intros [[? ?]|[? ?]]; [left|right]; (split; [done|by apply may_bridge_app]).
  - intros [?|[?|(id & H1 & H2)]]; [by left|right; left; by apply may_bridge_app|]. right; right. exists id. split; by apply wire_asked_app.
Qed.
Lemma pc_done_PDone p : pc_done p = true -> p = PDone.
Proof. by destruct p. Qed.
Lemma map_pc_ext f g p : (forall x, x ∈ pc_fds p -> f x = g x) -> map_pc f p = map_pc g p.
Proof.
  intros H. destruct p; cbn in *; try done; rewrite ?(H dev) by set_solver; try done. f_equal. apply map_ext_in.
  intros a Ha. apply H. by apply list_elem_of_In.
Qed.

(** ** Accepting a connection *)
Section accept.
Context (w w1 : relay_proc) (sv : server) (fd : nat) (created : bool).
Hypothesis (Hr : refines w sv) (Hi : fds_inv w) (Hfree : ~ held w fd).
Hypothesis Hstep : rp_accept fd created w = Some w1.

Lemma accept_is : rp_fds w !! fd = None /\ w1 = Proc (rp_devices w) (if created then <[rp_next w := (fd, PRead)]> (rp_threads w) else rp_threads w)
  (<[fd := rp_next w]> (rp_fds w)) (<[fd := rp_next w]> (rp_owner w)) (S (rp_next w)) (rp_wire w).
Proof. unfold rp_accept in Hstep. destruct (rp_fds w !! fd); [done|]. by injection Hstep as <-. Qed.
Lemma accept_conn x : x <> fd -> conn_of w1 x = conn_of w x.
Proof. intros Hx. destruct accept_is as [_ ->]. unfold conn_of. cbn. by rewrite lookup_insert_ne. Qed.
Lemma accept_thread c f p : rp_threads w1 !! c = Some (f, p) ->
  (created = true /\ c = rp_next w /\ f = fd /\ p = PRead) \/ rp_threads w !! c = Some (f, p).
Proof.
  destruct accept_is as [_ ->]. cbn. destruct created; [|by right]. intros H. apply lookup_insert_Some in H as [[<- Heq]|[_ ?]]; [left; by injection Heq as <- <- |by right].
Qed.
Lemma accept_pc c f p : rp_threads w !! c = Some (f, p) -> map_pc (conn_of w1) p = map_pc (conn_of w) p.
Proof.
  intros Hc. apply map_pc_ext. intros x Hx. apply accept_conn. intros ->. apply Hfree. exists c, f, p. split; [done|]. split; [|by right].
  destruct (pc_done p) eqn:E; [|done]. apply pc_done_PDone in E as ->. by apply not_elem_of_nil in Hx.
Qed.
Lemma accept_slot i d : rp_devices w !! i = Some d -> ds_in_use d = true -> ds_sock d <> fd.
Proof.
  intros Hd Hu Hs. destruct (fi_slots w Hi i d Hd Hu) as (c & p & Hc & Hp). apply Hfree. exists c, (ds_sock d), p.
  split; [done|]. split; [|by left]. by destruct Hp as [-> |[-> | ->]].
Qed.

Lemma accept_fds_inv : fds_inv w1.
Proof.
  destruct (fi_next w Hi (rp_next w) ltac:(lia)) as [Hn1 Hn2]. pose proof accept_is as [Hf E]. constructor.
  - intros c f p Hc Hp. destruct (accept_thread c f p Hc) as [(_ & -> & -> & ->)|Hc']; [rewrite E; apply lookup_insert_eq|].
    rewrite E. cbn. rewrite lookup_insert_ne; [by eapply fi_own|]. intros ->. apply Hfree. exists c, f, p. split; [done|]. split; [done|by left].
  - rewrite E. cbn. intros f c H. apply lookup_insert_Some in H as [[<- <-]|[Hne H]]; [apply lookup_insert_eq|].
    rewrite lookup_insert_ne by done. by apply fi_open.
  - rewrite E. cbn. intros i d Hd Hu. destruct (fi_slots w Hi i d Hd Hu) as (c & p & Hc & Hp). exists c, p. split; [|done].
    destruct created; [|done]. rewrite lookup_insert_ne; [done|]. intros <-. congruence.
  - rewrite E. cbn. intros f g c H1 H2. apply lookup_insert_Some in H1 as [[<- <-]|[? H1]], H2 as [[<- ?]|[? H2]]; try done.
    + by destruct (Hn2 g).
    + subst c. by destruct (Hn2 f).
    + by eapply fi_once.
  - rewrite E. cbn. intros c Hc. destruct (fi_next w Hi c ltac:(lia)) as [H1 H2]. split.
    + destruct created; [|done]. rewrite lookup_insert_ne by lia. done.
    + intros f H. apply lookup_insert_Some in H as [[<- <-]|[_ H]]; [lia|by eapply H2].
  - intros c f socks s Hc Hs. destruct (accept_thread c f _ Hc) as [(_ & _ & _ & ?)|Hc']; [discriminate|].
    rewrite (accept_conn s). 2: { intros ->. apply Hfree. exists c, f, (PClose socks). split; [done|]. split; [done|by right]. }
    rewrite E. cbn [rp_wire]. by eapply (fi_close w Hi).
  - rewrite E. cbn. apply fi_wire, Hi.
Qed.
Lemma accept_refines : rtc server_step server_init sv ->
  exists sv1, rtc server_step server_init sv1 /\ refines w1 sv1.
Proof.
  intros Hreach. destruct (fi_next w Hi (rp_next w) ltac:(lia)) as [Hn1 _]. pose proof accept_is as [Hf E].
  assert (Forall2 (slot_rel (conn_of w1)) (rp_devices w1) (sv_devices sv)) as Hdev.
  { rewrite E at 2. cbn. apply Forall2_same_length_lookup. pose proof (rf_devs w sv Hr) as Hd. split; [by eapply Forall2_length|].
    intros i d d' H1 H2. destruct (Forall2_lookup_lr _ _ _ _ _ _ Hd H1 H2) as [E1 E2 E3 E4]. constructor; try done.
    intros Hu. rewrite accept_conn by (by eapply accept_slot). by apply E4. }
  exists (if created then Server (sv_devices sv) (<[rp_next w := PRead]> (sv_threads sv)) (sv_log sv) else sv). split.
  - destruct created; [|done]. eapply rtc_r; [exact Hreach|]. eapply (sv_accept (rp_next w)). unfold accept.
    by rewrite (rf_threads w sv Hr), Hn1.
  - assert (forall c, (fun '(f, p) => map_pc (conn_of w1) p) <$> rp_threads w !! c = sv_threads sv !! c) as Hth.
    { intros c. rewrite (rf_threads w sv Hr). destruct (rp_threads w !! c) as [[f p]|] eqn:Ec; [|done]. cbn. by erewrite accept_pc. }
    constructor.
    + intros c. assert (rp_threads w1 = if created then <[rp_next w := (fd, PRead)]> (rp_threads w) else rp_threads w) as -> by (by rewrite E). destruct created; cbn [sv_threads]; [|by rewrite Hth].
      destruct (decide (c = rp_next w)) as [-> |Hne]; [by rewrite !lookup_insert_eq|]. rewrite !lookup_insert_ne by done. by rewrite Hth.
    + by destruct created.
    + rewrite E. destruct created; apply (rf_lines w sv Hr).
Qed.
End accept.

(** ** The system's part *)
Lemma do_events_fds t evs : forall fds fd c, fst (do_events t evs fds) !! fd = Some c -> fds !! fd = Some c.
Proof.
  induction evs as [|e evs IH]; intros fds fd c; cbn; [done|].
  destruct (do_event t e fds) as [f1 w1] eqn:E1. specialize (IH f1 fd c). destruct (do_events t evs f1) as [f2 w2]. cbn in *. intros H. apply IH in H.
  destruct e; cbn in E1; try (by injection E1 as <- <-). destruct (fds !! sock) as [x|]; injection E1 as <- <-; [|done].
  by apply lookup_delete_Some in H as [_ ?].
Qed.
(** Every event on the wire is one of the thread's, at an open descriptor. *)
Definition wire_of (t : nat) (x : nat) (e : relay_event) : option wire_event :=
  match e with
  | EvLine _ line => Some (WLine x line)
  | EvSend _ data => Some (WSend t x data)
  | EvClose _ => Some (WClosed t x)
  | EvRegistered _ _ _ => None
  end.
Definition ev_fd (e : relay_event) : nat := match e with EvLine s _ | EvSend s _ | EvClose s | EvRegistered s _ _ => s end.
Lemma do_events_wire t evs : forall fds e, e ∈ snd (do_events t evs fds) ->
  exists ev x, ev ∈ evs /\ fds !! ev_fd ev = Some x /\ wire_of t x ev = Some e.
Proof.
  induction evs as [|ev evs IH]; intros fds e; cbn; [intros H; by apply not_elem_of_nil in H|].
  destruct (do_event t ev fds) as [f1 w1] eqn:E1. specialize (IH f1 e).
  assert (forall fd c, f1 !! fd = Some c -> fds !! fd = Some c) as Hsub.
  { intros fd c H. apply (do_events_fds t [ev]). cbn. by rewrite E1. }
  destruct (do_events t evs f1) as [f2 w2]. cbn in *. intros H. apply elem_of_app in H as [H|H].
  - exists ev. destruct ev; cbn in E1 |- *; destruct (fds !! _) as [x|] eqn:Ex; injection E1 as <- <-; try (by apply not_elem_of_nil in H);
      apply list_elem_of_singleton in H as ->; exists x; (split; [left|done]).
  - destruct (IH H) as (e' & x & H1 & H2 & H3). exists e', x. split; [by right|]. split; [by apply Hsub|done].
Qed.

(** A line that was read is on the wire. *)
Lemma step_line devs fd p inp devs' p' evs s line :
  thread_step devs fd p inp = Some (devs', p', evs) -> EvLine s line ∈ evs ->
  s = fd /\ evs = [EvLine fd line] /\ inp = ILine (Some line).
Proof.
  intros Hs He. step_cases Hs; try (injection Hs as <- <- <-;
    first [by apply not_elem_of_nil in He
          | repeat (apply elem_of_cons in He as [He|He]; [discriminate He|]); by apply not_elem_of_nil in He
          | apply list_elem_of_fmap in He as (? & He & _); discriminate He
          | apply list_elem_of_singleton in He; by injection He as -> ->]).
  - destruct (register devs id fd) as [[l c] o]. injection Hs as <- <- <-. apply elem_of_app in He as [He|He].
    + apply list_elem_of_fmap in He as (? & He & _); discriminate He.
    + destruct o; [apply list_elem_of_singleton in He; discriminate He|by apply not_elem_of_nil in He].
  - destruct (find_device devs id); injection Hs as <- <- <-; by apply not_elem_of_nil in He.
Qed.

(** The slots in use after a step, and who stands behind them. *)
Lemma step_slot_from devs fd p inp devs' p' evs i d :
  thread_step devs fd p inp = Some (devs', p', evs) -> devs' !! i = Some d -> ds_in_use d = true ->
  (p' = PRegistered i /\ ds_sock d = fd)
  \/ (exists d0, devs !! i = Some d0 /\ ds_in_use d0 = true /\ ds_sock d0 = ds_sock d /\ (p = PUnregister i -> ds_sock d <> fd)).
Proof.
  intros Hs Hi Hu. step_cases Hs; try (injection Hs as <- <- <-; right; exists d; by repeat split).
  - destruct (register devs id fd) as [[l c] o] eqn:E. injection Hs as <- <- <-. apply register_spec in E as (_ & _ & E).
    destruct (E i d Hi Hu) as [(-> & ? & _)|(d0 & ? & ? & ? & ?)]; [by left|]. right. by exists d0.
  - injection Hs as <- <- <-. right. destruct (_ && _) eqn:Eb.
    + apply alter_cases in Hi as [[Hne Hi]|(_ & d0 & _ & ->)]; [|discriminate]. exists d. split; [done|]. split; [done|]. split; [done|]. congruence.
    + exists d. split; [done|]. split; [done|]. split; [done|]. intros [= ->]. rewrite (nth_lookup_slot _ _ _ Hi), Hu in Eb. by apply Nat.eqb_neq in Eb.
  - right. destruct (find_device devs id); injection Hs as <- <- <-; [|by exists d].
    apply alter_cases in Hi as [[Hne Hi]|(-> & d0 & Hi & ->)]; [by exists d|]. by exists d0.
  - injection Hs as <- <- <-. right. apply alter_cases in Hi as [[Hne Hi]|(_ & d0 & _ & ->)]; [by exists d|discriminate].
Qed.
Lemma step_holder devs fd p inp devs' p' evs i :
  thread_step devs fd p inp = Some (devs', p', evs) -> holds_slot p i -> p <> PUnregister i -> holds_slot p' i.
Proof.
  intros Hs [-> |[-> | ->]] Hne; destruct inp; cbn in Hs; try done; injection Hs as <- <- <-; [by right; left|].
  destruct (0 <? n); [by right; left|by right; right].
Qed.

(** To whom a thread sends, and what it closes. *)
Lemma step_sends devs fd p inp devs' p' evs s data :
  thread_step devs fd p inp = Some (devs', p', evs) -> EvSend s data ∈ evs ->
  s = fd \/ (data = cstr "BRIDGE\r\n" /\ exists idx, p = PNotify idx s).
Proof.
  intros Hs He. step_cases Hs; try (injection Hs as <- <- <-;
    first [by apply not_elem_of_nil in He
          | apply list_elem_of_singleton in He; first [discriminate He | injection He as -> _; by left]
          | apply list_elem_of_fmap in He as (? & He & _); discriminate He]).
  - destruct (register devs id fd) as [[l c] o]. injection Hs as <- <- <-. apply elem_of_app in He as [He|He].
    + apply list_elem_of_fmap in He as (? & He & _); discriminate He.
    + destruct o; [apply list_elem_of_singleton in He; discriminate He|by apply not_elem_of_nil in He].
  - destruct (find_device devs id); injection Hs as <- <- <-; by apply not_elem_of_nil in He.
  - injection Hs as <- <- <-. apply elem_of_cons in He as [He|He]; [injection He as -> _; by left|].
    apply list_elem_of_singleton in He. injection He as -> ->. right. eauto.
Qed.
Lemma step_closes devs fd p inp devs' p' evs s :
  thread_step devs fd p inp = Some (devs', p', evs) -> EvClose s ∈ evs ->
  (exists id i d, p = PRegister id /\ devs !! i = Some d /\ ds_in_use d = true /\ ds_id d = id /\ ds_sock d = s)
  \/ (exists socks, p = PClose socks /\ s ∈ socks).
Proof.
  intros Hs He. step_cases Hs; try (injection Hs as <- <- <-;
    first [by apply not_elem_of_nil in He
          | repeat (apply elem_of_cons in He as [He|He]; [discriminate He|]); by apply not_elem_of_nil in He]).
  - left. unfold register in Hs. destruct (find_device devs id) as [e|] eqn:E.
    + destruct (find_device_Some _ _ _ E) as (d & Hd & Hu & Hid & Hn). rewrite Hn in Hs. exists id, e, d. split; [done|]. split; [done|]. split; [done|]. split; [done|].
      destruct (alloc_device_slot _); injection Hs as <- <- <-; cbn in He; apply elem_of_cons in He as [He|He]; try (by injection He);
        no_registered He.
    + destruct (alloc_device_slot _); injection Hs as <- <- <-; cbn in He; no_registered He.
  - destruct (find_device devs id); injection Hs as <- <- <-; by apply not_elem_of_nil in He.
  - injection Hs as <- <- <-. apply list_elem_of_fmap in He as (x & [= ->] & Hx). right. eauto.
Qed.
Lemma step_to_close devs fd p inp devs' evs socks s :
  thread_step devs fd p inp = Some (devs', PClose socks, evs) -> s ∈ socks -> s = fd \/ exists idx, p = PRelease idx s.
Proof.
  intros Hs Hin. step_cases Hs.
  all: try discriminate Hs.
  all: try (injection Hs as _ <- _; apply list_elem_of_singleton in Hin; by left).
  - injection Hs as _ Hp _. by destruct (classify _).
  - destruct (register devs id fd) as [[l c] o]. injection Hs as _ Hp _. by destruct o.
  - injection Hs as _ Hp _. by destruct (0 <? n).
  - by destruct (find_device devs id).
  - injection Hs as _ <- _. apply elem_of_cons in Hin as [-> |Hin]; [by left|]. apply list_elem_of_singleton in Hin as ->. right. eauto.
Qed.

(** ** What the invariant on connections says of a thread *)
Section known.
Context (w : relay_proc) (sv : server) (c fd : nat) (p : pc).
Hypothesis (Hreach : rtc server_step server_init sv) (Hr : refines w sv) (Hc : rp_threads w !! c = Some (fd, p)).
Lemma asked_wire x req : asked (sv_log sv) x req -> wire_asked (rp_wire w) x req.
Proof. intros (line & Hl & Hq). exists line. split; [by apply (rf_lines w sv Hr)|done]. Qed.
Lemma conn_thread_ok : thread_ok (sv_log sv) c (map_pc (conn_of w) p).
Proof. apply (si_threads sv (reachable_inv sv Hreach)). by rewrite (rf_threads w sv Hr), Hc. Qed.
Lemma my_bridge idx dev : bridge_of p = Some (idx, dev) -> may_bridge (rp_wire w) c (conn_of w dev).
Proof.
  intros Hb. pose proof conn_thread_ok as Ht. assert (bridge_ok (sv_log sv) c idx (conn_of w dev)) as (id & Ha & He).
  { unfold bridge_of in Hb. destruct p; try discriminate Hb; by injection Hb as <- <-. }
  exists id. split; [by apply asked_wire|]. apply asked_wire. by eapply (si_auth sv (reachable_inv sv Hreach)).
Qed.
Lemma my_register id i d : p = PRegister id -> rp_devices w !! i = Some d -> ds_in_use d = true -> ds_id d = id ->
  may_replace (rp_wire w) c (conn_of w (ds_sock d)).
Proof.
  intros E Hd Hu Hid. pose proof conn_thread_ok as Ht. rewrite E in Ht. destruct Ht as [Ha _].
  destruct (Forall2_lookup_l _ _ _ _ _ (rf_devs w sv Hr) Hd) as (d' & Hd' & [E1 E2 E3 E4]).
  destruct (si_slots sv (reachable_inv sv Hreach) i d' Hd' ltac:(congruence)) as (id' & He & Hid'). exists id'.
  split; [apply asked_wire; congruence|]. apply asked_wire. rewrite <- (E4 Hu). by eapply (si_auth sv (reachable_inv sv Hreach)).
Qed.
End known.

(** ** A step of a thread *)
Section thread.
Context (w : relay_proc) (sv : server) (c fd : nat) (p p' : pc) (inp : input) (devs' : list device_slot) (evs : list relay_event).
Hypothesis (Hreach : rtc server_step server_init sv) (Hr : refines w sv) (Hi : fds_inv w).
Hypothesis (Hc : rp_threads w !! c = Some (fd, p)) (Hrd : readable (rp_fds w) fd inp = true).
Hypothesis Hstep : thread_step (rp_devices w) fd p inp = Some (devs', p', evs).
Let f := conn_of w.
Let fds' := fst (do_events c evs (rp_fds w)).
Let wire' := snd (do_events c evs (rp_fds w)).
Let w1 := Proc devs' (<[c := (fd, p')]> (rp_threads w)) fds' (rp_owner w) (rp_next w) (rp_wire w ++ wire').

Lemma thread_running : pc_done p = false.
Proof. destruct p; done. Qed.
Lemma thread_owner : rp_owner w !! fd = Some c /\ f fd = c.
Proof. pose proof (fi_own w Hi c fd p Hc thread_running) as H. split; [done|]. unfold f, conn_of. by rewrite H. Qed.
Lemma open_conn s x : rp_fds w !! s = Some x -> f s = x.
Proof. intros H. unfold f, conn_of. by rewrite (fi_open w Hi s x H). Qed.
Lemma slot_inj i d : rp_devices w !! i = Some d -> ds_in_use d = true -> f (ds_sock d) = c -> ds_sock d = fd.
Proof.
  intros Hd Hu Hf. destruct (fi_slots w Hi i d Hd Hu) as (c2 & p2 & Hc2 & Hp2).
  assert (rp_owner w !! ds_sock d = Some c2) as Ho by (eapply fi_own; [done|done|by destruct Hp2 as [-> |[-> | ->]]]).
  unfold f, conn_of in Hf. rewrite Ho in Hf. cbn in Hf. subst c2. eapply fi_once; [done|done|apply thread_owner].
Qed.

Lemma new_event_ok e : e ∈ wire' -> event_ok (rp_wire w) e.
Proof.
  intros He. destruct (do_events_wire c evs (rp_fds w) e He) as (ev & x & Hev & Hx & Ew). pose proof (open_conn _ _ Hx) as Hf.
  destruct ev; cbn in Ew, Hx, Hf; try discriminate Ew; injection Ew as <-; [done|..].
  - destruct (step_sends _ _ _ _ _ _ _ _ _ Hstep Hev) as [-> |(-> & idx & Ep)]; [left; by rewrite <- Hf, (proj2 thread_owner)|].
    right. split; [|done]. rewrite <- Hf. eapply (my_bridge w sv c fd p Hreach Hr Hc idx). by rewrite Ep.
  - destruct (step_closes _ _ _ _ _ _ _ _ Hstep Hev) as [(id & i & d & Ep & Hd & Hu & Hid & <-)|(socks & Ep & Hin)].
    + right; right. rewrite <- Hf. by eapply (my_register w sv c fd p).
    + subst p. destruct (fi_close w Hi c fd socks _ Hc Hin) as [H|H]; [left; by rewrite <- Hf|]. right; left. by rewrite <- Hf.
Qed.

Lemma thread_fds_inv : fds_inv w1.
Proof.
  constructor; cbn [w1 rp_devices rp_threads rp_fds rp_owner rp_next rp_wire].
  - intros c2 fd2 p2 H Hd. apply lookup_insert_Some in H as [[<- Heq]|[_ H]]; [|by eapply fi_own].
    injection Heq as <- <-. apply thread_owner.
  - intros s x H. apply fi_open; [done|]. by eapply do_events_fds.
  - intros i d Hd Hu. destruct (step_slot_from _ _ _ _ _ _ _ _ _ Hstep Hd Hu) as [[-> <-]|(d0 & Hd0 & Hu0 & <- & Hun)].
    { exists c, (PRegistered i). rewrite lookup_insert_eq. split; [done|by left]. }
    destruct (fi_slots w Hi i d0 Hd0 Hu0) as (c2 & p2 & Hc2 & Hp2). destruct (decide (c2 = c)) as [-> |Hne].
    + rewrite Hc in Hc2. injection Hc2 as Ef Ep. rewrite <- Ep in Hp2. exists c, p'. rewrite lookup_insert_eq, <- Ef. split; [done|].
      eapply step_holder; [done|done|]. intros E. by apply (Hun E).
    + exists c2, p2. rewrite lookup_insert_ne by done. done.
  - apply fi_once, Hi.
  - intros x Hx. destruct (fi_next w Hi x Hx) as [H1 H2]. split; [|done]. rewrite lookup_insert_ne; [done|]. intros <-. congruence.
  - intros c2 fd2 socks s H Hs. change (conn_of w1) with f. apply lookup_insert_Some in H as [[<- Heq]|[_ H]].
    + injection Heq as _ E. pose proof Hstep as Hst. rewrite E in Hst. destruct (step_to_close _ _ _ _ _ _ _ _ Hst Hs) as [-> |[idx Ep]]; [left; apply thread_owner|].
      right. apply may_bridge_app. eapply (my_bridge w sv c fd p Hreach Hr Hc idx). by rewrite Ep.
    + destruct (fi_close w Hi c2 fd2 socks s H Hs) as [?|?]; [by left|right; by apply may_bridge_app].
  - intros e He. apply event_ok_app. apply elem_of_app in He as [He|He]; [by apply fi_wire|by apply new_event_ok].
Qed.

Lemma thread_refines : exists sv1, rtc server_step server_init sv1 /\ refines w1 sv1.
Proof.
  destruct (thread_step_rel f _ _ fd c p inp _ _ _ (rf_devs w sv Hr) (proj2 thread_owner) slot_inj Hstep) as (l1 & Hs1 & Hl1).
  exists (Server l1 (<[c := map_pc f p']> (sv_threads sv)) (sv_log sv ++ map (map_ev f) evs)). split.
  - eapply rtc_r; [exact Hreach|]. eapply (sv_thread c inp). unfold step_thread. rewrite (rf_threads w sv Hr), Hc. cbn. fold f. by rewrite Hs1.
  - constructor; cbn [w1 rp_devices rp_threads rp_wire sv_threads sv_devices sv_log]; change (conn_of w1) with f.
    + intros x. destruct (decide (x = c)) as [-> |Hne]; [by rewrite !lookup_insert_eq|]. rewrite !lookup_insert_ne by done. apply (rf_threads w sv Hr).
    + done.
    + intros x line He. apply elem_of_app. apply elem_of_app in He as [He|He]; [left; by apply (rf_lines w sv Hr)|right].
      apply list_elem_of_fmap in He as (ev & E & Hev). destruct ev; try discriminate E. injection E as -> ->.
      destruct (step_line _ _ _ _ _ _ _ _ _ Hstep Hev) as (-> & Eev & ->). unfold wire'. rewrite Eev. cbn in Hrd |- *.
      destruct (rp_fds w !! fd) as [y|] eqn:Ey; [|done]. rewrite (open_conn fd y Ey). cbn. by left.
Qed.
End thread.

(** ** Any run *)
Lemma forward_inv w w1 sv c dir data : rtc server_step server_init sv -> refines w sv -> fds_inv w ->
  rp_forward c dir data w = Some w1 -> refines w1 sv /\ fds_inv w1.
Proof.
  intros Hreach Hr Hi. unfold rp_forward. destruct (rp_threads w !! c) as [[fd p]|] eqn:Hc; [|done]. destruct p; try done.
  destruct (if dir then (fd, dev) else (dev, fd)) as [s1 s2] eqn:Ed. destruct (rp_fds w !! s1) as [x|] eqn:E1; [|done].
  destruct (rp_fds w !! s2) as [y|] eqn:E2; [|done]. intros [= <-].
  pose proof (my_bridge w sv c fd (PBridge idx dev) Hreach Hr Hc idx dev eq_refl) as Hb.
  pose proof (fi_own w Hi c fd _ Hc eq_refl) as Ho. pose proof (fi_open w Hi _ _ E1) as O1. pose proof (fi_open w Hi _ _ E2) as O2.
  assert (event_ok (rp_wire w) (WForward c x y data)) as Hok.
  { unfold conn_of in Hb. destruct dir; injection Ed as <- <-; cbn; [left|right].
    - split; [congruence|]. by rewrite O2 in Hb.
    - split; [congruence|]. by rewrite O1 in Hb. }
  split.
  - constructor; cbn; [apply Hr|apply Hr|]. intros c2 line H. apply elem_of_app. left. by apply (rf_lines w sv Hr).
  - constructor; cbn; try apply Hi.
    + intros c2 fd2 socks s H Hs. destruct (fi_close w Hi c2 fd2 socks s H Hs) as [?|?]; [by left|right; by apply may_bridge_app].
    + intros e He. apply event_ok_app. apply elem_of_app in He as [He|He]; [by apply fi_wire|]. by apply list_elem_of_singleton in He as ->.
Qed.

Lemma step_simulates h w w1 sv : rtc server_step server_init sv -> refines w sv -> fds_inv w ->
  (forall fd created, h = RAccept fd created -> ~ held w fd) -> rp_step h w = Some w1 ->
  exists sv1, rtc server_step server_init sv1 /\ refines w1 sv1 /\ fds_inv w1.
Proof.
  intros Hreach Hr Hi Hfree Hs. destruct h as [fd created|c inp|c dir data]; cbn in Hs.
  - pose proof (Hfree fd created eq_refl) as Hf. destruct (accept_refines w w1 sv fd created Hr Hi Hf Hs Hreach) as (sv1 & ? & ?).
    exists sv1. split; [done|]. split; [done|]. by eapply accept_fds_inv.
  - unfold rp_thread in Hs. destruct (rp_threads w !! c) as [[fd p]|] eqn:Hc; [|done]. destruct (readable _ _ _) eqn:Hrd; [|done].
    destruct (thread_step _ _ _ _) as [[[devs' p'] evs]|] eqn:Hst; [|done].
    destruct (thread_refines w sv c fd p p' inp devs' evs Hreach Hr Hi Hc Hrd Hst) as (sv1 & ? & ?).
    pose proof (thread_fds_inv w sv c fd p p' inp devs' evs Hreach Hr Hi Hc Hrd Hst) as Hi1.
    destruct (do_events c evs (rp_fds w)) as [fds' wire']. injection Hs as <-. by exists sv1.
  - destruct (forward_inv w w1 sv c dir data Hreach Hr Hi Hs) as [? ?]. by exists sv.
Qed.

Lemma proc_init_inv : refines proc_init server_init /\ fds_inv proc_init.
Proof.
  split.
  - constructor; cbn [proc_init rp_threads rp_devices server_init sv_threads sv_devices sv_log rp_wire].
    + intros c. by rewrite !lookup_empty.
    + apply Forall2_replicate. by constructor.
    + intros c line H. by apply not_elem_of_nil in H.
  - constructor; cbn [proc_init rp_threads rp_devices rp_fds rp_owner rp_next rp_wire]; try (intros *; rewrite lookup_empty; done).
    + intros i d H Hu. apply lookup_replicate in H as [-> _]. done.
    + intros e H. by apply not_elem_of_nil in H.
Qed.
Lemma run_simulates l w w1 : rp_run l w w1 -> forall sv, rtc server_step server_init sv -> refines w sv -> fds_inv w ->
  exists sv1, rtc server_step server_init sv1 /\ refines w1 sv1 /\ fds_inv w1.
Proof.
  induction 1 as [w|h l w w1 w2 Hf Hs _ IH]; intros sv Hreach Hr Hi; [by exists sv|].
  destruct (step_simulates h w w1 sv Hreach Hr Hi Hf Hs) as (sv1 & ? & ? & ?). by eapply IH.
Qed.

(** C37. The relay on descriptors.  In every run in which the system hands out no
    descriptor that a thread still holds, whatever threads can be created and
    however they interleave, the process is at every moment the server that gives
    each connection a number of its own; and on the wire, a thread sends only to
    its own connection, or the bridge notice to the device its client asked for;
    data is forwarded only between a client and the device that registered, with
    the token, the identifier the client asked for; and a thread closes only its
    own connection, the device it bridged, or the registration it replaces. *)
Theorem relay_isolates l w :
  rp_run l proc_init w ->
  (exists sv, rtc server_step server_init sv /\ refines w sv) /\ forall e, e ∈ rp_wire w -> event_ok (rp_wire w) e.
Proof.
  intros H. destruct proc_init_inv as [Hr Hi]. destruct (run_simulates _ _ _ H server_init (rtc_refl _ _) Hr Hi) as (sv & H1 & H2 & H3).
  split; [by exists sv|apply H3].
Qed.

(** A device registers on descriptor 4, a client on 5 is bridged to it, and a
    message goes through; another connection cannot get a thread. *)
Definition demo_proc_run : list rp_happening :=
  [RAccept 4 true; RStep 0 (ILine (Some (cstr "REGISTER door-1 smartlock2026"))); RStep 0 IRun; RStep 0 IRun;
   RAccept 6 false;
   RAccept 5 true; RStep 2 (ILine (Some (cstr "CONNECT door-1"))); RStep 2 IRun; RStep 2 IRun;
   RForward 2 true [79; 80]; RStep 2 IRun; RStep 2 IRun; RStep 2 IRun].
Fixpoint proc_run (l : list rp_happening) (w : relay_proc) : option relay_proc :=
  match l with [] => Some w | h :: l => rp_step h w ≫= proc_run l end.
(** Whether a descriptor is held can be read off the threads. *)
Definition heldb (w : relay_proc) (fd : nat) : bool :=
  existsb (fun '(c, (f, p)) => negb (pc_done p) && ((fd =? f)%nat || existsb (Nat.eqb fd) (pc_fds p))) (map_to_list (rp_threads w)).
Lemma heldb_held w fd : heldb w fd = false -> ~ held w fd.
Proof.
  intros H (c & f & p & Hc & Hp & Hf). apply not_true_iff_false in H. apply H. apply existsb_exists. exists (c, (f, p)).
  split; [by apply list_elem_of_In, elem_of_map_to_list|]. rewrite Hp. cbn. apply orb_true_iff.
  destruct Hf as [-> |Hf]; [left; apply Nat.eqb_refl|]. right. apply existsb_exists. exists fd. split; [by apply list_elem_of_In|apply Nat.eqb_refl].
Qed.
Fixpoint fresh_run (l : list rp_happening) (w : relay_proc) : bool :=
  match l with
  | [] => true
  | h :: l => negb (match h with RAccept fd _ => heldb w fd | _ => false end)
              && match rp_step h w with Some w => fresh_run l w | None => false end
  end.
Lemma proc_run_rp l : forall w w1, proc_run l w = Some w1 -> fresh_run l w = true -> rp_run l w w1.
Proof.
  induction l as [|h l IH]; intros w w1 H Hf; cbn in H, Hf; [injection H as <-; constructor|].
  apply andb_true_iff in Hf as [Hh Hl]. destruct (rp_step h w) as [w2|] eqn:E; [|done]. econstructor; [|done|by apply IH].
  intros fd created ->. apply heldb_held. by apply negb_true_iff in Hh.
Qed.

Lemma relay_isolates_witness :
  exists w, proc_run demo_proc_run proc_init = Some w /\ fresh_run demo_proc_run proc_init = true
    /\ WForward 2 2 0 [79; 80] ∈ rp_wire w /\ may_bridge (rp_wire w) 2 0.
Proof.
  destruct (proc_run demo_proc_run proc_init) as [w|] eqn:E; [|vm_compute in E; discriminate E].
  assert (fresh_run demo_proc_run proc_init = true) as Hf by (vm_compute; reflexivity).
  exists w. split; [reflexivity|]. split; [exact Hf|].
  assert (WForward 2 2 0 [79; 80] ∈ rp_wire w) as Hw.
  { vm_compute in E. injection E as <-. cbn [rp_wire]. repeat (apply elem_of_cons; first [left; reflexivity | right]). }
  split; [exact Hw|].
  destruct (proj2 (relay_isolates demo_proc_run w (proc_run_rp _ _ _ E Hf)) _ Hw) as [[_ H]|[H _]]; [exact H|discriminate H].
Defined.

(** C5. Only authorised bridges, however the threads interleave and whatever
    threads can be created, as long as the system hands out no descriptor that a
    thread still holds: if a client is bridged to a device, the client's first
    line asked for an identifier and the device's first line registered that
    identifier (as the table stores it) with the shared token; the slot is marked
    for as long as the bridge lasts, and no other client is bridged to the same
    device.  ([bridge_hijacked] is a run in which a descriptor is reused and the
    first part fails.) *)
Theorem bridge_authorised (l : list rp_happening) (w : relay_proc) (c fd : nat) (p : pc) (idx dev : nat) :
  rp_run l proc_init w -> rp_threads w !! c = Some (fd, p) -> bridge_of p = Some (idx, dev) ->
  may_bridge (rp_wire w) c (conn_of w dev)
  /\ (exists d, rp_devices w !! idx = Some d /\ ds_bridging d = true)
  /\ forall c' fd' p' idx', rp_threads w !! c' = Some (fd', p') -> bridge_of p' = Some (idx', dev) -> c' = c.
Proof.
  intros Hrun Hc Hb. destruct proc_init_inv as [Hr0 Hi0].
  destruct (run_simulates _ _ _ Hrun server_init (rtc_refl _ _) Hr0 Hi0) as (sv & Hreach & Hr & _).
  assert (forall x f q k, rp_threads w !! x = Some (f, q) -> bridge_of q = Some (k, dev) ->
    sv_threads sv !! x = Some (map_pc (conn_of w) q) /\ bridge_of (map_pc (conn_of w) q) = Some (k, conn_of w dev)) as Hmap.
  { intros x f q k Hx Hq. split; [by rewrite (rf_threads w sv Hr), Hx|]. destruct q; cbn in Hq |- *; try done; by injection Hq as -> ->. }
  destruct (Hmap c fd p idx Hc Hb) as [Hc1 Hb1]. destruct (server_bridges sv c _ idx _ Hreach Hc1 Hb1) as (_ & (d & Hd & Hbr) & Hone). split; [|split].
  - by eapply my_bridge.
  - destruct (Forall2_lookup_r _ _ _ _ _ (rf_devs w sv Hr) Hd) as (d' & Hd' & Hrel). exists d'. split; [done|]. by rewrite <- (sr_bridging _ _ _ Hrel).
  - intros c' fd' p' idx' Hc' Hb'. destruct (Hmap c' fd' p' idx' Hc' Hb') as [Hc2 Hb2]. by eapply Hone.
Qed.

Lemma bridge_authorised_witness :
  exists w, proc_run (take 9 demo_proc_run) proc_init = Some w /\ rp_threads w !! 2%nat = Some (5%nat, PBridge 0 4)
    /\ may_bridge (rp_wire w) 2 0.
Proof.
  destruct (proc_run (take 9 demo_proc_run) proc_init) as [w|] eqn:E; [|vm_compute in E; discriminate E].
  assert (fresh_run (take 9 demo_proc_run) proc_init = true) as Hf by (vm_compute; reflexivity).
  assert (rp_threads w !! 2%nat = Some (5%nat, PBridge 0 4) /\ conn_of w 4 = 0%nat) as [Hc Ho].
  { vm_compute in E. injection E as <-. split; reflexivity. }
  exists w. split; [reflexivity|]. split; [exact Hc|].
  pose proof (proj1 (bridge_authorised _ w 2 5 _ 0 4 (proc_run_rp _ _ _ E Hf) Hc eq_refl)) as H. rewrite Ho in H. exact H.
Defined.

(** ** Without it *)

(** The device of a bridge disconnects and its thread closes descriptor 4 while the
    bridge still uses it; the next connection gets the same number, and although
    it has sent nothing at all it receives what the client sends. *)
Definition hijack_run : list rp_happening :=
  [RAccept 4 true; RStep 0 (ILine (Some (cstr "REGISTER door-1 smartlock2026"))); RStep 0 IRun; RStep 0 IRun;
   RAccept 5 true; RStep 1 (ILine (Some (cstr "CONNECT door-1"))); RStep 1 IRun; RStep 1 IRun;
   RStep 0 (IPeek 0); RStep 0 IRun; RStep 0 IRun;
   RAccept 4 true; RForward 1 true [79; 80]].
Lemma bridge_hijacked :
  exists w, proc_run hijack_run proc_init = Some w /\ WForward 1 1 2 [79; 80] ∈ rp_wire w /\ forall req, ~ wire_asked (rp_wire w) 2 req.
Proof.
  destruct (proc_run hijack_run proc_init) as [w|] eqn:E; [|vm_compute in E; discriminate E].
  exists w. split; [done|]. vm_compute in E. injection E as <-. cbn [rp_wire]. split.
  - repeat (apply elem_of_cons; first [left; reflexivity | right]).
  - intros req (line & Hl & _). repeat (apply elem_of_cons in Hl as [Hl|Hl]; [discriminate Hl|]). by apply not_elem_of_nil in Hl.
Qed.

(** A connection whose thread cannot be created stays open, answered by nobody. *)
Lemma unserved_connection_leaks w fd w1 : rp_accept fd false w = Some w1 ->
  rp_fds w1 !! fd = Some (rp_next w) /\ rp_threads w1 = rp_threads w.
Proof. unfold rp_accept. destruct (rp_fds w !! fd); [done|]. intros [= <-]. split; [apply lookup_insert_eq|done]. Qed.
