(* ===== verification/RelayBridge.v ===== *)
(** * Device, relay and RTSP server together

    The relay client, the relay server and the RTSP server are separate
    components that meet on two lines of text and one callback.  Here they are
    put together: what the client sends is what the server understands, what
    the server answers is what the client understands, and the connection that
    is handed over becomes an RTSP client. *)
From S2P Require Import Prelude Sys Fmt Mbuf RelayClient RelayServer.
From S2P Require Import AudioIn AudioOut Camera RtspAuth RtspParse RtspState RtspServer RtspReply RtspAccess RtspInv.
From S2P Require Import RtspSteps RtspMedia.

(** ** Registration *)
Definition register_text (id token : bytes) : bytes := cstr "REGISTER " ++ id ++ [32] ++ token.

Lemma register_text_length id token :
  length (register_text id token) = (10 + length id + length token)%nat.
Proof. unfold register_text. rewrite !length_app. cbn. lia. Qed.

Lemma reg_msg_text `{Env} id token :
  (length id <= 63)%nat -> (length token <= 63)%nat ->
  snprintf_str RELAY_LINE "REGISTER %s %s\r\n" [AStr id; AStr token] = register_text id token ++ CRLF.
Proof.
  intros Hi Ht.
  assert (concat (cstr "REGISTER " :: flush_lit id ++ [32] :: flush_lit token ++ [CRLF])
    = register_text id token ++ CRLF) as Hc.
  { cbn [concat]. rewrite concat_app. cbn [concat]. rewrite concat_app, !concat_flush_lit.
    unfold register_text. by rewrite <- !app_assoc. }
  erewrite snprintf_str_fits; [exact Hc|destruct id, token; vm_compute; reflexivity|].
  rewrite Hc, length_app, register_text_length. unfold RELAY_LINE, CRLF. cbn [length]. lia.
Qed.

(** Characters of an identifier are neither NUL, space nor line ends. *)
Lemma valid_id_chars id : valid_id id = true -> Forall (fun c => c <> 0 /\ c <> 32 /\ c <> 10) id.
Proof.
  intros Hv. apply List.Forall_forall. intros c Hc. unfold valid_id in Hv.
  rewrite forallb_forall in Hv. specialize (Hv c Hc). unfold valid_id_char in Hv. lia.
Qed.

Lemma classify_register id :
  valid_id id = true -> classify (register_text id AUTH_TOKEN) = ReqRegister id.
Proof.
  intros Hv. pose proof (valid_id_chars id Hv) as Hc. unfold classify.
  rewrite (cstring_no_nul (register_text id AUTH_TOKEN)).
  2: { unfold register_text. rewrite !Forall_app. repeat split.
       - by repeat constructor.
       - eapply Forall_impl; [|exact Hc]. cbn. tauto.
       - by repeat constructor.
       - by repeat constructor. }
  assert (starts_with (cstr "REGISTER ") (register_text id AUTH_TOKEN) = true) as ->.
  { apply prefixb_spec. by eexists. }
  change (drop 9 (register_text id AUTH_TOKEN)) with (id ++ [32] ++ AUTH_TOKEN).
  assert (strchr (id ++ [32] ++ AUTH_TOKEN) 32 = Some (length id)) as ->.
  { unfold strchr. rewrite cstring_no_nul.
    - rewrite memchr_app_None; [cbn; f_equal; lia|]. apply memchr_None.
      eapply Forall_impl; [|exact Hc]. cbn. tauto.
    - rewrite !Forall_app. repeat split; [eapply Forall_impl; [|exact Hc]; cbn; tauto|by repeat constructor..]. }
  rewrite take_app_length. rewrite app_assoc, drop_app_length' by len_lia.
  by rewrite Hv.
Qed.

Section interop.
Context `{V : Env} {W : Type}.
Variable cb : nat -> M W unit.

(** What the device sends when its connection is established. *)
Lemma estab_sends (r : relay) (w : W) s tc :
  AllocOk V -> relay_inv r -> rl_tc r = Some tc ->
  out (snd (relay_estab_handler (r, w) s))
  = out s ++ [TcpSend tc (register_text (rl_device_id r) (rl_auth_token r) ++ CRLF)].
Proof.
  intros Ha Hi Htc. destruct (ri_texts r Hi) as [Hl1 Hl2].
  unfold relay_estab_handler. unfold mbind at 1, M_bind at 1, on_relay, modify. cbn [fst snd].
  rewrite relay_get_bind. cbn [rl_device_id rl_auth_token rl_tc set_rl_backoff].
  rewrite reg_msg_text, Htc by done.
  set (msg := register_text _ _ ++ CRLF). unfold mbind at 1, M_bind at 1, lift at 1.
  pose proof (mbuf_alloc_spec (length msg) s) as Hal. unfold iwp in Hal.
  destruct (mbuf_alloc (length msg) s) as [[mb|] s1]; destruct Hal as [Ho Hal]; [|done].
  destruct Hal as [Hh Hs].
  destruct (mbuf_write_room mb [] msg s1 Hh) as (mb1 & Hw & Hh1 & _); [rewrite Hs; done|].
  unfold mbind, M_bind, lift. rewrite Hw. unfold emit, ask. cbn [snd out].
  by rewrite (mbuf_buf_holds _ _ Hh1), Ho.
Qed.

(** A delivery to a client with an empty buffer. *)
Lemma recv_from_empty (r : relay) (w : W) s data :
  AllocOk V -> relay_inv r -> relay_data r = [] -> zlen data <= MAX_RBUF_SIZE ->
  exists s1, out s1 = out s /\ lines_post cb r w s1 (protocol (rl_registered r) data)
    (relay_recv_handler cb data (r, w) s).
Proof.
  intros Ha Hi Hd Hl.
  destruct (relay_recv_spec cb data r w s (ri_fits r Hi)) as (d & s1 & Happ & Ho & Hpost);
    [rewrite Hd; cbn; lia|apply Hi|].
  destruct Happ as [-> |[Hno _]]; [|done]. rewrite Hd in Hpost. by exists s1.
Qed.

(** The relay's answer in two pieces. *)
Lemma ok_registers (r : relay) (w : W) s a b :
  AllocOk V -> relay_inv r -> rl_registered r = false -> relay_data r = [] -> a ++ b = cstr "OK\r\n" ->
  let '(_, x1, s1) := relay_recv_handler cb a (r, w) s in
  let '(_, x2, s2) := relay_recv_handler cb b x1 s1 in
  rl_registered (fst x2) = true /\ rl_tc (fst x2) = rl_tc r /\ out s2 = out s.
Proof.
  intros Ha Hi Hreg Hdata Hab.
  assert (protocol false (a ++ b) = Stay true []) as Hp by by rewrite Hab.
  rewrite protocol_app in Hp. destruct (protocol false a) as [g rest|] eqn:Ep; [|done].
  apply (f_equal length) in Hab. rewrite length_app in Hab. cbn in Hab.
  destruct (recv_from_empty r w s a Ha Hi Hdata) as (s1 & Ho1 & Hpost); [unfold MAX_RBUF_SIZE; lia|].
  rewrite Hreg, Ep in Hpost. destruct Hpost as (b1 & -> & Hd1 & Hb1).
  set (r1 := set_rl_rbuf b1 (set_rl_registered g r)). pose proof (protocol_shrinks _ _ _ _ Ep) as Hlen.
  assert (relay_data r1 = rest) as Hr1 by exact Hd1.
  destruct (relay_recv_spec cb b r1 w s1 Hb1) as (d2 & s2 & Happ & Ho2 & Hpost);
    [rewrite Hr1; unfold MAX_RBUF_SIZE; lia|rewrite Hr1; by eapply protocol_rest|].
  destruct Happ as [-> |[Hno _]]; [|done]. rewrite Hr1 in Hpost. change (rl_registered r1) with g in Hpost.
  rewrite Hp in Hpost. destruct Hpost as (b2 & -> & _). cbn. by rewrite Ho2, Ho1.
Qed.
End interop.

(** Registration works end to end: when its connection is established, a
    device with a valid identifier and the shared token sends one line; the
    relay reads it back whole and takes it as a registration under exactly that
    identifier; and the relay's answer, delivered in any two pieces, makes the
    device count as registered. *)
Theorem registration_interop `{V : Env} {W : Type} (cb : nat -> M W unit) (r : relay) (w : W) (s : sys)
    (tc : nat) (a b : bytes) :
  AllocOk V -> relay_inv r -> rl_tc r = Some tc -> rl_registered r = false -> relay_data r = [] ->
  valid_id (rl_device_id r) = true -> rl_auth_token r = AUTH_TOKEN ->
  a ++ b = cstr "OK\r\n" ->
  (exists msg line, out (snd (relay_estab_handler (r, w) s)) = out s ++ [TcpSend tc msg]
     /\ readline msg MAX_LINE = Some (line, []) /\ classify line = ReqRegister (rl_device_id r))
  /\ let '(_, x1, s1) := relay_recv_handler cb a (r, w) s in
     let '(_, x2, s2) := relay_recv_handler cb b x1 s1 in
     rl_registered (fst x2) = true /\ rl_tc (fst x2) = rl_tc r /\ out s2 = out s.
Proof.
  intros Ha Hi Htc Hreg Hdata Hv Htok Hab. split; [|by apply ok_registers].
  exists (register_text (rl_device_id r) AUTH_TOKEN ++ CRLF), (register_text (rl_device_id r) AUTH_TOKEN).
  split; [|split].
  - rewrite <- Htok. by apply estab_sends.
  - pose proof (readline_crlf (register_text (rl_device_id r) AUTH_TOKEN) [] MAX_LINE) as Hrl.
    rewrite app_nil_r in Hrl. apply Hrl.
    + unfold register_text. rewrite !Forall_app. pose proof (valid_id_chars _ Hv) as Hc.
      repeat split; [by repeat constructor|eapply Forall_impl; [|exact Hc]; cbn; tauto|by repeat constructor..].
    + rewrite register_text_length. unfold MAX_LINE. change (length AUTH_TOKEN) with 13%nat.
      destruct (ri_texts r Hi). lia.
  - by apply classify_register.
Qed.

Lemma registration_interop_witness :
  exists msg line, out (snd (@relay_estab_handler good_env unit (demo_relay, tt) (Sys 0 []))) = [TcpSend 5 msg]
    /\ readline msg MAX_LINE = Some (line, []) /\ classify line = ReqRegister (cstr "door-1").
Proof.
  destruct (@registration_interop good_env unit (fun _ => mret tt) demo_relay tt (Sys 0 []) 5 [79] [75; 13; 10]
    good_env_alloc demo_relay_inv eq_refl eq_refl eq_refl eq_refl eq_refl eq_refl) as [H _].
  exact H.
Defined.

(** ** Hand-over *)

(** A bridged client is served: when the relay announces a bridge, the
    connection of a running device becomes a new RTSP client with its
    inactivity timeout running, beside the clients there were; the RTSP server's
    invariant is kept; and the device is about to connect to the relay again
    for the next client. *)
Theorem bridged_connection_served `{V : Env} (peer : sa) (r : relay) (w : world) (s : sys) (tc : nat) :
  AllocOk V -> relay_inv r -> rl_tc r = Some tc -> rl_running r = true -> rl_has_cb r = true ->
  relay_data r = [] -> rtsp_inv w -> tc ∉ map c_tc (clients w) ->
  let '(_, (r', w'), s') :=
    relay_recv_handler (fun tc => rtsp_accept_relay_conn tc peer) (cstr "BRIDGE\r\n") (r, w) s in
  clients w' = clients w ++ [set_c_timeout (Some SESSION_TIMEOUT) (client_new tc peer)]
  /\ rtsp_inv w' /\ rl_tc r' = None /\ rl_tmr r' = Some RECONNECT_INTERVAL_MS /\ out s' = out s.
Proof.
  intros Ha Hi Htc Hrun Hcb Hd Hw Hfresh.
  destruct (recv_from_empty (fun tc => rtsp_accept_relay_conn tc peer) r w s (cstr "BRIDGE\r\n") Ha Hi Hd)
    as (s1 & Ho & Hpost); [vm_compute; discriminate|].
  change (protocol (rl_registered r) (cstr "BRIDGE\r\n")) with (lines_result 8 (rl_registered r) (cstr "BRIDGE\r\n"))
    in Hpost.
  assert (lines_result 8 (rl_registered r) (cstr "BRIDGE\r\n") = HandOver) as Hp by by destruct (rl_registered r).
  rewrite Hp in Hpost. cbn [lines_post] in Hpost. rewrite Hpost.
  unfold relay_bridge. rewrite relay_get_bind. rewrite Hcb, Htc.
  unfold mbind at 1, M_bind at 1, on_relay at 1, modify at 1. cbn [fst snd].
  pose proof (relay_conn_inv tc peer w s1 Hw Hfresh) as Hinv. unfold wp in Hinv.
  unfold mbind at 1, M_bind at 1, on_app, zoom. cbn [fst snd].
  assert (rtsp_accept_relay_conn tc peer w s1
    = (tt, set_w_rtsp (set_g_clients (clients w ++ [set_c_timeout (Some SESSION_TIMEOUT) (client_new tc peer)])
        (w_rtsp w)) w, Sys (S (tick s1)) (out s1))) as Hacc.
  { unfold rtsp_accept_relay_conn, mbind, M_bind, lift, ask. pose proof (Ha (tick s1)) as Hne.
    destruct (Z.eqb_spec (env QAlloc (tick s1)) 0); done. }
  rewrite Hacc in Hinv |- *. unfold mbind at 1, M_bind at 1, on_relay at 1, modify at 1. cbn [fst snd].
  rewrite relay_get_bind. cbn [rl_running set_rl_backoff set_rl_bridging set_rl_registered set_rl_rbuf set_rl_tc].
  rewrite Hrun. unfold on_relay, modify. by cbn.
Qed.

Lemma bridged_connection_served_witness :
  let '(_, (r', w'), _) := @relay_recv_handler good_env world
    (fun tc => @rtsp_accept_relay_conn good_env tc sa_zero) (cstr "BRIDGE\r\n")
    (demo_relay, demo_world [] demo_auth) (Sys 0 []) in
  map c_tc (clients w') = [5%nat] /\ rl_tmr r' = Some 5000.
Proof.
  pose proof (@bridged_connection_served good_env sa_zero demo_relay (demo_world [] demo_auth) (Sys 0 []) 5
    good_env_alloc demo_relay_inv eq_refl eq_refl eq_refl eq_refl) as H.
  destruct (relay_recv_handler _ _ _ _) as [[a [r' w']] s'].
  destruct H as (Hc & _ & _ & Ht & _).
  - split; [|constructor]. constructor; cbn; try done; try lia.
    + apply NoDup_nil_2.
    + by left.
    + exact camera_zero_wf.
    + exact demo_auth_wf.
  - apply not_elem_of_nil.
  - rewrite Hc. split; [reflexivity|exact Ht].
Defined.
