(* ===== verification/Session.v ===== *)
(** * The plain RTP session ([session.c])

    A call that the HTTP interface starts: one UDP socket, one peer, the shared
    camera and speaker.  The operations run on the world of the RTSP server,
    because both use the same camera and speaker. *)
From S2P Require Import Prelude Sys Fmt Mbuf Rtp H264 G711 AudioIn AudioOut Camera.
From S2P Require Import RtspAuth RtspParse RtspState RtspServer RtspReply RtspAccess RtspInv RtspMedia.

(** [struct intercom_session]. *)
Record session := Session {
  ss_us : option nat;
  ss_peer : sa;
  ss_port : Z;
  ss_tmr_audio : option Z;
  ss_tmr_video : option Z;
  ss_video_ssrc : Z;
  ss_video_ts : Z;
  ss_video_seq : Z;
  ss_frame_count : Z;
  ss_ssrc : Z;
  ss_audio_ts : Z;
  ss_audio_seq : Z;
  ss_active : bool
}.

(** What the timers work on: the world, the session, and the static [phase] of
    the test tone. *)
Record call := Call { cl_world : world; cl_sess : session; cl_phase : Z }.

Definition set_video (ts seq count : Z) (x : session) : session :=
  Session (ss_us x) (ss_peer x) (ss_port x) (ss_tmr_audio x) (ss_tmr_video x) (ss_video_ssrc x)
    ts seq count (ss_ssrc x) (ss_audio_ts x) (ss_audio_seq x) (ss_active x).
Definition set_audio (ts seq : Z) (x : session) : session :=
  Session (ss_us x) (ss_peer x) (ss_port x) (ss_tmr_audio x) (ss_tmr_video x) (ss_video_ssrc x)
    (ss_video_ts x) (ss_video_seq x) (ss_frame_count x) (ss_ssrc x) ts seq (ss_active x).
Definition set_tmrs (ta tv : option Z) (active : bool) (x : session) : session :=
  Session (ss_us x) (ss_peer x) (ss_port x) ta tv (ss_video_ssrc x)
    (ss_video_ts x) (ss_video_seq x) (ss_frame_count x) (ss_ssrc x) (ss_audio_ts x) (ss_audio_seq x) active.

Definition on_sess (f : session -> session) : M call unit :=
  modify (fun c => Call (cl_world c) (f (cl_sess c)) (cl_phase c)).
Definition in_world {A} (m : M world A) : M call A :=
  zoom cl_world (fun w c => Call w (cl_sess c) (cl_phase c)) m.

Section Session.
Context `{V : Env}.
(** The test tone: the sample at a phase, computed with the C library's [sin]. *)
Variable tone : Z -> Z.

(** The timers belong to the session's memory and go with it. *)
Definition session_destructor (us : option nat) : M world unit :=
  on_cam camera_close ;;
  on_aout (fun d => d' ← audio_out_close d; mret (tt, d')) ;;
  match us with Some u => lift (emit (UdpClose u)) | None => mret tt end.

(** The error code, and the session when it is 0. *)
Definition session_alloc (peer : sa) : M world (Z * option session) :=
  ok ← lift (ask QAlloc);
  if ok =? 0 then mret (ENOMEM, None)
  else
    ssrc ← lift (ask QRand);
    video_ssrc ← lift (ask QRand);
    err ← on_cam (camera_open VIDEO_WIDTH VIDEO_HEIGHT VIDEO_FPS 300);
    if negb (err =? 0) then session_destructor None ;; mret (err, None)
    else
      _ ← on_aout (fun d => audio_out_open d AUDIO_SRATE 1 (Z.of_nat AUDIO_SAMPLES));
      err ← lift (ask QListen);
      if negb (err =? 0) then session_destructor None ;; mret (err, None)
      else
        u ← lift fresh;
        port ← lift (ask QPort);
        mret (0, Some (Session (Some u) peer (u16 port) (Some AUDIO_PTIME) (Some VIDEO_PTIME)
                         (u32 video_ssrc) 0 0 0 (u32 ssrc) 0 0 true)).

(** [mb] is the datagram. *)
Definition udp_recv_handler (sess : session) (mb : mbuf) : M world unit :=
  if negb (ss_active sess) then mret tt
  else if (mbuf_get_left mb <? 12)%nat then mret tt
  else
    let '(err, hdr, mb) := rtp_hdr_decode mb in
    if negb (err =? 0) then mret tt
    else if negb (h_ver hdr =? 2) then mret tt
    else if h_pt hdr =? PT_PCMU then
      match mbuf_buf mb with
      | [] => mret tt
      | pcmu => on_aout (fun d => d' ← audio_out_play d pcmu; mret (tt, d'))
      end
    else mret tt.

Definition restart_audio : M call unit :=
  on_sess (fun x => set_tmrs (Some AUDIO_PTIME) (ss_tmr_video x) (ss_active x) x).
Definition restart_video : M call unit :=
  on_sess (fun x => set_tmrs (ss_tmr_audio x) (Some VIDEO_PTIME) (ss_active x) x).

(** The timer that fires is no longer running. *)
Definition audio_send_timer : M call unit :=
  on_sess (fun x => set_tmrs None (ss_tmr_video x) (ss_active x) x) ;;
  c ← get;
  let sess := cl_sess c in
  if negb (ss_active sess) then mret tt
  else if negb (sa_isset_all (ss_peer sess)) then restart_audio
  else
    let pcm := map (fun i => tone (u32 (cl_phase c + Z.of_nat i))) (seq 0 AUDIO_SAMPLES) in
    modify (fun c => Call (cl_world c) (cl_sess c) (u32 (cl_phase c + Z.of_nat AUDIO_SAMPLES))) ;;
    let pcmu := map g711_pcm2ulaw pcm in
    mbo ← lift (mbuf_alloc (12 + AUDIO_SAMPLES));
    match mbo with
    | None => restart_audio
    | Some mb =>
        let seq := ss_audio_seq sess in
        let ts := ss_audio_ts sess in
        '(_, mb) ← lift (rtp_hdr_encode mb (media_hdr false PT_PCMU seq ts (ss_ssrc sess)));
        '(_, mb) ← lift (mbuf_write_mem mb pcmu);
        _ ← lift (udp_send (ss_us sess) (ss_peer sess) (mbuf_buf (mbuf_set_pos mb 0)));
        on_sess (set_audio (u32 (ts + Z.of_nat AUDIO_SAMPLES)) (u16 (seq + 1))) ;;
        restart_audio
    end.

Definition send_h264_nalu_rtp (nalu : bytes) (is_last_nalu : bool) : M call unit :=
  c ← get;
  let x := cl_sess c in
  seq ← lift (send_h264_nalu (udp_send (ss_us x) (ss_peer x)) (ss_video_ts x) (ss_video_ssrc x)
                is_last_nalu nalu (ss_video_seq x));
  on_sess (fun x => set_video (ss_video_ts x) seq (ss_frame_count x) x).

Fixpoint send_frame (nalus : list bytes) : M call unit :=
  match nalus with
  | [] => mret tt
  | n :: t => send_h264_nalu_rtp n (match t with [] => true | _ => false end) ;; send_frame t
  end.

Definition video_send_timer : M call unit :=
  on_sess (fun x => set_tmrs (ss_tmr_audio x) None (ss_active x) x) ;;
  c ← get;
  let sess := cl_sess c in
  if negb (ss_active sess) then mret tt
  else if negb (sa_isset_all (ss_peer sess)) then restart_video
  else
    '(err, frame) ← in_world (on_cam camera_get_frame);
    if negb (err =? 0) then restart_video
    else
      send_frame (fr_nalus frame) ;;
      on_sess (fun x => set_video (u32 (ss_video_ts x + VIDEO_CLOCK / VIDEO_FPS)) (ss_video_seq x)
                          (u32 (ss_frame_count x + 1)) x) ;;
      restart_video.

Definition session_close (x : session) : session := set_tmrs None None false x.
End Session.

(** ** Lemmas *)
Lemma udp_send_event `{V : Env} u dst d s :
  out (snd (udp_send (Some u) dst d s)) = out s ++ [UdpSend u dst d].
Proof. done. Qed.

Lemma concat_singletons {A B} (f : A -> B) l : concat (map (fun x => [f x]) l) = map f l.
Proof. induction l; cbn; congruence. Qed.

(** One unit to the peer. *)
Lemma send_nalu_rtp_spec `{V : Env} n last (c : call) s u :
  AllocOk V -> Forall is_byte n -> ss_us (cl_sess c) = Some u -> 0 <= ss_video_seq (cl_sess c) < 65536 ->
  let x := cl_sess c in
  let ps := video_packets (ss_video_seq x) (ss_video_ts x) (ss_video_ssrc x) last (nalu_payloads n) in
  wp (send_h264_nalu_rtp n last) (fun _ c' s' =>
    c' = Call (cl_world c) (set_video (ss_video_ts x) (u16 (ss_video_seq x + zlen ps)) (ss_frame_count x) x)
           (cl_phase c)
    /\ out s' = out s ++ map (UdpSend u (ss_peer x)) ps) c s.
Proof.
  intros Ha Hn Hu Hseq x ps. unfold send_h264_nalu_rtp. apply wp_bind, wp_get. fold x.
  apply wp_bind, wp_lift. unfold iwp. fold x in Hu, Hseq. rewrite Hu.
  destruct (send_h264_nalu_sends (udp_send (Some u) (ss_peer x)) (ss_video_ts x) (ss_video_ssrc x) last
    (fun d => [UdpSend u (ss_peer x) d]) (fun d s => udp_send_event u (ss_peer x) d s) n (ss_video_seq x) s Hn Hseq)
    as (k & Hk & _ & Ho & Hall).
  specialize (Hall Ha). fold ps in Hall, Ho. subst k. rewrite firstn_all, concat_singletons in Ho.
  destruct (send_h264_nalu _ _ _ _ _ _ _) as [seq s1]. cbn [fst snd] in Hk, Ho. subst seq.
  apply wp_modify. done.
Qed.

Lemma send_frame_spec `{V : Env} nalus (c : call) s u :
  AllocOk V -> Forall (Forall is_byte) nalus -> ss_us (cl_sess c) = Some u ->
  0 <= ss_video_seq (cl_sess c) < 65536 ->
  let x := cl_sess c in
  let ps := frame_packets (ss_video_seq x) (ss_video_ts x) (ss_video_ssrc x) nalus in
  wp (send_frame nalus) (fun _ c' s' =>
    c' = Call (cl_world c) (set_video (ss_video_ts x) (u16 (ss_video_seq x + zlen ps)) (ss_frame_count x) x)
           (cl_phase c)
    /\ out s' = out s ++ map (UdpSend u (ss_peer x)) ps) c s.
Proof.
  intros Ha Hb. revert c s. induction Hb as [|n nalus Hn Hb IH]; intros c s Hu Hseq; cbn [send_frame].
  { apply wp_ret. cbn. rewrite Z.add_0_r, u16_small, app_nil_r by done. by destruct c as [? [] ?]. }
  apply wp_bind. eapply wp_mono; [by apply (send_nalu_rtp_spec n _ c s u)|].
  intros _ c1 s1 [-> Ho]. set (ps := video_packets _ _ _ _ _) in *.
  eapply wp_mono; [apply IH; [done|apply u16_range]|].
  intros _ c2 s2 [-> Ho2]. cbn in Ho2 |- *. fold ps.
  set (rest := frame_packets (u16 _) _ _ nalus) in *. split.
  - rewrite u16_add_u16, length_app, Nat2Z.inj_add, Z.add_assoc. done.
  - rewrite Ho2, Ho, map_app, app_assoc. done.
Qed.

(** ** Theorems *)

(** A tick of the video timer of an active call whose peer is known: the
    units of the encoder's frame go to that peer, all of them, in consecutively
    numbered packets with one timestamp; the counters advance by the number of
    packets, by 6000, and by one frame.  Without a frame nothing is sent and no
    counter moves.  The timer runs again in either case. *)
Theorem session_video_tick `{V : Env} `{!EncoderBytes V} (c : call) (s : sys) (u : nat) :
  AllocOk V -> ss_active (cl_sess c) = true -> sa_isset_all (ss_peer (cl_sess c)) = true ->
  ss_us (cl_sess c) = Some u -> 0 <= ss_video_seq (cl_sess c) < 65536 ->
  let x := cl_sess c in
  let '(_, c', s') := video_send_timer c s in
  let '(err, f, cam', s1) := camera_get_frame (w_cam (cl_world c)) s in
  let ps := if err =? 0 then frame_packets (ss_video_seq x) (ss_video_ts x) (ss_video_ssrc x) (fr_nalus f)
            else [] in
  out s' = out s1 ++ map (UdpSend u (ss_peer x)) ps
  /\ ss_video_seq (cl_sess c') = u16 (ss_video_seq x + zlen ps)
  /\ ss_video_ts (cl_sess c') = (if err =? 0 then u32 (ss_video_ts x + 6000) else ss_video_ts x)
  /\ ss_frame_count (cl_sess c') = (if err =? 0 then u32 (ss_frame_count x + 1) else ss_frame_count x)
  /\ ss_tmr_video (cl_sess c') = Some VIDEO_PTIME /\ w_cam (cl_world c') = cam'.
Proof.
  intros Ha Hact Hpeer Hu Hseq x.
  enough (wp video_send_timer (fun _ c' s' =>
    let '(err, f, cam', s1) := camera_get_frame (w_cam (cl_world c)) s in
    let ps := if err =? 0 then frame_packets (ss_video_seq x) (ss_video_ts x) (ss_video_ssrc x) (fr_nalus f)
              else [] in
    out s' = out s1 ++ map (UdpSend u (ss_peer x)) ps
    /\ ss_video_seq (cl_sess c') = u16 (ss_video_seq x + zlen ps)
    /\ ss_video_ts (cl_sess c') = (if err =? 0 then u32 (ss_video_ts x + 6000) else ss_video_ts x)
    /\ ss_frame_count (cl_sess c') = (if err =? 0 then u32 (ss_frame_count x + 1) else ss_frame_count x)
    /\ ss_tmr_video (cl_sess c') = Some VIDEO_PTIME /\ w_cam (cl_world c') = cam') c s) as Hwp
    by (unfold wp in Hwp; by destruct (video_send_timer c s) as [[??]?]).
  unfold video_send_timer. apply wp_bind, wp_modify, wp_bind, wp_get. cbn [cl_sess ss_active ss_peer set_tmrs].
  fold x in Hact, Hpeer |- *. rewrite Hact, Hpeer. cbn [negb].
  apply wp_bind, wp_zoom, wp_zoom. cbn [cl_world].
  pose proof (camera_get_frame_bytes (w_cam (cl_world c)) s) as Hb. unfold wp in Hb. unfold wp at 1.
  destruct (camera_get_frame (w_cam (cl_world c)) s) as [[[err f] cam'] s1].
  destruct (err =? 0) eqn:E; cbn [negb].
  2: { apply wp_modify. cbn. by rewrite Z.add_0_r, u16_small, app_nil_r. }
  apply wp_bind. eapply wp_mono; [by apply (send_frame_spec _ _ s1 u)|].
  intros _ c2 s2 [-> Ho]. apply wp_bind, wp_modify, wp_modify. cbn in *. done.
Qed.

Definition demo_session : session :=
  Session (Some 3%nat) (SA (AF_INET 0x7f000001) 5006) 5004 (Some AUDIO_PTIME) (Some VIDEO_PTIME)
    9 100 65535 0 8 0 0 true.

Lemma session_video_tick_witness :
  ss_video_seq (cl_sess (snd (fst (@video_send_timer video_env (Call demo_two demo_session 0) (Sys 0 []))))) = 0.
Proof.
  assert (EncoderBytes video_env) as He.
  { intros yuv n. repeat constructor; unfold is_byte; lia. }
  assert (AllocOk video_env) as Ha by (intros n; discriminate).
  pose proof (@session_video_tick video_env He (Call demo_two demo_session 0) (Sys 0 []) 3 Ha
    eq_refl eq_refl eq_refl ltac:(cbn; lia)) as H.
  cbv zeta in H. destruct (@video_send_timer video_env _ _) as [[a c'] s'].
  set (r := @camera_get_frame video_env _ _) in H. vm_compute in r. subst r. cbv iota beta in H.
  destruct H as (_ & Hseq & _). exact Hseq.
Defined.

(** What is not an audio packet is ignored. *)
Lemma udp_recv_ignores (sess : session) (mb : mbuf) (w : world) (s : sys) :
  udp_recv_handler sess mb w s = (tt, w, s)
  \/ ((12 <= mbuf_get_left mb)%nat
      /\ exists h mb', rtp_hdr_decode mb = (0, h, mb') /\ h_ver h = 2 /\ h_pt h = PT_PCMU).
Proof.
  unfold udp_recv_handler. destruct (ss_active sess); cbn [negb]; [|by left].
  destruct (mbuf_get_left mb <? 12)%nat eqn:El; bool_hyps; [by left|].
  destruct (rtp_hdr_decode mb) as [[err h] mb'] eqn:Ed.
  destruct (err =? 0) eqn:Ee; bool_hyps; cbn [negb]; [|by left].
  destruct (h_ver h =? 2) eqn:Ev; bool_hyps; cbn [negb]; [|by left].
  destruct (h_pt h =? PT_PCMU) eqn:Ep; bool_hyps; [|by left].
  right. split; [done|]. subst err. by exists h, mb'.
Qed.

(** What a call plays: the payload of an RTP packet of the audio type, built
    as the senders build it, reaches the speaker unchanged and whole; a datagram
    that is too short, malformed, of another version or of another payload type
    changes nothing. *)
Theorem udp_recv_plays (sess : session) (m : bool) (pt seq ts ssrc : Z) (payload : bytes) (mb : mbuf)
    (w : world) (s : sys) :
  ss_active sess = true -> 0 <= pt < 128 -> 0 <= seq < 65536 -> 0 <= ts < 4294967296 ->
  0 <= ssrc < 4294967296 -> payload <> [] -> mbuf_wf mb ->
  mbuf_buf mb = rtp_hdr_bytes (media_hdr m pt seq ts ssrc) ++ payload ->
  udp_recv_handler sess mb w s
  = (if pt =? PT_PCMU then on_aout (fun d => d' ← audio_out_play d payload; mret (tt, d')) w s else (tt, w, s))
  /\ forall mb2, udp_recv_handler sess mb2 w s = (tt, w, s)
       \/ ((12 <= mbuf_get_left mb2)%nat
           /\ exists h mb3, rtp_hdr_decode mb2 = (0, h, mb3) /\ h_ver h = 2 /\ h_pt h = PT_PCMU).
Proof.
  intros Hact Hpt Hseq Hts Hss Hne Hwf Hb. split; [|intros mb2; by apply udp_recv_ignores].
  unfold udp_recv_handler. rewrite Hact. cbn [negb].
  destruct (mbuf_get_left mb <? 12)%nat eqn:E; bool_hyps.
  { rewrite <- (mbuf_buf_length _ Hwf), Hb, length_app in E.
    change (length (rtp_hdr_bytes (media_hdr m pt seq ts ssrc))) with 12%nat in E. lia. }
  destruct (rtp_hdr_decode_bytes (media_hdr m pt seq ts ssrc) mb payload) as (mb' & -> & Hp & _); [|done|done|].
  { unfold rtp_hdr_wf. cbn. repeat split; try lia; try (by right). constructor. }
  cbn [Z.eqb negb h_ver media_hdr h_pt]. change (2 =? 2) with true. cbn [negb].
  destruct (pt =? PT_PCMU); [|done]. rewrite Hp. by destruct payload.
Qed.

Lemma udp_recv_plays_witness :
  let pkt := rtp_hdr_bytes (media_hdr true 0 1 160 7) ++ [255; 127] in
  udp_recv_handler demo_session (Mbuf pkt 0 (length pkt)) demo_two (Sys 0 [])
  = on_aout (fun d => d' ← audio_out_play d [255; 127]; mret (tt, d')) demo_two (Sys 0 []).
Proof.
  cbv zeta. set (mb := Mbuf _ _ _).
  eapply proj1. apply (udp_recv_plays demo_session true 0 1 160 7 [255; 127] mb demo_two (Sys 0 [])); try lia; try done.
  unfold mbuf_wf, mb_size. cbn. lia.
Defined.

(** Giving up a session that has no socket closes the camera and the speaker. *)
Lemma give_up_wp err (w : world) s :
  err <> 0 ->
  wp (session_destructor None ;; mret (err, None : option session)) (fun '(e, o) w' _ =>
    o = None /\ e <> 0 /\ cam_opened (w_cam w') = false /\ ao_opened (w_aout w') = false
    /\ w_rtsp w' = w_rtsp w) w s.
Proof.
  intros He. unfold session_destructor. apply wp_bind, wp_bind.
  eapply (wp_mono _ (fun _ x _ => cam_opened (w_cam x) = false /\ w_rtsp x = w_rtsp w)).
  { apply wp_zoom. unfold camera_close. wp_steps; bool_hyps; done. }
  intros _ x s1 [Hc Hr]. apply wp_bind.
  eapply (wp_mono _ (fun _ y _ => cam_opened (w_cam y) = false /\ ao_opened (w_aout y) = false /\ w_rtsp y = w_rtsp w)).
  { unfold wp, on_aout, audio_out_close, mbind, IO_bind.
    destruct (ao_opened (w_aout x)) eqn:E; cbn; rewrite ?E; done. }
  intros _ y s2 (Hc2 & Ha & Hr2). by do 2 apply wp_ret.
Qed.

Lemma camera_open_fresh `{V : Env} w h f b c s :
  wp (camera_open w h f b) (fun r c' _ => r = 0 -> cam_opened c = false /\ cam_opened c' = true) c s.
Proof. unfold camera_open. wp_steps; unfold EALREADY, EINVAL, ENOMEM; done. Qed.

(** Starting a call: with error 0 the camera is open, the call is active,
    its two timers run and its socket is its own; with any other result no
    session exists, and the camera and the speaker are closed (unless not even
    the session's memory was available). *)
Theorem session_alloc_outcome `{V : Env} (peer : sa) (w : world) (s : sys) :
  let '(err, o, w', s') := session_alloc peer w s in
  match o with
  | Some x => err = 0 /\ ss_active x = true /\ ss_us x <> None /\ ss_peer x = peer
      /\ ss_tmr_audio x = Some AUDIO_PTIME /\ ss_tmr_video x = Some VIDEO_PTIME
      /\ 0 <= ss_port x < 65536 /\ 0 <= ss_ssrc x < 4294967296
      /\ cam_opened (w_cam w) = false /\ cam_opened (w_cam w') = true
  | None => err <> 0 /\ (w' = w \/ (cam_opened (w_cam w') = false /\ ao_opened (w_aout w') = false))
  end /\ w_rtsp w' = w_rtsp w.
Proof.
  set (Q := fun (r : Z * option session) (w' : world) => match snd r with
    | Some x => fst r = 0 /\ ss_active x = true /\ ss_us x <> None /\ ss_peer x = peer
        /\ ss_tmr_audio x = Some AUDIO_PTIME /\ ss_tmr_video x = Some VIDEO_PTIME
        /\ 0 <= ss_port x < 65536 /\ 0 <= ss_ssrc x < 4294967296
        /\ cam_opened (w_cam w) = false /\ cam_opened (w_cam w') = true
    | None => fst r <> 0 /\ (w' = w \/ (cam_opened (w_cam w') = false /\ ao_opened (w_aout w') = false))
    end /\ w_rtsp w' = w_rtsp w).
  enough (wp (session_alloc peer) (fun r w' _ => Q r w') w s) as Hwp
    by (unfold wp in Hwp; by destruct (session_alloc peer w s) as [[[??]?]?]).
  assert (forall err w1 s1, err <> 0 -> w_rtsp w1 = w_rtsp w ->
    wp (session_destructor None ;; mret (err, None : option session)) (fun r w' _ => Q r w') w1 s1) as Hd.
  { intros err w1 s1 He Hr. eapply wp_mono; [by apply give_up_wp|].
    intros [e o] w' s' (-> & He' & Hc & Ha & Hr'). split; [|congruence]. split; [done|by right]. }
  unfold session_alloc. apply wp_bind, wp_lift, iwp_ask.
  destruct (_ =? 0); [apply wp_ret; split; [split; [done|by left]|done]|].
  apply wp_bind, wp_lift, iwp_ask, wp_bind, wp_lift, iwp_ask, wp_bind. unfold on_cam at 1. apply wp_zoom.
  eapply wp_mono; [apply camera_open_fresh|]. intros err cam s1 Hopen.
  destruct (err =? 0) eqn:E; bool_hyps; cbn [negb]; [|by apply Hd].
  destruct (Hopen E) as [Hc0 Hc1]. apply wp_bind.
  eapply (wp_mono _ (fun _ x _ => w_cam x = cam /\ w_rtsp x = w_rtsp w)).
  { unfold wp, on_aout. by destruct (audio_out_open _ _ _ _ _) as [[??]?]. }
  intros _ x s2 [Hx Hr]. apply wp_bind, wp_lift, iwp_ask.
  destruct (_ =? 0) eqn:E2; bool_hyps; cbn [negb]; [|by apply Hd].
  apply wp_bind, wp_lift, iwp_fresh, wp_bind, wp_lift, iwp_ask, wp_ret. split; [|done]. cbn.
  rewrite Hx. repeat split; try done; apply u16_range || apply u32_range.
Qed.

(** ** Observed divergence *)

(** A call that cannot have the camera because the RTSP server is using it
    closes the camera: the RTSP server goes on believing it is open, and its
    picture timer finds none. *)
Lemma session_steals_camera :
  let '(err, o, w', _) := @session_alloc good_env (SA (AF_INET 0x7f000001) 5006) demo_two (Sys 0 []) in
  err = EALREADY /\ o = None /\ cam_opened (w_cam w') = false /\ g_camera_opened (w_rtsp w') = true
  /\ has_playing_clients w' = true.
Proof. by vm_compute. Qed.
