(* ===== verification/StunClient.v ===== *)
(** * Discovery of the public address ([stun_client.c])

    One STUN binding request and what becomes of its answer.  The STUN
    transaction itself (libre's [stun_request]) belongs to the environment: it
    ends with an error, an error code of the server, or a message with or
    without the two address attributes.  The result callback is a parameter. *)
From S2P Require Import Prelude Sys Fmt.

(** [g_stun]; [sn_ct] and [sn_stun] tell whether the transaction and the
    instance exist. *)
Record stun := Stun {
  sn_stun : bool;
  sn_ct : bool;
  sn_us : option nat;
  sn_public_addr : bytes;
  sn_discovered : bool;
  sn_has_cb : bool
}.
Definition stun_zero : stun := Stun false false None [] false false.

(** The attributes of a response. *)
Record stun_msg := StunMsg { xor_mapped : option sa; mapped : option sa }.

Section Stun.
Context `{V : Env} {W : Type}.
(** [NULL] is [None]. *)
Variable result_cb : option bytes -> M W unit.

Definition on_stun (f : stun -> stun) : M (stun * W) unit := modify (fun x => (f (fst x), snd x)).
Definition stun_get : M (stun * W) stun := x ← get; mret (fst x).
Definition notify (addr : option bytes) : M (stun * W) unit :=
  g ← stun_get;
  if sn_has_cb g then zoom snd (fun w x => (fst x, w)) (result_cb addr) else mret tt.

Definition stun_resp_handler (err scode : Z) (msg : stun_msg) : M (stun * W) unit :=
  on_stun (fun g => Stun (sn_stun g) false (sn_us g) (sn_public_addr g) (sn_discovered g) (sn_has_cb g)) ;;
  if negb (err =? 0) then notify None
  else if negb (scode =? 0) then notify None
  else
    match (match xor_mapped msg with Some a => Some a | None => mapped msg end) with
    | Some a =>
        on_stun (fun g => Stun (sn_stun g) (sn_ct g) (sn_us g) (snprintf_str 64 "%J" [ASa a]) true (sn_has_cb g)) ;;
        g ← stun_get;
        notify (Some (sn_public_addr g))
    | None => notify None
    end.

(** The address is numeric, or the resolver finds it, or it cannot be found. *)
Definition stun_resolve (port : Z) : IO (option sa) :=
  e ← ask QResolve;
  e ← (if negb (e =? 0) then ask QResolve else mret 0);
  if negb (e =? 0) then mret None
  else a ← ask QResolve; mret (Some (SA (AF_INET (u32 a)) port)).

Definition stun_discover (stun_port : Z) (has_cb : bool) : M (stun * W) Z :=
  let stun_port := if stun_port =? 0 then 19302 else stun_port in
  on_stun (fun g => Stun (sn_stun g) (sn_ct g) (sn_us g) [] false has_cb) ;;
  so ← lift (stun_resolve stun_port);
  match so with
  | None => mret ENOENT
  | Some srv =>
      err ← lift (ask QListen);
      if negb (err =? 0) then mret err
      else
        u ← lift fresh;
        on_stun (fun g => Stun (sn_stun g) (sn_ct g) (Some u) (sn_public_addr g) (sn_discovered g) (sn_has_cb g)) ;;
        err ← lift (ask QStun);
        if negb (err =? 0) then
          lift (emit (UdpClose u)) ;;
          on_stun (fun g => Stun (sn_stun g) (sn_ct g) None (sn_public_addr g) (sn_discovered g) (sn_has_cb g)) ;;
          mret err
        else
          on_stun (fun g => Stun true (sn_ct g) (sn_us g) (sn_public_addr g) (sn_discovered g) (sn_has_cb g)) ;;
          lift (emit (StunRequest srv)) ;;
          err ← lift (ask QStun);
          if negb (err =? 0) then
            lift (emit (UdpClose u)) ;; lift (emit StunFree) ;;
            on_stun (fun g => Stun false (sn_ct g) None (sn_public_addr g) (sn_discovered g) (sn_has_cb g)) ;;
            mret err
          else
            on_stun (fun g => Stun (sn_stun g) true (sn_us g) (sn_public_addr g) (sn_discovered g) (sn_has_cb g)) ;;
            mret 0
  end.

Definition stun_close : M (stun * W) unit :=
  g ← stun_get;
  (match sn_us g with Some u => lift (emit (UdpClose u)) | None => mret tt end) ;;
  (if sn_stun g then lift (emit StunFree) else mret tt) ;;
  on_stun (fun g => Stun false false None (sn_public_addr g) false (sn_has_cb g)).
End Stun.

Definition stun_get_public_addr (g : stun) : option bytes :=
  if negb (sn_discovered g) then None else Some (sn_public_addr g).

(** ** Lemmas *)
Lemma port_digits port : 0 <= port < 65536 -> (length (local_itoa port 10 false) <= 5)%nat.
Proof.
  intros Hp. apply Nat.leb_le.
  apply (all_from_spec 16 0 (fun p => (length (local_itoa p 10 false) <=? 5)%nat)); [by vm_compute|exact Hp].
Qed.

Lemma snprintf_addr `{Env} ip port text :
  env_ntop (AF_INET ip) = Some text -> 0 <= port < 65536 -> (length text <= 50)%nat ->
  snprintf_str 64 "%J" [ASa (SA (AF_INET ip) port)] = text ++ [58] ++ local_itoa port 10 false.
Proof.
  intros Hn Hp Hl. pose proof (port_digits port Hp) as Hd.
  assert (pieces "%J" [ASa (SA (AF_INET ip) port)]
    = (flush_lit text ++ [58] :: flush_lit (local_itoa port 10 false), true)) as Hps.
  { transitivity (conv_sa true (SA (AF_INET ip) port) 0 32 false ++ [], true); [reflexivity|].
    unfold conv_sa. cbn [sa_ip sa_port andb]. rewrite Hn. cbn [app]. unfold conv_num.
    by rewrite !write_padded_pieces, app_nil_r. }
  assert (concat (flush_lit text ++ [58] :: flush_lit (local_itoa port 10 false))
    = text ++ [58] ++ local_itoa port 10 false) as Hc.
  { rewrite concat_app. cbn [concat]. by rewrite !concat_flush_lit. }
  erewrite snprintf_str_fits; [exact Hc|exact Hps|]. rewrite Hc. len_lia.
Qed.

(** ** Theorems *)

(** The answer to the binding request: on success the public address is the
    XOR-mapped one (or, failing that, the mapped one) printed as address, colon
    and port, it is what [stun_get_public_addr] returns from then on, and the
    callback is called once with it; on any failure the callback is called once
    with NULL and the known address does not change.  [text] is what
    [inet_ntop] prints for the address. *)
Theorem stun_resp_address `{V : Env} {W : Type} (cb : option bytes -> M W unit) (err scode : Z)
    (msg : stun_msg) (ip port : Z) (text : bytes) (g : stun) (w : W) (s : sys) :
  sn_has_cb g = true ->
  env_ntop (AF_INET ip) = Some text -> (length text <= 50)%nat -> 0 <= port < 65536 ->
  (xor_mapped msg = Some (SA (AF_INET ip) port)
   \/ (xor_mapped msg = None /\ mapped msg = Some (SA (AF_INET ip) port))) ->
  let '(_, (g', w'), s') := stun_resp_handler cb err scode msg (g, w) s in
  let addr := text ++ [58] ++ local_itoa port 10 false in
  let result := if (err =? 0) && (scode =? 0) then Some addr else None in
  (tt, w', s') = cb result w s
  /\ stun_get_public_addr g' = (if (err =? 0) && (scode =? 0) then Some addr else stun_get_public_addr g)
  /\ sn_ct g' = false /\ sn_us g' = sn_us g.
Proof.
  intros Hcb Hn Hl Hp Hm. pose proof (snprintf_addr ip port text Hn Hp Hl) as Hpr.
  assert (forall r g0, sn_has_cb g0 = true ->
    notify cb r (g0, w) s = (tt, (g0, snd (fst (cb r w s))), snd (cb r w s))) as Hnot.
  { intros r g0 H0. change (notify cb r (g0, w) s) with
      ((if sn_has_cb g0 then zoom snd (fun w x => (fst x, w)) (cb r) else mret tt) (g0, w) s).
    rewrite H0. unfold zoom. cbn. by destruct (cb r w s) as [[[] w'] s']. }
  assert (forall r, (tt, snd (fst (cb r w s)), snd (cb r w s)) = cb r w s) as Heta
    by (intros r; by destruct (cb r w s) as [[[] w'] s']).
  unfold stun_resp_handler, mbind, M_bind, on_stun, modify. cbn [fst snd].
  destruct (err =? 0); cbn [negb andb]; [|rewrite Hnot by done; by rewrite Heta].
  destruct (scode =? 0); cbn [negb]; [|rewrite Hnot by done; by rewrite Heta].
  destruct Hm as [-> |[-> ->]];
    (unfold stun_get, get, mbind, M_bind, mret, M_ret; cbn [fst snd sn_public_addr];
     rewrite Hpr, Hnot by done; by rewrite Heta).
Qed.

Lemma stun_resp_address_witness :
  stun_get_public_addr (fst (snd (fst (@stun_resp_handler good_env (list (option bytes))
    (fun r => modify (fun l => r :: l)) 0 0 (StunMsg (Some (SA (AF_INET 0x7f000001) 8555)) None)
    (Stun true true (Some 4%nat) [] false true, []) (Sys 0 [])))))
  = Some (cstr "127.0.0.1:8555").
Proof.
  pose proof (@stun_resp_address good_env (list (option bytes)) (fun r => modify (fun l => r :: l)) 0 0
    (StunMsg (Some (SA (AF_INET 0x7f000001) 8555)) None) 0x7f000001 8555 (cstr "127.0.0.1")
    (Stun true true (Some 4%nat) [] false true) [] (Sys 0 []) eq_refl eq_refl ltac:(cbn; lia) ltac:(lia)
    (or_introl eq_refl)) as H.
  destruct (stun_resp_handler _ _ _ _ _ _) as [[a [g' w']] s']. destruct H as (_ & H & _).
  cbn [fst snd]. rewrite H. vm_compute. reflexivity.
Defined.

(** A discovery that cannot start leaves nothing behind: from a closed
    state, an error means that no socket, instance or transaction is kept, and
    success means that all three are; no address is known yet in either case. *)
Theorem stun_discover_outcome `{V : Env} {W : Type} (port : Z) (has_cb : bool) (g : stun) (w : W) (s : sys) :
  sn_us g = None -> sn_stun g = false -> sn_ct g = false ->
  let '(err, (g', w'), s') := stun_discover port has_cb (g, w) s in
  stun_get_public_addr g' = None /\ w' = w
  /\ (if err =? 0 then sn_us g' <> None /\ sn_stun g' = true /\ sn_ct g' = true
      else sn_us g' = None /\ sn_stun g' = false /\ sn_ct g' = false).
Proof.
  intros Hu Hs Hc.
  enough (wp (stun_discover port has_cb) (fun err x _ =>
    stun_get_public_addr (fst x) = None /\ snd x = w
    /\ (if err =? 0 then sn_us (fst x) <> None /\ sn_stun (fst x) = true /\ sn_ct (fst x) = true
        else sn_us (fst x) = None /\ sn_stun (fst x) = false /\ sn_ct (fst x) = false)) (g, w) s) as Hwp
    by (unfold wp in Hwp; by destruct (stun_discover port has_cb (g, w) s) as [[? [??]] ?]).
  unfold stun_discover, on_stun. apply wp_bind, wp_modify, wp_bind, wp_lift. unfold iwp.
  destruct (stun_resolve _ s) as [[srv|] s1]; [|by apply wp_ret].
  wp_steps; cbn [tick out] in *;
    try match goal with H : negb (?e =? 0) = true |- _ => apply negb_true_iff in H; rewrite H end; cbn; done.
Qed.

Lemma stun_discover_outcome_witness :
  let '(err, (g', _), _) := @stun_discover good_env unit 0 false (stun_zero, tt) (Sys 0 []) in
  err = 0 /\ sn_us g' <> None.
Proof.
  pose proof (@stun_discover_outcome good_env unit 0 false stun_zero tt (Sys 0 []) eq_refl eq_refl eq_refl) as H.
  destruct (stun_discover _ _ _ _) as [[err [g' w']] s'] eqn:E.
  assert (err = 0) as -> by (vm_compute in E; congruence). destruct H as (_ & _ & H & _). split; [reflexivity|exact H].
Defined.
