(* ===== verification/StunTrans.v ===== *)
(** * STUN client transactions ([src/re-4.6.0/src/stun/]: [ctrans.c], [req.c],
    [rep.c], [ind.c], [stun.c])

    A request is kept as a transaction until an answer with its method and
    transaction id arrives, until it has been sent often enough without one, or
    until the instance is closed; then the response handler is called, once.

    The state is the list of transactions of an instance next to the state [W]
    of the caller.  Parameters: the response handler [resph] and the write to
    the caller's pointer to the transaction [set_ctp], both on [W], and
    HMAC-SHA1.  A timer is the delay it was last started with.  DTLS is left out. *)
From S2P Require Import Prelude Sys Mbuf StunCodec StunProofs StunClient.
Local Open Scope Z_scope.

(** [struct stun_conf] *)
Record stun_conf := Conf { c_rto : Z; c_rc : Z; c_rm : Z; c_ti : Z }.
Definition conf_default : stun_conf := Conf 500 7 16 39500.

Inductive transport := IPPROTO_UDP | IPPROTO_TCP.

(** [struct stun_ctrans]; [ct_id] names the object. *)
Record ctrans := Ctrans {
  ct_id : nat;
  ct_tmr : option Z;
  ct_dst : sa;
  ct_tid : bytes;
  ct_ctp : bool;
  ct_key : option bytes;
  ct_sock : option nat;
  ct_own : bool;    (* the socket was opened for this transaction *)
  ct_mb : mbuf;
  ct_resph : bool;
  ct_proto : transport;
  ct_txc : Z;
  ct_ival : Z;
  ct_met : Z
}.
Definition ct_set (c : ctrans) (txc ival : Z) (tmr : option Z) : ctrans :=
  Ctrans (ct_id c) tmr (ct_dst c) (ct_tid c) (ct_ctp c) (ct_key c) (ct_sock c) (ct_own c) (ct_mb c)
    (ct_resph c) (ct_proto c) txc ival (ct_met c).

Definition find_ct (id : nat) (l : list ctrans) : option ctrans :=
  List.find (fun c => ct_id c =? id)%nat l.
Definition remove_ct (id : nat) (l : list ctrans) : list ctrans :=
  List.filter (fun c => negb (ct_id c =? id)%nat) l.
Definition update_ct (c : ctrans) (l : list ctrans) : list ctrans :=
  map (fun c' => if (ct_id c' =? ct_id c)%nat then c else c') l.

Section transactions.
Context `{V : Env} {W : Type}.
Context (hmac_sha1 : bytes -> bytes -> bytes).
Variable resph : Z -> Z -> bytes -> option stun_message -> M W unit.
Variable set_ctp : bool -> M W unit.

Abbreviation T := (M (list ctrans * W)).
Definition on_ctl (f : list ctrans -> list ctrans) : T unit := modify (fun x => (f (fst x), snd x)).
Definition get_ctl : T (list ctrans) := x ← get; mret (fst x).
Definition caller {A} (m : M W A) : T A := zoom snd (fun w x => (fst x, w)) m.

(** Dropping the reference to a socket closes it if there is no other. *)
Definition close_sock (proto : transport) (own : bool) (sock : option nat) : IO unit :=
  match own, sock with
  | true, Some u => emit (match proto with IPPROTO_UDP => UdpClose u | IPPROTO_TCP => TcpClose u end)
  | _, _ => mret tt
  end.

Definition completed (c : ctrans) (err scode : Z) (reason : bytes) (msg : option stun_message) : T unit :=
  on_ctl (remove_ct (ct_id c)) ;;
  (if ct_ctp c then caller (set_ctp false) else mret tt) ;;
  lift (close_sock (ct_proto c) (ct_own c) (ct_sock c)) ;;
  (if ct_resph c then caller (resph err scode reason msg) else mret tt).

(** [udp_send] and [tcp_send] take what is between position and end. *)
Definition stun_send (proto : transport) (sock : option nat) (dst : sa) (mb : mbuf) : IO Z :=
  match sock with
  | None => mret EINVAL
  | Some u =>
      match proto with
      | IPPROTO_UDP => emit (UdpSend u dst (mbuf_buf mb)) ;; ask QUdpSend
      | IPPROTO_TCP => emit (TcpSend u (mbuf_buf mb)) ;; ask QTcpSend
      end
  end.

Definition timeout_handler (cfg : stun_conf) (id : nat) : T unit :=
  l ← get_ctl;
  match find_ct id l with
  | None => mret tt
  | Some c =>
      let txc := u32 (ct_txc c + 1) in
      if ct_txc c >=? c_rc cfg then completed (ct_set c txc (ct_ival c) None) ETIMEDOUT 0 [] None
      else
        err ← lift (stun_send (ct_proto c) (ct_sock c) (ct_dst c) (ct_mb c));
        if negb (err =? 0) then completed (ct_set c txc (ct_ival c) None) err 0 [] None
        else
          let ival := if txc >=? c_rc cfg then u32 (c_rto cfg * c_rm cfg) else u32 (ct_ival c * 2) in
          on_ctl (update_ct (ct_set c txc ival (Some ival)))
  end.

Definition match_handler (m : stun_message) (c : ctrans) : bool :=
  (ct_met c =? stun_msg_method m) && bytes_eqb (ct_tid c) (h_tid (m_hdr m)).

(** [memcmp(ct->tid, stun_msg_tid(msg), 12)] compares both arrays whole. *)
Definition stun_ctrans_recv (m : stun_message) (ua : list Z) : T Z :=
  let class := stun_msg_class m in
  if (class =? 2) || (class =? 3) then
    let '(herr, code, reason) :=
      if class =? 3 then
        match stun_msg_attr m STUN_ATTR_ERR_CODE with
        | Some (VErr code reason) => (0, code, reason)
        | _ => (EPROTO, 0, cstr "OK")
        end
      else (0, 0, cstr "OK") in
    l ← get_ctl;
    match List.find (match_handler m) l with
    | None => mret ENOENT
    | Some c =>
        let err :=
          if (code =? 401) || (code =? 438) then 0
          else match ct_key c with
               | Some key => stun_msg_chk_mi hmac_sha1 m key
               | None => 0
               end in
        if negb (err =? 0) then mret err
        else
          let herr := if (herr =? 0) && (0 <? length ua)%nat then EPROTO else herr in
          completed c herr code reason (Some m) ;; mret 0
    end
  else mret 0.

(** [stun_recv]; an indication is for the indication handler, which the
    program does not set. *)
Definition stun_recv (mb : mbuf) : T Z :=
  r ← lift (stun_msg_decode mb);
  match r with
  | inl e => mret e
  | inr (m, ua) =>
      let class := stun_msg_class m in
      if (class =? 2) || (class =? 3) then stun_ctrans_recv m ua else mret 0
  end.

Definition stun_ctrans_request (cfg : stun_conf) (has_ctp : bool) (proto : transport) (sock0 : option nat)
    (dst : option sa) (mb : mbuf) (tid : bytes) (met : Z) (key : option bytes) (has_resph : bool) : T Z :=
  ok ← lift (ask QAlloc);
  if ok =? 0 then mret ENOMEM
  else
    id ← lift fresh;
    ok ← (match key with Some _ => lift (ask QAlloc) | None => mret 1 end);
    if ok =? 0 then mret ENOMEM
    else
      (* the error, the socket, and the fields that differ by transport *)
      '(err, sock, dst, txc, ival, tmr) ←
        match proto with
        | IPPROTO_UDP =>
            match dst with
            | None => mret (EINVAL, sock0, sa_zero, 0, 0, None)
            | Some dst =>
                '(err, sock) ←
                  match sock0 with
                  | Some _ => mret (0, sock0)
                  | None => err ← lift (ask QListen); u ← lift fresh;
                            mret (err, if err =? 0 then Some u else None)
                  end;
                if negb (err =? 0) then mret (err, sock, dst, 0, c_rto cfg, Some (c_rto cfg))
                else
                  err ← lift (stun_send IPPROTO_UDP sock dst mb);
                  mret (err, sock, dst, 1, c_rto cfg, Some (c_rto cfg))
            end
        | IPPROTO_TCP =>
            '(err, sock) ←
              match sock0 with
              | Some _ => err ← lift (stun_send IPPROTO_TCP sock0 sa_zero mb); mret (err, sock0)
              | None => lift (emit (TcpConnect (default sa_zero dst))) ;;
                        err ← lift (ask QConnect); u ← lift fresh;
                        mret (err, if err =? 0 then Some u else None)
              end;
            mret (err, sock, sa_zero, c_rc cfg, 0, Some (c_ti cfg))
        end;
      let own := match sock0 with None => true | Some _ => false end in
      if negb (err =? 0) then lift (close_sock proto own sock) ;; mret err
      else
        on_ctl (fun l => l ++ [Ctrans id tmr dst tid has_ctp key sock own mb has_resph proto txc ival met]) ;;
        (if has_ctp then caller (set_ctp true) else mret tt) ;;
        mret 0.

(** [tcp_estab_handler], [tcp_close_handler] and [tcp_recv_handler] *)
Definition tcp_estab_handler (id : nat) : T unit :=
  l ← get_ctl;
  match find_ct id l with
  | None => mret tt
  | Some c =>
      err ← lift (stun_send IPPROTO_TCP (ct_sock c) sa_zero (ct_mb c));
      if err =? 0 then mret tt else completed c err 0 [] None
  end.
Definition tcp_close_handler (id : nat) (err : Z) : T unit :=
  l ← get_ctl;
  match find_ct id l with
  | None => mret tt
  | Some c => completed c err 0 [] None
  end.

(** Every transaction in turn; the next one is fetched before the handler runs. *)
Definition stun_ctrans_close : T unit :=
  l ← get_ctl; forM l (fun c => completed c ECONNABORTED 0 [] None).

(** [rand_bytes] fills the array from its end. *)
Fixpoint rand_bytes (n : nat) : IO bytes :=
  match n with
  | O => mret []
  | S n => r ← ask QRand; l ← rand_bytes n; mret (l ++ [u8 r])
  end.
Definition stun_generate_tid : IO bytes := rand_bytes STUN_TID_SIZE.

Definition stun_request (cfg : stun_conf) (has_ctp : bool) (proto : transport) (sock : option nat)
    (dst : option sa) (presz : nat) (method : Z) (key : option bytes) (fp has_resph : bool)
    (attrs : list (Z * option stun_val)) : T Z :=
  mbo ← lift (mbuf_alloc 512);
  match mbo with
  | None => mret ENOMEM
  | Some mb =>
      tid ← lift stun_generate_tid;
      '(err, mb) ← lift (stun_msg_vencode hmac_sha1 (mbuf_set_pos mb presz) method 0 tid None key fp 0 attrs);
      if negb (err =? 0) then mret err
      else stun_ctrans_request cfg has_ctp proto sock dst (mbuf_set_pos mb presz) tid method key has_resph
  end.
End transactions.

(** *** Messages without a transaction: [stun_reply], [stun_ereply],
    [stun_indication] *)
Section replies.
Context `{V : Env} (hmac_sha1 : bytes -> bytes -> bytes).

Definition send_message (size : nat) (proto : transport) (sock : option nat) (dst : sa) (presz : nat)
    (method class : Z) (tid : IO bytes) (ec : option (Z * bytes)) (key : option bytes) (fp : bool)
    (attrs : list (Z * option stun_val)) : IO Z :=
  mbo ← mbuf_alloc size;
  match mbo with
  | None => mret ENOMEM
  | Some mb =>
      tid ← tid;
      '(err, mb) ← stun_msg_vencode hmac_sha1 (mbuf_set_pos mb presz) method class tid ec key fp 0 attrs;
      if negb (err =? 0) then mret err else stun_send proto sock dst (mbuf_set_pos mb presz)
  end.

Definition stun_reply (proto : transport) (sock : option nat) (dst : sa) (presz : nat)
    (req : stun_message) (key : option bytes) (fp : bool) (attrs : list (Z * option stun_val)) : IO Z :=
  match sock with
  | None => mret EINVAL
  | Some _ => send_message 256 proto sock dst presz (stun_msg_method req) 2 (mret (h_tid (m_hdr req))) None key fp attrs
  end.

Definition stun_ereply (proto : transport) (sock : option nat) (dst : sa) (presz : nat)
    (req : stun_message) (scode : Z) (reason : bytes) (key : option bytes) (fp : bool)
    (attrs : list (Z * option stun_val)) : IO Z :=
  match sock with
  | None => mret EINVAL
  | Some _ =>
      if scode =? 0 then mret EINVAL
      else send_message 256 proto sock dst presz (stun_msg_method req) 3 (mret (h_tid (m_hdr req)))
             (Some (scode, reason)) key fp attrs
  end.

Definition stun_indication (proto : transport) (sock : option nat) (dst : sa) (presz : nat)
    (method : Z) (key : option bytes) (fp : bool) (attrs : list (Z * option stun_val)) : IO Z :=
  match sock with
  | None => mret EINVAL
  | Some _ => send_message 2048 proto sock dst presz method 1 stun_generate_tid None key fp attrs
  end.
End replies.

(** ** Theorems *)

(** A caller that writes down the calls of its response handler. *)
Definition call : Type := Z * Z * option stun_message.
Definition log_resph (err scode : Z) (reason : bytes) (msg : option stun_message) : M (list call) unit :=
  modify (fun l => l ++ [(err, scode, msg)]).
Definition no_ctp (b : bool) : M (list call) unit := mret tt.

Lemma find_ct_id id l c : find_ct id l = Some c -> ct_id c = id.
Proof. intros H. apply List.find_some in H as [_ H]. by apply Nat.eqb_eq in H. Qed.
Lemma find_update id l c c' :
  find_ct id l = Some c -> ct_id c' = id -> find_ct id (update_ct c' l) = Some c'.
Proof.
  unfold find_ct, update_ct. intros H <-. induction l as [|x l IH]; cbn in *; [done|].
  destruct (ct_id x =? ct_id c')%nat eqn:E; cbn; [by rewrite Nat.eqb_refl|]. rewrite E. by apply IH.
Qed.
Lemma remove_update id l c' : ct_id c' = id -> remove_ct id (update_ct c' l) = remove_ct id l.
Proof.
  unfold remove_ct, update_ct. intros <-. induction l as [|x l IH]; cbn; [done|].
  destruct (ct_id x =? ct_id c')%nat eqn:E; cbn; rewrite ?Nat.eqb_refl, ?E; cbn; by rewrite IH.
Qed.
Lemma find_remove id l : find_ct id (remove_ct id l) = None.
Proof.
  unfold find_ct, remove_ct. induction l as [|x l IH]; cbn; [done|].
  destruct (ct_id x =? id)%nat eqn:E; cbn; [done|]. by rewrite E.
Qed.

(** The event of a transaction that closes its own socket. *)
Definition closes (c : ctrans) : list event :=
  match ct_own c, ct_sock c with
  | true, Some u => [match ct_proto c with IPPROTO_UDP => UdpClose u | IPPROTO_TCP => TcpClose u end]
  | _, _ => []
  end.

(** Completing: unlinked, its socket given up, and the handler called once. *)
Lemma completed_log `{V : Env} c e scode reason m l log s :
  completed log_resph no_ctp c e scode reason m (l, log) s
  = (tt, (remove_ct (ct_id c) l, if ct_resph c then log ++ [(e, scode, m)] else log),
     Sys (tick s) (out s ++ closes c)).
Proof.
  destruct s as [t o]. unfold completed, closes.
  destruct c as [i tm d tid [] k [u|] [] mb [] [] txc iv met]; cbn; by rewrite ?app_nil_r.
Qed.

(** *** Retransmission *)
Section retransmission.
Context `{V : Env} (cfg : stun_conf).
Abbreviation timeout := (timeout_handler log_resph no_ctp cfg).

(** Let the timer of the transaction expire [n] times; the delays waited for. *)
Fixpoint drive (n : nat) (id : nat) : M (list ctrans * list call) (list Z) :=
  match n with
  | O => mret []
  | S n =>
      l ← get_ctl;
      match find_ct id l with
      | None => mret []
      | Some c => timeout id ;; ds ← drive n id; mret (default 0 (ct_tmr c) :: ds)
      end
  end.

(** The delays of a transaction that has been sent [txc] times. *)
Fixpoint schedule (n : nat) (txc ival : Z) : list Z :=
  match n with
  | O => []
  | S n =>
      ival :: if txc >=? c_rc cfg then []
              else schedule n (txc + 1)
                     (if txc + 1 >=? c_rc cfg then u32 (c_rto cfg * c_rm cfg) else u32 (ival * 2))
  end.

(** A UDP transaction that waits for its timer. *)
Record waiting (c : ctrans) (u : nat) : Prop := {
  w_udp : ct_proto c = IPPROTO_UDP;
  w_sock : ct_sock c = Some u;
  w_resph : ct_resph c = true;
  w_tmr : ct_tmr c = Some (ct_ival c) }.

Lemma waiting_set c u txc ival : waiting c u -> waiting (ct_set c txc ival (Some ival)) u.
Proof. intros [? ? ? ?]. by split. Qed.

Definition resend (c : ctrans) (u : nat) : event := UdpSend u (ct_dst c) (mbuf_buf (ct_mb c)).

Lemma timeout_step id c u l log s :
  find_ct id l = Some c -> waiting c u ->
  let txc := u32 (ct_txc c + 1) in
  let ival := if txc >=? c_rc cfg then u32 (c_rto cfg * c_rm cfg) else u32 (ct_ival c * 2) in
  let e := env QUdpSend (tick s) in
  timeout id (l, log) s =
    if ct_txc c >=? c_rc cfg
    then (tt, (remove_ct id l, log ++ [(ETIMEDOUT, 0, None)]), Sys (tick s) (out s ++ closes c))
    else if e =? 0
    then (tt, (update_ct (ct_set c txc ival (Some ival)) l, log), Sys (S (tick s)) (out s ++ [resend c u]))
    else (tt, (remove_ct id l, log ++ [(e, 0, None)]), Sys (S (tick s)) (out s ++ resend c u :: closes c)).
Proof.
  intros Hf [Hp Hs Hr _] txc ival e. pose proof (find_ct_id _ _ _ Hf) as Hid.
  unfold timeout_handler, get_ctl, get, mbind, M_bind, mret, M_ret, lift, stun_send. cbn [fst].
  rewrite Hf. destruct (ct_txc c >=? c_rc cfg).
  { rewrite completed_log. cbn [ct_set ct_id ct_resph]. by rewrite Hr, Hid. }
  rewrite Hs, Hp. unfold mbind, IO_bind, emit, ask. cbn [tick out]. fold e txc ival.
  destruct (e =? 0); cbn [negb]; [done|].
  rewrite completed_log. cbn [ct_set ct_id ct_resph tick out]. rewrite Hr, Hid, <- app_assoc. done.
Qed.

(** C34. A request that is never answered ends: whatever its sends return, after at
    most [rc] expiries the transaction is gone, its handler has been called
    exactly once, with an error, and the same datagram was sent again at most
    [rc - txc] times.  If the sends succeed it is sent exactly that often, at the
    delays of [schedule], and the error is ETIMEDOUT. *)
Theorem stun_gives_up n : forall (id u : nat) (c : ctrans) (l : list ctrans) (log : list call) (s : sys),
  find_ct id l = Some c -> waiting c u ->
  0 <= ct_txc c <= c_rc cfg -> c_rc cfg < 4294967296 -> c_rc cfg - ct_txc c < Z.of_nat n ->
  let '(ds, (l', log'), s') := drive n id (l, log) s in
  l' = remove_ct id l /\
  exists e k, log' = log ++ [(e, 0, None)] /\ e <> 0 /\
    out s' = out s ++ replicate k (resend c u) ++ closes c /\ Z.of_nat k <= c_rc cfg - ct_txc c /\
    ((forall t, env QUdpSend t = 0) ->
       e = ETIMEDOUT /\ Z.of_nat k = c_rc cfg - ct_txc c /\ ds = schedule n (ct_txc c) (ct_ival c)).
Proof.
  induction n as [|n IH]; intros id u c l log s Hf Hw Ht Hrc Hn; [lia|].
  pose proof (find_ct_id _ _ _ Hf) as Hid. cbn [drive schedule].
  unfold get_ctl, get, mbind, M_bind, mret, M_ret. cbn [fst]. rewrite Hf.
  rewrite (timeout_step _ _ _ _ _ _ Hf Hw), (w_tmr _ _ Hw). cbn [default]. cbn zeta.
  assert (forall lg s, drive n id (remove_ct id l, lg) s = ([], (remove_ct id l, lg), s)) as Hgone.
  { intros. destruct n; [done|]. cbn [drive]. unfold get_ctl, get, mbind, M_bind, mret, M_ret.
    cbn [fst]. by rewrite find_remove. }
  destruct (Z.geb_spec (ct_txc c) (c_rc cfg)) as [G|G].
  { rewrite Hgone. split; [done|]. exists ETIMEDOUT, 0%nat. cbn [replicate app out].
    repeat split; (done || lia). }
  destruct (env QUdpSend (tick s) =? 0) eqn:E.
  - rewrite (u32_small (ct_txc c + 1)) by lia. set (ival := if ct_txc c + 1 >=? c_rc cfg then u32 (c_rto cfg * c_rm cfg) else u32 (ct_ival c * 2)).
    set (c' := ct_set c (ct_txc c + 1) ival (Some ival)).
    pose proof (IH id u c' (update_ct c' l) log (Sys (S (tick s)) (out s ++ [resend c u]))
      (find_update _ _ _ c' Hf Hid) (waiting_set _ _ _ _ Hw) ltac:(cbn; lia) Hrc ltac:(cbn; lia)) as H.
    destruct (drive n id _ _) as [[ds [l' log']] s'].
    destruct H as (-> & e & k & -> & He & Ho & Hk & Hsched). split; [by apply (remove_update id l c')|].
    cbn [ct_set c' ct_txc ct_ival out] in *. exists e, (S k). split; [done|]. split; [done|].
    split; [|split; [lia|]].
    + rewrite Ho, <- !app_assoc. done.
    + intros Hok. destruct (Hsched Hok) as (-> & Hk' & ->). split; [done|]. split; [lia|done].
  - rewrite Hgone. split; [done|]. bool_hyps. exists (env QUdpSend (tick s)), 1%nat.
    cbn [out replicate app].
    split; [done|]. split; [done|]. split; [done|]. split; [lia|]. intros Hok. by rewrite Hok in E.
Qed.
End retransmission.

(** The default configuration: seven datagrams in 39.5 seconds. *)
Definition demo_ct : ctrans :=
  Ctrans 0 (Some 500) (SA (AF_INET 0x01020304) 3478) (replicate 12 7) true None (Some 4%nat) false
    (Mbuf [1; 2; 3] 0 3) true IPPROTO_UDP 1 500 1.

Lemma stun_gives_up_witness :
  let '(ds, (l', log'), s') := @drive good_env conf_default 7 0 ([demo_ct], []) (Sys 0 []) in
  l' = [] /\ log' = [(ETIMEDOUT, 0, None)] /\ length (out s') = 6%nat /\
  ds = [500; 1000; 2000; 4000; 8000; 16000; 8000].
Proof.
  pose proof (@stun_gives_up good_env conf_default 7 0 4 demo_ct [demo_ct] [] (Sys 0 []) eq_refl
    ltac:(by split) ltac:(cbn; lia) ltac:(cbn; lia) ltac:(cbn; lia)) as H.
  destruct (drive _ _ _ _) as [[ds [l' log']] s'].
  destruct H as (-> & e & k & -> & _ & Ho & _ & Hs). destruct (Hs ltac:(done)) as (-> & Hk & ->).
  assert (k = 6%nat) as -> by (change (Z.of_nat k = 6) in Hk; lia). rewrite Ho. done.
Defined.

(** *** Answers *)
Section answers.
Context `{V : Env} (hmac_sha1 : bytes -> bytes -> bytes).
Abbreviation recv := (stun_recv hmac_sha1 log_resph no_ctp).

Lemma attrs_decode_out fuel : forall mb extra tid ua s,
  iwp (attrs_decode fuel mb extra tid ua) (fun _ s' => out s' = out s) s.
Proof.
  induction fuel as [|fuel IH]; intros mb extra tid ua s; cbn [attrs_decode]; [by apply iwp_ret|].
  case_if; [|by apply iwp_ret]. apply iwp_bind. eapply iwp_mono; [apply attr_decode_forward|].
  intros [e|[[a mb1] ua1]] s1 [O _]; [by apply iwp_ret|]. apply iwp_bind.
  eapply iwp_mono; [apply IH|]. intros r s2 O2. apply iwp_ret. by rewrite O2.
Qed.
Lemma msg_decode_out mb s : iwp (stun_msg_decode mb) (fun _ s' => out s' = out s) s.
Proof.
  unfold stun_msg_decode. destruct (stun_hdr_decode mb) as [e|[h mb']]; [by apply iwp_ret|].
  apply iwp_bind, iwp_ask. case_if; [by apply iwp_ret|]. apply iwp_bind.
  eapply iwp_mono; [apply attrs_decode_out|]. intros r s2 O2. by apply iwp_ret.
Qed.

(** The status that an answer carries. *)
Definition status_of (m : stun_message) : Z * Z :=
  if stun_msg_class m =? 3 then
    match stun_msg_attr m STUN_ATTR_ERR_CODE with
    | Some (VErr code _) => (0, code)
    | _ => (EPROTO, 0)
    end
  else (0, 0).

(** Whether a transaction takes an answer: one with a key wants a digest that
    verifies, but takes a 401 or 438 without looking at it. *)
Definition takes_answer (c : ctrans) (m : stun_message) : bool :=
  (snd (status_of m) =? 401) || (snd (status_of m) =? 438)
  || match ct_key c with Some k => stun_msg_chk_mi hmac_sha1 m k =? 0 | None => true end.

(** The transaction that an answer belongs to. *)
Definition answered (m : stun_message) (l : list ctrans) : option ctrans :=
  if (stun_msg_class m =? 2) || (stun_msg_class m =? 3) then List.find (match_handler m) l else None.

Lemma answered_match m l c :
  answered m l = Some c ->
  In c l /\ ct_met c = stun_msg_method m /\ ct_tid c = h_tid (m_hdr m) /\ (stun_msg_class m = 2 \/ stun_msg_class m = 3).
Proof.
  unfold answered. destruct (_ || _) eqn:EC; [|done]. intros H. apply List.find_some in H as [Hi H].
  apply andb_true_iff in H as [H1 H2]. apply Z.eqb_eq in H1. apply bytes_eqb_eq in H2.
  apply orb_true_iff in EC as [E|E]; apply Z.eqb_eq in E; auto.
Qed.

(** What a decoded message does. *)
Lemma ctrans_recv_spec m ua l log s :
  let '(err, (l', log'), s') := stun_ctrans_recv hmac_sha1 log_resph no_ctp m ua (l, log) s in
  match answered m l with
  | Some c =>
      if takes_answer c m then
        err = 0 /\ l' = remove_ct (ct_id c) l /\ out s' = out s ++ closes c /\
        log' = (if ct_resph c
                then log ++ [(if (fst (status_of m) =? 0) && (0 <? length ua)%nat then EPROTO
                              else fst (status_of m), snd (status_of m), Some m)]
                else log)
      else l' = l /\ log' = log /\ s' = s
  | None => l' = l /\ log' = log /\ s' = s
  end.
Proof.
  unfold stun_ctrans_recv, answered.
  destruct ((stun_msg_class m =? 2) || (stun_msg_class m =? 3)) eqn:EC; [|done].
  assert (exists reason, (if stun_msg_class m =? 3 then
        match stun_msg_attr m STUN_ATTR_ERR_CODE with
        | Some (VErr code reason) => (0, code, reason)
        | _ => (EPROTO, 0, cstr "OK")
        end
      else (0, 0, cstr "OK")) = (fst (status_of m), snd (status_of m), reason)) as [reason ->].
  { unfold status_of. destruct (stun_msg_class m =? 3); [|by eexists].
    destruct (stun_msg_attr m STUN_ATTR_ERR_CODE) as [[]|]; by eexists. }
  unfold get_ctl, get, mbind, M_bind, mret, M_ret. cbn [fst].
  destruct (List.find (match_handler m) l) as [c|] eqn:EF; [|done]. cbn zeta.
  assert (((if (snd (status_of m) =? 401) || (snd (status_of m) =? 438) then 0
    else match ct_key c with Some key => stun_msg_chk_mi hmac_sha1 m key | None => 0 end) =? 0) = takes_answer c m) as ->.
  { unfold takes_answer. destruct ((snd (status_of m) =? 401) || (snd (status_of m) =? 438)); [done|]. by destruct (ct_key c). }
  destruct (takes_answer c m); cbn [negb]; [|done]. by rewrite completed_log.
Qed.

(** C33. A datagram ends a transaction exactly when it is an answer to it: if it
    decodes to a response whose method and transaction id are those of a
    transaction (the first such), and that transaction has no key, or the
    response's MESSAGE-INTEGRITY verifies under it, or the response is a 401 or
    438 error (for which [stun_ctrans_recv] skips the check, so that these need
    not be authentic), then exactly that transaction is removed and its handler is
    called once, with the message and the status the message carries, or with
    EPROTO if the message has comprehension-required attributes that are not
    understood.  Whatever else arrives changes nothing. *)
Theorem stun_recv_matches (mb : mbuf) (l : list ctrans) (log : list call) (s : sys) :
  let '(err, (l', log'), s') := recv mb (l, log) s in
  match fst (stun_msg_decode mb s) with
  | inr (m, ua) =>
      match answered m l with
      | Some c =>
          if takes_answer c m then
            err = 0 /\ l' = remove_ct (ct_id c) l /\ out s' = out s ++ closes c /\
            log' = (if ct_resph c
                    then log ++ [(if (fst (status_of m) =? 0) && (0 <? length ua)%nat then EPROTO
                                  else fst (status_of m), snd (status_of m), Some m)]
                    else log) /\
            In c l /\ ct_met c = stun_msg_method m /\ ct_tid c = h_tid (m_hdr m) /\
            (stun_msg_class m = 2 \/ stun_msg_class m = 3)
          else l' = l /\ log' = log /\ out s' = out s
      | None => l' = l /\ log' = log /\ out s' = out s
      end
  | inl _ => l' = l /\ log' = log /\ out s' = out s
  end.
Proof.
  unfold stun_recv, mbind, M_bind, lift. pose proof (msg_decode_out mb s) as HO. unfold iwp in HO.
  destruct (stun_msg_decode mb s) as [[e|[m ua]] s1]; [done|]. cbn [fst]. rewrite <- HO.
  pose proof (ctrans_recv_spec m ua l log s1) as H. pose proof (answered_match m l) as Hm. unfold answered in *.
  destruct ((stun_msg_class m =? 2) || (stun_msg_class m =? 3)); [|done].
  destruct (stun_ctrans_recv hmac_sha1 log_resph no_ctp m ua (l, log) s1) as [[err [l' log']] s'].
  destruct (List.find (match_handler m) l) as [c|]; [|by destruct H as (-> & -> & ->)].
  destruct (takes_answer c m); [|by destruct H as (-> & -> & ->)].
  destruct H as (H1 & H2 & H3 & H4), (Hm c eq_refl) as (M1 & M2 & M3 & M4). by split_and!.
Qed.
End answers.

(** A transaction with a key: a plain success response does not end it, a 401
    does, although nothing about it is authentic. *)
Definition keyed_ct : ctrans :=
  Ctrans 0 (Some 500) (SA (AF_INET 0x01020304) 3478) (replicate 12 7) true (Some (cstr "key")) (Some 4%nat) false
    (Mbuf [1; 2; 3] 0 3) true IPPROTO_UDP 1 500 1.
Definition demo_success : bytes := [1; 1; 0; 0; 0x21; 0x12; 0xa4; 0x42] ++ replicate 12 7.
Definition demo_401 : bytes :=
  [1; 0x11; 0; 8; 0x21; 0x12; 0xa4; 0x42] ++ replicate 12 7 ++ [0; 9; 0; 4; 0; 0; 4; 1].
Definition datagram (d : bytes) : mbuf := Mbuf d 0 (length d).
Definition decoded (d : bytes) : option (stun_message * list Z) :=
  match fst (@stun_msg_decode good_env (datagram d) (Sys 0 [])) with inr x => Some x | inl _ => None end.
Definition summary (m : stun_message) : bool * (Z * Z) * bool :=
  (match answered m [keyed_ct] with Some c => (ct_id c =? 0)%nat | None => false end, status_of m,
   takes_answer demo_hmac keyed_ct m).
Lemma decoded_spec d b st t :
  (summary ∘ fst <$> decoded d, snd <$> decoded d) = (Some (true, st, b), Some t) ->
  exists m, fst (@stun_msg_decode good_env (datagram d) (Sys 0 [])) = inr (m, t) /\
    answered m [keyed_ct] = Some keyed_ct /\ status_of m = st /\ takes_answer demo_hmac keyed_ct m = b.
Proof.
  unfold decoded. destruct (fst (stun_msg_decode _ _)) as [e|[m ua]]; [done|]. cbn. unfold summary. intros [= H1 H2 H3 ->].
  exists m. split; [done|]. destruct (answered m [keyed_ct]) as [c|] eqn:Ea; [|done].
  apply answered_match in Ea as [[<-|[]] _]. by rewrite H2, H3.
Qed.
Lemma demo_401_decoded :
  (summary ∘ fst <$> decoded demo_401, snd <$> decoded demo_401) = (Some (true, (0, 401), true), Some []).
Proof. vm_compute. reflexivity. Qed.
Lemma demo_success_decoded :
  (summary ∘ fst <$> decoded demo_success, snd <$> decoded demo_success) = (Some (true, (0, 0), false), Some []).
Proof. vm_compute. reflexivity. Qed.

Lemma stun_recv_matches_witness :
  (let '(_, (l', log'), _) := @stun_recv good_env _ demo_hmac log_resph no_ctp (datagram demo_401) ([keyed_ct], []) (Sys 0 []) in
   l' = [] /\ map (fun c => snd (fst c)) log' = [401])
  /\ (let '(_, (l', log'), _) := @stun_recv good_env _ demo_hmac log_resph no_ctp (datagram demo_success) ([keyed_ct], []) (Sys 0 []) in
      l' = [keyed_ct] /\ log' = []).
Proof.
  split.
  - destruct (decoded_spec _ _ _ _ demo_401_decoded) as (m & Ed & Ea & Es & Et).
    pose proof (@stun_recv_matches good_env demo_hmac (datagram demo_401) [keyed_ct] [] (Sys 0 [])) as H.
    rewrite Ed, Ea, Et in H. destruct (stun_recv _ _ _ _ _ _) as [[err [l' log']] s'].
    destruct H as (_ & -> & _ & -> & _). rewrite Es. split; reflexivity.
  - destruct (decoded_spec _ _ _ _ demo_success_decoded) as (m & Ed & Ea & _ & Et).
    pose proof (@stun_recv_matches good_env demo_hmac (datagram demo_success) [keyed_ct] [] (Sys 0 [])) as H.
    rewrite Ed, Ea, Et in H. destruct (stun_recv _ _ _ _ _ _) as [[err [l' log']] s'].
    destruct H as (-> & -> & _). split; reflexivity.
Defined.
