(* ===== verification/StunDiscovery.v ===== *)
(** * Discovery, end to end ([stun_client.c] on libre's [stun/] and [udp/udp.c])

    The response handler of the STUN client is put behind libre's transactions,
    and the transactions behind the UDP socket that delivers the answers.  The
    socket that the client opens has no receive handler, so nothing that arrives
    ever reaches the transactions, and no address is ever discovered. *)
From S2P Require Import Prelude Sys Fmt Mbuf StunCodec StunProofs StunClient StunTrans.
Local Open Scope Z_scope.

(** ** Receiving a datagram ([udp.c]) *)
Section udp.
Context `{V : Env} {W : Type}.




End udp.

(** ** The client behind the transactions *)
Section discovery.
Context `{V : Env} {W : Type} (hmac_sha1 : bytes -> bytes -> bytes).
Variable result_cb : option bytes -> M W unit.

Definition sa_of (v : option stun_val) : option sa :=
  match v with Some (VSa a) => Some a | _ => None end.

(** [stun_resp_handler] as the transaction calls it; without a message there is
    an error, and the handler does not look at it. *)
Definition client_resph (err scode : Z) (reason : bytes) (msg : option stun_message) : M (stun * W) unit :=
  stun_resp_handler result_cb err scode
    (match msg with
     | Some m => StunMsg (sa_of (stun_msg_attr m STUN_ATTR_XOR_MAPPED_ADDR))
                         (sa_of (stun_msg_attr m STUN_ATTR_MAPPED_ADDR))
     | None => StunMsg None None
     end).
(** [*ctp] is [g_stun.ct]. *)
Definition client_ctp (b : bool) : M (stun * W) unit :=
  on_stun (fun g => Stun (sn_stun g) b (sn_us g) (sn_public_addr g) (sn_discovered g) (sn_has_cb g)).

Abbreviation C := (M (list ctrans * (stun * W))).


(** libre's [udp_recv_handler] of [ctrans.c] *)
Definition udp_recv_handler (mb : mbuf) : C unit :=
  stun_recv hmac_sha1 client_resph client_ctp mb ;; mret tt.

End discovery.

(** ** Theorems *)


(** *** The socket of the client *)

Section deaf.
Context `{V : Env} (hmac_sha1 : bytes -> bytes -> bytes).







End deaf.


