(* ===== verification/HttpServer.v ===== *)
(** * The HTTP interface ([http_server.c])

    Routing, static files, the doorbell, the call API and the NAT information,
    with libre's reply functions ([src/http/server.c]) and address parser
    ([src/sa/sa.c]).  The files under [www], what [inet_pton] recognises and what
    memory holds behind a request body are parameters. *)
From S2P Require Import Prelude Sys Fmt Mbuf Rtp H264 G711 AudioIn AudioOut Base64 Camera.
From S2P Require Import RtspAuth RtspParse RtspState RtspServer RtspReply RtspAccess RtspInv RtspMedia.
From S2P Require Import Session RelayClient StunClient.

Definition DOORBELL_MIN_INTERVAL_MS : Z := 5000.

(** A request: method, path, body, and the memory behind the body. *)
Record http_msg := HttpMsg { hm_met : bytes; hm_path : bytes; hm_body : bytes; hm_behind : bytes }.

(** The module's globals with the modules it calls. *)
Record app := App {
  ap_world : world;
  ap_sess : option session;
  ap_www : bytes;
  ap_pending : bool;
  ap_timestamp : Z;
  ap_relay : relay;
  ap_stun : stun;
  ap_httpsock : option nat
}.

Definition set_world (w : world) (a : app) : app :=
  App w (ap_sess a) (ap_www a) (ap_pending a) (ap_timestamp a) (ap_relay a) (ap_stun a) (ap_httpsock a).
Definition set_sess (x : option session) (a : app) : app :=
  App (ap_world a) x (ap_www a) (ap_pending a) (ap_timestamp a) (ap_relay a) (ap_stun a) (ap_httpsock a).
Definition set_bell (p : bool) (t : Z) (a : app) : app :=
  App (ap_world a) (ap_sess a) (ap_www a) p t (ap_relay a) (ap_stun a) (ap_httpsock a).
Definition set_http (www : bytes) (sock : option nat) (a : app) : app :=
  App (ap_world a) (ap_sess a) www (ap_pending a) (ap_timestamp a) (ap_relay a) (ap_stun a) sock.

Definition with_world {A} (m : M world A) : M app A := zoom ap_world set_world m.

(** ** libre: addresses *)
Definition pl_u32 (l : bytes) : Z := if forallb isdigit l then u32 (digits_val 0 l) else 0.

(** The address text and the position of the character behind it. *)
Definition addr_part (str : bytes) : option (bytes * nat) :=
  let plain := match memchr str 58 with Some i => Some (take i str, i) | None => None end in
  match str with
  | 91 :: _ =>
      match memchr str 93 with
      | Some i => Some (take (i - 1) (drop 1 str), S i)
      | None => plain
      end
  | _ => plain
  end.

Definition sa_decode (inet_pton : bytes -> option sa_addr) (str : bytes) : option sa :=
  match addr_part str with
  | None => None
  | Some (addr, c) =>
      if (length str <? c + 2)%nat then None
      else if negb (nth c str 0 =? 58) then None
      else
        match inet_pton addr with
        | None => None
        | Some ip => Some (SA ip (u16 (pl_u32 (drop (c + 1) str))))
        end
  end.

(** ** Content types *)
Definition mime_type (path : bytes) : string :=
  match strrchr path 46 with
  | None => "application/octet-stream"
  | Some i =>
      let dot := drop i (cstring path) in
      if strcaseeq dot (cstr ".html") then "text/html; charset=utf-8"
      else if strcaseeq dot (cstr ".js") then "application/javascript; charset=utf-8"
      else if strcaseeq dot (cstr ".css") then "text/css; charset=utf-8"
      else if strcaseeq dot (cstr ".json") then "application/json"
      else if strcaseeq dot (cstr ".ico") then "image/x-icon"
      else if strcaseeq dot (cstr ".png") then "image/png"
      else "application/octet-stream"
  end.

(** [strstr(filename, "..") || strstr(filename, "\\") || ...]; the last test of
    the source compares the end of the string with itself and is never true. *)
Definition forbidden (filename : bytes) : bool :=
  match strstr filename (cstr "..") with Some _ => true | None => false end
  || match strstr filename (cstr "\\") with Some _ => true | None => false end
  || (nth 0 filename 0 =? 47) || (nth 0 filename 0 =? 92).

Definition JSON_HEADERS : string :=
  "Content-Type: application/json\r\nAccess-Control-Allow-Origin: *\r\nConnection: close\r\n\r\n".

Section Http.
Context `{V : Env}.
(** A file that can be opened: the size [ftell] reports and the bytes [fread]
    returned. *)
Variable file : bytes -> option (Z * bytes).
Variable inet_pton : bytes -> option sa_addr.

(** ** libre: replies *)
Definition http_reply (scode : Z) (reason fmt : string) (args : list farg) : IO Z :=
  mbo ← mbuf_alloc (Z.to_nat 8192);
  match mbo with
  | None => mret ENOMEM
  | Some mb =>
      '(err, mb) ← mbuf_printf mb "HTTP/1.1 %u %s\r\n" [ANum scode; AStr (cstr reason)];
      '(e, mb) ← mbuf_printf mb fmt args;
      if negb (Z.lor err e =? 0) then mret (Z.lor err e)
      else emit (HttpReply scode (mbuf_buf (mbuf_set_pos mb 0))) ;; ask QTcpSend
  end.

Definition http_creply (scode : Z) (reason : string) (ctype fmt : string) (args : list farg) : IO Z :=
  mbo ← mbuf_alloc (Z.to_nat 8192);
  match mbo with
  | None => mret ENOMEM
  | Some mb =>
      '(err, mb) ← mbuf_printf mb fmt args;
      if negb (err =? 0) then mret err
      else
        let content := take (mb_end mb) (mb_buf mb) in
        http_reply scode reason "Content-Type: %s\r\nContent-Length: %zu\r\n\r\n%b"
          [AStr (cstr ctype); ANum (Z.of_nat (mb_end mb)); ABuf content]
  end.

Definition http_ereply (scode : Z) (reason : string) : IO Z :=
  http_creply scode reason "text/html"
    "<!DOCTYPE html>\n<html>\n<head><title>%u %s</title></head>\n<body><h2>%u %s</h2></body>\n</html>\n"
    [ANum scode; AStr (cstr reason); ANum scode; AStr (cstr reason)].

Definition json (scode : Z) (reason fmt : string) (args : list farg) : M app unit :=
  _ ← lift (http_reply scode reason (JSON_HEADERS ++ fmt)%string args); mret tt.

(** ** Static files *)
Definition serve_file (filename : bytes) : M app Z :=
  let filename := cstring filename in
  let fail code reason err := _ ← lift (http_ereply code reason); mret err in
  a ← get;
  if forbidden filename then fail 403 "Forbidden" EPERM
  else if (512 <=? length (ap_www a) + length filename + 2)%nat then fail 414 "URI Too Long" EINVAL
  else
    let filepath := snprintf_str 512 "%s/%s" [AStr (ap_www a); AStr filename] in
    lift (emit (FileOpen filepath)) ;;
    match file filepath with
    | None => fail 404 "Not Found" ENOENT
    | Some (fsize, content) =>
        if (fsize <=? 0) || (1024 * 1024 <? fsize) then fail 500 "Internal Error" EINVAL
        else
          ok ← lift (ask QAlloc);
          if ok =? 0 then fail 500 "Internal Error" ENOMEM
          else if negb (zlen content =? fsize) then fail 500 "Read Error" EIO
          else
            lift (http_reply 200 "OK"
              "Content-Type: %s\r\nContent-Length: %ld\r\nAccess-Control-Allow-Origin: *\r\nConnection: close\r\n\r\n%b"
              [AStr (cstr (mime_type filename)); ANum fsize; ABuf content])
    end.

(** ** Calls *)

(** [session_close(g_sess); g_sess = mem_deref(g_sess)] *)
Definition drop_session : M app unit :=
  a ← get;
  match ap_sess a with
  | Some x =>
      modify (set_sess (Some (session_close x))) ;;
      with_world (session_destructor (ss_us x)) ;;
      modify (set_sess None)
  | None => mret tt
  end.

Definition peer_skip (c : Z) : bool := (c =? 32) || (c =? 58) || (c =? 34).

(** The text of the peer in the body.  The search runs over the memory from the
    body on, up to a NUL. *)
Definition peer_text (msg : http_msg) : bytes :=
  match hm_body msg with
  | [] => []
  | _ =>
      let mem := hm_body msg ++ hm_behind msg in
      let body_len := length (hm_body msg) in
      match strstr mem (cstr "\qpeer\q") with
      | None => []
      | Some i =>
          let rest := drop (i + 6) mem in
          let room := (body_len - (i + 6))%nat in
          let skipped := (length (take room rest)
                          - length (skip_while peer_skip (take room rest)))%nat in
          let p := drop skipped rest in
          match strchr p 34 with
          | Some n => if (n <? 64)%nat then take n p else []
          | None => []
          end
      end
  end.

Definition handle_call_create (msg : http_msg) : M app unit :=
  drop_session ;;
  let text := peer_text msg in
  let peer_str := match text with [] => str_ncpy (cstr "127.0.0.1:5006") 64 | _ => text end in
  match sa_decode inet_pton peer_str with
  | None =>
      _ ← lift (http_creply 400 "Bad Request" "application/json" "{\qerror\q:\qinvalid peer address\q}" []);
      mret tt
  | Some peer =>
      '(err, o) ← with_world (session_alloc peer);
      match o with
      | Some x =>
          if negb (err =? 0) then _ ← lift (http_ereply 500 "Session alloc failed"); mret tt
          else
            modify (set_sess (Some x)) ;;
            json 201 "Created" "{\qstatus\q:\qok\q,\qrtp_port\q:%u,\qpeer\q:\q%s\q}"
              [ANum (ss_port x); AStr peer_str]
      | None => _ ← lift (http_ereply 500 "Session alloc failed"); mret tt
      end
  end.

Definition handle_status : M app unit :=
  a ← get;
  match ap_sess a with
  | Some x =>
      if ss_active x
      then json 200 "OK" "{\qactive\q:true,\qrtp_port\q:%u,\qpeer\q:\q%J\q}" [ANum (ss_port x); ASa (ss_peer x)]
      else json 200 "OK" "{\qactive\q:false}" []
  | None => json 200 "OK" "{\qactive\q:false}" []
  end.

Definition handle_call_delete : M app unit :=
  drop_session ;;
  json 200 "OK" "{\qstatus\q:\qok\q}" [].

Definition handle_options : M app unit :=
  _ ← lift (http_reply 204 "No Content"
    "Access-Control-Allow-Origin: *\r\nAccess-Control-Allow-Methods: GET, POST, PUT, DELETE, OPTIONS\r\nAccess-Control-Allow-Headers: Content-Type\r\nAccess-Control-Max-Age: 86400\r\nConnection: close\r\n\r\n" []);
  mret tt.

(** ** Doorbell *)
Definition ring_limited (timestamp now : Z) : bool :=
  (0 <? timestamp) && (u64 (now - timestamp) <? DOORBELL_MIN_INTERVAL_MS).

Definition handle_doorbell_trigger : M app unit :=
  now ← lift (ask QClock);
  a ← get;
  if ring_limited (ap_timestamp a) now then json 429 "Too Many Requests" "{\qerror\q:\qrate limited\q}" []
  else
    modify (set_bell true now) ;;
    json 200 "OK" "{\qstatus\q:\qok\q}" [].

Definition handle_doorbell_status : M app unit :=
  a ← get;
  if ap_pending a then
    modify (fun a => set_bell false (ap_timestamp a) a) ;;
    json 200 "OK" "{\qringing\q:true}" []
  else json 200 "OK" "{\qringing\q:false}" [].

Definition nat_field (o : option bytes) : list farg :=
  match o with
  | Some x => [AStr [34]; AStr x; AStr [34]]
  | None => [AStr []; AStr (cstr "null"); AStr []]
  end.
Definition handle_nat_info : M app unit :=
  a ← get;
  let body := snprintf_str 512
    "{\qpublic_addr\q:%s%s%s,\qrelay_server\q:%s%s%s,\qrelay_connected\q:%s}"
    (nat_field (stun_get_public_addr (ap_stun a)) ++ nat_field (relay_client_get_server (ap_relay a))
     ++ [AStr (cstr (if relay_client_is_connected (ap_relay a) then "true" else "false"))]) in
  json 200 "OK" "%s" [AStr body].

(** ** Routing *)
Definition is_met (m : string) (msg : http_msg) : bool :=
  bytes_eqb (map tolower (hm_met msg)) (map tolower (cstr m)).
Definition is_path (p : string) (msg : http_msg) : bool := bytes_eqb (hm_path msg) (cstr p).

Definition not_found : M app unit :=
  _ ← lift (http_reply 404 "Not Found" "Connection: close\r\n\r\n" []); mret tt.

Definition http_req_handler (msg : http_msg) : M app unit :=
  (if is_met "OPTIONS" msg then handle_options
   else if is_met "POST" msg && is_path "/api/call" msg then handle_call_create msg
   else if is_met "GET" msg && is_path "/api/status" msg then handle_status
   else if is_met "DELETE" msg && is_path "/api/call" msg then handle_call_delete
   else if is_met "POST" msg && is_path "/api/doorbell" msg then handle_doorbell_trigger
   else if is_met "GET" msg && is_path "/api/doorbell/status" msg then handle_doorbell_status
   else if is_met "GET" msg && is_path "/api/nat" msg then handle_nat_info
   else if is_met "GET" msg then
     if is_path "/" msg || is_path "/index.html" msg then _ ← serve_file (cstr "index.html"); mret tt
     else if (1 <? length (hm_path msg))%nat then
       let plen := (length (hm_path msg) - 1)%nat in
       let plen := if (256 <=? plen)%nat then 255%nat else plen in
       _ ← serve_file (take plen (drop 1 (hm_path msg))); mret tt
     else not_found
   else not_found) ;;
  lift (emit HttpConnClose).

(** ** Public functions *)
Definition http_sig_init (www_path : bytes) : M app (Z * option nat) :=
  modify (fun a => set_http (str_ncpy www_path 256) (ap_httpsock a) a) ;;
  err ← lift (ask QListen);
  if negb (err =? 0) then mret (err, None)
  else
    sock ← lift fresh;
    modify (fun a => set_http (ap_www a) (Some sock) a) ;;
    mret (0, Some sock).

Definition http_sig_close : M app unit :=
  a ← get;
  (match ap_httpsock a with Some _ => lift (emit HttpSockFree) | None => mret tt end) ;;
  modify (fun a => set_http (ap_www a) None a).
End Http.
