(* ===== verification/Pl.v ===== *)
(** * Strings with a length (libre [src/fmt/pl.c], [src/fmt/str.c], [src/fmt/ch.c])

    A [struct pl] is a pointer and a length; here it is the octets it spans, and a
    pointer into it an index.  Numbers are read from the right, with a multiplier
    of the width of the result.  [pl_float] (floating point) and the functions
    that only copy are left out. *)
From S2P Require Import Prelude Sys Fmt HttpServer.
From stdpp Require Import list.
Local Open Scope Z_scope.

(** ** Numbers *)
Definition dec_val (ch : Z) : option Z := let c := u8 (ch - 48) in if c >? 9 then None else Some c.
Definition hex_val (ch : Z) : option Z :=
  if (48 <=? ch) && (ch <=? 57) then Some (ch - 48)
  else if (65 <=? ch) && (ch <=? 70) then Some (ch - 65 + 10)
  else if (97 <=? ch) && (ch <=? 102) then Some (ch - 97 + 10)
  else None.

(** The loop from the last character to the first, on [w]-bit unsigned numbers. *)
Fixpoint num_loop (w base : Z) (val : Z -> option Z) (rl : bytes) (v mul : Z) : Z :=
  match rl with
  | [] => v
  | ch :: rl =>
      match val ch with
      | None => 0
      | Some c => num_loop w base val rl ((v + mul * c) mod 2 ^ w) ((mul * base) mod 2 ^ w)
      end
  end.
Definition pl_u32_loop (pl : bytes) : Z := num_loop 32 10 dec_val (rev pl) 0 1.
Definition pl_u64 (pl : bytes) : Z := num_loop 64 10 dec_val (rev pl) 0 1.
Definition pl_x32 (pl : bytes) : Z := num_loop 32 16 hex_val (rev pl) 0 1.
Definition pl_x64 (pl : bytes) : Z := num_loop 64 16 hex_val (rev pl) 0 1.

(** Two's complement of [w] bits. *)
Definition iw (w z : Z) : Z := (z + 2 ^ (w - 1)) mod 2 ^ w - 2 ^ (w - 1).
(** Signed: [v] counts down, so that the smallest number fits. *)
Fixpoint int_loop (w : Z) (rl : bytes) (v mul : Z) : option (Z * bool) :=
  match rl with
  | [] => Some (v, false)
  | ch :: rl =>
      if (48 <=? ch) && (ch <=? 57) then int_loop w rl (iw w (v - mul * (ch - 48))) ((mul * 10) mod 2 ^ w)
      else if (ch =? 45) && match rl with [] => true | _ => false end then Some (v, true)
      else if (ch =? 43) && match rl with [] => true | _ => false end then Some (v, false)
      else None
  end.
Definition pl_int (w : Z) (pl : bytes) : Z :=
  match int_loop w (rev pl) 0 1 with
  | None => 0
  | Some (v, neg) => if negb neg && (v =? - 2 ^ (w - 1)) then - 2 ^ (w - 1) else if neg then v else - v
  end.
Definition pl_i32 : bytes -> Z := pl_int 32.
Definition pl_i64 : bytes -> Z := pl_int 64.

Definition ITOA_BUFSZ : nat := 34.
(** [i] is the place to write next; [buf] what has been written. *)
Fixpoint str_itoa_loop (i : nat) (val base : Z) (buf : bytes) : bytes :=
  match i with
  | O => buf
  | S i' => if val =? 0 then buf else str_itoa_loop i' (val / base) base (digit_char false (val mod base) :: buf)
  end.
Definition str_itoa (val base : Z) : bytes := if val =? 0 then [48] else str_itoa_loop (ITOA_BUFSZ - 2) val base [].

(** ** Hexadecimal strings *)
Definition ch_hex (ch : Z) : Z := default 0 (hex_val ch).
Fixpoint hex_pairs (l : bytes) : bytes :=
  match l with
  | a :: b :: t => u8 (u8 (Z.shiftl (ch_hex a) 4) + ch_hex b) :: hex_pairs t
  | _ => []
  end.
Definition pl_hex (pl : bytes) (len : nat) : option bytes :=
  if (length pl =? 0)%nat || negb (length pl =? 2 * len)%nat then None else Some (hex_pairs pl).
Definition str_hex (str : bytes) (len : nat) : option bytes :=
  if negb (length (cstring str) =? 2 * len)%nat then None else Some (hex_pairs (take (2 * len) str)).

(** ** Comparing and searching *)

(** 0, or [EINVAL] ([false]). *)
Definition pl_cmp (pl1 pl2 : bytes) : bool := (length pl1 =? length pl2)%nat && bytes_eqb pl1 pl2.
Definition pl_strcmp (pl str : bytes) : bool := pl_cmp pl (cstring str).
Definition pl_casecmp (pl1 pl2 : bytes) : bool := (length pl1 =? length pl2)%nat && bytes_eqb (map tolower pl1) (map tolower pl2).
Definition pl_strcasecmp (pl str : bytes) : bool := pl_casecmp pl (cstring str).

(** [casecmp], for systems without [strings.h]: four octets at a time with a mask
    if both addresses are aligned. *)
Definition LOWER (d : Z) : Z := Z.lor d 0x20202020.
Fixpoint casecmp_words (n : nat) (a b : bytes) : bool :=
  match n, a, b with
  | S n, a0 :: a1 :: a2 :: a3 :: a, b0 :: b1 :: b2 :: b3 :: b =>
      (LOWER (a0 + 256 * a1 + 65536 * a2 + 16777216 * a3) =? LOWER (b0 + 256 * b1 + 65536 * b2 + 16777216 * b3)) && casecmp_words n a b
  | _, _, _ => bytes_eqb (map tolower a) (map tolower b)
  end.
Definition casecmp (aligned : bool) (pl str : bytes) : bool := casecmp_words (if aligned then length pl / 4 else 0) pl str.

Definition pl_bool (pl : bytes) : option bool :=
  if existsb (fun t => pl_strcasecmp pl (cstr t)) ["1"; "true"; "enable"; "yes"; "on"]%string then Some true
  else if existsb (fun t => pl_strcasecmp pl (cstr t)) ["0"; "false"; "disable"; "no"; "off"]%string then Some false
  else None.

Definition pl_strchr (pl : bytes) (c : Z) : option nat := memchr pl c.
(** [for (p = end; p >= pl->p; p--)] *)
Fixpoint strrchr_loop (pl : bytes) (n : nat) (c : Z) : option nat :=
  match n with
  | O => None
  | S n => if nth n pl 0 =? c then Some n else strrchr_loop pl n c
  end.
Definition pl_strrchr (pl : bytes) (c : Z) : option nat := strrchr_loop pl (length pl) c.
Fixpoint strstr_loop (pl str : bytes) (i fuel : nat) : option nat :=
  match fuel with
  | O => None
  | S fuel =>
      if (length pl - i <? length str)%nat then None
      else if bytes_eqb (take (length str) (drop i pl)) str then Some i
      else strstr_loop pl str (S i) fuel
  end.
Definition pl_strstr (pl str : bytes) : option nat :=
  let str := cstring str in
  if (length pl =? 0)%nat || (length pl <? length str)%nat then None
  else if (length str =? 0)%nat then Some 0%nat
  else strstr_loop pl str 0 (length pl).

(** ** Trimming *)
Fixpoint spaces (l : bytes) : nat := match l with c :: t => if isspace c then S (spaces t) else 0 | [] => 0 end.
Definition pl_ltrim (pl : bytes) : bytes := let i := spaces pl in if (i =? length pl)%nat then [] else drop i pl.
Fixpoint rtrim_loop (pl : bytes) (n : nat) : nat :=
  match n with O => 0 | S m => if isspace (nth m pl 0) then rtrim_loop pl m else n end.
Definition pl_rtrim (pl : bytes) : bytes := take (rtrim_loop pl (length pl)) pl.
Definition pl_trim (pl : bytes) : bytes := pl_rtrim (pl_ltrim pl).

(** ** Numbers: what is printed is read back *)
Section numbers.
Context (w base : Z) (val : Z -> option Z) (Hw : 0 < w).
(** The value of digits, the lowest first. *)
Fixpoint pos_val (rl : bytes) : Z := match rl with [] => 0 | c :: rl => default 0 (val c) + base * pos_val rl end.

Lemma num_loop_value rl : Forall (fun c => is_Some (val c)) rl -> forall v mul,
  num_loop w base val rl (v mod 2 ^ w) (mul mod 2 ^ w) = (v + mul * pos_val rl) mod 2 ^ w.
Proof.
  assert (2 ^ w <> 0) as Hp by (apply Z.pow_nonzero; lia).
  induction 1 as [|c rl [d Hd] _ IH]; intros v mul; cbn [num_loop pos_val]; [by rewrite Z.mul_0_r, Z.add_0_r|]. rewrite Hd. change (default 0 (Some d)) with d.
  replace ((v mod 2 ^ w + mul mod 2 ^ w * d) mod 2 ^ w) with ((v + mul * d) mod 2 ^ w).
  2: { rewrite Z.add_mod_idemp_l by done. rewrite <- (Z.add_mod_idemp_r v), <- (Z.add_mod_idemp_r v (_ * d)) by done. by rewrite Z.mul_mod_idemp_l by done. }
  rewrite Z.mul_mod_idemp_l by done. rewrite IH. f_equal. ring.
Qed.
(** Any string of digits, however long, is its value modulo the width. *)
Lemma num_value l : Forall (fun c => is_Some (val c)) l -> num_loop w base val (rev l) 0 1 = pos_val (rev l) mod 2 ^ w.
Proof.
  intros H. pose proof (num_loop_value (rev l)) as HN.
  specialize (HN ltac:(by apply Forall_rev) 0 1). rewrite Z.mod_0_l in HN by (apply Z.pow_nonzero; lia).
  rewrite (Z.mod_small 1) in HN by (pose proof (Z.pow_gt_1 2 w ltac:(lia)); lia). rewrite HN. f_equal. ring.
Qed.

(** The digits of a number, in the notation of the printers. *)
Hypothesis (Hb : 2 <= base).
Context (uc : bool) (Hdig : forall d, 0 <= d < base -> val (digit_char uc d) = Some d).
Lemma itoa_digits fuel : forall n acc, 0 <= n < base ^ Z.of_nat fuel -> (0 < fuel)%nat ->
  exists rd, itoa_loop fuel n base uc acc = rev rd ++ acc /\ Forall (fun c => is_Some (val c)) rd /\ pos_val rd = n.
Proof.
  induction fuel as [|fuel IH]; intros n acc Hn Hf; [lia|]. cbn [itoa_loop].
  assert (n - n / base * base = n mod base) as -> by (rewrite (Z.div_mod n base) at 1 by lia; lia).
  assert (0 <= n mod base < base) as Hd by (apply Z.mod_pos_bound; lia). pose proof (Hdig _ Hd) as Ev.
  destruct (Z.eqb_spec (n / base) 0) as [E|E].
  - exists [digit_char uc (n mod base)]. split; [done|]. split; [repeat constructor; by rewrite Ev|]. cbn [pos_val]. rewrite Ev. cbn.
    rewrite (Z.div_mod n base) at 2 by lia. lia.
  - assert (0 <= n / base < base ^ Z.of_nat fuel) as Hn'.
    { split; [apply Z.div_pos; lia|]. apply Z.div_lt_upper_bound; [lia|]. rewrite Nat2Z.inj_succ, Z.pow_succ_r in Hn by lia. lia. }
    destruct fuel as [|fuel]; [cbn in Hn'; lia|]. destruct (IH (n / base) (digit_char uc (n mod base) :: acc) Hn' ltac:(lia)) as (rd & -> & Hrd & Hv).
    exists (digit_char uc (n mod base) :: rd). split; [cbn [rev]; by rewrite <- app_assoc|]. split; [constructor; [by rewrite Ev|done]|].
    cbn [pos_val]. rewrite Ev, Hv. cbn. rewrite (Z.div_mod n base) at 3 by lia. lia.
Qed.
Lemma itoa_value n : 0 <= n < 2 ^ 64 -> num_loop w base val (rev (local_itoa n base uc)) 0 1 = n mod 2 ^ w.
Proof.
  intros Hn. destruct (itoa_digits 64 n []) as (rd & Ed & Hrd & Hv); [|lia|].
  { split; [lia|]. eapply Z.lt_le_trans; [apply Hn|]. apply Z.pow_le_mono_l. lia. }
  unfold local_itoa. rewrite Ed, app_nil_r. rewrite num_value by (by apply Forall_rev). by rewrite rev_involutive, Hv.
Qed.
End numbers.

Lemma dec_digit uc d : 0 <= d < 10 -> dec_val (digit_char uc d) = Some d.
Proof. intros H. rewrite digit_char_10 by done. unfold dec_val. replace (48 + d - 48) with d by lia. rewrite u8_small by lia. cbv zeta. destruct (Z.gtb_spec d 9); [lia|done]. Qed.
Lemma hex_digit uc d : 0 <= d < 16 -> hex_val (digit_char uc d) = Some d.
Proof.
  intros H. assert (d ∈ [0; 1; 2; 3; 4; 5; 6; 7; 8; 9; 10; 11; 12; 13; 14; 15]) as Hd by (rewrite !elem_of_cons; lia).
  repeat (apply elem_of_cons in Hd as [-> |Hd]; [by destruct uc|]). by apply not_elem_of_nil in Hd.
Qed.

(** The model of [pl_u32] that the HTTP server uses is this loop. *)
Lemma dec_val_isdigit ch : is_byte ch -> is_Some (dec_val ch) <-> isdigit ch = true.
Proof.
  unfold is_byte, dec_val, isdigit. intros H. cbv zeta. destruct (Z.gtb_spec (u8 (ch - 48)) 9); split; try (intros [? [=]]); intros; bool_hyps; try done; try mod_lia.
Qed.
Lemma num_loop_bad w base val rl : Exists (fun c => val c = None) rl -> forall v mul, num_loop w base val rl v mul = 0.
Proof. induction 1 as [c rl H|c rl _ IH]; intros v mul; cbn [num_loop]; [by rewrite H|]. by destruct (val c). Qed.
Lemma digits_val_pos l : Forall (fun c => isdigit c = true) l -> digits_val 0 l = pos_val 10 dec_val (rev l).
Proof.
  induction l as [|c l IH] using rev_ind; intros H; [done|]. apply Forall_app in H as [Hl Hc]. apply Forall_inv in Hc.
  rewrite digits_val_snoc_digits, rev_app_distr by done. cbn [rev List.app digits_val pos_val]. rewrite Hc, IH by done.
  unfold isdigit in Hc. bool_hyps. assert (dec_val c = Some (c - 48)) as ->; [|cbn; lia].
  unfold dec_val. rewrite u8_small by lia. cbv zeta. by destruct (Z.gtb_spec (c - 48) 9); [lia|].
Qed.
Lemma pl_u32_is_loop l : Forall is_byte l -> pl_u32 l = pl_u32_loop l.
Proof.
  intros Hl. unfold pl_u32, pl_u32_loop. destruct (forallb isdigit l) eqn:E.
  - rewrite forallb_forall in E. assert (Forall (fun c => isdigit c = true) l) as Hd by (apply Forall_forall; intros c Hc; apply E; by apply list_elem_of_In).
    rewrite num_value; [by rewrite digits_val_pos|lia|]. apply Forall_forall. intros c Hc. apply dec_val_isdigit; [by eapply Forall_forall|]. by eapply Forall_forall in Hd.
  - symmetry. apply num_loop_bad. destruct (decide (Exists (fun c => dec_val c = None) (rev l))) as [|Hn]; [done|exfalso].
    apply not_Exists_Forall in Hn; [|intros c; apply _]. assert (forallb isdigit l = true); [|congruence]. apply forallb_forall. intros c Hc.
    apply list_elem_of_In in Hc. eapply Forall_forall in Hl; [|exact Hc]. apply dec_val_isdigit; [done|].
    assert (c ∈ rev l) as Hr by (by apply list_elem_of_In, in_rev; rewrite rev_involutive; apply list_elem_of_In).
    eapply Forall_forall in Hn; [|exact Hr]. cbn in Hn. destruct (dec_val c); [by eexists|done].
Qed.

(** Signed numbers. *)
Lemma iw_mod w a b : 0 < w -> (a - b) mod 2 ^ w = 0 -> iw w a = iw w b.
Proof.
  intros Hw H. unfold iw. f_equal. assert (2 ^ w <> 0) by (apply Z.pow_nonzero; lia).
  apply Z.mod_divide in H as [k Hk]; [|done]. replace (a + 2 ^ (w - 1)) with (b + 2 ^ (w - 1) + k * 2 ^ w) by lia. by rewrite Z.mod_add.
Qed.
Lemma iw_small w z : 0 < w -> - 2 ^ (w - 1) <= z < 2 ^ (w - 1) -> iw w z = z.
Proof. intros Hw H. unfold iw. rewrite Z.mod_small; [lia|]. assert (2 ^ w = 2 * 2 ^ (w - 1)) as ->; [|lia]. rewrite <- Z.pow_succ_r by lia. f_equal. lia. Qed.
Lemma iw_self w z : 0 < w -> (iw w z - z) mod 2 ^ w = 0.
Proof.
  intros Hw. unfold iw. assert (2 ^ w <> 0) by (apply Z.pow_nonzero; lia). replace (_ - _ - z) with ((z + 2 ^ (w - 1)) mod 2 ^ w - (z + 2 ^ (w - 1))) by lia.
  apply Z.mod_divide; [done|]. exists (- ((z + 2 ^ (w - 1)) / 2 ^ w)). rewrite Z.mod_eq by done. ring.
Qed.
Lemma int_loop_digits w rl t : 0 < w -> Forall (fun c => isdigit c = true) rl -> forall v mul,
  int_loop w (rl ++ t) (iw w v) (mul mod 2 ^ w) = int_loop w t (iw w (v - mul * pos_val 10 dec_val rl)) ((mul * 10 ^ zlen rl) mod 2 ^ w).
Proof.
  intros Hw H. assert (2 ^ w <> 0) as Hp by (apply Z.pow_nonzero; lia). induction H as [|c rl Hc _ IH]; intros v mul.
  { cbn [List.app pos_val length]. f_equal; [f_equal; lia|]. rewrite Z.mul_1_r. done. }
  cbn [List.app int_loop]. unfold isdigit in Hc. rewrite Hc. bool_hyps.
  assert (dec_val c = Some (c - 48)) as Ed by (unfold dec_val; rewrite u8_small by lia; cbv zeta; by destruct (Z.gtb_spec (c - 48) 9); [lia|]).
  replace (iw w (iw w v - mul mod 2 ^ w * (c - 48))) with (iw w (v - mul * (c - 48))).
  2: { apply iw_mod; [done|]. pose proof (iw_self w v Hw) as Hs. apply Z.mod_divide in Hs as [k Hk]; [|done]. apply Z.mod_divide; [done|].
       exists (- k - (mul / 2 ^ w) * (c - 48)). rewrite (Z.mod_eq mul) by done. replace (iw w v) with (v + k * 2 ^ w) by lia. ring. }
  rewrite Z.mul_mod_idemp_l by done. rewrite IH. cbn [pos_val]. rewrite Ed. change (default 0 (Some (c - 48))) with (c - 48). f_equal; [f_equal; ring|].
  f_equal. cbn [length]. rewrite Nat2Z.inj_succ, Z.pow_succ_r by lia. ring.
Qed.

(** A number as [%d] prints it. *)
Definition dec_text (n : Z) : bytes := (if n <? 0 then [45] else []) ++ local_itoa (Z.abs n) 10 false.
Lemma pl_int_text w n : 0 < w <= 64 -> - 2 ^ (w - 1) <= n < 2 ^ (w - 1) -> pl_int w (dec_text n) = n.
Proof.
  intros Hw Hn. assert (2 ^ (w - 1) < 2 ^ 64) as Hlt by (apply Z.pow_lt_mono_r; lia). assert (0 < 2 ^ (w - 1)) by (apply Z.pow_pos_nonneg; lia).
  destruct (local_itoa_spec (Z.abs n) ltac:(lia)) as (_ & Hd & Hv). rewrite digits_val_pos in Hv by done. set (ds := local_itoa (Z.abs n) 10 false) in *.
  unfold pl_int, dec_text. fold ds. rewrite rev_app_distr. pose proof (int_loop_digits w (rev ds) (rev (if n <? 0 then [45] else [])) ltac:(lia) ltac:(by apply Forall_rev) 0 1) as E.
  rewrite iw_small in E by lia. rewrite (Z.mod_small 1) in E by (pose proof (Z.pow_gt_1 2 w ltac:(lia)); lia). rewrite E, Hv. clear E.
  replace (0 - 1 * Z.abs n) with (- Z.abs n) by lia. destruct (Z.ltb_spec n 0) as [Hneg|Hpos]; cbn [rev List.app int_loop].
  - cbn. rewrite iw_small by lia. lia.
  - rewrite iw_small by lia. cbn [negb andb]. destruct (Z.eqb_spec (- Z.abs n) (- 2 ^ (w - 1))); lia.
Qed.

(** [str_itoa] prints what the formatter does. *)
Lemma str_itoa_loop_local base i : 2 <= base -> forall n acc, 0 < n -> n < base ^ Z.of_nat i ->
  forall fuel, (i <= fuel)%nat -> str_itoa_loop i n base acc = itoa_loop fuel n base false acc.
Proof.
  intros Hb. induction i as [|i IH]; intros n acc Hn Hlt fuel Hf; [cbn in Hlt; lia|]. destruct fuel as [|fuel]; [lia|]. cbn [str_itoa_loop itoa_loop].
  destruct (Z.eqb_spec n 0); [lia|]. assert (n - n / base * base = n mod base) as -> by (rewrite (Z.div_mod n base) at 1 by lia; lia).
  destruct (Z.eqb_spec (n / base) 0) as [E|E].
  - rewrite E. by destruct i.
  - apply IH; [|rewrite Nat2Z.inj_succ, Z.pow_succ_r in Hlt by lia; apply Z.div_lt_upper_bound; lia|lia]. pose proof (Z.div_pos n base ltac:(lia) ltac:(lia)). lia.
Qed.
Lemma str_itoa_local n base : 0 <= n < 2 ^ 32 -> 2 <= base <= 16 -> str_itoa n base = local_itoa n base false.
Proof.
  intros Hn Hb. unfold str_itoa, local_itoa. destruct (Z.eqb_spec n 0) as [-> |Hne].
  - cbn [itoa_loop]. rewrite Z.div_0_l by lia. done.
  - apply str_itoa_loop_local; [lia|lia| |vm_compute; lia]. eapply Z.lt_le_trans; [apply Hn|]. apply Z.pow_le_mono_l. lia.
Qed.

(** ** Octets in hexadecimal *)
Definition hex_text (uc : bool) (l : bytes) : bytes := concat (map (fun b => [digit_char uc (b / 16); digit_char uc (b mod 16)]) l).
Lemma hex_pairs_text uc l : Forall is_byte l -> hex_pairs (hex_text uc l) = l /\ length (hex_text uc l) = (2 * length l)%nat.
Proof.
  induction 1 as [|b l Hb _ [IH IL]]; [done|]. change (hex_text uc (b :: l)) with (digit_char uc (b / 16) :: digit_char uc (b mod 16) :: hex_text uc l).
  unfold is_byte in Hb. cbn [hex_pairs length]. split; [|lia]. rewrite IH. f_equal. unfold ch_hex.
  rewrite !hex_digit by (Z.div_mod_to_equations; lia). change (default 0 (Some ?x)) with x. cbn [default from_option id]. rewrite Z.shiftl_mul_pow2 by lia. mod_lia.
Qed.

(** Numbers and octets survive printing and parsing.  Every number of 32 or 64
    bits that the formatted printing or [str_itoa] writes, in decimal (signed and
    unsigned) or in hexadecimal of either case, is read back by the [pl] function
    of its width, the smallest signed number included; and octets written as pairs
    of hexadecimal digits are read back by [pl_hex]. *)
Theorem number_roundtrip (n : Z) (uc : bool) (l : bytes) :
  (0 <= n < 2 ^ 32 -> pl_u32 (local_itoa n 10 false) = n /\ pl_x32 (local_itoa n 16 uc) = n
     /\ pl_u32 (str_itoa n 10) = n /\ pl_x32 (str_itoa n 16) = n)
  /\ (0 <= n < 2 ^ 64 -> pl_u64 (local_itoa n 10 false) = n /\ pl_x64 (local_itoa n 16 uc) = n)
  /\ (- 2 ^ 31 <= n < 2 ^ 31 -> pl_i32 (dec_text n) = n)
  /\ (- 2 ^ 63 <= n < 2 ^ 63 -> pl_i64 (dec_text n) = n)
  /\ (Forall is_byte l -> l <> [] -> pl_hex (hex_text uc l) (length l) = Some l).
Proof.
  assert (forall w n, 0 < w -> 0 <= n < 2 ^ w -> w <= 64 -> num_loop w 10 dec_val (rev (local_itoa n 10 false)) 0 1 = n) as HD.
  { intros w k Hw Hk Hw2. assert (2 ^ w <= 2 ^ 64) by (apply Z.pow_le_mono_r; lia).
    rewrite (itoa_value w 10 dec_val Hw ltac:(lia) false (dec_digit false)) by lia. by apply Z.mod_small. }
  assert (forall w n uc, 0 < w -> 0 <= n < 2 ^ w -> w <= 64 -> num_loop w 16 hex_val (rev (local_itoa n 16 uc)) 0 1 = n) as HX.
  { intros w k u Hw Hk Hw2. assert (2 ^ w <= 2 ^ 64) by (apply Z.pow_le_mono_r; lia).
    rewrite (itoa_value w 16 hex_val Hw ltac:(lia) u (hex_digit u)) by lia. by apply Z.mod_small. }
  assert (forall n, 0 <= n < 2 ^ 32 -> pl_u32 (local_itoa n 10 false) = n) as HU.
  { intros k Hk. destruct (local_itoa_spec k ltac:(lia)) as (_ & Hd & Hv). unfold pl_u32.
    assert (forallb isdigit (local_itoa k 10 false) = true) as -> by (apply forallb_forall; intros c Hc; eapply Forall_forall in Hd; [done|by apply list_elem_of_In]).
    rewrite Hv. apply u32_small. lia. }
  split; [|split; [|split; [|split]]].
  - intros H. rewrite !str_itoa_local by lia. rewrite HU by done. unfold pl_x32. rewrite !HX by lia. done.
  - intros H. unfold pl_u64, pl_x64. rewrite HD, HX by lia. done.
  - intros H. by apply pl_int_text.
  - intros H. by apply pl_int_text.
  - intros Hl Hne. destruct (hex_pairs_text uc l Hl) as [E L]. unfold pl_hex. rewrite L, E, Nat.eqb_refl. destruct l; [done|]. done.
Qed.
Lemma number_roundtrip_witness : pl_i32 (dec_text (- 2 ^ 31)) = - 2 ^ 31 /\ pl_x64 (local_itoa 3735928559 16 true) = 3735928559.
Proof.
  split.
  - apply (proj1 (proj2 (proj2 (number_roundtrip (- 2 ^ 31) true [])))). lia.
  - apply (proj1 (proj2 (number_roundtrip 3735928559 true []))). lia.
Defined.

(** ** Searching *)
Lemma strrchr_loop_memrchr pl c n : (n <= length pl)%nat -> strrchr_loop pl n c = memrchr (take n pl) c.
Proof.
  intros Hn. assert (forall l x, memrchr (l ++ [x]) c = if x =? c then Some (length l) else memrchr l c) as Hs.
  { clear. induction l as [|y l IH]; intros x; cbn; [done|]. rewrite IH. by destruct (x =? c). }
  induction n as [|n IH]; [done|]. cbn [strrchr_loop]. destruct (pl !! n) as [x|] eqn:E; [|apply lookup_ge_None in E; lia].
  rewrite (take_S_r _ _ _ E), Hs, (nth_lookup_Some _ _ _ _ E), length_take, Nat.min_l by lia. destruct (x =? c); [done|]. apply IH. lia.
Qed.
Lemma strstr_loop_find pl str : str <> [] -> forall fuel i, (length pl - i <= fuel)%nat -> (i <= length pl)%nat ->
  strstr_loop pl str i fuel = Nat.add i <$> find_sub str (drop i pl).
Proof.
  intros Hne. assert (0 < length str)%nat as Ls by (destruct str; [done|cbn; lia]).
  assert (forall l, prefixb str l = true <-> take (length str) l = str) as Hp.
  { clear. induction str as [|a str IH]; intros l; cbn [prefixb length]; [done|]. destruct l as [|b l]; [done|]. cbn [firstn take].
    rewrite andb_true_iff, Z.eqb_eq, IH. split; [intros [-> ->]; done|]. by intros [= -> ?]. }
  assert (forall l, (length l < length str)%nat -> find_sub str l = None) as Hshort.
  { intros l Hl. destruct (find_sub str l) as [k|] eqn:E; [|done]. apply find_sub_Some in E as (k2 & _ & Hle & _). lia. }
  induction fuel as [|fuel IH]; intros i Hf Hi; cbn [strstr_loop].
  { by rewrite Hshort by (rewrite length_drop; lia). }
  destruct (Nat.ltb_spec (length pl - i) (length str)) as [Hl|Hl]; [by rewrite Hshort by (rewrite length_drop; lia)|].
  destruct (pl !! i) as [x|] eqn:E; [|apply lookup_ge_None in E; lia]. rewrite (drop_S _ _ _ E). cbn [find_sub]. rewrite <- (drop_S _ _ _ E).
  unfold bytes_eqb. destruct (prefixb str (drop i pl)) eqn:Ep.
  - apply Hp in Ep. rewrite bool_decide_true by done. cbn. f_equal. lia.
  - rewrite bool_decide_false by (intros H; apply Hp in H; congruence). rewrite IH by (apply lookup_lt_Some in E; lia).
    destruct (find_sub str (drop (S i) pl)); cbn; [f_equal; lia|done].
Qed.
(** The search functions are those of the C library on the octets spanned. *)
Lemma pl_search pl str c : pl <> [] -> cstring str <> [] ->
  pl_strstr pl str = find_sub (cstring str) pl /\ pl_strrchr pl c = memrchr pl c.
Proof.
  intros Hp Hs. split.
  - unfold pl_strstr. cbv zeta. destruct (Nat.eqb_spec (length pl) 0); [by destruct pl|]. cbn [orb].
    destruct (Nat.eqb_spec (length (cstring str)) 0) as [E|_]; [by destruct (cstring str)|].
    pose proof (strstr_loop_find pl (cstring str) Hs (length pl) 0 ltac:(lia) ltac:(lia)) as E. rewrite drop_0 in E. destruct (Nat.ltb_spec (length pl) (length (cstring str))) as [Hlt|_].
    + destruct (find_sub (cstring str) pl) as [k|] eqn:Ef; [|done]. apply find_sub_Some in Ef as (k2 & _ & Hle & _). lia.
    + rewrite E. by destruct (find_sub (cstring str) pl).
  - unfold pl_strrchr. rewrite strrchr_loop_memrchr by lia. by rewrite take_ge.
Qed.

(** ** Trimming *)
Lemma spaces_spec l : exists a b, l = a ++ b /\ length a = spaces l /\ Forall (fun c => isspace c = true) a /\ (forall c b', b = c :: b' -> isspace c = false).
Proof.
  induction l as [|c l (a & b & -> & La & Ha & Hb)]; [by exists [], []|]. cbn [spaces]. destruct (isspace c) eqn:E.
  - exists (c :: a), b. cbn. split; [done|]. split; [by rewrite La|]. split; [by constructor|done].
  - exists [], (c :: a ++ b). repeat split; [constructor|]. by intros ? ? [= <- _].
Qed.
Lemma rtrim_spec l n : (n <= length l)%nat -> exists k, take n l = take (rtrim_loop l n) l ++ k /\ Forall (fun c => isspace c = true) k
  /\ (forall m, rtrim_loop l n = S m -> isspace (nth m l 0) = false) /\ (rtrim_loop l n <= n)%nat.
Proof.
  induction n as [|n IH]; intros Hn; cbn [rtrim_loop]; [exists []; repeat split; [constructor|discriminate|lia]|].
  destruct (l !! n) as [x|] eqn:E; [|apply lookup_ge_None in E; lia]. rewrite (nth_lookup_Some _ _ _ _ E). destruct (isspace x) eqn:Ex.
  - destruct IH as (k & Ek & Hk & Hm & Hle); [lia|]. exists (k ++ [x]). rewrite (take_S_r _ _ _ E), Ek, <- app_assoc. split; [done|].
    split; [apply Forall_app; split; [done|by repeat constructor]|]. split; [done|lia].
  - exists []. rewrite app_nil_r. split; [done|]. split; [constructor|]. split; [|lia]. intros m [= <-]. by rewrite (nth_lookup_Some _ _ _ _ E).
Qed.
(** Trimming takes away white space at both ends, all of it, and nothing else. *)
Lemma pl_trim_spec l : exists a b, l = a ++ pl_trim l ++ b /\ Forall (fun c => isspace c = true) (a ++ b)
  /\ (forall c t, pl_trim l = c :: t -> isspace c = false) /\ (forall c t, pl_trim l = t ++ [c] -> isspace c = false).
Proof.
  destruct (spaces_spec l) as (a & m & El & La & Ha & Hm). assert (pl_ltrim l = m) as Em.
  { unfold pl_ltrim. rewrite <- La. rewrite El at 2. rewrite El, drop_app_length. destruct (Nat.eqb_spec (length a) (length (a ++ m))) as [E|]; [|done].
    rewrite length_app in E. destruct m; [done|cbn in E; lia]. }
  unfold pl_trim. rewrite Em. unfold pl_rtrim. destruct (rtrim_spec m (length m) ltac:(lia)) as (k & Ek & Hk & Hl & Hle). rewrite take_ge in Ek by lia.
  set (n := rtrim_loop m (length m)) in *. exists a, k. split; [by rewrite <- Ek|]. split; [by apply Forall_app|]. split.
  - intros c t Et. destruct m as [|c' m']; [by rewrite take_nil in Et|]. destruct n; [done|]. cbn in Et. injection Et as -> _. by eapply Hm.
  - intros c t Et. assert (length (take n m) = n) as Ln by (rewrite length_take; lia). rewrite Et, length_app in Ln. cbn in Ln.
    specialize (Hl (length t) ltac:(lia)). rewrite Ek, app_nth1, Et, app_nth2, Nat.sub_diag in Hl; [done|lia|]. rewrite Et, length_app. cbn. lia.
Qed.

(** ** Case-insensitive comparison *)

(** The comparison by words takes different characters for the same: on a system
    without [strings.h] the result depends on how the strings lie in memory. *)
Lemma casecmp_confuses :
  casecmp true (cstr "@home/[x") (cstr "`home/{x") = true /\ casecmp false (cstr "@home/[x") (cstr "`home/{x") = false
  /\ pl_casecmp (cstr "@home/[x") (cstr "`home/{x") = false.
Proof. by vm_compute. Qed.
