(* ===== verification/HttpProofs.v ===== *)
(** * Correctness of the HTTP interface

    Which files a request can open, what the doorbell guarantees, and what a
    call request connects to. *)
From S2P Require Import Prelude Sys Fmt Mbuf Rtp H264 G711 AudioIn AudioOut Base64 Camera.
From S2P Require Import RtspAuth RtspParse RtspState RtspServer RtspReply RtspAccess RtspInv RtspMedia.
From S2P Require Import Session RelayClient StunClient HttpServer.

(** ** Events of a computation

    Every event a computation adds to the trace satisfies [P]. *)
Section emits.
Context `{V : Env} (P : event -> Prop).

Definition iemits {A} (m : IO A) : Prop :=
  forall s, exists evs, out (snd (m s)) = out s ++ evs /\ Forall P evs.
Definition emits {W A} (m : M W A) : Prop :=
  forall w s, exists evs, out (snd (m w s)) = out s ++ evs /\ Forall P evs.

Lemma iemits_quiet {A} (m : IO A) : (forall s, out (snd (m s)) = out s) -> iemits m.
Proof. intros H s. exists []. rewrite H, app_nil_r. by split; [|constructor]. Qed.
Lemma iemits_ret {A} (a : A) : iemits (mret a).
Proof. by apply iemits_quiet. Qed.
Lemma iemits_ask q : iemits (ask q).
Proof. by apply iemits_quiet. Qed.
Lemma iemits_fresh : iemits fresh.
Proof. by apply iemits_quiet. Qed.
Lemma iemits_emit e : P e -> iemits (emit e).
Proof. intros He s. exists [e]. split; [done|by repeat constructor]. Qed.
Lemma iemits_bind {A B} (m : IO A) (f : A -> IO B) :
  iemits m -> (forall a, iemits (f a)) -> iemits (m ≫= f).
Proof.
  intros Hm Hf s. unfold mbind, IO_bind. destruct (Hm s) as (e1 & H1 & P1).
  destruct (m s) as [a s1]. destruct (Hf a s1) as (e2 & H2 & P2). exists (e1 ++ e2).
  cbn in H1. rewrite H2, H1, app_assoc. split; [done|]. by apply Forall_app.
Qed.

Lemma emits_ret {W A} (a : A) : emits (W := W) (mret a).
Proof. intros w s. exists []. cbn. rewrite app_nil_r. by split; [|constructor]. Qed.
Lemma emits_get {W} : emits (W := W) get.
Proof. intros w s. exists []. cbn. rewrite app_nil_r. by split; [|constructor]. Qed.
Lemma emits_modify {W} (f : W -> W) : emits (modify f).
Proof. intros w s. exists []. cbn. rewrite app_nil_r. by split; [|constructor]. Qed.
Lemma emits_lift {W A} (m : IO A) : iemits m -> emits (W := W) (lift m).
Proof. intros Hm w s. destruct (Hm s) as (e & H & HP). exists e. unfold lift. by destruct (m s). Qed.
Lemma emits_bind {W A B} (m : M W A) (f : A -> M W B) :
  emits m -> (forall a, emits (f a)) -> emits (m ≫= f).
Proof.
  intros Hm Hf w s. unfold mbind, M_bind. destruct (Hm w s) as (e1 & H1 & P1).
  destruct (m w s) as [[a w1] s1]. destruct (Hf a w1 s1) as (e2 & H2 & P2). exists (e1 ++ e2).
  cbn in H1. rewrite H2, H1, app_assoc. split; [done|]. by apply Forall_app.
Qed.
Lemma emits_zoom {W U A} (gt : W -> U) st (m : M U A) : emits m -> emits (zoom gt st m).
Proof.
  intros Hm w s. destruct (Hm (gt w) s) as (e & H & HP). exists e. unfold zoom. by destruct (m (gt w) s) as [[??]?].
Qed.
Lemma emits_on_aout {A} (f : audio_out -> IO (A * audio_out)) : (forall d, iemits (f d)) -> emits (on_aout f).
Proof.
  intros Hf w s. destruct (Hf (w_aout w) s) as (e & H & HP). exists e. unfold on_aout.
  by destruct (f (w_aout w) s) as [[??]?].
Qed.
End emits.

Create HintDb emits discriminated.
#[export] Hint Resolve iemits_ret iemits_ask iemits_fresh emits_ret emits_get emits_modify : emits.

(** Symbolic execution for [emits]. *)
Ltac emits_step :=
  lazymatch goal with
  | |- iemits _ (mbind _ _) => apply iemits_bind; [|intros ?]
  | |- iemits _ (emit _) => apply iemits_emit; cbn; try exact I
  | |- iemits _ (if ?b then _ else _) => let E := fresh "E" in destruct b eqn:E
  | |- iemits _ (match ?x with _ => _ end) => let E := fresh "E" in destruct x eqn:E
  | |- emits _ (mbind _ _) => apply emits_bind; [|intros ?]
  | |- emits _ (lift _) => apply emits_lift
  | |- emits _ (zoom _ _ _) => apply emits_zoom
  | |- emits _ (on_aout _) => apply emits_on_aout; intros ?
  | |- emits _ (if ?b then _ else _) => let E := fresh "E" in destruct b eqn:E
  | |- emits _ (match ?x with _ => _ end) => let E := fresh "E" in destruct x eqn:E
  | |- _ => solve [eauto with emits nocore]
  end.
Ltac emits_steps := repeat (emits_step; cbv zeta beta).

(** ** The files a request can open *)

(** A name that does not lead out of its directory. *)
Definition safe_name (name : bytes) : Prop :=
  find_sub (cstr "..") name = None /\ Forall (fun c => c <> 92) name /\ nth 0 name 0 <> 47.

(** The files opened, in order. *)
Definition opened (evs : list event) : list bytes :=
  omap (fun e => match e with FileOpen p => Some p | _ => None end) evs.
Definition no_open (e : event) : Prop := match e with FileOpen _ => False | _ => True end.

(** The file a request asks for: the API's addresses ask for none, the root
    asks for the start page, any other path for what follows its first
    character, of which the handler keeps 255. *)
Definition api_path (msg : http_msg) : bool :=
  is_path "/api/status" msg || is_path "/api/doorbell/status" msg || is_path "/api/nat" msg.
Definition wanted (msg : http_msg) : option bytes :=
  if negb (is_met "GET" msg) || api_path msg then None
  else if is_path "/" msg || is_path "/index.html" msg then Some (cstr "index.html")
  else if (1 <? length (hm_path msg))%nat then Some (cstring (take 255 (drop 1 (hm_path msg))))
  else None.

Lemma find_sub_single c l : find_sub [c] l = memchr l c.
Proof.
  induction l as [|x l IH]; [done|]. cbn. rewrite andb_true_r, (Z.eqb_sym c x). destruct (x =? c); [done|].
  by rewrite IH.
Qed.

Lemma forbidden_spec name : forbidden (cstring name) = false <-> safe_name (cstring name).
Proof.
  unfold forbidden, strstr, safe_name. rewrite cstring_idemp. split.
  - intros H. bool_hyps.
    destruct (find_sub (cstr "..") _); [discriminate|]. split; [done|]. split; [|done].
    change (cstr "\\") with [92] in *. rewrite find_sub_single in *.
    apply memchr_None. by destruct (memchr _ _).
  - intros (-> & H2 & H3). change (cstr "\\") with [92]. rewrite find_sub_single.
    assert (nth 0 (cstring name) 0 <> 92) as H4 by (destruct H2; cbn in *; done).
    apply memchr_None in H2. rewrite H2. cbn [orb].
    apply Z.eqb_neq in H3, H4. by rewrite H3, H4.
Qed.

Lemma snprintf_slash `{Env} size a b :
  (length a + 1 + length b <= size - 1)%nat ->
  snprintf_str size "%s/%s" [AStr a; AStr b] = a ++ [47] ++ b.
Proof.
  intros Hl. erewrite (snprintf_str_fits _ _ _ (flush_lit a ++ [47] :: flush_lit b ++ [])).
  - rewrite app_nil_r, concat_app. cbn [concat]. by rewrite !concat_flush_lit.
  - destruct a, b; vm_compute; reflexivity.
  - rewrite app_nil_r, concat_app. cbn [concat]. rewrite !concat_flush_lit. len_lia.
Qed.

Section files.
Context `{V : Env}.
Abbreviation safe := no_open.

Lemma mbuf_resize_emits mb n : iemits safe (mbuf_resize mb n).
Proof. unfold mbuf_resize. emits_steps. Qed.
Hint Resolve mbuf_resize_emits : emits.
Lemma mbuf_alloc_emits n : iemits safe (mbuf_alloc n).
Proof. unfold mbuf_alloc. emits_steps. Qed.
Lemma mbuf_write_mem_emits mb d : iemits safe (mbuf_write_mem mb d).
Proof. unfold mbuf_write_mem. emits_steps. Qed.
Hint Resolve mbuf_alloc_emits mbuf_write_mem_emits : emits.
Lemma mbuf_write_pieces_emits mb ps : iemits safe (mbuf_write_pieces mb ps).
Proof. revert mb. induction ps as [|p ps IH]; intros mb; cbn [mbuf_write_pieces]; emits_steps. Qed.
Hint Resolve mbuf_write_pieces_emits : emits.
Lemma mbuf_printf_emits mb fmt args : iemits safe (mbuf_printf mb fmt args).
Proof. unfold mbuf_printf. destruct (pieces fmt args). emits_steps. Qed.
Hint Resolve mbuf_printf_emits : emits.

Lemma http_reply_emits c r f args : iemits safe (http_reply c r f args).
Proof. unfold http_reply. emits_steps. Qed.
Hint Resolve http_reply_emits : emits.
Lemma http_creply_emits c r t f args : iemits safe (http_creply c r t f args).
Proof. unfold http_creply. emits_steps. Qed.
Hint Resolve http_creply_emits : emits.
Lemma http_ereply_emits c r : iemits safe (http_ereply c r).
Proof. apply http_creply_emits. Qed.
Hint Resolve http_ereply_emits : emits.
Lemma json_emits c r f args : emits safe (json c r f args).
Proof. unfold json. emits_steps. Qed.
Hint Resolve json_emits : emits.

Lemma camera_open_emits w h f b : emits safe (camera_open w h f b).
Proof. unfold camera_open. emits_steps. Qed.
Lemma camera_close_emits : emits safe camera_close.
Proof. unfold camera_close. emits_steps. Qed.
Hint Resolve camera_open_emits camera_close_emits : emits.
Lemma destructor_emits us : emits safe (session_destructor us).
Proof. unfold session_destructor, on_cam, audio_out_close. emits_steps. Qed.
Hint Resolve destructor_emits : emits.
Lemma session_alloc_emits peer : emits safe (session_alloc peer).
Proof. unfold session_alloc, on_cam, audio_out_open. emits_steps. Qed.
Hint Resolve session_alloc_emits : emits.
Lemma drop_session_emits : emits safe drop_session.
Proof. unfold drop_session, with_world. emits_steps. Qed.
Hint Resolve drop_session_emits : emits.

(** The handlers that open no file. *)
Lemma call_create_emits pton msg : emits safe (handle_call_create pton msg).
Proof. unfold handle_call_create, with_world. emits_steps. Qed.
Lemma api_emits :
  emits safe handle_status /\ emits safe handle_call_delete /\ emits safe handle_options
  /\ emits safe handle_doorbell_trigger /\ emits safe handle_doorbell_status
  /\ emits safe handle_nat_info /\ emits safe not_found.
Proof.
  unfold handle_status, handle_call_delete, handle_options, handle_doorbell_trigger, handle_doorbell_status,
    handle_nat_info, not_found. repeat split; emits_steps.
Qed.

(** Nothing opened. *)
Lemma no_open_opened evs : Forall no_open evs -> opened evs = [].
Proof. induction 1 as [|e l He Hl IH]; [done|]. destruct e; try done; exact IH. Qed.
Lemma emits_opened {W A} (m : M W A) w s :
  emits no_open m -> exists evs, out (snd (m w s)) = out s ++ evs /\ opened evs = [].
Proof. intros Hm. destruct (Hm w s) as (e & H & HP). exists e. split; [done|by apply no_open_opened]. Qed.

(** Static files. *)
Definition servable (www name : bytes) : Prop :=
  safe_name name /\ (length www + length name + 2 < 512)%nat.
Lemma serve_file_opens file name (a : app) s :
  exists evs, out (snd (serve_file file name a s)) = out s ++ evs /\
    ((servable (ap_www a) (cstring name) /\ opened evs = [ap_www a ++ [47] ++ cstring name])
     \/ (~ servable (ap_www a) (cstring name) /\ opened evs = [])).
Proof.
  unfold serve_file. unfold mbind at 1, M_bind at 1, get. cbv zeta. pose proof (forbidden_spec name) as Hf.
  destruct (forbidden (cstring name)) eqn:Ef.
  { match goal with |- exists evs, out (snd (?m a s)) = _ /\ _ =>
      destruct (emits_opened m a s) as (e & He & Ho); [emits_steps|] end.
    exists e. split; [done|]. right. split; [|done]. intros [Hs _]. by apply Hf in Hs. }
  destruct (512 <=? length (ap_www a) + length (cstring name) + 2)%nat eqn:El; bool_hyps.
  { match goal with |- exists evs, out (snd (?m a s)) = _ /\ _ =>
      destruct (emits_opened m a s) as (e & He & Ho); [emits_steps|] end.
    exists e. split; [done|]. right. split; [|done]. intros [_ Hs]. lia. }
  rewrite snprintf_slash by lia. set (path := ap_www a ++ [47] ++ cstring name).
  unfold mbind at 1, M_bind at 1, lift at 1, emit. cbv beta iota.
  match goal with |- exists evs, out (snd (?m a ?s')) = _ /\ _ =>
    destruct (emits_opened m a s') as (e & He & Ho); [emits_steps|] end.
  exists (FileOpen path :: e). cbn [out] in He. split.
  - rewrite He. by rewrite <- app_assoc.
  - left. split; [split; [by apply Hf|lia]|]. cbn. by f_equal.
Qed.
End files.

(** ** Theorems *)

(** C11. The files a request opens are determined by the request, and lie in
    the web directory: a GET request for a path that is not the API's opens the
    file named by the web directory, a slash and the path without its first
    character (cut to 255 characters; the start page for the root), when that
    name contains no two consecutive dots and no backslash, does not start with
    a slash, and fits the buffer of 512 characters with the directory;
    otherwise, and for every other request, it opens nothing. *)
Theorem files_inside_www `{V : Env} (file : bytes -> option (Z * bytes)) (pton : bytes -> option sa_addr)
    (msg : http_msg) (a : app) (s : sys) :
  exists evs, out (snd (http_req_handler file pton msg a s)) = out s ++ evs /\
    match wanted msg with
    | Some name =>
        (servable (ap_www a) name /\ opened evs = [ap_www a ++ [47] ++ name])
        \/ (~ servable (ap_www a) name /\ opened evs = [])
    | None => opened evs = []
    end.
Proof.
  unfold http_req_handler.
  assert (forall (m : M app unit) (P : list bytes -> Prop),
    (exists evs, out (snd (m a s)) = out s ++ evs /\ P (opened evs)) ->
    exists evs, out (snd ((m ;; lift (emit HttpConnClose)) a s)) = out s ++ evs /\ P (opened evs)) as Hclose.
  { intros m P (e & He & HP). exists (e ++ [HttpConnClose]). unfold mbind, M_bind.
    destruct (m a s) as [[x a'] s']. cbn in *. rewrite He, app_assoc. split; [done|].
    unfold opened in *. rewrite omap_app. cbn. by rewrite app_nil_r. }
  apply (Hclose _ (fun l => match wanted msg with
    | Some name => (servable (ap_www a) name /\ l = [ap_www a ++ [47] ++ name])
                   \/ (~ servable (ap_www a) name /\ l = [])
    | None => l = [] end)). clear Hclose.
  assert (forall name, exists evs, out (snd ((_ ← serve_file file name; mret tt) a s)) = out s ++ evs /\
    ((servable (ap_www a) (cstring name) /\ opened evs = [ap_www a ++ [47] ++ cstring name])
     \/ (~ servable (ap_www a) (cstring name) /\ opened evs = []))) as Hs.
  { intros name. destruct (serve_file_opens file name a s) as (e & He & HP). exists e.
    unfold mbind, M_bind. by destruct (serve_file file name a s) as [[??]?]. }
  destruct api_emits as (H1 & H2 & H3 & H4 & H5 & H6 & H7).
  pose proof (call_create_emits pton msg) as H8.
  assert (is_met "GET" msg = true -> is_met "OPTIONS" msg = false /\ is_met "POST" msg = false
    /\ is_met "DELETE" msg = false) as Hget.
  { unfold is_met. intros H. apply bytes_eqb_eq in H. rewrite H. done. }
  unfold wanted, api_path. destruct (is_met "GET" msg) eqn:Eg; cbn [negb orb andb].
  2: { repeat case_if; by apply emits_opened. }
  destruct (Hget eq_refl) as (-> & -> & ->). cbn [andb].
  destruct (is_path "/api/status" msg); cbn [orb]; [by apply emits_opened|].
  destruct (is_path "/api/doorbell/status" msg); cbn [orb]; [by apply emits_opened|].
  destruct (is_path "/api/nat" msg); [by apply emits_opened|].
  destruct (is_path "/" msg || is_path "/index.html" msg); [apply Hs|].
  destruct (1 <? length (hm_path msg))%nat eqn:E1; [|by apply emits_opened]. bool_hyps.
  replace (take 255 (drop 1 (hm_path msg))) with
    (take (if (256 <=? length (hm_path msg) - 1)%nat then 255 else length (hm_path msg) - 1)%nat
      (drop 1 (hm_path msg))); [apply Hs|].
  destruct (256 <=? _)%nat eqn:E2; bool_hyps; [done|]. rewrite !take_ge by len_lia. done.
Qed.

(** ** The doorbell

    The promise: a ring is accepted unless one was accepted less than five
    seconds before, and an accepted ring is reported to exactly one poll. *)
Record bell := Bell { b_pending : bool; b_last : option Z }.
Inductive bell_op := Ring (now : Z) | Poll.
Inductive bell_reply := Accepted | Limited | Ringing (b : bool).

Definition bell_step (b : bell) (op : bell_op) : bell * bell_reply :=
  match op with
  | Ring now =>
      if match b_last b with Some t => now - t <? DOORBELL_MIN_INTERVAL_MS | None => false end
      then (b, Limited) else (Bell true (Some now), Accepted)
  | Poll => (Bell false (b_last b), Ringing (b_pending b))
  end.

Definition bell_of (a : app) : bell :=
  Bell (ap_pending a) (if ap_timestamp a =? 0 then None else Some (ap_timestamp a)).

(** The status line and the body of a reply. *)
Definition reply_is (r : bell_reply) (e : event) : Prop :=
  match r with
  | Accepted => exists h, e = HttpReply 200 (h ++ cstr "{\qstatus\q:\qok\q}")
  | Limited => exists h, e = HttpReply 429 (h ++ cstr "{\qerror\q:\qrate limited\q}")
  | Ringing true => exists h, e = HttpReply 200 (h ++ cstr "{\qringing\q:true}")
  | Ringing false => exists h, e = HttpReply 200 (h ++ cstr "{\qringing\q:false}")
  end.

(** A reply without arguments: the text is the format. *)
Lemma json_sends `{V : Env} code reason fmt (a : app) s :
  AllocOk V -> pieces (JSON_HEADERS ++ fmt)%string [] = ([cstr (JSON_HEADERS ++ fmt)], true) ->
  (exists r, pieces "HTTP/1.1 %u %s\r\n" [ANum code; AStr (cstr reason)] = (r, true)) ->
  exists h s', json code reason fmt [] a s = (tt, a, s')
    /\ out s' = out s ++ [HttpReply code (h ++ cstr (JSON_HEADERS ++ fmt))].
Proof.
  intros Ha Hp [r Hr]. unfold json, http_reply.
  pose proof (mbuf_alloc_spec (Z.to_nat 8192) s) as Hal. unfold iwp in Hal.
  unfold mbind at 1, M_bind at 1, lift at 1. unfold mbind at 1, IO_bind at 1.
  destruct (mbuf_alloc (Z.to_nat 8192) s) as [[mb|] s1]; destruct Hal as [Ho Hal]; [|done].
  destruct Hal as [Hh _]. unfold mbuf_printf. rewrite Hr, Hp.
  pose proof (mbuf_write_pieces_spec mb [] r s1 Hh) as H1. unfold iwp in H1.
  unfold mbind, IO_bind, mret, IO_ret. destruct (mbuf_write_pieces mb r s1) as [[e1 mb1] s2].
  destruct H1 as [Ho1 [[-> Hh1]|(_ & _ & Hno)]]; [|done].
  pose proof (mbuf_write_pieces_spec mb1 _ [cstr (JSON_HEADERS ++ fmt)] s2 Hh1) as H2. unfold iwp in H2.
  destruct (mbuf_write_pieces mb1 _ s2) as [[e2 mb2] s3].
  destruct H2 as [Ho2 [[-> Hh2]|(_ & _ & Hno)]]; [|done].
  cbn [Z.eqb andb negb Z.lor]. unfold emit, ask. cbn [tick out].
  eexists _, _. split; [reflexivity|]. cbn [out]. rewrite (mbuf_buf_holds _ _ Hh2), Ho2, Ho1, Ho.
  cbn. by rewrite !app_nil_r.
Qed.

Lemma json_bell `{V : Env} code reason fmt (a : app) s :
  AllocOk V -> pieces (JSON_HEADERS ++ fmt)%string [] = ([cstr (JSON_HEADERS ++ fmt)], true) ->
  (exists r, pieces "HTTP/1.1 %u %s\r\n" [ANum code; AStr (cstr reason)] = (r, true)) ->
  cstr (JSON_HEADERS ++ fmt) = cstr JSON_HEADERS ++ cstr fmt ->
  exists s' h, json code reason fmt [] a s = (tt, a, s') /\ out s' = out s ++ [HttpReply code (h ++ cstr fmt)].
Proof.
  intros Ha Hp Hr Hf. destruct (json_sends code reason fmt a s Ha Hp Hr) as (h & s' & -> & Ho).
  exists s', (h ++ cstr JSON_HEADERS). split; [done|]. by rewrite Ho, Hf, app_assoc.
Qed.

(** The two doorbell requests implement the promise: with a clock that has
    started and does not run backwards, a trigger and a poll change the doorbell
    exactly as specified and send exactly the specified reply. *)
Theorem doorbell_refines `{V : Env} (a : app) (s : sys) :
  AllocOk V -> 0 <= ap_timestamp a <= env QClock (tick s) -> 0 < env QClock (tick s) < 2 ^ 64 ->
  (let '(_, a', s') := handle_doorbell_trigger a s in
   let '(b, r) := bell_step (bell_of a) (Ring (env QClock (tick s))) in
   bell_of a' = b /\ exists e, out s' = out s ++ [e] /\ reply_is r e)
  /\ (let '(_, a', s') := handle_doorbell_status a s in
      let '(b, r) := bell_step (bell_of a) Poll in
      bell_of a' = b /\ exists e, out s' = out s ++ [e] /\ reply_is r e).
Proof.
  intros Ha Ht Hc. split.
  - unfold handle_doorbell_trigger. unfold mbind at 1, M_bind at 1, lift, ask.
    unfold mbind at 1, M_bind at 1, get. set (s1 := Sys _ _). set (now := env QClock (tick s)) in *.
    assert (ring_limited (ap_timestamp a) now
      = match b_last (bell_of a) with Some t => now - t <? DOORBELL_MIN_INTERVAL_MS | None => false end) as Hl.
    { unfold ring_limited, bell_of. cbn. destruct (ap_timestamp a =? 0) eqn:E; bool_hyps.
      - destruct (0 <? ap_timestamp a) eqn:E2; bool_hyps; [lia|done].
      - destruct (0 <? ap_timestamp a) eqn:E2; bool_hyps; [|lia]. cbn. unfold u64. rewrite Z.mod_small by lia. done. }
    rewrite Hl. cbn [bell_step]. destruct (match b_last (bell_of a) with Some t => _ | None => _ end).
    + destruct (json_bell 429 "Too Many Requests" "{\qerror\q:\qrate limited\q}" a s1 Ha) as (s' & h & -> & Ho);
        [by vm_compute|eexists; vm_compute; reflexivity|by vm_compute|].
      split; [done|]. eexists. split; [exact Ho|]. by exists h.
    + unfold mbind at 1, M_bind at 1, modify. set (a1 := set_bell true now a).
      destruct (json_bell 200 "OK" "{\qstatus\q:\qok\q}" a1 s1 Ha) as (s' & h & -> & Ho);
        [by vm_compute|eexists; vm_compute; reflexivity|by vm_compute|].
      split; [|eexists; split; [exact Ho|]; by exists h].
      unfold bell_of. cbn. destruct (now =? 0) eqn:E; bool_hyps; [lia|done].
  - unfold handle_doorbell_status. unfold mbind at 1, M_bind at 1, get. cbn [bell_step].
    unfold bell_of at 2 3. cbn [b_pending b_last]. destruct (ap_pending a) eqn:Ep.
    + unfold mbind at 1, M_bind at 1, modify. set (a1 := set_bell false (ap_timestamp a) a).
      destruct (json_bell 200 "OK" "{\qringing\q:true}" a1 s Ha) as (s' & h & -> & Ho);
        [by vm_compute|eexists; vm_compute; reflexivity|by vm_compute|].
      split; [done|]. eexists; split; [exact Ho|]; by exists h.
    + destruct (json_bell 200 "OK" "{\qringing\q:false}" a s Ha) as (s' & h & -> & Ho);
        [by vm_compute|eexists; vm_compute; reflexivity|by vm_compute|].
      split; [unfold bell_of; by rewrite Ep|]. eexists; split; [exact Ho|]; by exists h.
Qed.

Definition demo_app : app :=
  App demo_two None (cstr "/srv/www") false 0 relay_zero stun_zero (Some 1%nat).

(** A clock that reads 7000 ms and later. *)
Definition clock_env : Env := {|
  env q n := match q with QAlloc => 1 | QClock => 7000 + Z.of_nat n | _ => 0 end;
  env_encode := @env_encode good_env;
  env_md5 := @env_md5 good_env;
  env_atoi_overflow := @env_atoi_overflow good_env;
  env_ntop := @env_ntop good_env;
  env_uninit := @env_uninit good_env
|}.

Lemma doorbell_refines_witness :
  ap_pending (snd (fst (@handle_doorbell_trigger clock_env demo_app (Sys 0 [])))) = true.
Proof.
  assert (AllocOk clock_env) as Ha by (intros n; discriminate).
  destruct (@doorbell_refines clock_env demo_app (Sys 0 []) Ha) as [H _]; [cbn; lia|cbn; lia|].
  destruct (handle_doorbell_trigger _ _) as [[u a'] s']. cbn [bell_step] in H.
  destruct H as [H _]. apply (f_equal b_pending) in H. exact H.
Defined.

(** Over any sequence of operations: consecutive accepted rings are at least
    five seconds apart, and no ring is reported twice. *)
Fixpoint bell_run (b : bell) (ops : list bell_op) : list (bell_op * bell_reply) :=
  match ops with
  | [] => []
  | op :: t => let '(b', r) := bell_step b op in (op, r) :: bell_run b' t
  end.
Fixpoint accepted (l : list (bell_op * bell_reply)) : list Z :=
  match l with
  | (Ring now, Accepted) :: t => now :: accepted t
  | _ :: t => accepted t
  | [] => []
  end.
Definition reported (l : list (bell_op * bell_reply)) : nat :=
  length (List.filter (fun x => match snd x with Ringing true => true | _ => false end) l).

Fixpoint spaced (last : option Z) (l : list Z) : Prop :=
  match l with
  | [] => True
  | t :: l' => match last with Some x => DOORBELL_MIN_INTERVAL_MS <= t - x | None => True end /\ spaced (Some t) l'
  end.

Lemma bell_run_spec b ops :
  spaced (b_last b) (accepted (bell_run b ops))
  /\ (reported (bell_run b ops) <= length (accepted (bell_run b ops)) + (if b_pending b then 1 else 0))%nat.
Proof.
  revert b. induction ops as [|[now|] ops IH]; intros b; cbn [bell_run bell_step]; [cbn; lia|..].
  - destruct (match b_last b with Some t => now - t <? DOORBELL_MIN_INTERVAL_MS | None => false end) eqn:E.
    + destruct (IH b) as [H1 H2]. split; [exact H1|]. unfold reported in *. cbn in *. exact H2.
    + destruct (IH (Bell true (Some now))) as [H1 H2]. cbn [accepted spaced length] in *. split.
      * split; [|exact H1]. destruct (b_last b); [|done]. by bool_hyps.
      * unfold reported in *. cbn in *. lia.
  - destruct (IH (Bell false (b_last b))) as [H1 H2]. cbn [accepted] in *. split; [exact H1|].
    unfold reported in *. cbn in *. destruct (b_pending b); cbn in *; lia.
Qed.

(** ** Calls *)
Definition peer_body (text : bytes) : bytes := cstr "{\qpeer\q:\q" ++ text ++ cstr "\q}".

Lemma peer_text_json met path text behind c t :
  text = c :: t -> peer_skip c = false -> Forall (fun x => x <> 0 /\ x <> 34) text -> (length text < 64)%nat ->
  peer_text (HttpMsg met path (peer_body text) behind) = text.
Proof.
  intros Ht Hc Hall Hl. unfold peer_text. cbn [hm_body hm_behind].
  destruct (peer_body text) as [|b0 body] eqn:Eb; [done|]. rewrite <- Eb. clear Eb b0 body.
  set (mem := peer_body text ++ behind).
  assert (mem = cstr "{\qpeer\q:\q" ++ (text ++ cstr "\q}" ++ behind)) as Hmem
    by (unfold mem, peer_body; by rewrite <- !app_assoc).
  assert (strstr mem (cstr "\qpeer\q") = Some 1%nat) as ->.
  { unfold strstr. rewrite Hmem, cstring_app_nul by done. by apply find_sub_app. }
  assert (drop (1 + 6) mem = [58; 34] ++ text ++ [34; 125] ++ behind) as -> by by rewrite Hmem.
  set (inner := [58; 34] ++ text ++ [34; 125]).
  assert (length (peer_body text) - (1 + 6) = length inner)%nat as ->.
  { unfold peer_body, inner. rewrite !length_app. cbn. lia. }
  subst inner.
  assert ([58; 34] ++ text ++ [34; 125] ++ behind = ([58; 34] ++ text ++ [34; 125]) ++ behind) as Happ
    by by rewrite <- !app_assoc.
  rewrite Happ, take_app_length, <- Happ.
  assert (skip_while peer_skip ([58; 34] ++ text ++ [34; 125]) = text ++ [34; 125]) as ->.
  { subst text. cbn. by rewrite Hc. }
  rewrite !length_app. cbn [length].
  replace (2 + (length text + 2) - (length text + 2))%nat with 2%nat by lia.
  change (drop 2 ([58; 34] ++ text ++ [34; 125] ++ behind)) with (text ++ [34; 125] ++ behind).
  assert (strchr (text ++ [34; 125] ++ behind) 34 = Some (length text)) as ->.
  { unfold strchr. rewrite cstring_app_nul.
    - rewrite memchr_app_None; [cbn; f_equal; lia|]. apply memchr_None.
      eapply Forall_impl; [|exact Hall]. cbn. tauto.
    - apply cstring_no_nul. eapply Forall_impl; [|exact Hall]. cbn. tauto. }
  destruct (length text <? 64)%nat eqn:E; bool_hyps; [|lia]. apply take_app_length.
Qed.

Lemma sa_decode_print pton addr ip port c t :
  addr = c :: t -> c <> 91 -> Forall (fun x => x <> 58) addr -> pton addr = Some ip -> 0 <= port < 65536 ->
  sa_decode pton (addr ++ [58] ++ local_itoa port 10 false) = Some (SA ip port).
Proof.
  intros Ha Hc Hall Hp Hr. unfold sa_decode.
  destruct (local_itoa_spec port ltac:(lia)) as (Hne & Hdig & Hval).
  assert (addr_part (addr ++ [58] ++ local_itoa port 10 false) = Some (addr, length addr)) as ->.
  { assert (memchr (addr ++ [58] ++ local_itoa port 10 false) 58 = Some (length addr)) as Hm.
    { rewrite memchr_app_None by by apply memchr_None. cbn. f_equal. lia. }
    unfold addr_part. rewrite Hm, take_app_length. subst addr. cbn [Datatypes.app].
    destruct c as [|q|q]; [done| |done]. do 7 (destruct q as [q|q|]; try done). }
  destruct (local_itoa port 10 false) as [|d ds] eqn:Ed; [done|]. rewrite <- Ed in *.
  assert (1 <= length (local_itoa port 10 false))%nat by (rewrite Ed; cbn; lia).
  destruct (_ <? _)%nat eqn:E; bool_hyps; [revert E; rewrite !length_app; cbn [length]; lia|].
  rewrite app_nth2, Nat.sub_diag by lia. cbn [nth Datatypes.app Z.eqb Pos.eqb negb]. rewrite Hp.
  change (addr ++ 58 :: local_itoa port 10 false) with (addr ++ [58] ++ local_itoa port 10 false).
  rewrite app_assoc, drop_app_length' by (rewrite length_app; cbn; lia).
  unfold pl_u32. assert (forallb isdigit (local_itoa port 10 false) = true) as ->.
  { apply forallb_forall. by apply List.Forall_forall. }
  rewrite Hval, u32_small, u16_small by lia. done.
Qed.

(** The reply functions do not touch the state. *)
Definition same_app {A} (m : M app A) : Prop := forall a s, snd (fst (m a s)) = a.
Lemma same_lift {A} (m : IO A) : same_app (lift m).
Proof. intros a s. unfold lift. by destruct (m s). Qed.
Lemma same_bind {A B} (m : M app A) (f : A -> M app B) :
  same_app m -> (forall x, same_app (f x)) -> same_app (m ≫= f).
Proof.
  intros Hm Hf a s. unfold mbind, M_bind. pose proof (Hm a s) as H1. destruct (m a s) as [[x a1] s1].
  cbn in H1. subst a1. apply Hf.
Qed.
Lemma same_ret {A} (x : A) : same_app (mret x).
Proof. by intros a s. Qed.
Lemma same_json `{V : Env} c r f args : same_app (json c r f args).
Proof. apply same_bind; [apply same_lift|]. intros. apply same_ret. Qed.
Lemma same_reply {A} (m : IO A) : same_app (_ ← lift m; mret tt).
Proof. apply same_bind; [apply same_lift|]. intros. apply same_ret. Qed.

Lemma drop_session_none (a : app) s : ap_sess (snd (fst (drop_session a s))) = None.
Proof.
  unfold drop_session, mbind, M_bind, get. destruct (ap_sess a) as [x|] eqn:E; [|done].
  unfold with_world, zoom, modify. cbn. by destruct (session_destructor (ss_us x) (ap_world a) s) as [[[] w] s1].
Qed.

(** A session that was allocated has the peer it was asked for. *)
Lemma session_alloc_peer `{V : Env} peer w s :
  wp (session_alloc peer) (fun r _ _ => match snd r with
    | Some x => fst r = 0 /\ ss_peer x = peer /\ ss_active x = true | None => True end) w s.
Proof.
  unfold session_alloc. apply wp_bind, wp_lift, iwp_ask. destruct (_ =? 0); [by apply wp_ret|].
  apply wp_bind, wp_lift, iwp_ask, wp_bind, wp_lift, iwp_ask, wp_bind.
  unfold wp at 1. destruct (on_cam _ w _) as [[err w1] s1]. destruct (negb _).
  { apply wp_bind. unfold wp at 1. by destruct (session_destructor None w1 s1) as [[[] w2] s2]. }
  apply wp_bind. unfold wp at 1. destruct (on_aout _ w1 s1) as [[e w2] s2].
  apply wp_bind, wp_lift, iwp_ask. destruct (negb _).
  { apply wp_bind. unfold wp at 1. by destruct (session_destructor None w2 _) as [[[] w3] s3]. }
  apply wp_bind, wp_lift, iwp_fresh, wp_bind, wp_lift, iwp_ask. by apply wp_ret.
Qed.

(** A call goes to the peer it names: for a request whose JSON body names an
    address and port, any earlier session is dropped, the session layer is asked
    for a session with exactly that address and port, and what it answers is the
    session that exists afterwards, active and sending there, or none. *)
Theorem call_connects_to_peer `{V : Env} (pton : bytes -> option sa_addr) (met path behind addr : bytes)
    (ip : sa_addr) (port : Z) (a : app) (s : sys) :
  pton addr = Some ip -> 0 <= port < 65536 -> addr <> [] -> (length addr <= 50)%nat ->
  Forall (fun x => isdigit x = true \/ x = 46) addr ->
  let text := addr ++ [58] ++ local_itoa port 10 false in
  let '(_, a', _) := handle_call_create pton (HttpMsg met path (peer_body text) behind) a s in
  let '(_, a1, s1) := drop_session a s in
  let '(_, o, _, _) := session_alloc (SA ip port) (ap_world a1) s1 in
  ap_sess a' = o
  /\ match o with Some x => ss_peer x = SA ip port /\ ss_active x = true | None => True end.
Proof.
  intros Hp Hr Hne Hl Hd text. unfold handle_call_create.
  unfold mbind at 1, M_bind at 1. pose proof (drop_session_none a s) as Hdrop.
  destruct (drop_session a s) as [[u a1] s1]. cbn in Hdrop.
  assert (Forall (fun x => x <> 0 /\ x <> 34 /\ x <> 58 /\ x <> 91 /\ peer_skip x = false) addr) as Haddr.
  { eapply Forall_impl; [|exact Hd]. intros x Hx. unfold isdigit, peer_skip in *. lia. }
  assert (exists c t, addr = c :: t) as (c & t & Ea) by (destruct addr; [done|eauto]).
  assert (In c addr) as Hc by (rewrite Ea; by left).
  pose proof (proj1 (List.Forall_forall _ _) Haddr c Hc) as (_ & _ & _ & Hc1 & Hc2).
  pose proof (port_digits port Hr) as Hpd. destruct (local_itoa_spec port ltac:(lia)) as (_ & Hdig & _).
  assert (peer_text (HttpMsg met path (peer_body text) behind) = text) as ->.
  { apply (peer_text_json met path text behind c (t ++ [58] ++ local_itoa port 10 false)).
    - unfold text. by rewrite Ea.
    - done.
    - unfold text. rewrite !Forall_app. repeat split.
      + eapply Forall_impl; [|exact Haddr]. cbn. tauto.
      + by repeat constructor.
      + eapply Forall_impl; [|exact Hdig]. intros x Hx. unfold isdigit in Hx. lia.
    - unfold text. rewrite !length_app. cbn [length]. lia. }
  assert (match text with [] => str_ncpy (cstr "127.0.0.1:5006") 64 | _ => text end = text) as ->
    by (unfold text; by rewrite Ea).
  unfold text. rewrite (sa_decode_print pton addr ip port c t Ea Hc1); [| |done|done].
  2: { eapply Forall_impl; [|exact Haddr]. cbn. tauto. }
  unfold mbind at 1, M_bind at 1, with_world, zoom.
  pose proof (session_alloc_peer (SA ip port) (ap_world a1) s1) as Hs. unfold wp in Hs.
  destruct (session_alloc (SA ip port) (ap_world a1) s1) as [[[err o] w1] s2]. cbn [snd] in Hs.
  assert (forall (m : M app unit) a0 s0, same_app m -> ap_sess a0 = o ->
    let '(_, a', _) := m a0 s0 in ap_sess a' = o
      /\ match o with Some x => ss_peer x = SA ip port /\ ss_active x = true | None => True end) as Hsame.
  { intros m a0 s0 Hm Ha0. specialize (Hm a0 s0). destruct (m a0 s0) as [[? a'] ?]. cbn in Hm. subst a'.
    split; [done|]. destruct o; [|done]. tauto. }
  destruct o as [x|].
  - destruct Hs as (He & _). cbn in He. rewrite He. cbn [Z.eqb negb].
    unfold mbind at 1, M_bind at 1, modify. by apply Hsame; [apply same_json|].
  - apply Hsame; [apply same_reply|]. cbn. by rewrite Hdrop.
Qed.

Lemma call_connects_to_peer_witness :
  let pton := fun t => if bytes_eqb t (cstr "10.0.0.2") then Some (AF_INET 0x0a000002) else None in
  let '(_, a', _) := @handle_call_create good_env pton
    (HttpMsg (cstr "POST") (cstr "/api/call") (peer_body (cstr "10.0.0.2" ++ [58] ++ local_itoa 5006 10 false)) [])
    (set_world (demo_world [] demo_auth) demo_app) (Sys 0 []) in
  option_map ss_peer (ap_sess a') = Some (SA (AF_INET 0x0a000002) 5006).
Proof.
  cbv zeta.
  pose proof (@call_connects_to_peer good_env
    (fun t => if bytes_eqb t (cstr "10.0.0.2") then Some (AF_INET 0x0a000002) else None)
    (cstr "POST") (cstr "/api/call") [] (cstr "10.0.0.2") (AF_INET 0x0a000002) 5006
    (set_world (demo_world [] demo_auth) demo_app) (Sys 0 []) eq_refl ltac:(lia) ltac:(discriminate)
    ltac:(vm_compute; lia)) as H.
  cbv zeta in H. destruct (handle_call_create _ _ _ _) as [[u a'] s'].
  destruct H as [H1 H2].
  - repeat (constructor; [first [left; reflexivity | right; reflexivity]|]). constructor.
  - rewrite H1. reflexivity.
Defined.
