(* ===== verification/Sa.v ===== *)
(** * Socket addresses (libre [src/sa/sa.c])

    The rest of the operations on the addresses of [Sys]: setting, classifying,
    comparing, hashing, and the text form.  [inet_pton] and [inet_ntop] are
    parameters.  UNIX sockets and scope identifiers are left out. *)
From S2P Require Import Prelude Sys Fmt HttpServer Pl HttpProofs.
From stdpp Require Import list.
Local Open Scope Z_scope.

Definition SA_ADDR : Z := 1.
Definition SA_PORT : Z := 2.
Definition SA_ALL : Z := Z.lor SA_ADDR SA_PORT.
Definition flag_set (flag bit : Z) : bool := negb (Z.land flag bit =? 0).

Inductive af := UNSPEC | INET | INET6.
Definition sa_af (a : sa) : af := match sa_ip a with AF_UNSPEC => UNSPEC | AF_INET _ => INET | AF_INET6 _ => INET6 end.
Definition sa_init (f : af) : sa := SA (match f with UNSPEC => AF_UNSPEC | INET => AF_INET 0 | INET6 => AF_INET6 (replicate 16 0) end) 0.
Definition sa_set_in (addr port : Z) : sa := SA (AF_INET (u32 addr)) (u16 port).
Definition sa_set_in6 (addr : bytes) (port : Z) : sa := SA (AF_INET6 (take 16 addr)) (u16 port).
Definition sa_isset (a : sa) (flag : Z) : bool :=
  match sa_ip a with
  | AF_INET v => negb (flag_set flag SA_ADDR && (v =? 0)) && negb (flag_set flag SA_PORT && (sa_port a =? 0))
  | AF_INET6 v => negb (flag_set flag SA_ADDR && bytes_eqb v (replicate 16 0)) && negb (flag_set flag SA_PORT && (sa_port a =? 0))
  | AF_UNSPEC => false
  end.

(** The four words of an IPv6 address in memory. *)
Definition word6 (a : bytes) (i : nat) : Z := nth (4 * i) a 0 + 256 * nth (4 * i + 1) a 0 + 65536 * nth (4 * i + 2) a 0 + 16777216 * nth (4 * i + 3) a 0.
Definition sa_hash (a : sa) (flag : Z) : Z :=
  match sa_ip a with
  | AF_INET v => u32 (u32 (if flag_set flag SA_ADDR then v else 0) + (if flag_set flag SA_PORT then sa_port a else 0))
  | AF_INET6 v =>
      u32 (u32 (if flag_set flag SA_ADDR then Z.lxor (Z.lxor (Z.lxor (word6 v 0) (word6 v 1)) (word6 v 2)) (word6 v 3) else 0)
           + (if flag_set flag SA_PORT then sa_port a else 0))
  | AF_UNSPEC => 0
  end.
(** [same]: the two pointers are equal. *)
Definition sa_cmp (same : bool) (l r : sa) (flag : Z) : bool :=
  if same then true
  else
    match sa_ip l, sa_ip r with
    | AF_INET v, AF_INET v' => negb (flag_set flag SA_ADDR && negb (v =? v')) && negb (flag_set flag SA_PORT && negb (sa_port l =? sa_port r))
    | AF_INET6 v, AF_INET6 v' => negb (flag_set flag SA_ADDR && negb (bytes_eqb v v')) && negb (flag_set flag SA_PORT && negb (sa_port l =? sa_port r))
    | _, _ => false
    end.

Definition sa_is_linklocal (a : sa) : bool :=
  match sa_ip a with
  | AF_INET v => Z.land v 0xffff0000 =? 0xa9fe0000
  | AF_INET6 v => (nth 0 v 0 =? 0xfe) && (Z.land (nth 1 v 0) 0xc0 =? 0x80)
  | AF_UNSPEC => false
  end.
Definition sa_is_multicast (a : sa) : bool :=
  match sa_ip a with
  | AF_INET v => Z.land v 0xf0000000 =? 0xe0000000
  | AF_INET6 v => nth 0 v 0 =? 0xff
  | AF_UNSPEC => false
  end.
Definition sa_is_any (a : sa) : bool :=
  match sa_ip a with AF_INET v => v =? 0 | AF_INET6 v => bytes_eqb v (replicate 16 0) | AF_UNSPEC => false end.

(** What the functions keep: numbers of their width, 16 octets. *)
Definition ip_wf (ip : sa_addr) : Prop :=
  match ip with AF_INET v => 0 <= v < 4294967296 | AF_INET6 v => length v = 16%nat /\ Forall is_byte v | AF_UNSPEC => False end.
Definition sa_wf (a : sa) : Prop := 0 <= sa_port a < 65536 /\ ip_wf (sa_ip a).

(** ** Comparing *)
Lemma sa_cmp_fields l r flag : sa_cmp false l r flag = true <->
  sa_af l = sa_af r /\ sa_af l <> UNSPEC /\ (flag_set flag SA_ADDR = true -> sa_ip l = sa_ip r) /\ (flag_set flag SA_PORT = true -> sa_port l = sa_port r).
Proof.
  unfold sa_cmp, sa_af, bytes_eqb. destruct (sa_ip l) as [|v|v], (sa_ip r) as [|v'|v']; try (split; [done|]; intros (? & ? & _); done);
    rewrite andb_true_iff, !negb_true_iff, !andb_false_iff, !negb_false_iff, Z.eqb_eq, ?Z.eqb_eq, ?bool_decide_eq_true;
    destruct (flag_set flag SA_ADDR), (flag_set flag SA_PORT); intuition congruence.
Qed.
Lemma sa_cmp_hash l r flag : sa_cmp false l r flag = true -> sa_hash l flag = sa_hash r flag.
Proof.
  intros H. apply sa_cmp_fields in H as (Ha & Hn & H1 & H2). unfold sa_hash, sa_af in *.
  destruct (flag_set flag SA_ADDR), (flag_set flag SA_PORT), (sa_ip l), (sa_ip r); try done; rewrite ?(H2 eq_refl); try done; by injection (H1 eq_refl) as ->.
Qed.

(** ** The text form *)
Section text.
Context `{V : Env} (inet_pton : bytes -> option sa_addr).
(** The documented agreement of [inet_ntop] and [inet_pton], and which characters
    the texts have: neither colon nor bracket in an IPv4 address, no closing
    bracket in an IPv6 address. *)
Class InetText := {
  ntop_some : forall ip, ip_wf ip -> exists t, env_ntop ip = Some t /\ t <> [] /\ inet_pton t = Some ip;
  ntop4 : forall v t, ip_wf (AF_INET v) -> env_ntop (AF_INET v) = Some t -> Forall (fun c => c <> 58 /\ c <> 91) t;
  ntop6 : forall v t, ip_wf (AF_INET6 v) -> env_ntop (AF_INET6 v) = Some t -> Forall (fun c => c <> 93) t
}.
Context `{HT : InetText}.

Lemma sa_decode_bracket t ip port : Forall (fun c => c <> 93) t -> inet_pton t = Some ip -> 0 <= port < 65536 ->
  sa_decode inet_pton ([91] ++ t ++ [93; 58] ++ local_itoa port 10 false) = Some (SA ip port).
Proof.
  intros Ht Hp Hr. destruct (local_itoa_spec port ltac:(lia)) as (Hne & Hdig & Hval). set (ds := local_itoa port 10 false) in *.
  unfold sa_decode, addr_part. cbn [Datatypes.app].
  assert (memchr (91 :: t ++ 93 :: 58 :: ds) 93 = Some (S (length t))) as ->.
  { cbn [memchr]. change (91 =? 93) with false. cbn iota. rewrite memchr_app_None by (by apply memchr_None). cbn. f_equal. lia. }
  replace (S (length t) - 1)%nat with (length t) by lia. change (drop 1 (91 :: t ++ 93 :: 58 :: ds)) with (t ++ 93 :: 58 :: ds). rewrite take_app_length.
  assert (1 <= length ds)%nat as L by (destruct ds; [done|cbn; lia]).
  destruct (Nat.ltb_spec (length (91 :: t ++ 93 :: 58 :: ds)) (S (S (length t)) + 2)) as [Hl|_]; [cbn [length] in Hl; rewrite length_app in Hl; cbn [length] in Hl; lia|].
  assert (nth (S (S (length t))) (91 :: t ++ 93 :: 58 :: ds) 0 = 58) as ->.
  { cbn [nth]. rewrite app_nth2 by lia. by replace (S (length t) - length t)%nat with 1%nat by lia. }
  change (58 =? 58) with true. cbn [negb]. rewrite Hp.
  assert (drop (S (S (length t)) + 1) (91 :: t ++ 93 :: 58 :: ds) = ds) as ->.
  { replace (S (S (length t)) + 1)%nat with (S (length t + 2)) by lia. cbn [drop skipn]. rewrite drop_app_ge by lia. by replace (length t + 2 - length t)%nat with 2%nat by lia. }
  unfold pl_u32. assert (forallb isdigit ds = true) as -> by (apply forallb_forall; by apply List.Forall_forall).
  rewrite Hval, u32_small, u16_small by lia. done.
Qed.

(** Addresses survive their text form and the comparison is sound.  What [%J]
    prints of any IPv4 or IPv6 address with its port is decoded by [sa_decode] to
    the same address; two addresses that compare equal in the fields asked for
    have the same family and the same hash, and with all fields they are equal. *)
Theorem sa_text_roundtrip (a b : sa) (flag : Z) :
  sa_wf a ->
  sa_decode inet_pton (concat (conv_sa true a 0 32 false)) = Some a
  /\ (sa_cmp false a b flag = true -> sa_af a = sa_af b /\ sa_hash a flag = sa_hash b flag)
  /\ (sa_cmp false a b SA_ALL = true <-> a = b).
Proof.
  intros [Hp Hip]. split; [|split].
  - destruct a as [ip port]. cbn [sa_ip sa_port] in *. destruct (ntop_some ip Hip) as (t & Et & Ht & Hpt). unfold conv_sa. cbn [sa_ip sa_port]. rewrite Et.
    assert (concat (conv_num 10 false port 0 32 false) = local_itoa port 10 false) as En by apply concat_write_padded.
    destruct ip as [|v|v]; [done|..]; cbn [andb]; rewrite !concat_app, concat_write_padded; cbn [concat]; rewrite ?app_nil_r, ?En.
    + cbn [Datatypes.app]. destruct t as [|c t]; [done|]. pose proof (ntop4 v _ Hip Et) as Hc. apply sa_decode_print with c t; try done.
      * by apply Forall_inv in Hc as [_ ?].
      * eapply Forall_impl; [exact Hc|]. by intros x [? _].
    + apply (sa_decode_bracket t); [by apply (ntop6 v)|done|done].
  - intros H. split; [by apply sa_cmp_fields in H as [? _]|by apply sa_cmp_hash].
  - rewrite sa_cmp_fields. change (flag_set SA_ALL SA_ADDR) with true. change (flag_set SA_ALL SA_PORT) with true. split.
    + intros (_ & _ & H1 & H2). destruct a, b. cbn in *. f_equal; auto.
    + intros <-. split; [done|]. split; [|done]. unfold sa_af. by destruct (sa_ip a).
Qed.
End text.

(** A notation with these properties: a decimal number for IPv4, an x and
    hexadecimal digits for IPv6. *)
Definition plain_ntop (ip : sa_addr) : option bytes :=
  match ip with AF_UNSPEC => None | AF_INET v => Some (local_itoa v 10 false) | AF_INET6 v => Some (120 :: hex_text false v) end.
Definition plain_pton (t : bytes) : option sa_addr :=
  match t with
  | c :: h => Some (if c =? 120 then AF_INET6 (hex_pairs h) else AF_INET (digits_val 0 t))
  | [] => None
  end.
Definition plain_env : Env := {|
  env q n := 1; env_encode _ _ := EncOut 0 videoFrameTypeSkip []; env_md5 _ := replicate 16 0;
  env_atoi_overflow v := i32 v; env_ntop := plain_ntop; env_uninit _ := 0
|}.
Lemma hex_text_chars l : Forall is_byte l -> Forall (fun c => c <> 93) (hex_text false l).
Proof.
  induction 1 as [|b l Hb _ IH]; [constructor|]. change (hex_text false (b :: l)) with (digit_char false (b / 16) :: digit_char false (b mod 16) :: hex_text false l).
  assert (forall d, 0 <= d < 16 -> digit_char false d <> 93) as H.
  { intros d Hd E. pose proof (hex_digit false d Hd) as Hx. by rewrite E in Hx. }
  unfold is_byte in Hb. constructor; [apply H; Z.div_mod_to_equations; lia|]. constructor; [apply H; Z.div_mod_to_equations; lia|done].
Qed.
Lemma plain_text : @InetText plain_env plain_pton.
Proof.
  split.
  - intros [|v|v] Hv; [done|..]; cbn [env_ntop plain_env plain_ntop].
    + cbn in Hv. destruct (local_itoa_spec v ltac:(lia)) as (Hne & Hd & Hval). exists (local_itoa v 10 false). split; [done|]. split; [done|].
      unfold plain_pton. destruct (local_itoa v 10 false) as [|c t]; [done|]. apply Forall_inv in Hd. destruct (Z.eqb_spec c 120) as [-> |_]; [done|]. by rewrite Hval.
    + destruct Hv as [_ Hb]. eexists. split; [done|]. split; [done|]. cbn. f_equal. f_equal. apply (hex_pairs_text false v Hb).
  - intros v t Hv [= <-]. cbn in Hv. destruct (local_itoa_spec v ltac:(lia)) as (_ & Hd & _). eapply Forall_impl; [exact Hd|].
    intros c Hc. unfold isdigit in Hc. bool_hyps. lia.
  - intros v t [_ Hb] [= <-]. constructor; [lia|by apply hex_text_chars].
Qed.
Lemma sa_text_roundtrip_witness :
  sa_decode plain_pton (concat (@conv_sa plain_env true (SA (AF_INET6 (replicate 15 0 ++ [1])) 8554) 0 32 false))
  = Some (SA (AF_INET6 (replicate 15 0 ++ [1])) 8554).
Proof.
  apply (@sa_text_roundtrip plain_env plain_pton plain_text (SA (AF_INET6 (replicate 15 0 ++ [1])) 8554) sa_zero SA_ALL).
  split; [cbn; lia|]. split; [reflexivity|]. repeat constructor; lia.
Defined.
