(* ===== verification/HttpMsg.v ===== *)
(** * HTTP messages ([src/re-4.6.0/src/http/msg.c], [msg/ctype.c], [hash/func.c])

    The decoder finds the start line with [re_regex], takes the request or
    status line apart, and reads the headers in one loop over the characters:
    folded lines, white space around names and values, values separated by
    commas, quoted strings.  A header is known by a hash of its name.

    A message that is not complete yet is ENODATA; what follows a message is left
    in the buffer. *)
From S2P Require Import Prelude Sys Mbuf Regex HttpServer.
Local Open Scope Z_scope.

Definition ENODATA : Z := 61.
Definition STARTLINE_MAX : Z := 8192.

(** ** Header names *)

(** [hash_joaat_ci] *)
Definition joaat_step (hash c : Z) : Z :=
  let hash := u32 (hash + tolower c) in
  let hash := u32 (hash + u32 (Z.shiftl hash 10)) in
  Z.lxor hash (Z.shiftr hash 6).
Definition hash_joaat_ci (str : bytes) : Z :=
  let hash := fold_left joaat_step str 0 in
  let hash := u32 (hash + u32 (Z.shiftl hash 3)) in
  let hash := Z.lxor hash (Z.shiftr hash 11) in
  u32 (hash + u32 (Z.shiftl hash 15)).

(** [enum http_hdrid] *)
Definition HTTP_HDR_NONE : Z := -1.
Definition HTTP_HDR_CONTENT_LENGTH : Z := 3861.
Definition HTTP_HDR_CONTENT_TYPE : Z := 809.
(** The identifiers in the [switch] of [hdr_comma_separated], in its order. *)
Definition comma_ids : list Z :=
  [3186; 24; 708; 2867; 3027; 2429; 2530; 865; 580; 3371; 1550; 2684; 4030; 1673; 2937; 2076;
   3158; 2035; 2577; 2115; 717; 3076; 3961; 2108].

Definition hdr_hash (name : bytes) : Z :=
  match name with
  | [] => HTTP_HDR_NONE
  | c :: t =>
      if ((c =? 120) || (c =? 88)) && match t with d :: _ => d =? 45 | [] => false end
      then HTTP_HDR_NONE
      else Z.land (hash_joaat_ci name) 0xfff
  end.
Definition hdr_comma_separated (id : Z) : bool := existsb (Z.eqb id) comma_ids.

(** ** Messages *)

(** [struct http_hdr], [struct msg_ctype], [struct http_msg] *)
Record http_hdr := HttpHdr { hd_name : bytes; hd_val : bytes; hd_id : Z }.
Record msg_ctype := Ctype { ct_type : bytes; ct_subtype : bytes; ct_params : bytes }.
Record message := Msg {
  ms_ver : bytes;
  ms_met : bytes;
  ms_path : bytes;
  ms_prm : bytes;
  ms_scode : Z;
  ms_reason : bytes;
  ms_hdrs : list http_hdr;
  ms_ctyp : option msg_ctype;
  ms_clen : Z
}.
Definition msg_zero : message := Msg [] [] [] [] 0 [] [] None 0.

Definition msg_ctype_decode (pl : bytes) : Z + msg_ctype :=
  match re_regex pl "[ \t\r\n]*[^ \t\r\n;/]+[ \t\r\n]*/[ \t\r\n]*[^ \t\r\n;]+[^]*" with
  | inr [ws; type; _; _; subtype; params] =>
      if negb (fst ws =? 0)%nat then inl EBADMSG
      else inr (Ctype (cap_text pl type) (cap_text pl subtype) (cap_text pl params))
  | _ => inl EBADMSG
  end.

(** The start line: the request line, or the status line of a response. *)
Definition start_decode (req : bool) (s : bytes) : option message :=
  if req then
    match re_regex s "[a-z]+ [^? ]+[^ ]* HTTP/[0-9.]+" with
    | inr [met; path; prm; ver] =>
        if negb (fst met =? 0)%nat then None
        else Some (Msg (cap_text s ver) (cap_text s met) (cap_text s path) (cap_text s prm) 0 [] [] None 0)
    | _ => None
    end
  else
    match re_regex s "HTTP/[0-9.]+ [0-9]+[ ]*[^]*" with
    | inr [ver; scode; _; reason] =>
        if negb (fst ver =? 5)%nat then None
        else Some (Msg (cap_text s ver) [] [] [] (u16 (pl_u32 (cap_text s scode))) (cap_text s reason) [] None 0)
    | _ => None
    end.

(** ** Headers *)

(** The variables of the loop; a name that is still being read is []. *)
Record hstate := HState {
  h_namep : option nat;
  h_name : bytes;
  h_cv : option nat;
  h_ws : Z;
  h_lf : Z;
  h_comsep : bool;
  h_quote : bool;
  h_id : Z;
  h_msg : message
}.

Section decode.
Context `{V : Env}.

Definition hdr_add (m : message) (name : bytes) (id : Z) (val : bytes) : IO (Z + message) :=
  ok ← ask QAlloc;
  mret (if ok =? 0 then inl ENOMEM
        else
          let hdrs := ms_hdrs m ++ [HttpHdr name val id] in
          let mk ctyp clen :=
            Msg (ms_ver m) (ms_met m) (ms_path m) (ms_prm m) (ms_scode m) (ms_reason m) hdrs ctyp clen in
          if id =? HTTP_HDR_CONTENT_TYPE then
            match msg_ctype_decode val with
            | inl e => inl e
            | inr ct => inr (mk (Some ct) (ms_clen m))
            end
          else if id =? HTTP_HDR_CONTENT_LENGTH then inr (mk (ms_ctyp m) (pl_u32 val))
          else inr (mk (ms_ctyp m) (ms_clen m))).

(** [len] octets of the buffer from [off] on; none if [len] is negative. *)
Definition sub (data : bytes) (off : nat) (len : Z) : bytes := take (Z.to_nat len) (drop off data).

(** The header that ends before [p]: [hdr_add(msg, &name, id, cv ? cv : p, cv ? p - cv - ws : 0)] *)
Definition end_hdr (data : bytes) (p : nat) (st : hstate) : IO (Z + message) :=
  match h_name st with
  | [] => mret (inl EBADMSG)
  | _ =>
      hdr_add (h_msg st) (h_name st) (h_id st)
        (match h_cv st with
         | Some cv => sub data cv (Z.of_nat p - Z.of_nat cv - h_ws st)
         | None => []
         end)
  end.

(** The rest of the [default] case, for the character [c] at [p]. *)
Definition hdr_chr (data : bytes) (p : nat) (c : Z) (st : hstate) : Z + hstate :=
  let st := match h_namep st with
            | Some _ => st
            | None => HState (Some p) [] (h_cv st) 0 (h_lf st) (h_comsep st) (h_quote st) (h_id st) (h_msg st)
            end in
  match h_name st with
  | [] =>
      if negb (c =? 58) then
        inr (HState (h_namep st) [] (h_cv st) 0 (h_lf st) (h_comsep st) (h_quote st) (h_id st) (h_msg st))
      else
        let namep := default 0%nat (h_namep st) in
        match sub data namep (Z.of_nat p - Z.of_nat namep - h_ws st) with
        | [] => inl EBADMSG
        | name =>
            let id := hdr_hash name in
            inr (HState (h_namep st) name (h_cv st) (h_ws st) (h_lf st) (hdr_comma_separated id) (h_quote st) id (h_msg st))
        end
  | _ =>
      let '(cv, quote) := match h_cv st with Some cv => (Some cv, h_quote st) | None => (Some p, false) end in
      let quote := if c =? 34 then negb quote else quote in
      inr (HState (h_namep st) (h_name st) cv 0 (h_lf st) (h_comsep st) quote (h_id st) (h_msg st))
  end.

(** The loop; the result is the message and where it ends. *)
Fixpoint hdr_loop (data : bytes) (p : nat) (rest : bytes) (st : hstate) : IO (Z + message * nat) :=
  let ws lf := HState (h_namep st) (h_name st) (h_cv st) (h_ws st + 1) lf (h_comsep st) (h_quote st) (h_id st) (h_msg st) in
  match rest with
  | [] => mret (inl ENODATA)
  | c :: t =>
      if (c =? 32) || (c =? 9) then hdr_loop data (S p) t (ws 0)
      else if c =? 13 then hdr_loop data (S p) t (ws (h_lf st))
      else if c =? 10 then
        match h_namep st with
        | None => mret (inr (h_msg st, S p))
        | Some _ =>
            if h_lf st =? 0 then hdr_loop data (S p) t (ws 1)
            else
              r ← end_hdr data (S p) (ws (h_lf st + 1));
              mret (match r with inl e => inl e | inr m => inr (m, S p) end)
        end
      else if negb (h_lf st =? 0) || ((c =? 44) && h_comsep st && negb (h_quote st)) then
        r ← end_hdr data p st;
        match r with
        | inl e => mret (inl e)
        | inr m =>
            if h_lf st =? 0 then
              hdr_loop data (S p) t
                (HState (h_namep st) (h_name st) None (h_ws st) 0 (h_comsep st) (h_quote st) (h_id st) m)
            else
              match hdr_chr data p c (HState None (h_name st) None (h_ws st) 0 false (h_quote st) (h_id st) m) with
              | inl e => mret (inl e)
              | inr st => hdr_loop data (S p) t st
              end
        end
      else
        match hdr_chr data p c st with
        | inl e => mret (inl e)
        | inr st => hdr_loop data (S p) t st
        end
  end.

(** [http_msg_decode]: the message and how many octets it takes. *)
Definition http_msg_decode (data : bytes) (req : bool) : IO (Z + message * nat) :=
  match re_regex data "[\r\n]*[^\r\n]+[\r]*[\n]1" with
  | inr [_; s; _; e] =>
      ok ← ask QAlloc;
      if ok =? 0 then mret (inl ENOMEM)
      else
        mbo ← mbuf_alloc (Z.to_nat 8192);
        match mbo with
        | None => mret (inl ENOMEM)
        | Some _ =>
            match start_decode req (cap_text data s) with
            | None => mret (inl EBADMSG)
            | Some m =>
                let p := (fst e + snd e)%nat in
                hdr_loop data p (drop p data) (HState None [] None 0 0 false false HTTP_HDR_NONE m)
            end
        end
  | _ => mret (inl (if zlen data >? STARTLINE_MAX then EBADMSG else ENODATA))
  end.

(** [http_msg_hdr]: the first header with an identifier. *)
Definition http_msg_hdr (m : message) (id : Z) : option http_hdr :=
  List.find (fun h => hd_id h =? id) (ms_hdrs m).
End decode.

(** ** The start line *)

Abbreviation is_crlf := (in_class [(13, 13); (10, 10)] false).
Abbreviation is_text := (in_class [(13, 13); (10, 10)] true).
Abbreviation is_cr := (in_class [(13, 13)] false).
Abbreviation is_lf := (in_class [(10, 10)] false).

(** One attempt: line breaks, text, carriage returns, a line feed. *)
Definition start_try (p : bytes) : option (nat * nat * nat) :=
  let a := span is_crlf p in
  let p1 := drop a p in
  let b := span is_text p1 in
  let p2 := drop b p1 in
  let c := span is_cr p2 in
  if (b =? 0)%nat then None
  else match drop c p2 with
       | x :: _ => if is_lf x then Some (a, b, c) else None
       | [] => None
       end.
Fixpoint start_search (pos : nat) (p : bytes) : option (nat * nat * nat * nat) :=
  match p with
  | [] => None
  | _ :: t => match start_try p with Some (a, b, c) => Some (pos, a, b, c) | None => start_search (S pos) t end
  end.

Lemma start_attempt pos p :
  zlen p < UINT32_MAX ->
  re_try (cstr "[\r\n]*[^\r\n]+[\r]*[\n]1") (re_start pos p) =
  match start_try p with
  | Some (a, b, c) => Matched [(pos, a); (pos + a, b); (pos + a + b, c); (pos + a + b + c, 1)]%nat
  | None => Again
  end.
Proof.
  intros Hl.
  assert (cstr "[\r\n]*[^\r\n]+[\r]*[\n]1" = 91 :: [13; 10] ++ 93 :: 42 :: 91 :: [94; 13; 10] ++ 93 :: 43 ::
    91 :: [13] ++ 93 :: 42 :: 91 :: [10] ++ 93 :: 49 :: []) as -> by reflexivity.
  rewrite try_go.
  rewrite (go_star [13; 10] _ [(13, 13); (10, 10)] false) by done. unfold start_try. cbn zeta.
  set (a := span is_crlf p). set (p1 := drop a p).
  assert (zlen p1 < UINT32_MAX) as Hl1 by (unfold p1; rewrite length_drop; lia).
  rewrite (go_plus [94; 13; 10] _ [(13, 13); (10, 10)] true) by done. cbn zeta.
  set (b := span is_text p1). destruct (b =? 0)%nat; [done|]. set (p2 := drop b p1).
  assert (zlen p2 < UINT32_MAX) as Hl2 by (unfold p2; rewrite length_drop; lia).
  rewrite (go_star [13] _ [(13, 13)] false) by done. cbn zeta. set (c := span is_cr p2).
  rewrite (go_one [10] _ [(10, 10)] false) by done. destruct (drop c p2) as [|x t]; [done|].
  by destruct (is_lf x).
Qed.

Lemma start_regex p : forall pos,
  zlen p < UINT32_MAX ->
  re_search (cstr "[\r\n]*[^\r\n]+[\r]*[\n]1") pos p =
  match start_search pos p with
  | Some (q, a, b, c) => inr [(q, a); (q + a, b); (q + a + b, c); (q + a + b + c, 1)]%nat
  | None => inl ENOENT
  end.
Proof.
  induction p as [|x t IH]; intros pos Hl; [done|]. cbn [re_search start_search].
  rewrite start_attempt by done. destruct (start_try (x :: t)) as [[[a b] c]|]; [done|].
  apply IH. cbn [length] in Hl. lia.
Qed.

(** Text that an attempt uses up without deciding. *)
Definition undecided (p : bytes) : Prop :=
  let p1 := drop (span is_crlf p) p in
  let p2 := drop (span is_text p1) p1 in
  drop (span is_cr p2) p2 = [].

Lemma crlf_text c : is_text c = negb (is_crlf c).
Proof. done. Qed.
Lemma cr_crlf c : is_cr c = true -> is_crlf c = true.
Proof. cbn. rewrite orb_false_r. intros ->. done. Qed.

Lemma drop_span_head f p : match drop (span f p) p with c :: _ => f c = false | [] => True end.
Proof. induction p as [|c t IH]; cbn; [done|]. destruct (f c) eqn:E; [exact IH|exact E]. Qed.

Lemma undecided_tail x t : undecided (x :: t) -> undecided t.
Proof.
  unfold undecided. cbn [span]. destruct (is_crlf x) eqn:Ex; [by cbn|]. cbn [drop span].
  assert (is_text x = true) as -> by (by rewrite crlf_text, Ex). cbn [drop].
  destruct (span is_text t) as [|n] eqn:Es.
  - rewrite !drop_0. intros H.
    assert (forall t, drop (span is_cr t) t = [] -> drop (span is_crlf t) t = []) as Hall.
    { clear. induction t as [|c t IH]; [done|]. cbn [span]. destruct (is_cr c) eqn:E; [|done].
      rewrite (cr_crlf _ E). cbn [drop]. exact IH. }
    by rewrite (Hall _ H).
  - intros H. destruct t as [|c t]; [done|]. cbn [span] in *. destruct (is_text c) eqn:Ec; [|done].
    assert (is_crlf c = false) as -> by (rewrite crlf_text in Ec; by destruct (is_crlf c)).
    rewrite drop_0. cbn [span]. rewrite Ec. rewrite Es. exact H.
Qed.

Lemma undecided_none p : undecided p -> start_try p = None.
Proof. unfold undecided, start_try. intros ->. by destruct (_ =? 0)%nat. Qed.
Lemma undecided_search p : forall pos, undecided p -> start_search pos p = None.
Proof.
  induction p as [|x t IH]; intros pos H; [done|]. cbn [start_search]. rewrite undecided_none by done.
  apply IH. by eapply undecided_tail.
Qed.

Lemma drop_nonempty n (p : bytes) : drop n p <> [] -> (n < length p)%nat.
Proof. intros H. destruct (Nat.lt_ge_cases n (length p)); [done|]. by rewrite drop_ge in H. Qed.
Lemma drop_app_head n (p q : bytes) x t : drop n p = x :: t -> drop n (p ++ q) = (x :: t) ++ q.
Proof.
  intros H. rewrite drop_app_le; [by rewrite H|]. pose proof (drop_nonempty n p). rewrite H in *.
  assert (n < length p)%nat by auto. lia.
Qed.

(** A decided attempt stays as it is when more text arrives. *)
Lemma start_try_stable p q : ~ undecided p -> start_try (p ++ q) = start_try p.
Proof.
  unfold undecided, start_try. intros Hu. set (a := span is_crlf p) in *.
  destruct (drop a p) as [|x1 t1] eqn:E1; [done|].
  assert (span is_crlf (p ++ q) = a) as ->.
  { apply span_stable. apply drop_nonempty. fold a. by rewrite E1. }
  rewrite (drop_app_head _ _ q _ _ E1). set (b := span is_text (x1 :: t1)) in *.
  destruct (drop b (x1 :: t1)) as [|x2 t2] eqn:E2; [done|].
  assert (span is_text ((x1 :: t1) ++ q) = b) as ->.
  { apply span_stable. apply drop_nonempty. fold b. by rewrite E2. }
  rewrite (drop_app_head _ _ q _ _ E2). set (c := span is_cr (x2 :: t2)) in *.
  destruct (drop c (x2 :: t2)) as [|x3 t3] eqn:E3; [done|].
  assert (span is_cr ((x2 :: t2) ++ q) = c) as ->.
  { apply span_stable. apply drop_nonempty. fold c. by rewrite E3. }
  by rewrite (drop_app_head _ _ q _ _ E3).
Qed.

Lemma undecided_dec p : undecided p \/ ~ undecided p.
Proof. unfold undecided. destruct (drop _ _); [by left|by right]. Qed.

Lemma start_search_stable p q : forall pos r, start_search pos p = Some r -> start_search pos (p ++ q) = Some r.
Proof.
  induction p as [|x t IH]; intros pos r H; [done|]. destruct (undecided_dec (x :: t)) as [Hu|Hu].
  { by rewrite undecided_search in H. }
  cbn [start_search List.app] in *. pose proof (start_try_stable _ q Hu) as Hs. cbn [List.app] in Hs. rewrite Hs.
  destruct (start_try (x :: t)) as [[[a b] c]|]; [done|]. by apply IH.
Qed.

(** Where the line is. *)
Lemma start_search_inside p : forall pos q a b c,
  start_search pos p = Some (q, a, b, c) -> (pos <= q /\ q + a + b + c < pos + length p)%nat.
Proof.
  induction p as [|x t IH]; intros pos q a b c H; [done|]. cbn [start_search] in H.
  destruct (start_try (x :: t)) as [[[a' b'] c']|] eqn:E.
  - injection H as <- <- <- <-. unfold start_try in E.
    set (sa := span is_crlf (x :: t)) in *. set (p1 := drop sa (x :: t)) in *. set (sb := span is_text p1) in *.
    set (p2 := drop sb p1) in *. set (sc := span is_cr p2) in *. clearbody sa sb sc.
    destruct (_ =? 0)%nat; [done|]. destruct (drop sc p2) as [|y r] eqn:E2; [done|].
    destruct (is_lf y); [|done]. injection E as <- <- <-.
    pose proof (drop_nonempty _ _ ltac:(by rewrite E2)) as Hn.
    assert (length p1 = length (x :: t) - sa)%nat by apply length_drop.
    assert (length p2 = length p1 - sb)%nat by apply length_drop. lia.
  - apply IH in H. cbn [length]. lia.
Qed.

(** ** The headers *)
Section stable.
Context `{V : Env}.

Lemma sub_stable data more off len :
  Z.of_nat off + len <= zlen data -> sub (data ++ more) off len = sub data off len.
Proof.
  intros H. unfold sub. destruct (Z.leb_spec len 0) as [Hl|Hl].
  { by replace (Z.to_nat len) with 0%nat by lia. }
  rewrite drop_app_le by lia. rewrite take_app_le; [done|]. rewrite length_drop. lia.
Qed.

Lemma end_hdr_stable data more p st :
  (p <= length data)%nat -> 0 <= h_ws st -> end_hdr (data ++ more) p st = end_hdr data p st.
Proof.
  intros Hp Hw. unfold end_hdr. destruct (h_name st); [done|]. destruct (h_cv st) as [cv|]; [|done].
  rewrite sub_stable; [done|lia].
Qed.
Lemma hdr_chr_stable data more p c st :
  (p <= length data)%nat -> 0 <= h_ws st -> hdr_chr (data ++ more) p c st = hdr_chr data p c st.
Proof.
  intros Hp Hw. unfold hdr_chr. destruct (h_namep st) as [n|]; cbn [h_name h_namep h_ws default].
  - destruct (h_name st); [|done]. destruct (negb (c =? 58)); [done|]. rewrite sub_stable; [done|lia].
  - destruct (negb (c =? 58)); [done|]. rewrite sub_stable; [done|lia].
Qed.
Lemma hdr_chr_ws data p c st st' : 0 <= h_ws st -> hdr_chr data p c st = inr st' -> 0 <= h_ws st'.
Proof.
  intros Hw. unfold hdr_chr. destruct (h_namep st) as [n|]; cbn [h_name h_namep h_ws default h_cv].
  - destruct (h_name st); [|destruct (h_cv st); by intros [= <-]].
    destruct (negb (c =? 58)); [by intros [= <-]|]. destruct (sub _ _ _); [done|]. by intros [= <-].
  - destruct (negb (c =? 58)); [by intros [= <-]|]. destruct (sub _ _ _); [done|]. by intros [= <-].
Qed.

(** A message that has been read stays as it is when more octets arrive. *)
Lemma hdr_loop_stable data more rest : forall p st s m n s',
  (p + length rest = length data)%nat -> 0 <= h_ws st ->
  hdr_loop data p rest st s = (inr (m, n), s') ->
  (p < n <= length data)%nat /\ hdr_loop (data ++ more) p (rest ++ more) st s = (inr (m, n), s').
Proof.
  induction rest as [|c t IH]; intros p st s m n s' Hp Hw; cbn [hdr_loop List.app length] in *; [done|].
  assert (forall st1 s1, 0 <= h_ws st1 -> hdr_loop data (S p) t st1 s1 = (inr (m, n), s') ->
    (p < n <= length data)%nat /\ hdr_loop (data ++ more) (S p) (t ++ more) st1 s1 = (inr (m, n), s')) as Hrec.
  { intros st1 s1 H1 H2. destruct (IH (S p) _ _ _ _ _ ltac:(lia) H1 H2) as [? ?]. split; [lia|done]. }
  destruct ((c =? 32) || (c =? 9)); [apply Hrec; cbn [h_ws]; lia|].
  destruct (c =? 13); [apply Hrec; cbn [h_ws]; lia|].
  destruct (c =? 10).
  - destruct (h_namep st); [|intros [= <- <- <-]; split; [lia|done]].
    destruct (h_lf st =? 0); [apply Hrec; cbn [h_ws]; lia|].
    rewrite end_hdr_stable by (cbn [h_ws]; lia). unfold mbind, IO_bind. destruct (end_hdr _ _ _ s) as [[e|m1] s1]; [done|].
    intros [= <- <- <-]. split; [lia|done].
  - assert (forall st1 s1, 0 <= h_ws st1 ->
      (match hdr_chr data p c st1 with inl e => mret (inl e) | inr st => hdr_loop data (S p) t st end) s1 = (inr (m, n), s') ->
      (p < n <= length data)%nat /\
      (match hdr_chr (data ++ more) p c st1 with inl e => mret (inl e) | inr st => hdr_loop (data ++ more) (S p) (t ++ more) st end) s1
        = (inr (m, n), s')) as Hchr.
    { intros st1 s1 H1. rewrite hdr_chr_stable by (done || lia). destruct (hdr_chr data p c st1) as [e|st2] eqn:E; [done|].
      apply Hrec. by eapply hdr_chr_ws. }
    destruct (negb (h_lf st =? 0) || ((c =? 44) && h_comsep st && negb (h_quote st))); [|by apply Hchr].
    rewrite end_hdr_stable by (done || lia). unfold mbind, IO_bind. destruct (end_hdr _ _ _ s) as [[e|m1] s1]; [done|].
    destruct (h_lf st =? 0); [by apply Hrec|by apply Hchr].
Qed.

Lemma cap_text_stable data more off len : (off + len <= length data)%nat ->
  cap_text (data ++ more) (off, len) = cap_text data (off, len).
Proof.
  intros H. unfold cap_text. cbn [fst snd]. rewrite drop_app_le by lia.
  rewrite take_app_le; [done|]. rewrite length_drop. lia.
Qed.

Lemma decode_stable data more req s m n s' :
  zlen (data ++ more) < UINT32_MAX ->
  http_msg_decode data req s = (inr (m, n), s') ->
  (0 < n <= length data)%nat /\ http_msg_decode (data ++ more) req s = (inr (m, n), s').
Proof.
  intros Hl. rewrite length_app in Hl. unfold http_msg_decode, re_regex. rewrite !start_regex by (rewrite ?length_app; lia).
  destruct (start_search 0 data) as [[[[q a] b] c]|] eqn:E; [|done].
  rewrite (start_search_stable _ more _ _ E). apply start_search_inside in E. cbn [fst snd].
  rewrite cap_text_stable by lia. unfold mbind, IO_bind.
  destruct (ask QAlloc s) as [ok s1]. destruct (ok =? 0); [done|].
  destruct (mbuf_alloc _ s1) as [[mb|] s2]; [|done]. destruct (start_decode req _) as [m0|]; [|done].
  rewrite drop_app_le by lia. intros H.
  apply (hdr_loop_stable data more) in H as [? ?]; [|rewrite length_drop; lia|done]. split; [lia|done].
Qed.
End stable.
