(* ===== verification/HttpConn.v ===== *)
(** * HTTP connections ([src/re-4.6.0/src/http/server.c])

    What arrives on a connection is collected until a request is complete, the
    request handler is called, and what follows the request is kept for the next
    one.  A connection that sends nothing complete in 10 seconds, or nothing more
    in 10 minutes, is closed.

    The state is the list of connections of the socket next to the state [W] of
    the application, whose request handler is a parameter; it returns whether the
    connection is still open ([http_conn_close] was not called).  TLS is left
    out. *)
From S2P Require Import Prelude Sys Mbuf Regex HttpServer HttpMsg.
Local Open Scope Z_scope.

Definition ENOTCONN : Z := 107.
Definition TIMEOUT_IDLE : Z := 600000.
Definition TIMEOUT_INIT : Z := 10000.
Definition BUFSIZE_MAX : Z := 1048576.

(** [struct http_conn]; [hc_id] names it and its TCP connection. *)
Record http_conn := Conn { hc_id : nat; hc_mb : option mbuf; hc_tmr : option Z }.

Definition find_conn (id : nat) (l : list http_conn) : option http_conn :=
  List.find (fun c => hc_id c =? id)%nat l.
Definition remove_conn (id : nat) (l : list http_conn) : list http_conn :=
  List.filter (fun c => negb (hc_id c =? id)%nat) l.
Definition update_conn (c : http_conn) (l : list http_conn) : list http_conn :=
  map (fun c' => if (hc_id c' =? hc_id c)%nat then c else c') l.

Section connections.
Context `{V : Env} {W : Type}.
(** [sock->max_body_size] and [sock->reqh]: the message and its body. *)
Variable max_body_size : Z.
Variable reqh : nat -> message -> bytes -> M W bool.

Abbreviation H := (M (list http_conn * W)).
Definition on_conns (f : list http_conn -> list http_conn) : H unit := modify (fun x => (f (fst x), snd x)).

(** [conn_close(conn); mem_deref(conn)] *)
Definition conn_close (id : nat) : H unit :=
  on_conns (remove_conn id) ;; lift (emit (TcpClose id)).

(** The loop of [recv_handler]: an error, or the buffer and timer to keep. *)
Fixpoint recv_requests (fuel : nat) (id : nat) (mbo : option mbuf) (tmr : option Z)
    : H (Z + option mbuf * option Z) :=
  match fuel, mbo with
  | O, _ | _, None => mret (inr (mbo, tmr))
  | S fuel, Some mb =>
      r ← lift (http_msg_decode (mbuf_buf mb) true);
      match r with
      | inl err => if err =? ENODATA then mret (inr (Some mb, tmr)) else mret (inl err)
      | inr (msg, n) =>
          let left := (mbuf_get_left mb - n)%nat in
          if Z.of_nat left <? ms_clen msg then mret (inr (Some mb, tmr))
          else
            let clen := Z.to_nat (ms_clen msg) in
            let body := take clen (drop n (mbuf_buf mb)) in
            let rest := drop (n + clen) (mbuf_buf mb) in
            '(ok, mbn) ← (match rest with
                          | [] => mret (true, None)
                          | _ =>
                              mbno ← lift (mbuf_alloc (length rest));
                              match mbno with
                              | None => mret (false, None)
                              | Some mbn => '(_, mbn) ← lift (mbuf_write_mem mbn rest);
                                            mret (true, Some (mbuf_set_pos mbn 0))
                              end
                          end : H (bool * option mbuf));
            if negb ok then mret (inl ENOMEM)
            else
              tc ← zoom snd (fun w x => (fst x, w)) (reqh id msg body);
              if negb tc then mret (inl ENOTCONN)
              else recv_requests fuel id mbn (Some TIMEOUT_IDLE)
      end
  end.

Definition recv_handler (id : nat) (mb : mbuf) : H unit :=
  x ← get;
  match find_conn id (fst x) with
  | None => mret tt
  | Some conn =>
      '(err, mbo) ← (match hc_mb conn with
                     | Some cmb =>
                         if Z.of_nat (mbuf_get_left cmb + mbuf_get_left mb) >? max_body_size
                         then mret (EOVERFLOW, None)
                         else
                           '(err, cmb') ← lift (mbuf_write_mem (mbuf_set_pos cmb (mb_end cmb)) (mbuf_buf mb));
                           mret (err, Some (mbuf_set_pos cmb' (mb_pos cmb)))
                     | None => mret (0, Some mb)
                     end : H (Z * option mbuf));
      if negb (err =? 0) then conn_close id
      else
        r ← recv_requests (S (match mbo with Some mb => mbuf_get_left mb | None => 0 end)) id mbo (hc_tmr conn);
        match r with
        | inl err =>
            (* closed by the request handler: there is no TCP connection left *)
            if err =? ENOTCONN then on_conns (remove_conn id) else conn_close id
        | inr (mbo, tmr) => on_conns (update_conn (Conn id mbo tmr))
        end
  end.

Definition close_handler (id : nat) : H unit := conn_close id.
Definition timeout_handler (id : nat) : H unit := conn_close id.

Definition connect_handler : H unit :=
  ok ← lift (ask QAlloc);
  if ok =? 0 then lift (emit TcpReject)
  else
    err ← lift (ask QAccept);
    if negb (err =? 0) then lift (emit TcpReject)
    else
      id ← lift fresh;
      on_conns (fun l => l ++ [Conn id None (Some TIMEOUT_INIT)]).

(** [sock_destructor]: every connection in turn. *)
Definition sock_destructor : H unit := x ← get; forM (fst x) (fun c => conn_close (hc_id c)).
End connections.

(** ** Requests in a stream of octets *)

(** The decoder when memory can be allocated. *)
Definition decode_pure (data : bytes) : Z + message * nat :=
  fst (@http_msg_decode good_env data true (Sys 0 [])).

Section pure.
Context `{V : Env} (HA : AllocOk V).

Lemma ask_alloc s : exists v, ask QAlloc s = (v, Sys (S (tick s)) (out s)) /\ (v =? 0) = false.
Proof.
  eexists. split; [reflexivity|]. destruct (env QAlloc (tick s) =? 0) eqn:E; [exfalso; by eapply alloc_null|done].
Qed.

Lemma end_hdr_pure data p st s s0 :
  fst (@end_hdr V data p st s) = fst (@end_hdr good_env data p st s0) /\ out (snd (@end_hdr V data p st s)) = out s.
Proof.
  unfold end_hdr. destruct (h_name st); [done|]. unfold hdr_add, mbind, IO_bind.
  destruct (ask_alloc s) as (v & -> & ->). done.
Qed.

Lemma hdr_loop_pure data rest : forall p st s s0,
  fst (@hdr_loop V data p rest st s) = fst (@hdr_loop good_env data p rest st s0)
  /\ out (snd (@hdr_loop V data p rest st s)) = out s.
Proof.
  induction rest as [|c t IH]; intros p st s s0; cbn [hdr_loop]; [done|].
  destruct ((c =? 32) || (c =? 9)); [apply IH|]. destruct (c =? 13); [apply IH|]. destruct (c =? 10).
  - destruct (h_namep st); [|done]. destruct (h_lf st =? 0); [apply IH|]. unfold mbind, IO_bind.
    set (st1 := HState _ _ _ _ _ _ _ _ _). pose proof (end_hdr_pure data (S p) st1 s s0) as [H1 H2].
    destruct (@end_hdr V data (S p) st1 s) as [r s1], (@end_hdr good_env data (S p) st1 s0) as [r' s1'].
    cbn [fst snd] in *. subst r'. done.
  - assert (forall st1 s1 s2,
      fst ((match hdr_chr data p c st1 with inl e => mret (inl e) | inr st => @hdr_loop V data (S p) t st end) s1)
      = fst ((match hdr_chr data p c st1 with inl e => mret (inl e) | inr st => @hdr_loop good_env data (S p) t st end) s2)
      /\ out (snd ((match hdr_chr data p c st1 with inl e => mret (inl e) | inr st => @hdr_loop V data (S p) t st end) s1)) = out s1)
      as Hchr by (intros; destruct (hdr_chr data p c st1); [done|apply IH]).
    destruct (_ || _); [|apply Hchr]. unfold mbind, IO_bind.
    pose proof (end_hdr_pure data p st s s0) as [H1 H2].
    destruct (@end_hdr V data p st s) as [r s1], (@end_hdr good_env data p st s0) as [r' s1']. cbn [fst snd] in *. subst r'.
    destruct r as [e|m]; [done|]. rewrite <- H2. destruct (h_lf st =? 0); [apply IH|apply Hchr].
Qed.

Lemma decode_is_pure data s :
  fst (@http_msg_decode V data true s) = decode_pure data /\ out (snd (@http_msg_decode V data true s)) = out s.
Proof.
  unfold decode_pure, http_msg_decode. destruct (re_regex data _) as [e|[|b [|l [|c [|e [|]]]]]]; try done.
  unfold mbind, IO_bind. destruct (ask_alloc s) as (v & -> & ->).
  change (@ask good_env QAlloc (Sys 0 [])) with (1, Sys 1 []). cbn [Z.eqb].
  assert (exists mb t, @mbuf_alloc V (Z.to_nat 8192) (Sys (S (tick s)) (out s)) = (Some mb, Sys t (out s))) as (mb & t & ->).
  { unfold mbuf_alloc, mbuf_resize, mbind, IO_bind.
    destruct (ask_alloc (Sys (S (tick s)) (out s))) as (v1 & -> & ->).
    destruct (ask_alloc (Sys (S (tick (Sys (S (tick s)) (out s)))) (out (Sys (S (tick s)) (out s))))) as (v2 & -> & ->).
    by eexists _, _. }
  assert (exists mb s0, @mbuf_alloc good_env (Z.to_nat 8192) (Sys 1 []) = (Some mb, s0)) as (mb' & s0 & ->) by (by eexists _, _).
  destruct (start_decode true _); [|done]. apply (hdr_loop_pure data _ _ _ (Sys t (out s)) s0).
Qed.
End pure.

Lemma decode_pure_stable data more m n :
  zlen (data ++ more) < UINT32_MAX -> decode_pure data = inr (m, n) ->
  (0 < n <= length data)%nat /\ decode_pure (data ++ more) = inr (m, n).
Proof.
  intros Hl. unfold decode_pure. destruct (@http_msg_decode good_env data true (Sys 0 [])) as [r s'] eqn:E. cbn [fst].
  intros ->. destruct (decode_stable data more true _ _ _ _ Hl E) as [Hn ->]. done.
Qed.

(** The decoder's errors are none of the connection. *)
Definition decode_error (e : Z) : Prop := e = ENOMEM \/ e = EBADMSG \/ e = ENODATA.
Lemma end_hdr_error `{V : Env} data p st s e s' : end_hdr data p st s = (inl e, s') -> decode_error e.
Proof.
  unfold end_hdr, decode_error. destruct (h_name st); [by intros [= <- _]; auto|].
  unfold hdr_add, mbind, IO_bind. destruct (ask QAlloc s) as [v s1]. intros [= H _]. revert H.
  destruct (v =? 0); [by intros [= <-]; auto|]. destruct (_ =? HTTP_HDR_CONTENT_TYPE); [|by destruct (_ =? _)].
  unfold msg_ctype_decode. destruct (re_regex _ _) as [?|[|? [|? [|? [|? [|? [|? [|]]]]]]]]; try (by intros [= <-]; auto).
  destruct (negb _); [by intros [= <-]; auto|done].
Qed.
Lemma hdr_chr_error data p c st e : hdr_chr data p c st = inl e -> decode_error e.
Proof.
  unfold hdr_chr, decode_error. destruct (h_namep st), (h_name _); try done;
    repeat (case_match; try done); intros [= <-]; auto.
Qed.
Lemma hdr_loop_error `{V : Env} data rest : forall p st s e s',
  hdr_loop data p rest st s = (inl e, s') -> decode_error e.
Proof.
  induction rest as [|c t IH]; intros p st s e s'; cbn [hdr_loop].
  { intros [= <- _]. unfold decode_error. auto. }
  destruct ((c =? 32) || (c =? 9)); [apply IH|]. destruct (c =? 13); [apply IH|].
  assert (forall st1 s1, (match hdr_chr data p c st1 with inl e => mret (inl e) | inr st => hdr_loop data (S p) t st end) s1
    = (inl e, s') -> decode_error e) as Hchr.
  { intros st1 s1. destruct (hdr_chr data p c st1) as [e1|] eqn:E; [|apply IH].
    intros [= <- _]. by eapply hdr_chr_error. }
  destruct (c =? 10).
  - destruct (h_namep st); [|done]. destruct (h_lf st =? 0); [apply IH|]. unfold mbind, IO_bind.
    destruct (end_hdr data (S p) _ s) as [[e1|m] s1] eqn:E; [|done].
    intros [= <- _]. by eapply end_hdr_error.
  - destruct (_ || _); [|apply Hchr]. unfold mbind, IO_bind.
    destruct (end_hdr data p st s) as [[e1|m] s1] eqn:E.
    + intros [= <- _]. by eapply end_hdr_error.
    + destruct (h_lf st =? 0); [apply IH|apply Hchr].
Qed.
Lemma decode_pure_error data e : decode_pure data = inl e -> e <> ENOTCONN.
Proof.
  enough (decode_pure data = inl e -> decode_error e) as H by (intros E; apply H in E as [-> |[-> | ->]]; done).
  unfold decode_pure. destruct (@http_msg_decode good_env data true (Sys 0 [])) as [r s'] eqn:E. cbn [fst].
  intros ->. revert E. unfold http_msg_decode.
  destruct (re_regex data _) as [?|[|b [|l [|c [|x [|]]]]]];
    try (intros [= <- _]; unfold decode_error; destruct (_ >? _); by auto).
  unfold mbind, IO_bind. destruct (ask QAlloc _) as [v s1].
  destruct (v =? 0); [intros [= <- _]; unfold decode_error; by auto|].
  destruct (mbuf_alloc _ s1) as [[mb|] s2]; [|intros [= <- _]; unfold decode_error; by auto].
  destruct (start_decode _ _); [|intros [= <- _]; unfold decode_error; by auto]. apply hdr_loop_error.
Qed.

(** Requests with their bodies, and the rest or the error. *)
Fixpoint split_requests (fuel : nat) (data : bytes) : list (message * bytes) * (Z + bytes) :=
  match fuel with
  | O => ([], inr data)
  | S fuel =>
      match decode_pure data with
      | inl e => ([], if e =? ENODATA then inr data else inl e)
      | inr (m, n) =>
          let clen := Z.to_nat (ms_clen m) in
          if Z.of_nat (length data - n) <? ms_clen m then ([], inr data)
          else
            let '(us, r) := split_requests fuel (drop (n + clen) data) in
            ((m, take clen (drop n data)) :: us, r)
      end
  end.
Definition requests (data : bytes) := split_requests (S (length data)) data.

Lemma split_error f : forall data us e, split_requests f data = (us, inl e) -> e <> ENOTCONN.
Proof.
  induction f as [|f IH]; intros data us e; cbn [split_requests]; [done|].
  destruct (decode_pure data) as [e1|[m n]] eqn:E.
  - destruct (e1 =? ENODATA); intros [= _ <-]. by eapply decode_pure_error.
  - destruct (_ <? _); [done|]. destruct (split_requests f _) as [us1 r1] eqn:Es.
    intros [= _ ->]. by eapply IH.
Qed.

Lemma split_fuel f : forall f' data,
  zlen data < UINT32_MAX -> (length data < f)%nat -> (length data < f')%nat ->
  split_requests f data = split_requests f' data.
Proof.
  induction f as [|f IH]; intros [|f'] data Hl H1 H2; try lia. cbn [split_requests].
  destruct (decode_pure data) as [e|[m n]] eqn:E; [done|].
  pose proof (decode_pure_stable data [] m n ltac:(by rewrite app_nil_r) E) as [Hn _].
  destruct (_ <? _); [done|]. assert (length (drop (n + Z.to_nat (ms_clen m)) data) < length data)%nat as Hd
    by (rewrite length_drop; lia).
  rewrite (IH f' (drop (n + Z.to_nat (ms_clen m)) data)) by lia. done.
Qed.

(** HTTP framing does not depend on how TCP cuts the stream: if the octets
    [a] contain the requests [us] and leave [r], then [a] followed by [b] contains
    [us] and then what [r] followed by [b] contains. *)
Theorem http_segmentation (a b : bytes) (us : list (message * bytes)) (r : bytes) :
  zlen (a ++ b) < UINT32_MAX -> requests a = (us, inr r) ->
  requests (a ++ b) = ((us ++ fst (requests (r ++ b))), snd (requests (r ++ b))).
Proof.
  unfold requests at 1. remember (S (length a)) as f eqn:Hf. assert (length a < f)%nat as Hlt by lia. clear Hf.
  revert a us r Hlt. induction f as [|f IH]; intros a us r Hlt Hl; [lia|]. cbn [split_requests].
  destruct (decode_pure a) as [e|[m n]] eqn:E.
  { destruct (e =? ENODATA); [|done]. intros [= <- <-]. cbn [List.app]. by destruct (requests (a ++ b)). }
  destruct (decode_pure_stable a b m n Hl E) as [Hn Eb]. rewrite length_app in Hl.
  destruct (Z.ltb_spec (Z.of_nat (length a - n)) (ms_clen m)) as [Hc|Hc].
  { intros [= <- <-]. cbn [List.app]. by destruct (requests (a ++ b)). }
  set (clen := Z.to_nat (ms_clen m)) in *.
  destruct (split_requests f (drop (n + clen) a)) as [us1 r1] eqn:Es. intros [= <- ->].
  assert (length (drop (n + clen) a) < length a)%nat as Hd by (rewrite length_drop; lia).
  assert (drop (n + clen) (a ++ b) = drop (n + clen) a ++ b) as Hdrop.
  { apply drop_app_le. destruct (Z.leb_spec 0 (ms_clen m)); unfold clen; lia. }
  specialize (IH (drop (n + clen) a) us1 r ltac:(lia) ltac:(rewrite length_app; lia) Es).
  unfold requests at 1. cbn [split_requests]. rewrite Eb, length_app.
  destruct (Z.ltb_spec (Z.of_nat (length a + length b - n)) (ms_clen m)); [lia|]. fold clen. rewrite Hdrop.
  rewrite (split_fuel _ (S (length (drop (n + clen) a ++ b)))) by (rewrite ?length_app; lia).
  fold (requests (drop (n + clen) a ++ b)). rewrite IH. cbn [List.app]. do 3 f_equal.
  rewrite drop_app_le by lia. apply take_app_le. rewrite length_drop. unfold clen. lia.
Qed.

(** ** What a delivery does *)

(** An application that writes down its requests and closes the connection of
    the ones it does not want to keep. *)
Definition log_reqh (keep : message * bytes -> bool) (id : nat) (m : message) (body : bytes)
    : M (list (message * bytes)) bool :=
  modify (fun l => l ++ [(m, body)]) ;; mret (keep (m, body)).

(** The requests served, and whether the connection stays open. *)
Fixpoint served (keep : message * bytes -> bool) (us : list (message * bytes)) : list (message * bytes) * bool :=
  match us with
  | [] => ([], true)
  | u :: us => if keep u then let '(l, b) := served keep us in (u :: l, b) else ([u], false)
  end.

(** The octets in a buffer. *)
Definition holds (mbo : option mbuf) (d : bytes) : Prop :=
  match mbo with Some mb => mbuf_wf mb /\ mbuf_buf mb = d | None => d = [] end.

Section serving.
Context `{V : Env} (HA : AllocOk V) (max : Z) (keep : message * bytes -> bool).

Lemma copy_rest rest s :
  rest <> [] ->
  exists mbn s', (mbno ← mbuf_alloc (length rest);
    match mbno with
    | None => mret (false, None)
    | Some mbn => '(_, mbn) ← mbuf_write_mem mbn rest; mret (true, Some (mbuf_set_pos mbn 0))
    end : IO (bool * option mbuf)) s = ((true, Some mbn), s') /\ out s' = out s /\ holds (Some mbn) rest.
Proof.
  intros Hr. pose proof (mbuf_alloc_spec (length rest) s) as H. unfold iwp in H. unfold mbind, IO_bind.
  destruct (mbuf_alloc (length rest) s) as [[mb|] s1]; destruct H as [Ho H]; [|by destruct (H HA)].
  destruct H as [Hh Hs]. assert (length rest <> 0)%nat as Hne by (by destruct rest).
  apply Nat.eqb_neq in Hne. rewrite Hne in Hs.
  destruct (mbuf_write_room mb [] rest s1 Hh ltac:(cbn; lia)) as (mb' & -> & Hh' & Hs').
  eexists _, _. split; [reflexivity|]. split; [done|]. cbn [holds List.app] in *.
  split; [|by apply mbuf_buf_holds]. destruct Hh' as (_ & Hp & He). unfold mbuf_wf. cbn. split; [lia|exact He].
Qed.

Lemma recv_requests_serves fuel : forall id mb tmr cs log s,
  mbuf_wf mb -> zlen (mbuf_buf mb) < UINT32_MAX -> (length (mbuf_buf mb) < fuel)%nat ->
  let '(us, r) := split_requests fuel (mbuf_buf mb) in
  let '(l, open) := served keep us in
  let '(res, (cs', log'), s') := recv_requests (log_reqh keep) fuel id (Some mb) tmr (cs, log) s in
  cs' = cs /\ log' = log ++ l /\ out s' = out s /\
  match (if open then r else inl ENOTCONN) with
  | inl e => res = inl e
  | inr rest => exists mbo, res = inr (mbo, match us with [] => tmr | _ => Some TIMEOUT_IDLE end) /\ holds mbo rest
  end.
Proof.
  induction fuel as [|fuel IH]; intros id mb tmr cs log s Hw Hl Hf; [lia|]. cbn [split_requests recv_requests].
  unfold mbind at 1, M_bind at 1. unfold lift at 1.
  destruct (decode_is_pure HA (mbuf_buf mb) s) as [HD HO].
  destruct (http_msg_decode (mbuf_buf mb) true s) as [r s1]. cbn [fst snd] in HD, HO. subst r.
  destruct (decode_pure (mbuf_buf mb)) as [e|[m n]] eqn:E.
  { destruct (e =? ENODATA) eqn:EE; cbn [served].
    - rewrite app_nil_r. split_and!; try done. exists (Some mb). by split.
    - rewrite app_nil_r. by split_and!. }
  destruct (decode_pure_stable _ [] m n ltac:(by rewrite app_nil_r) E) as [Hn _].
  rewrite (mbuf_buf_length _ Hw) in *. set (clen := Z.to_nat (ms_clen m)).
  destruct (Z.ltb_spec (Z.of_nat (mbuf_get_left mb - n)) (ms_clen m)) as [Hc|Hc].
  { cbn [served]. rewrite app_nil_r. split_and!; try done. exists (Some mb). by split. }
  set (body := take clen (drop n (mbuf_buf mb))). set (rest := drop (n + clen) (mbuf_buf mb)).
  assert (length rest < mbuf_get_left mb)%nat as Hrest.
  { unfold rest. rewrite length_drop, (mbuf_buf_length _ Hw). lia. }
  assert (exists mbn s2, (match rest with
                          | [] => mret (true, None)
                          | _ =>
                              mbno ← lift (mbuf_alloc (length rest));
                              match mbno with
                              | None => mret (false, None)
                              | Some mbn => '(_, mbn) ← lift (mbuf_write_mem mbn rest);
                                            mret (true, Some (mbuf_set_pos mbn 0))
                              end
                          end : M (list http_conn * list (message * bytes)) (bool * option mbuf)) (cs, log) s1
    = ((true, mbn), (cs, log), s2) /\ out s2 = out s1 /\ holds mbn rest) as (mbn & s2 & HM & HO2 & HH).
  { destruct (decide (rest = [])) as [->|Hne]; [by eexists None, _|].
    destruct (copy_rest rest s1 Hne) as (mb' & s' & HC & HC2 & HC3). exists (Some mb'), s'. split; [|done].
    destruct rest; [done|]. unfold mbind, IO_bind, M_bind, lift in *.
    destruct (mbuf_alloc _ s1) as [[mb1|] s3]; [|by injection HC]. 
    destruct (mbuf_write_mem mb1 _ s3) as [[e1 mb2] s4]. injection HC as <- <-. done. }
  unfold mbind at 1, M_bind at 1. rewrite HM. cbn [negb]. unfold mbind at 1, M_bind at 1, zoom, log_reqh, modify.
  unfold mbind at 1, M_bind at 1. unfold mret at 1, M_ret at 1. cbn [fst snd].
  destruct (split_requests fuel rest) as [us r] eqn:ES. cbn [served].
  destruct (keep (m, body)); cbn [negb].
  2:{ split_and!; [done|done|congruence|done]. }
  destruct mbn as [mb2|].
  - destruct HH as [W2 B2]. rewrite <- B2 in ES, Hrest.
    pose proof (IH id mb2 (Some TIMEOUT_IDLE) cs (log ++ [(m, body)]) s2 W2 ltac:(lia) ltac:(lia)) as H.
    rewrite ES in H. destruct (served keep us) as [l open].
    destruct (recv_requests _ _ _ _ _ _ _) as [[res [cs' log']] s']. destruct H as (-> & -> & O & H).
    split_and!; [done|by rewrite <- app_assoc|congruence|]. destruct (if open then r else inl ENOTCONN); [done|].
    destruct H as (mbo & -> & Hh). exists mbo. split; [|done]. by destruct us.
  - cbn [holds] in HH. rewrite HH in ES. destruct fuel as [|fuel]; [lia|].
    assert (us = [] /\ r = inr []) as [-> ->] by (vm_compute in ES; by injection ES as <- <-).
    cbn [served recv_requests]. split_and!; [done|done|congruence|]. by exists None.
Qed.
End serving.

Lemma mbuf_buf_take mb : mbuf_wf mb -> mbuf_buf mb = drop (mb_pos mb) (take (mb_end mb) (mb_buf mb)).
Proof. intros [Hp _]. unfold mbuf_buf, mbuf_get_left. by rewrite skipn_firstn_comm. Qed.

(** Appending to the buffer of a connection. *)
Lemma append_holds `{V : Env} mb d s :
  AllocOk V -> mbuf_wf mb ->
  exists mb' s', mbuf_write_mem (mbuf_set_pos mb (mb_end mb)) d s = ((0, mb'), s') /\ out s' = out s /\
    holds (Some (mbuf_set_pos mb' (mb_pos mb))) (mbuf_buf mb ++ d).
Proof.
  intros HA W. pose proof W as [Hp He].
  assert (mbuf_holds (mbuf_set_pos mb (mb_end mb)) (take (mb_end mb) (mb_buf mb))) as Hh by done.
  pose proof (mbuf_write_mem_spec _ _ d s Hh) as H. unfold iwp in H.
  destruct (mbuf_write_mem (mbuf_set_pos mb (mb_end mb)) d s) as [[e mb'] s'].
  destruct H as (Ho & H). destruct H as [(-> & Hh' & _)|(_ & _ & Hn)]; [|by destruct (Hn HA)].
  exists mb', s'. split; [done|]. split; [done|]. pose proof (mbuf_holds_length _ _ Hh') as HL.
  destruct Hh' as (Hb & _ & He'). rewrite length_app, length_take in HL. unfold mb_size in He.
  assert (mbuf_wf (mbuf_set_pos mb' (mb_pos mb))) as W' by (split; cbn; [lia|exact He']).
  split; [done|]. rewrite mbuf_buf_take by done. cbn [mbuf_set_pos mb_pos mb_end mb_buf]. rewrite Hb.
  rewrite drop_app_le by (rewrite length_take; lia). by rewrite <- mbuf_buf_take.
Qed.

(** The length check of a delivery: a buffer that would exceed the limit. *)
Definition too_long (max : Z) (c : http_conn) (p d : bytes) : bool :=
  match hc_mb c with Some _ => zlen (p ++ d) >? max | None => false end.

(** C15. A delivery to a connection does what the requests in it say: they are
    passed to the application in order, each with its body, until one of them
    closes the connection (its TCP connection, in the application's hands, is
    then left alone).  After a malformed request the TCP connection is closed and
    the connection forgotten.  Otherwise it keeps exactly the octets behind the
    last complete request, its timer is set to ten minutes if there was one, and
    nothing is closed.  The other connections are untouched.  Data that would
    make the buffer of an incomplete request exceed the limit (1 MB) closes the
    connection before any request in it is looked at.  (Memory can be
    allocated, and fewer than 2^32 - 1 octets are buffered.) *)
Theorem http_recv_serves `{V : Env} (max : Z) (keep : message * bytes -> bool) (id : nat) (mb : mbuf)
    (d p : bytes) (c : http_conn) (cs : list http_conn) (log : list (message * bytes)) (s : sys) :
  AllocOk V -> find_conn id cs = Some c -> holds (hc_mb c) p -> holds (Some mb) d ->
  zlen (p ++ d) < UINT32_MAX ->
  let '(us, r) := requests (p ++ d) in
  let '(l, open) := served keep us in
  let '(_, (cs', log'), s') := recv_handler max (log_reqh keep) id mb (cs, log) s in
  if too_long max c p d
  then log' = log /\ cs' = remove_conn id cs /\ out s' = out s ++ [TcpClose id]
  else
    log' = log ++ l /\
    match open, r with
    | false, _ => cs' = remove_conn id cs /\ out s' = out s
    | true, inl _ => cs' = remove_conn id cs /\ out s' = out s ++ [TcpClose id]
    | true, inr rest => out s' = out s /\ exists mbo, holds mbo rest /\
        cs' = update_conn (Conn id mbo (match us with [] => hc_tmr c | _ => Some TIMEOUT_IDLE end)) cs
    end.
Proof.
  intros HA Hf Hp Hd Hmax. rewrite length_app in Hmax. unfold recv_handler, get.
  unfold mbind at 1, M_bind at 1. cbn [fst]. rewrite Hf.
  destruct (too_long max c p d) eqn:El; unfold too_long in El.
  { destruct (requests _) as [us r], (served _ _) as [l open]. destruct (hc_mb c) as [cmb|]; [|done].
    destruct Hp as [Wc <-], Hd as [Wd <-]. rewrite length_app, !mbuf_buf_length in El by done.
    unfold mbind at 1, M_bind at 1. rewrite El. done. }
  assert (exists mb1 s1, (match hc_mb c with
     | Some cmb =>
         if Z.of_nat (mbuf_get_left cmb + mbuf_get_left mb) >? max then mret (EOVERFLOW, None)
         else '(err, cmb') ← lift (mbuf_write_mem (mbuf_set_pos cmb (mb_end cmb)) (mbuf_buf mb));
              mret (err, Some (mbuf_set_pos cmb' (mb_pos cmb)))
     | None => mret (0, Some mb)
     end : M (list http_conn * list (message * bytes)) (Z * option mbuf)) (cs, log) s
     = ((0, Some mb1), (cs, log), s1) /\ out s1 = out s /\ holds (Some mb1) (p ++ d)) as (mb1 & s1 & HM & HO1 & W1 & B1).
  { destruct Hd as [Wd <-]. destruct (hc_mb c) as [cmb|]; cbn [holds] in Hp.
    - destruct Hp as [Wc <-]. rewrite length_app, !mbuf_buf_length in El by done. rewrite El.
      destruct (append_holds cmb (mbuf_buf mb) s HA Wc) as (mb' & s' & HW & HO & HH).
      eexists _, _. split; [|split; [exact HO|exact HH]]. unfold mbind, M_bind, lift. by rewrite HW.
    - subst p. by exists mb, s. }
  unfold mbind at 1, M_bind at 1. rewrite HM. cbn [Z.eqb negb].
  assert (length (mbuf_buf mb1) = mbuf_get_left mb1) as HL by (by apply mbuf_buf_length).
  unfold requests. rewrite <- B1. unfold mbind at 1, M_bind at 1.
  pose proof (recv_requests_serves HA keep (S (mbuf_get_left mb1)) id mb1 (hc_tmr c) cs log s1 W1
    ltac:(rewrite B1, length_app; lia) ltac:(lia)) as H.
  rewrite HL. destruct (split_requests (S (mbuf_get_left mb1)) (mbuf_buf mb1)) as [us r] eqn:Es.
  destruct (served keep us) as [l open].
  destruct (recv_requests _ _ _ _ _ _ _) as [[res [cs' log']] s']. destruct H as (-> & -> & HO2 & H).
  assert (out s' = out s) as HO by congruence. destruct open; [destruct r as [e|rest]|].
  - subst res. pose proof (split_error _ _ _ _ Es) as Hne. apply Z.eqb_neq in Hne. rewrite Hne.
    unfold on_conns, conn_close, modify, mbind, M_bind, lift, emit. cbn. rewrite HO. done.
  - destruct H as (mbo & -> & Hh). unfold on_conns, modify. cbn [fst snd]. split; [done|]. split; [done|]. by exists mbo.
  - subst res. unfold on_conns, modify. cbn. by split_and!.
Qed.

(** ** Witnesses *)
Definition demo_a : bytes := cstr "GET / HTTP/1.1\r\nContent-Length: 2\r\n\r\nhiGET /x HT".
Definition demo_b : bytes := cstr "TP/1.0\r\nHost: a\r\n\r\n".

Lemma http_segmentation_witness :
  length (fst (requests (demo_a ++ demo_b))) = 2%nat /\ snd (requests (demo_a ++ demo_b)) = inr [].
Proof.
  set (u := (Msg (cstr "1.1") (cstr "GET") (cstr "/") [] 0 []
    [HttpHdr (cstr "Content-Length") (cstr "2") HTTP_HDR_CONTENT_LENGTH] None 2, cstr "hi")).
  assert (requests demo_a = ([u], inr (cstr "GET /x HT"))) as E by (vm_compute; reflexivity).
  pose proof (http_segmentation demo_a demo_b [u] (cstr "GET /x HT") ltac:(vm_compute; reflexivity) E) as H.
  rewrite H. vm_compute. split; reflexivity.
Defined.

Definition demo_u1 : message * bytes :=
  (Msg (cstr "1.1") (cstr "GET") (cstr "/") [] 0 []
    [HttpHdr (cstr "Content-Length") (cstr "2") HTTP_HDR_CONTENT_LENGTH] None 2, cstr "hi").
Definition demo_u2 : message * bytes :=
  (Msg (cstr "1.0") (cstr "GET") (cstr "/x") [] 0 [] [HttpHdr (cstr "Host") (cstr "a") 3191] None 0, []).
Definition demo_keep (u : message * bytes) : bool := ms_clen (fst u) >? 0.
Definition demo_conn (d : bytes) : http_conn := Conn 3 (Some (Mbuf d 0 (length d))) (Some TIMEOUT_INIT).

Lemma demo_requests : requests (demo_a ++ demo_b) = ([demo_u1; demo_u2], inr []).
Proof. vm_compute. reflexivity. Qed.
Lemma demo_holds d : holds (Some (Mbuf d 0 (length d))) d.
Proof.
  split; [split; [apply Nat.le_0_l|apply le_n]|]. unfold mbuf_buf, mbuf_get_left. cbn [mb_buf mb_pos mb_end].
  by rewrite drop_0, Nat.sub_0_r, firstn_all.
Qed.

Lemma http_recv_serves_witness :
  let '(_, (cs', log'), s') := @recv_handler good_env _ BUFSIZE_MAX (log_reqh demo_keep) 3
    (Mbuf demo_b 0 (length demo_b)) ([demo_conn demo_a], []) (Sys 0 []) in
  cs' = [] /\ log' = [demo_u1; demo_u2] /\ out s' = [].
Proof.
  pose proof (@http_recv_serves good_env BUFSIZE_MAX demo_keep 3 (Mbuf demo_b 0 (length demo_b)) demo_b demo_a
    (demo_conn demo_a) [demo_conn demo_a] [] (Sys 0 []) _ eq_refl (demo_holds demo_a) (demo_holds demo_b)
    ltac:(vm_compute; reflexivity)) as H.
  rewrite demo_requests in H. change (too_long _ _ _ _) with false in H.
  destruct (recv_handler _ _ _ _ _ _) as [[x [cs' log']] s']. destruct H as [-> [-> H]].
  split; [reflexivity|]. split; [reflexivity|exact H].
Defined.
