(* ===== verification/HttpWire.v ===== *)
(** * HTTP requests on the wire

    What a client prints, and that the decoder of [src/re-4.6.0/src/http/msg.c]
    reads it back: start line, headers with lists of values and quoted strings,
    and the body that the Content-Length announces.  The specification here
    ([print_request], [request_msg]) does not mention the decoder's loop. *)
From S2P Require Import Prelude Sys Fmt Mbuf Regex HttpServer HttpMsg HttpConn.
Local Open Scope Z_scope.

(** ** Requests *)

(** A header has a name and a non-empty list of values. *)
Record request := Request {
  rq_met : bytes;
  rq_path : bytes;
  rq_prm : bytes;
  rq_ver : bytes;
  rq_hdrs : list (bytes * (bytes * list bytes));
  rq_body : bytes
}.

Definition start_line (r : request) : bytes :=
  rq_met r ++ [32] ++ rq_path r ++ rq_prm r ++ cstr " HTTP/" ++ rq_ver r.
Definition print_values (vs : bytes * list bytes) : bytes :=
  fst vs ++ concat (map (fun v => [44; 32] ++ v) (snd vs)).
Definition print_hdr (h : bytes * (bytes * list bytes)) : bytes :=
  fst h ++ [58; 32] ++ print_values (snd h) ++ CRLF.
Definition content_length (r : request) : bytes * (bytes * list bytes) :=
  (cstr "Content-Length", (local_itoa (zlen (rq_body r)) 10 false, [])).
Definition all_hdrs (r : request) := rq_hdrs r ++ [content_length r].
Definition print_head (r : request) : bytes :=
  start_line r ++ CRLF ++ concat (map print_hdr (all_hdrs r)) ++ CRLF.
Definition print_request (r : request) : bytes := print_head r ++ rq_body r.

(** One header per value, and what the two headers that the server interprets
    say. *)
Definition hdr_items (h : bytes * (bytes * list bytes)) : list http_hdr :=
  map (fun v => HttpHdr (fst h) v (hdr_hash (fst h))) (fst (snd h) :: snd (snd h)).
Definition ctype_of (hs : list http_hdr) : option msg_ctype :=
  fold_left (fun ct h =>
    if hd_id h =? HTTP_HDR_CONTENT_TYPE then
      match msg_ctype_decode (hd_val h) with inr c => Some c | inl _ => ct end
    else ct) hs None.
Definition request_msg (r : request) : message :=
  let hs := concat (map hdr_items (all_hdrs r)) in
  Msg (rq_ver r) (rq_met r) (rq_path r) (rq_prm r) 0 [] hs (ctype_of hs) (zlen (rq_body r)).

(** ** What can be printed *)
Definition is_alpha (c : Z) : bool := in_class [(97, 122)] false c.
Definition is_path (c : Z) : bool := negb ((c =? 63) || (c =? 32) || (c =? 13) || (c =? 10)).
Definition is_prm (c : Z) : bool := negb ((c =? 32) || (c =? 13) || (c =? 10)).
Definition is_ver (c : Z) : bool := in_class [(48, 57); (46, 46)] false c.
Definition is_ws (c : Z) : bool := (c =? 32) || (c =? 9).
Definition is_name (c : Z) : bool := negb (is_ws c || (c =? 13) || (c =? 10) || (c =? 58)).
Definition is_val (c : Z) : bool := negb ((c =? 13) || (c =? 10)).

(** Quotes opened and not closed; commas outside quotes. *)
Definition quote_step (q : bool) (c : Z) : bool := if c =? 34 then negb q else q.
Fixpoint bare_comma (q : bool) (v : bytes) : bool :=
  match v with
  | [] => false
  | c :: t => ((c =? 44) && negb q) || bare_comma (quote_step q c) t
  end.

(** A value has no line break and neither begins nor ends with white space; an
    item of a list has its quotes closed and no comma outside them. *)
Definition value_okb (v : bytes) : bool :=
  forallb is_val v
  && match v with
     | [] => true
     | c :: _ => negb (is_ws c) && negb (is_ws (List.last v 0))
     end.
Definition item_okb (v : bytes) : bool :=
  match v with [] => false | _ => negb (bare_comma false v) && negb (fold_left quote_step v false) end.
Definition line_okb (h : bytes * (bytes * list bytes)) : bool :=
  let '(name, (v, vs)) := h in
  match name with [] => false | _ => forallb is_name name end
  && forallb value_okb (v :: vs)
  && (if hdr_comma_separated (hdr_hash name)
      then match v, vs with [], [] => true | _, _ => forallb item_okb (v :: vs) end
      else match vs with [] => true | _ => false end).
(** The printer adds the Content-Length; a Content-Type has to be one. *)
Definition item_means (h : http_hdr) : bool :=
  negb (hd_id h =? HTTP_HDR_CONTENT_LENGTH)
  && (if hd_id h =? HTTP_HDR_CONTENT_TYPE
      then match msg_ctype_decode (hd_val h) with inr _ => true | inl _ => false end else true).
Definition hdr_okb (h : bytes * (bytes * list bytes)) : bool := line_okb h && forallb item_means (hdr_items h).
Definition request_okb (r : request) : bool :=
  match rq_met r with [] => false | _ => forallb is_alpha (rq_met r) end
  && match rq_path r with [] => false | _ => forallb is_path (rq_path r) end
  && match rq_prm r with [] => true | c :: _ => (c =? 63) && forallb is_prm (rq_prm r) end
  && match rq_ver r with [] => false | _ => forallb is_ver (rq_ver r) end
  && forallb hdr_okb (rq_hdrs r).

(** ** The loop without its effects *)
Definition add_hdr (m : message) (h : http_hdr) : Z + message :=
  let mk ctyp clen :=
    Msg (ms_ver m) (ms_met m) (ms_path m) (ms_prm m) (ms_scode m) (ms_reason m) (ms_hdrs m ++ [h]) ctyp clen in
  if hd_id h =? HTTP_HDR_CONTENT_TYPE then
    match msg_ctype_decode (hd_val h) with
    | inl e => inl e
    | inr ct => inr (mk (Some ct) (ms_clen m))
    end
  else if hd_id h =? HTTP_HDR_CONTENT_LENGTH then inr (mk (ms_ctyp m) (pl_u32 (hd_val h)))
  else inr (mk (ms_ctyp m) (ms_clen m)).

Definition loop (data : bytes) (p : nat) (rest : bytes) (st : hstate) : Z + message * nat :=
  fst (@hdr_loop good_env data p rest st (Sys 0 [])).
Definition ended (data : bytes) (p : nat) (st : hstate) : Z + message :=
  match h_name st with
  | [] => inl EBADMSG
  | _ => add_hdr (h_msg st) (HttpHdr (h_name st)
           (match h_cv st with
            | Some cv => sub data cv (Z.of_nat p - Z.of_nat cv - h_ws st)
            | None => []
            end) (h_id st))
  end.

Lemma ended_fst data p st s : exists s', @end_hdr good_env data p st s = (ended data p st, s').
Proof. unfold end_hdr, ended. destruct (h_name st); by eexists. Qed.
Lemma loop_any data p rest st s : fst (@hdr_loop good_env data p rest st s) = loop data p rest st.
Proof. apply (@hdr_loop_pure good_env _). Qed.

(** One character, by its kind. *)
Definition more_ws (st : hstate) (lf : Z) : hstate :=
  HState (h_namep st) (h_name st) (h_cv st) (h_ws st + 1) lf (h_comsep st) (h_quote st) (h_id st) (h_msg st).
Lemma loop_ws data p c t st : is_ws c = true -> loop data p (c :: t) st = loop data (S p) t (more_ws st 0).
Proof. unfold loop, is_ws. cbn [hdr_loop]. by intros ->. Qed.
Lemma loop_cr data p t st : loop data p (13 :: t) st = loop data (S p) t (more_ws st (h_lf st)).
Proof. done. Qed.
Lemma loop_lf data p t st :
  h_namep st <> None -> h_lf st = 0 -> loop data p (10 :: t) st = loop data (S p) t (more_ws st 1).
Proof.
  unfold loop, more_ws. cbn [hdr_loop]. change ((10 =? 32) || _) with false. cbn iota. cbn [Z.eqb Pos.eqb].
  destruct (h_namep st); [|done]. by intros _ ->.
Qed.
Lemma loop_end data p t st :
  h_namep st <> None -> h_lf st = 1 ->
  loop data p (10 :: t) st = match ended data (S p) (more_ws st 2) with inl e => inl e | inr m => inr (m, S p) end.
Proof.
  unfold loop. cbn [hdr_loop]. change ((10 =? 32) || _) with false. cbn iota. cbn [Z.eqb Pos.eqb].
  unfold more_ws. destruct (h_namep st); [|done]. intros _ ->. change (1 =? 0) with false. change (1 + 1) with 2.
  unfold mbind, IO_bind. cbn iota. set (st1 := HState _ _ _ _ _ _ _ _ _).
  destruct (ended_fst data (S p) st1 (Sys 0 [])) as [s' ->]. done.
Qed.
Lemma loop_chr data p c t st :
  is_ws c = false -> is_val c = true -> h_lf st = 0 -> (c =? 44) && h_comsep st && negb (h_quote st) = false ->
  loop data p (c :: t) st = match hdr_chr data p c st with inl e => inl e | inr st => loop data (S p) t st end.
Proof.
  unfold loop, is_ws, is_val. cbn [hdr_loop]. intros -> Hv Hl Hc. destruct (c =? 13); [done|].
  destruct (c =? 10); [done|]. rewrite Hl, Hc. cbn [Z.eqb negb orb]. by destruct (hdr_chr _ _ _ _).
Qed.
Lemma loop_break data p c t st :
  is_ws c = false -> is_val c = true -> h_lf st = 1 ->
  loop data p (c :: t) st =
    match ended data p st with
    | inl e => inl e
    | inr m =>
        match hdr_chr data p c (HState None (h_name st) None (h_ws st) 0 false (h_quote st) (h_id st) m) with
        | inl e => inl e
        | inr st => loop data (S p) t st
        end
    end.
Proof.
  unfold loop at 1, is_ws, is_val. cbn [hdr_loop]. intros -> Hv Hl. destruct (c =? 13); [done|].
  destruct (c =? 10); [done|]. rewrite Hl. cbn [Z.eqb Pos.eqb negb orb]. unfold mbind, IO_bind.
  destruct (ended_fst data p st (Sys 0 [])) as [s' ->]. destruct (ended data p st) as [e|m]; [done|].
  destruct (hdr_chr _ _ _ _); [done|]. apply loop_any.
Qed.
Lemma loop_comma data p t st :
  h_lf st = 0 -> h_comsep st = true -> h_quote st = false ->
  loop data p (44 :: t) st =
    match ended data p st with
    | inl e => inl e
    | inr m => loop data (S p) t (HState (h_namep st) (h_name st) None (h_ws st) 0 true false (h_id st) m)
    end.
Proof.
  unfold loop at 1. intros Hl Hc Hq. cbn [hdr_loop]. change ((44 =? 32) || _) with false.
  cbn iota. cbn [Z.eqb Pos.eqb]. rewrite Hl, Hc, Hq. cbn [Z.eqb Pos.eqb negb orb andb]. unfold mbind, IO_bind.
  destruct (ended_fst data p st (Sys 0 [])) as [s' ->]. destruct (ended data p st) as [e|m]; [done|]. apply loop_any.
Qed.

(** ** Runs of characters *)
Lemma name_val c : is_name c = true -> is_ws c = false /\ is_val c = true /\ (c =? 58) = false.
Proof.
  unfold is_name, is_val. destruct (is_ws c), (c =? 13), (c =? 10), (c =? 58); done.
Qed.

Lemma name_run data q id m np nm : forall p t,
  forallb is_name nm = true ->
  loop data p (nm ++ t) (HState (Some np) [] None 0 0 false q id m)
  = loop data (p + length nm) t (HState (Some np) [] None 0 0 false q id m).
Proof.
  induction nm as [|c nm IH]; intros p t H; cbn [List.app length]; [by rewrite Nat.add_0_r|].
  cbn [forallb] in H. apply andb_true_iff in H as [Hc Hn]. destruct (name_val c Hc) as (H1 & H2 & H3).
  rewrite loop_chr by (try done; cbn; by rewrite andb_false_r). unfold hdr_chr. cbn [h_namep h_name]. rewrite H3. cbn [negb].
  cbn [h_cv h_lf h_comsep h_quote h_id h_msg]. rewrite IH by done. f_equal. lia.
Qed.

(** White space at the end of what has been read. *)
Definition trail_step (w c : Z) : Z := if is_ws c then w + 1 else 0.
Lemma value_run data np nm cv cs id m v : forall p t w q,
  nm <> [] -> forallb is_val v = true -> (cs = true -> bare_comma q v = false) ->
  loop data p (v ++ t) (HState (Some np) nm (Some cv) w 0 cs q id m)
  = loop data (p + length v) t
      (HState (Some np) nm (Some cv) (fold_left trail_step v w) 0 cs (fold_left quote_step v q) id m).
Proof.
  induction v as [|c v IH]; intros p t w q Hn Hv Hb; cbn [List.app length fold_left]; [by rewrite Nat.add_0_r|].
  cbn [forallb bare_comma] in *. apply andb_true_iff in Hv as [Hc Hv].
  assert (cs = true -> (c =? 44) && negb q = false /\ bare_comma (quote_step q c) v = false) as Hb'
    by (intros E; apply orb_false_iff; auto).
  replace (p + S (length v))%nat with (S p + length v)%nat by lia. rewrite <- IH; [|done|done|intros E; by apply Hb'].
  destruct (is_ws c) eqn:Ew.
  - rewrite loop_ws by done. unfold more_ws, trail_step, quote_step. rewrite Ew.
    cbn [h_namep h_name h_cv h_ws h_comsep h_quote h_id h_msg]. destruct (Z.eqb_spec c 34) as [->|]; done.
  - rewrite loop_chr; [|done|done|done|].
    2: { cbn [h_comsep h_quote]. destruct cs; [|by rewrite andb_false_r]. rewrite andb_true_r. by apply Hb'. }
    unfold hdr_chr, trail_step, quote_step. rewrite Ew. cbn [h_namep h_name h_cv h_ws h_lf h_comsep h_quote h_id h_msg].
    by destruct nm.
Qed.

Lemma trail_last v w : v <> [] -> is_ws (List.last v 0) = false -> fold_left trail_step v w = 0.
Proof.
  destruct (list_eq_nil_dec v) as [->|H]; [done|]. intros _. destruct (exists_last H) as (u & c & ->).
  rewrite last_last. intros E. rewrite fold_left_app. cbn [fold_left]. unfold trail_step at 1. by rewrite E.
Qed.

(** A whole value, behind the colon or a comma: where it is remembered to be. *)
Definition cv_of (p : nat) (v : bytes) : option nat := match v with [] => None | _ => Some p end.
Lemma value_read data np nm cs id m v p t w q :
  nm <> [] -> value_okb v = true -> (cs = true -> v = [] \/ item_okb v = true) ->
  exists w' q', (v <> [] -> w' = 0) /\ (cs = true -> v <> [] -> q' = false) /\
  loop data p (v ++ t) (HState (Some np) nm None w 0 cs q id m)
  = loop data (p + length v) t (HState (Some np) nm (cv_of p v) w' 0 cs q' id m).
Proof.
  intros Hn Hv Hi. destruct v as [|c v]; [exists w, q; by rewrite Nat.add_0_r|].
  unfold value_okb in Hv. apply andb_true_iff in Hv as [Hv H2]. apply andb_true_iff in H2 as [Hc Hl].
  apply negb_true_iff in Hc, Hl. pose proof Hv as Hv0. cbn [forallb] in Hv. apply andb_true_iff in Hv as [Hvc Hv].
  exists 0, (fold_left quote_step (c :: v) false). split; [done|]. split.
  { intros E _. destruct (Hi E) as [?|Hi']; [done|]. unfold item_okb in Hi'. apply andb_true_iff in Hi' as [_ Hi'].
    by apply negb_true_iff in Hi'. }
  assert (cs = true -> bare_comma false (c :: v) = false) as Hb.
  { intros E. destruct (Hi E) as [?|Hi']; [done|]. unfold item_okb in Hi'. apply andb_true_iff in Hi' as [Hi' _].
    by apply negb_true_iff in Hi'. }
  cbn [cv_of]. transitivity (loop data p ((c :: v) ++ t) (HState (Some np) nm (Some p) w 0 cs false id m)).
  - cbn [List.app].
    assert (c = 44 -> cs = false) as H44.
    { intros ->. destruct cs; [|done]. specialize (Hb eq_refl). cbn in Hb. done. }
    rewrite !loop_chr; [| try done..].
    + unfold hdr_chr. cbn [h_namep h_name h_cv h_ws h_lf h_comsep h_quote h_id h_msg]. by destruct nm.
    + cbn [h_comsep h_quote]. destruct (Z.eqb_spec c 44) as [->|]; [|done]. by rewrite H44.
    + cbn [h_comsep h_quote]. destruct (Z.eqb_spec c 44) as [->|]; [|done]. by rewrite H44.
  - rewrite value_run by done. by rewrite (trail_last (c :: v)) by done.
Qed.

Lemma sub_here data p v t : drop p data = v ++ t -> sub data p (zlen v) = v.
Proof. intros E. unfold sub. rewrite E, Nat2Z.id, take_app_le, firstn_all by lia. done. Qed.
Lemma drop_step {A} (data : list A) p v t : drop p data = v ++ t -> drop (p + length v) data = t.
Proof. intros E. rewrite <- drop_drop, E, drop_app_le, drop_all by lia. done. Qed.

Lemma ended_value data np nm lf cs q id m v p k t :
  nm <> [] -> drop p data = v ++ t ->
  forall w, (v <> [] -> w = Z.of_nat k) ->
  ended data (p + length v + k) (HState np nm (cv_of p v) w lf cs q id m) = add_hdr m (HttpHdr nm v id).
Proof.
  intros Hn E w Hw. unfold ended. cbn [h_name h_msg h_cv h_ws h_id]. destruct nm; [done|]. do 2 f_equal.
  destruct v as [|c v]; [done|]. cbn [cv_of]. rewrite Hw by done.
  replace (Z.of_nat (p + length (c :: v) + k) - Z.of_nat p - Z.of_nat k) with (zlen (c :: v)) by lia.
  by eapply sub_here.
Qed.

(** ** Lines *)

(** Between two lines: the first character of a name begins a header, an empty
    line ends the message; [k] is the message with the last header added. *)
Definition add_items (k : Z + message) (hs : list http_hdr) : Z + message :=
  fold_left (fun k h => match k with inl e => inl e | inr m => add_hdr m h end) hs k.
Definition ready (data : bytes) (p : nat) (st : hstate) (k : Z + message) : Prop :=
  (forall c t, is_name c = true -> exists q id,
     loop data p (c :: t) st =
     match k with inl e => inl e | inr m => loop data (S p) t (HState (Some p) [] None 0 0 false q id m) end)
  /\ (forall t, loop data p (13 :: 10 :: t) st =
        match k with inl e => inl e | inr m => inr (m, (p + 2)%nat) end).

Lemma add_items_err e hs : add_items (inl e) hs = inl e.
Proof. induction hs; [done|assumption]. Qed.
Lemma add_items_app k a b : add_items k (a ++ b) = add_items (add_items k a) b.
Proof. apply fold_left_app. Qed.

Lemma ready_start data p m : ready data p (HState None [] None 0 0 false false HTTP_HDR_NONE m) (inr m).
Proof.
  split.
  - intros c t Hc. destruct (name_val c Hc) as (H1 & H2 & H3). exists false, HTTP_HDR_NONE.
    rewrite loop_chr by (try done; cbn; by rewrite andb_false_r). unfold hdr_chr. cbn [h_namep h_name]. by rewrite H3.
  - intros t. rewrite loop_cr. unfold loop. cbn. do 2 f_equal. lia.
Qed.

(** Behind the line break of a header. *)
Lemma ready_pending data np nm cs q id m v p t w :
  nm <> [] -> drop p data = v ++ 13 :: 10 :: t -> (v <> [] -> w = 0) ->
  ready data (p + length v + 2) (HState (Some np) nm (cv_of p v) (w + 1 + 1) 1 cs q id m)
    (add_hdr m (HttpHdr nm v id)).
Proof.
  intros Hn E Hw. split.
  - intros c t' Hc. destruct (name_val c Hc) as (H1 & H2 & H3). exists q, id. rewrite loop_break by done.
    rewrite (ended_value data (Some np) nm 1 cs q id m v p 2 (13 :: 10 :: t)) by (try done; intros H; rewrite Hw by done; done).
    destruct (add_hdr m _) as [e|m']; [done|]. unfold hdr_chr. cbn [h_namep h_name]. by rewrite H3.
  - intros t'. rewrite loop_cr. cbn [h_lf]. rewrite loop_end by done. unfold more_ws.
    cbn [h_namep h_name h_cv h_ws h_lf h_comsep h_quote h_id h_msg].
    replace (S (S (p + length v + 2))) with (p + length v + 4)%nat by lia.
    rewrite (ended_value data (Some np) nm 2 cs q id m v p 4 (13 :: 10 :: t)) by (try done; intros H; rewrite Hw by done; done).
    destruct (add_hdr m _) as [e|m']; [done|]. do 2 f_equal. lia.
Qed.

(** The values of a line, from the white space before the first one on. *)
Lemma values_read data np (nm : bytes) (cs : bool) id : forall (vs : list bytes) (v : bytes) p m t w q,
  nm <> [] -> forallb value_okb (v :: vs) = true ->
  (if cs then match v, vs with [], [] => true | _, _ => forallb item_okb (v :: vs) end
   else match vs with [] => true | _ => false end) = true ->
  drop p data = print_values (v, vs) ++ CRLF ++ t ->
  let k := add_items (inr m) (map (fun v => HttpHdr nm v id) (v :: vs)) in
  let n := (p + length (print_values (v, vs)) + 2)%nat in
  let r := loop data p (print_values (v, vs) ++ CRLF ++ t) (HState (Some np) nm None w 0 cs q id m) in
  (exists e, k = inl e /\ r = inl e) \/ exists st, ready data n st k /\ r = loop data n t st.
Proof.
  induction vs as [|v2 vs IH]; intros v p m t w q Hn Hv Hi E k n r; cbn [forallb] in Hv; apply andb_true_iff in Hv as [Hv Hvs].
  - assert (print_values (v, []) = v) as Ep by (unfold print_values; cbn; apply app_nil_r).
    unfold n, r. rewrite Ep in *. right.
    destruct (value_read data np nm cs id m v p (CRLF ++ t) w q Hn Hv) as (w' & q' & Hw & Hq & ->).
    { intros ->. destruct v; [by left|]. right. cbn [forallb] in Hi. by apply andb_true_iff in Hi as [? _]. }
    eexists. split; [exact (ready_pending data np nm cs q' id m v p t w' Hn E Hw)|].
    cbn [CRLF List.app]. rewrite loop_cr, loop_lf by done. unfold more_ws.
    cbn [h_namep h_name h_cv h_ws h_lf h_comsep h_quote h_id h_msg]. unfold n. f_equal. lia.
  - destruct cs; [|done].
    assert (item_okb v = true /\ forallb item_okb (v2 :: vs) = true) as [Iv Ivs].
    { destruct v; [done|]. cbn [forallb] in Hi |- *. by apply andb_true_iff in Hi. }
    assert (v <> []) as Hvn by (by intros ->).
    assert (print_values (v, v2 :: vs) = v ++ [44; 32] ++ print_values (v2, vs)) as Ep.
    { unfold print_values. cbn [fst snd map concat]. by rewrite <- !app_assoc. }
    unfold n, r. rewrite Ep in *. rewrite <- !app_assoc in *.
    destruct (value_read data np nm true id m v p ([44; 32] ++ print_values (v2, vs) ++ CRLF ++ t) w q Hn Hv) as (w' & q' & Hw & Hq & ->).
    { by right. }
    cbn [List.app]. rewrite loop_comma by (try done; by apply Hq).
    cbn [h_namep h_name h_ws h_id].
    pose proof (ended_value data (Some np) nm 0 true q' id m v p 0 _ Hn E w' Hw) as He. rewrite Nat.add_0_r in He. rewrite He.
    unfold k. cbn [map]. unfold add_items at 1 2. cbn [fold_left].
    destruct (add_hdr m (HttpHdr nm v id)) as [e|m'] eqn:Ea.
    { left. exists e. split; [apply add_items_err|done]. }
    rewrite loop_ws by done. unfold more_ws. cbn [h_namep h_name h_cv h_ws h_lf h_comsep h_quote h_id h_msg].
    assert (drop (p + length v + 2) data = print_values (v2, vs) ++ CRLF ++ t) as E2.
    { rewrite <- drop_drop. erewrite drop_step by exact E. done. }
    replace (S (S (p + length v))) with (p + length v + 2)%nat by lia.
    destruct (IH v2 (p + length v + 2)%nat m' t (w' + 1) false Hn Hvs) as [H|(st & Hr & H)]; [|exact E2| |].
    + cbn [forallb] in Ivs |- *. destruct v2; [done|exact Ivs].
    + left. exact H.
    + right. exists st. split; [|rewrite H; f_equal; rewrite !length_app; cbn [length]; lia].
      rewrite length_app. cbn [length]. by replace (p + (length v + S (S (length (print_values (v2, vs))))) + 2)%nat
        with (p + length v + 2 + length (print_values (v2, vs)) + 2)%nat by lia.
Qed.

Lemma line_read data p st k h t :
  ready data p st k -> line_okb h = true -> drop p data = print_hdr h ++ t ->
  let k' := add_items k (hdr_items h) in
  let n := (p + length (print_hdr h))%nat in
  let r := loop data p (print_hdr h ++ t) st in
  (exists e, k' = inl e /\ r = inl e) \/ exists st', ready data n st' k' /\ r = loop data n t st'.
Proof.
  destruct h as [nm [v vs]]. intros [R1 _] Ho E k' n r. unfold line_okb in Ho.
  apply andb_true_iff in Ho as [Ho Hc]. apply andb_true_iff in Ho as [Hn Hv].
  destruct nm as [|c nm]; [done|]. cbn [forallb] in Hn. apply andb_true_iff in Hn as [Hc1 Hn].
  unfold r, n, k', print_hdr, hdr_items in *. cbn [fst snd] in *. rewrite <- !app_assoc in *. cbn [List.app] in *.
  destruct (R1 c (nm ++ 58 :: 32 :: print_values (v, vs) ++ CRLF ++ t) Hc1) as (q & id & ->).
  destruct k as [e|m]; [left; exists e; split; [apply add_items_err|done]|].
  rewrite name_run by done. rewrite loop_chr by (try done; cbn; by rewrite andb_false_r).
  unfold hdr_chr. cbn [h_namep h_name h_cv h_ws h_lf h_comsep h_quote h_id h_msg default]. change (negb (58 =? 58)) with false. cbn iota.
  change (Datatypes.id p) with p. replace (Z.of_nat (S p + length nm) - Z.of_nat p - 0) with (zlen (c :: nm)) by (cbn [length]; lia).
  change (c :: nm ++ ?x) with ((c :: nm) ++ x) in E. rewrite (sub_here _ _ _ _ E).

  rewrite loop_ws by done. unfold more_ws. cbn [h_namep h_name h_cv h_ws h_lf h_comsep h_quote h_id h_msg].
  assert (drop (S (S (S p + length nm))) data = print_values (v, vs) ++ CRLF ++ t) as E2.
  { replace (S (S (S p + length nm))) with (p + length (c :: nm) + 2)%nat by (cbn [length]; lia).
    rewrite <- drop_drop. erewrite drop_step by exact E. done. }
  destruct (values_read data p (c :: nm) (hdr_comma_separated (hdr_hash (c :: nm))) (hdr_hash (c :: nm)) vs v _ m t (0 + 1) q
    ltac:(done) Hv Hc E2) as [H|(st' & Hr & H)]; [by left|].
  right. exists st'. cbn [length]. rewrite !length_app. cbn [length]. rewrite length_app. cbn [length CRLF].
  replace (p + S (length nm + S (S (length (print_values (v, vs)) + 2))))%nat
    with (S (S (S p + length nm)) + length (print_values (v, vs)) + 2)%nat by lia.
  by split.
Qed.

Lemma lines_read data hs : forall p st k t,
  ready data p st k -> forallb line_okb hs = true -> drop p data = concat (map print_hdr hs) ++ CRLF ++ t ->
  loop data p (concat (map print_hdr hs) ++ CRLF ++ t) st =
  match add_items k (concat (map hdr_items hs)) with
  | inl e => inl e
  | inr m => inr (m, (p + length (concat (map print_hdr hs)) + 2)%nat)
  end.
Proof.
  induction hs as [|h hs IH]; intros p st k t R Ho E; cbn [map concat forallb] in *.
  - cbn [List.app CRLF length]. destruct R as [_ R]. rewrite R. change (add_items k []) with k.
    destruct k; [done|]. do 2 f_equal. lia.
  - apply andb_true_iff in Ho as [H1 H2]. rewrite <- app_assoc in *. rewrite add_items_app.
    destruct (line_read data p st k h _ R H1 E) as [(e & -> & ->)|(st' & R' & ->)]; [by rewrite add_items_err|].
    rewrite (IH _ st' _ t R' H2) by (by eapply drop_step).
    destruct (add_items (add_items _ _) _); [done|]. do 2 f_equal. rewrite length_app. lia.
Qed.

(** ** The start line *)
Lemma span_all f a t : forallb f a = true -> match t with c :: _ => f c = false | [] => True end -> span f (a ++ t) = length a.
Proof.
  intros Ha Ht. rewrite span_app by done. destruct t as [|c t]; [cbn; lia|]. cbn [span]. rewrite Ht. lia.
Qed.
Lemma forallb_mono {A} (f g : A -> bool) l : (forall x, f x = true -> g x = true) -> forallb f l = true -> forallb g l = true.
Proof. rewrite !forallb_forall. auto. Qed.

(** A range of one character below the letters. *)
Lemma one_chr a c : a < 65 -> (a <=? tolower c) && (tolower c <=? a) = (c =? a).
Proof.
  intros Ha. unfold tolower. destruct ((65 <=? c) && (c <=? 90)) eqn:E; bool_hyps;
    [destruct (Z.leb_spec a (c + 32)), (Z.leb_spec (c + 32) a)|destruct (Z.leb_spec a c), (Z.leb_spec c a)];
    destruct (Z.eqb_spec c a); cbn; done || (exfalso; lia).
Qed.
Lemma text_class c : is_text c = is_val c.
Proof. unfold is_val, expr_match. cbn [existsb fst snd]. by rewrite !one_chr, orb_false_r by lia. Qed.
Lemma path_class c : in_class [(63, 63); (32, 32)] true c = negb ((c =? 63) || (c =? 32)).
Proof. unfold expr_match. cbn [existsb fst snd]. by rewrite !one_chr, orb_false_r by lia. Qed.
Lemma prm_class c : in_class [(32, 32)] true c = negb (c =? 32).
Proof. unfold expr_match. cbn [existsb fst snd]. by rewrite !one_chr, orb_false_r by lia. Qed.

Lemma path_in c : is_path c = true -> in_class [(63, 63); (32, 32)] true c = true.
Proof. cbn beta. rewrite path_class. unfold is_path. by destruct (c =? 63), (c =? 32). Qed.
Lemma prm_in c : is_prm c = true -> in_class [(32, 32)] true c = true.
Proof. cbn beta. rewrite prm_class. unfold is_prm. by destruct (c =? 32). Qed.
Lemma alpha_val c : is_alpha c = true -> is_val c = true.
Proof.
  unfold is_alpha, is_val, expr_match. cbn [existsb fst snd]. destruct (Z.eqb_spec c 13) as [->|]; [done|].
  by destruct (Z.eqb_spec c 10) as [->|].
Qed.
Lemma ver_val c : is_ver c = true -> is_val c = true.
Proof.
  unfold is_ver, is_val, expr_match. cbn [existsb fst snd]. destruct (Z.eqb_spec c 13) as [->|]; [done|].
  by destruct (Z.eqb_spec c 10) as [->|].
Qed.
Lemma path_val c : is_path c = true -> is_val c = true.
Proof. unfold is_path, is_val. by destruct (c =? 13), (c =? 10), (c =? 63), (c =? 32). Qed.
Lemma prm_val c : is_prm c = true -> is_val c = true.
Proof. unfold is_prm, is_val. by destruct (c =? 13), (c =? 10), (c =? 32). Qed.

Lemma start_found sl t :
  sl <> [] -> forallb is_val sl = true -> start_search 0 (sl ++ CRLF ++ t) = Some (0, 0, length sl, 1)%nat.
Proof.
  intros Hn Hv. assert (start_try (sl ++ CRLF ++ t) = Some (0, length sl, 1)%nat) as E.
  2: { destruct sl as [|c sl]; [done|]. cbn [List.app start_search] in *. by rewrite E. }
  unfold start_try.
  assert (span is_crlf (sl ++ CRLF ++ t) = 0%nat) as ->.
  { destruct sl as [|c sl]; [done|]. cbn [List.app span forallb] in *. apply andb_true_iff in Hv as [Hc _].
    rewrite <- text_class, crlf_text in Hc. by destruct (is_crlf c). }
  rewrite drop_0, (span_all is_text sl) by (done || (eapply forallb_mono; [|exact Hv]; intros c Hc; cbn beta; by rewrite text_class)).
  rewrite drop_app_length. destruct (Nat.eqb_spec (length sl) 0) as [H0|_]; [by destruct sl|]. done.
Qed.

Lemma start_matches met path prm ver :
  met <> [] -> forallb is_alpha met = true -> path <> [] -> forallb is_path path = true ->
  match prm with [] => true | c :: _ => (c =? 63) && forallb is_prm prm end = true ->
  ver <> [] -> forallb is_ver ver = true -> zlen (met ++ [32] ++ path ++ prm ++ cstr " HTTP/" ++ ver) < UINT32_MAX ->
  re_try (cstr "[a-z]+ [^? ]+[^ ]* HTTP/[0-9.]+")
    (re_start 0 (met ++ [32] ++ path ++ prm ++ cstr " HTTP/" ++ ver))
  = Matched [(0, length met); (length met + 1, length path); (length met + 1 + length path, length prm);
             (length met + 1 + length path + length prm + 6, length ver)]%nat.
Proof.
  intros Nm Fm Np Fp Hprm Nv Fv Hl.
  assert (forallb is_prm prm = true) as Fq by (destruct prm; [done|by apply andb_true_iff in Hprm as [_ ?]]).
  assert (cstr "[a-z]+ [^? ]+[^ ]* HTTP/[0-9.]+" = 91 :: [97; 45; 122] ++ 93 :: 43 :: 32 :: 91 :: [94; 63; 32] ++ 93 :: 43 ::
    91 :: [94; 32] ++ 93 :: 42 :: 32 :: 72 :: 84 :: 84 :: 80 :: 47 :: 91 :: [48; 45; 57; 46] ++ 93 :: 43 :: []) as -> by reflexivity.
  rewrite !length_app in Hl. cbn [length] in Hl. rewrite try_go.
  rewrite (go_plus [97; 45; 122] _ [(97, 122)] false) by (done || (rewrite !length_app; cbn [length]; lia)).
  cbn zeta. rewrite (span_all (in_class [(97, 122)] false) met) by done.
  destruct (Nat.eqb_spec (length met) 0) as [H0|_]; [by destruct met|]. rewrite drop_app_length.
  rewrite go_chr by done. change ([32] ++ path ++ prm ++ cstr " HTTP/" ++ ver) with (32 :: path ++ prm ++ cstr " HTTP/" ++ ver). change (tolower 32 =? tolower 32) with true. cbn iota.
  rewrite (go_plus [94; 63; 32] _ [(63, 63); (32, 32)] true) by (done || (rewrite !length_app; cbn [length]; lia)).
  cbn zeta. rewrite (span_all (in_class [(63, 63); (32, 32)] true) path).
  2: { eapply forallb_mono; [|exact Fp]. apply path_in. }
  2: { destruct prm as [|c prm]; [done|]. cbn [List.app]. apply andb_true_iff in Hprm as [Hc _]. apply Z.eqb_eq in Hc as ->. done. }
  destruct (Nat.eqb_spec (length path) 0) as [H0|_]; [by destruct path|]. rewrite drop_app_length.
  rewrite (go_star [94; 32] _ [(32, 32)] true) by (done || (rewrite !length_app; cbn [length]; lia)).
  cbn zeta. rewrite (span_all (in_class [(32, 32)] true) prm).
  2: { eapply forallb_mono; [|exact Fq]. apply prm_in. }
  2: done.
  rewrite drop_app_length. change (cstr " HTTP/" ++ ver) with (32 :: 72 :: 84 :: 84 :: 80 :: 47 :: ver).
  do 6 (rewrite go_chr by done; match goal with |- context [tolower ?a =? tolower ?a] => change (tolower a =? tolower a) with true end; cbn iota).
  rewrite (go_plus [48; 45; 57; 46] _ [(48, 57); (46, 46)] false) by (done || lia).
  cbn zeta. assert (span (in_class [(48, 57); (46, 46)] false) ver = length ver) as ->.
  { rewrite <- (app_nil_r ver) at 1. by apply span_all. }
  destruct (Nat.eqb_spec (length ver) 0) as [H0|_]; [by destruct ver|]. rewrite drop_all.
  unfold go. cbn [re_try r_fm r_caps List.app].
  repeat first [progress f_equal | lia].
Qed.

Lemma start_line_decodes r :
  request_okb r = true -> zlen (start_line r) < UINT32_MAX ->
  start_decode true (start_line r)
  = Some (Msg (rq_ver r) (rq_met r) (rq_path r) (rq_prm r) 0 [] [] None 0).
Proof.
  intros Ho Hl. unfold request_okb in Ho. apply andb_true_iff in Ho as [Ho _]. apply andb_true_iff in Ho as [Ho Hver].
  apply andb_true_iff in Ho as [Ho Hprm]. apply andb_true_iff in Ho as [Hmet Hpath].
  destruct r as [met path prm ver hs body]. cbn [rq_met rq_path rq_prm rq_ver rq_body] in *.
  assert (met <> [] /\ forallb is_alpha met = true) as [Nm Fm] by (by destruct met).
  assert (path <> [] /\ forallb is_path path = true) as [Np Fp] by (by destruct path).
  assert (ver <> [] /\ forallb is_ver ver = true) as [Nv Fv] by (by destruct ver).
  unfold start_line in *. cbn [rq_met rq_path rq_prm rq_ver] in *.
  pose proof (start_matches met path prm ver Nm Fm Np Fp Hprm Nv Fv Hl) as ER.
  unfold start_decode, re_regex.
  destruct (met ++ _) as [|x tl] eqn:Ed; [by destruct met|]. cbn [re_search]. rewrite ER. cbn [fst]. change (0 =? 0)%nat with true. cbn [negb].
  rewrite <- Ed. clear. unfold cap_text. cbn [fst snd].
  f_equal. f_equal.
  - replace (met ++ [32] ++ path ++ prm ++ cstr " HTTP/" ++ ver) with ((met ++ [32] ++ path ++ prm ++ cstr " HTTP/") ++ ver)
      by (by rewrite <- !app_assoc).
    rewrite drop_app_length' by (rewrite !length_app; cbn; lia). by rewrite firstn_all.
  - by rewrite drop_0, take_app_length.
  - rewrite (app_assoc met), drop_app_length' by (rewrite !length_app; cbn; lia). by rewrite take_app_length.
  - rewrite (app_assoc met), (app_assoc (met ++ _)), drop_app_length' by (rewrite !length_app; cbn; lia). by rewrite take_app_length.
Qed.

(** ** The whole request *)
Lemma start_line_text r : request_okb r = true -> start_line r <> [] /\ forallb is_val (start_line r) = true.
Proof.
  unfold request_okb, start_line. intros Ho. apply andb_true_iff in Ho as [Ho _]. apply andb_true_iff in Ho as [Ho Hver].
  apply andb_true_iff in Ho as [Ho Hprm]. apply andb_true_iff in Ho as [Hmet Hpath]. split; [by destruct (rq_met r)|].
  rewrite !forallb_app. cbn [forallb andb]. change (forallb is_val (cstr " HTTP/")) with true. change (is_val 32) with true.
  rewrite (forallb_mono is_alpha _ (rq_met r) alpha_val) by (by destruct (rq_met r)).
  rewrite (forallb_mono is_path _ (rq_path r) path_val) by (by destruct (rq_path r)).
  rewrite (forallb_mono is_prm _ (rq_prm r) prm_val)
    by (destruct (rq_prm r); [done|by apply andb_true_iff in Hprm as [_ ?]]).
  by rewrite (forallb_mono is_ver _ (rq_ver r) ver_val) by (by destruct (rq_ver r)).
Qed.

Lemma pl_u32_itoa n : 0 <= n < 2 ^ 32 -> pl_u32 (local_itoa n 10 false) = n.
Proof.
  intros H. destruct (local_itoa_spec n ltac:(lia)) as (_ & Hdig & Hval). unfold pl_u32.
  assert (forallb isdigit (local_itoa n 10 false) = true) as -> by (apply forallb_forall; by apply List.Forall_forall).
  by rewrite Hval, u32_small.
Qed.

Definition ctype_step (ct : option msg_ctype) (h : http_hdr) : option msg_ctype :=
  if hd_id h =? HTTP_HDR_CONTENT_TYPE then
    match msg_ctype_decode (hd_val h) with inr c => Some c | inl _ => ct end
  else ct.
Lemma add_items_means hs : forall m,
  forallb item_means hs = true ->
  add_items (inr m) hs
  = inr (Msg (ms_ver m) (ms_met m) (ms_path m) (ms_prm m) (ms_scode m) (ms_reason m) (ms_hdrs m ++ hs)
           (fold_left ctype_step hs (ms_ctyp m)) (ms_clen m)).
Proof.
  induction hs as [|h hs IH]; intros m H.
  - cbn. rewrite app_nil_r. by destruct m.
  - cbn [forallb] in H. apply andb_true_iff in H as [Hh H]. unfold item_means in Hh. apply andb_true_iff in Hh as [H1 H2].
    apply negb_true_iff in H1. unfold add_items. cbn [fold_left]. unfold add_hdr at 2, ctype_step at 2. rewrite H1.
    destruct (hd_id h =? HTTP_HDR_CONTENT_TYPE).
    + destruct (msg_ctype_decode (hd_val h)) as [e|ct]; [done|]. fold (add_items (inr (Msg (ms_ver m) (ms_met m) (ms_path m) (ms_prm m) (ms_scode m) (ms_reason m) (ms_hdrs m ++ [h]) (Some ct) (ms_clen m))) hs).
      rewrite IH by done. cbn. by rewrite <- app_assoc.
    + fold (add_items (inr (Msg (ms_ver m) (ms_met m) (ms_path m) (ms_prm m) (ms_scode m) (ms_reason m) (ms_hdrs m ++ [h]) (ms_ctyp m) (ms_clen m))) hs).
      rewrite IH by done. cbn. by rewrite <- app_assoc.
Qed.

Lemma length_line_ok n : 0 <= n < 2 ^ 64 -> line_okb (cstr "Content-Length", (local_itoa n 10 false, [])) = true.
Proof.
  intros Hn. destruct (local_itoa_spec n Hn) as (Hne & Hdig & _). unfold line_okb.
  change (hdr_comma_separated (hdr_hash (cstr "Content-Length"))) with false.
  assert (forallb is_name (cstr "Content-Length") = true) as E by reflexivity. cbn [cstr] in *. rewrite E.
  cbn [forallb andb]. rewrite !andb_true_r. set (ds := local_itoa n 10 false) in *.
  assert (forall c, isdigit c = true -> is_val c = true /\ is_ws c = false) as Hd.
  { intros c Hc. unfold isdigit in Hc. bool_hyps. unfold is_val, is_ws.
    destruct (Z.eqb_spec c 13), (Z.eqb_spec c 10), (Z.eqb_spec c 32), (Z.eqb_spec c 9); lia || done. }
  unfold value_okb. apply andb_true_iff. split.
  { apply forallb_forall. intros c Hc. exact (proj1 (Hd c (proj1 (List.Forall_forall _ _) Hdig c Hc))). }
  destruct (exists_last Hne) as (u & z & Eu). rewrite Eu in *. rewrite last_last.
  apply Forall_app in Hdig as [Hu Hz]. apply Forall_inv in Hz.
  rewrite (proj2 (Hd z Hz)). destruct u as [|c u]; cbn [List.app]; [by rewrite (proj2 (Hd z Hz))|].
  apply Forall_inv in Hu as Hc. by rewrite (proj2 (Hd c Hc)).
Qed.

Lemma items_msg r :
  request_okb r = true -> zlen (rq_body r) < 2 ^ 32 ->
  add_items (inr (Msg (rq_ver r) (rq_met r) (rq_path r) (rq_prm r) 0 [] [] None 0)) (concat (map hdr_items (all_hdrs r)))
  = inr (request_msg r).
Proof.
  unfold request_okb. intros Hh Hb. apply andb_true_iff in Hh as [_ Hh].
  unfold request_msg, all_hdrs. rewrite !map_app, !concat_app, add_items_app. rewrite add_items_means.
  2: { clear -Hh. induction (rq_hdrs r) as [|h l IH]; [done|]. cbn [forallb map concat] in *. apply andb_true_iff in Hh as [H1 H2].
       unfold hdr_okb in H1. apply andb_true_iff in H1 as [_ H1]. rewrite forallb_app, H1. by apply IH. }
  cbn [ms_ver ms_met ms_path ms_prm ms_scode ms_reason ms_hdrs ms_ctyp ms_clen List.app map concat].
  change (hdr_items (content_length r))
    with [HttpHdr (cstr "Content-Length") (local_itoa (zlen (rq_body r)) 10 false) HTTP_HDR_CONTENT_LENGTH].
  cbn [List.app]. unfold add_items, add_hdr. cbn [fold_left hd_id hd_val].
  change (HTTP_HDR_CONTENT_LENGTH =? HTTP_HDR_CONTENT_TYPE) with false. rewrite Z.eqb_refl, pl_u32_itoa by lia. cbn iota.
  cbn [ms_ver ms_met ms_path ms_prm ms_scode ms_reason ms_hdrs ms_ctyp ms_clen]. do 2 f_equal.
  unfold ctype_of. rewrite fold_left_app. reflexivity.
Qed.

Lemma head_decodes r t :
  request_okb r = true -> zlen (rq_body r) < 2 ^ 32 -> zlen (print_head r ++ t) < UINT32_MAX ->
  decode_pure (print_head r ++ t) = inr (request_msg r, length (print_head r)).
Proof.
  intros Ho Hb Hl. destruct (start_line_text r Ho) as [Hn Hv]. pose proof Ho as Hh. unfold request_okb in Hh.
  apply andb_true_iff in Hh as [_ Hh].
  assert (print_head r ++ t = start_line r ++ CRLF ++ concat (map print_hdr (all_hdrs r)) ++ CRLF ++ t) as Ep
    by (unfold print_head; by rewrite <- !app_assoc).
  assert (zlen (start_line r) < UINT32_MAX) as Hs by (rewrite Ep, length_app in Hl; lia).
  set (data := print_head r ++ t) in *.
  unfold decode_pure, http_msg_decode, re_regex. rewrite start_regex by done.
  assert (start_search 0 data = Some (0, 0, length (start_line r), 1)%nat) as -> by (rewrite Ep; by apply start_found).
  unfold mbind, IO_bind. change (@ask good_env QAlloc (Sys 0 [])) with (1, Sys 1 []). cbn [Z.eqb].
  assert (exists mb s0, @mbuf_alloc good_env (Z.to_nat 8192) (Sys 1 []) = (Some mb, s0)) as (mb & s0 & ->) by (by eexists _, _).
  assert (cap_text data (0 + 0, length (start_line r))%nat = start_line r) as ->.
  { unfold cap_text. cbn [fst snd Nat.add]. by rewrite drop_0, Ep, take_app_length. }
  rewrite (start_line_decodes r Ho Hs), loop_any. cbn [fst snd Nat.add].
  assert (drop (length (start_line r) + 1 + 1) data = concat (map print_hdr (all_hdrs r)) ++ CRLF ++ t) as Ed.
  { rewrite Ep, <- Nat.add_assoc, <- drop_drop, drop_app_length. done. }
  rewrite Ed. rewrite (lines_read data _ _ _ _ _ (ready_start _ _ _)); [|unfold all_hdrs; rewrite forallb_app|exact Ed].
  2: { apply andb_true_iff. split; [eapply forallb_mono; [|exact Hh]; intros h; unfold hdr_okb; intros H; by apply andb_true_iff in H as [? _]|].
       cbn [forallb]. unfold content_length. rewrite length_line_ok by lia. done. }
  rewrite items_msg by done.
  do 2 f_equal. unfold print_head. rewrite !length_app. cbn [length CRLF]. lia.
Qed.

(** C16. HTTP requests survive the wire: what clients print -- any method, path,
    parameters and version, headers with values, with lists of values where the
    header is one, and quoted strings, a body of any octets with its
    Content-Length -- one after the other on a connection is taken apart into
    exactly these requests, each value a header of its own, and their bodies;
    what follows is framed as if it stood alone. *)
Theorem http_requests_roundtrip (rs : list request) (b : bytes) :
  forallb request_okb rs = true -> zlen (concat (map print_request rs) ++ b) < UINT32_MAX ->
  requests (concat (map print_request rs) ++ b)
  = (map (fun r => (request_msg r, rq_body r)) rs ++ fst (requests b), snd (requests b)).
Proof.
  induction rs as [|r rs IH]; cbn [map concat forallb]; intros Ho Hl; [cbn [List.app]; by destruct (requests b)|].
  apply andb_true_iff in Ho as [Hr Ho]. unfold print_request in *. rewrite <- !app_assoc in *.
  set (rest := concat (map (fun r => print_head r ++ rq_body r) rs) ++ b) in *.
  assert (zlen (print_head r) + zlen (rq_body r) + zlen rest < UINT32_MAX) as Hl' by (rewrite !length_app in Hl; lia).
  unfold UINT32_MAX in Hl'. specialize (IH Ho ltac:(unfold UINT32_MAX; lia)).
  unfold requests at 1. cbn [split_requests]. rewrite head_decodes by (try done; lia).
  change (ms_clen (request_msg r)) with (zlen (rq_body r)). rewrite !length_app, Nat2Z.id.
  destruct (Z.ltb_spec (Z.of_nat (length (print_head r) + (length (rq_body r) + length rest) - length (print_head r))) (zlen (rq_body r))); [lia|].
  rewrite <- drop_drop, !drop_app_length, take_app_length.
  assert (0 < length (print_head r))%nat by (unfold print_head; rewrite !length_app; cbn [CRLF length]; lia).
  rewrite (split_fuel _ (S (length rest))) by (unfold UINT32_MAX; lia). fold (requests rest).
  change (map (fun r => print_head r ++ rq_body r) rs) with (map print_request rs) in rest.
  unfold rest in IH |- *. by rewrite IH.
Qed.

Definition demo_request (body : string) : request :=
  Request (cstr "POST") (cstr "/api/call") (cstr "?a=1") (cstr "1.1")
    [(cstr "Host", (cstr "door", [])); (cstr "Accept", (cstr "text/html", [cstr "a;q=\q,\q"; cstr "x y"]));
     (cstr "Content-Type", (cstr "application/json", [])); (cstr "X-Empty", ([], []))] (cstr body).

Lemma http_requests_roundtrip_witness :
  map (fun u => (ms_path (fst u), snd u))
    (fst (requests (concat (map print_request [demo_request "abc"; demo_request ""]) ++ cstr "GE")))
  = [(cstr "/api/call", cstr "abc"); (cstr "/api/call", [])].
Proof.
  rewrite (http_requests_roundtrip [demo_request "abc"; demo_request ""] (cstr "GE"));
    [vm_compute; reflexivity|vm_compute; reflexivity|vm_compute; reflexivity].
Defined.
