(* ===== verification/Srtp.v ===== *)
(** * Secure RTP (libre [src/srtp], [src/aes/openssl/aes.c], [src/hmac/openssl/hmac.c])

    Sessions that encrypt and authenticate RTP and RTCP packets: key derivation,
    streams with their roll-over counters, replay protection, and the functions
    that protect a packet in its buffer and take the protection off.  The
    theorems are in [SrtpReplay], [SrtpDeliver], [SrtcpDeliver] and [SrtpAuth].

    The cipher and the hash are OpenSSL's and a parameter, the class [Crypto]:
    a context is the key, the initialisation vector and what has been fed to it;
    each call may fail.  A stream is named by its SSRC, which is unique in a
    session. *)
From S2P Require Import Prelude Sys Fmt Mbuf Rtp.

Definition ENOTSUP : Z := 95.
Definition EAUTH : Z := 217.
Definition ENOSR : Z := 63.
Definition SHA_DIGEST_LENGTH : nat := 20.
Definition AES_BLOCK_SIZE : nat := 16.
Definition GCM_TAGLEN : nat := 16.
Definition MAX_KEYLEN : nat := 32.
Definition SRTP_MAX_STREAMS : nat := 8.
Definition SRTP_WINDOW_SIZE : Z := 64.

(** ** OpenSSL *)
Inductive aes_mode := AES_MODE_CTR | AES_MODE_GCM.

Class Crypto := {
  (** whether the [n]-th call succeeds *)
  evp_ok : nat -> bool;
  (** counter mode: key, vector, octets processed before, input *)
  evp_ctr : bytes -> bytes -> nat -> bytes -> bytes;
  (** Galois counter mode: direction (encrypting), key, vector, octets before, input *)
  evp_gcm : bool -> bytes -> bytes -> nat -> bytes -> bytes;
  (** its tag: key, vector, associated data, ciphertext *)
  evp_gcm_tag : bytes -> bytes -> bytes -> bytes -> bytes;
  (** HMAC with SHA-1: key, data *)
  evp_hmac : bytes -> bytes -> bytes
}.

(** What is documented of them: decryption undoes encryption octet by octet, a
    tag has 16 octets, a digest 20. *)
Class CryptoSpec (C : Crypto) := {
  ctr_inverse : forall k iv n d, evp_ctr k iv n (evp_ctr k iv n d) = d;
  ctr_length : forall k iv n d, length (evp_ctr k iv n d) = length d;
  gcm_inverse : forall k iv n d, evp_gcm false k iv n (evp_gcm true k iv n d) = d;
  gcm_length : forall b k iv n d, length (evp_gcm b k iv n d) = length d;
  gcm_tag_length : forall k iv a d, length (evp_gcm_tag k iv a d) = GCM_TAGLEN;
  hmac_length : forall k d, length (evp_hmac k d) = SHA_DIGEST_LENGTH
}.
(** No call fails. *)
Class CryptoOk (C : Crypto) := crypto_ok : forall n, evp_ok n = true.

Section crypto.
Context `{V : Env} `{C : Crypto}.

Definition evp : IO bool := n ← fresh; mret (evp_ok n).

(** [struct aes] with the OpenSSL context in it. *)
Record aes := Aes {
  a_mode : aes_mode;  a_encr : bool;  a_key : bytes;  a_iv : bytes;
  a_done : nat;       (* octets processed since the vector was set *)
  a_aad : bytes;      (* associated data so far *)
  a_ct : bytes        (* ciphertext so far *)
}.

Definition aes_cipher (mode : aes_mode) (key_bits : nat) : bool := (key_bits =? 128)%nat || (key_bits =? 256)%nat.
Definition aes_alloc (mode : aes_mode) (key iv : bytes) : IO (Z + aes) :=
  if negb (aes_cipher mode (length key * 8)) then mret (inl ENOTSUP)
  else
    m ← ask QAlloc;
    if m =? 0 then mret (inl ENOMEM)
    else
      c ← evp;
      if negb c then mret (inl ENOMEM)
      else r ← evp; mret (if negb r then inl EPROTO else inr (Aes mode true key iv 0 [] [])).
(** A failure is not reported: the old vector stays. *)
Definition aes_set_iv (a : aes) (iv : bytes) : IO aes :=
  r ← evp; mret (if r : bool then Aes (a_mode a) (a_encr a) (a_key a) iv 0 [] [] else a).
Definition set_crypt_dir (a : aes) (encr : bool) : IO (bool * aes) :=
  if Bool.eqb (a_encr a) encr then mret (true, a)
  else r ← evp; mret (if r : bool then (true, Aes (a_mode a) encr (a_key a) (a_iv a) (a_done a) (a_aad a) (a_ct a)) else (false, a)).

(** [aes_encr] and [aes_decr], with an output buffer and with none (the input is
    then associated data).  The result is the error, the output, the context. *)
Definition aes_update (encr : bool) (a : aes) (inp : bytes) : IO (Z * bytes * aes) :=
  '(ok, a) ← set_crypt_dir a encr;
  if negb ok then mret (EPROTO, inp, a)
  else
    r ← evp;
    if negb r then mret (EPROTO, inp, a)
    else
      let out := match a_mode a with AES_MODE_CTR => evp_ctr (a_key a) (a_iv a) (a_done a) inp | AES_MODE_GCM => evp_gcm encr (a_key a) (a_iv a) (a_done a) inp end in
      mret (0, out, Aes (a_mode a) (a_encr a) (a_key a) (a_iv a) (a_done a + length inp) (a_aad a) (a_ct a ++ if encr then out else inp)).
Definition aes_update_aad (encr : bool) (a : aes) (inp : bytes) : IO (Z * aes) :=
  '(ok, a) ← set_crypt_dir a encr;
  if negb ok then mret (EPROTO, a)
  else
    r ← evp;
    mret (if negb r then (EPROTO, a) else (0, Aes (a_mode a) (a_encr a) (a_key a) (a_iv a) (a_done a) (a_aad a ++ inp) (a_ct a))).
Definition aes_encr := aes_update true.
Definition aes_decr := aes_update false.

Definition aes_tag (a : aes) : bytes := evp_gcm_tag (a_key a) (a_iv a) (a_aad a) (a_ct a).
Definition aes_get_authtag (a : aes) (taglen : nat) : IO (Z * bytes) :=
  match a_mode a with
  | AES_MODE_CTR => mret (ENOTSUP, [])
  | AES_MODE_GCM =>
      r ← evp;
      if negb r then mret (EPROTO, [])
      else r ← evp; mret (if negb r then (EPROTO, []) else (0, take taglen (aes_tag a)))
  end.
Definition aes_authenticate (a : aes) (tag : bytes) : IO Z :=
  match a_mode a with
  | AES_MODE_CTR => mret ENOTSUP
  | AES_MODE_GCM =>
      r ← evp;
      if negb r then mret EPROTO
      else r ← evp; mret (if negb (r && bytes_eqb (take (length tag) (aes_tag a)) tag) then EAUTH else 0)
  end.

(** [struct hmac] is its key. *)
Definition hmac_create (key : bytes) : IO (Z + bytes) :=
  if (length key =? 0)%nat then mret (inl EINVAL)
  else
    m ← ask QAlloc;
    if m =? 0 then mret (inl ENOMEM)
    else k ← ask QAlloc; mret (if k =? 0 then inl ENOMEM else inr key).
Definition hmac_digest (key data : bytes) : IO (Z * bytes) :=
  if (length data =? 0)%nat then mret (EINVAL, [])
  else r ← evp; mret (if negb r then (EPROTO, []) else (0, evp_hmac key data)).
End crypto.

(** ** Replay protection ([replay.c]) *)
Record replay := Replay { bitmap : Z; lix : Z }.
Definition srtp_replay_init : replay := Replay 0 0.
Definition srtp_replay_check (r : replay) (ix : Z) : bool * replay :=
  if lix r <? ix then
    let diff := ix - lix r in
    (true, Replay (if diff <? SRTP_WINDOW_SIZE then Z.lor (u64 (Z.shiftl (bitmap r) diff)) 1 else 1) ix)
  else
    let diff := lix r - ix in
    if SRTP_WINDOW_SIZE <=? diff then (false, r)
    else if negb (Z.land (bitmap r) (Z.shiftl 1 diff) =? 0) then (false, r)
    else (true, Replay (Z.lor (bitmap r) (Z.shiftl 1 diff)) (lix r)).

(** ** Streams ([stream.c]) *)
Record srtp_stream := Stream {
  replay_rtp : replay;  replay_rtcp : replay;
  ssrc : Z;  roc : Z;  s_l : Z;  s_l_set : bool;  rtcp_index : Z
}.
Record comp := Comp {
  c_aes : option aes;  c_mode : aes_mode;  c_hmac : option bytes;  k_s : bytes;  tag_len : nat
}.
Record srtp := Srtp { sp_rtp : comp; sp_rtcp : comp; streaml : list srtp_stream }.

Definition set_replay_rtp r st := Stream r (replay_rtcp st) (ssrc st) (roc st) (s_l st) (s_l_set st) (rtcp_index st).
Definition set_replay_rtcp r st := Stream (replay_rtp st) r (ssrc st) (roc st) (s_l st) (s_l_set st) (rtcp_index st).
Definition set_roc v st := Stream (replay_rtp st) (replay_rtcp st) (ssrc st) v (s_l st) (s_l_set st) (rtcp_index st).
Definition set_s_l v st := Stream (replay_rtp st) (replay_rtcp st) (ssrc st) (roc st) v (s_l_set st) (rtcp_index st).
Definition set_s_l_set st := Stream (replay_rtp st) (replay_rtcp st) (ssrc st) (roc st) (s_l st) true (rtcp_index st).
Definition set_rtcp_index v st := Stream (replay_rtp st) (replay_rtcp st) (ssrc st) (roc st) (s_l st) (s_l_set st) v.

Fixpoint stream_find (l : list srtp_stream) (n : Z) : option srtp_stream :=
  match l with [] => None | st :: l => if ssrc st =? n then Some st else stream_find l n end.
Definition stream_upd (f : srtp_stream -> srtp_stream) (n : Z) (s : srtp) : srtp :=
  Srtp (sp_rtp s) (sp_rtcp s) (map (fun st => if ssrc st =? n then f st else st) (streaml s)).

Definition stream_new `{Env} (s : srtp) (n : Z) : IO (Z * srtp) :=
  if (SRTP_MAX_STREAMS <=? length (streaml s))%nat then mret (ENOSR, s)
  else
    m ← ask QAlloc;
    mret (if m =? 0 then (ENOMEM, s)
          else (0, Srtp (sp_rtp s) (sp_rtcp s) (streaml s ++ [Stream srtp_replay_init srtp_replay_init n 0 0 false 0]))).
Definition stream_get `{Env} (s : srtp) (n : Z) : IO (Z * srtp) :=
  match stream_find (streaml s) n with Some _ => mret (0, s) | None => stream_new s n end.
(** The first sequence number is set once only. *)
Definition stream_get_seq `{Env} (s : srtp) (n seq : Z) : IO (Z * srtp) :=
  '(err, s) ← stream_get s n;
  mret (if negb (err =? 0) then (err, s)
        else (0, stream_upd (fun st => if s_l_set st then st else set_s_l_set (set_s_l seq st)) n s)).

(** ** Indices, keys and vectors ([misc.c]) *)
Definition srtp_get_index (roc s_l seq : Z) : Z :=
  let v := i32 (if s_l <? 32768 then if seq - s_l >? 32768 then u32 (roc - 1) else roc
                else if s_l - 32768 >? seq then u32 (roc + 1) else roc) in
  u64 (seq + u64 v * 65536).

Definition xorb (a b : bytes) : bytes := zip_with Z.lxor a b.
Definition srtp_derive `{Env} `{Crypto} (out_len : nat) (label : Z) (master_key master_salt : bytes) : IO (Z * bytes) :=
  if (2 * AES_BLOCK_SIZE <? out_len)%nat || (AES_BLOCK_SIZE <? length master_salt)%nat then mret (EINVAL, [])
  else
    let x := master_salt ++ replicate (AES_BLOCK_SIZE - length master_salt) 0 in
    let x := <[7%nat := Z.lxor (nth 7 x 0) label]> x in
    r ← aes_alloc AES_MODE_CTR master_key x;
    match r with
    | inl err => mret (err, [])
    | inr a => '(err, out, _) ← aes_encr a (replicate out_len 0); mret (err, out)
    end.
Definition srtp_iv_calc (ks : bytes) (ssrc ix : Z) : bytes :=
  take 4 ks ++ xorb (take 4 (drop 4 ks)) (be32 ssrc) ++ xorb (take 4 (drop 8 ks)) (be32 (u32 (Z.shiftr ix 16)))
    ++ xorb (take 2 (drop 12 ks)) (be16 ix) ++ [0; 0].
Definition srtp_iv_calc_gcm (ks : bytes) (ssrc ix : Z) : bytes :=
  take 2 ks ++ xorb (take 2 (drop 2 ks)) (be16 (Z.shiftr ssrc 16)) ++ xorb (take 2 (drop 4 ks)) (be16 (Z.land ssrc 0xffff))
    ++ xorb (take 2 (drop 6 ks)) (be16 (Z.land (Z.shiftr ix 32) 0xffff)) ++ xorb (take 2 (drop 8 ks)) (be16 (Z.land (Z.shiftr ix 16) 0xffff))
    ++ xorb (take 2 (drop 10 ks)) (be16 (Z.land ix 0xffff)).

(** ** Sessions ([srtp.c]) *)
Inductive srtp_suite :=
  | SRTP_AES_CM_128_HMAC_SHA1_32 | SRTP_AES_CM_128_HMAC_SHA1_80 | SRTP_AES_256_CM_HMAC_SHA1_32
  | SRTP_AES_256_CM_HMAC_SHA1_80 | SRTP_AES_128_GCM | SRTP_AES_256_GCM.
(** Mode, octets of key, salt and tag, whether there is a hash. *)
Definition suite_params (suite : srtp_suite) : aes_mode * nat * nat * nat * bool :=
  match suite with
  | SRTP_AES_CM_128_HMAC_SHA1_80 => (AES_MODE_CTR, 16, 14, 10, true)
  | SRTP_AES_CM_128_HMAC_SHA1_32 => (AES_MODE_CTR, 16, 14, 4, true)
  | SRTP_AES_256_CM_HMAC_SHA1_80 => (AES_MODE_CTR, 32, 14, 10, true)
  | SRTP_AES_256_CM_HMAC_SHA1_32 => (AES_MODE_CTR, 32, 14, 4, true)
  | SRTP_AES_128_GCM => (AES_MODE_GCM, 16, 12, 0, false)
  | SRTP_AES_256_GCM => (AES_MODE_GCM, 32, 12, 0, false)
  end%nat.

Section session.
Context `{V : Env} `{C : Crypto}.

(** The derived salt fills 14 of the 16 octets of a zeroed structure. *)
Definition comp_init (offs : Z) (key s : bytes) (tag : nat) (encrypted hash : bool) (mode : aes_mode) : IO (Z + comp) :=
  if (MAX_KEYLEN <? length key)%nat then mret (inl EINVAL)
  else if (SHA_DIGEST_LENGTH <? tag)%nat then mret (inl EINVAL)
  else
    '(e1, k_e) ← srtp_derive (length key) (0 + offs) key s;
    '(e2, k_a) ← srtp_derive SHA_DIGEST_LENGTH (1 + offs) key s;
    '(e3, ks) ← srtp_derive 14 (2 + offs) key s;
    let err := Z.lor (Z.lor e1 e2) e3 in
    if negb (err =? 0) then mret (inl err)
    else
      let c a h := Comp a mode h (ks ++ [0; 0]) tag in
      a ← (if encrypted : bool then r ← aes_alloc mode k_e []; mret (match r with inl e => inl e | inr a => inr (Some a) end) else mret (inr None));
      match a with
      | inl err => mret (inl err)
      | inr a =>
          if hash then h ← hmac_create k_a; mret (match h with inl err => inl err | inr h => inr (c a (Some h)) end)
          else mret (inr (c a None))
      end.

(** [unenc] is the flag [SRTP_UNENCRYPTED_SRTCP]. *)
Definition srtp_alloc (suite : srtp_suite) (key : bytes) (unenc : bool) : IO (Z + srtp) :=
  let '(mode, cipher_bytes, salt_bytes, auth_bytes, hash) := suite_params suite in
  if negb (cipher_bytes + salt_bytes =? length key)%nat then mret (inl EINVAL)
  else
    m ← ask QAlloc;
    if m =? 0 then mret (inl ENOMEM)
    else
      c1 ← comp_init 0 (take cipher_bytes key) (drop cipher_bytes key) auth_bytes true hash mode;
      c2 ← comp_init 3 (take cipher_bytes key) (drop cipher_bytes key) auth_bytes (negb unenc) hash mode;
      mret (match c1, c2 with
            | inr c1, inr c2 => inr (Srtp c1 c2 [])
            | inl e1, inr _ => inl e1
            | inr _, inl e2 => inl e2
            | inl e1, inl e2 => inl (Z.lor e1 e2)
            end).

(** A function that works on the session and the buffer of a packet, and may
    return an error early. *)
Record ctx := Ctx { x_s : srtp; x_mb : mbuf }.
Definition X (A : Type) : Type := ctx -> sys -> (Z + A) * ctx * sys.
#[export] Instance X_ret : MRet X := fun A a w s => (inr a, w, s).
#[export] Instance X_bind : MBind X :=
  fun A B f m w s => match m w s with (inr a, w, s) => f a w s | (inl e, w, s) => (inl e, w, s) end.
Definition throw {A} (err : Z) : X A := fun w s => (inl err, w, s).
Definition gets {A} (f : ctx -> A) : X A := fun w s => (inr (f w), w, s).
Definition upd (f : ctx -> ctx) : X unit := fun w s => (inr tt, f w, s).
Definition set_mb (f : mbuf -> mbuf) : X unit := upd (fun w => Ctx (x_s w) (f (x_mb w))).
Definition set_pos (p : nat) : X unit := set_mb (fun mb => Mbuf (mb_buf mb) p (mb_end mb)).
Definition set_end (e : nat) : X unit := set_mb (fun mb => Mbuf (mb_buf mb) (mb_pos mb) e).
(** [err = ...; if (err) return err;] *)
Definition try_ {A} (m : IO (Z * A)) : X A :=
  fun w s => let '((err, a), s) := m s in if err =? 0 then (inr a, w, s) else (inl err, w, s).
Definition try_mb (f : mbuf -> IO (Z * mbuf)) : X unit :=
  fun w s => let '((err, mb), s) := f (x_mb w) s in (if err =? 0 then inr tt else inl err, Ctx (x_s w) mb, s).
Definition try_s (f : srtp -> IO (Z * srtp)) : X unit :=
  fun w s => let '((err, sp), s) := f (x_s w) s in (if err =? 0 then inr tt else inl err, Ctx sp (x_mb w), s).

(** The octets from [p] up to [e] in the buffer, and writing over them. *)
Definition slice (mb : mbuf) (p e : nat) : bytes := take (e - p) (drop p (mb_buf mb)).
Definition poke (p : nat) (d : bytes) (mb : mbuf) : mbuf :=
  Mbuf (take p (mb_buf mb) ++ d ++ drop (p + length d) (mb_buf mb)) (mb_pos mb) (mb_end mb).

Definition stream_of (n : Z) : X srtp_stream :=
  fun w s => match stream_find (streaml (x_s w)) n with Some st => (inr st, w, s) | None => (inl EINVAL, w, s) end.
Definition upd_stream (n : Z) (f : srtp_stream -> srtp_stream) : X unit := upd (fun w => Ctx (stream_upd f n (x_s w)) (x_mb w)).

(** The cipher of a component. *)
Inductive part := RTP | RTCP.
Definition comp_of (p : part) (s : srtp) : comp := match p with RTP => sp_rtp s | RTCP => sp_rtcp s end.
Definition put_aes (p : part) (a : aes) (s : srtp) : srtp :=
  let c c := Comp (Some a) (c_mode c) (c_hmac c) (k_s c) (tag_len c) in
  match p with RTP => Srtp (c (sp_rtp s)) (sp_rtcp s) (streaml s) | RTCP => Srtp (sp_rtp s) (c (sp_rtcp s)) (streaml s) end.
Definition use_aes {A} (p : part) (f : aes -> IO (Z * A * aes)) : X A :=
  fun w s => match c_aes (comp_of p (x_s w)) with
             | None => (inl EINVAL, w, s)
             | Some a => let '((err, x, a), s) := f a s in (if err =? 0 then inr x else inl err, Ctx (put_aes p a (x_s w)) (x_mb w), s)
             end.
Definition iv_set (p : part) (iv : bytes) : X unit := use_aes p (fun a => a ← aes_set_iv a iv; mret (0, tt, a)).
(** [err = aes_encr(aes, NULL, ...); err |= aes_encr(aes, NULL, ...)] *)
Fixpoint feed_all (encr : bool) (a : aes) (l : list bytes) : IO (Z * aes) :=
  match l with
  | [] => mret (0, a)
  | d :: l => '(e1, a) ← aes_update_aad encr a d; '(e2, a) ← feed_all encr a l; mret (Z.lor e1 e2, a)
  end.
Definition feed_aad (p : part) (encr : bool) (l : list bytes) : X unit := use_aes p (fun a => '(err, a) ← feed_all encr a l; mret (err, tt, a)).
(** [aes_encr(aes, p, p, n)] and [aes_decr] on the buffer: on an error of the
    cipher the octets stay. *)
Definition crypt (pt : part) (encr : bool) (p e : nat) : X unit :=
  mb ← gets x_mb;
  out ← use_aes pt (fun a => aes_update encr a (slice mb p e));
  set_mb (poke p out).
Definition auth_tag (p : part) : X bytes := use_aes p (fun a => '(err, t) ← aes_get_authtag a GCM_TAGLEN; mret (err, t, a)).
Definition authenticate (p : part) (tag : bytes) : X unit := use_aes p (fun a => err ← aes_authenticate a tag; mret (err, tt, a)).

Definition hdr_decode : X rtp_header :=
  fun w s => let '(err, h, mb) := rtp_hdr_decode (x_mb w) in (if err =? 0 then inr h else inl err, Ctx (x_s w) mb, s).
Definition read_mem (n : nat) : X bytes :=
  fun w s => match mbuf_read_mem (x_mb w) n with Some (d, mb) => (inr d, Ctx (x_s w) mb, s) | None => (inl EOVERFLOW, w, s) end.
Definition when (b : bool) (m : X unit) : X unit := if b then m else mret tt.
Definition replay_rtp_check (n ix : Z) : X bool :=
  st ← stream_of n;
  let '(ok, r) := srtp_replay_check (replay_rtp st) ix in
  upd_stream n (set_replay_rtp r);; mret ok.
Definition replay_rtcp_check (n ix : Z) : X bool :=
  st ← stream_of n;
  let '(ok, r) := srtp_replay_check (replay_rtcp st) ix in
  upd_stream n (set_replay_rtcp r);; mret ok.

Definition seq_diff (x y : Z) : Z := y - x.

(** The index of a packet to send, after the roll-over. *)
Definition send_index (h : rtp_header) : X Z :=
  st ← stream_of (h_ssrc h);
  when (seq_diff (s_l st) (h_seq h) <=? -32768) (upd_stream (h_ssrc h) (fun st => set_s_l 0 (set_roc (u32 (roc st + 1)) st)));;
  st ← stream_of (h_ssrc h);
  mret (u64 (65536 * roc st + h_seq h)).

Definition encrypt_ctr (p : part) (n ix : Z) : X unit :=
  c ← gets (fun w => comp_of p (x_s w));
  mb ← gets x_mb;
  iv_set p (srtp_iv_calc (k_s c) n ix);;
  crypt p true (mb_pos mb) (mb_end mb).
(** [aad] is the associated data after the header. *)
Definition encrypt_gcm (p : part) (n ix : Z) (start : nat) (aad : list bytes) : X unit :=
  c ← gets (fun w => comp_of p (x_s w));
  mb ← gets x_mb;
  iv_set p (srtp_iv_calc_gcm (k_s c) n ix);;
  feed_aad p true (slice mb start (mb_pos mb) :: aad);;
  crypt p true (mb_pos mb) (mb_end mb);;
  tag ← auth_tag p;
  set_pos (mb_end mb);;
  try_mb (fun mb => mbuf_write_mem mb tag).

(** The tag over the packet and the roll-over counter, which is written behind
    the packet for that time. *)
Definition append_tag (key : bytes) (n : Z) (start tag_len : nat) : X unit :=
  mb ← gets x_mb;
  let tag_start := mb_end mb in
  st ← stream_of n;
  set_pos tag_start;;
  try_mb (fun mb => mbuf_write_u32 mb (roc st));;
  set_pos start;;
  mb ← gets x_mb;
  tag ← try_ (hmac_digest key (mbuf_buf mb));
  set_pos tag_start;; set_end tag_start;;
  try_mb (fun mb => mbuf_write_mem mb (take tag_len tag)).

Definition keep_highest (h : rtp_header) : X unit :=
  upd_stream (h_ssrc h) (fun st => if s_l st <? h_seq h then set_s_l (h_seq h) st else st).

Definition srtp_encrypt : X unit :=
  start ← gets (fun w => mb_pos (x_mb w));
  hdr ← hdr_decode;
  try_s (fun sp => stream_get_seq sp (h_ssrc hdr) (h_seq hdr));;
  ix ← send_index hdr;
  c ← gets (fun w => sp_rtp (x_s w));
  match c_aes c, c_mode c with
  | Some _, AES_MODE_CTR => encrypt_ctr RTP (h_ssrc hdr) ix
  | Some _, AES_MODE_GCM => encrypt_gcm RTP (h_ssrc hdr) ix start []
  | None, _ => mret tt
  end;;
  match c_hmac c with Some key => append_tag key (h_ssrc hdr) start (tag_len c) | None => mret tt end;;
  keep_highest hdr;;
  set_pos start.

(** The index of a received packet. *)
Definition recv_index (h : rtp_header) : X Z :=
  st ← stream_of (h_ssrc h);
  let diff := seq_diff (s_l st) (h_seq h) in
  if diff >? 32768 then throw ETIMEDOUT
  else
    when (diff <=? -32768) (upd_stream (h_ssrc h) (fun st => set_s_l 0 (set_roc (u32 (roc st + 1)) st)));;
    st ← stream_of (h_ssrc h);
    mret (srtp_get_index (roc st) (s_l st) (h_seq h)).

(** The tag is compared, then the packet must not have been seen. *)
Definition check_tag (key : bytes) (n ix : Z) (start tag_len : nat) : X unit :=
  mb ← gets x_mb;
  if (mbuf_get_left mb <? tag_len)%nat then throw EBADMSG
  else
    let pld_start := mb_pos mb in
    let tag_start := (mb_end mb - tag_len)%nat in
    st ← stream_of n;
    set_pos tag_start;;
    tag_pkt ← read_mem tag_len;
    set_pos tag_start;; set_end tag_start;;
    try_mb (fun mb => mbuf_write_u32 mb (roc st));;
    set_pos start;;
    mb ← gets x_mb;
    tag_calc ← try_ (hmac_digest key (mbuf_buf mb));
    set_pos pld_start;; set_end tag_start;;
    if negb (bytes_eqb (take tag_len tag_calc) tag_pkt) then throw EAUTH
    else ok ← replay_rtp_check n ix; if negb ok then throw EALREADY else mret tt.

Definition decrypt_ctr (p : part) (n ix : Z) : X unit :=
  c ← gets (fun w => comp_of p (x_s w));
  mb ← gets x_mb;
  iv_set p (srtp_iv_calc (k_s c) n ix);;
  crypt p false (mb_pos mb) (mb_end mb).
Definition decrypt_gcm (n ix : Z) (start : nat) : X unit :=
  c ← gets (fun w => sp_rtp (x_s w));
  mb ← gets x_mb;
  iv_set RTP (srtp_iv_calc_gcm (k_s c) n ix);;
  feed_aad RTP false [slice mb start (mb_pos mb)];;
  if (mbuf_get_left mb <? GCM_TAGLEN)%nat then throw EBADMSG
  else
    let tag_start := (mb_end mb - GCM_TAGLEN)%nat in
    crypt RTP false (mb_pos mb) tag_start;;
    authenticate RTP (slice mb tag_start (mb_end mb));;
    set_end tag_start;;
    ok ← replay_rtp_check n ix; if negb ok then throw EALREADY else mret tt.

(** The stream and index of a packet that is accepted are returned here for the
    theorems; [srtp_decrypt] drops them. *)
Definition decrypt_ix : X (Z * Z) :=
  start ← gets (fun w => mb_pos (x_mb w));
  hdr ← hdr_decode;
  try_s (fun sp => stream_get_seq sp (h_ssrc hdr) (h_seq hdr));;
  ix ← recv_index hdr;
  c ← gets (fun w => sp_rtp (x_s w));
  match c_hmac c with Some key => check_tag key (h_ssrc hdr) ix start (tag_len c) | None => mret tt end;;
  match c_aes c, c_mode c with
  | Some _, AES_MODE_CTR => decrypt_ctr RTP (h_ssrc hdr) ix
  | Some _, AES_MODE_GCM => decrypt_gcm (h_ssrc hdr) ix start
  | None, _ => mret tt
  end;;
  keep_highest hdr;;
  set_pos start;;
  mret (h_ssrc hdr, ix).
Definition srtp_decrypt : X unit := _ ← decrypt_ix; mret tt.

(** ** RTCP ([srtcp.c]) *)
Definition get_rtcp_ssrc : X Z :=
  mb ← gets x_mb;
  if (mbuf_get_left mb <? 8)%nat then throw EBADMSG
  else set_mb (fun mb => mbuf_advance mb 4);; mb ← gets x_mb;
    let '(n, mb) := mbuf_read_u32 mb in set_mb (fun _ => mb);; mret n.

(** The part of [srtcp_encrypt] once the stream is known. *)
Definition srtcp_seal (n : Z) (start : nat) : X unit :=
  upd_stream n (fun st => set_rtcp_index (Z.land (rtcp_index st + 1) 0x7fffffff) st);;
  st ← stream_of n;
  let ix := rtcp_index st in
  c ← gets (fun w => sp_rtcp (x_s w));
  ep ← match c_aes c, c_mode c with
       | Some _, AES_MODE_CTR => encrypt_ctr RTCP n ix;; mret 1
       | Some _, AES_MODE_GCM => encrypt_gcm RTCP n ix start [be32 (Z.lor (Z.shiftl 1 31) ix)];; mret 1
       | None, _ => mret 0
       end;
  mb ← gets x_mb;
  set_pos (mb_end mb);;
  try_mb (fun mb => mbuf_write_u32 mb (Z.lor (u32 (Z.shiftl ep 31)) ix));;
  match c_hmac c with
  | Some key =>
      set_pos start;;
      mb ← gets x_mb;
      tag ← try_ (hmac_digest key (mbuf_buf mb));
      set_pos (mb_end mb);;
      try_mb (fun mb => mbuf_write_mem mb (take (tag_len c) tag))
  | None => mret tt
  end;;
  set_pos start.
Definition srtcp_encrypt : X unit :=
  start ← gets (fun w => mb_pos (x_mb w));
  n ← get_rtcp_ssrc;
  try_s (fun sp => stream_get sp n);;
  srtcp_seal n start.

Definition srtcp_check_tag (key : bytes) (n ix : Z) (start tag_len : nat) : X unit :=
  mb ← gets x_mb;
  let tag_start := mb_pos mb in
  if (SHA_DIGEST_LENGTH <? tag_len)%nat then throw ERANGE
  else
    tag_pkt ← read_mem tag_len;
    set_pos start;; set_end tag_start;;
    mb ← gets x_mb;
    tag ← try_ (hmac_digest key (mbuf_buf mb));
    if negb (bytes_eqb (take tag_len tag) tag_pkt) then throw EAUTH
    else ok ← replay_rtcp_check n ix; if negb ok then throw EALREADY else mret tt.
Definition srtcp_decrypt_gcm (n ix : Z) (start pld_start eix_start : nat) : X unit :=
  c ← gets (fun w => sp_rtcp (x_s w));
  mb ← gets x_mb;
  iv_set RTCP (srtp_iv_calc_gcm (k_s c) n ix);;
  feed_aad RTCP false [slice mb start pld_start; slice mb eix_start (eix_start + 4)];;
  set_pos pld_start;;
  mb ← gets x_mb;
  if (mbuf_get_left mb <? GCM_TAGLEN)%nat then throw EBADMSG
  else
    let tag_start := (mb_end mb - GCM_TAGLEN)%nat in
    crypt RTCP false pld_start tag_start;;
    authenticate RTCP (slice mb tag_start (mb_end mb));;
    set_end tag_start.

(** The part of [srtcp_decrypt] once the stream is known. *)
Definition srtcp_open (n : Z) (start : nat) : X unit :=
  mb ← gets x_mb;
  c ← gets (fun w => sp_rtcp (x_s w));
  let pld_start := mb_pos mb in
  if (mbuf_get_left mb <? 4 + tag_len c)%nat then throw EBADMSG
  else
    let eix_start := (mb_end mb - (4 + tag_len c))%nat in
    let '(v, mb) := mbuf_read_u32 (Mbuf (mb_buf mb) eix_start (mb_end mb)) in
    set_mb (fun _ => mb);;
    let ep := Z.testbit v 31 in
    let ix := Z.land v 0x7fffffff in
    match c_hmac c with Some key => srtcp_check_tag key n ix start (tag_len c) | None => mret tt end;;
    set_end eix_start;;
    match c_aes c, ep, c_mode c with
    | Some _, true, AES_MODE_CTR => set_pos pld_start;; decrypt_ctr RTCP n ix
    | Some _, true, AES_MODE_GCM => srtcp_decrypt_gcm n ix start pld_start eix_start
    | _, _, _ => mret tt
    end;;
    set_pos start.
Definition srtcp_decrypt : X unit :=
  start ← gets (fun w => mb_pos (x_mb w));
  n ← get_rtcp_ssrc;
  try_s (fun sp => stream_get sp n);;
  srtcp_open n start.
End session.
