(* ===== verification/SrtpReplay.v ===== *)
(** * Secure RTP: replay protection

    The bitmap of [replay.c] is a window of 64 indices on the set of all indices
    accepted before, and no packet of a stream is accepted twice whatever
    arrives at a session. *)
From S2P Require Import Prelude Sys Fmt Mbuf Rtp Srtp.

(** ** Replay protection *)

(** The specification: the indices accepted so far. An index is acceptable when
    it is new and less than 64 behind the highest. *)
Definition highest (S : list Z) : Z := foldr Z.max 0 S.
Definition acceptable (S : list Z) (ix : Z) : bool := negb (bool_decide (ix ∈ S)) && (highest S - 64 <? ix).
Definition window_step (S : list Z) (ix : Z) : bool * list Z := if acceptable S ix then (true, ix :: S) else (false, S).

(** The bitmap says of each index of the window whether it was accepted. *)
Definition window_rep (r : replay) (S : list Z) : Prop :=
  lix r = highest S /\ 0 <= bitmap r < 2 ^ 64 /\ Forall (Z.le 0) S /\
  forall i, 0 <= i < 64 -> Z.testbit (bitmap r) i = bool_decide (lix r - i ∈ S).

Lemma highest_cons x S : highest (x :: S) = Z.max x (highest S).
Proof. done. Qed.
Lemma highest_ge S i : i ∈ S -> i <= highest S.
Proof. unfold highest. induction 1; cbn in *; lia. Qed.
Lemma highest_nonneg S : 0 <= highest S.
Proof. unfold highest. induction S; cbn in *; lia. Qed.
Lemma testbit_small b i : 0 <= b < 2 ^ 64 -> 64 <= i -> Z.testbit b i = false.
Proof.
  intros Hb Hi. destruct (Z.eq_dec b 0) as [-> |]; [apply Z.bits_0|].
  apply Z.bits_above_log2; [lia|]. enough (Z.log2 b < 64) by lia. apply Z.log2_lt_pow2; lia.
Qed.
Lemma bits_small b : 0 <= b -> (forall i, 64 <= i -> Z.testbit b i = false) -> b < 2 ^ 64.
Proof.
  intros Hb H. destruct (Z.eq_dec b 0) as [-> |]; [done|]. apply Z.log2_lt_pow2; [lia|].
  destruct (Z.lt_ge_cases (Z.log2 b) 64) as [|Hl]; [done|]. pose proof (H _ Hl) as E. rewrite Z.bit_log2 in E; [done|lia].
Qed.
Lemma land_bit b i : 0 <= i -> (Z.land b (Z.shiftl 1 i) =? 0) = negb (Z.testbit b i).
Proof.
  intros Hi. rewrite Z.shiftl_1_l. destruct (Z.testbit b i) eqn:E.
  - apply Z.eqb_neq. intros H. apply (f_equal (fun z => Z.testbit z i)) in H.
    rewrite Z.land_spec, Z.pow2_bits_true, E, Z.bits_0 in H by done. done.
  - apply Z.eqb_eq, Z.bits_inj'. intros j Hj. rewrite Z.land_spec, Z.bits_0. destruct (Z.eq_dec i j) as [<- |Hne]; [by rewrite E|].
    rewrite Z.pow2_bits_false by done. apply andb_false_r.
Qed.

Lemma window_rep_init : window_rep srtp_replay_init [].
Proof. split_and!; [done|cbn; lia|cbn; lia|constructor|]. intros i _. cbn. by rewrite Z.bits_0. Qed.

Lemma replay_forward r S ix : window_rep r S -> lix r < ix ->
  window_rep (Replay (if ix - lix r <? 64 then Z.lor (u64 (Z.shiftl (bitmap r) (ix - lix r))) 1 else 1) ix) (ix :: S).
Proof.
  intros (Hl & Hb & Hp & Hi) Hx. pose proof (highest_nonneg S). set (d := ix - lix r) in *.
  assert (forall i, 0 <= i < 64 -> Z.testbit (if d <? 64 then Z.lor (u64 (Z.shiftl (bitmap r) d)) 1 else 1) i = bool_decide (ix - i ∈ ix :: S)) as Hbits.
  { intros i Hi64. destruct (Z.eq_dec i 0) as [-> |Hi0].
    - rewrite bool_decide_true by (rewrite Z.sub_0_r; left). destruct (d <? 64); [rewrite Z.lor_spec|]; [apply orb_true_r|done].
    - assert (Z.testbit 1 i = false) as H1 by (change 1 with (2 ^ 0); apply Z.pow2_bits_false; lia).
      assert (bool_decide (ix - i ∈ ix :: S) = bool_decide (ix - i ∈ S)) as ->.
      { apply bool_decide_ext. rewrite elem_of_cons. split; [intros [?|?]; [lia|done]|by right]. }
      destruct (Z.ltb_spec d 64).
      + rewrite Z.lor_spec, H1, orb_false_r. unfold u64. change 18446744073709551616 with (2 ^ 64). rewrite Z.mod_pow2_bits_low by lia.
        rewrite Z.shiftl_spec by lia. destruct (Z.lt_ge_cases i d).
        * rewrite Z.testbit_neg_r by lia. symmetry. apply bool_decide_eq_false. intros Hin%highest_ge. lia.
        * rewrite Hi by lia. by replace (lix r - (i - d)) with (ix - i) by lia.
      + rewrite H1. symmetry. apply bool_decide_eq_false. intros Hin%highest_ge. lia. }
  split_and!; cbn [lix bitmap]; [rewrite highest_cons; lia| | |by constructor; [lia|]|done].
  - destruct (d <? 64); [|lia]. apply Z.lor_nonneg. unfold u64. pose proof (Z.mod_pos_bound (Z.shiftl (bitmap r) d) 18446744073709551616). lia.
  - destruct (d <? 64); [|lia]. apply bits_small.
    + apply Z.lor_nonneg. unfold u64. pose proof (Z.mod_pos_bound (Z.shiftl (bitmap r) d) 18446744073709551616). lia.
    + intros i H64. rewrite Z.lor_spec. unfold u64. change 18446744073709551616 with (2 ^ 64). rewrite Z.mod_pow2_bits_high by lia.
      change 1 with (2 ^ 0). rewrite Z.pow2_bits_false by lia. done.
Qed.

Lemma replay_check_rep r S ix : window_rep r S -> 0 <= ix ->
  (srtp_replay_check r ix).1 = (window_step S ix).1 /\ window_rep (srtp_replay_check r ix).2 (window_step S ix).2.
Proof.
  intros H H0. pose proof H as (Hl & Hb & Hp & Hi). unfold srtp_replay_check, window_step, acceptable, SRTP_WINDOW_SIZE.
  pose proof (highest_nonneg S) as Hn.
  destruct (Z.ltb_spec (lix r) ix) as [Hx|Hx].
  - rewrite bool_decide_false by (intros ?%highest_ge; lia). rewrite (proj2 (Z.ltb_lt (highest S - 64) ix)) by lia. cbn [andb negb fst snd]. split; [done|by apply replay_forward].
  - destruct (Z.leb_spec 64 (lix r - ix)); [rewrite (proj2 (Z.ltb_ge (highest S - 64) ix)), andb_false_r by lia; done|].
    rewrite (proj2 (Z.ltb_lt (highest S - 64) ix)), andb_true_r by lia. rewrite land_bit, Hi by lia. replace (lix r - (lix r - ix)) with ix by lia. rewrite negb_involutive.
    destruct (bool_decide_reflect (ix ∈ S)) as [|Hn2]; cbn [negb fst snd]; [done|]. split; [done|].
    rewrite Z.shiftl_1_l. split_and!; cbn [lix bitmap]; [rewrite highest_cons; lia| | |by constructor|].
    + apply Z.lor_nonneg. split; [lia|apply Z.pow_nonneg; lia].
    + apply bits_small; [apply Z.lor_nonneg; split; [lia|apply Z.pow_nonneg; lia]|]. intros i Hi64.
      rewrite Z.lor_spec, testbit_small, Z.pow2_bits_false by lia. done.
    + intros i Hi64. rewrite Z.lor_spec, Hi by lia. destruct (Z.eq_dec i (lix r - ix)) as [-> |Hne].
      * rewrite Z.pow2_bits_true, orb_true_r by lia. rewrite bool_decide_true; [done|]. apply elem_of_cons. left. lia.
      * rewrite Z.pow2_bits_false, orb_false_r by lia. apply bool_decide_ext. rewrite elem_of_cons. split; [by right|intros [?|?]; [lia|done]].
Qed.

(** Any sequence of indices. *)
Fixpoint run_replay (r : replay) (l : list Z) : list bool :=
  match l with [] => [] | ix :: l => let '(b, r) := srtp_replay_check r ix in b :: run_replay r l end.
Fixpoint run_window (S : list Z) (l : list Z) : list bool :=
  match l with [] => [] | ix :: l => let '(b, S') := window_step S ix in b :: run_window S' l end.

(** The 64-bit map of the replay protection decides, for any sequence of
    indices, exactly what the set of all indices accepted before decides: an
    index is accepted if and only if it was not accepted before and is less than
    64 behind the highest one. *)
Theorem replay_window_refines (l : list Z) :
  Forall (fun ix => 0 <= ix < 2 ^ 64) l -> run_replay srtp_replay_init l = run_window [] l.
Proof.
  intros H. assert (forall r S, window_rep r S -> run_replay r l = run_window S l) as K; [|apply K, window_rep_init].
  induction H as [|ix l Hx Hl IH]; intros r S HR; [done|]. cbn [run_replay run_window].
  destruct (replay_check_rep r S ix HR) as [E R]; [lia|]. destruct (srtp_replay_check r ix), (window_step S ix). cbn in E, R. subst. f_equal. by apply IH.
Qed.
Lemma replay_window_refines_witness :
  run_replay srtp_replay_init [0; 100; 37; 36; 100; 37; 101] = [true; true; true; false; false; false; true].
Proof. rewrite replay_window_refines; [vm_compute; reflexivity|]. repeat constructor; lia. Defined.

(** ** What the functions do to the replay protection of streams *)
Section keeping.
Context `{V : Env} `{C : Crypto}.

Definition rv (n : Z) (sp : srtp) : option replay := replay_rtp <$> stream_find (streaml sp) n.

Lemma stream_find_map f l n m : (forall st, ssrc (f st) = ssrc st) ->
  stream_find (map (fun st => if ssrc st =? n then f st else st) l) m = if m =? n then f <$> stream_find l m else stream_find l m.
Proof.
  intros Hf. induction l as [|st l IH]; cbn; [by destruct (m =? n)|].
  destruct (Z.eqb_spec (ssrc st) n) as [E|E]; cbn; rewrite ?Hf, ?IH; destruct (Z.eqb_spec (ssrc st) m), (Z.eqb_spec m n); try done; lia.
Qed.
Lemma stream_find_upd f n sp m : (forall st, ssrc (f st) = ssrc st) ->
  stream_find (streaml (stream_upd f n sp)) m = if m =? n then f <$> stream_find (streaml sp) m else stream_find (streaml sp) m.
Proof. apply stream_find_map. Qed.
Lemma stream_find_ssrc l n st : stream_find l n = Some st -> ssrc st = n.
Proof. induction l as [|x l IH]; cbn; [done|]. destruct (Z.eqb_spec (ssrc x) n); [by intros [= ->]|done]. Qed.
Lemma stream_find_app l st n : stream_find (l ++ [st]) n = match stream_find l n with Some x => Some x | None => if ssrc st =? n then Some st else None end.
Proof. induction l as [|x l IH]; cbn; [done|]. by destruct (ssrc x =? n). Qed.

(** A computation leaves an observation of the session as it is, for instance
    the replay protection of a stream, or how the session is protected.  None of
    them sees the state of a cipher. *)
Definition shape (sp : srtp) : bool * aes_mode * option bytes * nat :=
  let c := sp_rtp sp in (match c_aes c with Some _ => true | None => false end, c_mode c, c_hmac c, tag_len c).
Class Obs {B} (obs : srtp -> B) : Prop := obs_aes : forall p a sp, is_Some (c_aes (comp_of p sp)) -> obs (put_aes p a sp) = obs sp.
Lemma streaml_put_aes p a sp : streaml (put_aes p a sp) = streaml sp.
Proof. by destruct p. Qed.
#[local] Instance obs_rv n : Obs (rv n).
Proof. intros p a sp _. unfold rv. by rewrite streaml_put_aes. Qed.
#[local] Instance obs_shape : Obs shape.
Proof. intros [] a sp [b E]; cbn in E; [|done]. unfold shape. cbn. by rewrite E. Qed.

Class Keeps {B A} (obs : srtp -> B) (m : X A) : Prop := keeps : forall w s, obs (x_s (m w s).1.2) = obs (x_s w).
Section keeps.
Context {B : Type} (obs : srtp -> B) `{O : !Obs obs}.
#[local] Instance keeps_bind {A D} (m : X A) (f : A -> X D) : Keeps obs m -> (forall a, Keeps obs (f a)) -> Keeps obs (m ≫= f).
Proof.
  intros Hm Hf w s. unfold mbind, X_bind. pose proof (Hm w s) as E. destruct (m w s) as [[[e|a] w'] s']; cbn in *; [done|].
  by rewrite (Hf a w' s').
Qed.
#[local] Instance keeps_ret {A} (a : A) : Keeps obs (mret a).
Proof. done. Qed.
#[local] Instance keeps_throw {A} e : Keeps obs (@throw A e).
Proof. done. Qed.
#[local] Instance keeps_gets {A} (f : ctx -> A) : Keeps obs (gets f).
Proof. done. Qed.
#[local] Instance keeps_set_mb f : Keeps obs (set_mb f).
Proof. done. Qed.
#[local] Instance keeps_set_pos p : Keeps obs (set_pos p).
Proof. done. Qed.
#[local] Instance keeps_set_end p : Keeps obs (set_end p).
Proof. done. Qed.
#[local] Instance keeps_try {A} (m : IO (Z * A)) : Keeps obs (try_ m).
Proof. intros w s. unfold try_. destruct (m s) as [[e a] s']. by destruct (e =? 0). Qed.
#[local] Instance keeps_try_mb f : Keeps obs (try_mb f).
Proof. intros w s. unfold try_mb. by destruct (f (x_mb w) s) as [[e a] s']. Qed.
#[local] Instance keeps_stream_of n : Keeps obs (stream_of n).
Proof. intros w s. unfold stream_of. by destruct (stream_find _ n). Qed.
#[local] Instance keeps_hdr : Keeps obs hdr_decode.
Proof. intros w s. unfold hdr_decode. by destruct (rtp_hdr_decode _) as [[e h] mb]. Qed.
#[local] Instance keeps_read n : Keeps obs (read_mem n).
Proof. intros w s. unfold read_mem. by destruct (mbuf_read_mem _ _) as [[d mb]|]. Qed.
#[local] Instance keeps_use {A} p (f : aes -> IO (Z * A * aes)) : Keeps obs (use_aes p f).
Proof.
  intros w s. unfold use_aes. destruct (c_aes _) as [a|] eqn:E; [|done]. destruct (f a s) as [[[e x] a'] s']. cbn. apply obs_aes. by rewrite E.
Qed.
#[local] Instance keeps_when b m : Keeps obs m -> Keeps obs (when b m).
Proof. intros. destruct b; [done|apply keeps_ret]. Qed.
#[local] Instance keeps_decrypt_ctr p n ix : Keeps obs (decrypt_ctr p n ix).
Proof. unfold decrypt_ctr, iv_set, crypt. apply _. Qed.
End keeps.
#[local] Existing Instances keeps_bind keeps_ret keeps_throw keeps_gets keeps_set_mb keeps_set_pos keeps_set_end keeps_try keeps_try_mb
  keeps_stream_of keeps_hdr keeps_read keeps_use keeps_when keeps_decrypt_ctr.

(** Streams change without the other observations changing. *)
Lemma keeps_upd_rv k n f : (forall st, ssrc (f st) = ssrc st) -> (forall st, replay_rtp (f st) = replay_rtp st) -> Keeps (rv k) (upd_stream n f).
Proof.
  intros H1 H2 w s. unfold rv. cbn [upd_stream upd fst snd x_s]. rewrite stream_find_upd by done.
  destruct (k =? n); [|done]. destruct (stream_find _ k); cbn; [|done]. by rewrite H2.
Qed.
#[local] Instance keeps_upd_shape n f : Keeps shape (upd_stream n f).
Proof. done. Qed.
#[local] Instance keeps_recv_rv k h : Keeps (rv k) (recv_index h).
Proof.
  unfold recv_index. apply keeps_bind; [apply _|intros st]. destruct (seq_diff (s_l st) (h_seq h) >? 32768); [apply _|].
  apply keeps_bind; [|apply _]. apply keeps_when, keeps_upd_rv; done.
Qed.
#[local] Instance keeps_recv_shape h : Keeps shape (recv_index h).
Proof. unfold recv_index. apply keeps_bind; [apply _|intros st]. destruct (seq_diff (s_l st) (h_seq h) >? 32768); apply _. Qed.
#[local] Instance keeps_highest_rv k h : Keeps (rv k) (keep_highest h).
Proof. apply keeps_upd_rv; intros st; by destruct (s_l st <? h_seq h). Qed.

(** A new stream starts with an empty window. *)
Lemma get_seq_rv n seq w s m :
  let w' := (try_s (fun sp => stream_get_seq sp n seq) w s).1.2 in
  rv m (x_s w') = rv m (x_s w) \/ (m = n /\ rv m (x_s w) = None /\ rv m (x_s w') = Some srtp_replay_init).
Proof.
  set (f := fun st => if s_l_set st then st else set_s_l_set (set_s_l seq st)).
  assert (forall st, ssrc (f st) = ssrc st) as F1 by (intros st; unfold f; by destruct (s_l_set st)).
  assert (forall st, replay_rtp (f st) = replay_rtp st) as F2 by (intros st; unfold f; by destruct (s_l_set st)).
  assert (forall sp k, rv k (stream_upd f n sp) = rv k sp) as F.
  { intros sp k. unfold rv. rewrite stream_find_upd by done. destruct (k =? n); [|done]. destruct (stream_find _ k); cbn; [by rewrite F2|done]. }
  unfold try_s, stream_get_seq, stream_get. destruct (stream_find (streaml (x_s w)) n) eqn:E; cbn -[stream_upd]; [left; apply F|].
  unfold stream_new. destruct (SRTP_MAX_STREAMS <=? _)%nat; [by left|]. unfold mbind, IO_bind, ask. cbn -[stream_upd].
  destruct (env QAlloc (tick s) =? 0); cbn -[stream_upd]; [by left|].
  fold f. rewrite F. unfold rv. cbn. rewrite stream_find_app. cbn.
  destruct (stream_find _ m) eqn:Em; [by left|]. destruct (Z.eqb_spec n m) as [<- |]; [by right|by left].
Qed.

(** A computation that succeeds only if the replay check of [ix] did. *)
Definition checked (n ix : Z) (f g : srtp) : Prop :=
  exists r r', rv n f = Some r /\ srtp_replay_check r ix = (true, r') /\ forall m, rv m g = if m =? n then Some r' else rv m f.
Definition Checks {A} (n ix : Z) (m : X A) : Prop := forall w s,
  match (m w s).1.1 with
  | inr _ => checked n ix (x_s w) (x_s (m w s).1.2)
  | inl _ => (forall k, rv k (x_s (m w s).1.2) = rv k (x_s w)) \/ checked n ix (x_s w) (x_s (m w s).1.2)
  end.
Lemma checked_l n ix f f' g : (forall m, rv m f' = rv m f) -> checked n ix f' g -> checked n ix f g.
Proof. intros H (r & r' & H1 & H2 & H3). exists r, r'. split_and!; [congruence|done|]. intros m. rewrite H3. by destruct (m =? n). Qed.
Lemma checked_r n ix f g g' : (forall m, rv m g' = rv m g) -> checked n ix f g -> checked n ix f g'.
Proof. intros H (r & r' & H1 & H2 & H3). exists r, r'. split_and!; [congruence|done|]. intros m. by rewrite H. Qed.
Lemma checks_after {A B} n ix (m : X A) (f : A -> X B) : (forall k, Keeps (rv k) m) -> (forall a, Checks n ix (f a)) -> Checks n ix (m ≫= f).
Proof.
  intros Hm Hf w s. unfold mbind, X_bind. pose proof (fun k => Hm k w s) as E. destruct (m w s) as [[[e|a] w'] s']; cbn in *; [by left|].
  pose proof (Hf a w' s') as K. destruct (f a w' s') as [[[e|b] w2] s2]; cbn in *; [|by eapply checked_l].
  destruct K as [K|K]; [left; intros k; by rewrite K|right; by eapply checked_l].
Qed.
Lemma checks_before {A B} n ix (m : X A) (f : A -> X B) : Checks n ix m -> (forall k a, Keeps (rv k) (f a)) -> Checks n ix (m ≫= f).
Proof.
  intros Hm Hf w s. unfold mbind, X_bind. pose proof (Hm w s) as K. destruct (m w s) as [[[e|a] w'] s']; cbn in *; [done|].
  pose proof (fun k => Hf k a w' s') as E. destruct (f a w' s') as [[[e|b] w2] s2]; cbn in *; [right|]; (eapply checked_r; [exact E|done]).
Qed.
Lemma checks_throw {A} n ix e : Checks n ix (@throw A e).
Proof. by left. Qed.
Lemma checks_replay n ix : Checks n ix (ok ← replay_rtp_check n ix; if negb ok then throw EALREADY else mret tt).
Proof.
  intros w s. unfold replay_rtp_check, mbind, X_bind, stream_of. destruct (stream_find (streaml (x_s w)) n) as [st|] eqn:E; cbn; [|by left].
  destruct (srtp_replay_check (replay_rtp st) ix) as [b r'] eqn:K. cbn -[stream_upd].
  assert (forall m, rv m (stream_upd (set_replay_rtp r') n (x_s w)) = if m =? n then Some r' else rv m (x_s w)) as U.
  { intros m. unfold rv. rewrite stream_find_upd by done. destruct (Z.eqb_spec m n) as [-> |]; [|done]. by rewrite E. }
  assert (rv n (x_s w) = Some (replay_rtp st)) as R by (unfold rv; by rewrite E).
  destruct b; cbn -[stream_upd]; [by exists (replay_rtp st), r'|]. left. intros m. rewrite U. destruct (Z.eqb_spec m n) as [-> |]; [|done]. rewrite R. f_equal.
  revert K. unfold srtp_replay_check. destruct (lix _ <? ix); [done|]. destruct (_ <=? _); [by intros [= ->]|]. destruct (negb _); [by intros [= ->]|done].
Qed.
Lemma check_tag_checks key n ix start tl : Checks n ix (check_tag key n ix start tl).
Proof.
  unfold check_tag. apply checks_after; [apply _|intros mb]. destruct (_ <? tl)%nat; [apply checks_throw|].
  repeat (apply checks_after; [apply _|intros ?]). destruct (negb _); [apply checks_throw|apply checks_replay].
Qed.
Lemma decrypt_gcm_checks n ix start : Checks n ix (decrypt_gcm n ix start).
Proof.
  unfold decrypt_gcm, iv_set, feed_aad. do 4 (apply checks_after; [apply _|intros ?]). destruct (_ <? GCM_TAGLEN)%nat; [apply checks_throw|].
  unfold crypt, authenticate. repeat (apply checks_after; [apply _|intros ?]). apply checks_replay.
Qed.
End keeping.

(** ** No packet is accepted twice *)
Section no_replay.
Context `{V : Env} `{C : Crypto}.

(** Datagrams that arrive; the result lists the stream and index of those that
    are accepted. *)
Fixpoint receive (l : list mbuf) (sp : srtp) (s : sys) : list (Z * Z) :=
  match l with
  | [] => []
  | mb :: l =>
      let '(r, w, s) := decrypt_ix (Ctx sp mb) s in
      match r with inr a => a :: receive l (x_s w) s | inl _ => receive l (x_s w) s end
  end.

(** Sessions as [srtp_alloc] makes them: a hash, or a mode with a tag of its own. *)
Definition protected (sp : srtp) : Prop :=
  let '(a, mode, h, _) := shape sp in
  match h with Some _ => a = true /\ mode = AES_MODE_CTR | None => a = true /\ mode = AES_MODE_GCM end.

Lemma protected_shape a b : protected a -> shape b = shape a -> protected b.
Proof. unfold protected. by intros H ->. Qed.
Lemma comp_init_shape offs key sa tag e h mode s c s' : comp_init offs key sa tag e h mode s = (inr c, s') ->
  match c_aes c with Some _ => true | None => false end = e /\ c_mode c = mode /\ tag_len c = tag /\ (match c_hmac c with Some _ => true | None => false end = h).
Proof.
  unfold comp_init. destruct (_ <? length key)%nat; [done|]. destruct (_ <? tag)%nat; [done|]. unfold mbind, IO_bind.
  do 3 (destruct (srtp_derive _ _ _ _ _) as [[? ?] ?]). destruct (negb _); [done|]. destruct e.
  - destruct (aes_alloc _ _ _ _) as [[?|?] ?]; cbn; [done|]. destruct h; cbn; [|by intros [= <- _]]. destruct (hmac_create _ _) as [[?|?] ?]; cbn; [done|by intros [= <- _]].
  - cbn. destruct h; cbn; [|by intros [= <- _]]. destruct (hmac_create _ _) as [[?|?] ?]; cbn; [done|by intros [= <- _]].
Qed.
Lemma srtp_alloc_shape suite key u s sp s' : srtp_alloc suite key u s = (inr sp, s') -> protected sp /\ streaml sp = [].
Proof.
  unfold srtp_alloc. destruct (suite_params suite) as [[[[mode cb] sb] ab] hash] eqn:E. destruct (negb _); [done|]. unfold mbind, IO_bind, ask.
  destruct (_ =? 0); [done|]. destruct (comp_init 0 _ _ _ _ _ _ _) as [[?|c1] s1] eqn:E1; destruct (comp_init 3 _ _ _ _ _ _ _) as [[?|c2] s2]; cbn; try done.
  intros [= <- _]. split; [|done]. apply comp_init_shape in E1 as (Ha & Hm & _ & Hh). unfold protected, shape. cbn. rewrite Hm.
  destruct (c_aes c1); [|done]. destruct suite; injection E as <- <- <- <- <-; by destruct (c_hmac c1).
Qed.

#[local] Existing Instances obs_rv obs_shape keeps_bind keeps_ret keeps_throw keeps_gets keeps_set_mb keeps_set_pos keeps_set_end keeps_try keeps_try_mb
  keeps_stream_of keeps_hdr keeps_read keeps_use keeps_when keeps_decrypt_ctr keeps_upd_shape keeps_recv_rv keeps_recv_shape keeps_highest_rv.

#[local] Instance keeps_get_seq_shape n seq : Keeps shape (try_s (fun sp => stream_get_seq sp n seq)).
Proof.
  intros w s. unfold try_s, stream_get_seq, stream_get, stream_new. unfold mbind, IO_bind.
  destruct (stream_find _ n); [done|]. destruct (SRTP_MAX_STREAMS <=? length (streaml (x_s w)))%nat; [done|].
  unfold ask. cbn. by destruct (env QAlloc (tick s) =? 0).
Qed.
#[local] Instance keeps_replay_shape n ix : Keeps shape (replay_rtp_check n ix).
Proof. unfold replay_rtp_check. apply keeps_bind; [apply _|intros st]. destruct (srtp_replay_check _ _). apply _. Qed.
#[local] Instance keeps_check_tag_shape key n ix start tl : Keeps shape (check_tag key n ix start tl).
Proof.
  unfold check_tag. apply keeps_bind; [apply _|intros mb]. destruct (_ <? tl)%nat; [apply _|]. repeat (apply keeps_bind; [apply _|intros ?]).
  destruct (negb _); [apply _|]. apply keeps_bind; [apply _|intros []]; apply _.
Qed.
#[local] Instance keeps_decrypt_gcm_shape n ix start : Keeps shape (decrypt_gcm n ix start).
Proof.
  unfold decrypt_gcm, iv_set, feed_aad, crypt, authenticate. do 4 (apply keeps_bind; [apply _|intros ?]). destruct (_ <? GCM_TAGLEN)%nat; [apply _|].
  repeat (apply keeps_bind; [apply _|intros ?]). destruct (negb _); apply _.
Qed.
#[local] Instance keeps_decrypt_shape : Keeps shape decrypt_ix.
Proof.
  unfold decrypt_ix. do 4 (apply keeps_bind; [apply _|intros ?]). apply keeps_bind; [apply _|intros c]. apply keeps_bind; [destruct (c_hmac c); apply _|intros ?].
  apply keeps_bind; [destruct (c_aes c), (c_mode c); apply _|intros ?]. unfold keep_highest. apply _.
Qed.

(** What follows the computation of the index. *)
Definition decrypt_rest (c : comp) (start : nat) (hdr : rtp_header) (ix : Z) : X (Z * Z) :=
  match c_hmac c with Some key => check_tag key (h_ssrc hdr) ix start (tag_len c) | None => mret tt end;;
  match c_aes c, c_mode c with
  | Some _, AES_MODE_CTR => decrypt_ctr RTP (h_ssrc hdr) ix
  | Some _, AES_MODE_GCM => decrypt_gcm (h_ssrc hdr) ix start
  | None, _ => mret tt
  end;;
  keep_highest hdr;;
  set_pos start;;
  mret (h_ssrc hdr, ix).
Lemma decrypt_rest_checks sp start hdr ix : protected sp -> Checks (h_ssrc hdr) ix (decrypt_rest (sp_rtp sp) start hdr ix).
Proof.
  unfold protected, shape, decrypt_rest. destruct (c_hmac (sp_rtp sp)) as [key|] eqn:H.
  - intros [Ha ->]. destruct (c_aes (sp_rtp sp)); [|done]. apply checks_before; [apply check_tag_checks|]. apply _.
  - intros [Ha ->]. destruct (c_aes (sp_rtp sp)); [|done]. apply checks_after; [apply _|intros _]. apply checks_before; [apply decrypt_gcm_checks|]. apply _.
Qed.
Lemma bind_inv {A B} (m : X A) (f : A -> X B) w s b w' s' : (m ≫= f) w s = (inr b, w', s') ->
  exists a w1 s1, m w s = (inr a, w1, s1) /\ f a w1 s1 = (inr b, w', s').
Proof. unfold mbind, X_bind. destruct (m w s) as [[[e|a] w1] s1]; [done|]. eauto. Qed.
Lemma decrypt_rest_result c start hdr ix w s a w' s' : decrypt_rest c start hdr ix w s = (inr a, w', s') -> a = (h_ssrc hdr, ix).
Proof.
  unfold decrypt_rest. intros (? & ? & ? & _ & (? & ? & ? & _ & (? & ? & ? & _ & (? & ? & ? & _ & H)%bind_inv)%bind_inv)%bind_inv)%bind_inv. by injection H.
Qed.

(** The windows of the streams contain what was accepted. *)
Definition remembers (sp : srtp) (acc : list (Z * Z)) : Prop :=
  (forall n r, rv n sp = Some r -> exists S, window_rep r S /\ forall ix, (n, ix) ∈ acc -> ix ∈ S) /\
  (forall n ix, (n, ix) ∈ acc -> rv n sp <> None).
Lemma remembers_ext sp sp' acc : (forall n, rv n sp' = rv n sp) -> remembers sp acc -> remembers sp' acc.
Proof. intros E [H1 H2]. split; intros n; setoid_rewrite E; eauto. Qed.
Lemma remembers_checked n ix sp sp' acc : 0 <= ix -> checked n ix sp sp' -> remembers sp acc -> ((n, ix) ∉ acc) /\ remembers sp' ((n, ix) :: acc).
Proof.
  intros Hix (r & r' & Hr & Hc & Hm) [H1 H2]. destruct (H1 n r Hr) as (S & HS & Hin).
  destruct (replay_check_rep r S ix HS Hix) as [E R]. rewrite Hc in E, R. cbn in E, R. unfold window_step, acceptable in E, R.
  destruct (bool_decide_reflect (ix ∈ S)) as [|Hni]; [done|]. destruct (_ <? ix); [|done]. cbn in R. split; [auto|]. split.
  - intros m q. rewrite Hm. destruct (Z.eqb_spec m n) as [-> |Hne].
    + intros [= <-]. exists (ix :: S). split; [done|]. intros i [[= ->]|Hi]%elem_of_cons; [left|right; auto].
    + intros Hq. destruct (H1 m q Hq) as (T & HT & HinT). exists T. split; [done|]. intros i [[= -> _]|Hi]%elem_of_cons; [done|auto].
  - intros m i Hi. rewrite Hm. destruct (Z.eqb_spec m n) as [-> |Hne]; [done|]. apply elem_of_cons in Hi as [[= -> _]|Hi]; [done|eauto].
Qed.
Lemma recv_index_range h w s ix w' s' : recv_index h w s = (inr ix, w', s') -> 0 <= ix.
Proof.
  unfold recv_index, mbind, X_bind, stream_of. destruct (stream_find _ _); [|done]. destruct (_ >? _); [done|].
  destruct (when _ _ _ _) as [[[?|?] ?] ?]; [done|]. destruct (stream_find _ _); [|done]. intros [= <- _ _]. unfold srtp_get_index, u64. apply Z.mod_pos_bound. lia.
Qed.
Lemma remembers_get_seq n seq w s acc : remembers (x_s w) acc -> remembers (x_s (try_s (fun sp => stream_get_seq sp n seq) w s).1.2) acc.
Proof.
  intros [H1 H2]. split.
  - intros m r Hr. destruct (get_seq_rv n seq w s m) as [E|(-> & E & E')]; [apply H1; congruence|].
    rewrite E' in Hr. injection Hr as <-. exists []. split; [apply window_rep_init|]. intros ix Hi%H2. done.
  - intros m ix Hi. destruct (get_seq_rv n seq w s m) as [E|(_ & _ & E)]; rewrite E; [by eapply H2|done].
Qed.

Lemma decrypt_step w s acc : protected (x_s w) -> remembers (x_s w) acc ->
  match decrypt_ix w s with
  | (inr a, w', _) => (a ∉ acc) /\ remembers (x_s w') (a :: acc)
  | (inl _, w', _) => exists acc', acc ⊆ acc' /\ remembers (x_s w') acc'
  end.
Proof.
  intros HP HR.
  change decrypt_ix with (start ← gets (fun w => mb_pos (x_mb w)); hdr ← hdr_decode; try_s (fun sp => stream_get_seq sp (h_ssrc hdr) (h_seq hdr));;
    ix ← recv_index hdr; c ← gets (fun w => sp_rtp (x_s w)); decrypt_rest c start hdr ix).
  unfold mbind at 1, X_bind at 1, gets at 1. set (start := mb_pos (x_mb w)). unfold mbind at 1, X_bind at 1.
  pose proof (fun n => keeps (obs := rv n) (m := hdr_decode) w s) as K1. pose proof (keeps (obs := shape) (m := hdr_decode) w s) as L1.
  destruct (hdr_decode w s) as [[[e|h] w1] s1]; cbn in K1, L1; [exists acc; split; [done|by eapply remembers_ext]|].
  apply (remembers_ext _ (x_s w1)) in HR; [|done]. unfold mbind at 1, X_bind at 1.
  pose proof (keeps (obs := shape) (m := try_s (fun sp => stream_get_seq sp (h_ssrc h) (h_seq h))) w1 s1) as L2.
  apply (remembers_get_seq (h_ssrc h) (h_seq h) w1 s1) in HR.
  destruct (try_s _ w1 s1) as [[[e|[]] w2] s2]; cbn in HR, L2; [exists acc; split; done|]. unfold mbind at 1, X_bind at 1.
  pose proof (fun n => keeps (obs := rv n) (m := recv_index h) w2 s2) as K3. pose proof (keeps (obs := shape) (m := recv_index h) w2 s2) as L3.
  pose proof (recv_index_range h w2 s2) as Hix.
  destruct (recv_index h w2 s2) as [[[e|ix] w3] s3]; cbn in K3, L3; [exists acc; split; [done|by eapply remembers_ext]|].
  specialize (Hix _ _ _ eq_refl). apply (remembers_ext _ (x_s w3)) in HR; [|done].
  assert (protected (x_s w3)) as HP3 by (eapply protected_shape; [exact HP|congruence]).
  unfold mbind, X_bind, gets. pose proof (decrypt_rest_checks (x_s w3) start h ix HP3 w3 s3) as K4.
  pose proof (decrypt_rest_result (sp_rtp (x_s w3)) start h ix w3 s3) as R.
  destruct (decrypt_rest _ _ _ _ w3 s3) as [[[e|a] w4] s4]; cbn in K4.
  - destruct K4 as [K4|K4]; [exists acc; split; [done|by eapply remembers_ext]|].
    exists ((h_ssrc h, ix) :: acc). split; [by right|by eapply remembers_checked].
  - rewrite (R _ _ _ eq_refl). by eapply remembers_checked.
Qed.

(** C27. Whatever datagrams reach a session, in whatever order and however often, and
    whatever fails meanwhile: no two packets of a stream are accepted under the
    same index. *)
Theorem srtp_no_replay (suite : srtp_suite) (key : bytes) (u : bool) (s s' : sys) (sp : srtp) (l : list mbuf) :
  srtp_alloc suite key u s = (inr sp, s') -> NoDup (receive l sp s').
Proof.
  intros [HP HS]%srtp_alloc_shape. assert (forall l sp s acc, protected sp -> remembers sp acc -> NoDup (receive l sp s) /\ forall a, a ∈ receive l sp s -> a ∉ acc) as K.
  { clear. induction l as [|mb l IH]; intros sp s acc HP HR; cbn [receive]; [split; [constructor|by intros ? ?%not_elem_of_nil]|].
    pose proof (decrypt_step (Ctx sp mb) s acc HP HR) as D. pose proof (keeps (obs := shape) (m := decrypt_ix) (Ctx sp mb) s) as L.
    destruct (decrypt_ix (Ctx sp mb) s) as [[[e|a] w'] s2]; cbn in L; assert (protected (x_s w')) as HP' by (eapply protected_shape; [exact HP|congruence]).
    - destruct D as (acc' & Ha & HR'). destruct (IH _ s2 _ HP' HR') as [H1 H2]. split; [done|]. intros a Hin Hacc. by apply (H2 a Hin), Ha.
    - destruct D as (Ha & HR'). destruct (IH _ s2 _ HP' HR') as [H1 H2]. split; [constructor; [|done]|].
      + intros Hin. apply (H2 a Hin). left.
      + intros b [-> |Hb]%elem_of_cons; [done|]. intros Hacc. apply (H2 b Hb). by right. }
  apply (K l sp s' []); [done|]. split; [|by intros ? ? ?%not_elem_of_nil]. intros n r. unfold rv. by rewrite HS.
Qed.
End no_replay.
