(* ===== verification/SrtpDeliver.v ===== *)
(** * Secure RTP: delivery

    Packets that are sent in order arrive as they were sent, whatever is lost,
    across roll-overs of the sequence number; what is accepted is authentic; and
    what the code lets through or loses that it should not. *)
From S2P Require Import Prelude Sys Fmt Mbuf Rtp Srtp SrtpReplay.
From stdpp Require Import list.
Local Open Scope Z_scope.

(** ** Buffers as three parts: before the position, up to the end, after it *)
Definition vw (pre d suf : bytes) : mbuf := Mbuf (pre ++ d ++ suf) (length pre) (length pre + length d).
Lemma vw_wf mb : mbuf_wf mb -> exists pre suf, mb = vw pre (mbuf_buf mb) suf.
Proof.
  intros [H1 H2]. destruct mb as [b p e]. unfold mb_size in H2. cbn in *. exists (take p b), (drop e b). unfold vw, mbuf_buf, mbuf_get_left. cbn.
  f_equal; [|len_lia|len_lia]. rewrite <-(take_drop p b) at 1. f_equal. rewrite <-(take_drop (e - p) (drop p b)) at 1. f_equal. rewrite drop_drop. f_equal. lia.
Qed.
Lemma vw_left pre d suf : mbuf_get_left (vw pre d suf) = length d.
Proof. unfold mbuf_get_left, vw. cbn. lia. Qed.
Lemma vw_buf pre d suf : mbuf_buf (vw pre d suf) = d.
Proof. unfold mbuf_buf. rewrite vw_left. unfold vw. cbn. by rewrite drop_app_length, take_app_length. Qed.
Lemma vw_read pre a b suf n : length a = n -> mbuf_read_mem (vw pre (a ++ b) suf) n = Some (a, vw (pre ++ a) b suf).
Proof.
  intros <-.
  unfold mbuf_read_mem. rewrite vw_left, length_app. destruct (Nat.ltb_spec (length a + length b) (length a)); [lia|]. f_equal. f_equal.
  - unfold vw. cbn. by rewrite drop_app_length, <-app_assoc, take_app_length.
  - unfold vw, mbuf_advance. cbn. rewrite !length_app, <-!app_assoc. f_equal. lia.
Qed.
Lemma vw_read_be pre a b suf n : length a = n -> mbuf_read_be (vw pre (a ++ b) suf) n = (from_be a, vw (pre ++ a) b suf).
Proof. intros H. unfold mbuf_read_be. by rewrite (vw_read _ _ _ _ n). Qed.

(** The header of a packet that is decoded, and what follows it. *)
Definition decodes (hd : bytes) (h : rtp_header) : Prop :=
  forall pre rest suf, rtp_hdr_decode (vw pre (hd ++ rest) suf) = (0, h, vw (pre ++ hd) rest suf).

Lemma split_at {A} (n : nat) (l : list A) : (n <= length l)%nat -> exists a b, l = a ++ b /\ length a = n.
Proof. intros H. exists (take n l), (drop n l). rewrite take_drop, length_take. split; [done|lia]. Qed.
Lemma decode_csrc_vw n : forall cs, length cs = (4 * n)%nat -> exists l, forall pre rest suf, decode_csrc n (vw pre (cs ++ rest) suf) = (l, vw (pre ++ cs) rest suf).
Proof.
  induction n as [|n IH]; intros cs Hn.
  - destruct cs; [|done]. exists []. intros. cbn. by rewrite app_nil_r.
  - destruct (split_at 4 cs) as (a & b & -> & Ha); [lia|]. rewrite length_app in Hn. destruct (IH b) as [l Hl]; [lia|].
    exists (from_be a :: l). intros. cbn [decode_csrc]. unfold mbuf_read_u32. rewrite <-app_assoc, vw_read_be by done. rewrite Hl, <-app_assoc. done.
Qed.

(** A packet that is decoded has a header that is decoded in front of anything. *)
Lemma decode_header pre d suf h mb : rtp_hdr_decode (vw pre d suf) = (0, h, mb) -> exists hd rest, d = hd ++ rest /\ decodes hd h /\ (12 <= length hd)%nat.
Proof.
  unfold rtp_hdr_decode, RTP_HEADER_SIZE, mbuf_read_u16, mbuf_read_u32. rewrite vw_left. destruct (Nat.ltb_spec (length d) 12) as [|Hd]; [done|].
  destruct (split_at 2 d) as (a & d1 & -> & Ha); [lia|]. rewrite (vw_read _ a _ _ 2) by done. rewrite length_app in Hd.
  destruct (split_at 2 d1) as (b & d2 & -> & Hb); [lia|]. rewrite vw_read_be by done. rewrite length_app in Hd.
  destruct (split_at 4 d2) as (c & d3 & -> & Hc); [lia|]. rewrite vw_read_be by done. rewrite length_app in Hd.
  destruct (split_at 4 d3) as (e & d4 & -> & He); [lia|]. rewrite vw_read_be by done. rewrite vw_left. set (cc := Z.land (nth 0 a 0) 15) in *.
  destruct (Nat.ltb_spec (length d4) (Z.to_nat cc * 4)) as [|Hcc]; [done|].
  destruct (split_at (4 * Z.to_nat cc) d4) as (cs & d5 & -> & Hcs); [lia|]. destruct (decode_csrc_vw (Z.to_nat cc) cs Hcs) as [l Hl]. rewrite Hl.
  eassert (forall p' r' s', rtp_hdr_decode (vw p' ((a ++ b ++ c ++ e ++ cs) ++ r') s') = _) as G.
  { intros. rewrite <-!app_assoc. unfold rtp_hdr_decode, RTP_HEADER_SIZE, mbuf_read_u16, mbuf_read_u32. rewrite vw_left. destruct (Nat.ltb_spec (length (a ++ b ++ c ++ e ++ cs ++ r')) 12) as [K|_]; [rewrite !length_app in K; lia|].
    rewrite (vw_read _ a _ _ 2) by done. rewrite !vw_read_be by done. rewrite vw_left. fold cc. destruct (Nat.ltb_spec (length (cs ++ r')) (Z.to_nat cc * 4)) as [K|_]; [rewrite length_app in K; lia|].
    rewrite Hl. reflexivity. }
  destruct (Z.testbit (nth 0 a 0) 4) eqn:Ex.
  - rewrite vw_left. destruct (Nat.ltb_spec (length d5) 4) as [|H4]; [done|].
    destruct (split_at 2 d5) as (x & d6 & -> & Hx); [lia|]. rewrite vw_read_be by done. rewrite length_app in H4.
    destruct (split_at 2 d6) as (y & d7 & -> & Hy); [lia|]. rewrite vw_read_be by done. rewrite vw_left. set (xl := Z.to_nat (from_be y)).
    destruct (Nat.ltb_spec (length d7) (xl * 4)) as [|Hxl]; [done|]. intros [= <- _].
    destruct (split_at (xl * 4) d7) as (z & d8 & -> & Hz); [lia|].
    exists ((a ++ b ++ c ++ e ++ cs) ++ x ++ y ++ z), d8. split_and!; [by rewrite <-!app_assoc| |rewrite !length_app; lia].
    intros p' r' s'. rewrite <-(app_assoc _ (x ++ y ++ z)), G. rewrite vw_left. rewrite <-!app_assoc.
    destruct (Nat.ltb_spec (length (x ++ y ++ z ++ r')) 4) as [K|_]; [rewrite !length_app in K; lia|].
    rewrite !vw_read_be by done. rewrite vw_left. fold xl. destruct (Nat.ltb_spec (length (z ++ r')) (xl * 4)) as [K|_]; [rewrite length_app in K; lia|].
    f_equal. unfold mbuf_advance, vw. cbn. rewrite !length_app, <-!app_assoc. f_equal; lia.
  - intros [= <- _]. exists (a ++ b ++ c ++ e ++ cs), d5. split_and!; [by rewrite <-!app_assoc| |rewrite !length_app; lia].
    intros p' r' s'. rewrite G. by rewrite <-!app_assoc.
Qed.

(** ** Running without failures *)
Section delivery.
Context `{V : Env} `{C : Crypto} `{VA : !AllocOk V} `{CO : !CryptoOk C} `{CS : !CryptoSpec C}.

(** The computation succeeds, whatever was called before. *)
Definition ok {A} (m : X A) (w : ctx) (Q : A -> ctx -> Prop) : Prop := forall s, exists a w' s', m w s = (inr a, w', s') /\ Q a w'.
Lemma ok_bind {A B} (m : X A) (f : A -> X B) w Q : ok m w (fun a w' => ok (f a) w' Q) -> ok (m ≫= f) w Q.
Proof. intros H s. unfold mbind, X_bind. destruct (H s) as (a & w' & s' & -> & K). apply K. Qed.
Lemma ok_mono {A} (m : X A) w (P Q : A -> ctx -> Prop) : ok m w P -> (forall a w', P a w' -> Q a w') -> ok m w Q.
Proof. intros H K s. destruct (H s) as (a & w' & s' & E & HP). eauto 6. Qed.
Lemma ok_ret {A} (a : A) w (Q : A -> ctx -> Prop) : Q a w -> ok (mret a) w Q.
Proof. intros H s. by eexists _, _, _. Qed.
Lemma ok_gets {A} (f : ctx -> A) w (Q : A -> ctx -> Prop) : Q (f w) w -> ok (gets f) w Q.
Proof. intros H s. by eexists _, _, _. Qed.
Lemma ok_update f w (Q : unit -> ctx -> Prop) : Q tt (f w) -> ok (upd f) w Q.
Proof. intros H s. by eexists _, _, _. Qed.
Lemma ok_when (b : bool) m w Q : (if b then ok m w Q else Q tt w) -> ok (when b m) w Q.
Proof. destruct b; [done|apply ok_ret]. Qed.
Lemma ok_stream_of n w st Q : stream_find (streaml (x_s w)) n = Some st -> Q st w -> ok (stream_of n) w Q.
Proof. intros E H s. unfold stream_of. rewrite E. by eexists _, _, _. Qed.
Lemma ok_hdr hd h pre rest suf sp Q : decodes hd h -> Q h (Ctx sp (vw (pre ++ hd) rest suf)) -> ok hdr_decode (Ctx sp (vw pre (hd ++ rest) suf)) Q.
Proof. intros D H s. unfold hdr_decode. cbn [x_mb x_s]. rewrite (D pre rest suf). by eexists _, _, _. Qed.

(** What a session is keyed with; the state of the cipher changes. *)
Record keys := Keys { ky_mode : aes_mode; ky_e : bytes; ky_hmac : option bytes; ky_s : bytes; ky_tag : nat }.
Definition keyed (c : comp) (K : keys) : Prop :=
  exists a, c = Comp (Some a) (ky_mode K) (ky_hmac K) (ky_s K) (ky_tag K) /\ a_mode a = ky_mode K /\ a_key a = ky_e K.
Lemma ok_use {A} p (f : aes -> IO (Z * A * aes)) w a x a' Q : c_aes (comp_of p (x_s w)) = Some a -> (forall s, exists s', f a s = ((0, x, a'), s')) ->
  Q x (Ctx (put_aes p a' (x_s w)) (x_mb w)) -> ok (use_aes p f) w Q.
Proof. intros E F H s. unfold use_aes. rewrite E. destruct (F s) as [s' ->]. cbn. by eexists _, _, _. Qed.
Lemma evp_yes s : evp s = (true, Sys (S (tick s)) (out s)).
Proof. unfold evp, mbind, IO_bind, Sys.fresh. by rewrite (crypto_ok (tick s)). Qed.
Lemma set_iv_run a iv s : exists s', aes_set_iv a iv s = (Aes (a_mode a) (a_encr a) (a_key a) iv 0 [] [], s').
Proof. unfold aes_set_iv, mbind, IO_bind. rewrite evp_yes. eauto. Qed.
Lemma set_dir_run a e s : exists s', set_crypt_dir a e s = ((true, Aes (a_mode a) e (a_key a) (a_iv a) (a_done a) (a_aad a) (a_ct a)), s').
Proof.
  unfold set_crypt_dir. destruct (Bool.eqb (a_encr a) e) eqn:E; [apply Bool.eqb_prop in E as <-; destruct a; eauto|].
  unfold mbind, IO_bind. rewrite evp_yes. eauto.
Qed.
Definition aes_out (e : bool) (a : aes) (inp : bytes) : bytes :=
  match a_mode a with AES_MODE_CTR => evp_ctr (a_key a) (a_iv a) (a_done a) inp | AES_MODE_GCM => evp_gcm e (a_key a) (a_iv a) (a_done a) inp end.
Lemma update_run e a inp s : exists s', aes_update e a inp s =
  ((0, aes_out e a inp, Aes (a_mode a) e (a_key a) (a_iv a) (a_done a + length inp) (a_aad a) (a_ct a ++ if e then aes_out e a inp else inp)), s').
Proof. unfold aes_update, mbind, IO_bind. destruct (set_dir_run a e s) as [s1 ->]. cbn [negb]. rewrite evp_yes. eauto. Qed.
Lemma update_aad_run e a inp s : exists s', aes_update_aad e a inp s = ((0, Aes (a_mode a) e (a_key a) (a_iv a) (a_done a) (a_aad a ++ inp) (a_ct a)), s').
Proof. unfold aes_update_aad, mbind, IO_bind. destruct (set_dir_run a e s) as [s1 ->]. cbn [negb]. rewrite evp_yes. eauto. Qed.

Lemma ok_iv p iv w a Q : c_aes (comp_of p (x_s w)) = Some a -> Q tt (Ctx (put_aes p (Aes (a_mode a) (a_encr a) (a_key a) iv 0 [] []) (x_s w)) (x_mb w)) -> ok (iv_set p iv) w Q.
Proof. intros E. apply (ok_use _ _ _ _ _ _ _ E). intros s. unfold mbind, IO_bind. destruct (set_iv_run a iv s) as [s' ->]. eauto. Qed.
Lemma feed_all_run e l a s : a_encr a = e \/ l <> [] -> exists s', feed_all e a l s = ((0, Aes (a_mode a) e (a_key a) (a_iv a) (a_done a) (a_aad a ++ concat l) (a_ct a)), s').
Proof.
  revert a s. induction l as [|d l IH]; intros a s Hd; cbn [feed_all concat].
  - exists s. destruct Hd as [<- |]; [|done]. rewrite app_nil_r. by destruct a.
  - unfold mbind, IO_bind. destruct (update_aad_run e a d s) as [s1 ->]. cbn [fst snd]. edestruct (IH (Aes (a_mode a) e (a_key a) (a_iv a) (a_done a) (a_aad a ++ d) (a_ct a)) s1) as [s2 ->]; [by left|].
    cbn. rewrite <-app_assoc. by exists s2.
Qed.
Lemma ok_aad p e l w a Q : c_aes (comp_of p (x_s w)) = Some a -> l <> [] ->
  Q tt (Ctx (put_aes p (Aes (a_mode a) e (a_key a) (a_iv a) (a_done a) (a_aad a ++ concat l) (a_ct a)) (x_s w)) (x_mb w)) -> ok (feed_aad p e l) w Q.
Proof. intros E Hl. apply (ok_use _ _ _ _ _ _ _ E). intros s. unfold mbind, IO_bind. destruct (feed_all_run e l a s) as [s' ->]; eauto. Qed.
Lemma ok_auth_tag p w a Q : c_aes (comp_of p (x_s w)) = Some a -> a_mode a = AES_MODE_GCM -> Q (aes_tag a) (Ctx (put_aes p a (x_s w)) (x_mb w)) -> ok (auth_tag p) w Q.
Proof.
  intros E M. apply (ok_use _ _ _ _ _ _ _ E). intros s. unfold aes_get_authtag, mbind, IO_bind. rewrite M, evp_yes. cbn [negb]. rewrite evp_yes. cbn.
  rewrite take_ge; [eauto|]. unfold aes_tag. by rewrite gcm_tag_length.
Qed.
Lemma ok_authenticate p tag w a Q : c_aes (comp_of p (x_s w)) = Some a -> a_mode a = AES_MODE_GCM -> tag = aes_tag a ->
  Q tt (Ctx (put_aes p a (x_s w)) (x_mb w)) -> ok (authenticate p tag) w Q.
Proof.
  intros E M ->. apply (ok_use _ _ _ _ _ _ _ E). intros s. unfold aes_authenticate, mbind, IO_bind. rewrite M, evp_yes. cbn [negb]. rewrite evp_yes. cbn.
  unfold bytes_eqb. rewrite take_ge, bool_decide_true by done. eauto.
Qed.

(** Octets of the buffer, and writing over them. *)
Lemma slice_app a b c p e : slice (Mbuf (a ++ b ++ c) p e) (length a) (length a + length b) = b.
Proof. unfold slice. cbn. rewrite drop_app_length. replace (length a + length b - length a)%nat with (length b) by lia. by rewrite take_app_length. Qed.
Lemma poke_app a b b' c p e : length b' = length b -> poke (length a) b' (Mbuf (a ++ b ++ c) p e) = Mbuf (a ++ b' ++ c) p e.
Proof.
  intros E. unfold poke. cbn. rewrite take_app_length. f_equal. do 2 f_equal. rewrite <-drop_drop, drop_app_length, E. by rewrite drop_app_length.
Qed.
Lemma aes_out_length e a d : length (aes_out e a d) = length d.
Proof. unfold aes_out. destruct (a_mode a); [apply ctr_length|apply gcm_length]. Qed.
Lemma ok_crypt pt e x y z p q sp a (Q : unit -> ctx -> Prop) : c_aes (comp_of pt sp) = Some a ->
  Q tt (Ctx (put_aes pt (Aes (a_mode a) e (a_key a) (a_iv a) (a_done a + length y) (a_aad a) (a_ct a ++ if e then aes_out e a y else y)) sp)
            (Mbuf (x ++ aes_out e a y ++ z) p q)) ->
  ok (crypt pt e (length x) (length x + length y)) (Ctx sp (Mbuf (x ++ y ++ z) p q)) Q.
Proof.
  intros E H. apply ok_bind, ok_gets, ok_bind. cbn [x_mb]. rewrite slice_app. eapply ok_use; [exact E|apply update_run|].
  apply ok_update. cbn [x_s x_mb]. by rewrite poke_app by apply aes_out_length.
Qed.

(** A write at the position. *)
Lemma write_run a c e d s : exists c' s', mbuf_write_mem (Mbuf (a ++ c) (length a) e) d s =
  ((0, Mbuf (a ++ d ++ c') (length a + length d) (Nat.max e (length a + length d))), s') /\ ((length d <= length c)%nat -> c' = drop (length d) c).
Proof.
  unfold mbuf_write_mem, mb_size, mbuf_put. cbn [mb_buf mb_pos mb_end]. rewrite length_app.
  destruct (Nat.ltb_spec (length a + length c) (length a + length d)) as [Hl|Hl].
  - unfold mbind, IO_bind, mbuf_resize, mbind, ask, mb_size. cbn [mb_buf mb_pos mb_end]. rewrite length_app.
    set (n := Nat.max _ _). cbn. rewrite (proj2 (Z.eqb_neq _ _) (alloc_ok (tick s))). cbn.
    eexists _, _. split; [|lia]. rewrite take_take, Nat.min_l by lia. rewrite <-app_assoc, take_app_length. do 3 f_equal.
  - exists (drop (length d) c), s. split; [|done]. cbn. by rewrite take_app_length, <-drop_drop, drop_app_length.
Qed.
Lemma ok_write a c e d sp (Q : unit -> ctx -> Prop) :
  (forall c', ((length d <= length c)%nat -> c' = drop (length d) c) -> Q tt (Ctx sp (Mbuf (a ++ d ++ c') (length a + length d) (Nat.max e (length a + length d))))) ->
  ok (try_mb (fun mb => mbuf_write_mem mb d)) (Ctx sp (Mbuf (a ++ c) (length a) e)) Q.
Proof.
  intros H s. unfold try_mb. cbn [x_mb x_s]. destruct (write_run a c e d s) as (c' & s' & -> & Hc). cbn. eexists _, _, _. split; [done|]. by apply H.
Qed.
Lemma ok_digest key d w (Q : bytes -> ctx -> Prop) : d <> [] -> Q (evp_hmac key d) w -> ok (try_ (hmac_digest key d)) w Q.
Proof.
  intros Hd H s. unfold try_, hmac_digest. destruct (Nat.eqb_spec (length d) 0) as [E|_]; [by apply nil_length_inv in E|].
  unfold mbind, IO_bind. rewrite evp_yes. cbn. by eexists _, _, _.
Qed.
Lemma ok_read a x c e d sp (Q : bytes -> ctx -> Prop) : d = length x -> (length a + length x <= e)%nat ->
  Q x (Ctx sp (Mbuf (a ++ x ++ c) (length a + length x) e)) -> ok (read_mem d) (Ctx sp (Mbuf (a ++ x ++ c) (length a) e)) Q.
Proof.
  intros -> He H s. unfold read_mem, mbuf_read_mem, mbuf_get_left. cbn [x_mb mb_buf mb_pos mb_end x_s]. destruct (Nat.ltb_spec (e - length a) (length x)); [lia|].
  rewrite drop_app_length, take_app_length. by eexists _, _, _.
Qed.

(** ** The stream of a session *)
Definition sfind (sp : srtp) (n : Z) : option srtp_stream := stream_find (streaml sp) n.
(** The highest packet was number [M], counted without roll-over. *)
Definition at_number (st : srtp_stream) (M : Z) : Prop := 0 <= M < 2 ^ 47 /\ roc st = M / 65536 /\ s_l st = M mod 65536 /\ s_l_set st = true.
(** Packet [N] may be next: not more than 2^15 ahead, or the first. *)
Definition may_be_next (sp : srtp) (n N : Z) : Prop :=
  (exists st M, sfind sp n = Some st /\ at_number st M /\ M <= N <= M + 32768) \/
  (sfind sp n = None /\ (length (streaml sp) < SRTP_MAX_STREAMS)%nat /\ N < 65536).

(** Looking up the stream makes one if need be, whose number is then the
    packet's. *)
Lemma ok_get_seq sp mb n N (Q : unit -> ctx -> Prop) : 0 <= N < 2 ^ 47 -> may_be_next sp n N ->
  (forall sp' st M, sfind sp' n = Some st -> sp_rtp sp' = sp_rtp sp -> at_number st M -> M <= N <= M + 32768 ->
    (sfind sp n = None /\ replay_rtp st = srtp_replay_init \/ sfind sp n = Some st) -> Q tt (Ctx sp' mb)) ->
  ok (try_s (fun sp => stream_get_seq sp n (N mod 65536))) (Ctx sp mb) Q.
Proof.
  intros HN Hm HQ s. set (f := fun st => if s_l_set st then st else set_s_l_set (set_s_l (N mod 65536) st)).
  assert (forall st, ssrc (f st) = ssrc st) as F1 by (intros st; unfold f; by destruct (s_l_set st)).
  unfold try_s, stream_get_seq, stream_get. cbn [x_s]. destruct Hm as [(st & M & Hf & Hat & HMN)|(Hf & Hl & HN2)]; unfold sfind in Hf; rewrite Hf.
  - unfold mbind, IO_bind. cbn -[stream_upd]. fold f. eexists _, _, _. split; [done|]. apply (HQ _ st M); try done; [|by right].
    unfold sfind. rewrite stream_find_upd, Z.eqb_refl, Hf by done. cbn. unfold f. by destruct Hat as (_ & _ & _ & ->).
  - unfold stream_new. rewrite (proj2 (Nat.leb_gt _ _)) by done. unfold mbind, IO_bind, ask. cbn -[stream_upd].
    rewrite (proj2 (Z.eqb_neq _ _) (alloc_ok (tick s))). cbn -[stream_upd]. fold f. eexists _, _, _. split; [done|].
    apply (HQ _ (Stream srtp_replay_init srtp_replay_init n 0 (N mod 65536) true 0) N); try done; [| |lia|left; split; done].
    + unfold sfind. rewrite stream_find_upd by done. cbn. rewrite stream_find_app, Hf. cbn. by rewrite !Z.eqb_refl.
    + split_and!; [lia|lia| |done|done]. cbn. rewrite Z.div_small; lia.
Qed.

(** Numbers that follow each other: the sequence number rolls over or not. *)
Lemma next_number st M N : at_number st M -> M <= N <= M + 32768 -> N < 2 ^ 47 ->
  let seq := N mod 65536 in
  (seq - s_l st <= -32768 /\ N / 65536 = roc st + 1 /\ seq < 32768) \/
  (0 <= seq - s_l st <= 32768 /\ N / 65536 = roc st).
Proof. intros ((H1 & H2) & -> & -> & _) HMN HN. cbn. Z.div_mod_to_equations. lia. Qed.

Definition rolled (st : srtp_stream) : srtp_stream := set_s_l 0 (set_roc (u32 (roc st + 1)) st).
(** The stream once the index of packet [N] is known. *)
Definition ready (st : srtp_stream) (N : Z) : Prop := roc st = N / 65536 /\ 0 <= s_l st <= N mod 65536 /\ N mod 65536 - s_l st <= 32768 /\ s_l_set st = true.
Lemma ready_index st N : ready st N -> 0 <= N < 2 ^ 47 -> srtp_get_index (roc st) (s_l st) (N mod 65536) = N /\ u64 (65536 * roc st + N mod 65536) = N.
Proof.
  intros (-> & H1 & H2 & _) HN. unfold srtp_get_index.
  assert (0 <= N / 65536 < 2147483648) as Hr by (Z.div_mod_to_equations; lia). assert (N = 65536 * (N / 65536) + N mod 65536) as E by (Z.div_mod_to_equations; lia).
  assert (i32 (N / 65536) = N / 65536) as Ei by (unfold i32; rewrite Z.mod_small; lia). split.
  - assert (forall a b, (if s_l st <? 32768 then if N mod 65536 - s_l st >? 32768 then a else N / 65536 else if s_l st - 32768 >? N mod 65536 then b else N / 65536) = N / 65536) as ->.
    { intros a b. destruct (s_l st <? 32768); rewrite Z.gtb_ltb, (proj2 (Z.ltb_ge _ _)) by lia; done. }
    rewrite Ei. unfold u64. rewrite (Z.mod_small (N / 65536)) by lia. rewrite Z.mod_small; lia.
  - unfold u64. rewrite Z.mod_small; lia.
Qed.

Lemma find_upd f n sp m : (forall st, ssrc (f st) = ssrc st) -> sfind (stream_upd f n sp) m = if m =? n then f <$> sfind sp m else sfind sp m.
Proof. apply stream_find_upd. Qed.
Lemma ok_upd_stream n f w (Q : unit -> ctx -> Prop) : Q tt (Ctx (stream_upd f n (x_s w)) (x_mb w)) -> ok (upd_stream n f) w Q.
Proof. intros H. by apply ok_update. Qed.

(** Both sides arrive at the number of the packet as its index. *)
Lemma ok_roll sp mb n st M N (Q : unit -> ctx -> Prop) : 0 <= N < 2 ^ 47 -> sfind sp n = Some st -> at_number st M -> M <= N <= M + 32768 ->
  (forall sp' st', sfind sp' n = Some st' -> sp_rtp sp' = sp_rtp sp -> ready st' N -> replay_rtp st' = replay_rtp st -> Q tt (Ctx sp' mb)) ->
  ok (when (seq_diff (s_l st) (N mod 65536) <=? -32768) (upd_stream n (fun st => set_s_l 0 (set_roc (u32 (roc st + 1)) st)))) (Ctx sp mb) Q.
Proof.
  intros HN Hf Hat HMN HQ. pose proof (next_number st M N Hat HMN (proj2 HN)) as Hn. cbn in Hn. pose proof Hat as (HM & Hr & Hs & Hset).
  apply ok_when. unfold seq_diff. destruct (Z.leb_spec (N mod 65536 - s_l st) (-32768)) as [Hle|Hgt].
  - destruct Hn as [(H1 & H2 & H3)|(H1 & H2)]; [|lia]. apply ok_upd_stream. apply (HQ _ (rolled st)); try done.
    + rewrite find_upd, Z.eqb_refl by done. cbn [x_s]. by rewrite Hf.
    + unfold ready, rolled. cbn. assert (0 <= N / 65536 < 4294967296) by (Z.div_mod_to_equations; lia).
      pose proof (Z.mod_pos_bound N 65536). split_and!; [|lia|lia|lia|done]. unfold u32. rewrite Z.mod_small; lia.
  - destruct Hn as [(H1 & H2 & H3)|(H1 & H2)]; [lia|]. apply (HQ _ st); try done. split_and!; [lia| |lia|lia|done].
    rewrite Hs. pose proof (Z.mod_pos_bound M 65536). lia.
Qed.
Lemma ok_send_index sp mb h st M N (Q : Z -> ctx -> Prop) : 0 <= N < 2 ^ 47 -> h_seq h = N mod 65536 -> sfind sp (h_ssrc h) = Some st -> at_number st M -> M <= N <= M + 32768 ->
  (forall sp' st', sfind sp' (h_ssrc h) = Some st' -> sp_rtp sp' = sp_rtp sp -> ready st' N -> Q N (Ctx sp' mb)) -> ok (send_index h) (Ctx sp mb) Q.
Proof.
  intros HN Hs Hf Hat HMN HQ. unfold send_index. apply ok_bind. eapply ok_stream_of; [exact Hf|]. apply ok_bind. rewrite Hs. eapply ok_roll; [done..|].
  intros sp' st' Hf' Hc Hr _. apply ok_bind. eapply ok_stream_of; [exact Hf'|]. apply ok_ret. rewrite (proj2 (ready_index st' N Hr HN)). by eapply HQ.
Qed.
Lemma ok_recv_index sp mb h st M N (Q : Z -> ctx -> Prop) : 0 <= N < 2 ^ 47 -> h_seq h = N mod 65536 -> sfind sp (h_ssrc h) = Some st -> at_number st M -> M <= N <= M + 32768 ->
  (forall sp' st', sfind sp' (h_ssrc h) = Some st' -> sp_rtp sp' = sp_rtp sp -> ready st' N -> replay_rtp st' = replay_rtp st -> Q N (Ctx sp' mb)) -> ok (recv_index h) (Ctx sp mb) Q.
Proof.
  intros HN Hs Hf Hat HMN HQ. unfold recv_index. apply ok_bind. eapply ok_stream_of; [exact Hf|].
  pose proof (next_number st M N Hat HMN (proj2 HN)) as Hn. cbn in Hn. rewrite Hs. cbn zeta.
  destruct (Z.gtb_spec (seq_diff (s_l st) (N mod 65536)) 32768) as [K|_]; [unfold seq_diff in K; lia|].
  apply ok_bind. eapply ok_roll; [done..|].
  intros sp' st' Hf' Hc Hr Hrep. apply ok_bind. eapply ok_stream_of; [exact Hf'|]. apply ok_ret. rewrite (proj1 (ready_index st' N Hr HN)). by eapply HQ.
Qed.
Lemma ok_keep_highest sp mb h st N (Q : unit -> ctx -> Prop) : 0 <= N < 2 ^ 47 -> h_seq h = N mod 65536 -> sfind sp (h_ssrc h) = Some st -> ready st N ->
  (forall sp' st', sfind sp' (h_ssrc h) = Some st' -> sp_rtp sp' = sp_rtp sp -> at_number st' N -> replay_rtp st' = replay_rtp st -> Q tt (Ctx sp' mb)) -> ok (keep_highest h) (Ctx sp mb) Q.
Proof.
  intros HN Hs Hf (Hr1 & Hr2 & Hr3 & Hr4) HQ. apply ok_upd_stream. set (f := fun st => _). assert (forall st, ssrc (f st) = ssrc st) as F by (intros x; unfold f; by destruct (s_l x <? h_seq h)).
  apply (HQ _ (f st)); try done.
  - rewrite find_upd, Z.eqb_refl by done. cbn [x_s]. by rewrite Hf.
  - unfold f. rewrite Hs. destruct (Z.ltb_spec (s_l st) (N mod 65536)); (split_and!; [lia|lia|done| |done]); cbn; lia.
  - unfold f. by destruct (s_l st <? h_seq h).
Qed.

(** ** The packet on the wire *)
Definition iv_of (K : keys) (n N : Z) : bytes := match ky_mode K with AES_MODE_CTR => srtp_iv_calc (ky_s K) n N | AES_MODE_GCM => srtp_iv_calc_gcm (ky_s K) n N end.
Definition ciphertext (K : keys) (n N : Z) (pl : bytes) : bytes :=
  match ky_mode K with AES_MODE_CTR => evp_ctr (ky_e K) (iv_of K n N) 0 pl | AES_MODE_GCM => evp_gcm true (ky_e K) (iv_of K n N) 0 pl end.
Definition wire_tag (K : keys) (n N : Z) (hd ct : bytes) : bytes :=
  match ky_hmac K with
  | Some ka => take (ky_tag K) (evp_hmac ka (hd ++ ct ++ be32 (N / 65536)))
  | None => evp_gcm_tag (ky_e K) (iv_of K n N) hd ct
  end.
Definition wire (K : keys) (n N : Z) (hd pl : bytes) : bytes := let ct := ciphertext K n N pl in hd ++ ct ++ wire_tag K n N hd ct.
(** The two kinds of suites. *)
Definition keys_ok (K : keys) : Prop :=
  match ky_hmac K with Some _ => ky_mode K = AES_MODE_CTR /\ (4 <= ky_tag K <= 20)%nat | None => ky_mode K = AES_MODE_GCM end.
Lemma ciphertext_length K n N pl : length (ciphertext K n N pl) = length pl.
Proof. unfold ciphertext. destruct (ky_mode K); [apply ctr_length|apply gcm_length]. Qed.

(** ** Protecting a packet *)
Lemma keyed_put p sp K a a' : c_aes (comp_of p sp) = Some a -> keyed (comp_of p sp) K -> a_mode a' = a_mode a -> a_key a' = a_key a -> keyed (comp_of p (put_aes p a' sp)) K.
Proof. intros E (b & Hc & Hm & Hk) M1 M2. rewrite Hc in E. injection E as ->. exists a'. destruct p; cbn in *; rewrite Hc; cbn; (split_and!; [done|congruence|congruence]). Qed.
Lemma put_put p a a' sp : put_aes p a' (put_aes p a sp) = put_aes p a' sp.
Proof. by destruct p. Qed.
Lemma aes_put p a sp : c_aes (comp_of p (put_aes p a sp)) = Some a.
Proof. by destruct p. Qed.

Lemma ok_encrypt_ctr p K sp x y z n N (Q : unit -> ctx -> Prop) : keyed (comp_of p sp) K -> ky_mode K = AES_MODE_CTR ->
  (forall sp', keyed (comp_of p sp') K -> streaml sp' = streaml sp -> Q tt (Ctx sp' (vw x (ciphertext K n N y) z))) ->
  ok (encrypt_ctr p n N) (Ctx sp (vw x y z)) Q.
Proof.
  intros HK M HQ. pose proof HK as (a & Ec & Ea & Ek). unfold encrypt_ctr. apply ok_bind, ok_gets, ok_bind, ok_gets, ok_bind.
  eapply ok_iv; [cbn [x_s]; rewrite Ec; done|]. cbn [x_s x_mb]. eapply ok_crypt; [apply aes_put|]. rewrite put_put.
  unfold aes_out. cbn [a_mode a_key a_iv a_done]. rewrite Ea, M, Ek, Ec. cbn [k_s].
  pose proof (ciphertext_length K n N y) as Hl. unfold ciphertext, iv_of in *. rewrite M in *. unfold vw in HQ. rewrite Hl in HQ.
  apply HQ; [|apply streaml_put_aes]. apply (keyed_put p sp K a); [by rewrite Ec|done|cbn; congruence|cbn; congruence].
Qed.
Lemma ok_decrypt_ctr p K sp x y z n N (Q : unit -> ctx -> Prop) : keyed (comp_of p sp) K -> ky_mode K = AES_MODE_CTR ->
  (forall sp', keyed (comp_of p sp') K -> streaml sp' = streaml sp -> Q tt (Ctx sp' (vw x y z))) ->
  ok (decrypt_ctr p n N) (Ctx sp (vw x (ciphertext K n N y) z)) Q.
Proof.
  intros HK M HQ. pose proof HK as (a & Ec & Ea & Ek). unfold decrypt_ctr. apply ok_bind, ok_gets, ok_bind, ok_gets, ok_bind.
  eapply ok_iv; [cbn [x_s]; rewrite Ec; done|]. cbn [x_s x_mb]. eapply ok_crypt; [apply aes_put|]. rewrite put_put.
  unfold aes_out. cbn [a_mode a_key a_iv a_done]. rewrite Ea, M, Ek, Ec. cbn [k_s].
  pose proof (ciphertext_length K n N y) as Hl. unfold ciphertext, iv_of in *. rewrite M in *. rewrite ctr_inverse. unfold vw in HQ. rewrite Hl.
  apply HQ; [|apply streaml_put_aes]. apply (keyed_put p sp K a); [by rewrite Ec|done|cbn; congruence|cbn; congruence].
Qed.

(** The buffer with a tag behind the packet. *)
Lemma slice_vw pre hd y z : slice (vw (pre ++ hd) y z) (length pre) (length (pre ++ hd)) = hd.
Proof. unfold vw. rewrite length_app, <-app_assoc. apply slice_app. Qed.
Lemma ok_encrypt_gcm p K sp pre hd y z n N aad (Q : unit -> ctx -> Prop) : keyed (comp_of p sp) K -> ky_mode K = AES_MODE_GCM ->
  (forall sp' z', keyed (comp_of p sp') K -> streaml sp' = streaml sp ->
    let d := hd ++ ciphertext K n N y ++ evp_gcm_tag (ky_e K) (iv_of K n N) (hd ++ concat aad) (ciphertext K n N y) in
    Q tt (Ctx sp' (Mbuf (pre ++ d ++ z') (length pre + length d) (length pre + length d)))) ->
  ok (encrypt_gcm p n N (length pre) aad) (Ctx sp (vw (pre ++ hd) y z)) Q.
Proof.
  intros HK M HQ. pose proof HK as (a & Ec & Ea & Ek). unfold encrypt_gcm. apply ok_bind, ok_gets, ok_bind, ok_gets, ok_bind.
  eapply ok_iv; [cbn [x_s]; rewrite Ec; done|]. cbn [x_s x_mb mb_pos mb_end vw]. apply ok_bind.
  eapply ok_aad; [apply aes_put|done|]. cbn [x_s x_mb a_mode a_key a_iv a_done a_aad a_ct concat app]. rewrite put_put.
  apply ok_bind. eapply ok_crypt; [apply aes_put|]. cbn [x_s x_mb a_mode a_key a_iv a_done a_aad a_ct]. rewrite put_put. apply ok_bind.
  eapply ok_auth_tag; [apply aes_put|cbn; congruence|]. cbn [x_s x_mb]. rewrite put_put. apply ok_bind, ok_update. cbn [x_s x_mb mb_buf mb_pos mb_end].
  unfold aes_out, aes_tag. cbn [a_mode a_key a_iv a_done a_aad a_ct app]. rewrite Ea, M, Ek, Ec. cbn [k_s].
  change (Mbuf ((pre ++ hd) ++ y ++ z) (length (pre ++ hd)) (length (pre ++ hd) + length y)) with (vw (pre ++ hd) y z). rewrite slice_vw.
  unfold ciphertext, iv_of in HQ. rewrite M in HQ. set (ct := evp_gcm true _ _ _ _) in *. set (tg := evp_gcm_tag _ _ _ _) in *.
  assert (length ct = length y) as Hl by apply gcm_length. rewrite <-Hl, <-length_app, (app_assoc (pre ++ hd)). apply ok_write. intros c' _.
  rewrite Nat.max_r by lia. replace (((pre ++ hd) ++ ct) ++ tg ++ c') with (pre ++ (hd ++ ct ++ tg) ++ c') by (by rewrite <-!app_assoc).
  replace (length ((pre ++ hd) ++ ct) + length tg)%nat with (length pre + length (hd ++ ct ++ tg))%nat by (rewrite !length_app; lia).
  apply HQ; [|apply streaml_put_aes]. apply (keyed_put p sp K a); [by rewrite Ec|done|cbn; congruence|cbn; congruence].
Qed.

Lemma ok_append_tag K sp pre hd ct z n N ka st (Q : unit -> ctx -> Prop) : (4 <= ky_tag K <= 20)%nat -> hd <> [] -> ky_hmac K = Some ka -> sfind sp n = Some st -> roc st = N / 65536 ->
  (forall z', let d := hd ++ ct ++ wire_tag K n N hd ct in Q tt (Ctx sp (Mbuf (pre ++ d ++ z') (length pre + length d) (length pre + length d)))) ->
  ok (append_tag ka n (length pre) (ky_tag K)) (Ctx sp (vw (pre ++ hd) ct z)) Q.
Proof.
  intros Ht Hhd HH Hf Hr HQ. unfold append_tag. apply ok_bind, ok_gets. cbn [x_mb vw mb_end]. apply ok_bind. eapply ok_stream_of; [exact Hf|]. apply ok_bind, ok_update. cbn [x_s x_mb mb_buf mb_end vw].
  apply ok_bind. rewrite Hr, <-length_app, (app_assoc (pre ++ hd)). apply ok_write. intros c' _. rewrite be32_length. rewrite Nat.max_r by lia.
  apply ok_bind, ok_update. cbn [x_s x_mb mb_buf mb_end]. apply ok_bind, ok_gets. cbn [x_mb]. apply ok_bind.
  set (r4 := be32 (N / 65536)).
  assert (Mbuf (((pre ++ hd) ++ ct) ++ r4 ++ c') (length pre) (length ((pre ++ hd) ++ ct) + 4) = vw pre (hd ++ ct ++ r4) c') as ->.
  { unfold vw. rewrite <-!app_assoc. f_equal. rewrite !length_app. change (length r4) with 4%nat. lia. }
  rewrite vw_buf. apply ok_digest; [by destruct hd|]. apply ok_bind, ok_update, ok_bind, ok_update. cbn [x_s x_mb mb_buf mb_pos mb_end vw].
  replace (pre ++ (hd ++ ct ++ r4) ++ c') with (((pre ++ hd) ++ ct) ++ (r4 ++ c')) by (by rewrite <-!app_assoc). apply ok_write. intros z' _. rewrite Nat.max_r by lia.
  unfold wire_tag in HQ. rewrite HH in HQ. fold r4 in HQ. set (tg := take (ky_tag K) _) in *.
  replace (((pre ++ hd) ++ ct) ++ tg ++ z') with (pre ++ (hd ++ ct ++ tg) ++ z') by (by rewrite <-!app_assoc).
  replace (length ((pre ++ hd) ++ ct) + length tg)%nat with (length pre + length (hd ++ ct ++ tg))%nat by (rewrite !length_app; lia). apply HQ.
Qed.

Lemma ok_srtp_encrypt K sp pre hd h pl suf N : 0 <= N < 2 ^ 47 -> keyed (sp_rtp sp) K -> keys_ok K -> decodes hd h -> hd <> [] -> h_seq h = N mod 65536 -> may_be_next sp (h_ssrc h) N ->
  ok srtp_encrypt (Ctx sp (vw pre (hd ++ pl) suf)) (fun _ w' => exists suf', x_mb w' = vw pre (wire K (h_ssrc h) N hd pl) suf' /\ keyed (sp_rtp (x_s w')) K /\
    exists st, sfind (x_s w') (h_ssrc h) = Some st /\ at_number st N).
Proof.
  intros HN HK HO HD Hne Hs Hm. unfold srtp_encrypt. apply ok_bind, ok_gets. cbn [x_mb vw mb_pos]. apply ok_bind. eapply ok_hdr; [exact HD|].
  apply ok_bind. rewrite Hs. eapply ok_get_seq; [done..|]. intros sp1 st1 M Hf1 Hc1 Hat1 HMN _. apply ok_bind. eapply ok_send_index; [done..|].
  intros sp2 st2 Hf2 Hc2 Hr2. apply ok_bind, ok_gets. cbn [x_s]. rewrite Hc2, Hc1. pose proof HK as (a & Ec & Ea & Ek). rewrite Ec. cbn [c_aes c_mode c_hmac tag_len].
  assert (keyed (sp_rtp sp2) K) as HK2 by (rewrite Hc2, Hc1; exact HK). unfold keys_ok in HO. apply ok_bind.
  set (d := wire K (h_ssrc h) N hd pl).
  assert (forall sp' z', keyed (sp_rtp sp') K -> streaml sp' = streaml sp2 ->
    ok (keep_highest h;; set_pos (length pre)) (Ctx sp' (Mbuf (pre ++ d ++ z') (length pre + length d) (length pre + length d)))
       (fun _ w' => exists suf', x_mb w' = vw pre d suf' /\ keyed (sp_rtp (x_s w')) K /\ exists st, sfind (x_s w') (h_ssrc h) = Some st /\ at_number st N)) as Hend.
  { intros sp' z' HK' Hst. apply ok_bind. eapply ok_keep_highest; [done|done|unfold sfind; rewrite Hst; exact Hf2|done|].
    intros sp3 st3 Hf3 Hc3 Hat3 _. apply ok_update. exists z'. cbn [x_s x_mb mb_buf mb_end]. split_and!; [done|by rewrite Hc3|eauto]. }
  destruct (ky_hmac K) as [ka|] eqn:EH.
  - destruct HO as [M1 Ht]. rewrite M1. eapply (ok_encrypt_ctr RTP); [done..|]. intros sp3 HK3 Hst3. apply ok_bind.
    eapply ok_append_tag; [done|done|exact EH|unfold sfind; rewrite Hst3; exact Hf2|apply Hr2|]. intros z'. by apply Hend.
  - rewrite HO. eapply (ok_encrypt_gcm RTP); [done..|]. intros sp3 z' HK3 Hst3. apply ok_bind, ok_ret. rewrite app_nil_r.
    assert (hd ++ ciphertext K (h_ssrc h) N pl ++ evp_gcm_tag (ky_e K) (iv_of K (h_ssrc h) N) hd (ciphertext K (h_ssrc h) N pl) = d) as Ed by (unfold d, wire, wire_tag; by rewrite EH).
    cbn zeta. rewrite Ed. by apply Hend.
Qed.

(** ** Taking the protection off *)
Lemma replay_fresh r N : (lix r < N \/ r = srtp_replay_init) -> 0 <= N -> exists r', srtp_replay_check r N = (true, r') /\ lix r' = N.
Proof.
  intros H H0. unfold srtp_replay_check. destruct (Z.ltb_spec (lix r) N); [eauto|]. destruct H as [H| ->]; [lia|].
  cbn in *. assert (N = 0) as -> by lia. cbn. eauto.
Qed.
Lemma ok_replay sp mb n st N (Q : unit -> ctx -> Prop) : sfind sp n = Some st -> (lix (replay_rtp st) < N \/ replay_rtp st = srtp_replay_init) -> 0 <= N ->
  (forall sp' st', sfind sp' n = Some st' -> sp_rtp sp' = sp_rtp sp -> lix (replay_rtp st') = N -> (forall M, ready st M -> ready st' M) -> Q tt (Ctx sp' mb)) ->
  ok (b ← replay_rtp_check n N; if negb b then throw EALREADY else mret tt) (Ctx sp mb) Q.
Proof.
  intros Hf Hr H0 HQ. destruct (replay_fresh _ _ Hr H0) as (r' & E & L). apply ok_bind. unfold replay_rtp_check. apply ok_bind. eapply ok_stream_of; [exact Hf|].
  rewrite E. apply ok_bind, ok_upd_stream, ok_ret, ok_ret. apply (HQ _ (set_replay_rtp r' st)); try done. rewrite find_upd, Z.eqb_refl by done. cbn [x_s]. by rewrite Hf.
Qed.
Lemma ok_check_tag K sp pre hd ct suf n N ka st (Q : unit -> ctx -> Prop) : (4 <= ky_tag K <= 20)%nat -> hd <> [] -> ky_hmac K = Some ka -> sfind sp n = Some st -> ready st N -> 0 <= N ->
  (lix (replay_rtp st) < N \/ replay_rtp st = srtp_replay_init) ->
  (forall sp' st' z', sfind sp' n = Some st' -> sp_rtp sp' = sp_rtp sp -> lix (replay_rtp st') = N -> ready st' N -> Q tt (Ctx sp' (vw (pre ++ hd) ct z'))) ->
  ok (check_tag ka n N (length pre) (ky_tag K)) (Ctx sp (vw (pre ++ hd) (ct ++ wire_tag K n N hd ct) suf)) Q.
Proof.
  intros Ht Hhd HH Hf Hr H0 Hfr HQ. unfold check_tag. apply ok_bind, ok_gets. cbn [x_mb]. rewrite vw_left. unfold wire_tag. rewrite HH. set (r4 := be32 (N / 65536)).
  set (tg := take (ky_tag K) _). assert (length tg = ky_tag K) as Hl by (unfold tg; rewrite length_take, hmac_length; unfold SHA_DIGEST_LENGTH; lia).
  destruct (Nat.ltb_spec (length (ct ++ tg)) (ky_tag K)) as [K1|_]; [rewrite length_app in K1; lia|].
  apply ok_bind. eapply ok_stream_of; [exact Hf|]. apply ok_bind, ok_update. cbn [x_s x_mb mb_buf mb_pos mb_end vw].
  replace (length (pre ++ hd) + length (ct ++ tg) - ky_tag K)%nat with (length ((pre ++ hd) ++ ct)) by (rewrite !length_app; lia).
  replace ((pre ++ hd) ++ (ct ++ tg) ++ suf) with (((pre ++ hd) ++ ct) ++ tg ++ suf) by (by rewrite <-!app_assoc).
  apply ok_bind. eapply ok_read; [by rewrite Hl|rewrite !length_app; lia|]. apply ok_bind, ok_update, ok_bind, ok_update. cbn [x_s x_mb mb_buf mb_pos mb_end].
  rewrite (proj1 Hr). apply ok_bind. change (fun mb : mbuf => mbuf_write_u32 mb (N / 65536)) with (fun mb => mbuf_write_mem mb r4). eapply ok_write. intros c' _.
  change (length r4) with 4%nat. rewrite Nat.max_r by lia.
  apply ok_bind, ok_update. cbn [x_s x_mb mb_buf mb_end]. apply ok_bind, ok_gets. cbn [x_mb]. apply ok_bind.
  assert (Mbuf (((pre ++ hd) ++ ct) ++ r4 ++ c') (length pre) (length ((pre ++ hd) ++ ct) + 4) = vw pre (hd ++ ct ++ r4) c') as ->.
  { unfold vw. rewrite <-!app_assoc. f_equal. rewrite !length_app. change (length r4) with 4%nat. lia. }
  rewrite vw_buf. apply ok_digest; [by destruct hd|]. apply ok_bind, ok_update, ok_bind, ok_update. cbn [x_s x_mb mb_buf mb_pos mb_end vw].
  fold tg. unfold bytes_eqb. rewrite bool_decide_true by done. cbn [negb]. eapply ok_replay; [exact Hf|done|done|].
  intros sp' st' Hf' Hc' Hl' Hr'. replace (pre ++ (hd ++ ct ++ r4) ++ c') with ((pre ++ hd) ++ ct ++ (r4 ++ c')) by (by rewrite <-!app_assoc).
  rewrite (length_app (pre ++ hd) ct). apply (HQ sp' st' (r4 ++ c')); auto.
Qed.
Lemma ok_decrypt_gcm K sp pre hd y suf n N st (Q : unit -> ctx -> Prop) : keyed (sp_rtp sp) K -> ky_mode K = AES_MODE_GCM -> ky_hmac K = None -> sfind sp n = Some st -> ready st N -> 0 <= N ->
  (lix (replay_rtp st) < N \/ replay_rtp st = srtp_replay_init) ->
  (forall sp' st' z', sfind sp' n = Some st' -> keyed (sp_rtp sp') K -> lix (replay_rtp st') = N -> ready st' N -> Q tt (Ctx sp' (vw (pre ++ hd) y z'))) ->
  let ct := ciphertext K n N y in
  ok (decrypt_gcm n N (length pre)) (Ctx sp (vw (pre ++ hd) (ct ++ wire_tag K n N hd ct) suf)) Q.
Proof.
  intros HK M HH Hf Hr H0 Hfr HQ ct. pose proof HK as (a & Ec & Ea & Ek). unfold decrypt_gcm. apply ok_bind, ok_gets, ok_bind, ok_gets, ok_bind.
  pose proof (ciphertext_length K n N y) as Hl. fold ct in Hl. unfold wire_tag. rewrite HH. set (tg := evp_gcm_tag _ _ _ _).
  assert (length tg = GCM_TAGLEN) as Hlt by apply gcm_tag_length.
  eapply ok_iv; [cbn [x_s comp_of]; rewrite Ec; done|]. cbn [x_s x_mb comp_of]. apply ok_bind.
  eapply ok_aad; [apply aes_put|done|]. cbn [x_s x_mb a_mode a_key a_iv a_done a_aad a_ct concat app]. rewrite put_put, app_nil_r. change (mb_pos (vw (pre ++ hd) (ct ++ tg) suf)) with (length (pre ++ hd)). rewrite slice_vw.
  rewrite vw_left. destruct (Nat.ltb_spec (length (ct ++ tg)) GCM_TAGLEN) as [K1|_]; [rewrite length_app in K1; lia|]. apply ok_bind. cbn [mb_end vw].
  replace (length (pre ++ hd) + length (ct ++ tg) - GCM_TAGLEN)%nat with (length (pre ++ hd) + length ct)%nat by (rewrite !length_app; lia).
  unfold vw. rewrite <-(app_assoc ct). eapply ok_crypt; [apply aes_put|]. cbn [x_s x_mb a_mode a_key a_iv a_done a_aad a_ct app]. rewrite put_put. apply ok_bind.
  eapply ok_authenticate; [apply aes_put|cbn; congruence| |].
  { unfold aes_tag. cbn [a_key a_iv a_aad a_ct]. rewrite (app_assoc (pre ++ hd) ct). replace (length (pre ++ hd) + length (ct ++ tg))%nat with (length ((pre ++ hd) ++ ct) + length tg)%nat by (rewrite !length_app; lia).
    rewrite <-(length_app (pre ++ hd) ct), slice_app. unfold tg, iv_of. rewrite M, Ek, Ec. done. }
  cbn [x_s x_mb]. rewrite put_put. apply ok_bind, ok_update. cbn [x_s x_mb mb_buf mb_pos mb_end]. eapply ok_replay; [unfold sfind; rewrite streaml_put_aes; exact Hf|done|done|].
  intros sp' st' Hf' Hc' Hl' Hr'. unfold aes_out. cbn [a_mode a_key a_iv a_done]. rewrite Ea, M, Ek, Ec. cbn [k_s].
  assert (evp_gcm false (ky_e K) (srtp_iv_calc_gcm (ky_s K) n N) 0 ct = y) as ->.
  { unfold ct, ciphertext, iv_of. rewrite M. apply gcm_inverse. }
  rewrite Hl. apply (HQ sp' st' (tg ++ suf)); auto. rewrite Hc'. apply (keyed_put RTP sp K a); [cbn; by rewrite Ec|done|cbn; congruence|cbn; congruence].
Qed.

Definition unseen (sp : srtp) (n N : Z) : Prop := forall st, sfind sp n = Some st -> lix (replay_rtp st) < N.
Lemma ok_srtp_decrypt K sp pre hd h pl suf N : 0 <= N < 2 ^ 47 -> keyed (sp_rtp sp) K -> keys_ok K -> decodes hd h -> hd <> [] -> h_seq h = N mod 65536 ->
  may_be_next sp (h_ssrc h) N -> unseen sp (h_ssrc h) N ->
  ok srtp_decrypt (Ctx sp (vw pre (wire K (h_ssrc h) N hd pl) suf)) (fun _ w' => exists suf', x_mb w' = vw pre (hd ++ pl) suf' /\ keyed (sp_rtp (x_s w')) K /\
    exists st, sfind (x_s w') (h_ssrc h) = Some st /\ at_number st N /\ lix (replay_rtp st) = N).
Proof.
  intros HN HK HO HD Hne Hs Hm Hun. unfold srtp_decrypt, decrypt_ix. apply ok_bind, ok_bind, ok_gets. cbn [x_mb vw mb_pos]. apply ok_bind. unfold wire. eapply ok_hdr; [exact HD|].
  apply ok_bind. rewrite Hs. eapply ok_get_seq; [done..|]. intros sp1 st1 M Hf1 Hc1 Hat1 HMN Hnew. apply ok_bind. eapply ok_recv_index; [done..|].
  intros sp2 st2 Hf2 Hc2 Hr2 Hrep2. apply ok_bind, ok_gets. cbn [x_s]. rewrite Hc2, Hc1. pose proof HK as (a & Ec & Ea & Ek). rewrite Ec. cbn [c_aes c_mode c_hmac tag_len].
  assert (keyed (sp_rtp sp2) K) as HK2 by (rewrite Hc2, Hc1; exact HK). unfold keys_ok in HO.
  assert (lix (replay_rtp st2) < N \/ replay_rtp st2 = srtp_replay_init) as Hfr.
  { rewrite Hrep2. destruct Hnew as [[_ ->]|E]; [by right|left; by apply Hun]. }
  assert (forall sp' st' z', keyed (sp_rtp sp') K -> sfind sp' (h_ssrc h) = Some st' -> ready st' N -> lix (replay_rtp st') = N ->
    ok (keep_highest h;; set_pos (length pre);; mret (h_ssrc h, N)) (Ctx sp' (vw (pre ++ hd) pl z'))
      (fun a w' => ok (mret tt) w' (fun _ w' => exists suf', x_mb w' = vw pre (hd ++ pl) suf' /\ keyed (sp_rtp (x_s w')) K /\
         exists st, sfind (x_s w') (h_ssrc h) = Some st /\ at_number st N /\ lix (replay_rtp st) = N))) as Hend.
  { intros sp' st' z' HK' Hf' Hr' Hl'. apply ok_bind. eapply ok_keep_highest; [done|done|exact Hf'|done|].
    intros sp3 st3 Hf3 Hc3 Hat3 Hrep3. apply ok_bind, ok_update, ok_ret, ok_ret. exists z'. cbn [x_s x_mb mb_buf mb_end vw]. split_and!; [|by rewrite Hc3|eauto using eq_trans, f_equal].
    - unfold vw. rewrite <-!app_assoc, !length_app. f_equal; lia.
    - exists st3. split_and!; [done|done|congruence]. }
  apply ok_bind. destruct (ky_hmac K) as [ka|] eqn:EH.
  - destruct HO as [M1 Ht]. eapply ok_check_tag; [done|done|exact EH|exact Hf2|done|lia|done|]. intros sp3 st3 z' Hf3 Hc3 Hl3 Hr3. apply ok_bind. rewrite M1.
    eapply (ok_decrypt_ctr RTP); [cbn; by rewrite Hc3|done|]. intros sp4 HK4 Hst4. eapply Hend; [done|unfold sfind; rewrite Hst4; exact Hf3|done|done].
  - apply ok_ret, ok_bind. rewrite HO. eapply ok_decrypt_gcm; [done|done|done|exact Hf2|done|lia|done|]. intros sp3 st3 z' Hf3 HK3 Hl3 Hr3. by eapply Hend.
Qed.

(** ** Sessions with the same key *)
Definition derived (out_len : nat) (label : Z) (key salt : bytes) : bytes :=
  let x := salt ++ replicate (AES_BLOCK_SIZE - length salt) 0 in
  evp_ctr key (<[7%nat := Z.lxor (nth 7 x 0) label]> x) 0 (replicate out_len 0).
Lemma alloc_run mode key iv s : length key = 16%nat \/ length key = 32%nat -> exists s', aes_alloc mode key iv s = (inr (Aes mode true key iv 0 [] []), s').
Proof.
  intros Hk. unfold aes_alloc, aes_cipher. assert ((length key * 8 =? 128)%nat || (length key * 8 =? 256)%nat = true) as -> by (destruct Hk as [-> | ->]; done).
  cbn [negb]. unfold mbind, IO_bind, ask. rewrite (proj2 (Z.eqb_neq _ _) (alloc_ok (tick s))). rewrite evp_yes. cbn [negb]. rewrite evp_yes. eauto.
Qed.
Lemma derive_run out_len label key salt s : (out_len <= 32)%nat -> (length salt <= 16)%nat -> length key = 16%nat \/ length key = 32%nat ->
  exists s', srtp_derive out_len label key salt s = ((0, derived out_len label key salt), s').
Proof.
  intros H1 H2 Hk. unfold srtp_derive. rewrite (proj2 (Nat.ltb_ge _ _)), (proj2 (Nat.ltb_ge _ _)) by done. cbn [orb]. unfold mbind, IO_bind.
  destruct (alloc_run AES_MODE_CTR key (<[7%nat := Z.lxor (nth 7 (salt ++ replicate (AES_BLOCK_SIZE - length salt) 0) 0) label]> (salt ++ replicate (AES_BLOCK_SIZE - length salt) 0)) s Hk) as [s1 ->].
  unfold aes_encr. match goal with |- context [aes_update true ?a ?i s1] => destruct (update_run true a i s1) as [s2 ->] end. eauto.
Qed.
Lemma comp_init_run offs key salt tag (e h : bool) mode s : (length salt <= 16)%nat -> length key = 16%nat \/ length key = 32%nat -> (tag <= 20)%nat ->
  exists s', comp_init offs key salt tag e h mode s =
    (inr (Comp (if e then Some (Aes mode true (derived (length key) (0 + offs) key salt) [] 0 [] []) else None) mode
               (if h then Some (derived SHA_DIGEST_LENGTH (1 + offs) key salt) else None) (derived 14 (2 + offs) key salt ++ [0; 0]) tag), s').
Proof.
  intros Hs Hk Ht. unfold comp_init. rewrite (proj2 (Nat.ltb_ge _ _)), (proj2 (Nat.ltb_ge _ _)) by (unfold MAX_KEYLEN, SHA_DIGEST_LENGTH; lia). unfold mbind, IO_bind.
  destruct (derive_run (length key) (0 + offs) key salt s) as [s1 ->]; [lia|done|done|]. destruct (derive_run SHA_DIGEST_LENGTH (1 + offs) key salt s1) as [s2 ->]; [unfold SHA_DIGEST_LENGTH; lia|done|done|].
  destruct (derive_run 14 (2 + offs) key salt s2) as [s3 ->]; [lia|done|done|]. change (negb (Z.lor (Z.lor 0 0) 0 =? 0)) with false. cbn beta iota.
  assert (forall a s, exists s', (if h then
      h0 ← hmac_create (derived SHA_DIGEST_LENGTH (1 + offs) key salt); mret (match h0 with inl err => inl err | inr h0 => inr (Comp a mode (Some h0) (derived 14 (2 + offs) key salt ++ [0; 0]) tag) end)
    else mret (inr (Comp a mode None (derived 14 (2 + offs) key salt ++ [0; 0]) tag))) s
    = (inr (Comp a mode (if h then Some (derived SHA_DIGEST_LENGTH (1 + offs) key salt) else None) (derived 14 (2 + offs) key salt ++ [0; 0]) tag) : Z + comp, s')) as Hh.
  { intros a s0. destruct h; [|eauto]. unfold mbind, IO_bind, hmac_create. assert (length (derived SHA_DIGEST_LENGTH (1 + offs) key salt) = 20%nat) as -> by (unfold derived; by rewrite ctr_length, length_replicate).
    cbn [Nat.eqb]. unfold mbind, IO_bind, ask. rewrite (proj2 (Z.eqb_neq _ _) (alloc_ok (tick s0))). rewrite (proj2 (Z.eqb_neq _ _) (alloc_ok (tick _))). eauto. }
  destruct e; [|apply Hh]. destruct (alloc_run mode (derived (length key) (0 + offs) key salt) [] s3) as [s4 E4]; [unfold derived; by rewrite ctr_length, length_replicate|].
  rewrite E4. apply Hh.
Qed.

Definition suite_key_len (suite : srtp_suite) : nat := let '(_, c, sl, _, _) := suite_params suite in (c + sl)%nat.
Definition suite_keys (suite : srtp_suite) (key : bytes) : keys :=
  let '(mode, c, _, tag, hash) := suite_params suite in
  let k := take c key in let salt := drop c key in
  Keys mode (derived c 0 k salt) (if hash then Some (derived SHA_DIGEST_LENGTH 1 k salt) else None) (derived 14 2 k salt ++ [0; 0]) tag.
Lemma suite_keys_ok suite key : keys_ok (suite_keys suite key).
Proof. destruct suite; cbn; try done; split; (done || lia). Qed.
(** Both components of a new session. *)
Definition new_comp (offs : Z) (suite : srtp_suite) (key : bytes) (enc : bool) : comp :=
  let '(mode, c, _, tag, hash) := suite_params suite in
  let k := take c key in let salt := drop c key in
  Comp (if enc then Some (Aes mode true (derived c (0 + offs) k salt) [] 0 [] []) else None) mode
       (if hash then Some (derived SHA_DIGEST_LENGTH (1 + offs) k salt) else None) (derived 14 (2 + offs) k salt ++ [0; 0]) tag.
Lemma srtp_alloc_comps suite key u s : length key = suite_key_len suite ->
  exists sp s', srtp_alloc suite key u s = (inr sp, s') /\ sp_rtp sp = new_comp 0 suite key true /\ sp_rtcp sp = new_comp 3 suite key (negb u) /\ streaml sp = [].
Proof.
  intros Hl. unfold srtp_alloc, new_comp, suite_key_len in *. destruct (suite_params suite) as [[[[mode c] sl] tag] hash] eqn:E.
  assert ((c = 16 \/ c = 32) /\ sl <= 16 /\ tag <= 20)%nat as (Hc & Hsl & Ht) by (destruct suite; injection E as <- <- <- <- <-; lia).
  rewrite <-Hl, Nat.eqb_refl. cbn [negb]. unfold mbind, IO_bind, ask. rewrite (proj2 (Z.eqb_neq _ _) (alloc_ok (tick s))).
  assert (length (take c key) = c) as Hk by (rewrite length_take; lia). assert (length (drop c key) <= 16)%nat as Hd by (rewrite length_drop; lia).
  match goal with |- context [comp_init 0 _ _ _ _ _ _ ?s0] => destruct (comp_init_run 0 (take c key) (drop c key) tag true hash mode s0 Hd) as [s1 ->]; [rewrite Hk; done|done|] end.
  destruct (comp_init_run 3 (take c key) (drop c key) tag (negb u) hash mode s1 Hd) as [s2 ->]; [rewrite Hk; done|done|]. cbn [mret IO_ret].
  eexists _, _. split; [done|]. rewrite Hk. done.
Qed.
Lemma srtp_alloc_run suite key u s : length key = suite_key_len suite ->
  exists sp s', srtp_alloc suite key u s = (inr sp, s') /\ keyed (sp_rtp sp) (suite_keys suite key) /\ streaml sp = [].
Proof.
  intros Hl. destruct (srtp_alloc_comps suite key u s Hl) as (sp & s' & E & K & _ & S). exists sp, s'. split_and!; [done| |done].
  unfold suite_keys, new_comp in *. destruct (suite_params suite) as [[[[mode c] sl] tag] hash]. eexists. split_and!; done.
Qed.

(** ** Sequences of packets *)

(** A packet in a buffer of its own is handed to an operation. *)
Definition process (op : X unit) (d : bytes) (sp : srtp) (s : sys) : (Z + bytes) * srtp * sys :=
  let '(r, w, s') := op (Ctx sp (vw [] d [])) s in
  (match r with inl e => inl e | inr _ => inr (mbuf_buf (x_mb w)) end, x_s w, s').
Fixpoint process_all (op : X unit) (l : list bytes) (sp : srtp) (s : sys) : list (Z + bytes) :=
  match l with [] => [] | d :: l => let '(r, sp, s) := process op d sp s in r :: process_all op l sp s end.

(** An RTP packet of stream [n] with number [N], counted without roll-over. *)
Definition is_packet (n : Z) (p : Z * bytes) : Prop :=
  exists h mb, rtp_hdr_decode (vw [] p.2 []) = (0, h, mb) /\ h_ssrc h = n /\ h_seq h = p.1 mod 65536.
(** Numbers that grow by at most 2^15, the first before the first roll-over. *)
Fixpoint in_order (prev : option Z) (l : list Z) : Prop :=
  match l with
  | [] => True
  | N :: l => match prev with None => 0 <= N < 65536 | Some M => M < N <= M + 32768 end /\ N < 2 ^ 47 /\ in_order (Some N) l
  end.
Definition in_state (sp : srtp) (n : Z) (prev : option Z) : Prop :=
  match prev with None => streaml sp = [] | Some M => exists st, sfind sp n = Some st /\ at_number st M end.
Lemma in_state_next sp n prev N : in_state sp n prev -> match prev with None => 0 <= N < 65536 | Some M => M < N <= M + 32768 end -> may_be_next sp n N /\ 0 <= N.
Proof.
  destruct prev as [M|]; cbn.
  - intros (st & Hf & Hat) HN. split; [left; exists st, M; split_and!; (done || lia)|]. destruct Hat as [H _]. lia.
  - intros Hs HN. split; [right|lia]. unfold sfind. rewrite Hs. split_and!; [done|cbn; unfold SRTP_MAX_STREAMS; lia|lia].
Qed.

(** The packet on the wire depends on the key, the stream and the number only. *)
Definition on_wire (K : keys) (n : Z) (p : Z * bytes) (w : bytes) : Prop :=
  exists hd h pl, p.2 = hd ++ pl /\ decodes hd h /\ hd <> [] /\ h_ssrc h = n /\ h_seq h = p.1 mod 65536 /\ w = wire K n p.1 hd pl.
Lemma send_all K n pk : forall sp s prev, keys_ok K -> keyed (sp_rtp sp) K -> in_state sp n prev -> in_order prev pk.*1 -> Forall (is_packet n) pk ->
  exists ws, process_all srtp_encrypt pk.*2 sp s = map inr ws /\ Forall2 (on_wire K n) pk ws.
Proof.
  induction pk as [|[N d] pk IH]; intros sp s prev HO HK HS Hin HP; [by exists []|]. cbn [fmap list_fmap fst snd] in *. destruct Hin as (H1 & H2 & H3).
  apply Forall_cons in HP as [(h & mb & Hd & Hn & Hs) HP']. cbn [fst snd] in *. destruct (decode_header _ _ _ _ _ Hd) as (hd & pl & -> & HD & Hl).
  assert (hd <> []) as Hne by (intros ->; cbn in Hl; lia). destruct (in_state_next _ _ _ _ HS H1) as [Hm H0]. rewrite <-Hn in Hm.
  destruct (ok_srtp_encrypt K sp [] hd h pl [] N (conj H0 H2) HK HO HD Hne Hs Hm s) as (u & w' & s' & E & suf' & Emb & HK' & st & Hf & Hat).
  cbn [process_all]. unfold process. rewrite E. rewrite Emb, vw_buf. rewrite Hn in *. destruct (IH (x_s w') s' (Some N)) as (ws & Ew & HF); [done|done|by exists st|done|done|].
  exists (wire K n N hd pl :: ws). rewrite Ew. split; [done|]. constructor; [|done]. exists hd, h, pl. done.
Qed.
Lemma receive_all K n got : forall sp s prev, keys_ok K -> keyed (sp_rtp sp) K -> in_state sp n prev -> (forall M N, prev = Some M -> M < N -> unseen sp n N) ->
  in_order prev got.*1.*1 -> Forall (fun g => on_wire K n g.1 g.2) got -> process_all srtp_decrypt got.*2 sp s = map (fun g => inr g.1.2) got.
Proof.
  induction got as [|[[N d] w] got IH]; intros sp s prev HO HK HS Hun Hin HP; [done|]. cbn [fmap list_fmap fst snd map] in *. destruct Hin as (H1 & H2 & H3).
  apply Forall_cons in HP as [(hd & h & pl & Hd & HD & Hne & Hn & Hs & Hw) HP']. cbn [fst snd] in *. destruct (in_state_next _ _ _ _ HS H1) as [Hm H0]. subst n.
  assert (unseen sp (h_ssrc h) N) as HU.
  { destruct prev as [M|]; [apply (Hun M N); [done|lia]|]. cbn in HS. intros st Hf. unfold sfind in Hf. by rewrite HS in Hf. }
  destruct (ok_srtp_decrypt K sp [] hd h pl [] N (conj H0 H2) HK HO HD Hne Hs Hm HU s) as (u & w' & s' & E & suf' & Emb & HK' & st & Hf & Hat & Hl).
  cbn [process_all]. unfold process. rewrite Hw, E, Emb, vw_buf, Hd. f_equal. apply (IH _ _ (Some N)); [done|done|by exists st| |done|done].
  intros M N' [= <-] HMN st' Hf'. rewrite Hf in Hf'. injection Hf' as <-. lia.
Qed.

(** C26. A sender and a receiver whose sessions were made from the same key, with any
    suite: the packets of a stream that are sent in order are all sent, and
    whichever of them arrive come out exactly as they went in, across any number
    of roll-overs of the sequence number, provided that the first packet that
    arrives was sent before the sequence number first rolled over (a receiver
    starts counting roll-overs at 0: a receiver that misses everything before the
    first one rejects the rest) and that consecutive packets that arrive are at
    most 2^15 numbers apart.  (The same for the packets sent; numbers below
    2^47.) *)
Theorem srtp_delivers (suite : srtp_suite) (key : bytes) (u1 u2 : bool) (n : Z) (pk : list (Z * bytes)) (s1 s2 : sys) :
  length key = suite_key_len suite -> Forall (is_packet n) pk -> in_order None pk.*1 ->
  exists tx s1' rx s2' ws, srtp_alloc suite key u1 s1 = (inr tx, s1') /\ srtp_alloc suite key u2 s2 = (inr rx, s2') /\
    process_all srtp_encrypt pk.*2 tx s1' = map inr ws /\ length ws = length pk /\
    forall got, sublist got (zip pk ws) -> in_order None got.*1.*1 ->
      process_all srtp_decrypt got.*2 rx s2' = map (fun g => inr g.1.2) got.
Proof.
  intros Hk HP Hin. destruct (srtp_alloc_run suite key u1 s1 Hk) as (tx & s1' & E1 & K1 & S1). destruct (srtp_alloc_run suite key u2 s2 Hk) as (rx & s2' & E2 & K2 & S2).
  pose proof (suite_keys_ok suite key) as HO. destruct (send_all _ n pk tx s1' None HO K1 S1 Hin HP) as (ws & Ew & HF).
  exists tx, s1', rx, s2', ws. split_and!; [done|done|done|symmetry; by eapply Forall2_length|]. intros got Hsub Hg.
  apply (receive_all _ n got rx s2' None HO K2 S2); [done|done|]. apply Forall_forall. intros [p w] Hin2.
  pose proof (elem_of_sublist _ _ _ Hin2 Hsub) as (j & p' & w' & [= -> ->] & Hp & Hw)%elem_of_lookup_zip_with_1. by eapply Forall2_lookup_lr.
Qed.
End delivery.
