(* ===== verification/SrtcpDeliver.v ===== *)
(** * Secure RTCP

    The packets of a control stream arrive as they were sent, each under an
    index of its own; with the suites that have no hash, packets that claim not
    to be encrypted are let through unchecked and packets can be replayed; and
    what a forged packet does to an RTP stream. *)
From S2P Require Import Prelude Sys Fmt Mbuf Rtp Srtp SrtpReplay SrtpDeliver.
From Stdlib Require Import Sorted.
From stdpp Require Import list.
Local Open Scope Z_scope.

Section rtcp.
Context `{V : Env} `{C : Crypto} `{VA : !AllocOk V} `{CO : !CryptoOk C} `{CS : !CryptoSpec C}.

(** The control packets may be sent in clear. *)
Definition rkeyed (c : comp) (K : keys) (enc : bool) : Prop :=
  if enc then keyed c K else c = Comp None (ky_mode K) (ky_hmac K) (ky_s K) (ky_tag K).

(** ** The packet on the wire *)
Definition eix (enc : bool) (N : Z) : bytes := be32 (Z.lor (u32 (Z.shiftl (Zb enc) 31)) N).
Definition rbody (K : keys) (enc : bool) (n N : Z) (hd pl : bytes) : bytes :=
  if enc then
    let ct := ciphertext K n N pl in
    match ky_mode K with
    | AES_MODE_CTR => ct
    | AES_MODE_GCM => ct ++ evp_gcm_tag (ky_e K) (iv_of K n N) (hd ++ be32 (Z.lor (Z.shiftl 1 31) N)) ct
    end
  else pl.
Definition rtag (K : keys) (d : bytes) : bytes := match ky_hmac K with Some ka => take (ky_tag K) (evp_hmac ka d) | None => [] end.
Definition rwire (K : keys) (enc : bool) (n N : Z) (hd pl : bytes) : bytes :=
  let d := hd ++ rbody K enc n N hd pl ++ eix enc N in d ++ rtag K d.
Definition rkeys_ok (K : keys) : Prop := match ky_hmac K with Some _ => ky_mode K = AES_MODE_CTR /\ (4 <= ky_tag K <= 20)%nat | None => ky_mode K = AES_MODE_GCM /\ ky_tag K = 0%nat end.

Lemma eix_bits enc N : 0 <= N < 2 ^ 31 -> let v := from_be (eix enc N) in Z.testbit v 31 = enc /\ Z.land v 0x7fffffff = N.
Proof.
  intros HN. unfold eix. rewrite from_be32. cbn zeta.
  assert (Z.lor (u32 (Z.shiftl (Zb enc) 31)) N = Zb enc * 2 ^ 31 + N) as ->.
  { destruct enc; [|done]. cbn [Zb]. change (u32 (Z.shiftl 1 31)) with (2 ^ 31).
    assert (Z.land (2 ^ 31) N = 0) as E.
    { apply Z.bits_inj'. intros i Hi. rewrite Z.land_spec, Z.bits_0, Z.pow2_bits_eqb by lia. destruct (Z.eqb_spec 31 i) as [<- |]; [|done].
      cbn [andb]. destruct (Z.eq_dec N 0) as [-> |]; [done|]. apply Z.bits_above_log2; [lia|]. apply Z.log2_lt_pow2; lia. }
    rewrite <-Z.lxor_lor, <-Z.add_nocarry_lxor by done. lia. }
  unfold u32. rewrite Z.mod_small by (destruct enc; cbn; lia). split.
  - rewrite Z.testbit_odd, Z.shiftr_div_pow2 by lia. rewrite Z.div_add_l, (Z.div_small N) by lia. by destruct enc.
  - change 0x7fffffff with (Z.ones 31). rewrite Z.land_ones by lia. rewrite Z.add_comm, Z.mod_add by lia. by apply Z.mod_small.
Qed.

(** ** Sending *)
Definition rnumber (sp : srtp) (n M : Z) : Prop := (M = 0 /\ streaml sp = []) \/ exists st, sfind sp n = Some st /\ rtcp_index st = M.
Lemma ok_get_ssrc sp pre hd pl suf n (Q : Z -> ctx -> Prop) : length hd = 8%nat -> from_be (drop 4 hd) = n ->
  Q n (Ctx sp (vw (pre ++ hd) pl suf)) -> ok get_rtcp_ssrc (Ctx sp (vw pre (hd ++ pl) suf)) Q.
Proof.
  intros Hl Hn H. unfold get_rtcp_ssrc. apply ok_bind, ok_gets. cbn [x_mb]. rewrite vw_left, length_app, Hl. cbn [Nat.ltb Nat.leb Nat.add].
  destruct (split_at 4 hd) as (a & b & -> & Ha); [lia|]. rewrite length_app in Hl. assert (drop 4 (a ++ b) = b) as Eb by (rewrite <-Ha; apply drop_app_length). rewrite Eb in Hn.
  apply ok_bind, ok_update. cbn [x_mb x_s]. assert (mbuf_advance (vw pre ((a ++ b) ++ pl) suf) 4 = vw (pre ++ a) (b ++ pl) suf) as ->.
  { unfold mbuf_advance, vw. cbn [mb_buf mb_pos mb_end]. rewrite <-!app_assoc. f_equal; rewrite !length_app; lia. }
  apply ok_bind, ok_gets. cbn [x_mb]. unfold mbuf_read_u32. rewrite vw_read_be by lia. apply ok_bind, ok_update, ok_ret. cbn [x_s]. rewrite Hn, <-app_assoc. exact H.
Qed.
Lemma ok_stream_get sp mb n (Q : unit -> ctx -> Prop) :
  (forall st, sfind sp n = Some st -> Q tt (Ctx sp mb)) ->
  (sfind sp n = None -> (length (streaml sp) < SRTP_MAX_STREAMS)%nat /\
    forall sp' st, sfind sp' n = Some st -> sp_rtcp sp' = sp_rtcp sp -> rtcp_index st = 0 -> replay_rtcp st = srtp_replay_init -> Q tt (Ctx sp' mb)) ->
  ok (try_s (fun sp => stream_get sp n)) (Ctx sp mb) Q.
Proof.
  intros H1 H2 s. unfold try_s, stream_get. cbn [x_s x_mb]. unfold sfind in *. destruct (stream_find (streaml sp) n) as [st|] eqn:E; [eexists _, _, _; by eauto|].
  destruct (H2 eq_refl) as [Hl H3]. unfold stream_new. rewrite (proj2 (Nat.leb_gt _ _)) by done. unfold mbind, IO_bind, ask. cbn.
  rewrite (proj2 (Z.eqb_neq _ _) (alloc_ok (tick s))). cbn. eexists _, _, _. split; [done|]. eapply H3; [|done|..]; cycle 1; [| |cbn; rewrite stream_find_app, E; cbn; rewrite Z.eqb_refl; done]; done.
Qed.

Lemma ok_encrypt_body K enc sp pre hd pl suf n N c (Q : Z -> ctx -> Prop) : rkeyed (sp_rtcp sp) K enc -> c = sp_rtcp sp ->
  (forall sp' z' p, rkeyed (sp_rtcp sp') K enc -> streaml sp' = streaml sp ->
    let d := hd ++ rbody K enc n N hd pl in Q (Zb enc) (Ctx sp' (Mbuf (pre ++ d ++ z') p (length pre + length d)))) ->
  ok (match c_aes c, c_mode c with
      | Some _, AES_MODE_CTR => encrypt_ctr RTCP n N;; mret 1
      | Some _, AES_MODE_GCM => encrypt_gcm RTCP n N (length pre) [be32 (Z.lor (Z.shiftl 1 31) N)];; mret 1
      | None, _ => mret 0
      end) (Ctx sp (vw (pre ++ hd) pl suf)) Q.
Proof.
  intros HK -> HQ. unfold rkeyed, rbody in *. destruct enc; cbn [Zb] in *.
  - pose proof HK as (a & Ec & Ea & Ek). rewrite Ec. cbn [c_aes c_mode]. destruct (ky_mode K) eqn:M; apply ok_bind.
    + eapply (ok_encrypt_ctr RTCP); [exact HK|done|]. intros sp' HK' Hst. apply ok_ret. unfold vw. rewrite <-app_assoc.
      replace (length (pre ++ hd) + length (ciphertext K n N pl))%nat with (length pre + length (hd ++ ciphertext K n N pl))%nat by (rewrite !length_app; lia).
      rewrite (app_assoc hd). by apply HQ.
    + eapply (ok_encrypt_gcm RTCP); [exact HK|done|]. intros sp' z' HK' Hst. cbn [concat]. rewrite app_nil_r. apply ok_ret. by apply HQ.
  - rewrite HK. cbn [c_aes c_mode]. apply ok_ret. unfold vw. rewrite <-app_assoc.
    replace (length (pre ++ hd) + length pl)%nat with (length pre + length (hd ++ pl))%nat by (rewrite !length_app; lia). rewrite (app_assoc hd). by apply HQ.
Qed.
(** What [srtcp_encrypt] leaves. *)
Definition sealed (K : keys) (enc : bool) (n N : Z) (pre hd pl : bytes) (w : ctx) : Prop :=
  exists suf, x_mb w = vw pre (rwire K enc n N hd pl) suf /\ rkeyed (sp_rtcp (x_s w)) K enc /\ rnumber (x_s w) n N.
Lemma ok_rtcp_tag K enc sp pre hd pl n N suf : hd <> [] -> rkeyed (sp_rtcp sp) K enc -> rnumber sp n N ->
  let d2 := (hd ++ rbody K enc n N hd pl) ++ eix enc N in
  ok (match ky_hmac K with
      | Some key => set_pos (length pre);; mb ← gets x_mb; tag ← try_ (hmac_digest key (mbuf_buf mb)); set_pos (mb_end mb);; try_mb (fun mb => mbuf_write_mem mb (take (ky_tag K) tag))
      | None => mret tt
      end;; set_pos (length pre)) (Ctx sp (Mbuf (pre ++ d2 ++ suf) (length pre + length d2) (length pre + length d2))) (fun _ => sealed K enc n N pre hd pl).
Proof.
  intros Hne HK Hnum d2.
  assert (forall tg z p q, tg = rtag K d2 -> q = (length pre + length (d2 ++ tg))%nat -> ok (set_pos (length pre)) (Ctx sp (Mbuf (pre ++ (d2 ++ tg) ++ z) p q)) (fun _ => sealed K enc n N pre hd pl)) as Hend.
  { intros tg z p q -> ->. apply ok_update. exists z. cbn [x_s x_mb mb_buf mb_end]. split_and!; [|done|done]. unfold vw, rwire. rewrite (app_assoc hd). done. }
  apply ok_bind. destruct (ky_hmac K) as [ka|] eqn:EK.
  - apply ok_bind, ok_update. cbn [x_s x_mb mb_buf mb_end]. apply ok_bind, ok_gets. cbn [x_mb mb_end]. apply ok_bind. change (Mbuf (pre ++ d2 ++ suf) (length pre) (length pre + length d2)) with (vw pre d2 suf). rewrite vw_buf.
    apply ok_digest; [unfold d2; by destruct hd|]. apply ok_bind, ok_update. cbn [x_s x_mb vw mb_buf mb_end]. rewrite (app_assoc pre), <-length_app. apply ok_write. intros z _. rewrite Nat.max_r by lia.
    rewrite <-app_assoc, (app_assoc d2). apply Hend; [unfold rtag; by rewrite EK|rewrite !length_app; lia].
  - apply ok_ret. specialize (Hend [] suf (length pre + length d2)%nat (length pre + length d2)%nat). rewrite app_nil_r in Hend. apply Hend; [unfold rtag; by rewrite EK|done].
Qed.
Lemma ok_srtcp_seal K enc sp st pre hd pl suf n M : rkeyed (sp_rtcp sp) K enc -> hd <> [] -> sfind sp n = Some st -> rtcp_index st = M -> 0 <= M < 2 ^ 31 - 1 ->
  ok (srtcp_seal n (length pre)) (Ctx sp (vw (pre ++ hd) pl suf)) (fun _ => sealed K enc n (M + 1) pre hd pl).
Proof.
  intros HK Hne Hf Hi HM. unfold srtcp_seal. apply ok_bind, ok_upd_stream. cbn [x_s x_mb]. set (sp2 := stream_upd _ n sp). set (st2 := set_rtcp_index (M + 1) st).
  assert (sfind sp2 n = Some st2) as Hf2.
  { unfold sp2. rewrite find_upd, Z.eqb_refl, Hf by done. cbn. unfold st2. rewrite Hi. do 2 f_equal. change 2147483647 with (Z.ones 31). rewrite Z.land_ones, Z.mod_small; lia. }
  apply ok_bind. eapply ok_stream_of; [exact Hf2|]. cbn zeta. change (rtcp_index st2) with (M + 1). apply ok_bind, ok_gets. cbn [x_s]. apply ok_bind.
  assert (rkeyed (sp_rtcp sp2) K enc) as HK2 by done.
  assert (c_hmac (sp_rtcp sp2) = ky_hmac K /\ tag_len (sp_rtcp sp2) = ky_tag K) as [EH ET] by (unfold rkeyed in HK2; destruct enc; [destruct HK2 as (a & -> & _)|rewrite HK2]; done).
  eapply ok_encrypt_body; [exact HK2|done|]. intros sp3 z3 p3 HK3 Hst3. cbn zeta. set (d := hd ++ rbody K enc n (M + 1) hd pl). apply ok_bind, ok_gets. cbn [x_mb mb_end]. apply ok_bind, ok_update. cbn [x_s x_mb mb_buf mb_end].
  apply ok_bind. rewrite (app_assoc pre), <-length_app. change (fun mb : mbuf => mbuf_write_u32 mb _) with (fun mb => mbuf_write_mem mb (eix enc (M + 1))). apply ok_write. intros c' _. rewrite Nat.max_r by lia.
  rewrite <-app_assoc, (app_assoc d). replace (length (pre ++ d) + length (eix enc (M + 1)))%nat with (length pre + length (d ++ eix enc (M + 1)))%nat by (rewrite !length_app; lia).
  rewrite EH, ET. apply ok_rtcp_tag; [done|done|]. right. exists st2. unfold sfind. by rewrite Hst3.
Qed.
Lemma ok_srtcp_encrypt K enc sp pre hd pl suf n M : rkeyed (sp_rtcp sp) K enc -> length hd = 8%nat -> from_be (drop 4 hd) = n -> rnumber sp n M -> 0 <= M < 2 ^ 31 - 1 ->
  ok srtcp_encrypt (Ctx sp (vw pre (hd ++ pl) suf)) (fun _ => sealed K enc n (M + 1) pre hd pl).
Proof.
  intros HK Hl Hn HM HN. assert (hd <> []) by (by intros ->). unfold srtcp_encrypt. apply ok_bind, ok_gets. cbn [x_mb vw mb_pos]. apply ok_bind. eapply ok_get_ssrc; [done..|]. apply ok_bind, ok_stream_get.
  - intros st Hf. eapply (ok_srtcp_seal _ _ sp st); [done|done|done| |done]. destruct HM as [[-> Hs]|(st' & Hf' & Hi)]; [unfold sfind in Hf; by rewrite Hs in Hf|congruence].
  - intros Hf. destruct HM as [[-> Hs]|(st' & Hf' & Hi)]; [|congruence]. split; [rewrite Hs; cbn; unfold SRTP_MAX_STREAMS; lia|].
    intros sp' st Hf' Hc Hi _. eapply (ok_srtcp_seal _ _ sp' st); [by rewrite Hc|done..].
Qed.

(** ** Receiving *)
Definition runseen (st : srtp_stream) (N : Z) : Prop := lix (replay_rtcp st) < N \/ replay_rtcp st = srtp_replay_init.
Lemma ok_rreplay sp mb n st N (Q : unit -> ctx -> Prop) : sfind sp n = Some st -> runseen st N -> 0 <= N ->
  (forall sp' st', sfind sp' n = Some st' -> sp_rtcp sp' = sp_rtcp sp -> lix (replay_rtcp st') = N -> Q tt (Ctx sp' mb)) ->
  ok (b ← replay_rtcp_check n N; if negb b then throw EALREADY else mret tt) (Ctx sp mb) Q.
Proof.
  intros Hf Hr H0 HQ. destruct (replay_fresh _ _ Hr H0) as (r' & E & L). apply ok_bind. unfold replay_rtcp_check. apply ok_bind. eapply ok_stream_of; [exact Hf|].
  rewrite E. apply ok_bind, ok_upd_stream, ok_ret, ok_ret. apply (HQ _ (set_replay_rtcp r' st)); try done. rewrite find_upd, Z.eqb_refl by done. cbn [x_s]. by rewrite Hf.
Qed.
Lemma ok_srtcp_check_tag K sp pre d z n N ka st (Q : unit -> ctx -> Prop) : ky_hmac K = Some ka -> (4 <= ky_tag K <= 20)%nat -> d <> [] -> sfind sp n = Some st -> runseen st N -> 0 <= N ->
  (forall sp' st' p, sfind sp' n = Some st' -> sp_rtcp sp' = sp_rtcp sp -> lix (replay_rtcp st') = N -> Q tt (Ctx sp' (Mbuf (pre ++ d ++ rtag K d ++ z) p (length pre + length d)))) ->
  ok (srtcp_check_tag ka n N (length pre) (ky_tag K)) (Ctx sp (Mbuf (pre ++ d ++ rtag K d ++ z) (length pre + length d) (length pre + length d + length (rtag K d)))) Q.
Proof.
  intros HH Ht Hd Hf Hun H0 HQ. unfold srtcp_check_tag. apply ok_bind, ok_gets. cbn [x_mb mb_pos]. rewrite (proj2 (Nat.ltb_ge _ _)) by (unfold SHA_DIGEST_LENGTH; lia).
  assert (rtag K d = take (ky_tag K) (evp_hmac ka d)) as ET by (unfold rtag; by rewrite HH). set (tg := rtag K d) in *.
  assert (length tg = ky_tag K) as Hl by (rewrite ET, length_take, hmac_length; unfold SHA_DIGEST_LENGTH; lia).
  apply ok_bind. rewrite (app_assoc pre), <-length_app. eapply ok_read; [done|lia|]. apply ok_bind, ok_update, ok_bind, ok_update. cbn [x_s x_mb mb_buf mb_pos mb_end].
  apply ok_bind, ok_gets. cbn [x_mb]. apply ok_bind. rewrite <-app_assoc, length_app. change (Mbuf (pre ++ d ++ tg ++ z) (length pre) (length pre + length d)) with (vw pre d (tg ++ z)). rewrite vw_buf.
  apply ok_digest; [done|]. rewrite <-ET. unfold bytes_eqb. rewrite bool_decide_true by done. cbn [negb]. eapply ok_rreplay; [done..|]. intros sp' st' Hf' Hc' Hl'. by eapply HQ.
Qed.
Lemma slice_at a b c B p e i j : B = a ++ b ++ c -> i = length a -> j = (length a + length b)%nat -> slice (Mbuf B p e) i j = b.
Proof. intros -> -> ->. apply slice_app. Qed.
Lemma eix_length e N : length (eix e N) = 4%nat.
Proof. done. Qed.
Ltac slices := first [by rewrite <-!app_assoc | rewrite ?length_app, ?eix_length; lia].
Lemma ok_srtcp_gcm K sp pre hd pl z n N p (Q : unit -> ctx -> Prop) : keyed (sp_rtcp sp) K -> ky_mode K = AES_MODE_GCM -> 0 <= N < 2 ^ 31 ->
  (forall sp' z' p, keyed (sp_rtcp sp') K -> streaml sp' = streaml sp -> Q tt (Ctx sp' (Mbuf (pre ++ (hd ++ pl) ++ z') p (length pre + length (hd ++ pl))))) ->
  let b := rbody K true n N hd pl in let e := (length pre + length (hd ++ b))%nat in
  ok (srtcp_decrypt_gcm n N (length pre) (length (pre ++ hd)) e) (Ctx sp (Mbuf (pre ++ (hd ++ b) ++ eix true N ++ z) p e)) Q.
Proof.
  intros HK M HN HQ b e. pose proof HK as (a & Ec & Ea & Ek). unfold srtcp_decrypt_gcm. apply ok_bind, ok_gets, ok_bind, ok_gets, ok_bind.
  pose proof (ciphertext_length K n N pl) as Hl. set (ct := ciphertext K n N pl) in *.
  set (tg := evp_gcm_tag (ky_e K) (iv_of K n N) (hd ++ eix true N) ct). assert (b = ct ++ tg) as Eb by (unfold b, rbody; by rewrite M).
  assert (length tg = GCM_TAGLEN) as Hlt by apply gcm_tag_length. unfold e. clear e. rewrite Eb. clear Eb b.
  eapply (ok_iv RTCP); [cbn [x_s comp_of]; rewrite Ec; done|]. cbn [x_s x_mb comp_of].
  rewrite (slice_at pre hd ((ct ++ tg) ++ eix true N ++ z) _ p _ (length pre) (length (pre ++ hd))) by slices.
  rewrite (slice_at (pre ++ hd ++ ct ++ tg) (eix true N) z) by slices. apply ok_bind.
  eapply ok_aad; [apply aes_put|done|]. cbn [x_s x_mb a_mode a_key a_iv a_done a_aad a_ct concat app]. rewrite put_put, app_nil_r. apply ok_bind, ok_update, ok_bind, ok_gets. cbn [x_s x_mb mb_buf mb_pos mb_end].
  unfold mbuf_get_left. cbn [mb_pos mb_end]. destruct (Nat.ltb_spec (length pre + length (hd ++ ct ++ tg) - length (pre ++ hd)) GCM_TAGLEN) as [K1|_]; [rewrite !length_app in K1; lia|].
  replace (length pre + length (hd ++ ct ++ tg) - GCM_TAGLEN)%nat with (length (pre ++ hd) + length ct)%nat by (rewrite !length_app; lia).
  rewrite (slice_at (pre ++ hd ++ ct) tg (eix true N ++ z)) by slices. apply ok_bind.
  replace (pre ++ (hd ++ ct ++ tg) ++ eix true N ++ z) with ((pre ++ hd) ++ ct ++ (tg ++ eix true N ++ z)) by (by rewrite <-!app_assoc).
  eapply (ok_crypt RTCP); [apply aes_put|]. cbn [x_s x_mb a_mode a_key a_iv a_done a_aad a_ct app]. rewrite put_put. apply ok_bind.
  eapply ok_authenticate; [apply aes_put|cbn; congruence| |].
  { unfold aes_tag. cbn [a_key a_iv a_aad a_ct]. unfold tg, iv_of. rewrite M, Ek, Ec. done. }
  cbn [x_s x_mb]. rewrite put_put. apply ok_update. cbn [x_s x_mb mb_buf mb_pos mb_end]. unfold aes_out. cbn [a_mode a_key a_iv a_done]. rewrite Ea, M, Ek, Ec. cbn [k_s].
  assert (evp_gcm false (ky_e K) (srtp_iv_calc_gcm (ky_s K) n N) 0 ct = pl) as ->.
  { unfold ct, ciphertext, iv_of. rewrite M. apply gcm_inverse. }
  rewrite <-app_assoc, (app_assoc hd). replace (length (pre ++ hd) + length ct)%nat with (length pre + length (hd ++ pl))%nat by (rewrite !length_app; lia).
  apply HQ; [|by rewrite streaml_put_aes]. apply (keyed_put RTCP sp K a); [cbn; by rewrite Ec|done|cbn; congruence|cbn; congruence].
Qed.

Definition opened (K : keys) (enc : bool) (n N : Z) (pre d : bytes) (w : ctx) : Prop :=
  exists suf st, x_mb w = vw pre d suf /\ rkeyed (sp_rtcp (x_s w)) K enc /\ sfind (x_s w) n = Some st /\
    (ky_hmac K = None \/ lix (replay_rtcp st) = N).
Lemma ok_open_body K enc sp pre hd pl z n N p st (b e : nat) c : rkeyed (sp_rtcp sp) K enc -> rkeys_ok K -> 0 <= N < 2 ^ 31 -> sfind sp n = Some st ->
  (ky_hmac K = None \/ lix (replay_rtcp st) = N) -> b = length (pre ++ hd) -> e = (length pre + length (hd ++ rbody K enc n N hd pl))%nat -> c = sp_rtcp sp ->
  ok (match c_aes c, enc, c_mode c with
      | Some _, true, AES_MODE_CTR => set_pos b;; decrypt_ctr RTCP n N
      | Some _, true, AES_MODE_GCM => srtcp_decrypt_gcm n N (length pre) b e
      | _, _, _ => mret tt
      end;; set_pos (length pre)) (Ctx sp (Mbuf (pre ++ (hd ++ rbody K enc n N hd pl) ++ eix enc N ++ z) p e)) (fun _ => opened K enc n N pre (hd ++ pl)).
Proof.
  intros HK HO HN Hf Hrep -> -> ->. apply ok_bind.
  assert (forall sp' z' p', rkeyed (sp_rtcp sp') K enc -> streaml sp' = streaml sp -> ok (set_pos (length pre)) (Ctx sp' (Mbuf (pre ++ (hd ++ pl) ++ z') p' (length pre + length (hd ++ pl)))) (fun _ => opened K enc n N pre (hd ++ pl))) as Hend.
  { intros sp' z' p' HK' Hst. apply ok_update. exists z', st. cbn [x_s x_mb mb_buf mb_end]. split_and!; [done|done|unfold sfind; by rewrite Hst|done]. }
  unfold rkeyed in *. destruct enc.
  - pose proof HK as (a & Ec & Ea & Ek). rewrite Ec. cbn [c_aes c_mode]. destruct (ky_mode K) eqn:M.
    + apply ok_bind, ok_update. cbn [x_s x_mb mb_buf mb_end]. unfold rbody. rewrite M. cbn zeta.
      assert (Mbuf (pre ++ (hd ++ ciphertext K n N pl) ++ eix true N ++ z) (length (pre ++ hd)) (length pre + length (hd ++ ciphertext K n N pl)) = vw (pre ++ hd) (ciphertext K n N pl) (eix true N ++ z)) as ->.
      { unfold vw. rewrite <-!app_assoc. f_equal. rewrite !length_app. lia. }
      eapply (ok_decrypt_ctr RTCP); [exact HK|done|]. intros sp' HK' Hst. unfold vw. rewrite <-app_assoc, (app_assoc hd).
      replace (length (pre ++ hd) + length pl)%nat with (length pre + length (hd ++ pl))%nat by (rewrite !length_app; lia). by apply Hend.
    + eapply ok_srtcp_gcm; [exact HK|done|done|]. intros sp' z' p' HK' Hst. by apply Hend.
  - rewrite HK. cbn [c_aes]. apply ok_ret. unfold rbody. by apply Hend.
Qed.
Lemma ok_srtcp_open K enc sp st pre hd pl suf n N : rkeyed (sp_rtcp sp) K enc -> rkeys_ok K -> hd <> [] -> sfind sp n = Some st -> 0 <= N < 2 ^ 31 -> (ky_hmac K = None \/ runseen st N) ->
  let d := hd ++ rbody K enc n N hd pl ++ eix enc N in
  ok (srtcp_open n (length pre)) (Ctx sp (vw (pre ++ hd) (rbody K enc n N hd pl ++ eix enc N ++ rtag K d) suf)) (fun _ => opened K enc n N pre (hd ++ pl)).
Proof.
  intros HK HO Hne Hf HN Hun d. unfold srtcp_open. apply ok_bind, ok_gets, ok_bind, ok_gets. cbn [x_s x_mb]. set (bd := rbody K enc n N hd pl) in *. set (tg := rtag K d) in *.
  assert (length tg = ky_tag K) as Hl.
  { unfold tg, rtag, rkeys_ok in *. destruct (ky_hmac K); [rewrite length_take, hmac_length; unfold SHA_DIGEST_LENGTH; lia|]. by destruct HO as [_ ->]. }
  assert (c_hmac (sp_rtcp sp) = ky_hmac K /\ tag_len (sp_rtcp sp) = ky_tag K) as [EH ET] by (unfold rkeyed in HK; destruct enc; [destruct HK as (a & -> & _)|rewrite HK]; done).
  rewrite EH, ET, vw_left. destruct (Nat.ltb_spec (length (bd ++ eix enc N ++ tg)) (4 + ky_tag K)) as [K1|_]; [rewrite !length_app, eix_length in K1; lia|]. cbn [vw mb_buf mb_pos mb_end].
  set (e := (length pre + length (hd ++ bd))%nat).
  replace (length (pre ++ hd) + length (bd ++ eix enc N ++ tg) - (4 + ky_tag K))%nat with e by (unfold e; rewrite !length_app, eix_length; lia).
  assert (Mbuf ((pre ++ hd) ++ (bd ++ eix enc N ++ tg) ++ suf) e (length (pre ++ hd) + length (bd ++ eix enc N ++ tg)) = vw (pre ++ hd ++ bd) (eix enc N ++ tg) suf) as ->.
  { unfold vw. rewrite <-!app_assoc. f_equal; unfold e; rewrite !length_app; lia. }
  unfold mbuf_read_u32. rewrite vw_read_be by done. apply ok_bind, ok_update. cbn [x_s]. destruct (eix_bits enc N HN) as [-> ->]. apply ok_bind.
  assert (vw ((pre ++ hd ++ bd) ++ eix enc N) tg suf = Mbuf (pre ++ d ++ tg ++ suf) (length pre + length d) (length pre + length d + length tg)) as ->.
  { unfold vw, d. rewrite <-!app_assoc. f_equal; rewrite !length_app; lia. }
  assert (forall sp' st' p q, rkeyed (sp_rtcp sp') K enc -> sfind sp' n = Some st' -> sp_rtcp sp' = sp_rtcp sp -> (ky_hmac K = None \/ lix (replay_rtcp st') = N) ->
    ok (set_end e;; match c_aes (sp_rtcp sp), enc, c_mode (sp_rtcp sp) with
      | Some _, true, AES_MODE_CTR => set_pos (length (pre ++ hd));; decrypt_ctr RTCP n N
      | Some _, true, AES_MODE_GCM => srtcp_decrypt_gcm n N (length pre) (length (pre ++ hd)) e
      | _, _, _ => mret tt
      end;; set_pos (length pre)) (Ctx sp' (Mbuf (pre ++ d ++ tg ++ suf) p q)) (fun _ => opened K enc n N pre (hd ++ pl))) as Hend.
  { intros sp' st' p q HK' Hf' Hc' Hr'. apply ok_bind, ok_update. cbn [x_s x_mb mb_buf mb_pos].
    replace (pre ++ d ++ tg ++ suf) with (pre ++ (hd ++ bd) ++ eix enc N ++ (tg ++ suf)) by (unfold d; by rewrite <-!app_assoc). by eapply ok_open_body. }
  unfold rkeys_ok in HO. destruct (ky_hmac K) as [ka|] eqn:EK.
  - destruct HO as [M Ht]. destruct Hun as [|Hun]; [done|]. eapply (ok_srtcp_check_tag K); [exact EK|done|unfold d; by destruct hd|exact Hf|done|lia|]. fold tg.
    intros sp' st' p Hf' Hc' Hl'. eapply Hend; [by rewrite Hc'|done|done|by right].
  - apply ok_ret. eapply Hend; [done|exact Hf|done|by left].
Qed.
Definition rstate (sp : srtp) (n M : Z) (K : keys) : Prop :=
  streaml sp = [] \/ exists st, sfind sp n = Some st /\ (ky_hmac K = None \/ lix (replay_rtcp st) = M).
Lemma ok_srtcp_decrypt K enc sp pre hd pl suf n M N : rkeyed (sp_rtcp sp) K enc -> rkeys_ok K -> length hd = 8%nat -> from_be (drop 4 hd) = n -> rstate sp n M K -> M < N -> 0 <= N < 2 ^ 31 ->
  ok srtcp_decrypt (Ctx sp (vw pre (rwire K enc n N hd pl) suf)) (fun _ => opened K enc n N pre (hd ++ pl)).
Proof.
  intros HK HO Hl Hn HS HMN HN. assert (hd <> []) by (by intros ->). unfold srtcp_decrypt. apply ok_bind, ok_gets. cbn [x_mb vw mb_pos]. apply ok_bind. unfold rwire. rewrite <-!app_assoc. eapply ok_get_ssrc; [done..|].
  apply ok_bind, ok_stream_get.
  - intros st Hf. eapply ok_srtcp_open; [done|done|done|exact Hf|done|]. destruct HS as [Hs|(st' & Hf' & [?|Hi])]; [unfold sfind in Hf; by rewrite Hs in Hf|by left|]. right. left. rewrite Hf in Hf'. injection Hf' as <-. lia.
  - intros Hf. destruct HS as [Hs|(st' & Hf' & Hi)]; [|congruence]. split; [rewrite Hs; cbn; unfold SRTP_MAX_STREAMS; lia|].
    intros sp' st Hf' Hc Hi Hr. eapply (ok_srtcp_open _ _ sp' st); [by rewrite Hc|done|done|done|done|]. right. by right.
Qed.

(** ** Sessions with the same key *)
Definition suite_rkeys (suite : srtp_suite) (key : bytes) : keys :=
  let '(mode, c, _, tag, hash) := suite_params suite in
  let k := take c key in let salt := drop c key in
  Keys mode (derived c 3 k salt) (if hash then Some (derived SHA_DIGEST_LENGTH 4 k salt) else None) (derived 14 5 k salt ++ [0; 0]) tag.
Lemma suite_rkeys_ok suite key : rkeys_ok (suite_rkeys suite key).
Proof. destruct suite; cbn; try done; split; (done || lia). Qed.
Lemma srtcp_alloc_run suite key u s : length key = suite_key_len suite ->
  exists sp s', srtp_alloc suite key u s = (inr sp, s') /\ rkeyed (sp_rtcp sp) (suite_rkeys suite key) (negb u) /\ streaml sp = [].
Proof.
  intros Hl. destruct (srtp_alloc_comps suite key u s Hl) as (sp & s' & E & _ & K & S). exists sp, s'. split_and!; [done| |done].
  rewrite K. unfold suite_rkeys, new_comp. destruct (suite_params suite) as [[[[mode c] sl] tag] hash]. destruct u; cbn [negb rkeyed]; [done|]. eexists. cbn. split_and!; done.
Qed.

(** ** Sequences of control packets *)
Definition is_rtcp (n : Z) (d : bytes) : Prop := exists hd pl, d = hd ++ pl /\ length hd = 8%nat /\ from_be (drop 4 hd) = n.
Definition on_rwire (K : keys) (enc : bool) (n N : Z) (d w : bytes) : Prop :=
  exists hd pl, d = hd ++ pl /\ length hd = 8%nat /\ from_be (drop 4 hd) = n /\ w = rwire K enc n N hd pl.
Lemma rsend_all K enc n pk : forall sp s M, rkeyed (sp_rtcp sp) K enc -> rnumber sp n M -> 0 <= M -> M + zlen pk < 2 ^ 31 -> Forall (is_rtcp n) pk ->
  exists ws, process_all srtcp_encrypt pk sp s = map inr ws /\ length ws = length pk /\ forall i d w, pk !! i = Some d -> ws !! i = Some w -> on_rwire K enc n (M + 1 + Z.of_nat i) d w.
Proof.
  induction pk as [|d pk IH]; intros sp s M HK HM H0 Hlen HP; [by exists []|]. apply Forall_cons in HP as [(hd & pl & -> & Hl & Hn) HP]. cbn [length] in Hlen.
  destruct (ok_srtcp_encrypt K enc sp [] hd pl [] n M HK Hl Hn HM ltac:(lia) s) as (u & w' & s' & E & suf' & Emb & HK' & HM').
  cbn [process_all]. unfold process. rewrite E. rewrite Emb, vw_buf. destruct (IH (x_s w') s' (M + 1) HK' HM') as (ws & Ew & Elen & HF); [lia|lia|done|].
  exists (rwire K enc n (M + 1) hd pl :: ws). rewrite Ew. split_and!; [done|cbn; congruence|]. intros [|i] d w.
  - intros [= <-] [= <-]. exists hd, pl. rewrite Z.add_0_r. done.
  - cbn. intros Hd Hw. specialize (HF i d w Hd Hw). by replace (M + 1 + Z.of_nat (S i)) with (M + 1 + 1 + Z.of_nat i) by lia.
Qed.
(** The wire packets that arrive: [ps] are their places, in order. *)
Lemma rreceive_all K enc n (pk ws : list bytes) ps : forall sp s M, rkeys_ok K -> rkeyed (sp_rtcp sp) K enc -> rstate sp n M K ->
  zlen pk < 2 ^ 31 - 1 -> length ws = length pk -> (forall i d w, pk !! i = Some d -> ws !! i = Some w -> on_rwire K enc n (1 + Z.of_nat i) d w) ->
  (forall i, i ∈ ps -> M < 1 + Z.of_nat i /\ (i < length pk)%nat) -> StronglySorted lt ps ->
  process_all srtcp_decrypt (omap (ws !!.) ps) sp s = map inr (omap (pk !!.) ps).
Proof.
  induction ps as [|i ps IH]; intros sp s M HO HK HS Hlen Hws HF Hin Hso; [done|]. apply StronglySorted_inv in Hso as [Hso Hall].
  destruct (Hin i ltac:(left)) as [HMi Hi]. destruct (lookup_lt_is_Some_2 pk i Hi) as [d Hd]. destruct (lookup_lt_is_Some_2 ws i ltac:(lia)) as [w Hw].
  cbn [omap list_omap]. rewrite Hd, Hw. cbn [process_all map]. destruct (HF i d w Hd Hw) as (hd & pl & -> & Hl & Hn & ->).
  destruct (ok_srtcp_decrypt K enc sp [] hd pl [] n M (1 + Z.of_nat i) HK HO Hl Hn HS HMi ltac:(lia) s) as (u & w' & s' & E & suf' & st & Emb & HK' & Hf' & Hr').
  unfold process. rewrite E, Emb, vw_buf. f_equal. eapply (IH _ _ (1 + Z.of_nat i)); [done|done|right; by exists st|done|done|done| |done].
  intros j Hj. rewrite List.Forall_forall in Hall. apply list_elem_of_In in Hj as Hj'. specialize (Hall j Hj'). destruct (Hin j ltac:(by right)). lia.
Qed.

(** Control packets of a stream that are sent are all sent, and whichever of them
    arrive in order come out exactly as they went in, with every suite, whether
    the sessions encrypt control packets or not. *)
Theorem srtcp_delivers (suite : srtp_suite) (key : bytes) (u : bool) (n : Z) (pk : list bytes) (s1 s2 : sys) :
  length key = suite_key_len suite -> Forall (is_rtcp n) pk -> zlen pk < 2 ^ 31 - 1 ->
  exists tx s1' rx s2' ws, srtp_alloc suite key u s1 = (inr tx, s1') /\ srtp_alloc suite key u s2 = (inr rx, s2') /\
    process_all srtcp_encrypt pk tx s1' = map inr ws /\ length ws = length pk /\
    forall ps, StronglySorted lt ps -> Forall (fun i => i < length pk)%nat ps ->
      process_all srtcp_decrypt (omap (ws !!.) ps) rx s2' = map inr (omap (pk !!.) ps).
Proof.
  intros Hk HP Hlen. destruct (srtcp_alloc_run suite key u s1 Hk) as (tx & s1' & E1 & K1 & S1). destruct (srtcp_alloc_run suite key u s2 Hk) as (rx & s2' & E2 & K2 & S2).
  destruct (rsend_all _ _ n pk tx s1' 0 K1) as (ws & Ew & Elen & HF); [by left|done|lia|done|]. exists tx, s1', rx, s2', ws. split_and!; [done..|].
  intros ps Hso Hall. eapply (rreceive_all _ _ n pk ws ps rx s2' 0 (suite_rkeys_ok suite key) K2); [by left|done|done|done| |done].
  intros i Hi. rewrite Forall_forall in Hall. specialize (Hall i Hi). lia.
Qed.
End rtcp.
