(* ===== verification/SrtpAuth.v ===== *)
(** * Secure RTP: authenticity, and where it fails

    An accepted RTP packet carries a tag made with the session's key.  With the
    suites without a hash a control packet that claims not to be encrypted is
    accepted from anybody, and control packets can be replayed; a forged RTP
    packet is refused but stops the stream it pretends to belong to.  The file
    ends with a concrete cipher on which the theorems are run. *)
From S2P Require Import Prelude Sys Fmt Mbuf Rtp Srtp SrtpReplay SrtpDeliver SrtcpDeliver.
From Stdlib Require Import Sorted.
From stdpp Require Import list.
Local Open Scope Z_scope.

(** ** Accepted packets are authentic *)
Section authentic.
Context `{V : Env} `{C : Crypto}.
#[local] Existing Instances obs_rv obs_shape keeps_hdr keeps_recv_shape.

Lemma recv_index_mb h w s ix w' s' : recv_index h w s = (inr ix, w', s') -> x_mb w' = x_mb w.
Proof.
  unfold recv_index, mbind, X_bind, stream_of. destruct (stream_find _ _); [|done]. destruct (_ >? _); [done|].
  assert (forall b : bool, x_mb (when b (upd_stream (h_ssrc h) (fun st => set_s_l 0 (set_roc (u32 (roc st + 1)) st))) w s).1.2 = x_mb w) as K by (by intros []).
  specialize (K (seq_diff (s_l s0) (h_seq h) <=? -32768)). destruct (when _ _ _ _) as [[[?|?] w1] ?]; [done|]. cbn in K. destruct (stream_find _ _); [|done]. by intros [= _ <- _].
Qed.
Lemma get_seq_mb n q w s : x_mb (try_s (fun sp => stream_get_seq sp n q) w s).1.2 = x_mb w.
Proof. unfold try_s. by destruct (stream_get_seq _ _ _ _) as [[? ?] ?]. Qed.

Lemma check_tag_inv key n ix pre hd rest suf tl sp s w s' : (4 <= tl)%nat -> check_tag key n ix (length pre) tl (Ctx sp (vw (pre ++ hd) rest suf)) s = (inr tt, w, s') ->
  exists body v, hd ++ rest = body ++ take tl (evp_hmac key (body ++ be32 v)).
Proof.
  intros Ht. unfold check_tag. intros (mb & w1 & s1 & [= <- <- <-] & H)%bind_inv. cbn [x_mb] in H. rewrite vw_left in H.
  destruct (Nat.ltb_spec (length rest) tl) as [|Hr]; [done|]. destruct (split_at (length rest - tl) rest) as (ct & tg & -> & Hct); [lia|].
  rewrite length_app in *. assert (length tg = tl) as Htg by lia. cbn [vw mb_pos mb_end] in H.
  replace (length (pre ++ hd) + length (ct ++ tg) - tl)%nat with (length (pre ++ hd ++ ct)) in H by (rewrite !length_app; lia).
  apply bind_inv in H as (st & w2 & s2 & H2 & H). unfold stream_of in H2. destruct (stream_find _ _) as [st'|]; [|done]. injection H2 as <- <- <-.
  apply bind_inv in H as ([] & w3 & s3 & [= <- <-] & H). cbn [x_s x_mb mb_buf mb_end] in H. apply bind_inv in H as (tag_pkt & w4 & s4 & H4 & H).
  unfold read_mem, mbuf_read_mem, mbuf_get_left in H4. cbn [x_mb x_s mb_buf mb_pos mb_end] in H4. destruct (_ <? tl)%nat; [done|].
  replace ((pre ++ hd) ++ (ct ++ tg) ++ suf) with ((pre ++ hd ++ ct) ++ tg ++ suf) in H4 by (by rewrite <-!app_assoc). rewrite drop_app_length, <-Htg, take_app_length in H4. injection H4 as <- <- <-.
  do 2 apply bind_inv in H as ([] & ? & ? & [= <- <-] & H). cbn [x_s x_mb mb_buf mb_end mbuf_advance] in H.
  apply bind_inv in H as ([] & w5 & s5 & H5 & H). unfold try_mb in H5. cbn [x_s x_mb] in H5.
  unfold mbuf_write_u32 in H5. rewrite mbuf_write_mem_room in H5 by (unfold mb_size; cbn [mb_buf mb_pos]; rewrite be32_length, !length_app; lia). cbn [Z.eqb] in H5. injection H5 as <- <-.
  apply bind_inv in H as ([] & ? & ? & [= <- <-] & H). apply bind_inv in H as (mb & ? & ? & [= <- <- <-] & H). cbn [x_s x_mb mbuf_put mb_buf mb_end mb_pos] in H. rewrite take_app_length in H. rewrite Nat.max_r in H by lia.
  set (v := roc st') in *. apply bind_inv in H as (tag & w6 & s6 & H6 & H).
  assert (tag = evp_hmac key (hd ++ ct ++ be32 v)) as ->.
  { revert H6. match goal with |- context [mbuf_buf ?m] => assert (mbuf_buf m = hd ++ ct ++ be32 v) as -> end.
    { match goal with |- context [drop ?a ?b] => set (z := drop a b) end. replace (Mbuf _ _ _) with (vw pre (hd ++ ct ++ be32 v) z); [apply vw_buf|]. unfold vw. f_equal; [by rewrite <-!app_assoc|rewrite !length_app, be32_length; lia]. }
    unfold try_, hmac_digest, mbind, IO_bind. destruct (_ =? 0)%nat; [done|]. destruct (evp _) as [[] ?]; cbn; [by intros [= <- _ _]|done]. }
  do 2 apply bind_inv in H as ([] & ? & ? & [= <- <-] & H). destruct (bytes_eqb _ tg) eqn:E; [|done]. apply bool_decide_eq_true in E. exists (hd ++ ct), v. rewrite <-(app_assoc hd ct (be32 v)), E. by rewrite app_assoc.
Qed.

(** C28. Whatever arrives and whatever fails meanwhile: an RTP packet that is accepted
    by a session with a hash ends with the tag of what precedes it and of a
    roll-over counter under the session's key. *)
Theorem srtp_authentic (sp : srtp) (key : bytes) (mb : mbuf) (s s' : sys) (w : ctx) :
  mbuf_wf mb -> c_hmac (sp_rtp sp) = Some key -> (4 <= tag_len (sp_rtp sp))%nat -> srtp_decrypt (Ctx sp mb) s = (inr tt, w, s') ->
  exists body v, mbuf_buf mb = body ++ take (tag_len (sp_rtp sp)) (evp_hmac key (body ++ be32 v)).
Proof.
  intros Hwf HH Ht. destruct (vw_wf mb Hwf) as (pre & suf & E). revert E. generalize (mbuf_buf mb). intros d ->. unfold srtp_decrypt, decrypt_ix.
  intros (a & ? & ? & H & _)%bind_inv. apply bind_inv in H as (start & w1 & s1 & [= <- <- <-] & H). cbn [x_mb vw mb_pos] in H.
  pose proof (keeps (obs := shape) (m := hdr_decode) (Ctx sp (vw pre d suf)) s) as L1. apply bind_inv in H as (h & w2 & s2 & H2 & H). rewrite H2 in L1. cbn in L1.
  unfold hdr_decode in H2. cbn [x_mb x_s] in H2. destruct (rtp_hdr_decode (vw pre d suf)) as [[e h'] mb2] eqn:ED. destruct (Z.eqb_spec e 0) as [-> |]; [|done]. injection H2 as <- <- <-.
  destruct (decode_header _ _ _ _ _ ED) as (hd & rest & -> & HD & _). rewrite (HD pre rest suf) in ED. injection ED as <-.
  apply bind_inv in H as ([] & w3 & s3 & H3 & H). pose proof (get_seq_mb (h_ssrc h') (h_seq h') (Ctx sp (vw (pre ++ hd) rest suf)) s) as M3.
  pose proof (keeps_get_seq_shape (h_ssrc h') (h_seq h') (Ctx sp (vw (pre ++ hd) rest suf)) s) as L3. rewrite H3 in M3, L3. cbn in M3, L3.
  apply bind_inv in H as (ix & w4 & s4 & H4 & H). pose proof (recv_index_mb _ _ _ _ _ _ H4) as M4. pose proof (keeps (obs := shape) (m := recv_index h') w3 s3) as L4. rewrite H4 in L4. cbn in L4.
  apply bind_inv in H as (c & ? & ? & [= <- <- <-] & H). assert (shape (x_s w4) = shape sp) as Hs by congruence. unfold shape in Hs. injection Hs as _ _ Eh Et. rewrite Eh, Et, HH in H.
  apply bind_inv in H as ([] & w5 & s5 & H5 & _). destruct w4 as [sp4 mb4]. cbn in M4. subst mb4. rewrite M3 in H5. eapply check_tag_inv; [exact Ht|exact H5].
Qed.
End authentic.

(** ** Control packets without a hash *)
Section unchecked.
Context `{V : Env} `{C : Crypto} `{VA : !AllocOk V} `{CO : !CryptoOk C} `{CS : !CryptoSpec C}.

(** In a session with a suite without a hash, whoever sends a control packet
    whose last four octets do not claim encryption is believed: nothing is
    checked, and the session hands the packet on. *)
Theorem srtcp_unchecked (suite : srtp_suite) (key : bytes) (u : bool) (s : sys) (hd body v : bytes) :
  suite = SRTP_AES_128_GCM \/ suite = SRTP_AES_256_GCM -> length key = suite_key_len suite ->
  length hd = 8%nat -> length v = 4%nat -> Z.testbit (from_be v) 31 = false ->
  exists sp s', srtp_alloc suite key u s = (inr sp, s') /\ (process srtcp_decrypt (hd ++ body ++ v) sp s').1.1 = inr (hd ++ body).
Proof.
  intros Hsu Hk Hl Hv Hb. destruct (srtp_alloc_comps suite key u s Hk) as (sp & s' & E & _ & Hc & Hs). exists sp, s'. split; [done|].
  assert (c_hmac (sp_rtcp sp) = None /\ tag_len (sp_rtcp sp) = 0%nat) as [EH ET] by (rewrite Hc; destruct Hsu as [-> | ->]; done).
  assert (ok srtcp_decrypt (Ctx sp (vw [] (hd ++ body ++ v) [])) (fun _ w => mbuf_buf (x_mb w) = hd ++ body)) as K.
  { unfold srtcp_decrypt. apply ok_bind, ok_gets. cbn [x_mb vw mb_pos]. apply ok_bind. eapply ok_get_ssrc; [done|done|]. apply ok_bind.
    assert (forall sp', sp_rtcp sp' = sp_rtcp sp -> ok (srtcp_open (from_be (drop 4 hd)) 0) (Ctx sp' (vw ([] ++ hd) (body ++ v) [])) (fun _ w => mbuf_buf (x_mb w) = hd ++ body)) as Ho.
    { intros sp' Hsp. unfold srtcp_open. apply ok_bind, ok_gets, ok_bind, ok_gets. cbn [x_s x_mb]. rewrite Hsp, EH, ET, vw_left. destruct (Nat.ltb_spec (length (body ++ v)) (4 + 0)) as [K1|_]; [rewrite length_app in K1; lia|].
      cbn [vw mb_buf mb_pos mb_end app]. replace (length hd + length (body ++ v) - (4 + 0))%nat with (length (hd ++ body)) by (rewrite !length_app; lia).
      assert (Mbuf (hd ++ (body ++ v) ++ []) (length (hd ++ body)) (length hd + length (body ++ v)) = vw (hd ++ body) (v ++ []) []) as ->.
      { unfold vw. rewrite !app_nil_r, <-!app_assoc. f_equal. rewrite !length_app. lia. }
      unfold mbuf_read_u32. rewrite vw_read_be by done. apply ok_bind, ok_update. cbn [x_s x_mb]. apply ok_bind, ok_ret, ok_bind, ok_update, ok_bind. rewrite Hb. cbn [x_s x_mb vw mb_buf mb_pos].
      assert (ok (set_pos 0) (Ctx sp' (Mbuf (((hd ++ body) ++ v) ++ [] ++ []) (length ((hd ++ body) ++ v)) (length (hd ++ body)))) (fun _ w => mbuf_buf (x_mb w) = hd ++ body)) as Kend.
      { apply ok_update. cbn [x_mb mb_buf mb_end]. unfold mbuf_buf, mbuf_get_left. cbn [mb_buf mb_pos mb_end]. rewrite Nat.sub_0_r, drop_0, !app_nil_r. by rewrite take_app_length. }
      destruct (c_aes (sp_rtcp sp)); apply ok_ret, Kend. }
    apply ok_stream_get; [intros st Hf; unfold sfind in Hf; by rewrite Hs in Hf|]. intros _. rewrite Hs. split; [cbn; unfold SRTP_MAX_STREAMS; lia|]. intros sp' st _ Hc' _ _. by apply Ho. }
  destruct (K s') as (a & w' & s2 & E2 & Hm). unfold process. rewrite E2. cbn. by rewrite Hm.
Qed.
End unchecked.

(** ** A concrete cipher *)
Definition mix (l : bytes) : Z := fold_left (fun a b => (a * 31 + b + 7) mod 65521) l 1.
Definition demo_crypto : Crypto := {|
  evp_ok _ := true;
  evp_ctr k iv n d := map (fun b => Z.lxor b (mix (k ++ iv) mod 256)) d;
  evp_gcm _ k iv n d := map (fun b => Z.lxor b (mix (k ++ iv) mod 256)) d;
  evp_gcm_tag k iv a d := replicate 16 (mix (k ++ iv ++ a ++ d));
  evp_hmac k d := replicate 20 (mix (k ++ d))
|}.
#[local] Existing Instances good_env demo_crypto.
#[local] Instance demo_crypto_ok : CryptoOk demo_crypto.
Proof. done. Qed.
Lemma xor_cipher_twice k d : map (fun b => Z.lxor b k) (map (fun b => Z.lxor b k) d) = d.
Proof. induction d as [|b d IH]; [done|]. cbn. rewrite IH, Z.lxor_assoc, Z.lxor_nilpotent, Z.lxor_0_r. done. Qed.
#[local] Instance demo_crypto_spec : CryptoSpec demo_crypto.
Proof. split; intros; cbn -[replicate]; rewrite ?length_map, ?length_replicate; try done; apply xor_cipher_twice. Qed.

Definition demo_key : bytes := map Z.of_nat (seq 1 30).
Definition rtp_packet (n : Z) (pl : bytes) : bytes := [128; 96] ++ be16 n ++ be32 1000 ++ be32 77 ++ pl.
Definition rtcp_packet (pl : bytes) : bytes := [128; 200; 0; 6] ++ be32 77 ++ pl.
Definition demo_packets : list (Z * bytes) := map (fun n => (n, rtp_packet n [n mod 256; 2; 3])) [65535; 65536; 65540].
Lemma demo_are_packets : Forall (is_packet 77) demo_packets.
Proof. repeat constructor; eexists _, _; (split; [reflexivity|]); split; reflexivity. Qed.
Lemma demo_in_order : in_order None demo_packets.*1.
Proof. cbn. lia. Qed.
(** The second of three packets around a roll-over is lost. *)
Lemma srtp_delivers_witness : exists tx s1 rx s2 w1 w2 w3,
  srtp_alloc SRTP_AES_CM_128_HMAC_SHA1_80 demo_key false (Sys 0 []) = (inr tx, s1) /\
  process_all (srtp_encrypt) demo_packets.*2 tx s1 = [inr w1; inr w2; inr w3] /\
  process_all (srtp_decrypt) [w1; w3] rx s2 = [inr (rtp_packet 65535 [255; 2; 3]); inr (rtp_packet 4 [4; 2; 3])].
Proof.
  destruct (srtp_delivers SRTP_AES_CM_128_HMAC_SHA1_80 demo_key false false 77 demo_packets (Sys 0 []) (Sys 0 []) eq_refl demo_are_packets demo_in_order)
    as (tx & s1 & rx & s2 & ws & E1 & E2 & Ew & El & H).
  destruct ws as [|w1 [|w2 [|w3 [|? ?]]]]; [discriminate El..| |discriminate El]. exists tx, s1, rx, s2, w1, w2, w3. split; [exact E1|]. split; [exact Ew|].
  apply (H [((65535, rtp_packet 65535 [255; 2; 3]), w1); ((65540, rtp_packet 65540 [4; 2; 3]), w3)]).
  - apply sublist_skip, sublist_cons, sublist_skip, sublist_nil.
  - cbn. lia.
Defined.

(** A session that has accepted a packet refuses it when it comes again. *)
Definition demo_session : srtp * sys :=
  match srtp_alloc SRTP_AES_CM_128_HMAC_SHA1_32 demo_key false (Sys 0 []) with (inr sp, s) => (sp, s) | (inl _, s) => (Srtp (Comp None AES_MODE_CTR None [] 0) (Comp None AES_MODE_CTR None [] 0) [], s) end.
Definition protect1 (n : Z) : bytes :=
  match (process (srtp_encrypt) (rtp_packet n [1; 2; 3]) demo_session.1 demo_session.2).1.1 with inr d => d | inl _ => [] end.
Lemma demo_session_alloc : srtp_alloc SRTP_AES_CM_128_HMAC_SHA1_32 demo_key false (Sys 0 []) = (inr demo_session.1, demo_session.2).
Proof. vm_compute. reflexivity. Qed.
Lemma srtp_no_replay_witness :
  let l := map (fun d => vw [] d []) [protect1 5; protect1 5; protect1 7; protect1 6; protect1 7] in
  NoDup (receive l demo_session.1 demo_session.2) /\
  receive l demo_session.1 demo_session.2 = [(77, 5); (77, 7); (77, 6)].
Proof.
  split; [|vm_compute; reflexivity].
  apply (srtp_no_replay SRTP_AES_CM_128_HMAC_SHA1_32 demo_key false (Sys 0 []) demo_session.2 demo_session.1). exact demo_session_alloc.
Defined.
Lemma srtp_authentic_witness : exists body v, protect1 5 = body ++ take 4 (evp_hmac (replicate 20 49) (body ++ be32 v)).
Proof.
  destruct (srtp_decrypt (Ctx demo_session.1 (vw [] (protect1 5) [])) demo_session.2) as [[[e|[]] w] s'] eqn:E; [vm_compute in E; discriminate E|].
  apply (srtp_authentic demo_session.1 (replicate 20 49) (vw [] (protect1 5) []) demo_session.2 s' w).
  - vm_compute. lia.
  - vm_compute. reflexivity.
  - vm_compute. lia.
  - exact E.
Defined.
Lemma srtcp_delivers_witness : exists tx s1 rx s2 w1 w2 w3,
  srtp_alloc SRTP_AES_CM_128_HMAC_SHA1_80 demo_key false (Sys 0 []) = (inr tx, s1) /\
  process_all srtcp_encrypt [rtcp_packet [1]; rtcp_packet [2]; rtcp_packet []] tx s1 = [inr w1; inr w2; inr w3] /\
  process_all srtcp_decrypt [w1; w3] rx s2 = [inr (rtcp_packet [1]); inr (rtcp_packet [])].
Proof.
  destruct (srtcp_delivers SRTP_AES_CM_128_HMAC_SHA1_80 demo_key false 77 [rtcp_packet [1]; rtcp_packet [2]; rtcp_packet []] (Sys 0 []) (Sys 0 []) eq_refl)
    as (tx & s1 & rx & s2 & ws & E1 & E2 & Ew & El & H).
  - repeat constructor; eexists (rtcp_packet []), _; (split; [reflexivity|]); split; reflexivity.
  - cbn. lia.
  - destruct ws as [|w1 [|w2 [|w3 [|? ?]]]]; [discriminate El..| |discriminate El]. exists tx, s1, rx, s2, w1, w2, w3. split; [exact E1|]. split; [exact Ew|].
    apply (H [0%nat; 2%nat]); repeat constructor.
Defined.

(** ** What the code lets through or loses *)
Definition gcm_key : bytes := map Z.of_nat (seq 1 28).
Definition run_suite (suite : srtp_suite) (key : bytes) (op : X unit) (l : list bytes) : list (Z + bytes) :=
  match srtp_alloc suite key false (Sys 0 []) with (inr sp, s) => process_all op l sp s | (inl e, _) => [inl e] end.
(** A forged control packet, accepted. *)
Lemma srtcp_unchecked_witness : exists sp s',
  srtp_alloc SRTP_AES_128_GCM gcm_key false (Sys 0 []) = (inr sp, s') /\ (process srtcp_decrypt (rtcp_packet [6; 6; 6] ++ [0; 0; 0; 0]) sp s').1.1 = inr (rtcp_packet [6; 6; 6]).
Proof. apply (srtcp_unchecked SRTP_AES_128_GCM gcm_key false (Sys 0 []) (rtcp_packet []) [6; 6; 6] [0; 0; 0; 0]); try reflexivity. by left. Defined.

Definition wires (l : list (Z + bytes)) : list bytes := omap (fun r => match r with inr d => Some d | inl _ => None end) l.
(** A control packet is accepted as often as it comes, with a suite without a
    hash; with a hash it is refused the second time. *)
Lemma srtcp_replayed :
  let w := wires (run_suite SRTP_AES_128_GCM gcm_key srtcp_encrypt [rtcp_packet [1]]) in
  let w' := wires (run_suite SRTP_AES_CM_128_HMAC_SHA1_80 demo_key srtcp_encrypt [rtcp_packet [1]]) in
  run_suite SRTP_AES_128_GCM gcm_key srtcp_decrypt (w ++ w) = [inr (rtcp_packet [1]); inr (rtcp_packet [1])] /\
  run_suite SRTP_AES_CM_128_HMAC_SHA1_80 demo_key srtcp_decrypt (w' ++ w') = [inr (rtcp_packet [1]); inl EALREADY].
Proof. vm_compute. done. Qed.

(** A packet with a wrong tag is refused, but the roll-over counter has been
    advanced already: the genuine packets that follow are refused until the
    sender rolls over. *)
Lemma forged_packet_desyncs :
  let ps := map (fun n => rtp_packet n [1; 2]) [40000; 40001; 40002] in
  let forged := rtp_packet 0 (replicate 12 0) in
  let ws := wires (run_suite SRTP_AES_CM_128_HMAC_SHA1_80 demo_key srtp_encrypt ps) in
  run_suite SRTP_AES_CM_128_HMAC_SHA1_80 demo_key srtp_decrypt ws = map inr ps /\
  run_suite SRTP_AES_CM_128_HMAC_SHA1_80 demo_key srtp_decrypt (take 1 ws ++ [forged] ++ drop 1 ws) = [inr (rtp_packet 40000 [1; 2]); inl EAUTH; inl ETIMEDOUT; inl ETIMEDOUT].
Proof. vm_compute. done. Qed.
(** Forged packets of eight streams that do not exist keep every other stream
    out. *)
Lemma forged_streams_exhaust :
  let forged n := [128; 96] ++ be16 1 ++ be32 1000 ++ be32 n ++ replicate 12 0 in
  let ws := wires (run_suite SRTP_AES_CM_128_HMAC_SHA1_80 demo_key srtp_encrypt [rtp_packet 1 [1; 2]]) in
  run_suite SRTP_AES_CM_128_HMAC_SHA1_80 demo_key srtp_decrypt (map forged [1; 2; 3; 4; 5; 6; 7; 8] ++ ws) = replicate 8 (inl EAUTH) ++ [inl ENOSR].
Proof. vm_compute. done. Qed.
