(* ===== verification/Main.v ===== *)
(** * The program ([main.c])

    Command line, start-up in order, the event loop, and the clean-up.  The event
    loop is a parameter: any computation on the application's state. *)
From S2P Require Import Prelude Sys Fmt Mbuf Rtp H264 G711 AudioIn AudioOut Base64 Camera.
From S2P Require Import RtspAuth RtspParse RtspState RtspServer RtspReply RtspAccess RtspInv RtspMedia.
From S2P Require Import Session RelayClient StunClient HttpServer HttpProofs.

(** ** Command line *)
Record args := Args {
  ar_user : option bytes;
  ar_pass : option bytes;
  ar_relay : option bytes;
  ar_relay_port : Z;
  ar_device_id : option bytes;
  ar_relay_token : bytes;
  ar_stun : option bytes
}.
Definition args_default : args := Args None None None 443 None (cstr "smartlock2026") None.

Inductive flag := FUser | FPass | FRelay | FRelayPort | FDeviceId | FRelayToken | FStun.
Definition flag_text (f : flag) : bytes :=
  cstr (match f with
        | FUser => "--user" | FPass => "--pass" | FRelay => "--relay" | FRelayPort => "--relay-port"
        | FDeviceId => "--device-id" | FRelayToken => "--relay-token" | FStun => "--stun"
        end).
Definition all_flags : list flag := [FUser; FPass; FRelay; FRelayPort; FDeviceId; FRelayToken; FStun].

(** The comparisons in the order of the source. *)
Definition which_flag (x : bytes) : option flag := find (fun f => streq x (flag_text f)) all_flags.

Definition set_flag `{Env} (f : flag) (v : bytes) (a : args) : args :=
  match f with
  | FUser => Args (Some v) (ar_pass a) (ar_relay a) (ar_relay_port a) (ar_device_id a) (ar_relay_token a) (ar_stun a)
  | FPass => Args (ar_user a) (Some v) (ar_relay a) (ar_relay_port a) (ar_device_id a) (ar_relay_token a) (ar_stun a)
  | FRelay => Args (ar_user a) (ar_pass a) (Some v) (ar_relay_port a) (ar_device_id a) (ar_relay_token a) (ar_stun a)
  | FRelayPort =>
      Args (ar_user a) (ar_pass a) (ar_relay a) (u16 (atoi v)) (ar_device_id a) (ar_relay_token a) (ar_stun a)
  | FDeviceId => Args (ar_user a) (ar_pass a) (ar_relay a) (ar_relay_port a) (Some v) (ar_relay_token a) (ar_stun a)
  | FRelayToken => Args (ar_user a) (ar_pass a) (ar_relay a) (ar_relay_port a) (ar_device_id a) v (ar_stun a)
  | FStun => Args (ar_user a) (ar_pass a) (ar_relay a) (ar_relay_port a) (ar_device_id a) (ar_relay_token a) (Some v)
  end.

(** The loop over [argv + 1]; a flag without a value behind it is skipped. *)
Fixpoint parse_args `{Env} (l : list bytes) (a : args) : args :=
  match l with
  | [] => a
  | x :: t =>
      match t with
      | [] => a
      | v :: t' =>
          match which_flag x with
          | Some f => parse_args t' (set_flag f v a)
          | None => parse_args t a
          end
      end
  end.

(** ** Where the web pages are *)
Definition cut_last (path : bytes) : bytes :=
  match strrchr path 92 with
  | Some i => take i path
  | None => match strrchr path 47 with Some i => take i path | None => path end
  end.
Definition resolve_www_path `{Env} (exepath : bytes) (sz : nat) : bytes :=
  snprintf_str sz "%s/www" [AStr (cut_last (cut_last exepath))].

(** ** Start-up, loop, clean-up *)
Section Main.
Context `{V : Env}.
Variable event_loop : M app Z.

Definition with_relay {A} (m : M (relay * world) A) : M app A :=
  zoom (fun a => (ap_relay a, ap_world a))
    (fun x a => App (snd x) (ap_sess a) (ap_www a) (ap_pending a) (ap_timestamp a) (fst x) (ap_stun a) (ap_httpsock a))
    m.
Definition with_stun {A} (m : M (stun * unit) A) : M app A :=
  zoom (fun a => (ap_stun a, tt))
    (fun x a => App (ap_world a) (ap_sess a) (ap_www a) (ap_pending a) (ap_timestamp a) (ap_relay a) (fst x)
                  (ap_httpsock a)) m.

(** What happens between a listening RTSP server and the event loop. *)
Definition start_optional (ar : args) : M app unit :=
  (match ar_user ar, ar_pass ar with
   | Some u, Some p => with_world (on_auth (rtsp_auth_init (Some u) (Some p)))
   | _, _ => mret tt
   end) ;;
  (match ar_stun ar with
   | Some _ => _ ← with_stun (stun_discover 19302 false); mret tt
   | None => mret tt
   end) ;;
  match ar_relay ar, ar_device_id ar with
  | Some h, Some d =>
      _ ← with_relay (relay_client_start (Some h) (ar_relay_port ar) (Some d) (Some (ar_relay_token ar)) true);
      mret tt
  | _, _ => mret tt
  end.

(** The label [out]; [g_session] is never set, so its branch is never taken. *)
Definition cleanup (httpsock : option nat) : M app unit :=
  with_relay relay_client_stop ;;
  with_stun stun_close ;;
  with_world rtsp_server_close ;;
  http_sig_close ;;
  match httpsock with Some _ => lift (emit HttpSockFree) | None => mret tt end.

(** Everything between the initialisation of libre and the label [out]: the
    error and the HTTP socket; a failure jumps there. *)
Definition main_until_out (argv : list bytes) (exepath : bytes) (def : option sa) : M app (Z * option nat) :=
  let ar := parse_args argv args_default in
  '(err, httpsock) ← http_sig_init (resolve_www_path exepath 512);
  if negb (err =? 0) then mret (err, httpsock)
  else
    err ← with_world (rtsp_server_init def);
    if negb (err =? 0) then mret (err, httpsock)
    else
      start_optional ar ;;
      err ← event_loop;
      mret (err, httpsock).

Definition main (argv : list bytes) (exepath : bytes) (def : option sa) : M app Z :=
  err ← lift (ask QInit);
  if negb (err =? 0) then mret err
  else
    '(err, httpsock) ← main_until_out argv exepath def;
    cleanup httpsock ;;
    mret err.
End Main.


Section shutdown.
Context `{V : Env}.









End shutdown.

(** ** Theorems *)



(** The command line: a sequence of options with values sets exactly those
    values, in order, so that a later one wins. *)
Theorem parse_args_options `{V : Env} (opts : list (flag * bytes)) (a : args) :
  parse_args (concat (map (fun o => [flag_text (fst o); snd o]) opts)) a
  = fold_left (fun a o => set_flag (fst o) (snd o) a) opts a.
Proof.
  revert a. induction opts as [|[f v] opts IH]; intros a; [done|].
  assert (which_flag (flag_text f) = Some f) as Hf by by destruct f.
  cbn [map concat fst snd fold_left Datatypes.app parse_args]. rewrite Hf. apply IH.
Qed.

(** ** Observed divergences *)

(** The HTTP socket is released twice although there is one reference to it:
    by [http_sig_close] and by [main]. *)
Lemma httpsock_released_twice :
  let '(_, _, s') := @main good_env (mret 0) [] (cstr "/opt/intercom_test/build/intercom_test") None demo_app
    (Sys 0 []) in
  length (List.filter (fun e => match e with HttpSockFree => true | _ => false end) (out s')) = 2%nat.
Proof. by vm_compute. Qed.

(** A call that is still active when the program ends is never closed: its
    session outlives the clean-up, and so does its use of the camera. *)
Lemma call_outlives_main :
  let start := fun a : app => set_sess (Some demo_session) (set_world (demo_world [] demo_auth) a) in
  let '(_, a', _) := @main good_env (modify start ;; mret 0) [] (cstr "/x/build/intercom_test") None demo_app
    (Sys 0 []) in
  ap_sess a' = Some demo_session.
Proof. by vm_compute. Qed.
